(* ===== verification/_CoqProject ===== *)
-Q . S2P
Prelude.v
Varint.v
StreamKind.v
ReasonCode.v
Prologue.v
Envelope.v
Async.v
StreamReader.v
Messages.v
MessageCodecs.v
Crypto.v
PermissionSet.v
PermissionSm.v
ConnectionSm.v
Auth.v
ChannelSm.v
VideoSm.v
Backpressure.v
QueueCircuitBreaker.v
VideoChannel.v
MonitorManager.v
ClientDisplay.v
SessionStore.v
FileHandleStore.v
FileReassembly.v
Connection.v
VideoSession.v
Handshake.v
Reconnection.v
TimeSync.v
FeedbackSession.v
InputState.v
InputSession.v
AudioSession.v
ClipboardSession.v
ConnError.v
InputInjection.v
InputForwarder.v
FrameSource.v
FileTransferSession.v
H264.v
SessionFile.v
TimecodeFrame.v
AsyncTriples.v
ServerVideo.v
ServerSession.v
ServerConnection.v
DisplayWindow.v
AppError.v
ClientVideo.v
ClientSession.v
Unicode.v
KeyTable.v
WinKeymap.v
MacKeymap.v
WorkerHandle.v
WinInject.v
WindowProc.v
Float64.v
MacInject.v
InputPath.v
MacCapture.v
WinCapture.v
RecordUpdate.v
Decimal.v
CommandLine.v
Ffmpeg.v
Measurement.v
FrameDump.v
WinApi.v
DisplayDevices.v
VideoPath.v
CaptureDevices.v
MacSessions.v
Setup.v
Netem.v
ServerMain.v
AudioTone.v
Fuzz.v
