(* ===== verification/Prelude.v ===== *)
(** * SARDP: a verification of the remote desktop protocol's core

    SARDP is a remote desktop protocol over QUIC.  A client opens a control
    stream, authenticates with a signature bound to the TLS session, and then
    exchanges video, feedback, input, clipboard, audio and file streams with the
    server; a lost connection leaves a suspended session that a reconnect token
    resumes.  The protocol logic is the Rust crate under [src/src/]; the programs
    under [src/sardp-cli/src/bin/] drive it.  This library models both, one file
    per component, and proves what makes each part correct.

    ** How the code is modelled

    Pure functions are Rocq functions and structs are records with the source's
    names (a prefix where two structs share a field name).  A [&mut self] method
    takes the record last and returns the new one; [Result] is [result], and a
    call that can panic ([assert!], [expect], an index out of range, a [Vec] above
    [isize::MAX]) returns [outcome].  Integers are [Z] with the wrap-around of a
    release build written out ([wrap], [swrap], [sat_sub], [checked_add]); [usize]
    has 64 bits.  Byte strings are lists of [Z].

    Async functions are state transformers that return a [poll] (file [Async]):
    done, waiting for good, timed out, or panicked.  What [quinn] does is a script
    (files [StreamReader] and [Connection]): the chunks and errors successive
    reads yield, how writes go, which streams are accepted, and when a timer armed
    around a wait fires ([RElapsed], [WStall]).  Theorems quantify over the script,
    so they hold for every chunking and every failure.  A past deadline shows as
    a timer event at the start of the next wait.  Concurrent tasks that share a
    locked store are sequences of atomic operations ([SessionStore.op],
    [FileHandleStore.op]).

    Libraries are parameters: [Async.Transport] (error types of [quinn] and
    [ciborium]), [Messages.Cbor] (CBOR, with the law that reading back what was
    written returns it), [Crypto.Sha256], [Crypto.Ed25519] and
    [Crypto.TlsExporter], [SessionStore.CtEq] ([subtle]'s comparison).  Random
    bytes and clock readings are arguments.  Each has a concrete instance, used by
    the witnesses and the examples.

    ** Files

    - [Prelude]: results, panics, machine integers, bytes, tactics, hint databases.
    - [Varint], [StreamKind], [ReasonCode], [Prologue], [Envelope], [Messages]
      ([varint.rs], [stream_kind.rs], [reason_code.rs], [prologue.rs],
      [envelope.rs], [messages.rs]): the wire format; [MessageCodecs], concrete codecs
      for the messages, for witnesses and examples.
    - [Async], [StreamReader] ([stream_reader.rs]), [Connection]: async code,
      buffered frame reading and writing, accepting and opening streams.
    - [PermissionSet], [PermissionSm] ([permission_set.rs], [permission_sm.rs]):
      permission bits, their live updates, the admin commands.
    - [ConnectionSm] ([connection_sm.rs]): the life of a connection.
    - [Crypto], [Auth] ([auth.rs]), [Handshake] ([handshake.rs]): channel binding,
      signatures and the handshake of both sides.
    - [SessionStore] ([session_store.rs]), [Reconnection] ([reconnection.rs]):
      suspended sessions, their expiry, and how a new connection is established.
    - [TimeSync] ([timesync.rs]): clock offset estimation and its exchange.
    - [VideoSession], [FeedbackSession], [InputSession], [AudioSession],
      [ClipboardSession] (the files [*_session.rs] of those names): both sides of
      each kind of stream.
    - [ConnError] ([conn_error.rs]): which errors of a connection suspend it.
    - [ChannelSm], [VideoSm], [Backpressure], [QueueCircuitBreaker],
      [VideoChannel], [MonitorManager], [ClientDisplay] (the files of those
      names): a video channel from its state machines to the focus over monitors.
    - [FileHandleStore] ([file_handle_store.rs]), [FileReassembly],
      [FileTransferSession] ([file_transfer_session.rs]): file transfer.
    - [InputState] ([input_state.rs]), [H264] ([h264.rs]), [SessionFile]
      ([session_file.rs]), [TimecodeFrame] ([timecode_frame.rs]), [FrameSource]
      ([frame_source.rs]).
    - [AsyncTriples]: pre- and postconditions and invariants of async code.
    - [InputInjection], [ServerVideo], [ServerSession], [ServerConnection]
      ([sardp-server.rs]): a connection to the server, from its first message over
      the session's loop to suspension.
    - [DisplayWindow] ([sardp-win/src/display.rs]): the client's window and the
      thread that decodes into it; [AppError], [InputForwarder], [ClientVideo],
      [ClientSession] ([sardp-client.rs]): a client's session, from the session file
      over the loop to the end.
    - [Unicode], [Float64]: UTF-8, UTF-16 and binary64 as Rust's [String], [char]
      and [f64] have them.
    - [KeyTable], [WinKeymap], [MacKeymap] (both [keymap.rs]): the key tables and
      their lookups; [WorkerHandle] ([worker_handle.rs]): the thread behind an
      injector; [WinInject], [MacInject] (both [inject.rs]): what the system is
      asked to inject.
    - [WindowProc] ([sardp-win/src/display.rs]): from window messages to input
      events; [InputPath]: the whole way of the input, from the client's window to
      the server's desktop.
    - [MacCapture], [WinCapture] (both [desktop_h264.rs]): capture and encoding,
      the one as callbacks that interleave with a worker, the other as a loop over
      a hardware encoder.  [CaptureDevices]: the latter call by call, with the
      devices it sets up; [MacSessions] ([shim.rs], [vt.rs] and their Swift side):
      the sessions of the former across the C interface.
    - [VideoPath]: the whole way of the video, from the server's frames to what the
      client reads.
    - [CommandLine] ([parse_args] of both binaries), over [Decimal] (numbers as
      text) and [RecordUpdate] (a notation); [FrameDump] ([dump_frame]); [Ffmpeg]
      ([encoder.rs], [decoder.rs]): the calls of an encoding process;
      [Measurement] ([measurement.rs]): the latency of one frame through encoder,
      video instance and decoder; [AudioTone] ([audio_session.rs]): the tone that
      stands in for sound.
    - [WinApi], [DisplayDevices] ([display.rs]): calls of Windows and what is held
      between them, and the display thread call by call, with the window and the
      devices it sets up.
    - [Setup] ([pki.rs], [net.rs] and the first part of both mains): certificates
      and endpoints; [ServerMain] ([main] of [sardp-server.rs]): the accept loop, the
      admin commands and the shutdown around the sessions; [Netem] ([netem.rs]):
      emulated network conditions; [Fuzz] ([fuzz_targets/]): when the fuzz target
      for streams panics.

    ** What the theorems show

    - Framing: varints, prologues and envelopes survive encoding and parsing;
      reading yields the same messages for every chunking of a stream
      ([read_envelopes_any_chunking]), and the buffer stays bounded.
    - Authentication: client and server complete a handshake with each other
      ([handshake_agree]); the server succeeds only after verifying a signature
      over this very exchange ([server_refuses_unverified], [context_binds]).
    - Sessions: every established connection is freshly authenticated or resumes
      a suspended session, whose token is spent ([established_is_authenticated],
      [reconnect_agree], [unentitled_is_refused], [token_spent_once]); a session
      can be resumed until its deadline and no expiry task of an earlier suspension
      removes it ([resumable_until_deadline]).
    - State machines: the reachable states and their histories ([reachable]), the
      message order a video instance accepts ([accepts_exactly_legal]), permission
      gates after any updates ([gate_follows_mask]), retry backoff.
    - Backpressure: the deque computes the minimum of its window
      ([baseline_is_window_min]); the tracker decides as an abstract three-phase
      machine does ([congestion_decisions]); a channel driven as documented never
      reports a violation ([conforming_accepts]); keyframe reopens are rate
      limited.
    - Files: what the sender sends the receiver reassembles
      ([transfer_roundtrip], [chunks_reassemble]); every verdict on a chunk and on
      a handle is characterised; an upload is received only under a handle that its
      stream presents and its session owns ([upload_ownership]).
    - Streams: a video instance opens on both sides alike ([instance_opens]) and
      its frames survive reads that are dropped at any await
      ([frames_survive_cancellation]); input, feedback and audio messages arrive
      in order ([input_in_order], [feedback_in_order], [audio_in_order]); a
      clipboard exchange comes to its answer ([clipboard_exchange]); only a
      transport's failure counts as a disconnect ([disconnect_is_cut_short]); the
      reported delay is off by no more than the clock estimate
      ([reported_delay_bounded]).
    - Input from end to end: what is typed into the client's window appears on the
      server's Windows desktop, character for character, whatever the keyboard
      layouts, and undisturbed key strokes as the same keys ([keyboard_arrives],
      [window_reports_text]); after a session nothing stays down
      ([windows_desktop_released], [mac_desktop_released]); what macOS is asked to
      post carries the modifiers that are down ([posts_carry_modifiers]), and
      clicks come in pairs ([clicks_pair_up]).
    - The display thread: what it does with a frame, call by call, is what the
      client's side of the model has it do ([frames_as_the_window_has_them]); it
      says once whether it is ready and gives back what it took, whichever calls
      fail ([thread_answers_and_releases]).
    - Programs: a command line that spells out some arguments is read back as them
      ([client_command_line_roundtrip]), what is accepted is in range
      ([client_accepts_sound], [server_accepts_sound]); a timecode survives a lossy
      codec ([timecode_survives_loss]), so a frame that arrives is measured
      ([measurement_succeeds]), and no other is
      ([measured_frame_is_the_captured_one]); dumped frames make up a stream
      ([dump_is_playable]).
    - Capture: frames are encoded no faster than the display's rate
      ([capture_is_paced]), carry the time of their image
      ([frames_carry_capture_times]) and are released at once
      ([frames_are_released]); the transform's permissions are kept
      ([input_permissions_kept]) and the worker stops when told to, if the
      transform's events come to an end ([capture_stops]), and need not if they do
      not ([endless_output_events]); what the thread does, call by call, is what the worker does,
      whichever calls fail ([calls_lead_to_the_worker]).  On macOS every frame is
      accounted for, those that the worker leaves behind included
      ([frames_accounted]), key frames go out with the first unit's parameter sets
      ([idrs_are_self_contained]) and a request for one is not forgotten
      ([request_reaches_encoder]); across the C interface a callback reaches a freed
      sink only behind a wait that timed out ([sinks_outlive_their_callbacks]), and
      every unit of a sample comes out in Annex B ([every_unit_is_converted]).
    - Video from end to end: the client reads the frames that the server sent, the
      first of each stream one that its source marks as an IDR, in order, numbered
      and with their times, up to where the streams were cut
      ([client_sees_what_the_server_sends]).
    - The server: a connection ends as its loop does, and is suspended exactly when
      its transport is lost ([connection_end]); its video and audio streams are in
      sequence over every reopening ([connection_streams_in_sequence]); transfers
      are answered once and by the rules, unless the write of the answer fails
      ([request_is_answered]); no frame goes out without permission
      ([view_gates_frames]); the control stream holds messages only, each whole but
      for a write that failed ([control_stream_is_typed]); feedback never breaks the state
      machines ([feedback_never_violates]); nothing stays pressed
      ([session_releases_input]); the loop ends in peace only when asked to
      ([session_end_is_asked_for]); the wait for an IDR frame ends
      ([next_idr_frame_ends]).
    - Around the sessions: a typed command is taken by one session, in order
      ([commands_go_to_one_session]), but one that gets no further stalls the others
      ([one_peer_stalls_the_others]); the server can always stop
      ([shutdown_ends]); the client trusts what the server presents
      ([trust_cert_is_presented]); handles that nobody presents are reclaimed
      ([reaper_reclaims]).
    - The client: from its set-up on, what it reports on its feedback stream is what
      it counts as displayed, and every frame is accounted for
      ([client_reports_frames], [frames_are_accounted]); the control stream holds
      keepalives and one announcement of the end ([client_control_stream]); the loop
      ends in peace for four reasons ([client_end]); waiting for the next instance
      terminates ([accept_next_generation_terminates]); the latency summary is that
      of its samples ([summarize_bounds]).
    - Input from window to desktop: what the forwarder puts on its stream makes the
      server hold down what the user does ([desktop_follows_window]); captured frames arrive in
      order or are dropped and counted ([frames_in_order]).
    - Input, display, H.264, time: mode boundaries, exact releases, newest
      generation, self-contained IDRs, the error bound of the clock offset.

    ** Bounds and fuel

    Several loops run on fuel.  [StreamReader.read_loop] takes an event of the
    script per turn and gets one turn more than there are events;
    [FileTransferSession.receive_loop] and [TimeSync.burst_loop] take a frame off
    the stream per turn and get one turn more than there are bytes;
    [H264.spans_loop] moves past a start code per turn and gets one turn more than
    there are bytes; [ClientSession.accept_next_generation_loop] takes a stream off
    the connection per retry and gets as many as there are; the loops of
    [WinCapture] ask for events, whose script may be followed by one event for ever,
    and get more turns than there are polls and outputs ([turns_left],
    [drain_turns]): if the events end they never run out ([total_encode_frame],
    [total_finish]), and otherwise running out stands for a loop that goes on for
    ever, since more turns do not end it ([feed_loop_enough], [collect_loop_enough]).  The [*_fuel]
    lemmas show that more fuel makes no difference
    and the [*_unfold] lemmas that a loop satisfies the source's equation, so no
    result depends on it.  [VideoSession.read_frame_retrying], a client that
    repeats a dropped read, is given more attempts than the script has events.

    ** Not modelled

    What the encoders, decoders and capture interfaces of Windows and macOS do
    behind their calls, rustls, QUIC, the reading of PEM files and the program [tc]:
    libraries and the operating system, behind parameters.  Of the window and its
    devices the arguments of calls that only configure them are left out, and so is
    everything that is only printed.  The programs under [src/tools/] that try out
    the interfaces of the systems ([mf_h264_encode], [send_input_poc], [mf_probe],
    the [main]s of both tools), the examples and the tests are not part of the
    system; of the tools the modules that the system uses are modelled.  The
    decimal form of floating point numbers and the sine of the platform are
    parameters.  Time is not metric in the stream scripts: a shared deadline is a
    timer event in each wait it bounds.  The session loop's clock for the idle
    deadline is: each turn says when it happens; so is that of the capture worker.

    Every component of the system is modelled; what could be added is behind the
    parameters. *)

From stdpp Require Export prelude gmap strings list.
From Stdlib Require Export ZArith.

#[export] Set Default Proof Using "Type".
Open Scope Z_scope.

(** * Error and panic values *)

(** [result E T] is Rust's [Result<T, E>]. *)
Inductive result (E T : Type) : Type :=
| Ok (x : T)
| Err (e : E).
Arguments Ok {E T} x.
Arguments Err {E T} e.

#[export] Instance result_ret E : MRet (result E) := fun T x => Ok x.
#[export] Instance result_bind E : MBind (result E) :=
  fun T U f m => match m with Ok x => f x | Err e => Err e end.
#[export] Instance result_fmap E : FMap (result E) :=
  fun T U f m => match m with Ok x => Ok (f x) | Err e => Err e end.

(** [Result::map_err]. *)
Definition map_err {E F T} (f : E -> F) (m : result E T) : result F T :=
  match m with Ok x => Ok x | Err e => Err (f e) end.

(** [Option::ok_or]. *)
Definition ok_or {E T} (o : option T) (e : E) : result E T :=
  match o with Some x => Ok x | None => Err e end.

Definition is_ok {E T} (m : result E T) : bool :=
  match m with Ok _ => true | Err _ => false end.

(** A computation that may hit [assert!], [expect], an index out of range or
    another Rust panic. *)
Inductive outcome (T : Type) : Type :=
| Done (x : T)
| Panicked.
Arguments Done {T} x.
Arguments Panicked {T}.

#[export] Instance outcome_ret : MRet outcome := fun T x => Done x.
#[export] Instance outcome_bind : MBind outcome :=
  fun T U f m => match m with Done x => f x | Panicked => Panicked end.

(** * Machine integers

    An unsigned [w]-bit integer is the [Z] in [0 .. 2^w - 1]; the operations
    the source uses are written with their wrap-around or saturation. *)

Definition in_width (w x : Z) : Prop := 0 <= x < 2 ^ w.
Definition is_u8 : Z -> Prop := in_width 8.
Definition is_u16 : Z -> Prop := in_width 16.
Definition is_u32 : Z -> Prop := in_width 32.
Definition is_u64 : Z -> Prop := in_width 64.

(** [x as u<w>] for an integer of any width, and the result of an arithmetic
    operator at width [w] in a build without overflow checks. *)
Definition wrap (w x : Z) : Z := x `mod` 2 ^ w.

(** [x as i<w>]. *)
Definition swrap (w x : Z) : Z := wrap w (x + 2 ^ (w - 1)) - 2 ^ (w - 1).

(** [a.saturating_sub(b)] on an unsigned type. *)
Definition sat_sub (a b : Z) : Z := Z.max 0 (a - b).

(** [a.saturating_add(b)] at unsigned width [w]. *)
Definition sat_add (w a b : Z) : Z := Z.min (2 ^ w - 1) (a + b).

(** [a.checked_add(b)] at unsigned width [w]. *)
Definition checked_add (w a b : Z) : option Z :=
  if a + b <? 2 ^ w then Some (a + b) else None.

(** * Bytes *)

(** A byte string is a [list Z]; [bytes_ok] says that each element is a [u8]. *)
Definition bytes_ok (bs : list Z) : Prop := Forall is_u8 bs.

(** [x.to_le_bytes()] for an [n]-byte integer. *)
Fixpoint le_bytes (n : nat) (x : Z) : list Z :=
  match n with
  | O => []
  | S n' => x `mod` 256 :: le_bytes n' (x `div` 256)
  end.

(** [from_le_bytes]. *)
Fixpoint le_val (bs : list Z) : Z :=
  match bs with
  | [] => 0
  | b :: bs' => b + 256 * le_val bs'
  end.

(** [x.to_be_bytes()] for an [n]-byte integer. *)
Definition be_bytes (n : nat) (x : Z) : list Z := reverse (le_bytes n x).

(** [from_be_bytes]. *)
Definition be_val (bs : list Z) : Z := le_val (reverse bs).

(** * Text

    Where the source works on [char]s, a [&str] is the list of its Unicode
    scalar values. *)

(** A string literal of the source. *)
Definition chars (s : string) : list Z :=
  map (fun a => Z.of_N (Ascii.N_of_ascii a)) (String.list_ascii_of_string s).

(** [char::is_whitespace] (Unicode [White_Space]). *)
Definition is_whitespace (c : Z) : bool :=
  ((9 <=? c) && (c <=? 13)) || (c =? 0x20) || (c =? 0x85) || (c =? 0xA0) || (c =? 0x1680)
  || ((0x2000 <=? c) && (c <=? 0x200A)) || (c =? 0x2028) || (c =? 0x2029)
  || (c =? 0x202F) || (c =? 0x205F) || (c =? 0x3000).

Fixpoint trim_start (l : list Z) : list Z :=
  match l with
  | c :: l' => if is_whitespace c then trim_start l' else l
  | [] => []
  end.

(** [str::trim]. *)
Definition trim (l : list Z) : list Z := reverse (trim_start (reverse (trim_start l))).

(** * Tactics *)

(** [lia] on division and modulo by constants. *)
#[export] Ltac Zify.zify_post_hook ::= Z.to_euclidean_division_equations.

(** Splits on every boolean integer comparison and every [decide] of the goal
    or of a hypothesis, keeping the fact it stands for. *)
Ltac zcases :=
  repeat match goal with
  | |- context [?a <? ?b] => destruct (Z.ltb_spec a b)
  | |- context [?a <=? ?b] => destruct (Z.leb_spec a b)
  | |- context [?a =? ?b] => destruct (Z.eqb_spec a b)
  | |- context [?a >? ?b] => rewrite (Z.gtb_ltb a b)
  | |- context [?a >=? ?b] => rewrite (Z.geb_leb a b)
  | |- context [bool_decide ?P] => case_bool_decide
  | H : context [?a <? ?b] |- _ => destruct (Z.ltb_spec a b)
  | H : context [?a <=? ?b] |- _ => destruct (Z.leb_spec a b)
  | H : context [?a =? ?b] |- _ => destruct (Z.eqb_spec a b)
  | H : context [?a >? ?b] |- _ => rewrite (Z.gtb_ltb a b) in H
  | H : context [?a >=? ?b] |- _ => rewrite (Z.geb_leb a b) in H
  | H : context [bool_decide ?P] |- _ => case_bool_decide
  end.

(** Unfolds the width predicates to inequalities with literal bounds. *)
Ltac widths :=
  unfold is_u8, is_u16, is_u32, is_u64, in_width in *;
  change (2 ^ 8) with 256 in *; change (2 ^ 16) with 65536 in *;
  change (2 ^ 32) with 4294967296 in *;
  change (2 ^ 64) with 18446744073709551616 in *.

(** Evaluates the comparisons between constants, such as message types. *)
Ltac eval_types :=
  repeat match goal with
  | |- context [?a =? ?b] =>
      let v := eval vm_compute in (a =? b) in
      lazymatch v with true => idtac | false => idtac end;
      change (a =? b) with v
  end; cbv iota.

Create HintDb sardp.
Create Rewrite HintDb sardp.

(** * Lemmas on machine integers *)

Lemma wrap_small w x : in_width w x -> wrap w x = x.
Proof. unfold in_width, wrap. intros. by apply Z.mod_small. Qed.

Lemma wrap_in_width w x : 0 <= w -> in_width w (wrap w x).
Proof. intros. apply Z.mod_pos_bound. by apply Z.pow_pos_nonneg. Qed.

(** Equality of the values a [w]-bit integer can hold. *)
Definition eqw (w x y : Z) : Prop := wrap w x = wrap w y.

#[export] Instance eqw_equivalence w : Equivalence (eqw w).
Proof. split; [done|by intros x y|]. intros x y z. unfold eqw. congruence. Qed.

#[export] Instance eqw_add w : Proper (eqw w ==> eqw w ==> eqw w) Z.add.
Proof.
  intros x x' Hx y y' Hy. unfold eqw, wrap in *. by rewrite Zplus_mod, Hx, Hy, <- Zplus_mod.
Qed.

Lemma wrap_eqw w x : eqw w (wrap w x) x.
Proof. unfold eqw, wrap. apply Zmod_mod. Qed.

Lemma eq_eqw w x y : x = y -> eqw w x y.
Proof. by intros ->. Qed.

Lemma swrap_small w x :
  1 <= w -> - 2 ^ (w - 1) <= x < 2 ^ (w - 1) -> swrap w x = x.
Proof.
  intros Hw Hx. unfold swrap.
  assert (2 ^ w = 2 * 2 ^ (w - 1)) as E.
  { rewrite <- Z.pow_succ_r by lia. f_equal. lia. }
  rewrite wrap_small; [lia|]. unfold in_width. lia.
Qed.

Lemma sat_sub_nonneg a b : 0 <= sat_sub a b.
Proof. unfold sat_sub. lia. Qed.

Lemma sat_sub_in_width w a b : in_width w a -> 0 <= b -> in_width w (sat_sub a b).
Proof. unfold in_width, sat_sub. lia. Qed.

Lemma in_width_le w w' x : in_width w x -> w <= w' -> in_width w' x.
Proof.
  unfold in_width. intros [? ?] ?. split; [done|].
  eapply Z.lt_le_trans; [done|]. apply Z.pow_le_mono_r; lia.
Qed.

(** Bit masks and disjoint [or] as arithmetic. *)
Lemma land_ones_mod x n : 0 <= n -> Z.land x (2 ^ n - 1) = x `mod` 2 ^ n.
Proof.
  intros. rewrite <- Z.land_ones by done. f_equal. rewrite Z.ones_equiv. lia.
Qed.

Lemma lor_high_low a n b :
  0 <= n -> in_width n b -> Z.lor (a * 2 ^ n) b = a * 2 ^ n + b.
Proof.
  intros Hn [Hb0 Hb]. symmetry. apply Z.add_nocarry_lor, Z.bits_inj'. intros i Hi.
  rewrite Z.land_spec, Z.bits_0, <- Z.shiftl_mul_pow2, Z.shiftl_spec by done.
  destruct (Z.lt_ge_cases i n) as [Hlt|Hge].
  - by rewrite Z.testbit_neg_r by lia.
  - rewrite <- (Z.mod_small b (2 ^ n)) by lia.
    rewrite Z.mod_pow2_bits_high by lia. apply andb_false_r.
Qed.

(** * Lemmas on byte strings *)

Lemma length_le_bytes n x : length (le_bytes n x) = n.
Proof. revert x. induction n; intros; simpl; [done|]. by rewrite IHn. Qed.

Lemma length_be_bytes n x : length (be_bytes n x) = n.
Proof. unfold be_bytes. by rewrite length_reverse, length_le_bytes. Qed.

Lemma le_bytes_ok n x : bytes_ok (le_bytes n x).
Proof.
  revert x. induction n; intros; simpl; constructor; [|by apply IHn].
  apply (Z.mod_pos_bound x 256). lia.
Qed.

Lemma be_bytes_ok n x : bytes_ok (be_bytes n x).
Proof. unfold bytes_ok, be_bytes. apply Forall_reverse, le_bytes_ok. Qed.

Lemma le_val_le_bytes n x : le_val (le_bytes n x) = x `mod` 2 ^ (8 * Z.of_nat n).
Proof.
  revert x. induction n as [|n IH]; intros x; cbn [le_bytes le_val].
  { change (8 * Z.of_nat 0) with 0. by rewrite Z.mod_1_r. }
  rewrite IH.
  replace (8 * Z.of_nat (S n)) with (8 + 8 * Z.of_nat n) by lia.
  rewrite Z.pow_add_r by lia. change (2 ^ 8) with 256.
  rewrite Z.rem_mul_r; [done|lia|]. apply Z.pow_pos_nonneg; lia.
Qed.

Lemma le_val_bound bs : bytes_ok bs -> 0 <= le_val bs < 2 ^ (8 * Z.of_nat (length bs)).
Proof.
  induction 1 as [|b bs Hb _ IH]; cbn [le_val length]; [done|].
  replace (8 * Z.of_nat (S (length bs))) with (8 + 8 * Z.of_nat (length bs)) by lia.
  rewrite Z.pow_add_r by lia. widths. lia.
Qed.

Lemma le_bytes_le_val bs : bytes_ok bs -> le_bytes (length bs) (le_val bs) = bs.
Proof.
  induction 1 as [|b bs Hb _ IH]; cbn [le_val le_bytes length]; [done|]. widths.
  f_equal.
  - rewrite Z.mul_comm, Z.mod_add by lia. by apply Z.mod_small.
  - rewrite Z.mul_comm, Z.div_add, Z.div_small by lia. by rewrite Z.add_0_l.
Qed.

Lemma le_val_app a b : le_val (a ++ b) = le_val a + 2 ^ (8 * Z.of_nat (length a)) * le_val b.
Proof.
  induction a as [|x a IH]; [cbn; lia|].
  rewrite <- app_comm_cons. cbn [le_val length]. rewrite IH.
  replace (8 * Z.of_nat (S (length a))) with (8 + 8 * Z.of_nat (length a)) by lia.
  rewrite Z.pow_add_r by lia. change (2 ^ 8) with 256. ring.
Qed.

Lemma be_val_cons b bs : be_val (b :: bs) = b * 2 ^ (8 * Z.of_nat (length bs)) + be_val bs.
Proof.
  unfold be_val. rewrite reverse_cons, le_val_app, length_reverse. cbn [le_val]. lia.
Qed.

Lemma be_val_bound bs : bytes_ok bs -> 0 <= be_val bs < 2 ^ (8 * Z.of_nat (length bs)).
Proof.
  intros H. unfold be_val. rewrite <- (length_reverse bs).
  apply le_val_bound. by apply Forall_reverse.
Qed.

Lemma le_bytes_snoc n x :
  le_bytes (S n) x = le_bytes n x ++ [(x `div` 2 ^ (8 * Z.of_nat n)) `mod` 256].
Proof.
  revert x. induction n as [|n IH]; intros x.
  { cbn. by rewrite Z.div_1_r. }
  change (le_bytes (S (S n)) x) with (x `mod` 256 :: le_bytes (S n) (x `div` 256)).
  rewrite IH. change (le_bytes (S n) x) with (x `mod` 256 :: le_bytes n (x `div` 256)).
  cbn [app]. do 4 f_equal.
  replace (8 * Z.of_nat (S n)) with (8 + 8 * Z.of_nat n) by lia.
  rewrite Z.pow_add_r, Z.div_div by (try apply Z.pow_pos_nonneg; lia). done.
Qed.

Lemma be_bytes_cons n x :
  be_bytes (S n) x = (x `div` 2 ^ (8 * Z.of_nat n)) `mod` 256 :: be_bytes n x.
Proof. unfold be_bytes. by rewrite le_bytes_snoc, reverse_snoc. Qed.

Lemma be_val_be_bytes n x : be_val (be_bytes n x) = x `mod` 2 ^ (8 * Z.of_nat n).
Proof. unfold be_val, be_bytes. by rewrite reverse_involutive, le_val_le_bytes. Qed.

Lemma bytes_ok_app a b : bytes_ok (a ++ b) <-> bytes_ok a /\ bytes_ok b.
Proof. apply Forall_app. Qed.

(** * Generic lemmas on lists *)

Lemma Forall_snoc {A} (P : A -> Prop) l x : Forall P (l ++ [x]) <-> Forall P l /\ P x.
Proof. rewrite Forall_app, Forall_cons, Forall_nil. naive_solver. Qed.

Lemma fold_left_snoc {A B} (f : A -> B -> A) l x a : fold_left f (l ++ [x]) a = f (fold_left f l a) x.
Proof. by rewrite fold_left_app. Qed.

(** * Generic lemmas on results *)

Lemma bind_ok {E T U} (m : result E T) (f : T -> result E U) y :
  m ≫= f = Ok y <-> exists x, m = Ok x /\ f x = Ok y.
Proof.
  destruct m; simpl; split.
  - intros; eauto.
  - by intros (? & [= <-] & ?).
  - done.
  - by intros (? & ? & ?).
Qed.

Lemma bind_done {T U} (m : outcome T) (f : T -> outcome U) y :
  m ≫= f = Done y <-> exists x, m = Done x /\ f x = Done y.
Proof.
  destruct m; simpl; split.
  - intros; eauto.
  - by intros (? & [= <-] & ?).
  - done.
  - by intros (? & ? & ?).
Qed.

#[export] Hint Resolve wrap_in_width sat_sub_nonneg le_bytes_ok be_bytes_ok : sardp.
#[export] Hint Rewrite length_le_bytes length_be_bytes : sardp.
