(* ===== verification/Varint.v ===== *)
(** QUIC variable-length integers: the model of [src/src/varint.rs]. *)

From S2P Require Import Prelude.

(** * Definitions *)

Inductive VarintError := Incomplete.

(** [first >> 6] selects one of the four lengths; the bytes after the first
    are shifted in most significant first.  [<<] on [u64] drops the high bits,
    hence the [wrap]. *)
Definition decode (buf : list Z) : result VarintError (Z * nat) :=
  first ← ok_or (head buf) Incomplete;
  let len := Z.to_nat (Z.shiftl 1 (Z.shiftr first 6)) in
  if bool_decide (length buf < len)%nat then Err Incomplete
  else
    let value :=
      fold_left (fun value byte => Z.lor (wrap 64 (Z.shiftl value 8)) byte)
        (drop 1 (take len buf)) (Z.land first 0x3F) in
    Ok (value, len).

Definition MAX : Z := Z.shiftl 1 62 - 1.

(** Appends to [out]; the leading [assert!] is the [Panicked] case. *)
Definition encode (value : Z) (out : list Z) : outcome (list Z) :=
  if negb (value <=? MAX) then Panicked
  else if value <? Z.shiftl 1 6 then Done (out ++ [wrap 8 value])
  else if value <? Z.shiftl 1 14 then
    let v := wrap 16 value in
    Done (out ++ [Z.lor 0x40 (wrap 8 (Z.shiftr v 8)); wrap 8 v])
  else if value <? Z.shiftl 1 30 then
    let v := wrap 32 value in
    Done (out ++ be_bytes 4 (Z.lor 0x80000000 v))
  else Done (out ++ be_bytes 8 (Z.lor 0xC000000000000000 value)).

(** The wire length [encode] chooses. *)
Definition encoded_len (value : Z) : nat :=
  if value <? 2 ^ 6 then 1 else if value <? 2 ^ 14 then 2
  else if value <? 2 ^ 30 then 4 else 8.

(** The wire length [decode] reads off the first byte. *)
Definition form_len (first : Z) : nat :=
  if first <? 64 then 1 else if first <? 128 then 2 else if first <? 192 then 4 else 8.

(** * Lemmas *)

Example decode_rfc9000_8 :
  decode [0xc2; 0x19; 0x7c; 0x5e; 0xff; 0x14; 0xe8; 0x8c] = Ok (151288809941952652, 8%nat).
Proof. vm_compute. reflexivity. Qed.

Example encode_rfc9000_2 : encode 15293 [] = Done [0x7b; 0xbd].
Proof. vm_compute. reflexivity. Qed.

(** The accumulation loop of [decode] is positional notation as long as the
    result fits 64 bits. *)
Lemma decode_loop bs acc :
  bytes_ok bs -> 0 <= acc ->
  (acc + 1) * 2 ^ (8 * Z.of_nat (length bs)) <= 2 ^ 64 ->
  fold_left (fun value byte => Z.lor (wrap 64 (Z.shiftl value 8)) byte) bs acc
  = acc * 2 ^ (8 * Z.of_nat (length bs)) + be_val bs.
Proof.
  intros Hok. revert acc. induction Hok as [|b bs Hb Hbs IH]; intros acc Hacc Hfit.
  { cbn. unfold be_val. cbn. lia. }
  cbn [fold_left]. rewrite be_val_cons. cbn [length] in *.
  replace (8 * Z.of_nat (S (length bs))) with (8 + 8 * Z.of_nat (length bs)) in * by lia.
  rewrite Z.pow_add_r in * by lia. change (2 ^ 8) with 256 in *.
  assert (1 <= 2 ^ (8 * Z.of_nat (length bs))) by (apply Z.lt_pred_le, Z.pow_pos_nonneg; lia).
  assert (Z.lor (wrap 64 (Z.shiftl acc 8)) b = acc * 256 + b) as ->.
  { rewrite Z.shiftl_mul_pow2 by lia. rewrite wrap_small.
    - rewrite lor_high_low; [done|lia|done].
    - widths. nia. }
  widths. rewrite IH by nia. lia.
Qed.

Lemma first_len first :
  is_u8 first ->
  Z.to_nat (Z.shiftl 1 (Z.shiftr first 6))
  = form_len first.
Proof.
  intros H. unfold form_len. widths. rewrite Z.shiftr_div_pow2 by lia. change (2 ^ 6) with 64.
  rewrite Z.shiftl_1_l.
  assert (first / 64 = 0 \/ first / 64 = 1 \/ first / 64 = 2 \/ first / 64 = 3) as Hq by lia.
  destruct Hq as [E|[E|[E|E]]]; rewrite E; zcases; first [reflexivity | exfalso; lia].
Qed.

(** [decode] in terms of positional notation. *)
Lemma decode_spec first rest :
  bytes_ok (first :: rest) ->
  decode (first :: rest) =
  let len := form_len first in
  if bool_decide (S (length rest) < len)%nat then Err Incomplete
  else Ok ((first `mod` 64) * 2 ^ (8 * Z.of_nat (len - 1)) + be_val (take (len - 1) rest), len).
Proof.
  intros Hok. inv Hok. unfold decode. cbn [ok_or head mbind result_bind].
  rewrite first_len by done. cbn zeta.
  set (len := form_len first).
  assert (1 <= len <= 8)%nat by (unfold len, form_len; zcases; lia).
  cbn [length]. zcases; [done|]. f_equal. f_equal.
  change 0x3F with (2 ^ 6 - 1). rewrite land_ones_mod by lia.
  replace (drop 1 (take len (first :: rest))) with (take (len - 1) rest)
    by (destruct len; [lia|]; cbn; by rewrite Nat.sub_0_r).
  assert (length (take (len - 1) rest) = len - 1)%nat as Hlen
    by (rewrite length_take; lia).
  rewrite decode_loop, Hlen; [done| | |].
  - by apply Forall_take.
  - change (2 ^ 6) with 64. lia.
  - rewrite Hlen. transitivity (64 * 2 ^ (8 * 7)); [|done].
    apply Z.mul_le_mono_nonneg; [change (2 ^ 6) with 64; lia..|by apply Z.pow_nonneg|].
    apply Z.pow_le_mono_r; lia.
Qed.

Lemma decode_bounds buf v n :
  bytes_ok buf -> decode buf = Ok (v, n) ->
  0 <= v <= MAX /\ (n = 1 \/ n = 2 \/ n = 4 \/ n = 8)%nat /\ (n <= length buf)%nat.
Proof.
  intros Hok. destruct buf as [|first rest]; [done|].
  rewrite decode_spec by done. inv Hok. cbn zeta.
  set (len := form_len first).
  assert (len = 1 \/ len = 2 \/ len = 4 \/ len = 8)%nat by (unfold len, form_len; zcases; lia).
  zcases; [done|]. intros [= <- <-]. cbn [length]. split; [|split; [done|lia]].
  assert (length (take (len - 1) rest) = len - 1)%nat as Hlen by (rewrite length_take; lia).
  pose proof (be_val_bound (take (len - 1) rest)) as Hb. rewrite Hlen in Hb.
  specialize (Hb ltac:(by apply Forall_take)).
  assert (0 <= first `mod` 64 <= 63) by lia.
  assert (2 ^ (8 * Z.of_nat (len - 1)) <= 2 ^ 56) by (apply Z.pow_le_mono_r; lia).
  change MAX with (2 ^ 62 - 1). change (2 ^ 62) with (64 * 2 ^ 56). nia.
Qed.

Lemma decode_le buf v n : decode buf = Ok (v, n) -> (n <= length buf)%nat.
Proof.
  destruct buf as [|first rest]; [done|]. unfold decode. cbn [ok_or head mbind result_bind].
  cbn zeta. zcases; [done|]. intros [= _ <-]. cbn [length] in *. lia.
Qed.

(** Once a buffer decodes, more bytes behind it change nothing. *)
Lemma decode_app buf more r : decode buf = Ok r -> decode (buf ++ more) = Ok r.
Proof.
  destruct buf as [|first rest]; [done|]. unfold decode.
  rewrite <- app_comm_cons. cbn [ok_or head mbind result_bind]. cbn zeta.
  set (len := Z.to_nat _). zcases; try done.
  - exfalso. revert H0. cbn. rewrite length_app. cbn in *. lia.
  - intros [= <-]. do 2 f_equal.
    rewrite app_comm_cons, take_app_le by lia. done.
Qed.

Lemma decode_incomplete_prefix buf more :
  decode (buf ++ more) = Err Incomplete -> decode buf = Err Incomplete.
Proof.
  destruct (decode buf) as [r|[]] eqn:E; [|done]. by rewrite (decode_app _ _ _ E).
Qed.

(** The encoder's output and its length. *)
Lemma encode_spec v out :
  0 <= v <= MAX ->
  encode v out = Done (out ++
    be_bytes (encoded_len v)
      (v + (if v <? 2 ^ 6 then 0 else if v <? 2 ^ 14 then 0x4000
            else if v <? 2 ^ 30 then 0x80000000 else 0xC000000000000000))).
Proof.
  intros [H0 Hm]. unfold encode, encoded_len.
  change (Z.shiftl 1 6) with (2 ^ 6). change (Z.shiftl 1 14) with (2 ^ 14).
  change (Z.shiftl 1 30) with (2 ^ 30). change MAX with (2 ^ 62 - 1) in *.
  zcases; cbn [negb]; try lia; f_equal; f_equal.
  - unfold be_bytes, wrap. cbn. by rewrite Z.add_0_r.
  - rewrite (wrap_small 16 v) by (unfold in_width; lia).
    rewrite Z.shiftr_div_pow2 by lia. unfold wrap. change (2 ^ 8) with 256.
    change (be_bytes 2 (v + 0x4000)) with
      [((v + 0x4000) `div` 256) `mod` 256; (v + 0x4000) `mod` 256].
    change 0x40 with (1 * 2 ^ 6). rewrite lor_high_low; [|lia|unfold in_width; lia].
    f_equal; [lia|]. f_equal. lia.
  - f_equal. rewrite wrap_small by (unfold in_width; lia).
    change 0x80000000 with (2 * 2 ^ 30) at 1. rewrite lor_high_low; [lia|lia|unfold in_width; lia].
  - f_equal. change 0xC000000000000000 with (3 * 2 ^ 62) at 1.
    rewrite lor_high_low; [lia|lia|unfold in_width; lia].
Qed.

(** * Properties *)

Lemma decode_be_bytes n x first :
  first = (x `div` 2 ^ (8 * Z.of_nat n)) `mod` 256 ->
  form_len first = S n ->
  0 <= x -> x `div` 2 ^ (8 * Z.of_nat n) < 256 ->
  decode (be_bytes (S n) x)
  = Ok ((first `mod` 64) * 2 ^ (8 * Z.of_nat n) + x `mod` 2 ^ (8 * Z.of_nat n), S n).
Proof.
  intros Hf Hl H0 Hq. pose proof (be_bytes_ok (S n) x) as Hok.
  rewrite be_bytes_cons in *. rewrite <- Hf in *.
  rewrite decode_spec by done. rewrite Hl. cbn zeta.
  rewrite length_be_bytes. zcases; [lia|].
  replace (S n - 1)%nat with n by lia.
  rewrite take_ge by (rewrite length_be_bytes; lia). by rewrite be_val_be_bytes.
Qed.

Lemma decode_encoded v out :
  0 <= v <= MAX ->
  exists bs, encode v out = Done (out ++ bs) /\ bytes_ok bs /\
    length bs = encoded_len v /\
    forall rest, decode (bs ++ rest) = Ok (v, length bs).
Proof.
  intros Hv. rewrite encode_spec by done. eexists. split; [done|].
  split; [apply be_bytes_ok|]. split; [apply length_be_bytes|].
  intros rest. apply decode_app. rewrite length_be_bytes.
  change MAX with (2 ^ 62 - 1) in Hv. unfold encoded_len.
  zcases;
    [set (n := 0%nat)|set (n := 1%nat)|set (n := 3%nat)|set (n := 7%nat)];
    (erewrite (decode_be_bytes n _ _ eq_refl);
      [|unfold form_len; subst n; cbn -[Z.div Z.modulo Z.add]; zcases; first [reflexivity|lia]
       |lia|subst n; cbn -[Z.div Z.modulo Z.add]; lia];
     subst n; do 2 f_equal; cbn -[Z.div Z.modulo Z.add Z.mul]; lia).
Qed.

(** Round trip.  Every value up to 2^62-1 is encoded (never a panic), in
    the shortest of the four forms, and decodes back to itself with exactly
    the bytes written consumed, whatever follows them. *)
Theorem encode_decode v out :
  0 <= v <= MAX ->
  exists bs, encode v out = Done (out ++ bs) /\ bytes_ok bs /\
    length bs = encoded_len v /\
    forall rest, decode (bs ++ rest) = Ok (v, length bs).
Proof. apply decode_encoded. Qed.

Lemma encode_decode_witness :
  0 <= 15293 <= MAX /\
  exists bs, encode 15293 [0xAA] = Done ([0xAA] ++ bs) /\ bytes_ok bs /\
    length bs = encoded_len 15293 /\
    forall rest, decode (bs ++ rest) = Ok (15293, length bs).
Proof. split; [by vm_compute|]. apply (encode_decode 15293 [0xAA]). by vm_compute. Defined.

(** [encode] picks the shortest form: no buffer that decodes to [v], however
    it was produced, does so in fewer bytes than [encode] writes; and the only
    values it refuses (by its [assert!]) are those above 2^62-1. *)
Theorem encode_shortest v out :
  0 <= v ->
  (encode v out = Panicked <-> MAX < v) /\
  (forall buf n, bytes_ok buf -> decode buf = Ok (v, n) -> (encoded_len v <= n)%nat).
Proof.
  intros H0. split.
  { split; intros H.
    - destruct (Z.le_gt_cases v MAX); [|done]. by rewrite encode_spec in H by done.
    - unfold encode. by rewrite (proj2 (Z.leb_gt _ _)) by done. }
  intros buf n Hok Hd. pose proof (decode_bounds _ _ _ Hok Hd) as (Hv & Hn & Hle).
  destruct buf as [|first rest]; [done|]. rewrite decode_spec in Hd by done.
  inv Hok. cbn zeta in Hd. zcases; [done|]. injection Hd as Hv' Hn'.
  assert (bytes_ok (take (n - 1) rest)) as Ht by (by apply Forall_take).
  apply be_val_bound in Ht. rewrite length_take in Ht. rewrite Hn' in Hv'.
  cbn [length] in *. rewrite Nat.min_l in Ht by lia.
  assert (0 <= first `mod` 64 <= 63) by lia.
  unfold encoded_len. change MAX with (2 ^ 62 - 1) in Hv.
  destruct Hn as [-> | [-> | [-> | -> ]]]; cbn -[Z.pow Z.modulo] in Hv', Ht;
    zcases; try lia; exfalso;
    repeat match goal with H : context [2 ^ ?k] |- _ =>
      let v := eval vm_compute in (2 ^ k) in change (2 ^ k) with v in * end; lia.
Qed.

Lemma encode_shortest_witness :
  0 <= 63 /\
  ((encode 63 [] = Panicked <-> MAX < 63) /\
   (forall buf n, bytes_ok buf -> decode buf = Ok (63, n) -> (encoded_len 63 <= n)%nat)).
Proof. split; [lia|]. apply (encode_shortest 63 []). lia. Defined.
