(* ===== verification/StreamKind.v ===== *)
(** Stream kinds: the model of [src/src/stream_kind.rs]. *)

From S2P Require Import Prelude.

(** * Definitions *)

Inductive StreamKind :=
| Control
| Input
| Video
| Feedback
| Clipboard
| File
| AudioPlayback
| AudioCapture.

#[export] Instance StreamKind_eq_dec : EqDecision StreamKind.
Proof. solve_decision. Defined.

Definition from_byte (kind : Z) : option StreamKind :=
  match kind with
  | 0x01 => Some Control
  | 0x02 => Some Input
  | 0x03 => Some Video
  | 0x04 => Some Feedback
  | 0x05 => Some Clipboard
  | 0x06 => Some File
  | 0x07 => Some AudioPlayback
  | 0x08 => Some AudioCapture
  | _ => None
  end.

Definition to_byte (k : StreamKind) : Z :=
  match k with
  | Control => 0x01
  | Input => 0x02
  | Video => 0x03
  | Feedback => 0x04
  | Clipboard => 0x05
  | File => 0x06
  | AudioPlayback => 0x07
  | AudioCapture => 0x08
  end.

Definition max_envelope_length (k : StreamKind) : Z :=
  match k with
  | Control => 64 * 1024
  | Input => 1024
  | Video => 8 * 1024 * 1024
  | Feedback => 4 * 1024
  | AudioPlayback | AudioCapture => 64 * 1024
  | Clipboard => 16 * 1024 * 1024
  | File => 1024 * 1024
  end.

(** * Lemmas *)

Lemma from_to_byte k : from_byte (to_byte k) = Some k.
Proof. by destruct k. Qed.

Lemma to_byte_u8 k : is_u8 (to_byte k).
Proof. destruct k; by vm_compute. Qed.

Lemma from_byte_Some b k : from_byte b = Some k -> b = to_byte k.
Proof.
  destruct b as [|p|p]; try done.
  do 4 (try destruct p as [p|p|]); cbn; intros [= <-]; done.
Qed.

(** Every limit is far below the varint maximum, so that an envelope within
    its limit is always encodable. *)
Lemma max_envelope_length_bound k : 0 < max_envelope_length k <= 2 ^ 24.
Proof. destruct k; by vm_compute. Qed.

#[export] Hint Resolve to_byte_u8 : sardp.
