(* ===== verification/ReasonCode.v ===== *)
(** Reason codes: the model of [src/src/reason_code.rs]. *)

From S2P Require Import Prelude.

(** * Definitions *)

Module domain.
Definition NONE : Z := 0.
Definition AUTH : Z := 1.
Definition POLICY : Z := 2.
Definition TRANSPORT : Z := 3.
Definition PROTOCOL : Z := 4.
Definition OS : Z := 5.
End domain.

Record ReasonCode := new { rc_domain : Z; rc_code : Z }.

#[export] Instance ReasonCode_eq_dec : EqDecision ReasonCode.
Proof. solve_decision. Defined.

Definition NONE := new domain.NONE 0.

Definition AUTH_TIMEOUT := new domain.AUTH 1.
Definition AUTH_TOO_MANY_ATTEMPTS := new domain.AUTH 2.
Definition AUTH_SIGNATURE_INVALID := new domain.AUTH 3.
Definition AUTH_CHALLENGE_REUSE := new domain.AUTH 4.
Definition AUTH_RECONNECT_TOKEN_INVALID := new domain.AUTH 5.
Definition AUTH_RECONNECT_TOKEN_EXPIRED := new domain.AUTH 6.
Definition AUTH_RECONNECT_TOKEN_ALREADY_CONSUMED := new domain.AUTH 7.

Definition POLICY_PERMISSION_DENIED := new domain.POLICY 1.
Definition POLICY_PERMISSION_REVOKED := new domain.POLICY 2.
Definition POLICY_FORCED_DISCONNECT := new domain.POLICY 3.
Definition POLICY_MAX_SESSION_DURATION_EXCEEDED := new domain.POLICY 4.
Definition POLICY_FILE_POLICY_REJECTED := new domain.POLICY 5.
Definition POLICY_CLIPBOARD_FORMAT_TOO_LARGE := new domain.POLICY 6.

Definition TRANSPORT_HANDSHAKE_TIMEOUT := new domain.TRANSPORT 1.
Definition TRANSPORT_IDLE_TIMEOUT := new domain.TRANSPORT 2.
Definition TRANSPORT_RECONNECT_TIMEOUT := new domain.TRANSPORT 3.
Definition TRANSPORT_VIDEO_RECOVERY_TIMEOUT := new domain.TRANSPORT 4.
Definition TRANSPORT_STREAM_STALL_TIMEOUT := new domain.TRANSPORT 5.

Definition PROTOCOL_UNEXPECTED_MESSAGE := new domain.PROTOCOL 1.
Definition PROTOCOL_UNKNOWN_CORE_MESSAGE := new domain.PROTOCOL 2.
Definition PROTOCOL_PROLOGUE_MAGIC_MISMATCH := new domain.PROTOCOL 3.
Definition PROTOCOL_UNKNOWN_STREAM_KIND := new domain.PROTOCOL 4.
Definition PROTOCOL_WRONG_INITIATOR := new domain.PROTOCOL 5.
Definition PROTOCOL_SESSION_SETUP_TIMEOUT := new domain.PROTOCOL 6.
Definition PROTOCOL_VIDEO_CONFIGURING_TIMEOUT := new domain.PROTOCOL 7.
Definition PROTOCOL_FRAME_LENGTH_MISMATCH := new domain.PROTOCOL 8.
Definition PROTOCOL_GENERATION_MISMATCH := new domain.PROTOCOL 9.
Definition PROTOCOL_FILE_CHUNK_OVERLAP := new domain.PROTOCOL 10.
Definition PROTOCOL_FILE_CHUNK_OUT_OF_RANGE := new domain.PROTOCOL 11.
Definition PROTOCOL_FILE_INCOMPLETE_TRANSFER := new domain.PROTOCOL 12.
Definition PROTOCOL_FILE_CHECKSUM_MISMATCH := new domain.PROTOCOL 13.

Definition OS_DECODE_ERROR := new domain.OS 2.

(** The whole table, in source order. *)
Definition all_codes : list ReasonCode :=
  [NONE; AUTH_TIMEOUT; AUTH_TOO_MANY_ATTEMPTS; AUTH_SIGNATURE_INVALID;
   AUTH_CHALLENGE_REUSE; AUTH_RECONNECT_TOKEN_INVALID; AUTH_RECONNECT_TOKEN_EXPIRED;
   AUTH_RECONNECT_TOKEN_ALREADY_CONSUMED; POLICY_PERMISSION_DENIED;
   POLICY_PERMISSION_REVOKED; POLICY_FORCED_DISCONNECT;
   POLICY_MAX_SESSION_DURATION_EXCEEDED; POLICY_FILE_POLICY_REJECTED;
   POLICY_CLIPBOARD_FORMAT_TOO_LARGE; TRANSPORT_HANDSHAKE_TIMEOUT;
   TRANSPORT_IDLE_TIMEOUT; TRANSPORT_RECONNECT_TIMEOUT;
   TRANSPORT_VIDEO_RECOVERY_TIMEOUT; TRANSPORT_STREAM_STALL_TIMEOUT;
   PROTOCOL_UNEXPECTED_MESSAGE; PROTOCOL_UNKNOWN_CORE_MESSAGE;
   PROTOCOL_PROLOGUE_MAGIC_MISMATCH; PROTOCOL_UNKNOWN_STREAM_KIND;
   PROTOCOL_WRONG_INITIATOR; PROTOCOL_SESSION_SETUP_TIMEOUT;
   PROTOCOL_VIDEO_CONFIGURING_TIMEOUT; PROTOCOL_FRAME_LENGTH_MISMATCH;
   PROTOCOL_GENERATION_MISMATCH; PROTOCOL_FILE_CHUNK_OVERLAP;
   PROTOCOL_FILE_CHUNK_OUT_OF_RANGE; PROTOCOL_FILE_INCOMPLETE_TRANSFER;
   PROTOCOL_FILE_CHECKSUM_MISMATCH; OS_DECODE_ERROR].

(** * Lemmas *)

(** No two reasons share a wire value, so a received reason is unambiguous. *)
Lemma all_codes_NoDup : NoDup all_codes.
Proof. apply (bool_decide_unpack _). by vm_compute. Qed.
