(* ===== verification/Prologue.v ===== *)
(** The stream prologue: the model of [src/src/prologue.rs]. *)

From S2P Require Import Prelude.
From S2P Require Import Varint.
From S2P Require Import StreamKind.

(** * Definitions *)

(** [*b"SARD"]. *)
Definition MAGIC : list Z := [0x53; 0x41; 0x52; 0x44].

Record StreamPrologue := {
  kind : StreamKind;
  version : Z;
  context_id : Z;
}.

Inductive PrologueError :=
| MagicMismatch
| UnknownKind (kind_byte : Z).

#[export] Instance PrologueError_eq_dec : EqDecision PrologueError.
Proof. solve_decision. Defined.

Definition encode (kind : StreamKind) (version context_id : Z) (out : list Z)
    : outcome (list Z) :=
  let out := out ++ MAGIC in
  let out := out ++ [to_byte kind] in
  let out := out ++ [version] in
  Varint.encode context_id out.

(** The two early rejections come before the bytes that follow are needed. *)
Definition parse (buf : list Z) : result PrologueError (option (StreamPrologue * nat)) :=
  if bool_decide (length buf < 4)%nat then Ok None
  else if bool_decide (take 4 buf ≠ MAGIC) then Err MagicMismatch
  else if bool_decide (length buf < 6)%nat then Ok None
  else
    let kind_byte := buf !!! 4%nat in
    let version := buf !!! 5%nat in
    kind ← ok_or (from_byte kind_byte) (UnknownKind kind_byte);
    match Varint.decode (drop 6 buf) with
    | Err Incomplete => Ok None
    | Ok (context_id, context_id_len) =>
        let consumed := (6 + context_id_len)%nat in
        Ok (Some ({| kind := kind; version := version; context_id := context_id |}, consumed))
    end.

(** * Lemmas *)

Lemma prologue_encode_spec k v c out :
  0 <= c <= Varint.MAX ->
  exists cs, encode k v c out = Done (out ++ MAGIC ++ [to_byte k; v] ++ cs) /\ bytes_ok cs /\
    forall rest, Varint.decode (cs ++ rest) = Ok (c, length cs).
Proof.
  intros Hc. unfold encode.
  destruct (Varint.decode_encoded c (((out ++ MAGIC) ++ [to_byte k]) ++ [v]) Hc)
    as (cs & -> & Hok & _ & Hd).
  exists cs. split; [|done]. by rewrite <- !app_assoc.
Qed.

Lemma parse_encoded k v cs c rest :
  (forall rest, Varint.decode (cs ++ rest) = Ok (c, length cs)) ->
  parse ((MAGIC ++ [to_byte k; v] ++ cs) ++ rest)
  = Ok (Some ({| kind := k; version := v; context_id := c |}, (6 + length cs)%nat)).
Proof.
  intros Hd. unfold parse. rewrite <- !app_assoc.
  case_bool_decide as H1; [cbn in H1; lia|].
  case_bool_decide as H2; [done|].
  case_bool_decide as H3; [cbn in H3; lia|].
  cbn [lookup_total list_lookup_total MAGIC app].
  rewrite from_to_byte. cbn [ok_or mbind result_bind skipn]. rewrite drop_0. by rewrite Hd.
Qed.

(** More bytes never change a verdict, acceptance or rejection. *)
Lemma prologue_parse_app buf more r :
  parse buf = r -> r ≠ Ok None -> parse (buf ++ more) = r.
Proof.
  unfold parse. intros <-.
  case_bool_decide as H1; [done|].
  rewrite (bool_decide_false (length (buf ++ more) < 4)%nat) by (rewrite length_app; lia).
  rewrite take_app_le by lia.
  case_bool_decide as H2; [done|].
  case_bool_decide as H3; [done|].
  rewrite (bool_decide_false (length (buf ++ more) < 6)%nat) by (rewrite length_app; lia).
  rewrite !lookup_total_app_l by lia.
  destruct (from_byte (buf !!! 4%nat)); cbn [ok_or mbind result_bind]; [|done].
  rewrite drop_app_le by lia.
  destruct (Varint.decode (drop 6 buf)) as [[c n]|[]] eqn:E; [|done].
  by rewrite (decode_app _ _ _ E).
Qed.

Lemma prologue_parse_le buf p n : parse buf = Ok (Some (p, n)) -> (n <= length buf)%nat.
Proof.
  unfold parse. intros H. repeat case_bool_decide; try done.
  destruct (from_byte (buf !!! 4%nat)); cbn [ok_or mbind result_bind] in H; [|done].
  destruct (Varint.decode (drop 6 buf)) as [[c m]|[]] eqn:E; [|done].
  injection H as <- <-. apply decode_le in E. rewrite length_drop in E. lia.
Qed.

Lemma parse_encoded_prologue k v c out :
  0 <= c <= Varint.MAX ->
  exists bs, encode k v c out = Done (out ++ bs) /\
    forall rest, parse (bs ++ rest)
      = Ok (Some ({| kind := k; version := v; context_id := c |}, length bs)).
Proof.
  intros Hc. destruct (prologue_encode_spec k v c out Hc) as (cs & He & Hok & Hd).
  eexists. split; [exact He|]. intros rest.
  rewrite (parse_encoded _ _ _ c) by done. done.
Qed.

(** * Properties *)

(** A prologue that [encode] writes is read back as written, with its exact
    length, whatever follows; [encode] panics only on a context id beyond the
    varint range. *)
Theorem prologue_roundtrip k v c out :
  0 <= c <= Varint.MAX ->
  exists bs, encode k v c out = Done (out ++ bs) /\
    forall rest, parse (bs ++ rest)
      = Ok (Some ({| kind := k; version := v; context_id := c |}, length bs)).
Proof. apply parse_encoded_prologue. Qed.

Lemma prologue_roundtrip_witness :
  0 <= 300 <= Varint.MAX /\
  exists bs, encode Video 1 300 [] = Done ([] ++ bs) /\
    forall rest, parse (bs ++ rest)
      = Ok (Some ({| kind := Video; version := 1; context_id := 300 |}, length bs)).
Proof. split; [by vm_compute|]. apply (prologue_roundtrip Video 1 300 []). by vm_compute. Defined.

(** Rejection is exact and early.  A prologue is refused for its magic as
    soon as four bytes are there and refused for its kind as soon as six are
    (the version byte has to have arrived, the context id need not), and in no
    other case; a refusal is final, no later byte turns it around. *)
Theorem parse_rejects buf :
  (parse buf = Err MagicMismatch <->
     (4 <= length buf)%nat /\ take 4 buf ≠ MAGIC) /\
  (forall b, parse buf = Err (UnknownKind b) <->
     (6 <= length buf)%nat /\ take 4 buf = MAGIC /\ b = buf !!! 4%nat /\ from_byte b = None) /\
  (forall e more, parse buf = Err e -> parse (buf ++ more) = Err e).
Proof.
  split; [|split]; [| |intros e more H; by eapply prologue_parse_app; [exact H|]].
  - unfold parse. repeat case_bool_decide;
      try destruct (from_byte (buf !!! 4%nat)) eqn:E; cbn;
      try destruct (Varint.decode (drop 6 buf)) as [[]|[]]; split; naive_solver lia.
  - intros b. unfold parse. repeat case_bool_decide;
      try match goal with H : ¬ (_ ≠ _) |- _ => apply dec_stable in H end;
      try destruct (from_byte (buf !!! 4%nat)) eqn:E; cbn;
      try destruct (Varint.decode (drop 6 buf)) as [[]|[]]; split; naive_solver lia.
Qed.

Lemma parse_rejects_witness :
  parse (MAGIC ++ [0xFF; 1]) = Err (UnknownKind 0xFF) /\
  parse ((MAGIC ++ [0xFF; 1]) ++ [0; 0]) = Err (UnknownKind 0xFF).
Proof.
  split; [by vm_compute|].
  apply (proj2 (proj2 (parse_rejects (MAGIC ++ [0xFF; 1])))). by vm_compute.
Defined.
