(* ===== verification/Envelope.v ===== *)
(** The per-message frame: the model of [src/src/envelope.rs].

    [usize] is 64 bits wide, so the conversion of an accepted [length] to
    [usize] cannot fail and no length computed from it overflows. *)

From S2P Require Import Prelude.
From S2P Require Import Varint.

(** * Definitions *)

Definition IGNORABLE_FLAG : Z := 0x8000.
Definition TYPE_ID_MASK : Z := 0x7FFF.
Definition CORE_TYPE_ID_MAX : Z := 0x3FFF.

Record Envelope := {
  type_raw : Z;
  payload : list Z;
}.

Definition is_ignorable (env : Envelope) : bool :=
  negb (Z.land (type_raw env) IGNORABLE_FLAG =? 0).

Definition type_id (env : Envelope) : Z := Z.land (type_raw env) TYPE_ID_MASK.

Definition is_core (env : Envelope) : bool := type_id env <=? CORE_TYPE_ID_MAX.

Inductive EnvelopeError :=
| LengthExceedsLimit (length limit : Z).

Definition encode (type_raw : Z) (payload : list Z) (out : list Z) : outcome (list Z) :=
  out ← Varint.encode (Z.of_nat (length payload)) out;
  let out := out ++ le_bytes 2 type_raw in
  Done (out ++ payload).

(** The limit is checked as soon as [length] is known. *)
Definition parse (buf : list Z) (max_length : Z)
    : result EnvelopeError (option (Envelope * nat)) :=
  match Varint.decode buf with
  | Err Incomplete => Ok None
  | Ok (len, length_len) =>
      if len >? max_length then Err (LengthExceedsLimit len max_length)
      else
        let header_len := (length_len + 2)%nat in
        if bool_decide (length buf < header_len)%nat then Ok None
        else
          let type_raw := le_val [buf !!! length_len; buf !!! S length_len] in
          if Z.of_nat (length buf) <? Z.of_nat header_len + len then Ok None
          else
            let total_len := (header_len + Z.to_nat len)%nat in
            let payload := take (Z.to_nat len) (drop header_len buf) in
            Ok (Some ({| type_raw := type_raw; payload := payload |}, total_len))
  end.

(** The bytes of one frame whose length fits a varint. *)
Definition frame (t : Z) (p : list Z) : list Z :=
  match encode t p [] with Done bs => bs | Panicked => [] end.

(** * Lemmas *)

Lemma encode_frame t p out :
  Z.of_nat (length p) <= Varint.MAX ->
  encode t p out = Done (out ++ frame t p).
Proof.
  intros Hl. unfold frame, encode.
  assert (0 <= Z.of_nat (length p) <= Varint.MAX) as H by lia.
  rewrite !Varint.encode_spec by done. cbn [mbind outcome_bind].
  by rewrite <- !app_assoc.
Qed.

Lemma frame_shape t p :
  Z.of_nat (length p) <= Varint.MAX ->
  exists ls, frame t p = ls ++ le_bytes 2 t ++ p /\ bytes_ok ls /\
    length ls = encoded_len (Z.of_nat (length p)) /\
    forall rest, Varint.decode (ls ++ rest) = Ok (Z.of_nat (length p), length ls).
Proof.
  intros Hl. unfold frame, encode.
  destruct (Varint.decode_encoded (Z.of_nat (length p)) [] ltac:(lia))
    as (ls & -> & Hok & Hlen & Hd).
  exists ls. split; [|done]. cbn [mbind outcome_bind app]. by rewrite <- app_assoc.
Qed.

Lemma frame_bytes_ok t p :
  Z.of_nat (length p) <= Varint.MAX -> bytes_ok p -> bytes_ok (frame t p).
Proof.
  intros Hl Hp. destruct (frame_shape t p Hl) as (ls & -> & Hok & _).
  rewrite !bytes_ok_app. eauto using le_bytes_ok.
Qed.

Lemma frame_nonempty t p : Z.of_nat (length p) <= Varint.MAX -> (3 <= length (frame t p))%nat.
Proof.
  intros Hl. destruct (frame_shape t p Hl) as (ls & -> & _ & Hls & _).
  rewrite !length_app, length_le_bytes, Hls. unfold encoded_len. zcases; lia.
Qed.

Lemma parse_frame t p rest max_length :
  is_u16 t -> Z.of_nat (length p) <= max_length -> Z.of_nat (length p) <= Varint.MAX ->
  parse (frame t p ++ rest) max_length
  = Ok (Some ({| type_raw := t; payload := p |}, length (frame t p))).
Proof.
  intros Ht Hm Hl. destruct (frame_shape t p Hl) as (ls & -> & Hok & _ & Hd).
  rewrite <- !app_assoc. unfold parse. rewrite Hd, Z.gtb_ltb.
  rewrite (proj2 (Z.ltb_ge _ _)) by done. cbn zeta.
  rewrite bool_decide_false by (rewrite !length_app, length_le_bytes; lia).
  rewrite (proj2 (Z.ltb_ge _ _)) by (rewrite !length_app, length_le_bytes; lia).
  rewrite (lookup_total_app_r ls), Nat.sub_diag by lia.
  rewrite (lookup_total_app_r ls) by lia.
  replace (S (length ls) - length ls)%nat with 1%nat by lia.
  rewrite drop_app_ge by lia.
  replace (length ls + 2 - length ls)%nat with 2%nat by lia.
  cbn [le_bytes app lookup_total list_lookup_total skipn]. rewrite drop_0, Nat2Z.id, take_app_length.
  do 3 f_equal; [f_equal; cbn [le_val]; widths; lia|].
  rewrite !length_app. cbn [length]. lia.
Qed.

(** More bytes never change a verdict, acceptance or rejection. *)
Lemma envelope_parse_app buf more max_length r :
  parse buf max_length = r -> r ≠ Ok None -> parse (buf ++ more) max_length = r.
Proof.
  unfold parse. intros <-.
  destruct (Varint.decode buf) as [[len n]|[]] eqn:E; [|done].
  rewrite (decode_app _ _ _ E). destruct (len >? max_length); [done|]. cbn zeta.
  case_bool_decide as H1; [done|].
  rewrite (bool_decide_false (length (buf ++ more) < n + 2)%nat) by (rewrite length_app; lia).
  destruct (Z.ltb_spec (Z.of_nat (length buf)) (Z.of_nat (n + 2) + len)) as [|H2]; [done|].
  rewrite (proj2 (Z.ltb_ge (Z.of_nat (length (buf ++ more))) _)) by (rewrite length_app; lia).
  rewrite !lookup_total_app_l by lia. rewrite drop_app_le by lia.
  rewrite take_app_le by (rewrite length_drop; lia). done.
Qed.

Lemma envelope_parse_le buf max_length env n :
  parse buf max_length = Ok (Some (env, n)) -> (n <= length buf)%nat.
Proof.
  unfold parse. destruct (Varint.decode buf) as [[len k]|[]] eqn:E; [|done].
  zcases; try done. intros [= _ <-]. lia.
Qed.

Lemma parse_bounds buf max_length env n :
  bytes_ok buf -> parse buf max_length = Ok (Some (env, n)) ->
  (3 <= n <= length buf)%nat /\ Z.of_nat (length (payload env)) <= max_length /\
  is_u16 (type_raw env) /\ bytes_ok (payload env).
Proof.
  intros Hok. unfold parse.
  destruct (Varint.decode buf) as [[len k]|[]] eqn:E; [|done].
  pose proof (decode_bounds _ _ _ Hok E) as (Hv & Hk & Hle).
  zcases; try done. intros [= <- <-]. cbn [payload type_raw].
  rewrite length_take, length_drop.
  assert (is_u8 (buf !!! k) /\ is_u8 (buf !!! S k)) as [Ha Hb].
  { split; eapply (Forall_lookup_1 is_u8); try exact Hok; apply list_lookup_lookup_total_lt; lia. }
  repeat split; try lia.
  - cbn [le_val]. widths. lia.
  - cbn [le_val]. widths. lia.
  - by apply Forall_take, Forall_drop.
Qed.

(** * Properties *)

(** Every envelope whose payload respects the stream's limit is written
    without a panic and read back unchanged with exactly its own bytes
    consumed, whatever follows it in the buffer. *)
Theorem envelope_roundtrip t p out max_length :
  is_u16 t -> Z.of_nat (length p) <= max_length -> max_length <= Varint.MAX ->
  exists bs, encode t p out = Done (out ++ bs) /\
    forall rest, parse (bs ++ rest) max_length
      = Ok (Some ({| type_raw := t; payload := p |}, length bs)).
Proof.
  intros Ht Hp Hm. exists (frame t p). split; [apply encode_frame; lia|].
  intros rest. apply parse_frame; [done..|lia].
Qed.

Lemma envelope_roundtrip_witness :
  (is_u16 0x4002 /\ 5 <= 1024) /\
  exists bs, encode 0x4002 [104; 101; 108; 108; 111] [0xFF] = Done ([0xFF] ++ bs) /\
    forall rest, parse (bs ++ rest) 1024
      = Ok (Some ({| type_raw := 0x4002; payload := [104; 101; 108; 108; 111] |}, length bs)).
Proof.
  split; [by vm_compute|].
  apply (envelope_roundtrip 0x4002 [104; 101; 108; 108; 111] [0xFF] 1024); by vm_compute.
Defined.

(** The parser on every input.  It refuses exactly the frames whose length
    field, once its varint is complete, exceeds the limit, however few of the
    other bytes have arrived; it asks for more bytes exactly when the length
    is incomplete or an acceptable frame is; neither a refusal nor an accepted
    frame changes when more bytes arrive; and what it accepts stays inside the
    buffer and the limit. *)
Theorem parse_verdicts buf max_length :
  bytes_ok buf ->
  (forall e, parse buf max_length = Err e <->
     exists len n, Varint.decode buf = Ok (len, n) /\ max_length < len /\
       e = LengthExceedsLimit len max_length) /\
  (parse buf max_length = Ok None <->
     Varint.decode buf = Err Incomplete \/
     exists len n, Varint.decode buf = Ok (len, n) /\ len <= max_length /\
       Z.of_nat (length buf) < Z.of_nat n + 2 + len) /\
  (forall more, parse buf max_length ≠ Ok None ->
     parse (buf ++ more) max_length = parse buf max_length) /\
  (forall env n, parse buf max_length = Ok (Some (env, n)) ->
     (3 <= n <= length buf)%nat /\ Z.of_nat (length (payload env)) <= max_length /\
     is_u16 (type_raw env) /\ bytes_ok (payload env)).
Proof.
  intros Hok. split; [|split; [|split]].
  - intros e. unfold parse. destruct (Varint.decode buf) as [[len n]|[]] eqn:E; [|naive_solver].
    zcases; naive_solver lia.
  - unfold parse. destruct (Varint.decode buf) as [[len n]|[]] eqn:E; [|naive_solver].
    pose proof (decode_bounds _ _ _ Hok E). zcases; naive_solver lia.
  - intros more Hne. by apply envelope_parse_app.
  - intros env n. by apply parse_bounds.
Qed.

Lemma parse_verdicts_witness :
  bytes_ok [0x43; 0xE8] /\
  parse [0x43; 0xE8] 10 = Err (LengthExceedsLimit 1000 10).
Proof.
  assert (bytes_ok [0x43; 0xE8]) as Hok by (repeat constructor; by vm_compute).
  split; [exact Hok|].
  apply (proj1 (parse_verdicts [0x43; 0xE8] 10 Hok)).
  exists 1000, 2%nat. by vm_compute.
Defined.

(** The two views of the 16-bit type are independent: the raw type is the
    type id plus the ignorable bit, and the core range is the lower half of
    the ids. *)
Theorem type_bits env :
  is_u16 (type_raw env) ->
  type_raw env = type_id env + (if is_ignorable env then 0x8000 else 0) /\
  0 <= type_id env < 0x8000 /\
  is_core env = (type_id env <? 0x4000).
Proof.
  intros Ht. widths. unfold is_core, is_ignorable, type_id, CORE_TYPE_ID_MAX, IGNORABLE_FLAG, TYPE_ID_MASK.
  change 0x7FFF with (2 ^ 15 - 1). rewrite land_ones_mod by lia.
  replace (Z.land (type_raw env) 0x8000) with (Z.shiftl (Z.b2z (Z.testbit (type_raw env) 15)) 15).
  - rewrite Z.testbit_spec' by lia. change (2 ^ 15) with 32768.
    rewrite Z.shiftl_mul_pow2 by lia. change (2 ^ 15) with 32768.
    zcases; cbn [negb]; lia.
  - apply Z.bits_inj'. intros n Hn. rewrite Z.land_spec, Z.shiftl_spec by done.
    change 0x8000 with (2 ^ 15).
    destruct (decide (n = 15)) as [-> |].
    + rewrite Z.pow2_bits_true by lia. rewrite andb_true_r. cbn [Z.sub].
      by destruct (Z.testbit (type_raw env) 15).
    + rewrite Z.pow2_bits_false by done. rewrite andb_false_r.
      destruct (Z.lt_ge_cases n 15); [by rewrite Z.testbit_neg_r by lia|].
      destruct (Z.testbit (type_raw env) 15); [|by rewrite Z.testbit_0_l].
      change (Z.b2z true) with (2 ^ 0). rewrite Z.pow2_bits_false by lia. done.
Qed.

Lemma type_bits_witness :
  let env := {| type_raw := 0xC001; payload := [] |} in
  is_u16 (type_raw env) /\
  (type_raw env = type_id env + (if is_ignorable env then 0x8000 else 0) /\
   0 <= type_id env < 0x8000 /\
   is_core env = (type_id env <? 0x4000)).
Proof. split; [by vm_compute|]. apply type_bits. by vm_compute. Defined.
