(* ===== verification/Async.v ===== *)
(** Asynchronous code over the QUIC transport.

    The session code of [src/src/*_session.rs], [handshake.rs] and
    [reconnection.rs] awaits reads and writes on [quinn] streams, some of them
    under [tokio::time::timeout].  Here an awaiting function is a state
    transformer returning a [poll]; the transport itself is not modelled, it is
    a script of what the awaited operations yield, over which the theorems
    quantify. *)

From S2P Require Import Prelude.

(** The error types of the crates under the session code; their values are
    only ever passed on. *)
Class Transport := {
  ConnectionError : Type;
  ReadError : Type;
  WriteError : Type;
  DecodeError : Type;
}.

(** The transport whose errors carry no information, for concrete runs. *)
Definition plain_transport : Transport :=
  {| ConnectionError := unit; ReadError := unit; WriteError := unit; DecodeError := unit |}.

(** What awaiting a future leads to: it completes, it never completes, the
    [timeout] around it fires first, or it panics. *)
Inductive poll (E A : Type) :=
| Ready (r : result E A)
| Pending
| Elapsed
| Crash.
Arguments Ready {E A} r.
Arguments Pending {E A}.
Arguments Elapsed {E A}.
Arguments Crash {E A}.

(** An async function with mutable state [S]. *)
Definition async (S E A : Type) : Type := S -> poll E A * S.

Section monad.
Context {S E : Type}.

(** [async { x }] and [Ok(x)]. *)
Definition aret {A} (x : A) : async S E A := fun s => (Ready (Ok x), s).

(** [return Err(e)]. *)
Definition athrow {A} (e : E) : async S E A := fun s => (Ready (Err e), s).

(** [m.await?] followed by the rest of the function. *)
Definition abind {A B} (m : async S E A) (f : A -> async S E B) : async S E B :=
  fun s =>
    match m s with
    | (Ready (Ok x), s') => f x s'
    | (Ready (Err e), s') => (Ready (Err e), s')
    | (Pending, s') => (Pending, s')
    | (Elapsed, s') => (Elapsed, s')
    | (Crash, s') => (Crash, s')
    end.

(** [m?] for a synchronous fallible call. *)
Definition alift {A} (r : result E A) : async S E A := fun s => (Ready r, s).

(** A synchronous call that may panic. *)
Definition aoutcome {A} (o : outcome A) : async S E A :=
  fun s => match o with Done x => (Ready (Ok x), s) | Panicked => (Crash, s) end.

Definition aget : async S E S := fun s => (Ready (Ok s), s).
Definition aput (s : S) : async S E unit := fun _ => (Ready (Ok tt), s).
End monad.

(** [m.await.map_err(f)]. *)
Definition amap_err {S E F A} (f : E -> F) (m : async S E A) : async S F A :=
  fun s =>
    match m s with
    | (Ready r, s') => (Ready (map_err f r), s')
    | (Pending, s') => (Pending, s')
    | (Elapsed, s') => (Elapsed, s')
    | (Crash, s') => (Crash, s')
    end.

(** [m.await] with its [Result] handed to the caller instead of propagated. *)
Definition atry {S E F A} (m : async S E A) : async S F (result E A) :=
  fun s =>
    match m s with
    | (Ready r, s') => (Ready (Ok r), s')
    | (Pending, s') => (Pending, s')
    | (Elapsed, s') => (Elapsed, s')
    | (Crash, s') => (Crash, s')
    end.

(** [tokio::time::timeout(_, m).await.map_err(|_elapsed| e)?]: the code after
    an expiry sees [e]. *)
Definition atimeout {S E A} (e : E) (m : async S E A) : async S E A :=
  fun s =>
    match m s with
    | (Elapsed, s') => (Ready (Err e), s')
    | o => o
    end.

(** Runs [m] on a component of the state. *)
Definition azoom {S T E A} (get : S -> T) (set : T -> S -> S) (m : async T E A)
    : async S E A :=
  fun s => let '(p, t) := m (get s) in (p, set t s).

#[export] Instance async_ret S E : MRet (async S E) := fun A => aret.
#[export] Instance async_bind S E : MBind (async S E) := fun A B f m => abind m f.

(** Running a bind: the three ways it can go. *)
Lemma abind_ready {S E A B} (m : async S E A) (f : A -> async S E B) s x s' :
  m s = (Ready (Ok x), s') -> (m ≫= f) s = f x s'.
Proof. intros H. unfold mbind, async_bind, abind. by rewrite H. Qed.

Lemma abind_inv {S E A B} (m : async S E A) (f : A -> async S E B) s y s'' :
  (m ≫= f) s = (Ready (Ok y), s'') ->
  exists x s', m s = (Ready (Ok x), s') /\ f x s' = (Ready (Ok y), s'').
Proof.
  unfold mbind, async_bind, abind.
  destruct (m s) as [[[x|e]| | |] s'] eqn:E'; intros H; try done. eauto.
Qed.

Lemma atimeout_ready {S E A} (e : E) (m : async S E A) s r s' :
  m s = (Ready r, s') -> atimeout e m s = (Ready r, s').
Proof. intros H. unfold atimeout. by rewrite H. Qed.

(** ** Repetition *)

(** [m] run [n] times, its results in a list. *)
Fixpoint areplicate {S E A} (n : nat) (m : async S E A) : async S E (list A) :=
  match n with
  | O => aret []
  | S n' =>
      x ← m;
      xs ← areplicate n' m;
      aret (x :: xs)
  end.

(** [f] run on each element. *)
Fixpoint afor {S E A} (f : A -> async S E unit) (xs : list A) : async S E unit :=
  match xs with
  | [] => aret tt
  | x :: xs' =>
      _ ← f x;
      afor f xs'
  end.

(** A reader that takes the encoding of one item off its input, in states where
    [good] holds, takes those of a list one after the other. *)
Lemma areplicate_map_in_order {S E X A} (read : async S E A) (good : S -> Prop) (input : S -> list Z)
    (bytes : X -> list Z) (value : X -> A) xs rest s :
  (forall x rest s, x ∈ xs -> good s -> input s = bytes x ++ rest ->
     exists s', read s = (Ready (Ok (value x)), s') /\ good s' /\ input s' = rest) ->
  good s -> input s = concat (map bytes xs) ++ rest ->
  exists s', areplicate (length xs) read s = (Ready (Ok (map value xs)), s') /\ good s' /\ input s' = rest.
Proof.
  revert s. induction xs as [|x xs IH]; intros s Hread Hg Hs.
  { by exists s. }
  cbn [map concat] in Hs. rewrite <- app_assoc in Hs.
  destruct (Hread x _ s ltac:(by left) Hg Hs) as (s1 & Hr1 & Hg1 & Hs1).
  destruct (IH s1) as (s2 & Hr2 & Hs2); [|done..|].
  { intros y rest' t Hy. apply Hread. by right. }
  exists s2. split; [|done]. cbn [length areplicate map].
  erewrite abind_ready by exact Hr1. by erewrite abind_ready by exact Hr2.
Qed.

Lemma areplicate_in_order {S E A} (read : async S E A) (input : S -> list Z) (bytes : A -> list Z) xs rest s :
  (forall x rest s, x ∈ xs -> input s = bytes x ++ rest ->
     exists s', read s = (Ready (Ok x), s') /\ input s' = rest) ->
  input s = concat (map bytes xs) ++ rest ->
  exists s', areplicate (length xs) read s = (Ready (Ok xs), s') /\ input s' = rest.
Proof.
  intros Hread Hs.
  destruct (areplicate_map_in_order read (fun _ => True) input bytes id xs rest s) as (s' & Hr & _ & Hi);
    [|done..|].
  { intros x rest' t Hx _ Ht. destruct (Hread x rest' t Hx Ht) as (t' & ? & ?). by exists t'. }
  exists s'. by rewrite map_id in Hr.
Qed.
