(* ===== verification/StreamReader.v ===== *)
(** Buffered frame reading and frame writing: the model of
    [src/src/stream_reader.rs]. *)

From S2P Require Import Prelude.
From S2P Require Import Varint.
From S2P Require Import StreamKind.
From S2P Require Import Prologue.
From S2P Require Import Envelope.
From S2P Require Import Async.

(** * The transport's side *)

Section transport.
Context `{Transport}.

(** What successive [read] calls on a [quinn::RecvStream] yield.  [RElapsed]
    is the moment a timer armed around a read fires; a read without one just
    keeps waiting. *)
Inductive read_event :=
| RData (chunk : list Z)
| RFin
| RFail (e : ReadError)
| RElapsed.

(** [RecvStream::read]: [Ok(None)] once the peer has finished the stream.
    [timed] tells whether a timeout is armed around the call. *)
Fixpoint recv_read (timed : bool) (recv : list read_event)
    : poll ReadError (option (list Z)) * list read_event :=
  match recv with
  | [] => (Pending, [])
  | RData chunk :: recv' => (Ready (Ok (Some chunk)), recv')
  | RFin :: _ => (Ready (Ok None), recv)
  | RFail e :: _ => (Ready (Err e), recv)
  | RElapsed :: recv' => if timed then (Elapsed, recv') else recv_read timed recv'
  end.

(** What successive [write_all] calls on a [quinn::SendStream] lead to: all
    bytes accepted, a failure after some of them, or no progress after some of
    them, for good or until a timer armed around the call fires. *)
Inductive write_event :=
| WDone
| WFail (accepted : nat) (e : WriteError)
| WStall (accepted : nat).

(** A [quinn::SendStream]: the bytes accepted so far and the outcome of the
    [write_all] calls to come (success once the list is used up). *)
Record SendStream := {
  sent : list Z;
  write_results : list write_event;
}.

Definition write_all (timed : bool) (bs : list Z) : async SendStream WriteError unit := fun s =>
  match write_results s with
  | WFail n e :: ws => (Ready (Err e), {| sent := sent s ++ take n bs; write_results := ws |})
  | WStall n :: ws =>
      (if timed then Elapsed else Pending, {| sent := sent s ++ take n bs; write_results := ws |})
  | WDone :: ws => (Ready (Ok tt), {| sent := sent s ++ bs; write_results := ws |})
  | [] => (Ready (Ok tt), {| sent := sent s ++ bs; write_results := [] |})
  end.

(** * Definitions *)

Inductive StreamReadError :=
| Read (e : ReadError)
| ClosedEarly
| PrologueErr (e : PrologueError)
| EnvelopeErr (e : EnvelopeError).

Record EnvelopeReader := {
  recv : list read_event;
  buf : list Z;
  stopped : option Z;  (** the code given to [RecvStream::stop], if called *)
}.

Definition new (recv : list read_event) : EnvelopeReader :=
  {| recv := recv; buf := []; stopped := None |}.

Definition fill_more (timed : bool) : async EnvelopeReader StreamReadError unit := fun r =>
  match recv_read timed (recv r) with
  | (Ready (Ok (Some chunk)), rs) =>
      (Ready (Ok tt), {| recv := rs; buf := buf r ++ chunk; stopped := stopped r |})
  | (Ready (Ok None), rs) =>
      (Ready (Err ClosedEarly), {| recv := rs; buf := buf r; stopped := stopped r |})
  | (Ready (Err e), rs) =>
      (Ready (Err (Read e)), {| recv := rs; buf := buf r; stopped := stopped r |})
  | (Pending, rs) => (Pending, {| recv := rs; buf := buf r; stopped := stopped r |})
  | (Elapsed, rs) => (Elapsed, {| recv := rs; buf := buf r; stopped := stopped r |})
  | (Crash, rs) => (Crash, {| recv := rs; buf := buf r; stopped := stopped r |})
  end.

(** [self.buf.drain(..consumed)]. *)
Definition drain (consumed : nat) (r : EnvelopeReader) : EnvelopeReader :=
  {| recv := recv r; buf := drop consumed (buf r); stopped := stopped r |}.

(** The retry loop of [read_prologue] and [read_envelope], which differ only
    in the parser.  Each turn but the last takes an event from [recv], so
    [S (length recv)] turns are enough ([read_loop_unfold]). *)
Fixpoint read_loop {A} (parse : list Z -> result StreamReadError (option (A * nat)))
    (timed : bool) (fuel : nat) : async EnvelopeReader StreamReadError A := fun r =>
  match fuel with
  | O => (Crash, r)
  | S fuel' =>
      match parse (buf r) with
      | Ok (Some (x, consumed)) => (Ready (Ok x), drain consumed r)
      | Ok None => (_ ← fill_more timed; read_loop parse timed fuel') r
      | Err e => (Ready (Err e), r)
      end
  end.

Definition read_loop' {A} (parse : list Z -> result StreamReadError (option (A * nat)))
    (timed : bool) : async EnvelopeReader StreamReadError A := fun r =>
  read_loop parse timed (S (length (recv r))) r.

Definition prologue_parser (b : list Z)
    : result StreamReadError (option (StreamPrologue * nat)) :=
  map_err PrologueErr (Prologue.parse b).

Definition envelope_parser (max_length : Z) (b : list Z)
    : result StreamReadError (option (Z * list Z * nat)) :=
  match Envelope.parse b max_length with
  | Ok (Some (env, consumed)) => Ok (Some (type_raw env, payload env, consumed))
  | Ok None => Ok None
  | Err e => Err (EnvelopeErr e)
  end.

Definition read_prologue (timed : bool)
    : async EnvelopeReader StreamReadError StreamPrologue :=
  read_loop' prologue_parser timed.

Definition read_envelope (timed : bool) (max_length : Z)
    : async EnvelopeReader StreamReadError (Z * list Z) :=
  read_loop' (envelope_parser max_length) timed.

Definition stop (error_code : Z) (r : EnvelopeReader) : EnvelopeReader :=
  {| recv := recv r; buf := buf r; stopped := Some error_code |}.

Definition write_envelope (timed : bool) (type_raw : Z) (payload : list Z)
    : async SendStream WriteError unit :=
  buf ← aoutcome (Envelope.encode type_raw payload []);
  write_all timed buf.

(** [n] envelopes read one after the other. *)
Fixpoint read_envelopes (timed : bool) (max_length : Z) (n : nat)
    : async EnvelopeReader StreamReadError (list (Z * list Z)) :=
  match n with
  | O => aret []
  | S n' =>
      m ← read_envelope timed max_length;
      ms ← read_envelopes timed max_length n';
      aret (m :: ms)
  end.

(** * Views of a reader used in the statements *)

(** The bytes the script still delivers before the stream ends or fails. *)
Fixpoint recv_bytes (recv : list read_event) : list Z :=
  match recv with
  | [] | RFin :: _ | RFail _ :: _ => []
  | RData chunk :: recv' => chunk ++ recv_bytes recv'
  | RElapsed :: recv' => recv_bytes recv'
  end.

(** How it goes on after those bytes. *)
Fixpoint recv_end (recv : list read_event) : poll StreamReadError unit :=
  match recv with
  | [] => Pending
  | RFin :: _ => Ready (Err ClosedEarly)
  | RFail e :: _ => Ready (Err (Read e))
  | RData _ :: recv' | RElapsed :: recv' => recv_end recv'
  end.

Definition stream_bytes (r : EnvelopeReader) : list Z := buf r ++ recv_bytes (recv r).

Definition is_elapsed (ev : read_event) : bool :=
  match ev with RElapsed => true | _ => false end.

Definition no_elapsed (recv : list read_event) : Prop :=
  Forall (fun ev => is_elapsed ev = false) recv.
End transport.

(** * Lemmas *)

Section facts.
Context `{Transport}.

Lemma recv_read_length timed recv c recv' :
  recv_read timed recv = (Ready (Ok (Some c)), recv') -> (length recv' < length recv)%nat.
Proof.
  induction recv as [|[] recv IH]; cbn; intros Hr; try done.
  - injection Hr as _ <-. lia.
  - destruct timed; [done|]. apply IH in Hr. lia.
Qed.

(** What one [read] yields, against the views of the script. *)
Lemma recv_read_spec timed recv :
  (timed = true -> no_elapsed recv) ->
  match recv_read timed recv with
  | (Ready (Ok (Some c)), recv') =>
      recv_bytes recv = c ++ recv_bytes recv' /\ recv_end recv' = recv_end recv /\
      (no_elapsed recv -> no_elapsed recv')
  | (Ready (Ok None), recv') => recv_bytes recv = [] /\ recv_end recv = Ready (Err ClosedEarly)
  | (Ready (Err e), recv') => recv_bytes recv = [] /\ recv_end recv = Ready (Err (Read e))
  | (Pending, recv') => recv_bytes recv = [] /\ recv_end recv = Pending
  | (Elapsed, _) | (Crash, _) => False
  end.
Proof.
  induction recv as [|[] recv IH]; cbn; intros Ht; try done.
  - repeat split; try done. by inversion 1.
  - destruct timed.
    + specialize (Ht eq_refl). by inversion Ht.
    + specialize (IH ltac:(done)).
      destruct (recv_read false recv) as [[[[]|]| | |] ?]; try done.
      destruct IH as (Hb & He & Hn). repeat split; try done. intros Hx. apply Hn. by inv Hx.
Qed.

Lemma recv_read_bytes timed recv c recv' :
  recv_read timed recv = (Ready (Ok (Some c)), recv') -> recv_bytes recv = c ++ recv_bytes recv'.
Proof.
  induction recv as [|[] recv IH]; cbn; intros Hr; try done.
  - by injection Hr as <- <-.
  - destruct timed; [done|]. by apply IH.
Qed.

(** [fuel] beyond the number of scripted events makes no difference. *)
Lemma read_loop_fuel {A} (parse : list Z -> result StreamReadError (option (A * nat)))
    timed n m r :
  (length (recv r) < n)%nat -> (length (recv r) < m)%nat ->
  read_loop parse timed n r = read_loop parse timed m r.
Proof.
  revert m r. induction n as [|n IH]; intros [|m] r Hn Hm; try lia.
  cbn [read_loop]. destruct (parse (buf r)) as [[[x k]|]|e]; try done.
  unfold mbind, async_bind, abind, fill_more.
  destruct (recv_read timed (recv r)) as [[[[c|]|]| | |] rs] eqn:E; try done.
  apply recv_read_length in E. apply IH; cbn; lia.
Qed.

(** The loops as the source writes them, without fuel. *)
Lemma read_loop_unfold {A} (parse : list Z -> result StreamReadError (option (A * nat))) timed r :
  read_loop' parse timed r =
  match parse (buf r) with
  | Ok (Some (x, consumed)) => (Ready (Ok x), drain consumed r)
  | Ok None => (_ ← fill_more timed; read_loop' parse timed) r
  | Err e => (Ready (Err e), r)
  end.
Proof.
  unfold read_loop' at 1. cbn [read_loop].
  destruct (parse (buf r)) as [[[x k]|]|e]; try done.
  unfold mbind, async_bind, abind, fill_more.
  destruct (recv_read timed (recv r)) as [[[[c|]|]| | |] rs] eqn:E; try done.
  apply recv_read_length in E. apply read_loop_fuel; cbn; lia.
Qed.

(** A parser whose verdicts survive more bytes, and which consumes no more
    than it was given. *)
Definition incremental {A} (parse : list Z -> result StreamReadError (option (A * nat))) : Prop :=
  (forall b more, parse b ≠ Ok None -> parse (b ++ more) = parse b) /\
  (forall b x n, parse b = Ok (Some (x, n)) -> (n <= length b)%nat).

(** The result of a read depends on the bytes of the stream only, never on
    how they were cut into chunks. *)
Lemma read_loop_spec {A} (parse : list Z -> result StreamReadError (option (A * nat))) timed r :
  incremental parse -> (timed = true -> no_elapsed (recv r)) ->
  exists r', stopped r' = stopped r /\
  match parse (stream_bytes r) with
  | Ok (Some (x, n)) =>
      read_loop' parse timed r = (Ready (Ok x), r') /\
      stream_bytes r' = drop n (stream_bytes r) /\ recv_end (recv r') = recv_end (recv r) /\
      (no_elapsed (recv r) -> no_elapsed (recv r'))
  | Err e => read_loop' parse timed r = (Ready (Err e), r')
  | Ok None =>
      read_loop' parse timed r =
        (match recv_end (recv r) with
         | Ready (Err e) => Ready (Err e)
         | _ => Pending
         end, r')
  end.
Proof.
  intros [Hmono Hle]. remember (length (recv r)) as n eqn:Hn.
  revert r Hn. induction n as [n IH] using lt_wf_ind. intros r -> Ht.
  rewrite read_loop_unfold.
  destruct (parse (buf r)) as [[[x k]|]|e] eqn:E.
  - exists (drain k r). split; [done|]. unfold stream_bytes at 1.
    rewrite Hmono by (by rewrite E). rewrite E. cbn. split; [done|].
    unfold stream_bytes. cbn. rewrite drop_app_le by eauto. done.
  - pose proof (recv_read_spec timed (recv r) Ht) as Hs.
    unfold mbind, async_bind, abind, fill_more.
    destruct (recv_read timed (recv r)) as [[[[c|]|]| | |] rs] eqn:Er; try done.
    + destruct Hs as (Hb & He & Hne). apply recv_read_length in Er.
      destruct (IH (length rs) ltac:(lia)
        {| recv := rs; buf := buf r ++ c; stopped := stopped r |} eq_refl) as (r' & Hst & Hr').
      { cbn. eauto. }
      exists r'. split; [done|]. unfold stream_bytes in *. cbn [recv buf stopped] in Hr'.
      rewrite Hb. rewrite <- app_assoc in Hr'. rewrite He in Hr'.
      destruct (parse (buf r ++ c ++ recv_bytes rs)) as [[[y k]|]|e']; [naive_solver|exact Hr'|exact Hr'].
    + destruct Hs as [Hb He]. eexists. unfold stream_bytes. rewrite Hb, app_nil_r, E, He. by split; [|reflexivity].
    + destruct Hs as [Hb He]. eexists. unfold stream_bytes. rewrite Hb, app_nil_r, E, He. by split; [|reflexivity].
    + destruct Hs as [Hb He]. eexists. unfold stream_bytes. rewrite Hb, app_nil_r, E, He. by split; [|reflexivity].
  - exists r. split; [done|]. unfold stream_bytes.
    rewrite Hmono by (by rewrite E). by rewrite E.
Qed.

Lemma prologue_parser_incremental : incremental prologue_parser.
Proof.
  unfold incremental, prologue_parser. split.
  - intros b more Hne. destruct (Prologue.parse b) as [[[p n]|]|e] eqn:E; cbn in Hne;
      try done; by rewrite (Prologue.prologue_parse_app _ _ _ E).
  - intros b x n Hp. destruct (Prologue.parse b) as [[[p m]|]|e] eqn:E; cbn in Hp; try done.
    injection Hp as -> ->. by eapply Prologue.prologue_parse_le.
Qed.

Lemma envelope_parser_incremental max_length : incremental (envelope_parser max_length).
Proof.
  unfold incremental, envelope_parser. split.
  - intros b more Hne. destruct (Envelope.parse b max_length) as [[[env n]|]|e] eqn:E;
      try done; by rewrite (Envelope.envelope_parse_app _ _ _ _ E).
  - intros b x n Hp. destruct (Envelope.parse b max_length) as [[[env m]|]|e] eqn:E; try done.
    injection Hp as _ <-. by eapply Envelope.envelope_parse_le.
Qed.

(** An envelope that was read is gone from the stream. *)
Lemma read_envelope_progress timed max_length r m r' :
  read_envelope timed max_length r = (Ready (Ok m), r') ->
  (length (stream_bytes r') < length (stream_bytes r))%nat.
Proof.
  unfold read_envelope. remember (length (recv r)) as n eqn:Hn. revert r Hn.
  induction n as [n IH] using lt_wf_ind. intros r ->. rewrite read_loop_unfold.
  destruct (envelope_parser max_length (buf r)) as [[[x k]|]|e] eqn:E; intros Hr; [| |done].
  - injection Hr as _ <-.
    assert (0 < k <= length (buf r))%nat.
    { split; [|by eapply envelope_parser_incremental].
      revert E. unfold envelope_parser, Envelope.parse.
      destruct (Varint.decode (buf r)) as [[len j]|[]]; [|done].
      zcases; try done. intros [= _ <-]. lia. }
    unfold stream_bytes, drain. cbn [buf recv]. rewrite !length_app, length_drop. lia.
  - revert Hr. unfold mbind, async_bind, abind, fill_more.
    destruct (recv_read timed (recv r)) as [[[[c|]|]| | |] rs] eqn:Er; try done. intros Hr.
    assert (length rs < length (recv r))%nat as Hlt by (by eapply recv_read_length).
    apply recv_read_bytes in Er.
    pose proof (IH (length rs) Hlt {| recv := rs; buf := buf r ++ c; stopped := stopped r |} eq_refl Hr) as Hi. revert Hi.
    unfold stream_bytes. cbn [buf recv]. rewrite Er, !length_app. lia.
Qed.

(** Reading a frame that is next on the stream. *)
Lemma read_envelope_frame timed max_length r t p rest :
  is_u16 t -> Z.of_nat (length p) <= max_length -> max_length <= Varint.MAX ->
  (timed = true -> no_elapsed (recv r)) ->
  stream_bytes r = frame t p ++ rest ->
  exists r', read_envelope timed max_length r = (Ready (Ok (t, p)), r') /\
    stream_bytes r' = rest /\ recv_end (recv r') = recv_end (recv r) /\
    (no_elapsed (recv r) -> no_elapsed (recv r')) /\ stopped r' = stopped r.
Proof.
  intros Ht Hp Hm Hne Hs.
  destruct (read_loop_spec (envelope_parser max_length) timed r
    (envelope_parser_incremental _) Hne) as (r' & Hst & Hr).
  unfold envelope_parser in Hr at 1. rewrite Hs, parse_frame in Hr by (done || lia).
  cbn in Hr. rewrite drop_app_length in Hr. exists r'. naive_solver.
Qed.

Lemma read_prologue_next timed r k v c bs rest :
  0 <= c <= Varint.MAX -> Prologue.encode k v c [] = Done bs ->
  (timed = true -> no_elapsed (recv r)) ->
  stream_bytes r = bs ++ rest ->
  exists r', read_prologue timed r
      = (Ready (Ok {| kind := k; version := v; context_id := c |}), r') /\
    stream_bytes r' = rest /\ recv_end (recv r') = recv_end (recv r) /\
    (no_elapsed (recv r) -> no_elapsed (recv r')) /\ stopped r' = stopped r.
Proof.
  intros Hc He Hne Hs.
  destruct (Prologue.parse_encoded_prologue k v c [] Hc) as (bs' & He' & Hp).
  rewrite He in He'. injection He' as ->.
  destruct (read_loop_spec prologue_parser timed r prologue_parser_incremental Hne)
    as (r' & Hst & Hr).
  unfold prologue_parser in Hr at 1. rewrite Hs in Hr. cbn [app] in Hr.
  rewrite Hp in Hr. cbn in Hr. rewrite drop_app_length in Hr. exists r'. naive_solver.
Qed.

(** The same reader with a longer script. *)
Definition extend (more : list read_event) (r : EnvelopeReader) : EnvelopeReader :=
  {| recv := recv r ++ more; buf := buf r; stopped := stopped r |}.

Lemma recv_read_extend timed evs more x evs' :
  recv_read timed evs = (Ready x, evs') -> recv_read timed (evs ++ more) = (Ready x, evs' ++ more).
Proof.
  induction evs as [|[] evs IH]; cbn; intros Hr; try done.
  1-3: by injection Hr as <- <-.
  destruct timed; [done|]. by apply IH.
Qed.

(** A read that completes on a script completes the same way on a longer one. *)
Lemma read_loop_extend {A} (parse : list Z -> result StreamReadError (option (A * nat))) timed more r x r' :
  read_loop' parse timed r = (Ready x, r') ->
  read_loop' parse timed (extend more r) = (Ready x, extend more r').
Proof.
  remember (length (recv r)) as n eqn:Hn. revert r Hn.
  induction n as [n IH] using lt_wf_ind. intros r ->.
  rewrite (read_loop_unfold _ _ r), (read_loop_unfold _ _ (extend more r)). cbn [extend buf].
  destruct (parse (buf r)) as [[[y k]|]|e]; [by intros [= <- <-]| |by intros [= <- <-]].
  unfold mbind, async_bind, abind, fill_more. cbn [extend recv buf stopped].
  destruct (recv_read timed (recv r)) as [p evs'] eqn:Er.
  destruct p as [q| | |]; [|done..]. rewrite (recv_read_extend _ _ more _ _ Er).
  destruct q as [[c|]|e]; [|by intros [= <- <-]..].
  apply recv_read_length in Er. intros Hr. by apply (IH (length evs') Er) in Hr.
Qed.

(** Once the bytes are used up, a timed read waits until its timer fires. *)
Lemma read_envelope_elapsed max_length evs more st :
  no_elapsed evs -> recv_bytes evs = [] -> recv_end evs = Pending ->
  read_envelope true max_length {| recv := evs ++ RElapsed :: more; buf := []; stopped := st |}
  = (Elapsed, {| recv := more; buf := []; stopped := st |}).
Proof.
  intros Hne Hb He. unfold read_envelope. induction Hne as [|[c| | |] evs Hev Hne IH]; try done.
  cbn in Hb, He. apply app_nil in Hb as [-> Hb].
  rewrite read_loop_unfold. cbn -[read_loop']. unfold abind. cbn -[read_loop']. by apply IH.
Qed.

(** A read that may be cancelled at a timer event: it completes with what is next
    on the stream, or it is cancelled and no byte is lost. *)
Lemma read_loop_cancel {A} (parse : list Z -> result StreamReadError (option (A * nat))) r x n :
  incremental parse -> parse (stream_bytes r) = Ok (Some (x, n)) ->
  exists r',
    (read_loop' parse true r = (Ready (Ok x), r') /\ stream_bytes r' = drop n (stream_bytes r) /\
     (length (recv r') <= length (recv r))%nat) \/
    (read_loop' parse true r = (Elapsed, r') /\ stream_bytes r' = stream_bytes r /\
     (length (recv r') < length (recv r))%nat).
Proof.
  intros [Hmono Hle]. remember (length (recv r)) as k eqn:Hk. revert r Hk.
  induction k as [k IH] using lt_wf_ind. intros r -> Hp. rewrite read_loop_unfold.
  destruct (parse (buf r)) as [[[y m]|]|e] eqn:E.
  - unfold stream_bytes in Hp. rewrite Hmono in Hp by (by rewrite E). rewrite E in Hp. injection Hp as -> ->.
    exists (drain n r). left. split; [done|]. split; [|done].
    unfold stream_bytes, drain. cbn [buf recv]. by rewrite drop_app_le by eauto.
  - unfold mbind, async_bind, abind, fill_more.
    destruct (recv r) as [|[c| |e|] evs] eqn:Er; cbn [recv_read].
    + exfalso. unfold stream_bytes in Hp. rewrite Er in Hp. cbn in Hp. rewrite app_nil_r, E in Hp. done.
    + destruct (IH (length evs) ltac:(cbn; lia)
        {| recv := evs; buf := buf r ++ c; stopped := stopped r |} eq_refl) as (r' & Hr').
      { unfold stream_bytes in *. cbn [recv buf]. rewrite Er in Hp. by rewrite <- app_assoc. }
      exists r'. cbn [recv length] in *.
      assert (stream_bytes {| recv := evs; buf := buf r ++ c; stopped := stopped r |} = stream_bytes r) as Hs.
      { unfold stream_bytes. cbn [recv buf]. by rewrite Er, <- app_assoc. }
      rewrite Hs in Hr'. destruct Hr' as [(-> & -> & Hl)|(-> & -> & Hl)]; [left|right];
        (split; [done|]); (split; [done|]); lia.
    + exfalso. unfold stream_bytes in Hp. rewrite Er in Hp. cbn in Hp. rewrite app_nil_r, E in Hp. done.
    + exfalso. unfold stream_bytes in Hp. rewrite Er in Hp. cbn in Hp. rewrite app_nil_r, E in Hp. done.
    + exists {| recv := evs; buf := buf r; stopped := stopped r |}. right.
      split; [done|]. unfold stream_bytes. rewrite Er. cbn. split; [done|lia].
  - exfalso. unfold stream_bytes in Hp. rewrite Hmono in Hp by (by rewrite E). by rewrite E in Hp.
Qed.

Lemma read_envelope_cancel max_length r t p rest :
  is_u16 t -> Z.of_nat (length p) <= max_length -> max_length <= Varint.MAX ->
  stream_bytes r = frame t p ++ rest ->
  exists r',
    (read_envelope true max_length r = (Ready (Ok (t, p)), r') /\ stream_bytes r' = rest /\
     (length (recv r') <= length (recv r))%nat) \/
    (read_envelope true max_length r = (Elapsed, r') /\ stream_bytes r' = stream_bytes r /\
     (length (recv r') < length (recv r))%nat).
Proof.
  intros Ht Hp Hm Hs.
  destruct (read_loop_cancel (envelope_parser max_length) r (t, p) (length (frame t p)))
    as (r' & Hr); [apply envelope_parser_incremental| |].
  { unfold envelope_parser. by rewrite Hs, parse_frame by (done || lia). }
  exists r'. unfold read_envelope. rewrite Hs in Hr at 1. rewrite drop_app_length in Hr. exact Hr.
Qed.

(** Writers that put the encoding of one item on a healthy stream. *)
Lemma afor_writes {E A} (f : A -> async SendStream E unit) (bytes : A -> list Z) xs s :
  (forall x s, x ∈ xs -> write_results s = [] ->
     f x s = (Ready (Ok tt), {| sent := sent s ++ bytes x; write_results := [] |})) ->
  write_results s = [] ->
  afor f xs s = (Ready (Ok tt), {| sent := sent s ++ concat (map bytes xs); write_results := [] |}).
Proof.
  revert s. induction xs as [|x xs IH]; intros s Hf Hw.
  { cbn. rewrite app_nil_r, <- Hw. by destruct s. }
  cbn [afor map concat]. erewrite abind_ready by (apply Hf; [by left|done]).
  rewrite IH; [cbn [sent]; by rewrite <- app_assoc| |done].
  intros y t Hy. apply Hf. by right.
Qed.

Lemma write_envelope_frame timed t p s :
  Z.of_nat (length p) <= Varint.MAX -> write_results s = [] ->
  write_envelope timed t p s
  = (Ready (Ok tt), {| sent := sent s ++ frame t p; write_results := [] |}).
Proof.
  intros Hp Hw. unfold write_envelope. erewrite abind_ready.
  2: { unfold aoutcome. by rewrite encode_frame. }
  unfold write_all. by rewrite Hw.
Qed.
End facts.

(** * Properties *)

(** The frames of a list of messages, one after the other. *)
Definition frames (ms : list (Z * list Z)) : list Z := concat (map (fun '(t, p) => frame t p) ms).

Definition message_ok (max_length : Z) (m : Z * list Z) : Prop :=
  is_u16 m.1 /\ Z.of_nat (length m.2) <= max_length.

Definition chunks_upto `{Transport} (n : nat) (recv : list read_event) : Prop :=
  Forall (fun ev => match ev with RData c => (length c <= n)%nat | _ => True end) recv.

Section properties.
Context `{Transport}.

(** C28: Framing is lossless under any chunking.  If the bytes on a stream are
    the frames of a list of messages followed by anything, then however the
    transport cuts them into chunks, and wherever the buffered part ends,
    reading as many envelopes returns those messages in order and leaves
    exactly the bytes behind them. *)
Theorem read_envelopes_any_chunking timed max_length ms rest r :
  Forall (message_ok max_length) ms -> max_length <= Varint.MAX ->
  (timed = true -> no_elapsed (recv r)) ->
  stream_bytes r = frames ms ++ rest ->
  exists r', read_envelopes timed max_length (length ms) r = (Ready (Ok ms), r') /\
    stream_bytes r' = rest /\ recv_end (recv r') = recv_end (recv r).
Proof.
  intros Hms Hm. revert r. induction Hms as [|[t p] ms [Ht Hp] _ IH]; intros r Hne Hs.
  { exists r. by cbn. }
  cbn [frames map concat] in Hs. rewrite <- app_assoc in Hs.
  destruct (read_envelope_frame timed max_length r t p (frames ms ++ rest))
    as (r1 & E1 & Hs1 & He1 & Hn1 & _); [done..|].
  destruct (IH r1 ltac:(auto) Hs1) as (r2 & E2 & Hs2 & He2).
  exists r2. split; [|by rewrite He2].
  cbn [length read_envelopes]. erewrite abind_ready by exact E1.
  by erewrite abind_ready by exact E2.
Qed.

(** An envelope read ends in exactly one way, fixed by the bytes of the
    stream and by how the stream ends: the frame at the front is returned; a
    frame over the limit is an [Envelope] error; bytes that stop short of a
    frame are [ClosedEarly] when the peer has finished the stream, the
    transport's own error when that failed, and otherwise the read keeps
    waiting. *)
Theorem read_envelope_outcome max_length r :
  exists r', 
  match envelope_parser max_length (stream_bytes r) with
  | Ok (Some (m, n)) =>
      read_envelope false max_length r = (Ready (Ok m), r') /\
      stream_bytes r' = drop n (stream_bytes r)
  | Err e => read_envelope false max_length r = (Ready (Err e), r')
  | Ok None =>
      read_envelope false max_length r =
        (match recv_end (recv r) with Ready (Err e) => Ready (Err e) | _ => Pending end, r')
  end.
Proof.
  destruct (read_loop_spec (envelope_parser max_length) false r
    (envelope_parser_incremental _) ltac:(done)) as (r' & _ & Hr).
  exists r'. destruct (envelope_parser max_length (stream_bytes r)) as [[[m n]|]|e]; [|done..].
  naive_solver.
Qed.

Lemma envelope_parser_need max_length b :
  bytes_ok b -> envelope_parser max_length b = Ok None ->
  Z.of_nat (length b) < Z.max 0 max_length + 10.
Proof.
  intros Hok. unfold envelope_parser, Envelope.parse.
  destruct (Varint.decode b) as [[len k]|[]] eqn:E.
  - pose proof (decode_bounds _ _ _ Hok E). zcases; intros; try done; lia.
  - intros _. destruct b as [|first rest]; [cbn; lia|]. revert E.
    rewrite decode_spec by done. cbn zeta. unfold form_len. cbn [length]. zcases; try done; lia.
Qed.

(** Memory stays bounded while reading: with chunks of at most 4096 bytes
    (the size of the read buffer) an envelope read never leaves more than
    the limit plus one header and one chunk in its buffer, unless it found
    more there, however much the peer sends and whatever the outcome. *)
Theorem read_envelope_buffer_bound timed max_length r :
  bytes_ok (stream_bytes r) -> chunks_upto 4096 (recv r) ->
  Z.of_nat (length (buf (read_envelope timed max_length r).2))
    <= Z.max (Z.of_nat (length (buf r))) (Z.max 0 max_length + 10 + 4096).
Proof.
  unfold read_envelope. remember (length (recv r)) as n eqn:Hn. revert r Hn.
  induction n as [n IH] using lt_wf_ind. intros r -> Hok Hc. rewrite read_loop_unfold.
  destruct (envelope_parser max_length (buf r)) as [[[x k]|]|e] eqn:E.
  - cbn. rewrite length_drop. lia.
  - apply bytes_ok_app in Hok as [Hb Hr]. apply envelope_parser_need in E; [|done].
    unfold mbind, async_bind, abind, fill_more.
    destruct (recv_read timed (recv r)) as [[[[c|]|]| | |] rs] eqn:Er; cbn [snd buf];
      try (cbn; lia).
    assert (length rs < length (recv r))%nat as Hlt by (by eapply recv_read_length).
    assert (recv_bytes (recv r) = c ++ recv_bytes rs /\ (length c <= 4096)%nat /\
      chunks_upto 4096 rs) as (Hbs & Hlc & Hcs).
    { clear -Er Hc. induction (recv r) as [|[] l IHl]; cbn in *; try done.
      - injection Er as -> ->. inv Hc. done.
      - destruct timed; [done|]. inv Hc. eauto. }
    pose proof (IH (length rs) Hlt {| recv := rs; buf := buf r ++ c; stopped := stopped r |}
      eq_refl) as Hi. etransitivity; [apply Hi|].
    + unfold stream_bytes. cbn [recv buf]. rewrite <- app_assoc, <- Hbs.
      by apply bytes_ok_app.
    + done.
    + cbn [buf]. rewrite length_app. lia.
  - cbn. lia.
Qed.
End properties.

Lemma read_envelopes_any_chunking_witness :
  let ms := [(0x1, [7; 8; 9]); (0x4002, [])] in
  let r := @new plain_transport [RData [3]; RData [1; 0; 7; 8]; RElapsed; RData [9; 0; 2]; RData [0x40; 5]] in
  (Forall (message_ok 16) ms /\ stream_bytes r = frames ms ++ [5]) /\
  exists r', read_envelopes false 16 2 r = (Ready (Ok ms), r') /\
    stream_bytes r' = [5] /\ recv_end (recv r') = recv_end (recv r).
Proof.
  intros ms r.
  assert (Forall (message_ok 16) ms) as Hms
    by (repeat constructor; by vm_compute).
  assert (stream_bytes r = frames ms ++ [5]) as Hs by (by vm_compute).
  split; [done|].
  apply (read_envelopes_any_chunking false 16 ms [5] r Hms); [by vm_compute|done|exact Hs].
Defined.

Lemma read_envelope_buffer_bound_witness :
  let r := @new plain_transport [RData [0x80; 0; 0x40]; RData [0; 1; 0]] in
  (bytes_ok (stream_bytes r) /\ chunks_upto 4096 (recv r)) /\
  Z.of_nat (length (buf (read_envelope false 10 r).2)) <= Z.max (Z.of_nat (length (buf r))) (Z.max 0 10 + 10 + 4096).
Proof.
  intros r.
  assert (bytes_ok (stream_bytes r)) as Hok by (repeat constructor; by vm_compute).
  assert (chunks_upto 4096 (recv r)) as Hc by (repeat constructor; apply (bool_decide_unpack _); by vm_compute).
  split; [done|]. by apply (read_envelope_buffer_bound false 10 r).
Defined.
