(* ===== verification/Messages.v ===== *)
(** Message bodies: the model of [src/src/messages.rs].

    A byte array is a [list Z], a [String] a [string]; bodies travel as CBOR,
    produced and read by the [ciborium] crate, which is a parameter here: the
    class [Cbor] holds its two functions and [CborLaws] what the session code
    relies on. *)

From S2P Require Import Prelude.
From S2P Require Import ReasonCode.
From S2P Require Import Async.

(** * Type ids *)

Module type_id.
Definition CLIENT_HELLO : Z := 0x0001.
Definition SERVER_HELLO : Z := 0x0002.
Definition AUTH_PUBKEY : Z := 0x0003.
Definition AUTH_RESULT : Z := 0x0004.
Definition VIDEO_STREAM_GENERATION : Z := 0x0005.
Definition ENCODER_CONFIG : Z := 0x0006.
Definition VIDEO_FRAME_HEADER : Z := 0x0007.
Definition VIDEO_FRAME_PAYLOAD : Z := 0x0008.
Definition TIME_SYNC_REQUEST : Z := 0x0009.
Definition TIME_SYNC_RESPONSE : Z := 0x000A.
Definition TRANSPORT_FEEDBACK : Z := 0x000B.
Definition KEEP_ALIVE : Z := 0x000C.
Definition SESSION_CLOSE : Z := 0x000D.
Definition SESSION_REAUTHENTICATE : Z := 0x000E.
Definition PERMISSION_UPDATE : Z := 0x000F.
Definition ACTIVE_MONITOR : Z := 0x0010.
Definition CLIPBOARD_FORMATS : Z := 0x0011.
Definition CLIPBOARD_REQUEST : Z := 0x0012.
Definition CLIPBOARD_DATA : Z := 0x0013.
Definition CLIPBOARD_ERROR : Z := 0x0014.
Definition FILE_TRANSFER_REQUEST : Z := 0x0015.
Definition FILE_TRANSFER_ACCEPT : Z := 0x0016.
Definition FILE_TRANSFER_REJECT : Z := 0x0017.
Definition FILE_CHUNK : Z := 0x0018.
Definition FILE_TRANSFER_COMPLETE : Z := 0x0019.
Definition FILE_TRANSFER_ERROR : Z := 0x001A.
Definition AUDIO_CONFIG : Z := 0x001B.
Definition AUDIO_FRAME_HEADER : Z := 0x001C.
Definition AUDIO_FRAME_PAYLOAD : Z := 0x001D.
Definition AUDIO_SYNC_FEEDBACK : Z := 0x001E.
Definition KEY_EVENT : Z := 0x001F.
Definition TEXT_INPUT : Z := 0x0020.
Definition IME_COMPOSITION : Z := 0x0021.
Definition MOUSE_MOVE : Z := 0x0022.
Definition MOUSE_BUTTON : Z := 0x0023.
Definition WHEEL : Z := 0x0024.
Definition IME_MODE_CHANGE : Z := 0x0025.
Definition KEYFRAME_REQUEST : Z := 0x0026.
End type_id.

(** * Handshake *)

Inductive AuthMethod := PublicKey | Passkey | Password | Totp.

Record AuthCombination := {
  methods : list AuthMethod;
  priority : Z;
}.

Record AuthPolicy := {
  accepted_combinations : list AuthCombination;
}.

Record ClientHello := {
  client_name : string;
  client_version : string;
  ch_capabilities : list Z;
  auth_methods : list AuthMethod;
}.

Record ServerHello := {
  server_name : string;
  server_version : string;
  sh_capabilities : list Z;
  auth_policy : AuthPolicy;
  auth_challenge : list Z;
}.

Record AuthPubkey := {
  ap_user_id : string;
  ap_device_id : string;
  public_key : list Z;
  signature : list Z;
}.

Inductive AuthStatus := AuthOk | MfaRequired | Denied.

Record AuthResult := {
  status : AuthStatus;
  ar_reason : ReasonCode;
  ar_session_id : list Z;
  ar_reconnect_token : list Z;
  ar_granted_permissions : Z;
}.

(** * Video *)

Inductive Codec := H264.
Inductive ChromaFormat := C420 | C422 | C444.

Record VideoStreamGeneration := {
  vsg_generation : Z;
  vsg_config_id : Z;
}.

Record EncoderConfig := {
  ec_codec : Codec;
  profile : Z;
  chroma_format : ChromaFormat;
  bit_depth : Z;
  ec_width : Z;
  ec_height : Z;
  max_fps : Z;
  tier : Z;
  b_frames : Z;
  server_cursor_excludable : bool;
}.

Record VideoFrameHeader := {
  vfh_generation : Z;
  frame_id : Z;
  vfh_config_id : Z;
  flags : Z;
  capture_ts : Z;
  encode_done_ts : Z;
  vfh_width : Z;
  vfh_height : Z;
  payload_len : Z;
}.

Definition VIDEO_FRAME_FLAG_IDR : Z := 0x01.

Definition is_idr (h : VideoFrameHeader) : bool :=
  negb (Z.land (flags h) VIDEO_FRAME_FLAG_IDR =? 0).

(** * Control stream *)

Record TimeSyncRequest := { req_t1 : Z }.

Record TimeSyncResponse := { resp_t1 : Z; resp_t2 : Z; resp_t3 : Z }.

Record TransportFeedback := {
  last_received_frame_id : Z;
  last_decoded_frame_id : Z;
  tf_last_displayed_frame_id : Z;
  frames_received : Z;
  frames_dropped : Z;
  receive_bitrate_bps : Z;
  decode_delay_us : Z;
  display_delay_us : Z;
  target_latency_us : Z;
  client_queue_delay_us : Z;
}.

Record KeepAlive := mkKeepAlive {}.

Record SessionClose := { close_reason : ReasonCode }.

Inductive ReauthenticateReason := ReauthReconnect | PermissionRefresh.

Record SessionReauthenticate := {
  reauth_reason : ReauthenticateReason;
  prior_session_id : list Z;
  sr_reconnect_token : list Z;
}.

Record PermissionUpdate := {
  granted_permissions : Z;
  immediate_revoke : Z;
}.

Record ActiveMonitor := { am_monitor_id : Z }.

(** * Clipboard *)

Inductive FormatNamespace := Mime | Win32 | MacosUti.

Record ClipboardFormatEntry := {
  entry_namespace : FormatNamespace;
  entry_format_id : string;
}.

Record ClipboardFormats := {
  cf_request_id : Z;
  formats : list ClipboardFormatEntry;
}.

Record ClipboardRequest := {
  cr_request_id : Z;
  cr_namespace : FormatNamespace;
  cr_format_id : string;
}.

Record ClipboardData := {
  cd_request_id : Z;
  cd_namespace : FormatNamespace;
  cd_format_id : string;
  cd_data : list Z;
}.

Record ClipboardError := {
  ce_request_id : Z;
  ce_reason : ReasonCode;
}.

(** * File transfer *)

Inductive FileTransferDirection := Upload | Download.

Record FileTransferRequest := {
  ftr_request_id : Z;
  ftr_direction : FileTransferDirection;
  virtual_path : string;
  declared_size : Z;
}.

Record FileTransferAccept := {
  fta_request_id : Z;
  fta_file_handle : Z;
  fta_resolved_size : Z;
  fta_expiry_ts : Z;
}.

Record FileTransferReject := {
  ftj_request_id : Z;
  ftj_reason : ReasonCode;
}.

Record FileChunk := {
  fc_offset : Z;
  fc_length : Z;
  fc_data : list Z;
}.

Record FileTransferComplete := { checksum : list Z }.

Record FileTransferError := {
  fte_file_handle : Z;
  fte_reason : ReasonCode;
}.

(** * Audio *)

Inductive AudioCodec := Opus.

Record AudioConfig := {
  ac_codec : AudioCodec;
  sample_rate : Z;
  channels : Z;
  frame_duration_ms : Z;
}.

Record AudioFrameHeader := {
  sequence : Z;
  afh_capture_ts : Z;
  duration_us : Z;
  afh_payload_len : Z;
}.

Record AudioSyncFeedback := {
  audio_played_ts : Z;
  video_displayed_ts : Z;
  drift_ppm : Z;
}.

(** * Input *)

Module mouse_button.
Definition LEFT : Z := 1.
Definition RIGHT : Z := 2.
Definition MIDDLE : Z := 3.
Definition X1 : Z := 4.
Definition X2 : Z := 5.
End mouse_button.

Module key_modifier.
Definition SHIFT : Z := Z.shiftl 1 0.
Definition CTRL : Z := Z.shiftl 1 1.
Definition ALT : Z := Z.shiftl 1 2.
Definition META : Z := Z.shiftl 1 3.
End key_modifier.

Record InputHeader := { event_id : Z; client_ts : Z }.

Record KeyEvent := {
  ke_header : InputHeader;
  ke_down : bool;
  scancode : Z;
  logical_key : Z;
  modifiers : Z;
}.

Record TextInput := { ti_header : InputHeader; ti_text : string }.

Record ImeComposition := { ic_header : InputHeader; ic_text : string; caret : Z }.

Record MouseMove := { mm_header : InputHeader; mm_x : Z; mm_y : Z }.

Record MouseButton := {
  mb_header : InputHeader;
  mb_button : Z;
  mb_down : bool;
  mb_x : Z;
  mb_y : Z;
}.

Record Wheel := { wh_header : InputHeader; dx : Z; dy : Z; is_precise : bool }.

Inductive ImeMode := ClientSide | RemoteSide.

Record ImeModeChange := {
  mode : ImeMode;
  effective_after_event_id : Z;
}.

Inductive KeyframeReason := DecodeFailed | ReasonReconnect | Manual.

Record KeyframeRequest := { kr_reason : KeyframeReason }.

(** * Equality *)

#[export] Instance AuthMethod_eq_dec : EqDecision AuthMethod.
Proof. solve_decision. Defined.
#[export] Instance AuthStatus_eq_dec : EqDecision AuthStatus.
Proof. solve_decision. Defined.
#[export] Instance ImeMode_eq_dec : EqDecision ImeMode.
Proof. solve_decision. Defined.
#[export] Instance FileTransferDirection_eq_dec : EqDecision FileTransferDirection.
Proof. solve_decision. Defined.
#[export] Instance FileChunk_eq_dec : EqDecision FileChunk.
Proof. solve_decision. Defined.

(** * Encoding *)

(** [ciborium::into_writer] and [ciborium::from_reader] at a message type. *)
Class Cbor `{Transport} (T : Type) := {
  into_writer : T -> list Z;
  from_reader : list Z -> result DecodeError T;
}.

(** Reading back what was written, and writing bytes. *)
Class CborLaws `{Transport} (T : Type) `{!Cbor T} : Prop := {
  from_into : forall m : T, from_reader (into_writer m) = Ok m;
  into_writer_ok : forall m : T, bytes_ok (into_writer m);
}.

Definition encode `{Cbor T} (msg : T) : list Z := into_writer msg.
Definition decode `{Cbor T} (bytes : list Z) : result DecodeError T := from_reader bytes.

(** * Lemmas *)

Lemma decode_encode_msg `{CborLaws T} (m : T) : decode (encode m) = Ok m.
Proof. apply from_into. Qed.
