(* ===== verification/MessageCodecs.v ===== *)
(** A codec for concrete runs: the bits of the [Countable] code of a message, one
    per byte.  It obeys the laws of [CborLaws], so a theorem that assumes them of
    CBOR can be applied to it. *)

From S2P Require Import Prelude.
From S2P Require Import ReasonCode.
From S2P Require Import Async.
From S2P Require Import Messages.

(** * The codec *)

Fixpoint pos_bits (p : positive) : list Z :=
  match p with xH => [] | xO p' => 0 :: pos_bits p' | xI p' => 1 :: pos_bits p' end.

Fixpoint bits_pos (bs : list Z) : positive :=
  match bs with
  | [] => xH
  | b :: bs' => if b =? 0 then xO (bits_pos bs') else xI (bits_pos bs')
  end.

Definition countable_cbor `{Countable T} : @Cbor plain_transport T :=
  {| into_writer := fun m => pos_bits (countable.encode m);
     from_reader := fun bs =>
       match countable.decode (bits_pos bs) with Some m => Ok m | None => Err (tt : @DecodeError plain_transport) end |}.

Lemma bits_pos_bits p : bits_pos (pos_bits p) = p.
Proof. induction p; cbn; [by rewrite IHp..|done]. Qed.

Lemma countable_cbor_laws `{Countable T} : @CborLaws plain_transport T countable_cbor.
Proof.
  split.
  - intros m. cbn. by rewrite bits_pos_bits, decode_encode.
  - intros m. cbn. generalize (countable.encode m). induction p; cbn; constructor; try done;
      by vm_compute.
Qed.

(** * The messages *)

#[export] Instance FileChunk_countable : Countable FileChunk.
Proof.
  refine (inj_countable' (fun c => (fc_offset c, fc_length c, fc_data c))
            (fun '(o, l, d) => {| fc_offset := o; fc_length := l; fc_data := d |}) _).
  by intros [].
Defined.
#[export] Instance FileTransferComplete_eq_dec : EqDecision FileTransferComplete.
Proof. solve_decision. Defined.
#[export] Instance FileTransferComplete_countable : Countable FileTransferComplete.
Proof. refine (inj_countable' checksum (fun c => {| checksum := c |}) _). by intros []. Defined.
#[export] Instance AuthMethod_countable : Countable AuthMethod.
Proof.
  refine (inj_countable (fun m => match m with PublicKey => 0 | Passkey => 1 | Password => 2 | Totp => 3 end)
            (fun z => match z with 0 => Some PublicKey | 1 => Some Passkey | 2 => Some Password
                      | 3 => Some Totp | _ => None end) _).
  by intros [].
Defined.
#[export] Instance AuthCombination_eq_dec : EqDecision AuthCombination.
Proof. solve_decision. Defined.
#[export] Instance AuthCombination_countable : Countable AuthCombination.
Proof.
  refine (inj_countable' (fun c => (methods c, priority c)) (fun '(m, p) => {| methods := m; priority := p |}) _).
  by intros [].
Defined.
#[export] Instance AuthPolicy_eq_dec : EqDecision AuthPolicy.
Proof. solve_decision. Defined.
#[export] Instance AuthPolicy_countable : Countable AuthPolicy.
Proof.
  refine (inj_countable' accepted_combinations (fun c => {| accepted_combinations := c |}) _).
  by intros [].
Defined.
#[export] Instance ClientHello_eq_dec : EqDecision ClientHello.
Proof. solve_decision. Defined.
#[export] Instance ClientHello_countable : Countable ClientHello.
Proof.
  refine (inj_countable' (fun h => (client_name h, client_version h, ch_capabilities h, auth_methods h))
            (fun '(n, v, c, m) =>
               {| client_name := n; client_version := v; ch_capabilities := c; auth_methods := m |}) _).
  by intros [].
Defined.
#[export] Instance ServerHello_eq_dec : EqDecision ServerHello.
Proof. solve_decision. Defined.
#[export] Instance ServerHello_countable : Countable ServerHello.
Proof.
  refine (inj_countable'
            (fun h => (server_name h, server_version h, sh_capabilities h, auth_policy h, auth_challenge h))
            (fun '(n, v, c, p, a) =>
               {| server_name := n; server_version := v; sh_capabilities := c; auth_policy := p;
                  auth_challenge := a |}) _).
  by intros [].
Defined.
#[export] Instance AuthPubkey_eq_dec : EqDecision AuthPubkey.
Proof. solve_decision. Defined.
#[export] Instance AuthPubkey_countable : Countable AuthPubkey.
Proof.
  refine (inj_countable' (fun a => (ap_user_id a, ap_device_id a, public_key a, signature a))
            (fun '(u, d, k, s) =>
               {| ap_user_id := u; ap_device_id := d; public_key := k; signature := s |}) _).
  by intros [].
Defined.
#[export] Instance AuthStatus_countable : Countable AuthStatus.
Proof.
  refine (inj_countable (fun s => match s with AuthOk => 0 | MfaRequired => 1 | Denied => 2 end)
            (fun z => match z with 0 => Some AuthOk | 1 => Some MfaRequired | 2 => Some Denied | _ => None end) _).
  by intros [].
Defined.
#[export] Instance ReasonCode_countable : Countable ReasonCode.
Proof.
  refine (inj_countable' (fun r => (rc_domain r, rc_code r)) (fun '(d, c) => {| rc_domain := d; rc_code := c |}) _).
  by intros [].
Defined.
#[export] Instance AuthResult_eq_dec : EqDecision AuthResult.
Proof. solve_decision. Defined.
#[export] Instance AuthResult_countable : Countable AuthResult.
Proof.
  refine (inj_countable'
            (fun a => (status a, ar_reason a, ar_session_id a, ar_reconnect_token a, ar_granted_permissions a))
            (fun '(s, r, i, t, g) =>
               {| status := s; ar_reason := r; ar_session_id := i; ar_reconnect_token := t;
                  ar_granted_permissions := g |}) _).
  by intros [].
Defined.
#[export] Instance ReauthenticateReason_eq_dec : EqDecision ReauthenticateReason.
Proof. solve_decision. Defined.
#[export] Instance ReauthenticateReason_countable : Countable ReauthenticateReason.
Proof.
  refine (inj_countable' (fun r => match r with ReauthReconnect => true | PermissionRefresh => false end)
            (fun b : bool => if b then ReauthReconnect else PermissionRefresh) _).
  by intros [].
Defined.
#[export] Instance SessionReauthenticate_eq_dec : EqDecision SessionReauthenticate.
Proof. solve_decision. Defined.
#[export] Instance SessionReauthenticate_countable : Countable SessionReauthenticate.
Proof.
  refine (inj_countable' (fun r => (reauth_reason r, prior_session_id r, sr_reconnect_token r))
            (fun '(r, i, t) => {| reauth_reason := r; prior_session_id := i; sr_reconnect_token := t |}) _).
  by intros [].
Defined.
#[export] Instance TimeSyncRequest_eq_dec : EqDecision TimeSyncRequest.
Proof. solve_decision. Defined.
#[export] Instance TimeSyncRequest_countable : Countable TimeSyncRequest.
Proof. refine (inj_countable' req_t1 (fun t => {| req_t1 := t |}) _). by intros []. Defined.
#[export] Instance TimeSyncResponse_eq_dec : EqDecision TimeSyncResponse.
Proof. solve_decision. Defined.
#[export] Instance TimeSyncResponse_countable : Countable TimeSyncResponse.
Proof.
  refine (inj_countable' (fun r => (resp_t1 r, resp_t2 r, resp_t3 r))
            (fun '(a, b, c) => {| resp_t1 := a; resp_t2 := b; resp_t3 := c |}) _).
  by intros [].
Defined.
#[export] Instance VideoStreamGeneration_eq_dec : EqDecision VideoStreamGeneration.
Proof. solve_decision. Defined.
#[export] Instance VideoStreamGeneration_countable : Countable VideoStreamGeneration.
Proof.
  refine (inj_countable' (fun g => (vsg_generation g, vsg_config_id g))
            (fun '(g, c) => {| vsg_generation := g; vsg_config_id := c |}) _).
  by intros [].
Defined.
#[export] Instance Codec_eq_dec : EqDecision Codec.
Proof. solve_decision. Defined.
#[export] Instance ChromaFormat_eq_dec : EqDecision ChromaFormat.
Proof. solve_decision. Defined.
#[export] Instance ChromaFormat_countable : Countable ChromaFormat.
Proof.
  refine (inj_countable (fun s => match s with C420 => 0 | C422 => 1 | C444 => 2 end)
            (fun z => match z with 0 => Some C420 | 1 => Some C422 | 2 => Some C444 | _ => None end) _).
  by intros [].
Defined.
#[export] Instance EncoderConfig_eq_dec : EqDecision EncoderConfig.
Proof. solve_decision. Defined.
#[export] Instance EncoderConfig_countable : Countable EncoderConfig.
Proof.
  refine (inj_countable'
            (fun c => (profile c, chroma_format c, bit_depth c, ec_width c, ec_height c, max_fps c, tier c,
                       b_frames c, server_cursor_excludable c))
            (fun '(p, f, d, w, h, m, t, b, e) =>
               {| ec_codec := H264; profile := p; chroma_format := f; bit_depth := d; ec_width := w;
                  ec_height := h; max_fps := m; tier := t; b_frames := b; server_cursor_excludable := e |}) _).
  by intros [[] ? ? ? ? ? ? ? ? ?].
Defined.
#[export] Instance VideoFrameHeader_eq_dec : EqDecision VideoFrameHeader.
Proof. solve_decision. Defined.
#[export] Instance VideoFrameHeader_countable : Countable VideoFrameHeader.
Proof.
  refine (inj_countable'
            (fun h => (vfh_generation h, frame_id h, vfh_config_id h, flags h, capture_ts h, encode_done_ts h,
                       vfh_width h, vfh_height h, payload_len h))
            (fun '(g, f, c, l, t, e, w, h, p) =>
               {| vfh_generation := g; frame_id := f; vfh_config_id := c; flags := l; capture_ts := t;
                  encode_done_ts := e; vfh_width := w; vfh_height := h; payload_len := p |}) _).
  by intros [].
Defined.
#[export] Instance TransportFeedback_eq_dec : EqDecision TransportFeedback.
Proof. solve_decision. Defined.
#[export] Instance TransportFeedback_countable : Countable TransportFeedback.
Proof.
  refine (inj_countable' (fun m => (last_received_frame_id m, last_decoded_frame_id m, tf_last_displayed_frame_id m, frames_received m, frames_dropped m, receive_bitrate_bps m, decode_delay_us m, display_delay_us m, target_latency_us m, client_queue_delay_us m))
            (fun '(x0, x1, x2, x3, x4, x5, x6, x7, x8, x9) => {| last_received_frame_id := x0; last_decoded_frame_id := x1; tf_last_displayed_frame_id := x2; frames_received := x3; frames_dropped := x4; receive_bitrate_bps := x5; decode_delay_us := x6; display_delay_us := x7; target_latency_us := x8; client_queue_delay_us := x9 |}) _).
  by intros [].
Defined.
#[export] Instance AudioSyncFeedback_eq_dec : EqDecision AudioSyncFeedback.
Proof. solve_decision. Defined.
#[export] Instance AudioSyncFeedback_countable : Countable AudioSyncFeedback.
Proof.
  refine (inj_countable' (fun m => (audio_played_ts m, video_displayed_ts m, drift_ppm m))
            (fun '(x0, x1, x2) => {| audio_played_ts := x0; video_displayed_ts := x1; drift_ppm := x2 |}) _).
  by intros [].
Defined.
#[export] Instance KeyframeReason_eq_dec : EqDecision KeyframeReason.
Proof. solve_decision. Defined.
#[export] Instance KeyframeReason_countable : Countable KeyframeReason.
Proof.
  refine (inj_countable (fun r => match r with DecodeFailed => 0 | ReasonReconnect => 1 | Manual => 2 end)
            (fun z => match z with 0 => Some DecodeFailed | 1 => Some ReasonReconnect | 2 => Some Manual
                      | _ => None end) _).
  by intros [].
Defined.
#[export] Instance KeyframeRequest_eq_dec : EqDecision KeyframeRequest.
Proof. solve_decision. Defined.
#[export] Instance KeyframeRequest_countable : Countable KeyframeRequest.
Proof. refine (inj_countable' kr_reason (fun r => {| kr_reason := r |}) _). by intros []. Defined.
#[export] Instance AudioCodec_eq_dec : EqDecision AudioCodec.
Proof. solve_decision. Defined.
#[export] Instance AudioConfig_eq_dec : EqDecision AudioConfig.
Proof. solve_decision. Defined.
#[export] Instance AudioConfig_countable : Countable AudioConfig.
Proof.
  refine (inj_countable' (fun m => (sample_rate m, channels m, frame_duration_ms m))
            (fun '(r, c, d) => {| ac_codec := Opus; sample_rate := r; channels := c; frame_duration_ms := d |}) _).
  by intros [[] ? ? ?].
Defined.
#[export] Instance AudioFrameHeader_eq_dec : EqDecision AudioFrameHeader.
Proof. solve_decision. Defined.
#[export] Instance AudioFrameHeader_countable : Countable AudioFrameHeader.
Proof.
  refine (inj_countable' (fun m => (sequence m, afh_capture_ts m, duration_us m, afh_payload_len m))
            (fun '(x0, x1, x2, x3) => {| sequence := x0; afh_capture_ts := x1; duration_us := x2; afh_payload_len := x3 |}) _).
  by intros [].
Defined.
#[export] Instance InputHeader_eq_dec : EqDecision InputHeader.
Proof. solve_decision. Defined.
#[export] Instance InputHeader_countable : Countable InputHeader.
Proof.
  refine (inj_countable' (fun m => (event_id m, client_ts m))
            (fun '(x0, x1) => {| event_id := x0; client_ts := x1 |}) _).
  by intros [].
Defined.
#[export] Instance KeyEvent_eq_dec : EqDecision KeyEvent.
Proof. solve_decision. Defined.
#[export] Instance KeyEvent_countable : Countable KeyEvent.
Proof.
  refine (inj_countable' (fun m => (ke_header m, ke_down m, scancode m, logical_key m, modifiers m))
            (fun '(x0, x1, x2, x3, x4) => {| ke_header := x0; ke_down := x1; scancode := x2; logical_key := x3; modifiers := x4 |}) _).
  by intros [].
Defined.
#[export] Instance TextInput_eq_dec : EqDecision TextInput.
Proof. solve_decision. Defined.
#[export] Instance TextInput_countable : Countable TextInput.
Proof.
  refine (inj_countable' (fun m => (ti_header m, ti_text m))
            (fun '(x0, x1) => {| ti_header := x0; ti_text := x1 |}) _).
  by intros [].
Defined.
#[export] Instance ImeComposition_eq_dec : EqDecision ImeComposition.
Proof. solve_decision. Defined.
#[export] Instance ImeComposition_countable : Countable ImeComposition.
Proof.
  refine (inj_countable' (fun m => (ic_header m, ic_text m, caret m))
            (fun '(x0, x1, x2) => {| ic_header := x0; ic_text := x1; caret := x2 |}) _).
  by intros [].
Defined.
#[export] Instance MouseMove_eq_dec : EqDecision MouseMove.
Proof. solve_decision. Defined.
#[export] Instance MouseMove_countable : Countable MouseMove.
Proof.
  refine (inj_countable' (fun m => (mm_header m, mm_x m, mm_y m))
            (fun '(x0, x1, x2) => {| mm_header := x0; mm_x := x1; mm_y := x2 |}) _).
  by intros [].
Defined.
#[export] Instance MouseButton_eq_dec : EqDecision MouseButton.
Proof. solve_decision. Defined.
#[export] Instance MouseButton_countable : Countable MouseButton.
Proof.
  refine (inj_countable' (fun m => (mb_header m, mb_button m, mb_down m, mb_x m, mb_y m))
            (fun '(x0, x1, x2, x3, x4) => {| mb_header := x0; mb_button := x1; mb_down := x2; mb_x := x3; mb_y := x4 |}) _).
  by intros [].
Defined.
#[export] Instance Wheel_eq_dec : EqDecision Wheel.
Proof. solve_decision. Defined.
#[export] Instance Wheel_countable : Countable Wheel.
Proof.
  refine (inj_countable' (fun m => (wh_header m, dx m, dy m, is_precise m))
            (fun '(x0, x1, x2, x3) => {| wh_header := x0; dx := x1; dy := x2; is_precise := x3 |}) _).
  by intros [].
Defined.
#[export] Instance ImeMode_countable : Countable ImeMode.
Proof.
  refine (inj_countable' (fun m => match m with ClientSide => true | RemoteSide => false end)
            (fun b : bool => if b then ClientSide else RemoteSide) _).
  by intros [].
Defined.
#[export] Instance ImeModeChange_eq_dec : EqDecision ImeModeChange.
Proof. solve_decision. Defined.
#[export] Instance ImeModeChange_countable : Countable ImeModeChange.
Proof.
  refine (inj_countable' (fun m => (mode m, effective_after_event_id m))
            (fun '(x0, x1) => {| mode := x0; effective_after_event_id := x1 |}) _).
  by intros [].
Defined.
#[export] Instance FormatNamespace_eq_dec : EqDecision FormatNamespace.
Proof. solve_decision. Defined.
#[export] Instance FormatNamespace_countable : Countable FormatNamespace.
Proof.
  refine (inj_countable (fun n => match n with Mime => 0 | Win32 => 1 | MacosUti => 2 end)
            (fun z => match z with 0 => Some Mime | 1 => Some Win32 | 2 => Some MacosUti | _ => None end) _).
  by intros [].
Defined.
#[export] Instance ClipboardFormatEntry_eq_dec : EqDecision ClipboardFormatEntry.
Proof. solve_decision. Defined.
#[export] Instance ClipboardFormatEntry_countable : Countable ClipboardFormatEntry.
Proof.
  refine (inj_countable' (fun m => (entry_namespace m, entry_format_id m))
            (fun '(x0, x1) => {| entry_namespace := x0; entry_format_id := x1 |}) _).
  by intros [].
Defined.
#[export] Instance ClipboardFormats_eq_dec : EqDecision ClipboardFormats.
Proof. solve_decision. Defined.
#[export] Instance ClipboardFormats_countable : Countable ClipboardFormats.
Proof.
  refine (inj_countable' (fun m => (cf_request_id m, formats m))
            (fun '(x0, x1) => {| cf_request_id := x0; formats := x1 |}) _).
  by intros [].
Defined.
#[export] Instance ClipboardRequest_eq_dec : EqDecision ClipboardRequest.
Proof. solve_decision. Defined.
#[export] Instance ClipboardRequest_countable : Countable ClipboardRequest.
Proof.
  refine (inj_countable' (fun m => (cr_request_id m, cr_namespace m, cr_format_id m))
            (fun '(x0, x1, x2) => {| cr_request_id := x0; cr_namespace := x1; cr_format_id := x2 |}) _).
  by intros [].
Defined.
#[export] Instance ClipboardData_eq_dec : EqDecision ClipboardData.
Proof. solve_decision. Defined.
#[export] Instance ClipboardData_countable : Countable ClipboardData.
Proof.
  refine (inj_countable' (fun m => (cd_request_id m, cd_namespace m, cd_format_id m, cd_data m))
            (fun '(x0, x1, x2, x3) => {| cd_request_id := x0; cd_namespace := x1; cd_format_id := x2; cd_data := x3 |}) _).
  by intros [].
Defined.
#[export] Instance ClipboardError_eq_dec : EqDecision ClipboardError.
Proof. solve_decision. Defined.
#[export] Instance ClipboardError_countable : Countable ClipboardError.
Proof.
  refine (inj_countable' (fun m => (ce_request_id m, ce_reason m))
            (fun '(x0, x1) => {| ce_request_id := x0; ce_reason := x1 |}) _).
  by intros [].
Defined.
#[export] Instance KeepAlive_eq_dec : EqDecision KeepAlive.
Proof. solve_decision. Defined.
#[export] Instance KeepAlive_countable : Countable KeepAlive.
Proof. refine (inj_countable' (fun _ => tt) (fun _ => mkKeepAlive) _). by intros []. Defined.
#[export] Instance SessionClose_eq_dec : EqDecision SessionClose.
Proof. solve_decision. Defined.
#[export] Instance SessionClose_countable : Countable SessionClose.
Proof. refine (inj_countable' close_reason (fun r => {| close_reason := r |}) _). by intros []. Defined.
#[export] Instance PermissionUpdate_eq_dec : EqDecision PermissionUpdate.
Proof. solve_decision. Defined.
#[export] Instance PermissionUpdate_countable : Countable PermissionUpdate.
Proof.
  refine (inj_countable' (fun u => (granted_permissions u, immediate_revoke u))
            (fun '(g, i) => {| granted_permissions := g; immediate_revoke := i |}) _).
  by intros [].
Defined.
#[export] Instance FileTransferDirection_countable : Countable FileTransferDirection.
Proof.
  refine (inj_countable' (fun d => match d with Upload => true | Download => false end)
            (fun b : bool => if b then Upload else Download) _).
  by intros [].
Defined.
#[export] Instance FileTransferRequest_eq_dec : EqDecision FileTransferRequest.
Proof. solve_decision. Defined.
#[export] Instance FileTransferRequest_countable : Countable FileTransferRequest.
Proof.
  refine (inj_countable' (fun r => (ftr_request_id r, ftr_direction r, virtual_path r, declared_size r))
            (fun '(i, d, p, s) =>
               {| ftr_request_id := i; ftr_direction := d; virtual_path := p; declared_size := s |}) _).
  by intros [].
Defined.
#[export] Instance FileTransferAccept_eq_dec : EqDecision FileTransferAccept.
Proof. solve_decision. Defined.
#[export] Instance FileTransferAccept_countable : Countable FileTransferAccept.
Proof.
  refine (inj_countable' (fun r => (fta_request_id r, fta_file_handle r, fta_resolved_size r, fta_expiry_ts r))
            (fun '(i, h, s, e) =>
               {| fta_request_id := i; fta_file_handle := h; fta_resolved_size := s; fta_expiry_ts := e |}) _).
  by intros [].
Defined.
#[export] Instance FileTransferReject_eq_dec : EqDecision FileTransferReject.
Proof. solve_decision. Defined.
#[export] Instance FileTransferReject_countable : Countable FileTransferReject.
Proof.
  refine (inj_countable' (fun r => (ftj_request_id r, ftj_reason r))
            (fun '(i, r) => {| ftj_request_id := i; ftj_reason := r |}) _).
  by intros [].
Defined.
#[export] Instance FileTransferError_eq_dec : EqDecision FileTransferError.
Proof. solve_decision. Defined.
#[export] Instance FileTransferError_countable : Countable FileTransferError.
Proof.
  refine (inj_countable' (fun e => (fte_file_handle e, fte_reason e))
            (fun '(h, r) => {| fte_file_handle := h; fte_reason := r |}) _).
  by intros [].
Defined.
