(* ===== verification/Crypto.v ===== *)
(** The cryptography the program calls: interfaces only.

    [sha2], [ed25519_dalek] and the TLS exporter behind
    [quinn::Connection::export_keying_material] are not modelled.  Each is a
    class whose operations are parameters of the definitions that use it; the
    [*Laws] classes state the documented behaviour the theorems rely on. *)

From S2P Require Import Prelude.

(** [sha2]'s SHA-256. *)
Class Sha256 := sha256 : list Z -> list Z.

(** A digest has 32 bytes. *)
Class Sha256Laws `{Sha256} : Prop := sha256_length : forall m, length (sha256 m) = 32%nat.

(** [ed25519_dalek]: keys, [Signer::sign] and [Verifier::verify]. *)
Class Ed25519 := {
  SigningKey : Type;
  VerifyingKey : Type;
  signing_key_from_bytes : list Z -> SigningKey;
  verifying_key : SigningKey -> VerifyingKey;
  as_bytes : VerifyingKey -> list Z;
  verifying_key_from_bytes : list Z -> option VerifyingKey;
  sign : SigningKey -> list Z -> list Z;
  verify : VerifyingKey -> list Z -> list Z -> bool;
}.

(** The sizes of keys and signatures, and that a genuine signature verifies. *)
Class Ed25519Laws `{Ed25519} : Prop := {
  as_bytes_length : forall k, length (as_bytes k) = 32%nat;
  from_as_bytes : forall k, verifying_key_from_bytes (as_bytes k) = Some k;
  sign_length : forall k m, length (sign k m) = 64%nat;
  verify_sign : forall k m, verify (verifying_key k) m (sign k m) = true;
}.

(** [Connection::export_keying_material(_, label, context)] at 32 bytes.  One
    function serves both ends of a connection: the value depends on the shared
    session secrets, the label and the context only (RFC 5705). *)
Class TlsExporter := export_keying_material : list Z -> list Z -> option (list Z).

(** * Instances for concrete runs *)

Definition toy_sha256 : Sha256 := fun m => replicate 31 0 ++ [fold_right Z.add 0 m].

Lemma toy_sha256_laws : @Sha256Laws toy_sha256.
Proof. intros m. done. Qed.

(** A scheme whose key is its own public key and whose signature is the key
    followed by a checksum of the message. *)
Definition toy_ed25519 : Ed25519 :=
  {| SigningKey := Z; VerifyingKey := Z;
     signing_key_from_bytes := fun bs => le_val bs `mod` 256;
     verifying_key := fun k => k;
     as_bytes := fun k => k :: replicate 31 0;
     verifying_key_from_bytes := fun bs => head bs;
     sign := fun k m => k :: fold_right Z.add 0 m :: replicate 62 0;
     verify := fun k m s => bool_decide (s = k :: fold_right Z.add 0 m :: replicate 62 0) |}.

Lemma toy_ed25519_laws : @Ed25519Laws toy_ed25519.
Proof. split; try done. intros k m. by apply bool_decide_eq_true. Qed.

Definition toy_exporter : TlsExporter := fun label context => Some (take 32 (reverse context)).
