(* ===== verification/PermissionSet.v ===== *)
(** Permission bits: the model of [src/src/permission_set.rs]. *)

From S2P Require Import Prelude.

Module bit.
Definition VIEW : Z := Z.shiftl 1 0.
Definition INPUT_KEYBOARD : Z := Z.shiftl 1 1.
Definition INPUT_MOUSE : Z := Z.shiftl 1 2.
Definition CLIP_READ : Z := Z.shiftl 1 3.
Definition CLIP_WRITE : Z := Z.shiftl 1 4.
Definition FILE_UP : Z := Z.shiftl 1 5.
Definition FILE_DOWN : Z := Z.shiftl 1 6.
Definition AUDIO_PLAYBACK : Z := Z.shiftl 1 7.
Definition AUDIO_CAPTURE : Z := Z.shiftl 1 8.
Definition ADMIN : Z := Z.shiftl 1 9.
End bit.
