(* ===== verification/PermissionSm.v ===== *)
(** The permission state machine: the model of [src/src/permission_sm.rs]. *)

From S2P Require Import Prelude.
From S2P Require Import ReasonCode.
From S2P Require Import PermissionSet.
From S2P Require Import Messages.

(** * Definitions *)

Definition ALL_BITS : list Z :=
  [bit.VIEW; bit.INPUT_KEYBOARD; bit.INPUT_MOUSE; bit.CLIP_READ; bit.CLIP_WRITE;
   bit.FILE_UP; bit.FILE_DOWN; bit.AUDIO_PLAYBACK; bit.AUDIO_CAPTURE; bit.ADMIN].

Inductive BitState := NotGranted | Granted | Draining.

#[export] Instance BitState_eq_dec : EqDecision BitState.
Proof. solve_decision. Defined.

Record PermissionSm := { states : gmap Z BitState }.

(** [mask & bit != 0]. *)
Definition has_bit (mask b : Z) : bool := negb (Z.land mask b =? 0).

Definition new (granted_permissions : Z) : PermissionSm :=
  {| states := list_to_map
       (map (fun b => (b, if has_bit granted_permissions b then Granted else NotGranted))
          ALL_BITS) |}.

Definition state (sm : PermissionSm) (b : Z) : BitState :=
  default NotGranted (states sm !! b).

Definition is_granted (sm : PermissionSm) (b : Z) : bool :=
  bool_decide (state sm b = Granted).

(** The body of the loop of [apply_update]. *)
Definition apply_bit (update : PermissionUpdate) (sm : PermissionSm) (b : Z) : PermissionSm :=
  let now_granted := has_bit (granted_permissions update) b in
  let immediately_revoked := has_bit (immediate_revoke update) b in
  let new_state :=
    if now_granted then Granted
    else if bool_decide (state sm b = Granted) then
      if immediately_revoked then NotGranted else Draining
    else state sm b in
  {| states := <[b := new_state]> (states sm) |}.

Definition apply_update (update : PermissionUpdate) (sm : PermissionSm) : PermissionSm :=
  fold_left (apply_bit update) ALL_BITS sm.

Definition finish_draining (b : Z) (sm : PermissionSm) : PermissionSm :=
  if bool_decide (state sm b = Draining) then {| states := <[b := NotGranted]> (states sm) |}
  else sm.

Definition check_gate (sm : PermissionSm) (b : Z) : result ReasonCode unit :=
  if is_granted sm b then Ok tt
  else Err (if bool_decide (state sm b = Draining) then POLICY_PERMISSION_REVOKED
            else POLICY_PERMISSION_DENIED).

(** [current_granted & !bit]: [!] is the complement at 32 bits. *)
Definition build_permission_toggle (current_granted b : Z) (grant : bool) : PermissionUpdate :=
  let other_bits := Z.land current_granted (2 ^ 32 - 1 - b) in
  let this_bit := if grant then b else 0 in
  {| granted_permissions := Z.lor this_bit other_bits;
     immediate_revoke := if grant then 0 else b |}.

Inductive AdminCommand :=
| TogglePermission (b : Z) (grant : bool)
| SendClipboard.

Definition parse_admin_command (line : list Z) : option AdminCommand :=
  let toggle b grant := Some (TogglePermission b grant) in
  let line := trim line in
  if bool_decide (line = chars "grant-view") then toggle bit.VIEW true
  else if bool_decide (line = chars "revoke-view") then toggle bit.VIEW false
  else if bool_decide (line = chars "grant-keyboard") then toggle bit.INPUT_KEYBOARD true
  else if bool_decide (line = chars "revoke-keyboard") then toggle bit.INPUT_KEYBOARD false
  else if bool_decide (line = chars "grant-mouse") then toggle bit.INPUT_MOUSE true
  else if bool_decide (line = chars "revoke-mouse") then toggle bit.INPUT_MOUSE false
  else if bool_decide (line = chars "grant-clip-read") then toggle bit.CLIP_READ true
  else if bool_decide (line = chars "revoke-clip-read") then toggle bit.CLIP_READ false
  else if bool_decide (line = chars "grant-clip-write") then toggle bit.CLIP_WRITE true
  else if bool_decide (line = chars "revoke-clip-write") then toggle bit.CLIP_WRITE false
  else if bool_decide (line = chars "grant-audio-playback") then toggle bit.AUDIO_PLAYBACK true
  else if bool_decide (line = chars "revoke-audio-playback") then toggle bit.AUDIO_PLAYBACK false
  else if bool_decide (line = chars "grant-audio-capture") then toggle bit.AUDIO_CAPTURE true
  else if bool_decide (line = chars "revoke-audio-capture") then toggle bit.AUDIO_CAPTURE false
  else if bool_decide (line = chars "send-clipboard") then Some SendClipboard
  else None.

(** ** Runs *)

(** The two mutating operations, as a server interleaves them. *)
Inductive op :=
| Update (u : PermissionUpdate)
| Finish (b : Z).

Definition run_op (sm : PermissionSm) (o : op) : PermissionSm :=
  match o with Update u => apply_update u sm | Finish b => finish_draining b sm end.

Definition run (sm : PermissionSm) (ops : list op) : PermissionSm := fold_left run_op ops sm.

(** The mask that is in force: the last one sent, initially the one of
    [AuthResult]. *)
Definition effective_mask (granted : Z) (ops : list op) : Z :=
  fold_left (fun m o => match o with Update u => granted_permissions u | Finish _ => m end) ops granted.

(** * Lemmas *)

Lemma ALL_BITS_NoDup : NoDup ALL_BITS.
Proof. apply (bool_decide_unpack _). by vm_compute. Qed.

(** Each listed bit is a power of two, so a mask test is a [testbit]. *)
Lemma ALL_BITS_pow b : b ∈ ALL_BITS -> exists i, b = 2 ^ i /\ 0 <= i < 10.
Proof.
  unfold ALL_BITS. rewrite !elem_of_cons, elem_of_nil.
  intros H. repeat destruct H as [-> | H]; [..|done];
    [exists 0|exists 1|exists 2|exists 3|exists 4|exists 5|exists 6|exists 7|exists 8|exists 9];
    by vm_compute.
Qed.

Lemma has_bit_testbit mask i : 0 <= i -> has_bit mask (2 ^ i) = Z.testbit mask i.
Proof.
  intros Hi. unfold has_bit.
  assert (Z.land mask (2 ^ i) = Z.shiftl (Z.b2z (Z.testbit mask i)) i) as ->.
  { apply Z.bits_inj'. intros n Hn. rewrite Z.land_spec, Z.shiftl_spec by done.
    destruct (decide (n = i)) as [-> |Hne].
    - rewrite Z.pow2_bits_true, Z.sub_diag, andb_true_r by done. by destruct (Z.testbit mask i).
    - rewrite Z.pow2_bits_false, andb_false_r by done.
      destruct (Z.lt_ge_cases n i); [by rewrite Z.testbit_neg_r by lia|].
      destruct (Z.testbit mask i); [|by rewrite Z.testbit_0_l].
      change (Z.b2z true) with (2 ^ 0). rewrite Z.pow2_bits_false by lia. done. }
  rewrite Z.shiftl_mul_pow2 by done. pose proof (Z.pow_pos_nonneg 2 i ltac:(lia) Hi).
  destruct (Z.testbit mask i); cbn [Z.b2z negb]; zcases; cbn; lia.
Qed.

Lemma state_new g b :
  state (new g) b = if decide (b ∈ ALL_BITS) then (if has_bit g b then Granted else NotGranted)
                    else NotGranted.
Proof.
  unfold state, new. cbn [states]. case_decide as Hb.
  - erewrite elem_of_list_to_map_1'; [done| |].
    + intros y Hy. apply list_elem_of_fmap in Hy as (b' & [= <- ->] & _). done.
    + apply list_elem_of_fmap. eauto.
  - rewrite not_elem_of_list_to_map_1; [done|].
    intros Hin. apply Hb. apply list_elem_of_fmap in Hin as ([b' s] & -> & Hin).
    apply list_elem_of_fmap in Hin as (b'' & [= <- ->] & Hin). done.
Qed.

(** One update seen from one bit. *)
Definition next_state (u : PermissionUpdate) (b : Z) (s : BitState) : BitState :=
  if has_bit (granted_permissions u) b then Granted
  else if bool_decide (s = Granted) then
    (if has_bit (immediate_revoke u) b then NotGranted else Draining)
  else s.

Lemma state_apply_bits u bs sm b :
  NoDup bs ->
  state (fold_left (apply_bit u) bs sm) b
  = if decide (b ∈ bs) then next_state u b (state sm b) else state sm b.
Proof.
  intros Hnd. revert sm. induction Hnd as [|b' bs Hni _ IH]; intros sm; cbn [fold_left].
  { by rewrite decide_False by set_solver. }
  rewrite IH. destruct (decide (b = b')) as [-> |Hne].
  - rewrite decide_False, decide_True by set_solver.
    unfold state at 1, apply_bit. cbn [states]. by rewrite lookup_insert_eq.
  - assert (state (apply_bit u sm b') b = state sm b) as ->.
    { unfold state at 1, apply_bit. cbn [states]. by rewrite lookup_insert_ne by done. }
    repeat case_decide; set_solver.
Qed.

Lemma state_apply_update u sm b :
  state (apply_update u sm) b
  = if decide (b ∈ ALL_BITS) then next_state u b (state sm b) else state sm b.
Proof. apply state_apply_bits, ALL_BITS_NoDup. Qed.

Lemma state_finish b' sm b :
  state (finish_draining b' sm) b
  = if decide (b = b' /\ state sm b = Draining) then NotGranted else state sm b.
Proof.
  unfold finish_draining. case_bool_decide as Hd.
  - unfold state at 1. cbn [states]. destruct (decide (b = b')) as [-> |Hne].
    + rewrite lookup_insert_eq, decide_True by done. done.
    + rewrite lookup_insert_ne by done. rewrite decide_False by naive_solver. done.
  - rewrite decide_False; [done|]. intros [-> ?]. done.
Qed.

(** The mask a toggle sends, bit by bit. *)
Lemma toggle_mask current b b' grant :
  b ∈ ALL_BITS -> b' ∈ ALL_BITS ->
  has_bit (granted_permissions (build_permission_toggle current b grant)) b'
  = if decide (b' = b) then grant else has_bit current b'.
Proof.
  intros Hb Hb'. destruct (ALL_BITS_pow b Hb) as (i & -> & Hi).
  destruct (ALL_BITS_pow b' Hb') as (j & -> & Hj). rewrite !has_bit_testbit by lia.
  unfold build_permission_toggle. cbn [granted_permissions].
  rewrite Z.lor_spec, Z.land_spec.
  replace (2 ^ 32 - 1 - 2 ^ i) with (Z.land (Z.ones 32) (Z.lnot (2 ^ i))).
  2: { rewrite Z.land_comm, Z.land_ones by lia. change (Z.lnot (2 ^ i)) with (Z.pred (- 2 ^ i)).
       assert (0 < 2 ^ i) by (apply Z.pow_pos_nonneg; lia).
       assert (2 ^ i <= 2 ^ 9) by (apply Z.pow_le_mono_r; lia).
       change (2 ^ 32) with 4294967296. change (2 ^ 9) with 512 in *. lia. }
  rewrite Z.land_spec, Z.testbit_ones_nonneg, Z.lnot_spec by lia.
  rewrite (proj2 (Z.ltb_lt j 32)) by lia.
  assert (forall i j, 0 <= i -> 0 <= j -> (2 ^ j = 2 ^ i <-> j = i)) as Hinj.
  { intros x y Hx Hy. split; [|by intros ->]. intros He.
    apply (Z.pow_inj_r 2); lia. }
  case_decide as Hij.
  - apply Hinj in Hij as ->; [|lia..]. rewrite Z.pow2_bits_true by lia.
    rewrite !andb_false_r, orb_false_r.
    destruct grant; [by rewrite Z.pow2_bits_true by lia|by rewrite Z.bits_0].
  - rewrite Hinj in Hij by lia. rewrite Z.pow2_bits_false by lia.
    destruct grant; [rewrite Z.pow2_bits_false by lia|rewrite Z.bits_0];
      by rewrite andb_true_r.
Qed.

(** * Properties *)

(** One [PermissionUpdate], on every branch.  A tracked bit that the update
    grants is [Granted]; one it drops goes from [Granted] to [NotGranted] when
    revoked immediately and to [Draining] otherwise; a bit that was not
    [Granted] keeps its state, so a drain in progress is not cut short and a
    revoke never grants; bits outside the table never change.  Finishing a
    drain moves exactly that bit, from [Draining] only. *)
Theorem update_effect u sm b :
  (b ∈ ALL_BITS ->
     state (apply_update u sm) b =
       if has_bit (granted_permissions u) b then Granted
       else match state sm b with
            | Granted => if has_bit (immediate_revoke u) b then NotGranted else Draining
            | NotGranted => NotGranted
            | Draining => Draining
            end) /\
  (b ∉ ALL_BITS -> state (apply_update u sm) b = state sm b) /\
  state (finish_draining b sm) b
    = match state sm b with Draining => NotGranted | s => s end /\
  (forall b', b' ≠ b -> state (finish_draining b sm) b' = state sm b').
Proof.
  split; [|split; [|split]].
  - intros Hb. rewrite state_apply_update, decide_True by done. unfold next_state.
    destruct (has_bit _ b); [done|]. by destruct (state sm b).
  - intros Hb. by rewrite state_apply_update, decide_False.
  - rewrite state_finish. case_decide; destruct (state sm b); naive_solver.
  - intros b' Hne. rewrite state_finish, decide_False by naive_solver. done.
Qed.

Lemma update_effect_witness :
  bit.VIEW ∈ ALL_BITS /\
  state (apply_update {| granted_permissions := 0; immediate_revoke := 0 |} (new 1)) bit.VIEW
  = Draining.
Proof.
  assert (bit.VIEW ∈ ALL_BITS) as Hin by (apply (bool_decide_unpack _); by vm_compute).
  split; [exact Hin|].
  exact (proj1 (update_effect {| granted_permissions := 0; immediate_revoke := 0 |} (new 1) bit.VIEW) Hin).
Defined.

(** After any interleaving of updates and finished drains, a bit passes the
    gate exactly when the mask in force (the last update's, or the initial
    one) contains it; a refusal says [REVOKED] exactly while the bit is
    draining and [DENIED] otherwise. *)
Theorem gate_follows_mask g ops b :
  b ∈ ALL_BITS ->
  (check_gate (run (new g) ops) b = Ok tt <-> has_bit (effective_mask g ops) b = true) /\
  (check_gate (run (new g) ops) b = Err POLICY_PERMISSION_REVOKED <->
     state (run (new g) ops) b = Draining).
Proof.
  intros Hb.
  assert (state (run (new g) ops) b = Granted <-> has_bit (effective_mask g ops) b = true) as HG.
  { induction ops as [|o ops IH] using rev_ind.
    - cbn. rewrite state_new, decide_True by done. by destruct (has_bit g b).
    - unfold run, effective_mask in *. rewrite !fold_left_app. cbn [fold_left].
      destruct o as [u|b']; cbn [run_op].
      + rewrite state_apply_update, decide_True by done. unfold next_state.
        destruct (has_bit (granted_permissions u) b); [done|].
        case_bool_decide as Hs; [by destruct (has_bit (immediate_revoke u) b)|]. naive_solver.
      + rewrite state_finish. case_decide as Hd; [|done].
        destruct Hd as [_ Hd]. rewrite Hd in IH. naive_solver. }
  unfold check_gate, is_granted. rewrite <- HG.
  destruct (state (run (new g) ops) b); cbn; split; split; intros Hx;
    first [done | congruence | vm_compute in Hx; congruence].
Qed.

Lemma gate_follows_mask_witness :
  bit.VIEW ∈ ALL_BITS /\
  let ops := [Update {| granted_permissions := 2; immediate_revoke := 0 |}] in
  (check_gate (run (new 1) ops) bit.VIEW = Ok tt <-> has_bit (effective_mask 1 ops) bit.VIEW = true) /\
  (check_gate (run (new 1) ops) bit.VIEW = Err POLICY_PERMISSION_REVOKED <->
     state (run (new 1) ops) bit.VIEW = Draining).
Proof.
  assert (bit.VIEW ∈ ALL_BITS) as Hin by (apply (bool_decide_unpack _); by vm_compute).
  split; [exact Hin|]. intros ops. exact (gate_follows_mask 1 ops bit.VIEW Hin).
Defined.

(** An admin toggle of one bit, built from the mask in force and applied,
    takes effect at once and touches nothing else: the bit becomes [Granted]
    or, if it was granted, [NotGranted] (never [Draining]), every other tracked
    bit that is granted stays granted and none is newly granted, and the new
    mask is the old one with that bit set or cleared. *)
Theorem toggle_only_its_bit sm current b grant :
  b ∈ ALL_BITS ->
  (forall b', b' ∈ ALL_BITS -> state sm b' = Granted <-> has_bit current b' = true) ->
  let u := build_permission_toggle current b grant in
  let sm' := apply_update u sm in
  state sm' b = (if grant then Granted
                 else match state sm b with Granted => NotGranted | s => s end) /\
  (forall b', b' ∈ ALL_BITS -> b' ≠ b ->
     state sm' b' = state sm b' /\
     has_bit (granted_permissions u) b' = has_bit current b') /\
  has_bit (granted_permissions u) b = grant.
Proof.
  intros Hb Hsync u sm'.
  pose proof (fun b' => toggle_mask current b b' grant Hb) as Hu. fold u in Hu.
  subst sm'. split; [|split].
  - rewrite state_apply_update, decide_True by done. unfold next_state.
    rewrite Hu, decide_True by done. destruct grant; [done|].
    assert (has_bit (immediate_revoke u) b = true) as ->.
    { subst u. cbn. destruct (ALL_BITS_pow b Hb) as (i & -> & Hi).
      rewrite has_bit_testbit by lia. apply Z.pow2_bits_true; lia. }
    by destruct (state sm b).
  - intros b' Hb' Hne. split.
    + rewrite state_apply_update, decide_True by done. unfold next_state.
      rewrite Hu, decide_False by done. specialize (Hsync b' Hb').
      destruct (has_bit current b'); [symmetry; by apply Hsync|].
      rewrite bool_decide_false; [done|]. intros Hg. by apply Hsync in Hg.
    + by rewrite Hu, decide_False.
  - by rewrite Hu, decide_True.
Qed.

Lemma toggle_only_its_bit_witness :
  bit.VIEW ∈ ALL_BITS /\
  let u := build_permission_toggle 5 bit.VIEW false in
  let sm' := apply_update u (new 5) in
  state sm' bit.VIEW = NotGranted /\
  (forall b', b' ∈ ALL_BITS -> b' ≠ bit.VIEW ->
     state sm' b' = state (new 5) b' /\
     has_bit (granted_permissions u) b' = has_bit 5 b') /\
  has_bit (granted_permissions u) bit.VIEW = false.
Proof.
  assert (bit.VIEW ∈ ALL_BITS) as Hin by (apply (bool_decide_unpack _); by vm_compute).
  split; [exact Hin|].
  apply (toggle_only_its_bit (new 5) 5 bit.VIEW false); [exact Hin|].
  intros b' Hb'. rewrite state_new, decide_True by done. by destruct (has_bit 5 b').
Defined.
