(* ===== verification/ConnectionSm.v ===== *)
(** The connection state machine: the model of [src/src/connection_sm.rs]. *)

From S2P Require Import Prelude.
From S2P Require Import ReasonCode.
From S2P Require Import Messages.

(** * Definitions *)

Definition AUTH_ATTEMPT_LIMIT : Z := 3.

(** The [Duration]s of the module [defaults], in microseconds. *)
Module defaults.
Definition HANDSHAKE_TIMEOUT : Z := 10 * 1000000.
Definition AUTH_TIMEOUT : Z := 60 * 1000000.
Definition SESSION_SETUP_TIMEOUT : Z := 15 * 1000000.
Definition IDLE_TIMEOUT : Z := 45 * 1000000.
Definition KEEPALIVE_INTERVAL : Z := 15 * 1000000.
Definition RECONNECT_GRACE_PERIOD : Z := 300 * 1000000.
Definition CLOSING_GRACE_PERIOD : Z := 2 * 1000000.
End defaults.

Inductive ConnectionState :=
| Handshaking
| Authenticating
| Authenticated
| Active
| Suspended
| Closing (reason : ReasonCode).

#[export] Instance ConnectionState_eq_dec : EqDecision ConnectionState.
Proof. solve_decision. Defined.

Record ProtocolViolation := { pv_reason : ReasonCode }.

Record ConnectionSm := {
  state : ConnectionState;
  auth_attempts : Z;
}.

Definition new : ConnectionSm := {| state := Handshaking; auth_attempts := 0 |}.

Definition allowed_in_handshaking (t : Z) : bool :=
  (t =? type_id.CLIENT_HELLO) || (t =? type_id.SERVER_HELLO).

Definition allowed_in_authenticating (t : Z) : bool := t =? type_id.AUTH_PUBKEY.

Definition allowed_in_active (t : Z) : bool :=
  negb ((t =? type_id.CLIENT_HELLO) || (t =? type_id.SERVER_HELLO)).

Definition unexpected : ProtocolViolation := {| pv_reason := PROTOCOL_UNEXPECTED_MESSAGE |}.

Definition check_message (sm : ConnectionSm) (t : Z) : result ProtocolViolation unit :=
  let allowed :=
    match state sm with
    | Handshaking => allowed_in_handshaking t
    | Authenticating => allowed_in_authenticating t
    | Authenticated => true
    | Active => allowed_in_active t
    | Suspended => false
    | Closing _ => false
    end in
  if allowed then Ok tt else Err unexpected.

(** A [&mut self] method returns its result and the machine after it. *)
Definition transition := ConnectionSm -> result ProtocolViolation unit * ConnectionSm.

Definition set_state (s : ConnectionState) (sm : ConnectionSm) : ConnectionSm :=
  {| state := s; auth_attempts := auth_attempts sm |}.

Definition complete_handshake : transition := fun sm =>
  match state sm with
  | Handshaking => (Ok tt, set_state Authenticating sm)
  | _ => (Err unexpected, sm)
  end.

Definition record_auth_failure : transition := fun sm =>
  match state sm with
  | Authenticating =>
      let sm := {| state := state sm; auth_attempts := wrap 8 (auth_attempts sm + 1) |} in
      if AUTH_ATTEMPT_LIMIT <=? auth_attempts sm then
        (Err {| pv_reason := AUTH_TOO_MANY_ATTEMPTS |},
         set_state (Closing AUTH_TOO_MANY_ATTEMPTS) sm)
      else (Err {| pv_reason := AUTH_SIGNATURE_INVALID |}, sm)
  | _ => (Err unexpected, sm)
  end.

Definition complete_authentication : transition := fun sm =>
  match state sm with
  | Authenticating => (Ok tt, set_state Authenticated sm)
  | _ => (Err unexpected, sm)
  end.

Definition on_channel_live : transition := fun sm =>
  match state sm with
  | Authenticated => (Ok tt, set_state Active sm)
  | _ => (Err unexpected, sm)
  end.

Definition suspend : transition := fun sm =>
  match state sm with
  | Active => (Ok tt, set_state Suspended sm)
  | _ => (Err unexpected, sm)
  end.

Definition resume : transition := fun sm =>
  match state sm with
  | Suspended => (Ok tt, set_state Active sm)
  | _ => (Err unexpected, sm)
  end.

(** ** Runs *)

Inductive event :=
| CompleteHandshake
| RecordAuthFailure
| CompleteAuthentication
| OnChannelLive
| Suspend
| Resume.

Definition fire (e : event) : transition :=
  match e with
  | CompleteHandshake => complete_handshake
  | RecordAuthFailure => record_auth_failure
  | CompleteAuthentication => complete_authentication
  | OnChannelLive => on_channel_live
  | Suspend => suspend
  | Resume => resume
  end.

Definition run (sm : ConnectionSm) (evs : list event) : ConnectionSm :=
  fold_left (fun sm e => (fire e sm).2) evs sm.

(** * Lemmas *)

Lemma run_connection_snoc sm evs e : run sm (evs ++ [e]) = (fire e (run sm evs)).2.
Proof. unfold run. by rewrite fold_left_app. Qed.

(** What a state says about the events before it. *)
Definition history (s : ConnectionState) : list event :=
  match s with
  | Handshaking => []
  | Authenticating => [CompleteHandshake]
  | Authenticated => [CompleteHandshake; CompleteAuthentication]
  | Active => [CompleteHandshake; CompleteAuthentication; OnChannelLive]
  | Suspended => [CompleteHandshake; CompleteAuthentication; OnChannelLive; Suspend]
  | Closing _ => [CompleteHandshake; RecordAuthFailure; RecordAuthFailure; RecordAuthFailure]
  end.

(** The failures counted so far are in the history too. *)
Definition failures (sm : ConnectionSm) : list event :=
  match state sm with
  | Authenticating => replicate (Z.to_nat (auth_attempts sm)) RecordAuthFailure
  | _ => []
  end.

Definition invariant (evs : list event) (sm : ConnectionSm) : Prop :=
  0 <= auth_attempts sm <= AUTH_ATTEMPT_LIMIT /\
  (state sm = Handshaking -> auth_attempts sm = 0) /\
  (auth_attempts sm = AUTH_ATTEMPT_LIMIT <-> state sm = Closing AUTH_TOO_MANY_ATTEMPTS) /\
  (forall r, state sm = Closing r -> r = AUTH_TOO_MANY_ATTEMPTS) /\
  sublist (history (state sm) ++ failures sm) evs.

Lemma invariant_new : invariant [] new.
Proof. unfold invariant, failures; cbn. repeat split; try done; lia. Qed.

(** A step that moves to [s'] and leaves the failure count alone. *)
Lemma invariant_keep evs e s s' n :
  invariant evs {| state := s; auth_attempts := n |} ->
  s' ≠ Handshaking ->
  (forall r, s ≠ Closing r) -> (forall r, s' ≠ Closing r) ->
  ((s = Handshaking -> n = 0) ->
   sublist (history s' ++ failures {| state := s'; auth_attempts := n |})
     (history s ++ failures {| state := s; auth_attempts := n |} ++ [e])) ->
  invariant (evs ++ [e]) {| state := s'; auth_attempts := n |}.
Proof.
  intros (Ha & Hh & Hl & Hc & Hs) Hns Hnc Hnc' Hsub. cbn [state auth_attempts] in *.
  assert (n ≠ AUTH_ATTEMPT_LIMIT) as Hn by (intros E; by apply Hl, Hnc in E).
  split; [exact Ha|]. cbn [state auth_attempts]. split; [done|]. split; [|split].
  - split; [done|]. intros E. by destruct (Hnc' _ E).
  - intros r E. by destruct (Hnc' _ E).
  - etransitivity; [exact (Hsub Hh)|]. rewrite app_assoc. by apply sublist_app.
Qed.

Lemma invariant_more evs e sm : invariant evs sm -> invariant (evs ++ [e]) sm.
Proof.
  intros (Ha & Hh & Hl & Hc & Hs). do 4 (split; [done|]).
  etransitivity; [exact Hs|]. by apply sublist_inserts_r.
Qed.

Lemma invariant_failure evs n :
  invariant evs {| state := Authenticating; auth_attempts := n |} ->
  invariant (evs ++ [RecordAuthFailure])
    (record_auth_failure {| state := Authenticating; auth_attempts := n |}).2.
Proof.
  intros (Ha & Hh & Hl & Hc & Hs). cbn [state auth_attempts] in *.
  unfold AUTH_ATTEMPT_LIMIT in Ha.
  assert (n = 0 \/ n = 1 \/ n = 2) as Hn.
  { enough (n ≠ 3) by lia. intros ->. by pose proof (proj1 Hl eq_refl). }
  assert (sublist [RecordAuthFailure] [RecordAuthFailure]) as Hr by done.
  pose proof (sublist_app _ _ _ _ Hs Hr) as Hs'.
  destruct Hn as [-> | [-> | ->]]; cbn in Hs' |- *;
    unfold invariant, failures; cbn [state auth_attempts history app replicate];
    (split; [by vm_compute|]; split; [done|]; split; [by split|]; split; [|exact Hs']);
    intros r [= <-]; done.
Qed.

Lemma invariant_step evs sm e : invariant evs sm -> invariant (evs ++ [e]) (fire e sm).2.
Proof.
  intros Hi. destruct sm as [s n].
  destruct e, s; try (by apply invariant_more); try (by apply invariant_failure);
    cbn; (eapply invariant_keep; [exact Hi|by intros; discriminate..|]); intros Hz; unfold failures;
    cbn [history state auth_attempts app].
  - cbn in Hz. by rewrite (Hz eq_refl).
  - apply sublist_skip. by apply sublist_inserts_l.
  - done.
  - done.
  - by repeat constructor.
Qed.

Lemma invariant_run evs : invariant evs (run new evs).
Proof.
  induction evs as [|e evs IH] using rev_ind; [apply invariant_new|].
  rewrite run_connection_snoc. by apply invariant_step.
Qed.

Lemma reachable_sublist evs : sublist (history (state (run new evs))) evs.
Proof.
  destruct (invariant_run evs) as (_ & _ & _ & _ & Hs).
  etransitivity; [|exact Hs]. by apply sublist_inserts_r.
Qed.

(** * Properties *)

(** C36: Reachability.  Whatever the caller does, the failure counter stays
    within [0 .. AUTH_ATTEMPT_LIMIT] (so the [u8] never wraps), it stands at
    the limit exactly when the connection is closing for too many attempts,
    that is the only reason this machine closes for, and a state is reached
    only through the operations that lead to it, in order: in particular
    [Active] or [Suspended] requires a completed handshake, then a completed
    authentication, then a live channel, and closing requires three recorded
    failures after the handshake. *)
Theorem reachable evs :
  let sm := run new evs in
  0 <= auth_attempts sm <= AUTH_ATTEMPT_LIMIT /\
  (auth_attempts sm = AUTH_ATTEMPT_LIMIT <-> state sm = Closing AUTH_TOO_MANY_ATTEMPTS) /\
  (forall r, state sm = Closing r -> r = AUTH_TOO_MANY_ATTEMPTS) /\
  sublist (history (state sm)) evs.
Proof.
  intros sm. destruct (invariant_run evs) as (Ha & _ & Hl & Hc & Hs).
  repeat (split; [done|]). apply reachable_sublist.
Qed.

(** What an operation returns decides what it did.  [Ok] is returned
    exactly on the edges of the state diagram, and moves along that edge with
    the counter unchanged; every refused operation other than a recorded
    failure while [Authenticating] leaves the machine unchanged and says
    [PROTOCOL_UNEXPECTED_MESSAGE]; [record_auth_failure] never returns [Ok]. *)
Theorem operation_edges sm e :
  let r := fire e sm in
  match e, state sm with
  | CompleteHandshake, Handshaking => r = (Ok tt, set_state Authenticating sm)
  | CompleteAuthentication, Authenticating => r = (Ok tt, set_state Authenticated sm)
  | OnChannelLive, Authenticated => r = (Ok tt, set_state Active sm)
  | Suspend, Active => r = (Ok tt, set_state Suspended sm)
  | Resume, Suspended => r = (Ok tt, set_state Active sm)
  | RecordAuthFailure, Authenticating =>
      exists reason, r.1 = Err {| pv_reason := reason |} /\
        auth_attempts r.2 = wrap 8 (auth_attempts sm + 1) /\
        state r.2 = (if AUTH_ATTEMPT_LIMIT <=? auth_attempts r.2
                     then Closing AUTH_TOO_MANY_ATTEMPTS else Authenticating) /\
        reason = (if AUTH_ATTEMPT_LIMIT <=? auth_attempts r.2
                  then AUTH_TOO_MANY_ATTEMPTS else AUTH_SIGNATURE_INVALID)
  | _, _ => r = (Err unexpected, sm)
  end.
Proof.
  destruct sm as [s n]. destruct e, s; unfold fire; try done.
  unfold record_auth_failure. cbn [state auth_attempts].
  destruct (AUTH_ATTEMPT_LIMIT <=? wrap 8 (n + 1)) eqn:E; cbn [fst snd state auth_attempts set_state];
    rewrite E; eauto.
Qed.

(** Closing is final and silent: from [Closing], every sequence of
    operations leaves the machine where it is, every operation is refused and
    every control message is a protocol violation, as it is while
    [Suspended]. *)
Theorem closing_absorbs sm reason evs t :
  state sm = Closing reason ->
  run sm evs = sm /\
  check_message sm t = Err unexpected /\
  (forall e, fire e sm = (Err unexpected, sm)).
Proof.
  intros Hs. assert (forall e, fire e sm = (Err unexpected, sm)) as Hf.
  { intros []; unfold fire, complete_handshake, record_auth_failure, complete_authentication,
      on_channel_live, suspend, resume; by rewrite Hs. }
  split; [|split; [|done]].
  - induction evs as [|e evs IH] using rev_ind; [done|]. by rewrite run_connection_snoc, IH, Hf.
  - unfold check_message. by rewrite Hs.
Qed.

Lemma closing_absorbs_witness :
  let sm := run new [CompleteHandshake; RecordAuthFailure; RecordAuthFailure; RecordAuthFailure] in
  state sm = Closing AUTH_TOO_MANY_ATTEMPTS /\
  run sm [Resume] = sm /\
  check_message sm type_id.KEEP_ALIVE = Err unexpected /\
  (forall e, fire e sm = (Err unexpected, sm)).
Proof.
  intros sm. split; [by vm_compute|].
  apply (closing_absorbs sm AUTH_TOO_MANY_ATTEMPTS). by vm_compute.
Defined.

(** Message legality over a whole session: a [ClientHello] or
    [ServerHello] is accepted before the handshake is complete and never once
    the session is [Active]; a message of any other kind is accepted only
    after the handshake, and one other than [AuthPubkey] only after the
    peer has authenticated. *)
Theorem message_gate evs t :
  let sm := run new evs in
  check_message sm t = Ok tt ->
  (t = type_id.CLIENT_HELLO \/ t = type_id.SERVER_HELLO ->
     state sm = Handshaking \/ state sm = Authenticated) /\
  (t ≠ type_id.CLIENT_HELLO -> t ≠ type_id.SERVER_HELLO ->
     CompleteHandshake ∈ evs /\
     (t ≠ type_id.AUTH_PUBKEY ->
        sublist [CompleteHandshake; CompleteAuthentication] evs)).
Proof.
  intros sm Hok. pose proof (reachable_sublist evs) as Hs. fold sm in Hs.
  unfold check_message, allowed_in_handshaking, allowed_in_authenticating, allowed_in_active in Hok.
  assert (forall l, sublist l (history (state sm)) -> sublist l evs) as Hin
    by (intros l Hl; by etransitivity).
  assert (sublist [CompleteHandshake] (history (state sm)) -> CompleteHandshake ∈ evs) as Hhs.
  { intros Hl. eapply elem_of_sublist; [|by apply Hin]. set_solver. }
  split.
  - intros Ht. destruct (state sm); [by auto|exfalso|by auto|exfalso..];
      revert Hok; destruct Ht as [-> | ->]; by vm_compute.
  - intros H1 H2. destruct (state sm); cbn [history] in *.
    + exfalso. revert Hok. zcases; cbn; done.
    + split; [by auto|]. intros H3. exfalso. revert Hok. zcases; cbn; done.
    + split; [apply Hhs; by repeat constructor|]. intros _. by apply Hin.
    + split; [apply Hhs; by repeat constructor|]. intros _. apply Hin. by repeat constructor.
    + done.
    + done.
Qed.

Lemma message_gate_witness :
  let evs := [CompleteHandshake; CompleteAuthentication; OnChannelLive] in
  let sm := run new evs in
  check_message sm type_id.KEEP_ALIVE = Ok tt /\
  (type_id.KEEP_ALIVE = type_id.CLIENT_HELLO \/ type_id.KEEP_ALIVE = type_id.SERVER_HELLO ->
     state sm = Handshaking \/ state sm = Authenticated) /\
  (type_id.KEEP_ALIVE ≠ type_id.CLIENT_HELLO -> type_id.KEEP_ALIVE ≠ type_id.SERVER_HELLO ->
     CompleteHandshake ∈ evs /\
     (type_id.KEEP_ALIVE ≠ type_id.AUTH_PUBKEY ->
        sublist [CompleteHandshake; CompleteAuthentication] evs)).
Proof.
  intros evs sm. assert (check_message sm type_id.KEEP_ALIVE = Ok tt) as H by (by vm_compute).
  split; [exact H|]. apply (message_gate evs type_id.KEEP_ALIVE). exact H.
Defined.
