(* ===== verification/Auth.v ===== *)
(** Channel binding and signatures: the model of [src/src/auth.rs]. *)

From S2P Require Import Prelude.
From S2P Require Import Crypto.

Section auth.
Context `{Sha256, Ed25519, TlsExporter}.

(** * Definitions *)

Definition CONTEXT_PREFIX : list Z := chars "SARDP-auth-v1".
Definition EXPORTER_LABEL : list Z := chars "EXPORTER-SARDP-auth-v1".
Definition EXPORTER_LENGTH : Z := 32.

Definition TEST_SIGNING_KEY_SEED : list Z :=
  [0x01; 0x02; 0x03; 0x04; 0x05; 0x06; 0x07; 0x08; 0x09; 0x0a; 0x0b; 0x0c; 0x0d; 0x0e; 0x0f; 0x10;
   0x11; 0x12; 0x13; 0x14; 0x15; 0x16; 0x17; 0x18; 0x19; 0x1a; 0x1b; 0x1c; 0x1d; 0x1e; 0x1f; 0x20].

Definition test_signing_key : SigningKey := signing_key_from_bytes TEST_SIGNING_KEY_SEED.

Definition channel_binding_context (client_hello_bytes server_hello_bytes auth_challenge : list Z) : list Z :=
  CONTEXT_PREFIX ++ sha256 client_hello_bytes ++ sha256 server_hello_bytes ++ auth_challenge.

Inductive AuthError := ExportKeyingMaterialFailed | SignatureInvalid.

Definition compute_exporter (context : list Z) : result AuthError (list Z) :=
  ok_or (export_keying_material EXPORTER_LABEL context) ExportKeyingMaterialFailed.

Definition sign_exporter (signing_key : SigningKey) (exporter : list Z) : list Z :=
  sign signing_key exporter.

(** [<[u8; n]>::try_from(slice)]. *)
Definition try_into_array (n : nat) (bs : list Z) : option (list Z) :=
  if bool_decide (length bs = n) then Some bs else None.

Definition verify_exporter (public_key_bytes exporter signature_bytes : list Z) : result AuthError unit :=
  public_key_array ← ok_or (try_into_array 32 public_key_bytes) SignatureInvalid;
  verifying_key ← ok_or (verifying_key_from_bytes public_key_array) SignatureInvalid;
  signature_array ← ok_or (try_into_array 64 signature_bytes) SignatureInvalid;
  if verify verifying_key exporter signature_array then Ok tt else Err SignatureInvalid.

(** * Lemmas *)

Lemma verify_exporter_ok pk e s :
  verify_exporter pk e s = Ok tt <->
  length pk = 32%nat /\ length s = 64%nat /\
  exists vk, verifying_key_from_bytes pk = Some vk /\ verify vk e s = true.
Proof.
  unfold verify_exporter, try_into_array.
  destruct (decide (length pk = 32%nat)) as [Hpk|Hpk];
    [rewrite (bool_decide_true _ Hpk)|rewrite (bool_decide_false _ Hpk)]; cbn [ok_or mbind result_bind];
    [|naive_solver].
  destruct (verifying_key_from_bytes pk) as [vk|]; cbn [ok_or mbind result_bind]; [|naive_solver].
  destruct (decide (length s = 64%nat)) as [Hs|Hs];
    [rewrite (bool_decide_true _ Hs)|rewrite (bool_decide_false _ Hs)]; cbn [ok_or mbind result_bind];
    [|naive_solver].
  destruct (verify vk e s) eqn:Ev; split; try done; [by eauto|].
  intros (_ & _ & vk' & [= <-] & Hv). congruence.
Qed.

(** The signature [sign_exporter] makes passes [verify_exporter]. *)
Lemma verify_sign_exporter `{!Ed25519Laws} k e :
  verify_exporter (as_bytes (verifying_key k)) e (sign_exporter k e) = Ok tt.
Proof.
  apply verify_exporter_ok. split; [apply as_bytes_length|]. split; [apply sign_length|].
  exists (verifying_key k). split; [apply from_as_bytes|apply verify_sign].
Qed.

(** * Properties *)

(** The context determines what was bound: two exchanges whose contexts agree
    have the same challenge and the same digests of both hello messages, so a
    signature over one exchange's exporter binds no other exchange unless
    SHA-256 collides. *)
Theorem context_binds `{!Sha256Laws} ch sh c ch' sh' c' :
  channel_binding_context ch sh c = channel_binding_context ch' sh' c' ->
  sha256 ch = sha256 ch' /\ sha256 sh = sha256 sh' /\ c = c'.
Proof.
  unfold channel_binding_context. intros Heq.
  apply app_inj_1 in Heq as [_ Heq]; [|done].
  apply app_inj_1 in Heq as [Hc Heq]; [|by rewrite !sha256_length].
  apply app_inj_1 in Heq as [Hs Hl]; [|by rewrite !sha256_length].
  done.
Qed.

End auth.

Lemma context_binds_witness :
  @channel_binding_context toy_sha256 [1; 2] [3] [4] = @channel_binding_context toy_sha256 [2; 1] [3] [4] /\
  @sha256 toy_sha256 [1; 2] = @sha256 toy_sha256 [2; 1].
Proof.
  split; [done|].
  pose proof toy_sha256_laws as HL.
  by apply (@context_binds toy_sha256 HL [1; 2] [3] [4] [2; 1] [3] [4]).
Defined.
