(* ===== verification/ChannelSm.v ===== *)
(** The video channel state machine and its retry backoff: the model of
    [src/src/channel_sm.rs]. *)

From S2P Require Import Prelude.

(** * Definitions *)

Module defaults.
Definition RECOVERY_BACKOFF_SEQUENCE_US : list Z :=
  [1000000; 2000000; 4000000; 8000000; 16000000; 30000000].
Definition RECOVERY_BACKOFF_PLATEAU_US : Z := 30000000.
(** Five seconds, in microseconds. *)
Definition VIDEO_RECOVERY_TIMEOUT : Z := 5 * 1000000.
End defaults.

Inductive ChannelState := Initializing | Live | Recovering | Paused.

#[export] Instance ChannelState_eq_dec : EqDecision ChannelState.
Proof. solve_decision. Defined.

Record ChannelSm := {
  state : ChannelState;
  retry_attempt : Z;
  next_retry_allowed_at_us : option Z;
}.

Definition new : ChannelSm :=
  {| state := Initializing; retry_attempt := 0; next_retry_allowed_at_us := None |}.

Definition set_state (s : ChannelState) (sm : ChannelSm) : ChannelSm :=
  {| state := s; retry_attempt := retry_attempt sm;
     next_retry_allowed_at_us := next_retry_allowed_at_us sm |}.

Definition on_instance_streaming (sm : ChannelSm) : ChannelSm :=
  {| state := Live; retry_attempt := 0; next_retry_allowed_at_us := None |}.

Definition on_reset (sm : ChannelSm) : ChannelSm := set_state Recovering sm.

Definition on_retry_timeout (now_us : Z) (sm : ChannelSm) : ChannelSm :=
  let delay_us :=
    default defaults.RECOVERY_BACKOFF_PLATEAU_US
      (defaults.RECOVERY_BACKOFF_SEQUENCE_US !! Z.to_nat (retry_attempt sm)) in
  {| state := state sm;
     retry_attempt := wrap 32 (retry_attempt sm + 1);
     next_retry_allowed_at_us := Some (wrap 64 (now_us + delay_us)) |}.

Definition may_retry (sm : ChannelSm) (now_us : Z) : bool :=
  match next_retry_allowed_at_us sm with
  | None => true
  | Some t => t <=? now_us
  end.

Definition deactivate (sm : ChannelSm) : ChannelSm :=
  if bool_decide (state sm = Live) then set_state Paused sm else sm.

Definition activate (sm : ChannelSm) : ChannelSm :=
  if bool_decide (state sm = Paused) then set_state Live sm else sm.

(** ** Runs *)

Inductive event :=
| InstanceStreaming
| Reset
| RetryTimeout (now_us : Z)
| Deactivate
| Activate.

Definition fire (sm : ChannelSm) (e : event) : ChannelSm :=
  match e with
  | InstanceStreaming => on_instance_streaming sm
  | Reset => on_reset sm
  | RetryTimeout t => on_retry_timeout t sm
  | Deactivate => deactivate sm
  | Activate => activate sm
  end.

Definition run (sm : ChannelSm) (evs : list event) : ChannelSm := fold_left fire evs sm.

(** The timeouts since the channel was last live, latest first. *)
Definition episode_step (ts : list Z) (e : event) : list Z :=
  match e with
  | InstanceStreaming => []
  | RetryTimeout t => t :: ts
  | _ => ts
  end.

Definition episode (evs : list event) : list Z := fold_left episode_step evs [].

(** The backoff the module documents: one second, doubled by each failure,
    at most 30 seconds. *)
Definition backoff (failures : nat) : Z :=
  Z.min (1000000 * 2 ^ (Z.of_nat failures - 1)) 30000000.

(** * Lemmas *)

Lemma delay_backoff n :
  default defaults.RECOVERY_BACKOFF_PLATEAU_US (defaults.RECOVERY_BACKOFF_SEQUENCE_US !! n)
  = backoff (S n).
Proof.
  unfold backoff. replace (Z.of_nat (S n) - 1) with (Z.of_nat n) by lia.
  do 6 (destruct n as [|n]; [done|]). cbn.
  rewrite Z.min_r; [done|].
  replace (Z.of_nat _) with (6 + Z.of_nat n) by lia. rewrite Z.pow_add_r by lia.
  pose proof (Z.pow_pos_nonneg 2 (Z.of_nat n) ltac:(lia) ltac:(lia)). lia.
Qed.

Lemma backoff_bounds n : (0 < n)%nat -> 1000000 <= backoff n <= 30000000.
Proof.
  intros Hn. unfold backoff.
  pose proof (Z.pow_pos_nonneg 2 (Z.of_nat n - 1) ltac:(lia) ltac:(lia)). lia.
Qed.

Lemma run_events_snoc sm evs e : run sm (evs ++ [e]) = fire (run sm evs) e.
Proof. unfold run. by rewrite fold_left_app. Qed.

Lemma episode_snoc evs e : episode (evs ++ [e]) = episode_step (episode evs) e.
Proof. unfold episode. by rewrite fold_left_app. Qed.

Lemma length_episode evs : (length (episode evs) <= length evs)%nat.
Proof.
  induction evs as [|e evs IH] using rev_ind; [done|].
  rewrite episode_snoc, length_app. destruct e; cbn; lia.
Qed.

(** [deactivate] and [activate] leave the backoff alone. *)
Lemma deactivate_backoff sm :
  retry_attempt (deactivate sm) = retry_attempt sm /\
  next_retry_allowed_at_us (deactivate sm) = next_retry_allowed_at_us sm.
Proof. unfold deactivate. by case_bool_decide. Qed.

Lemma activate_backoff sm :
  retry_attempt (activate sm) = retry_attempt sm /\
  next_retry_allowed_at_us (activate sm) = next_retry_allowed_at_us sm.
Proof. unfold activate. by case_bool_decide. Qed.

(** * Properties *)

(** The backoff.  After any sequence of operations, the retry counter is
    the number of timeouts since the channel was last live, and a new retry
    is allowed at once while that number is zero, and otherwise from
    [backoff n] after the latest of the [n] timeouts: 1, 2, 4, 8, 16 and then
    30 seconds.  Focus changes and resets do not disturb it. *)
Theorem retry_backoff evs now :
  Z.of_nat (length evs) < 2 ^ 32 ->
  Forall (fun e => match e with RetryTimeout t => 0 <= t < 2 ^ 64 - 30000000 | _ => True end) evs ->
  let sm := run new evs in
  retry_attempt sm = Z.of_nat (length (episode evs)) /\
  may_retry sm now =
    match episode evs with
    | [] => true
    | t :: _ => t + backoff (length (episode evs)) <=? now
    end.
Proof.
  intros Hlen Ht sm.
  assert (retry_attempt sm = Z.of_nat (length (episode evs)) /\
    next_retry_allowed_at_us sm =
      match episode evs with [] => None | t :: _ => Some (t + backoff (length (episode evs))) end)
    as [-> Hn].
  2: { split; [done|]. unfold may_retry. rewrite Hn. by destruct (episode evs). }
  subst sm. induction evs as [|e evs IH] using rev_ind; [done|].
  rewrite length_app in Hlen. cbn in Hlen.
  apply Forall_app in Ht as [Ht [He _]%Forall_cons_1].
  destruct IH as [IH1 IH2]; [lia|done|].
  rewrite run_events_snoc, episode_snoc. pose proof (length_episode evs) as Hle.
  destruct e; cbn [fire episode_step]; try done.
  - cbn [on_retry_timeout retry_attempt next_retry_allowed_at_us length].
    rewrite IH1, Nat2Z.id, delay_backoff, !wrap_small; [split; [lia|done]|..];
      pose proof (backoff_bounds (S (length (episode evs))) ltac:(lia));
      unfold in_width; lia.
  - by destruct (deactivate_backoff (run new evs)) as [-> ->].
  - by destruct (activate_backoff (run new evs)) as [-> ->].
Qed.

Lemma retry_backoff_witness :
  let evs := [InstanceStreaming; Reset; RetryTimeout 5; RetryTimeout 2000000; Deactivate] in
  (Z.of_nat (length evs) < 2 ^ 32 /\
   Forall (fun e => match e with RetryTimeout t => 0 <= t < 2 ^ 64 - 30000000 | _ => True end) evs) /\
  let sm := run new evs in
  retry_attempt sm = 2 /\ may_retry sm 3999999 = false.
Proof.
  intros evs.
  assert (Z.of_nat (length evs) < 2 ^ 32) as H1 by (by vm_compute).
  assert (Forall (fun e => match e with RetryTimeout t => 0 <= t < 2 ^ 64 - 30000000 | _ => True end) evs)
    as H2 by (repeat constructor; done).
  split; [by split|].
  destruct (retry_backoff evs 3999999 H1 H2) as [E1 E2]. split; [exact E1|exact E2].
Defined.
