(* ===== verification/VideoSm.v ===== *)
(** The video stream instance state machine: the model of
    [src/src/video_sm.rs]. *)

From S2P Require Import Prelude.
From S2P Require Import ReasonCode.

(** * Definitions *)

Module defaults.
(** Three seconds, in microseconds. *)
Definition VIDEO_CONFIGURING_TIMEOUT : Z := 3 * 1000000.
End defaults.

Inductive CloseReason := Reset | Failed | Normal.

Inductive InstanceState :=
| Created
| Configuring
| Streaming
| Congested
| Closed (reason : CloseReason).

#[export] Instance CloseReason_eq_dec : EqDecision CloseReason.
Proof. solve_decision. Defined.
#[export] Instance InstanceState_eq_dec : EqDecision InstanceState.
Proof. solve_decision. Defined.

Record ProtocolViolation := { pv_reason : ReasonCode }.

Definition unexpected : ProtocolViolation := {| pv_reason := PROTOCOL_UNEXPECTED_MESSAGE |}.

Record VideoInstanceSm := {
  state : InstanceState;
  sent_generation : bool;
  sent_encoder_config : bool;
}.

Definition new : VideoInstanceSm :=
  {| state := Created; sent_generation := false; sent_encoder_config := false |}.

Definition transition := VideoInstanceSm -> result ProtocolViolation unit * VideoInstanceSm.

Definition set_state (s : InstanceState) (sm : VideoInstanceSm) : VideoInstanceSm :=
  {| state := s; sent_generation := sent_generation sm;
     sent_encoder_config := sent_encoder_config sm |}.

Definition on_prologue_sent : transition := fun sm =>
  match state sm with
  | Created => (Ok tt, set_state Configuring sm)
  | _ => (Err unexpected, sm)
  end.

Definition on_generation_sent : transition := fun sm =>
  match state sm with
  | Configuring =>
      if negb (sent_generation sm) then
        (Ok tt, {| state := state sm; sent_generation := true;
                   sent_encoder_config := sent_encoder_config sm |})
      else (Err unexpected, sm)
  | _ => (Err unexpected, sm)
  end.

Definition on_encoder_config_sent : transition := fun sm =>
  match state sm with
  | Configuring =>
      if sent_generation sm && negb (sent_encoder_config sm) then
        (Ok tt, {| state := state sm; sent_generation := sent_generation sm;
                   sent_encoder_config := true |})
      else (Err unexpected, sm)
  | _ => (Err unexpected, sm)
  end.

Definition on_first_idr_sent : transition := fun sm =>
  match state sm with
  | Configuring =>
      if sent_generation sm && sent_encoder_config sm then (Ok tt, set_state Streaming sm)
      else (Err unexpected, sm)
  | _ => (Err unexpected, sm)
  end.

Definition on_congested : transition := fun sm =>
  match state sm with
  | Streaming => (Ok tt, set_state Congested sm)
  | _ => (Err unexpected, sm)
  end.

Definition on_recovered : transition := fun sm =>
  match state sm with
  | Congested => (Ok tt, set_state Streaming sm)
  | _ => (Err unexpected, sm)
  end.

Definition on_reset : transition := fun sm =>
  match state sm with
  | Congested => (Ok tt, set_state (Closed Reset) sm)
  | _ => (Err unexpected, sm)
  end.

Definition on_client_requested_reset : transition := fun sm =>
  match state sm with
  | Streaming | Congested => (Ok tt, set_state (Closed Reset) sm)
  | _ => (Err unexpected, sm)
  end.

(** ** Runs *)

Inductive event :=
| PrologueSent
| GenerationSent
| EncoderConfigSent
| FirstIdrSent
| CongestedEv
| RecoveredEv
| ResetEv
| ClientRequestedReset.

#[export] Instance event_eq_dec : EqDecision event.
Proof. solve_decision. Defined.

Definition fire (e : event) : transition :=
  match e with
  | PrologueSent => on_prologue_sent
  | GenerationSent => on_generation_sent
  | EncoderConfigSent => on_encoder_config_sent
  | FirstIdrSent => on_first_idr_sent
  | CongestedEv => on_congested
  | RecoveredEv => on_recovered
  | ResetEv => on_reset
  | ClientRequestedReset => on_client_requested_reset
  end.

(** The calls of a trace with [?]: stops at the first refusal. *)
Fixpoint try_run (sm : VideoInstanceSm) (evs : list event) : result ProtocolViolation VideoInstanceSm :=
  match evs with
  | [] => Ok sm
  | e :: evs' =>
      match fire e sm with
      | (Ok _, sm') => try_run sm' evs'
      | (Err v, _) => Err v
      end
  end.

(** ** The lifecycle of the protocol, as a set of traces *)

Definition setup : list event := [PrologueSent; GenerationSent; EncoderConfigSent; FirstIdrSent].

(** What may follow the setup, starting in [Streaming] or in [Congested]. *)
Inductive lifetime : bool -> list event -> Prop :=
| lt_open c : lifetime c []
| lt_congest evs : lifetime true evs -> lifetime false (CongestedEv :: evs)
| lt_recover evs : lifetime false evs -> lifetime true (RecoveredEv :: evs)
| lt_reset : lifetime true [ResetEv]
| lt_request c : lifetime c [ClientRequestedReset].

Inductive legal : list event -> Prop :=
| legal_setup evs : evs `prefix_of` setup -> legal evs
| legal_live evs : lifetime false evs -> legal (setup ++ evs).

(** * Lemmas *)

(** The states a trace without refusal goes through. *)
Definition live (c : bool) : VideoInstanceSm :=
  {| state := if c then Congested else Streaming; sent_generation := true; sent_encoder_config := true |}.

Lemma try_run_closed sm r evs : state sm = Closed r -> is_ok (try_run sm evs) = true -> evs = [].
Proof.
  intros Hs. destruct evs as [|e evs]; [done|]. cbn [try_run].
  destruct e; unfold fire, on_prologue_sent, on_generation_sent, on_encoder_config_sent,
    on_first_idr_sent, on_congested, on_recovered, on_reset, on_client_requested_reset;
    by rewrite Hs.
Qed.

Lemma try_run_live c evs : is_ok (try_run (live c) evs) = true <-> lifetime c evs.
Proof.
  split.
  - revert c. induction evs as [|e evs IH]; intros c; [constructor|].
    destruct e, c; try done; cbn [try_run fire on_congested on_recovered on_reset
      on_client_requested_reset live state set_state sent_generation sent_encoder_config]; intros H.
    + constructor. by apply (IH true).
    + constructor. by apply (IH false).
    + apply try_run_closed with (r := Reset) in H as ->; [constructor|done].
    + apply try_run_closed with (r := Reset) in H as ->; [constructor|done].
    + apply try_run_closed with (r := Reset) in H as ->; [constructor|done].
  - induction 1 as [| ? _ IH | ? _ IH | |]; [done|exact IH|exact IH|done|by destruct c].
Qed.

Lemma try_run_app sm evs evs' :
  try_run sm (evs ++ evs') = try_run sm evs ≫= fun sm' => try_run sm' evs'.
Proof.
  revert sm. induction evs as [|e evs IH]; intros sm; [done|]. cbn [try_run app].
  destruct (fire e sm) as [[[]|v] sm']; [apply IH|done].
Qed.

(** * Properties *)

(** The instance's calls are accepted, all of them, exactly when they
    follow the protocol: prologue, generation, encoder configuration and first
    IDR, each once and in that order, then congestion and recovery in
    alternation, ending at most once, by a reset while congested or by a
    client's request while streaming or congested, with nothing after it. *)
Theorem accepts_exactly_legal evs : is_ok (try_run new evs) = true <-> legal evs.
Proof.
  split.
  - intros H. destruct (decide (evs `prefix_of` setup)) as [Hp|Hp]; [by apply legal_setup|].
    destruct evs as [|[] evs]; try done; [by destruct Hp; exists setup|].
    destruct evs as [|[] evs]; try done; [by destruct Hp; eexists|].
    destruct evs as [|[] evs]; try done; [by destruct Hp; eexists|].
    destruct evs as [|[] evs]; try done; [by destruct Hp; eexists|].
    apply (legal_live evs). by apply try_run_live.
  - destruct 1 as [evs [evs' Hp] | evs Hl].
    + assert (is_ok (try_run new (evs ++ evs')) = true) as H by (by rewrite <- Hp).
      rewrite try_run_app in H. by destruct (try_run new evs).
    + rewrite try_run_app. by apply (try_run_live false).
Qed.

(** A refused call changes nothing and always reports
    [PROTOCOL_UNEXPECTED_MESSAGE]; an accepted one never returns to
    [Created], and a closed instance accepts nothing. *)
Theorem refusal_is_unexpected sm e :
  match fire e sm with
  | (Err v, sm') => v = unexpected /\ sm' = sm
  | (Ok _, sm') => state sm' ≠ Created /\ (forall r, state sm ≠ Closed r)
  end.
Proof.
  destruct sm as [s g c].
  destruct e, s, g, c; cbn; done.
Qed.
