(* ===== verification/Backpressure.v ===== *)
(** Video backpressure: the model of [src/src/backpressure.rs], and its
    specifications: the baseline is the minimum of a sliding window, and the
    congestion decisions follow from the samples since congestion began. *)

From Stdlib Require Import Sorted.
From S2P Require Import Prelude.

(** * Definitions *)

Module defaults.
Definition VIDEO_QUEUE_BASELINE_WINDOW_US : Z := 10000000.
Definition VIDEO_RATE_REDUCE_THRESHOLD_DELTA_US : Z := 100000.
Definition MAX_VIDEO_QUEUE_DURATION_DELTA_US : Z := 300000.
Definition CONGESTED_TO_STREAMING_HYSTERESIS_US : Z := 500000.
Definition MAX_VIDEO_QUEUE_BYTES : Z := 4 * 1024 * 1024.
Definition HARD_THRESHOLD_CONSECUTIVE_COUNT : Z := 3.
End defaults.
Import defaults.

(** The deque, front first. *)
Record BaselineTracker := {
  window_us : Z;
  samples : list (Z * Z);
}.

Definition new_baseline (window_us : Z) : BaselineTracker :=
  {| window_us := window_us; samples := [] |}.

Definition with_default_window : BaselineTracker := new_baseline VIDEO_QUEUE_BASELINE_WINDOW_US.

(** The [while let Some(back)] loop, on the deque back first. *)
Fixpoint pop_dominated (value_us : Z) (back_first : list (Z * Z)) : list (Z * Z) :=
  match back_first with
  | (ts, back_value) :: rest =>
      if value_us <=? back_value then pop_dominated value_us rest else back_first
  | [] => []
  end.

(** The [while let Some(front)] loop. *)
Fixpoint pop_expired (cutoff : Z) (front_first : list (Z * Z)) : list (Z * Z) :=
  match front_first with
  | (ts, v) :: rest => if ts <? cutoff then pop_expired cutoff rest else front_first
  | [] => []
  end.

Definition evict_expired (now_us : Z) (t : BaselineTracker) : BaselineTracker :=
  let cutoff := sat_sub now_us (window_us t) in
  {| window_us := window_us t; samples := pop_expired cutoff (samples t) |}.

Definition record (now_us value_us : Z) (t : BaselineTracker) : BaselineTracker :=
  evict_expired now_us
    {| window_us := window_us t;
       samples := reverse (pop_dominated value_us (reverse (samples t))) ++ [(now_us, value_us)] |}.

Definition baseline_us (t : BaselineTracker) : option Z := snd <$> head (samples t).

Inductive BackpressureDecision := Continue | EnterCongested | ExitCongested | ResetStream.

#[export] Instance BackpressureDecision_eq_dec : EqDecision BackpressureDecision.
Proof. solve_decision. Defined.

Record CongestionTracker := {
  congested : bool;
  hard_violation_count : Z;
  below_soft_since_us : option Z;
}.

Definition new : CongestionTracker :=
  {| congested := false; hard_violation_count := 0; below_soft_since_us := None |}.

Definition evaluate (now_us delta_us app_send_queue_bytes : Z) (t : CongestionTracker) :
    BackpressureDecision * CongestionTracker :=
  if negb (congested t) then
    if VIDEO_RATE_REDUCE_THRESHOLD_DELTA_US <? delta_us then
      (EnterCongested,
       {| congested := true; hard_violation_count := 0; below_soft_since_us := None |})
    else (Continue, t)
  else
    let hard :=
      if MAX_VIDEO_QUEUE_DURATION_DELTA_US <? delta_us then wrap 32 (hard_violation_count t + 1)
      else 0 in
    if (HARD_THRESHOLD_CONSECUTIVE_COUNT <=? hard) || (MAX_VIDEO_QUEUE_BYTES <? app_send_queue_bytes)
    then
      (ResetStream,
       {| congested := congested t; hard_violation_count := hard;
          below_soft_since_us := below_soft_since_us t |})
    else if delta_us <? VIDEO_RATE_REDUCE_THRESHOLD_DELTA_US then
      match below_soft_since_us t with
      | None =>
          (Continue,
           {| congested := congested t; hard_violation_count := hard;
              below_soft_since_us := Some now_us |})
      | Some since =>
          if CONGESTED_TO_STREAMING_HYSTERESIS_US <=? sat_sub now_us since then
            (ExitCongested,
             {| congested := false; hard_violation_count := hard; below_soft_since_us := None |})
          else
            (Continue,
             {| congested := congested t; hard_violation_count := hard;
                below_soft_since_us := Some since |})
      end
    else
      (Continue,
       {| congested := congested t; hard_violation_count := hard; below_soft_since_us := None |}).

(** ** Runs and specifications *)

Definition record_all (window : Z) (hist : list (Z * Z)) : BaselineTracker :=
  fold_left (fun t p => record p.1 p.2 t) hist (new_baseline window).

Fixpoint list_min (l : list Z) : option Z :=
  match l with
  | [] => None
  | x :: l' => Some (match list_min l' with Some m => Z.min x m | None => x end)
  end.

(** The specification of the baseline: the least value of the samples taken
    within [window] before [now]. *)
Definition window_min (window now : Z) (hist : list (Z * Z)) : option Z :=
  list_min (map snd (filter (fun p => now - window <= p.1) hist)).

(** One sample as [evaluate] receives it. *)
Record sample := { s_now : Z; s_delta : Z; s_bytes : Z }.

(** The tracker's decisions on a sequence of samples, up to the reset at which
    the instance and its tracker are replaced. *)
Fixpoint decisions (t : CongestionTracker) (ss : list sample) : list BackpressureDecision :=
  match ss with
  | [] => []
  | s :: ss' =>
      let '(d, t') := evaluate (s_now s) (s_delta s) (s_bytes s) t in
      match d with ResetStream => [d] | _ => d :: decisions t' ss' end
  end.

(** The longest prefix whose elements satisfy [f]. *)
Fixpoint leading {A} (f : A -> bool) (l : list A) : list A :=
  match l with
  | x :: l' => if f x then x :: leading f l' else []
  | [] => []
  end.

Definition over_hard (s : sample) : bool := MAX_VIDEO_QUEUE_DURATION_DELTA_US <? s_delta s.
Definition below_soft (s : sample) : bool := s_delta s <? VIDEO_RATE_REDUCE_THRESHOLD_DELTA_US.

(** The abstract state: streaming, or congested with the samples seen since
    congestion was entered, latest first. *)
Inductive phase := PStreaming | PCongested (hist : list sample).

(** The specification of one decision. *)
Definition spec_step (s : sample) (ph : phase) : BackpressureDecision * phase :=
  match ph with
  | PStreaming =>
      if VIDEO_RATE_REDUCE_THRESHOLD_DELTA_US <? s_delta s then (EnterCongested, PCongested [])
      else (Continue, PStreaming)
  | PCongested hist =>
      if (3 <=? length (leading over_hard (s :: hist)))%nat || (MAX_VIDEO_QUEUE_BYTES <? s_bytes s)
      then (ResetStream, PCongested (s :: hist))
      else
        match last (leading below_soft (s :: hist)) with
        | Some oldest =>
            if CONGESTED_TO_STREAMING_HYSTERESIS_US <=? s_now s - s_now oldest
            then (ExitCongested, PStreaming) else (Continue, PCongested (s :: hist))
        | None => (Continue, PCongested (s :: hist))
        end
  end.

Fixpoint spec_decisions (ph : phase) (ss : list sample) : list BackpressureDecision :=
  match ss with
  | [] => []
  | s :: ss' =>
      let '(d, ph') := spec_step s ph in
      match d with ResetStream => [d] | _ => d :: spec_decisions ph' ss' end
  end.

(** * Lemmas *)

Lemma list_min_some l m : list_min l = Some m <-> m ∈ l /\ Forall (fun x => m <= x) l.
Proof.
  revert m. induction l as [|x l IH]; intros m; cbn [list_min].
  { split; [done|]. intros [H _]. by apply not_elem_of_nil in H. }
  destruct (list_min l) as [m'|] eqn:E.
  - destruct (proj1 (IH m') eq_refl) as [Hin Hall]. split.
    + intros [= <-]. split; [destruct (Z.min_spec x m') as [[_ ->] | [_ ->]]; set_solver|].
      constructor; [lia|]. eapply Forall_impl; [exact Hall|]. cbn. lia.
    + intros [Hm [Hx Hl]%Forall_cons_1]. f_equal. rewrite Forall_forall in Hl, Hall.
      pose proof (Hl _ Hin). apply elem_of_cons in Hm as [-> | Hm]; [lia|].
      pose proof (Hall _ Hm). lia.
  - assert (l = []) as -> by (destruct l as [|y l]; [done|]; cbn in E; by destruct (list_min l)).
    split; [intros [= <-]; split; [set_solver|by repeat constructor; lia]|].
    intros [->%list_elem_of_singleton _]. done.
Qed.

(** The deque invariant: values strictly increase and times do not decrease. *)
Definition increasing : list (Z * Z) -> Prop :=
  StronglySorted (fun p q => p.1 <= q.1 /\ p.2 < q.2).

(** [samples] represents the part of [hist] from [cutoff] on. *)
Record represents (cutoff : Z) (hist samples : list (Z * Z)) : Prop := {
  rep_sorted : increasing samples;
  rep_sound : forall p, p ∈ samples -> p ∈ hist /\ cutoff <= p.1;
  rep_complete : forall p, p ∈ hist -> cutoff <= p.1 ->
    exists q, q ∈ samples /\ p.1 <= q.1 /\ q.2 <= p.2;
}.

Lemma pop_dominated_spec v l :
  StronglySorted (fun p q => q.1 <= p.1 /\ q.2 < p.2) l ->
  forall p, p ∈ pop_dominated v l <-> p ∈ l /\ p.2 < v.
Proof.
  induction 1 as [|[t b] l Hs IH Hall]; cbn [pop_dominated]; [set_solver|].
  rewrite Forall_forall in Hall. intros p. zcases.
  - rewrite IH. split; [set_solver|]. intros [[-> | Hp]%elem_of_cons Hv]; [cbn in *; lia|done].
  - split; [|by intros [? _]]. intros Hp. split; [done|].
    apply elem_of_cons in Hp as [-> | Hp]; [done|]. destruct (Hall p Hp) as [_ H1]. cbn in *. lia.
Qed.

Lemma pop_dominated_sorted v l R : StronglySorted R l -> StronglySorted R (pop_dominated v l).
Proof.
  induction 1 as [|[t b] l Hs IH Hall]; cbn [pop_dominated]; [constructor|].
  zcases; [done|by constructor].
Qed.

Lemma pop_expired_spec cutoff l :
  increasing l -> forall p, p ∈ pop_expired cutoff l <-> p ∈ l /\ cutoff <= p.1.
Proof.
  induction 1 as [|[t b] l Hs IH Hall]; cbn [pop_expired]; [set_solver|].
  rewrite Forall_forall in Hall. intros p. zcases.
  - rewrite IH. split; [set_solver|]. intros [[-> | Hp]%elem_of_cons Hv]; [cbn in *; lia|done].
  - split; [|by intros [? _]]. intros Hp. split; [done|].
    apply elem_of_cons in Hp as [-> | Hp]; [done|]. destruct (Hall p Hp) as [H1 _]. cbn in *. lia.
Qed.

Lemma pop_expired_sorted cutoff l : increasing l -> increasing (pop_expired cutoff l).
Proof.
  induction 1 as [|[t b] l Hs IH Hall]; cbn [pop_expired]; [constructor|].
  zcases; [done|by constructor].
Qed.

Lemma StronglySorted_snoc {A} (R : A -> A -> Prop) l x :
  StronglySorted R (l ++ [x]) <-> StronglySorted R l /\ Forall (fun y => R y x) l.
Proof.
  induction l as [|y l IH]; cbn [app].
  - split; [by repeat constructor|]. by repeat constructor.
  - split.
    + inversion 1 as [|? ? Hs Hf]; subst. apply IH in Hs as [Hs Hl].
      apply Forall_app in Hf as [Hf [Hx _]%Forall_cons_1].
      by split; constructor.
    + intros [Hs Hf]. inversion Hs; inversion Hf; subst. constructor; [by apply IH|].
      apply Forall_app. by repeat constructor.
Qed.

Lemma StronglySorted_reverse {A} (R : A -> A -> Prop) l :
  StronglySorted R l <-> StronglySorted (fun x y => R y x) (reverse l).
Proof.
  induction l as [|x l IH]; [by split; constructor|]. rewrite reverse_cons, StronglySorted_snoc, <- IH.
  rewrite Forall_reverse. split; [by inversion 1|]. intros [??]. by constructor.
Qed.

(** [record] keeps the representation, for a later cutoff. *)
Lemma represents_record c c' hist l now v :
  represents c hist l -> c <= c' -> c' <= now ->
  (forall p, p ∈ hist -> p.1 <= now) ->
  represents c' (hist ++ [(now, v)])
    (pop_expired c' (reverse (pop_dominated v (reverse l)) ++ [(now, v)])).
Proof.
  intros [Hs Hsound Hcompl] Hc Hnow Hle.
  assert (forall p, p ∈ reverse (pop_dominated v (reverse l)) <-> p ∈ l /\ p.2 < v) as Hpop.
  { intros p. rewrite elem_of_reverse, pop_dominated_spec, elem_of_reverse; [done|].
    by apply (StronglySorted_reverse (fun p q => p.1 <= q.1 /\ p.2 < q.2)). }
  assert (increasing (reverse (pop_dominated v (reverse l)) ++ [(now, v)])) as Hi.
  { apply StronglySorted_snoc. split.
    - apply StronglySorted_reverse. rewrite reverse_involutive. apply pop_dominated_sorted.
      by apply (StronglySorted_reverse (fun p q => p.1 <= q.1 /\ p.2 < q.2)).
    - apply Forall_forall. intros p [Hp Hv]%Hpop. split; [|done]. by apply Hle, Hsound. }
  split.
  - by apply pop_expired_sorted.
  - intros p [Hp Hcp]%pop_expired_spec; [|done]. split; [|done].
    apply elem_of_app in Hp as [[Hp _]%Hpop | Hp]; [|set_solver].
    apply elem_of_app. left. by apply Hsound.
  - intros p Hp Hcp.
    assert (exists q, q ∈ reverse (pop_dominated v (reverse l)) ++ [(now, v)] /\ p.1 <= q.1 /\ q.2 <= p.2)
      as (q & Hq & Hpq1 & Hpq2).
    2: { exists q. rewrite pop_expired_spec by done. split_and!; [done|lia|done|done]. }
    apply elem_of_app in Hp as [Hp | ->%list_elem_of_singleton].
    + destruct (Hcompl p Hp) as (q & Hq & H1 & H2); [lia|].
      destruct (Z.lt_ge_cases q.2 v).
      * exists q. split; [|done]. apply elem_of_app. left. by apply Hpop.
      * exists (now, v). cbn. split; [set_solver|]. split; [by apply Hle|lia].
    + exists (now, v). cbn. split; [set_solver|lia].
Qed.

(** The front of a representation is the minimum. *)
Lemma represents_min c hist l :
  represents c hist l ->
  (snd <$> head l) = list_min (map snd (filter (fun p => c <= p.1) hist)).
Proof.
  intros [Hs Hsound Hcompl]. destruct l as [|p l]; cbn.
  - destruct (filter _ hist) as [|q r] eqn:E; [done|exfalso].
    assert (q ∈ filter (fun p => c <= p.1) hist) as Hq by (rewrite E; set_solver).
    apply list_elem_of_filter in Hq as [H1 H2].
    destruct (Hcompl q H2 H1) as (z & Hz & _). by apply not_elem_of_nil in Hz.
  - symmetry. apply list_min_some. split.
    + apply list_elem_of_fmap. exists p. split; [done|].
      apply list_elem_of_filter. destruct (Hsound p); [set_solver|done].
    + apply Forall_map, Forall_forall. intros q [Hq Hin]%list_elem_of_filter.
      destruct (Hcompl q Hin Hq) as (z & Hz & _ & Hzq). cbn.
      inversion Hs as [|? ? _ Hall]; subst. rewrite Forall_forall in Hall.
      apply elem_of_cons in Hz as [-> | Hz]; [done|]. destruct (Hall z Hz). lia.
Qed.

Lemma window_record now v t : window_us (record now v t) = window_us t.
Proof. done. Qed.

Lemma window_record_all w hist : window_us (record_all w hist) = w.
Proof.
  induction hist as [|p hist IH] using rev_ind; [done|].
  unfold record_all in *. by rewrite fold_left_app.
Qed.

Lemma record_all_represents window hist now :
  0 <= window ->
  StronglySorted (fun p q => p.1 <= q.1) hist -> Forall (fun p => 0 <= p.1) hist ->
  fst <$> last hist = Some now ->
  represents (sat_sub now window) hist (samples (record_all window hist)).
Proof.
  intros Hw. revert now. induction hist as [|[t v] hist IH] using rev_ind; intros now Hs Hp Hl; [done|].
  rewrite last_snoc in Hl. injection Hl as <-.
  apply StronglySorted_snoc in Hs as [Hs Hle]. apply Forall_app in Hp as [Hp [Ht _]%Forall_cons_1].
  unfold record_all. rewrite fold_left_app. cbn [fold_left fst snd record evict_expired samples window_us].
  fold (record_all window hist). rewrite window_record_all. cbn in Ht.
  rewrite Forall_forall in Hle. cbn in Hle.
  destruct (last hist) as [[t' v']|] eqn:E.
  - eapply represents_record; [by apply (IH t')| | |exact Hle]; unfold sat_sub; [|lia].
    assert (t' <= t); [|lia]. apply (Hle (t', v')). apply last_Some in E as [? ->]. set_solver.
  - apply last_None in E as ->. apply (represents_record 0); [|unfold sat_sub; lia..|set_solver].
    split; [constructor|set_solver..].
Qed.

Lemma filter_ext_Forall {A} (P Q : A -> Prop) `{!forall x, Decision (P x), !forall x, Decision (Q x)} l :
  Forall (fun x => P x <-> Q x) l -> filter P l = filter Q l.
Proof.
  induction 1 as [|x l Hx _ IH]; [done|]. rewrite !filter_cons, IH.
  repeat case_decide; naive_solver.
Qed.

(** The tracker's fields as functions of the samples since congestion began. *)
Definition tracks (t : CongestionTracker) (ph : phase) : Prop :=
  match ph with
  | PStreaming => congested t = false
  | PCongested hist =>
      congested t = true /\
      hard_violation_count t = Z.of_nat (length (leading over_hard hist)) /\
      hard_violation_count t < HARD_THRESHOLD_CONSECUTIVE_COUNT /\
      below_soft_since_us t = s_now <$> last (leading below_soft hist)
  end.

Lemma hard_count t hist s :
  tracks t (PCongested hist) ->
  (if MAX_VIDEO_QUEUE_DURATION_DELTA_US <? s_delta s then wrap 32 (hard_violation_count t + 1) else 0)
  = Z.of_nat (length (leading over_hard (s :: hist))).
Proof.
  intros (_ & Hh & Hlt & _). unfold HARD_THRESHOLD_CONSECUTIVE_COUNT in Hlt.
  cbn [leading]. unfold over_hard at 1. zcases; [|done]. cbn [length].
  rewrite wrap_small; [lia|]. unfold in_width. lia.
Qed.

Lemma last_leading_cons s hist :
  last (leading below_soft (s :: hist))
  = if below_soft s then Some (default s (last (leading below_soft hist))) else None.
Proof.
  cbn [leading]. destruct (below_soft s); [|done].
  rewrite last_cons. by destruct (last _).
Qed.

(** One evaluation simulates one step of the specification. *)
Lemma evaluate_step t ph s :
  tracks t ph -> 0 <= s_now s ->
  (forall hist, ph = PCongested hist -> Forall (fun s' => s_now s' <= s_now s) hist) ->
  let '(d, t') := evaluate (s_now s) (s_delta s) (s_bytes s) t in
  let '(d', ph') := spec_step s ph in
  d = d' /\ (d ≠ ResetStream -> tracks t' ph').
Proof.
  intros Ht H0 Hmono. destruct ph as [|hist]; unfold evaluate.
  { cbn in Ht. rewrite Ht. cbn [negb]. unfold spec_step. zcases; split; cbn; done || auto. }
  pose proof (hard_count t hist s Ht) as Hc. rewrite Hc.
  destruct Ht as (Hcong & Hh & Hlt & Hb). rewrite Hcong. cbn [negb]. unfold spec_step.
  set (n := length (leading over_hard (s :: hist))) in *.
  assert ((HARD_THRESHOLD_CONSECUTIVE_COUNT <=? Z.of_nat n) = (3 <=? n)%nat) as ->.
  { unfold HARD_THRESHOLD_CONSECUTIVE_COUNT. destruct (Nat.leb_spec 3 n); zcases; lia || done. }
  clear Hc. destruct (_ || _) eqn:Er; [done|].
  apply orb_false_iff in Er as [Hn3 _]. apply Nat.leb_gt in Hn3.
  rewrite last_leading_cons. fold (below_soft s). rewrite Hb.
  specialize (Hmono hist eq_refl).
  assert (Z.of_nat n < HARD_THRESHOLD_CONSECUTIVE_COUNT) as Hn3'
    by (unfold HARD_THRESHOLD_CONSECUTIVE_COUNT; lia).
  destruct (below_soft s) eqn:Eb.
  2: { split; [done|]. intros _. do 2 (split; [done|]); split; [exact Hn3'|]; cbn [below_soft_since_us]. by rewrite last_leading_cons, Eb. }
  assert (forall x, last (leading below_soft hist) = Some x -> s_now x <= s_now s) as Hle.
  { intros x Hx. rewrite Forall_forall in Hmono. apply Hmono.
    apply last_Some in Hx as [l' Hx].
    assert (x ∈ leading below_soft hist) as Hin by (rewrite Hx; set_solver).
    clear -Hin. induction hist as [|y hist IH]; cbn in *; [done|].
    destruct (below_soft y); set_solver. }
  destruct (last (leading below_soft hist)) as [x|] eqn:El; cbn [fmap option_fmap option_map default].
  - specialize (Hle x eq_refl).
    replace (sat_sub (s_now s) (s_now x)) with (s_now s - s_now x) by (unfold sat_sub; lia).
    cbn [id]. zcases; (split; [done|]); intros _; try done.
    do 2 (split; [done|]); split; [exact Hn3'|]; cbn [below_soft_since_us].
    by rewrite last_leading_cons, Eb, El.
  - cbn [id]. replace (s_now s - s_now s) with 0 by lia.
    split; [done|]. intros _.
    do 2 (split; [done|]); split; [exact Hn3'|]; cbn [below_soft_since_us].
    by rewrite last_leading_cons, Eb, El.
Qed.

(** The samples of the phase are among those already seen. *)
Lemma spec_step_hist s ph hist' bound :
  (forall hist, ph = PCongested hist -> Forall (fun s' => s_now s' <= bound) hist) ->
  s_now s <= bound ->
  (spec_step s ph).2 = PCongested hist' ->
  Forall (fun s' => s_now s' <= bound) hist'.
Proof.
  intros Hph Hs. destruct ph as [|hist]; unfold spec_step.
  - destruct (_ <? _); [|done]. by intros [= <-].
  - specialize (Hph hist eq_refl).
    assert (Forall (fun s' => s_now s' <= bound) (s :: hist)) by (by constructor).
    destruct (_ || _); [by intros [= <-]|].
    destruct (last _); [destruct (_ <=? _)|]; [done|by intros [= <-]..].
Qed.

Lemma decisions_spec ss t ph :
  tracks t ph ->
  StronglySorted (fun a b => s_now a <= s_now b) ss -> Forall (fun s => 0 <= s_now s) ss ->
  (forall hist, ph = PCongested hist ->
     Forall (fun s => Forall (fun s' => s_now s' <= s_now s) hist) ss) ->
  decisions t ss = spec_decisions ph ss.
Proof.
  intros Ht Hs. revert t ph Ht. induction Hs as [|s ss Hs IH Hle]; intros t ph Ht H0 Hph; [done|].
  apply Forall_cons in H0 as [H0 H0']. cbn [decisions spec_decisions].
  pose proof (evaluate_step t ph s Ht H0) as Hstep.
  destruct (evaluate _ _ _ t) as [d t'].
  assert (forall s1 hist', s1 ∈ ss -> (spec_step s ph).2 = PCongested hist' ->
    Forall (fun s' => s_now s' <= s_now s1) hist') as Hnext.
  { intros s1 hist' Hin He. rewrite Forall_forall in Hle.
    apply (spec_step_hist s ph hist'); [|by apply Hle|done].
    intros hist E. specialize (Hph hist E). apply Forall_cons in Hph as [_ Hph].
    rewrite Forall_forall in Hph. by apply Hph. }
  destruct (spec_step s ph) as [d' ph'].
  destruct Hstep as [-> Htr].
  { intros hist E. specialize (Hph hist E). by apply Forall_cons in Hph as [Hph _]. }
  destruct d'; try done; f_equal; apply IH; auto;
    intros hist' E; apply Forall_forall; intros s1 Hin; by apply (Hnext s1 hist').
Qed.

(** * Properties *)

(** C30: The baseline.  For samples taken at non-decreasing times, the monotonic
    deque's front is the least delay reported within the window before the
    latest sample. *)
Theorem baseline_is_window_min window hist now :
  0 <= window ->
  StronglySorted (fun p q => p.1 <= q.1) hist -> Forall (fun p => 0 <= p.1) hist ->
  fst <$> last hist = Some now ->
  baseline_us (record_all window hist) = window_min window now hist.
Proof.
  intros Hw Hs Hp Hl. unfold baseline_us, window_min.
  rewrite (represents_min _ _ _ (record_all_represents _ _ _ Hw Hs Hp Hl)).
  f_equal. f_equal. apply filter_ext_Forall. eapply Forall_impl; [exact Hp|].
  intros p H. cbn in H. unfold sat_sub. lia.
Qed.

Lemma baseline_is_window_min_witness :
  let hist := [(0, 7); (4, 5); (6, 9); (12, 8)] in
  (0 <= 7 /\ StronglySorted (fun p q => p.1 <= q.1) hist /\ Forall (fun p => 0 <= p.1) hist /\
   fst <$> last hist = Some 12) /\
  baseline_us (record_all 7 hist) = Some 8.
Proof.
  intros hist.
  assert (StronglySorted (fun p q => p.1 <= q.1) hist) as H1
    by (repeat constructor; cbn; lia).
  assert (Forall (fun p => 0 <= p.1) hist) as H2 by (repeat constructor; cbn; lia).
  split; [by split_and!|].
  exact (baseline_is_window_min 7 hist 12 ltac:(lia) H1 H2 eq_refl).
Defined.

(** C31: Congestion decisions.  From a fresh tracker and up to the reset, on
    samples at non-decreasing times, the decisions are those of the
    specification over the samples since congestion began: enter above the
    soft threshold; reset when this sample and the two before it all exceed
    the hard threshold, or the send queue holds more than 4 MiB; leave when
    every sample of the last half second and more was below the soft
    threshold; and otherwise stay. *)
Theorem congestion_decisions ss :
  StronglySorted (fun a b => s_now a <= s_now b) ss -> Forall (fun s => 0 <= s_now s) ss ->
  decisions new ss = spec_decisions PStreaming ss.
Proof. intros Hs H0. by apply decisions_spec. Qed.

Lemma congestion_decisions_witness :
  let ss := [ {| s_now := 0; s_delta := 150000; s_bytes := 0 |};
              {| s_now := 1; s_delta := 50000; s_bytes := 0 |};
              {| s_now := 500001; s_delta := 50000; s_bytes := 0 |};
              {| s_now := 600000; s_delta := 150000; s_bytes := 0 |};
              {| s_now := 600001; s_delta := 50000; s_bytes := 4194305 |} ] in
  (StronglySorted (fun a b => s_now a <= s_now b) ss /\ Forall (fun s => 0 <= s_now s) ss) /\
  decisions new ss = [EnterCongested; Continue; ExitCongested; EnterCongested; ResetStream].
Proof.
  intros ss.
  assert (StronglySorted (fun a b => s_now a <= s_now b) ss) as H1
    by (repeat constructor; cbn; lia).
  assert (Forall (fun s => 0 <= s_now s) ss) as H2 by (repeat constructor; cbn; lia).
  split; [by split|].
  exact (congestion_decisions ss H1 H2).
Defined.
