(* ===== verification/QueueCircuitBreaker.v ===== *)
(** The client's queue circuit breaker: the model of
    [src/src/queue_circuit_breaker.rs]. *)

From S2P Require Import Prelude.
From S2P Require Import Messages.
From S2P Require Import Backpressure.

(** * Definitions *)

Module defaults.
Definition TRANSPORT_FEEDBACK_INTERVAL_US : Z := 100000.
Definition TRIP_THRESHOLD_US : Z :=
  Backpressure.defaults.MAX_VIDEO_QUEUE_DURATION_DELTA_US
  * Backpressure.defaults.HARD_THRESHOLD_CONSECUTIVE_COUNT
  + TRANSPORT_FEEDBACK_INTERVAL_US.
Definition REARM_THRESHOLD_US : Z := Backpressure.defaults.VIDEO_RATE_REDUCE_THRESHOLD_DELTA_US.
End defaults.

Record ClientQueueCircuitBreaker := {
  trip_threshold_us : Z;
  rearm_threshold_us : Z;
  tripped : bool;
}.

Definition with_thresholds (trip_threshold_us rearm_threshold_us : Z) :
    outcome ClientQueueCircuitBreaker :=
  if rearm_threshold_us <? trip_threshold_us then
    Done {| trip_threshold_us := trip_threshold_us; rearm_threshold_us := rearm_threshold_us;
            tripped := false |}
  else Panicked.

Definition new : outcome ClientQueueCircuitBreaker :=
  with_thresholds defaults.TRIP_THRESHOLD_US defaults.REARM_THRESHOLD_US.

Definition observe (oldest_queued_age_us : Z) (b : ClientQueueCircuitBreaker) :
    option KeyframeRequest * ClientQueueCircuitBreaker :=
  let set_tripped t :=
    {| trip_threshold_us := trip_threshold_us b; rearm_threshold_us := rearm_threshold_us b;
       tripped := t |} in
  if tripped b then
    (None, if oldest_queued_age_us <? rearm_threshold_us b then set_tripped false else b)
  else if trip_threshold_us b <? oldest_queued_age_us then
    (Some {| kr_reason := DecodeFailed |}, set_tripped true)
  else (None, b).

(** The breaker after a sequence of measurements. *)
Definition observe_all (b : ClientQueueCircuitBreaker) (ages : list Z) : ClientQueueCircuitBreaker :=
  fold_left (fun b a => (observe a b).2) ages b.

(** An episode is open: some age exceeded the trip threshold and none since
    has been below the re-arm threshold. *)
Definition episode_open (trip rearm : Z) (ages : list Z) : Prop :=
  exists pre a post, ages = pre ++ a :: post /\ trip < a /\ Forall (fun x => rearm <= x) post.

(** * Lemmas *)

Lemma observe_all_snoc b ages a : observe_all b (ages ++ [a]) = (observe a (observe_all b ages)).2.
Proof. unfold observe_all. by rewrite fold_left_app. Qed.

Lemma observe_thresholds a b :
  trip_threshold_us (observe a b).2 = trip_threshold_us b /\
  rearm_threshold_us (observe a b).2 = rearm_threshold_us b.
Proof. unfold observe. destruct (tripped b); zcases; done. Qed.

Lemma observe_all_thresholds b ages :
  trip_threshold_us (observe_all b ages) = trip_threshold_us b /\
  rearm_threshold_us (observe_all b ages) = rearm_threshold_us b.
Proof.
  induction ages as [|a ages IH] using rev_ind; [done|]. rewrite observe_all_snoc.
  destruct (observe_thresholds a (observe_all b ages)) as [-> ->]. exact IH.
Qed.

(** Whether an episode is open, one measurement later. *)
Lemma episode_open_snoc trip rearm ages a :
  rearm < trip ->
  episode_open trip rearm (ages ++ [a]) <-> trip < a \/ (episode_open trip rearm ages /\ rearm <= a).
Proof.
  intros Hlt. split.
  - intros (pre & x & post & E & Hx & Hpost).
    destruct post as [|y post _] using rev_ind.
    + apply app_inj_tail in E as [_ ->]. by left.
    + right. rewrite app_comm_cons, app_assoc in E. apply app_inj_tail in E as [-> ->].
      apply Forall_app in Hpost as [Hpost [Hy _]%Forall_cons_1]. split; [|done]. by exists pre, x, post.
  - intros [Ha | [(pre & x & post & -> & Hx & Hpost) Ha]].
    + exists ages, a, []. by repeat constructor.
    + exists pre, x, (post ++ [a]). split; [by rewrite <- app_assoc|]. split; [done|].
      apply Forall_app. by repeat constructor.
Qed.

Lemma tripped_open trip rearm b ages :
  with_thresholds trip rearm = Done b ->
  tripped (observe_all b ages) = true <-> episode_open trip rearm ages.
Proof.
  unfold with_thresholds. zcases; [|done]. intros [= <-].
  set (b := {| trip_threshold_us := trip; rearm_threshold_us := rearm; tripped := false |}).
  induction ages as [|a ages IH] using rev_ind.
  { cbn. split; [done|]. intros (pre & x & post & E & _). by destruct pre. }
  rewrite episode_open_snoc, <- IH, observe_all_snoc by done. unfold observe.
  destruct (observe_all_thresholds b ages) as [-> ->]. cbn [b trip_threshold_us rearm_threshold_us].
  destruct (tripped (observe_all b ages)) eqn:E; zcases; cbn; rewrite ?E; intuition (lia || done).
Qed.

(** * Properties *)

(** One request per episode.  After any measurements, an observation asks
    for a keyframe exactly when the age exceeds the trip threshold and no
    episode is open, that is, when since the last age above the threshold
    there has been one below the re-arm threshold; the request's reason is a
    decode error.  The default thresholds are accepted (1 s and 100 ms), and
    a pair without a gap between them is refused. *)
Theorem one_request_per_episode trip rearm b ages a :
  with_thresholds trip rearm = Done b ->
  let out := (observe a (observe_all b ages)).1 in
  (out = Some {| kr_reason := DecodeFailed |} <-> trip < a /\ ~ episode_open trip rearm ages) /\
  (out = None <-> a <= trip \/ episode_open trip rearm ages) /\
  (exists b0, new = Done b0 /\ trip_threshold_us b0 = 1000000 /\ rearm_threshold_us b0 = 100000) /\
  (forall t r, with_thresholds t r = Panicked <-> t <= r).
Proof.
  intros Hb out. pose proof (tripped_open _ _ _ ages Hb) as Ht.
  destruct (observe_all_thresholds b ages) as [E1 _].
  assert (trip_threshold_us b = trip) as E2.
  { revert Hb. unfold with_thresholds. zcases; [|done]. by intros [= <-]. }
  rewrite E2 in E1. split_and!.
  - subst out. unfold observe. rewrite E1, <- Ht.
    destruct (tripped _); zcases; cbn; intuition (lia || done).
  - subst out. unfold observe. rewrite E1, <- Ht.
    destruct (tripped _); zcases; cbn; intuition (lia || done).
  - by eexists.
  - intros t r. unfold with_thresholds. zcases; intuition (lia || done).
Qed.

Lemma one_request_per_episode_witness :
  let b := {| trip_threshold_us := 10; rearm_threshold_us := 2; tripped := false |} in
  with_thresholds 10 2 = Done b /\
  (observe 20 (observe_all b [11; 5; 1])).1 = Some {| kr_reason := DecodeFailed |}.
Proof.
  intros b. assert (with_thresholds 10 2 = Done b) as H by done. split; [exact H|].
  apply (proj2 (proj1 (one_request_per_episode 10 2 b [11; 5; 1] 20 H))).
  split; [done|]. intros Ho. by apply (tripped_open 10 2 b _ H) in Ho.
Defined.
