(* ===== verification/VideoChannel.v ===== *)
(** One video channel of the server: the model of [src/src/video_channel.rs],
    which ties the channel and instance state machines to the backpressure
    trackers. *)

From S2P Require Import Prelude.
From S2P Require Import Messages.
From S2P Require Import ChannelSm.
From S2P Require Import VideoSm.
From S2P Require Import Backpressure.
From S2P Require Import QueueCircuitBreaker.

(** * Definitions *)

Definition KEYFRAME_REQUEST_MIN_INTERVAL_US : Z := QueueCircuitBreaker.defaults.TRIP_THRESHOLD_US.

Inductive KeyframeRequestIgnored :=
| RateLimited (next_allowed_at_us : Z)
| NotStreaming.

Inductive KeyframeRequestDecision :=
| Reopen
| Ignored (why : KeyframeRequestIgnored).

Record VideoChannel := {
  channel_sm : ChannelSm;
  baseline : BaselineTracker;
  congestion : CongestionTracker;
  instance_sm : VideoInstanceSm;
  generation : Z;
  last_reopen_us : option Z;
}.

Definition new (generation : Z) : VideoChannel :=
  {| channel_sm := ChannelSm.new;
     baseline := with_default_window;
     congestion := Backpressure.new;
     instance_sm := VideoSm.new;
     generation := generation;
     last_reopen_us := None |}.

Definition channel_state (c : VideoChannel) : ChannelState := ChannelSm.state (channel_sm c).
Definition instance_state (c : VideoChannel) : InstanceState := VideoSm.state (instance_sm c).
Definition channel_baseline_us (c : VideoChannel) : option Z := Backpressure.baseline_us (baseline c).

Definition set_channel_sm (s : ChannelSm) (c : VideoChannel) : VideoChannel :=
  {| channel_sm := s; baseline := baseline c; congestion := congestion c;
     instance_sm := instance_sm c; generation := generation c; last_reopen_us := last_reopen_us c |}.

Definition set_instance_sm (s : VideoInstanceSm) (c : VideoChannel) : VideoChannel :=
  {| channel_sm := channel_sm c; baseline := baseline c; congestion := congestion c;
     instance_sm := s; generation := generation c; last_reopen_us := last_reopen_us c |}.

Definition set_last_reopen_us (t : option Z) (c : VideoChannel) : VideoChannel :=
  {| channel_sm := channel_sm c; baseline := baseline c; congestion := congestion c;
     instance_sm := instance_sm c; generation := generation c; last_reopen_us := t |}.

Definition deactivate (c : VideoChannel) : VideoChannel :=
  set_channel_sm (ChannelSm.deactivate (channel_sm c)) c.

Definition activate (c : VideoChannel) : VideoChannel :=
  set_channel_sm (ChannelSm.activate (channel_sm c)) c.

(** [self.instance_sm.<op>()?]: the instance keeps what the call did to it. *)
Definition on_instance (op : VideoSm.transition) (c : VideoChannel) :
    result ProtocolViolation unit * VideoChannel :=
  let '(r, i) := op (instance_sm c) in (r, set_instance_sm i c).

(** Sequencing of two calls with [?]. *)
Definition and_then (op1 op2 : VideoChannel -> result ProtocolViolation unit * VideoChannel)
    (c : VideoChannel) : result ProtocolViolation unit * VideoChannel :=
  match op1 c with
  | (Ok _, c') => op2 c'
  | (Err v, c') => (Err v, c')
  end.

Definition mark_instance_streaming : VideoChannel -> result ProtocolViolation unit * VideoChannel :=
  and_then (on_instance on_prologue_sent)
  (and_then (on_instance on_generation_sent)
  (and_then (on_instance on_encoder_config_sent)
  (and_then (on_instance on_first_idr_sent)
  (fun c => (Ok tt, set_channel_sm (on_instance_streaming (channel_sm c)) c))))).

Definition on_feedback (now_us client_queue_delay_us app_send_queue_bytes : Z) (c : VideoChannel) :
    result ProtocolViolation BackpressureDecision * VideoChannel :=
  let bl := record now_us client_queue_delay_us (baseline c) in
  let base := default client_queue_delay_us (Backpressure.baseline_us bl) in
  let delta := sat_sub client_queue_delay_us base in
  let '(decision, cong) := evaluate now_us delta app_send_queue_bytes (congestion c) in
  let c :=
    {| channel_sm := channel_sm c; baseline := bl; congestion := cong;
       instance_sm := instance_sm c; generation := generation c;
       last_reopen_us := last_reopen_us c |} in
  let after :=
    match decision with
    | Continue => (Ok tt, c)
    | EnterCongested => on_instance on_congested c
    | ExitCongested => on_instance on_recovered c
    | ResetStream =>
        and_then (on_instance VideoSm.on_reset)
          (fun c => (Ok tt, set_last_reopen_us (Some now_us)
                              (set_channel_sm (ChannelSm.on_reset (channel_sm c)) c))) c
    end in
  match after with
  | (Ok _, c) => (Ok decision, c)
  | (Err v, c) => (Err v, c)
  end.

Definition on_keyframe_request (now_us : Z) (request : KeyframeRequest) (c : VideoChannel) :
    KeyframeRequestDecision * VideoChannel :=
  let limited :=
    match last_reopen_us c with
    | Some last =>
        let next_allowed_at_us := sat_add 64 last KEYFRAME_REQUEST_MIN_INTERVAL_US in
        if now_us <? next_allowed_at_us then Some next_allowed_at_us else None
    | None => None
    end in
  match limited with
  | Some next_allowed_at_us => (Ignored (RateLimited next_allowed_at_us), c)
  | None =>
      match on_instance on_client_requested_reset c with
      | (Err _, c) => (Ignored NotStreaming, c)
      | (Ok _, c) =>
          (Reopen, set_last_reopen_us (Some now_us)
                     (set_channel_sm (ChannelSm.on_reset (channel_sm c)) c))
      end
  end.

Definition prepare_reopen (c : VideoChannel) : Z * VideoChannel :=
  let g := wrap 64 (generation c + 1) in
  (g, {| channel_sm := channel_sm c; baseline := baseline c; congestion := Backpressure.new;
         instance_sm := VideoSm.new; generation := g; last_reopen_us := last_reopen_us c |}).

(** ** The server's use of a channel *)

Inductive call :=
| MarkStreaming
| Feedback (now delay bytes : Z)
| KeyframeReq (now : Z) (request : KeyframeRequest)
| PrepareReopen
| DeactivateCall
| ActivateCall.

Definition invoke (c : VideoChannel) (x : call) : VideoChannel :=
  match x with
  | MarkStreaming => (mark_instance_streaming c).2
  | Feedback now delay bytes => (on_feedback now delay bytes c).2
  | KeyframeReq now request => (on_keyframe_request now request c).2
  | PrepareReopen => (prepare_reopen c).2
  | DeactivateCall => deactivate c
  | ActivateCall => activate c
  end.

Definition run (g : Z) (calls : list call) : VideoChannel := fold_left invoke calls (new g).

(** The documented use: an instance is marked streaming once, right after it
    was made; feedback is fed while it is live; a reopen is prepared once it
    was reset. *)
Definition permitted (c : VideoChannel) (x : call) : Prop :=
  match x, instance_state c with
  | MarkStreaming, Created => True
  | Feedback _ _ _, (Streaming | Congested) => True
  | PrepareReopen, Closed _ => True
  | (KeyframeReq _ _ | DeactivateCall | ActivateCall), _ => True
  | _, _ => False
  end.

Inductive conforming (g : Z) : list call -> VideoChannel -> Prop :=
| conf_new : conforming g [] (new g)
| conf_call calls c x :
    conforming g calls c -> permitted c x -> conforming g (calls ++ [x]) (invoke c x).

(** The samples a run fed, whatever the instance they were fed to. *)
Definition fed (x : call) : list (Z * Z) :=
  match x with Feedback now delay _ => [(now, delay)] | _ => [] end.

Definition is_reopen (x : call) : bool := match x with PrepareReopen => true | _ => false end.

Definition count_reopens (calls : list call) : Z := Z.of_nat (length (List.filter is_reopen calls)).

(** The time of the last reset decision of a run: by backpressure or at a
    client's request. *)
Definition reset_time (c : VideoChannel) (x : call) : option Z :=
  match x with
  | Feedback now delay bytes =>
      match (on_feedback now delay bytes c).1 with Ok ResetStream => Some now | _ => None end
  | KeyframeReq now request =>
      match (on_keyframe_request now request c).1 with Reopen => Some now | _ => None end
  | _ => None
  end.

Fixpoint last_reset (c : VideoChannel) (calls : list call) (acc : option Z) : option Z :=
  match calls with
  | [] => acc
  | x :: calls' =>
      last_reset (invoke c x) calls'
        (match reset_time c x with Some t => Some t | None => acc end)
  end.

(** * Lemmas *)

(** What ties the instance's state to the tracker's flag. *)
Definition synced (c : VideoChannel) : Prop :=
  match instance_state c with
  | Created => instance_sm c = VideoSm.new /\ congested (congestion c) = false
  | Configuring => False
  | Streaming => congested (congestion c) = false
  | Congested => congested (congestion c) = true
  | Closed r => r = VideoSm.Reset
  end.

Lemma evaluate_congested now delta bytes t :
  let '(d, t') := evaluate now delta bytes t in
  match d with
  | Continue => congested t' = congested t
  | EnterCongested => congested t = false /\ congested t' = true
  | ExitCongested => congested t = true /\ congested t' = false
  | ResetStream => congested t = true
  end.
Proof.
  unfold evaluate. destruct (congested t) eqn:E; cbn [negb].
  - destruct (_ || _); [done|]. destruct (_ <? _); [|done].
    destruct (below_soft_since_us t); [|done]. by destruct (_ <=? _).
  - destruct (_ <? _); done.
Qed.

(** [on_feedback] on a live instance: accepted, and the instance follows the
    decision. *)
Lemma on_feedback_live now delay bytes c :
  synced c -> instance_state c = Streaming \/ instance_state c = Congested ->
  exists d c', on_feedback now delay bytes c = (Ok d, c') /\ synced c' /\
    instance_state c' =
      match d with
      | Continue => instance_state c
      | EnterCongested => Congested
      | ExitCongested => Streaming
      | ResetStream => Closed VideoSm.Reset
      end /\
    channel_state c' = match d with ResetStream => Recovering | _ => channel_state c end /\
    last_reopen_us c' = match d with ResetStream => Some now | _ => last_reopen_us c end /\
    generation c' = generation c /\ baseline c' = record now delay (baseline c).
Proof.
  intros Hs Hl. unfold on_feedback, synced, instance_state in *.
  set (delta := sat_sub _ _).
  pose proof (evaluate_congested now delta bytes (congestion c)) as He.
  destruct (evaluate now delta bytes (congestion c)) as [d t'].
  destruct c as [ch bl cg [st sg se] g lr]. cbn in *.
  destruct d, Hl as [-> | ->]; cbn in *; (try (destruct He; congruence)); (try congruence);
    eexists _, _; (split; [done|]); cbn; split_and!; done || congruence || by destruct He.
Qed.

Lemma mark_streaming_created c :
  instance_sm c = VideoSm.new ->
  mark_instance_streaming c
  = (Ok tt, set_channel_sm (on_instance_streaming (channel_sm c)) (set_instance_sm (live false) c)).
Proof. intros H. destruct c as [ch bl cg i g lr]. cbn in H. by subst. Qed.

Lemma keyframe_cases now r c :
  let '(d, c') := on_keyframe_request now r c in
  match d with
  | Reopen =>
      (instance_state c = Streaming \/ instance_state c = Congested) /\
      instance_state c' = Closed VideoSm.Reset /\ channel_state c' = Recovering /\
      last_reopen_us c' = Some now /\ generation c' = generation c /\ baseline c' = baseline c
  | Ignored _ => c' = c
  end.
Proof.
  unfold on_keyframe_request, on_instance, on_client_requested_reset, instance_state.
  destruct (match last_reopen_us c with Some _ => _ | None => _ end); [done|].
  destruct c as [ch bl cg [st sg se] g lr]. cbn.
  destruct st; cbn; try done; split_and!; auto.
Qed.

(** Every permitted call keeps the instance and the tracker in step. *)
Lemma synced_invoke c x : synced c -> permitted c x -> synced (invoke c x).
Proof.
  intros Hs Hp. destruct x; cbn [invoke].
  - unfold permitted in Hp. destruct (instance_state c) eqn:E; try done.
    unfold synced in Hs. rewrite E in Hs. destruct Hs as [Hi Hc].
    by rewrite mark_streaming_created by done.
  - destruct (on_feedback_live now delay bytes c Hs) as (d & c' & -> & ? & _); [|done].
    unfold permitted in Hp. destruct (instance_state c); naive_solver.
  - pose proof (keyframe_cases now request c) as Hk.
    destruct (on_keyframe_request now request c) as [[|] c']; [|by subst].
    destruct Hk as (_ & E & _). unfold synced. cbn [snd]. by rewrite E.
  - done.
  - exact Hs.
  - exact Hs.
Qed.

Lemma conforming_synced g calls c : conforming g calls c -> synced c.
Proof. induction 1 as [|calls c x _ IH Hp]; [done|]. by apply synced_invoke. Qed.

Lemma conforming_run g calls c : conforming g calls c -> c = run g calls.
Proof.
  induction 1 as [|calls c x _ -> Hp]; [done|]. unfold run. by rewrite fold_left_app.
Qed.

Lemma on_feedback_keeps now delay bytes c :
  let c' := (on_feedback now delay bytes c).2 in
  baseline c' = record now delay (baseline c) /\ generation c' = generation c /\
  last_reopen_us c' = match reset_time c (Feedback now delay bytes) with
                      | Some t => Some t | None => last_reopen_us c end.
Proof.
  cbn zeta. unfold reset_time, on_feedback. destruct (evaluate _ _ _ _) as [d t'].
  destruct c as [ch bl cg [st sg se] g lr]. destruct d, st; cbn; done.
Qed.

Lemma mark_keeps c :
  let c' := (mark_instance_streaming c).2 in
  baseline c' = baseline c /\ generation c' = generation c /\ last_reopen_us c' = last_reopen_us c.
Proof. destruct c as [ch bl cg [st sg se] g lr]. by destruct st, sg, se. Qed.

(** The fields that outlive an instance. *)
Lemma invoke_keeps c x :
  baseline (invoke c x) = fold_left (fun t p => record p.1 p.2 t) (fed x) (baseline c) /\
  generation (invoke c x) = (if is_reopen x then wrap 64 (generation c + 1) else generation c) /\
  last_reopen_us (invoke c x) = match reset_time c x with Some t => Some t | None => last_reopen_us c end.
Proof.
  destruct x; cbn [invoke fed fold_left is_reopen fst snd]; try done.
  - apply mark_keeps.
  - apply on_feedback_keeps.
  - unfold reset_time. pose proof (keyframe_cases now request c) as Hk.
    destruct (on_keyframe_request now request c) as [[|] c']; cbn in *; [|by subst].
    destruct Hk as (_ & _ & _ & -> & -> & ->). done.
Qed.

Lemma run_channel_snoc g calls x : run g (calls ++ [x]) = invoke (run g calls) x.
Proof. unfold run. by rewrite fold_left_app. Qed.

Lemma run_last_reset calls c acc :
  last_reopen_us c = acc -> last_reopen_us (fold_left invoke calls c) = last_reset c calls acc.
Proof.
  revert c acc. induction calls as [|x calls IH]; intros c acc <-; [done|].
  cbn [fold_left last_reset]. apply IH. apply invoke_keeps.
Qed.

(** * Properties *)

(** Feedback never fails.  However a server interleaves the permitted
    calls, a sample fed to a live instance is accepted, and the instance, the
    channel and the reopen clock move exactly as the returned decision says;
    an instance just made is marked streaming without refusal and makes the
    channel live; and a client's request is honoured only while live. *)
Theorem conforming_accepts g calls c :
  conforming g calls c ->
  (forall now delay bytes,
     instance_state c = Streaming \/ instance_state c = Congested ->
     exists d c', on_feedback now delay bytes c = (Ok d, c') /\
       instance_state c' =
         match d with
         | Continue => instance_state c
         | EnterCongested => Congested
         | ExitCongested => Streaming
         | ResetStream => Closed VideoSm.Reset
         end /\
       channel_state c' = match d with ResetStream => Recovering | _ => channel_state c end /\
       last_reopen_us c' = match d with ResetStream => Some now | _ => last_reopen_us c end) /\
  (instance_state c = Created ->
     exists c', mark_instance_streaming c = (Ok tt, c') /\
       instance_state c' = Streaming /\ channel_state c' = Live) /\
  instance_state c ≠ Configuring /\
  (forall r, instance_state c = Closed r -> r = VideoSm.Reset).
Proof.
  intros Hc. pose proof (conforming_synced _ _ _ Hc) as Hs. split_and!.
  - intros now delay bytes Hl.
    destruct (on_feedback_live now delay bytes c Hs Hl) as (d & c' & E & _ & H1 & H2 & H3 & _).
    by exists d, c'.
  - intros E. unfold synced in Hs. rewrite E in Hs. destruct Hs as [Hi _].
    rewrite mark_streaming_created by done. by eexists.
  - intros E. unfold synced in Hs. by rewrite E in Hs.
  - intros r E. unfold synced in Hs. by rewrite E in Hs.
Qed.

Lemma conforming_accepts_witness :
  let c := run 0 [MarkStreaming] in
  conforming 0 [MarkStreaming] c /\
  (exists d c', on_feedback 5 7 0 c = (Ok d, c')) /\ instance_state c ≠ Configuring.
Proof.
  intros c. assert (conforming 0 [MarkStreaming] c) as H.
  { apply (conf_call 0 [] (new 0) MarkStreaming); [constructor|done]. }
  split; [exact H|].
  destruct (conforming_accepts 0 [MarkStreaming] c H) as (Hf & _ & Hn & _).
  split; [|exact Hn]. destruct (Hf 5 7 0) as (d & c' & E & _); [by left|]. by exists d, c'.
Defined.

(** What survives a reopen.  After any calls at all, in any order, the
    baseline tracker has recorded exactly the samples fed since the channel
    was made, across every generation, and the generation is the initial one
    plus the number of reopens, at 64 bits. *)
Theorem baseline_spans_generations g calls :
  in_width 64 g ->
  baseline (run g calls)
    = record_all Backpressure.defaults.VIDEO_QUEUE_BASELINE_WINDOW_US (concat (map fed calls)) /\
  generation (run g calls) = wrap 64 (g + count_reopens calls).
Proof.
  intros Hg. induction calls as [|x calls IH] using rev_ind.
  { split; [done|]. unfold count_reopens. cbn. rewrite Z.add_0_r. by rewrite wrap_small. }
  destruct IH as [IH1 IH2]. rewrite run_channel_snoc.
  destruct (invoke_keeps (run g calls) x) as (-> & -> & _). rewrite IH1, IH2. split.
  - rewrite map_app, concat_app. cbn [map concat]. rewrite app_nil_r.
    unfold record_all. by rewrite fold_left_app.
  - unfold count_reopens. rewrite List.filter_app, length_app. cbn [List.filter].
    unfold wrap. destruct (is_reopen x); cbn [length]; [|f_equal; lia].
    rewrite Zplus_mod_idemp_l. f_equal. lia.
Qed.

Lemma baseline_spans_generations_witness :
  let calls := [MarkStreaming; Feedback 0 900 0; KeyframeReq 1 {| kr_reason := Manual |};
                PrepareReopen; MarkStreaming; Feedback 2 950 0] in
  in_width 64 0 /\
  baseline (run 0 calls)
    = record_all Backpressure.defaults.VIDEO_QUEUE_BASELINE_WINDOW_US [(0, 900); (2, 950)] /\
  generation (run 0 calls) = 1.
Proof.
  intros calls. assert (in_width 64 0) as H by done. split; [exact H|].
  exact (baseline_spans_generations 0 calls H).
Defined.

(** Keyframe requests are rate limited.  After any calls, a request at
    [now] reopens the stream exactly when the instance is live and either no
    reset was ever decided or the last one, of either kind, is at least one
    second old; a request within that second is refused with the time from
    which one would be honoured, and a refused request changes nothing. *)
Theorem keyframe_rate_limit g calls now r :
  let c := run g calls in
  let next := (fun t => sat_add 64 t 1000000) <$> last_reset (new g) calls None in
  let too_soon := match next with Some t => now <? t | None => false end in
  let live := bool_decide (instance_state c = Streaming \/ instance_state c = Congested) in
  let '(d, c') := on_keyframe_request now r c in
  d = (if too_soon then Ignored (RateLimited (default 0 next))
       else if live then Reopen else Ignored NotStreaming) /\
  (d ≠ Reopen -> c' = c) /\
  (d = Reopen -> last_reset (new g) (calls ++ [KeyframeReq now r]) None = Some now /\
                 instance_state c' = Closed VideoSm.Reset /\ channel_state c' = Recovering).
Proof.
  intros c next too_soon live. pose proof (keyframe_cases now r c) as Hk.
  assert (last_reopen_us c = last_reset (new g) calls None) as Hl by (by apply run_last_reset).
  assert (forall c', on_keyframe_request now r c = (Reopen, c') ->
    last_reset (new g) (calls ++ [KeyframeReq now r]) None = last_reopen_us c') as Hn.
  { intros c' E. rewrite <- (run_last_reset _ (new g) None) by done.
    fold (run g (calls ++ [KeyframeReq now r])). rewrite run_channel_snoc. cbn [invoke]. fold c. by rewrite E. }
  assert ((on_keyframe_request now r c).1 =
    (if too_soon then Ignored (RateLimited (default 0 next))
     else if live then Reopen else Ignored NotStreaming)) as Hd.
  { subst too_soon next live. unfold on_keyframe_request. rewrite Hl.
    change KEYFRAME_REQUEST_MIN_INTERVAL_US with 1000000.
    destruct (last_reset (new g) calls None) as [t|]; cbn [fmap option_fmap option_map default];
      [destruct (now <? sat_add 64 t 1000000); [done|]|];
      unfold on_instance, on_client_requested_reset, instance_state;
      destruct (VideoSm.state (instance_sm c)); cbn;
      repeat (rewrite bool_decide_true by auto); repeat (rewrite bool_decide_false by naive_solver); done. }
  destruct (on_keyframe_request now r c) as [d c']. cbn [fst] in Hd. split; [exact Hd|].
  destruct d; cbn in Hk; [|by split].
  split; [done|]. intros _. destruct Hk as (_ & H1 & H2 & H3 & _).
  rewrite (Hn c' eq_refl). by rewrite H3.
Qed.
