(* ===== verification/MonitorManager.v ===== *)
(** The channels of one connection and the focused monitor: the model of
    [src/src/monitor_manager.rs]. *)

From S2P Require Import Prelude.
From S2P Require Import ChannelSm.
From S2P Require Import VideoChannel.

(** * Definitions *)

Record UnknownMonitor := { unknown_id : Z }.

Record MonitorManager := {
  channels : gmap Z VideoChannel;
  active_monitor_id : option Z;
}.

Definition new : MonitorManager := {| channels := ∅; active_monitor_id := None |}.

Definition add_channel (monitor_id : Z) (channel : VideoChannel) (m : MonitorManager) : MonitorManager :=
  {| channels := <[monitor_id := channel]> (channels m);
     active_monitor_id :=
       match active_monitor_id m with None => Some monitor_id | Some a => Some a end |}.

Definition channel (m : MonitorManager) (monitor_id : Z) : option VideoChannel :=
  channels m !! monitor_id.

(** [channel_mut], followed by what the caller does to the channel. *)
Definition channel_mut (f : VideoChannel -> VideoChannel) (monitor_id : Z) (m : MonitorManager) :
    MonitorManager :=
  {| channels := alter f monitor_id (channels m); active_monitor_id := active_monitor_id m |}.

Definition is_registered (m : MonitorManager) (monitor_id : Z) : bool :=
  bool_decide (is_Some (channels m !! monitor_id)).

(** The loop over the map visits every channel once, in any order. *)
Definition set_active_monitor (monitor_id : Z) (m : MonitorManager) :
    result UnknownMonitor unit * MonitorManager :=
  if negb (is_registered m monitor_id) then (Err {| unknown_id := monitor_id |}, m)
  else
    (Ok tt,
     {| channels :=
          map_imap (fun id c =>
            Some (if id =? monitor_id then VideoChannel.activate c else VideoChannel.deactivate c))
            (channels m);
        active_monitor_id := Some monitor_id |}).

(** ** Runs *)

Inductive call :=
| AddChannel (monitor_id : Z) (c : VideoChannel)
| SetActive (monitor_id : Z)
| OnChannel (monitor_id : Z) (x : VideoChannel.call).

Definition invoke (m : MonitorManager) (x : call) : MonitorManager :=
  match x with
  | AddChannel id c => add_channel id c m
  | SetActive id => (set_active_monitor id m).2
  | OnChannel id x => channel_mut (fun c => VideoChannel.invoke c x) id m
  end.

Definition run (calls : list call) : MonitorManager := fold_left invoke calls new.

(** * Lemmas *)

Lemma lookup_set_active m monitor_id id :
  is_registered m monitor_id = true ->
  channel (set_active_monitor monitor_id m).2 id
  = (fun c => if id =? monitor_id then VideoChannel.activate c else VideoChannel.deactivate c)
      <$> channel m id.
Proof.
  intros Hr. unfold set_active_monitor, channel. rewrite Hr. cbn [negb snd channels].
  rewrite map_lookup_imap. by destruct (channels m !! id).
Qed.

Lemma activate_state c :
  channel_state (VideoChannel.activate c)
  = match channel_state c with Paused => Live | s => s end.
Proof. destruct c as [[[] ? ?] ? ? ? ? ?]; done. Qed.

Lemma deactivate_state c :
  channel_state (VideoChannel.deactivate c)
  = match channel_state c with Live => Paused | s => s end.
Proof. destruct c as [[[] ? ?] ? ? ? ? ?]; done. Qed.

(** * Properties *)

(** Moving the focus.  For an unknown monitor nothing changes; otherwise
    the monitor becomes the active one, its channel goes live if it was
    paused, every other live channel is paused, channels in other states keep
    them, and everything else about each channel (instance, generation,
    baseline, backoff) is untouched.  So no other channel is live and the
    focused one is not paused. *)
Theorem focus_is_exclusive m monitor_id :
  let '(r, m') := set_active_monitor monitor_id m in
  match channel m monitor_id with
  | None => r = Err {| unknown_id := monitor_id |} /\ m' = m
  | Some _ =>
      r = Ok tt /\ active_monitor_id m' = Some monitor_id /\
      (forall id c, channel m id = Some c ->
         exists c', channel m' id = Some c' /\
           channel_state c' =
             (if decide (id = monitor_id)
              then match channel_state c with Paused => Live | s => s end
              else match channel_state c with Live => Paused | s => s end) /\
           instance_sm c' = instance_sm c /\ generation c' = generation c /\
           baseline c' = baseline c /\ congestion c' = congestion c /\
           retry_attempt (channel_sm c') = retry_attempt (channel_sm c) /\
           next_retry_allowed_at_us (channel_sm c') = next_retry_allowed_at_us (channel_sm c)) /\
      (forall id c', channel m' id = Some c' ->
         (id = monitor_id -> channel_state c' ≠ Paused) /\
         (id ≠ monitor_id -> channel_state c' ≠ Live))
  end.
Proof.
  pose proof (lookup_set_active m monitor_id) as Hl.
  unfold set_active_monitor in *. unfold is_registered, channel in *.
  destruct (channels m !! monitor_id) as [c0|]; cbn [negb is_Some] in *.
  2: { by rewrite bool_decide_false by (by intros [? ?]). }
  rewrite bool_decide_true in * by eauto. cbn [negb fst snd active_monitor_id] in *.
  split; [done|]. split; [done|]. split.
  - intros id c Hc. eexists. rewrite (Hl _ eq_refl), Hc. split; [done|].
    destruct (Z.eqb_spec id monitor_id); [rewrite decide_True by done|rewrite decide_False by done].
    + split; [apply activate_state|]. destruct (activate_backoff (channel_sm c)). done.
    + split; [apply deactivate_state|]. destruct (deactivate_backoff (channel_sm c)). done.
  - intros id c' Hc'. rewrite (Hl _ eq_refl) in Hc'.
    destruct (channels m !! id) as [c|]; [|done]. cbn in Hc'. injection Hc' as <-.
    destruct (Z.eqb_spec id monitor_id).
    + rewrite activate_state. by destruct (channel_state c).
    + rewrite deactivate_state. by destruct (channel_state c).
Qed.

(** An unfocused channel that is recovering when the focus moves away is not
    paused by it, and goes live when its replacement instance streams. *)
Example unfocused_goes_live :
  let m := run [AddChannel 1 (VideoChannel.new 0); AddChannel 2 (VideoChannel.new 0);
                OnChannel 1 MarkStreaming; SetActive 2; OnChannel 2 MarkStreaming; SetActive 1;
                OnChannel 2 (KeyframeReq 0 {| Messages.kr_reason := Messages.Manual |});
                OnChannel 2 PrepareReopen; OnChannel 2 MarkStreaming] in
  active_monitor_id m = Some 1 /\ (channel_state <$> channel m 2) = Some Live.
Proof. by vm_compute. Qed.
