(* ===== verification/ClientDisplay.v ===== *)
(** The client's display buffer: the model of [src/src/client_display.rs]. *)

From S2P Require Import Prelude.
From S2P Require Import Messages.

Section client_display.
Context {F : Type}.

(** * Definitions *)

Inductive SubmitOutcome := Displayed | DiscardedStaleGeneration.

Record ClientDisplay := {
  current_generation : option Z;
  displayed_frame : option F;
  last_displayed_frame_id : option Z;
}.

Definition new : ClientDisplay :=
  {| current_generation := None; displayed_frame := None; last_displayed_frame_id := None |}.

Definition would_display (d : ClientDisplay) (header : VideoFrameHeader) : bool :=
  match current_generation d with
  | Some current => current <=? vfh_generation header
  | None => true
  end.

Definition submit_frame (header : VideoFrameHeader) (decoded : F) (d : ClientDisplay) :
    SubmitOutcome * ClientDisplay :=
  if negb (would_display d header) then (DiscardedStaleGeneration, d)
  else
    (Displayed,
     {| current_generation := Some (vfh_generation header);
        displayed_frame := Some decoded;
        last_displayed_frame_id := Some (frame_id header) |}).

(** The display after a sequence of frames. *)
Definition submit_all (frames : list (VideoFrameHeader * F)) : ClientDisplay :=
  fold_left (fun d p => (submit_frame p.1 p.2 d).2) frames new.

(** The newest generation of a sequence of frames. *)
Definition max_generation (frames : list (VideoFrameHeader * F)) : option Z :=
  fold_left (fun m p => Some (match m with Some g => Z.max g (vfh_generation p.1)
                                         | None => vfh_generation p.1 end)) frames None.

(** * Lemmas *)

Lemma submit_all_snoc frames p : submit_all (frames ++ [p]) = (submit_frame p.1 p.2 (submit_all frames)).2.
Proof. unfold submit_all. by rewrite fold_left_app. Qed.

Lemma max_generation_snoc frames p :
  max_generation (frames ++ [p])
  = Some (match max_generation frames with Some g => Z.max g (vfh_generation p.1)
                                       | None => vfh_generation p.1 end).
Proof. unfold max_generation. by rewrite fold_left_app. Qed.

Lemma current_is_max frames : current_generation (submit_all frames) = max_generation frames.
Proof.
  induction frames as [|p frames IH] using rev_ind; [done|].
  rewrite submit_all_snoc, max_generation_snoc, <- IH. unfold submit_frame, would_display.
  destruct (current_generation (submit_all frames)) as [g|] eqn:E; [|done].
  zcases; cbn [negb snd current_generation]; rewrite ?E; f_equal; lia.
Qed.

(** * Properties *)

(** Generation gating.  After any frames, in any order of generations, the
    display shows the last received frame of the newest generation seen, and
    a further frame is displayed exactly when its generation is at least
    that one; otherwise it is discarded and nothing changes. *)
Theorem shows_last_of_newest frames :
  let d := submit_all frames in
  current_generation d = max_generation frames /\
  (forall g, max_generation frames = Some g ->
     exists p, last (filter (fun p => vfh_generation p.1 = g) frames) = Some p /\
       displayed_frame d = Some p.2 /\ last_displayed_frame_id d = Some (frame_id p.1)) /\
  (forall h f, submit_frame h f d =
     if match max_generation frames with Some g => vfh_generation h <? g | None => false end
     then (DiscardedStaleGeneration, d)
     else (Displayed,
           {| current_generation := Some (vfh_generation h); displayed_frame := Some f;
              last_displayed_frame_id := Some (frame_id h) |})).
Proof.
  intros d. split; [apply current_is_max|]. split.
  - subst d. induction frames as [|p frames IH] using rev_ind; [done|].
    rewrite submit_all_snoc, max_generation_snoc. intros g [= Hg].
    rewrite filter_app, filter_cons, filter_nil.
    unfold submit_frame, would_display. rewrite current_is_max.
    destruct (max_generation frames) as [g0|].
    + destruct (Z.leb_spec g0 (vfh_generation p.1)); cbn [negb snd].
      * rewrite decide_True by lia. exists p. by rewrite last_snoc.
      * rewrite decide_False by lia. rewrite app_nil_r. apply IH. f_equal. lia.
    + cbn [negb snd]. rewrite decide_True by done. exists p. by rewrite last_snoc.
  - intros h f. unfold submit_frame, would_display. subst d. rewrite current_is_max.
    destruct (max_generation frames) as [g|]; [|done]. rewrite Z.leb_antisym.
    by destruct (vfh_generation h <? g).
Qed.

End client_display.
Arguments ClientDisplay : clear implicits.
