(* ===== verification/SessionStore.v ===== *)
(** The store of suspended sessions: the model of
    [src/src/session_store.rs].  Every operation holds the store's lock for
    its whole body, so concurrent callers see some sequence of them; the expiry
    tasks are timers that fire at any time from their deadline on. *)

From S2P Require Import Prelude.
From S2P Require Import ConnectionSm.

(** * Definitions *)

(** A [u8; 16] session id and a [u8; 32] token. *)
Definition SessionId : Type := list Z.
Definition Token : Type := list Z.

Record SuspendedSession := {
  reconnect_token : Token;
  connection_sm : ConnectionSm;
  ss_granted_permissions : Z;
  last_generation : Z;
  ss_user_id : string;
}.

Inductive ReconnectError := NoSuchSession | TokenMismatch.

Record SessionStore := { sessions : gmap SessionId SuspendedSession }.

Definition new : SessionStore := {| sessions := ∅ |}.

(** [subtle]'s constant-time comparison. *)
Class CtEq := ct_eq : Token -> Token -> bool.
Class CtEqLaws `{CtEq} := ct_eq_true : forall a b, ct_eq a b = true <-> a = b.

(** A comparison for concrete runs. *)
Definition plain_ct_eq : CtEq := fun a b => bool_decide (a = b).

Lemma plain_ct_eq_laws : @CtEqLaws plain_ct_eq.
Proof. intros a b. apply bool_decide_eq_true. Qed.

Section session_store.
Context `{CtEq}.

Definition suspend (session_id : SessionId) (session : SuspendedSession) (s : SessionStore) :
    SessionStore :=
  {| sessions := <[session_id := session]> (sessions s) |}.

Definition try_reconnect (session_id : SessionId) (token : Token) (s : SessionStore) :
    result ReconnectError SuspendedSession * SessionStore :=
  match sessions s !! session_id with
  | Some entry =>
      if ct_eq (reconnect_token entry) token then
        (Ok entry, {| sessions := delete session_id (sessions s) |})
      else (Err TokenMismatch, s)
  | None => (Err NoSuchSession, s)
  end.

Definition expire (session_id : SessionId) (s : SessionStore) : SessionStore :=
  {| sessions := delete session_id (sessions s) |}.

Definition expire_if_token_matches (session_id : SessionId) (token : Token) (s : SessionStore) :
    SessionStore :=
  match sessions s !! session_id with
  | Some entry =>
      if ct_eq (reconnect_token entry) token then {| sessions := delete session_id (sessions s) |}
      else s
  | None => s
  end.

Definition contains (session_id : SessionId) (s : SessionStore) : bool :=
  bool_decide (is_Some (sessions s !! session_id)).

(** ** The store with its spawned expiry tasks *)

Record timer := { deadline : Z; t_session : SessionId; t_token : Token }.

Record world := { store : SessionStore; timers : list timer; now : Z }.

Definition set_store (s : SessionStore) (w : world) : world :=
  {| store := s; timers := timers w; now := now w |}.

(** [grace_period] is in the unit of [now]. *)
Definition suspend_and_schedule_expiry (session_id : SessionId) (user_id : string)
    (sm : ConnectionSm) (token : Token) (granted_permissions last_generation grace_period : Z)
    (w : world) : result ProtocolViolation unit * world :=
  match ConnectionSm.suspend sm with
  | (Err v, _) => (Err v, w)
  | (Ok _, sm) =>
      (Ok tt,
       {| store :=
            suspend session_id
              {| reconnect_token := token; connection_sm := sm;
                 ss_granted_permissions := granted_permissions;
                 last_generation := last_generation; ss_user_id := user_id |} (store w);
          timers := timers w ++
            [{| deadline := now w + grace_period; t_session := session_id; t_token := token |}];
          now := now w |})
  end.

(** The [i]-th expiry task runs, if its sleep is over. *)
Definition fire_timer (i : nat) (w : world) : world :=
  match timers w !! i with
  | Some t =>
      if deadline t <=? now w then
        {| store := expire_if_token_matches (t_session t) (t_token t) (store w);
           timers := delete i (timers w); now := now w |}
      else w
  | None => w
  end.

Inductive op :=
| Suspend (session_id : SessionId) (user_id : string) (sm : ConnectionSm) (token : Token)
    (granted_permissions last_generation grace_period : Z)
| Reconnect (session_id : SessionId) (token : Token)
| FireTimer (i : nat)
| Advance (dt : nat).

Definition run_op (w : world) (o : op) : world :=
  match o with
  | Suspend id u sm tok p g grace => (suspend_and_schedule_expiry id u sm tok p g grace w).2
  | Reconnect id tok => set_store (try_reconnect id tok (store w)).2 w
  | FireTimer i => fire_timer i w
  | Advance dt => {| store := store w; timers := timers w; now := now w + Z.of_nat dt |}
  end.

Definition run (w : world) (ops : list op) : world := fold_left run_op ops w.

Definition find (w : world) (id : SessionId) : option SuspendedSession := sessions (store w) !! id.

(** The sessions handed out to reconnecting clients of [id], in order. *)
Fixpoint handed_out (id : SessionId) (w : world) (ops : list op) : list SuspendedSession :=
  match ops with
  | [] => []
  | o :: ops' =>
      match o with
      | Reconnect id' tok =>
          if bool_decide (id' = id) then
            match (try_reconnect id' tok (store w)).1 with Ok s => [s] | Err _ => [] end
          else []
      | _ => []
      end ++ handed_out id (run_op w o) ops'
  end.

Definition suspends (id : SessionId) (o : op) : bool :=
  match o with Suspend id' _ _ _ _ _ _ => bool_decide (id' = id) | _ => false end.

(** [o] presents the token [tok] for [id]. *)
Definition presents (id : SessionId) (tok : Token) (o : op) : bool :=
  match o with
  | Reconnect id' tok' => bool_decide (id' = id) && bool_decide (tok' = tok)
  | _ => false
  end.

(** * Lemmas *)

Context {Hlaws : CtEqLaws}.
Set Default Proof Using "Type*".

Lemma ct_eq_decide a b : ct_eq a b = bool_decide (a = b).
Proof.
  destruct (ct_eq a b) eqn:E.
  - symmetry. apply bool_decide_eq_true. by apply ct_eq_true.
  - symmetry. apply bool_decide_eq_false. intros Hab. apply ct_eq_true in Hab. congruence.
Qed.

Lemma try_reconnect_spec id tok s :
  try_reconnect id tok s =
    match sessions s !! id with
    | Some e =>
        if bool_decide (reconnect_token e = tok)
        then (Ok e, {| sessions := delete id (sessions s) |}) else (Err TokenMismatch, s)
    | None => (Err NoSuchSession, s)
    end.
Proof. unfold try_reconnect. destruct (sessions s !! id); by rewrite ?ct_eq_decide. Qed.

Lemma try_reconnect_match id tok s e :
  sessions s !! id = Some e -> reconnect_token e = tok ->
  try_reconnect id tok s = (Ok e, {| sessions := delete id (sessions s) |}).
Proof. intros He Ht. rewrite try_reconnect_spec, He. by rewrite bool_decide_true. Qed.

Lemma try_reconnect_none id tok s :
  sessions s !! id = None -> try_reconnect id tok s = (Err NoSuchSession, s).
Proof. intros He. by rewrite try_reconnect_spec, He. Qed.

Lemma expire_if_lookup id id' tok s :
  sessions (expire_if_token_matches id' tok s) !! id
  = match sessions s !! id with
    | Some e => if bool_decide (id' = id /\ reconnect_token e = tok) then None else Some e
    | None => None
    end.
Proof.
  unfold expire_if_token_matches. destruct (decide (id' = id)) as [-> |Hne].
  - destruct (sessions s !! id) as [e|] eqn:E; [|done]. rewrite ct_eq_decide.
    destruct (decide (reconnect_token e = tok)).
    + rewrite !bool_decide_true by done. apply lookup_delete_eq.
    + rewrite !bool_decide_false by naive_solver. done.
  - destruct (sessions s !! id') as [e'|];
      [rewrite ct_eq_decide; case_bool_decide; cbn; rewrite ?lookup_delete_ne by done|];
      (destruct (sessions s !! id); [|done]); by rewrite bool_decide_false by naive_solver.
Qed.

(** What an operation that neither suspends [id] nor presents its token can
    do to the entry of [id]: only a due timer of that very token removes it. *)
Lemma run_op_find w o id s :
  find w id = Some s ->
  suspends id o = false -> presents id (reconnect_token s) o = false ->
  find (run_op w o) id = Some s \/
  (find (run_op w o) id = None /\
   exists t, t ∈ timers w /\ t_session t = id /\ t_token t = reconnect_token s /\ deadline t <= now w).
Proof.
  unfold find. intros Hf Hs Hp. destruct o as [id' u sm tok p g grace | id' tok | i | dt]; cbn [run_op].
  - left. cbn in Hs. apply bool_decide_eq_false in Hs. unfold suspend_and_schedule_expiry.
    destruct (ConnectionSm.suspend sm) as [[?|?] ?]; [|done]. cbn. by rewrite lookup_insert_ne.
  - left. rewrite try_reconnect_spec. cbn in Hp.
    destruct (decide (id' = id)) as [-> |Hne].
    + rewrite Hf. rewrite bool_decide_true in Hp by done. cbn in Hp.
      apply bool_decide_eq_false in Hp. rewrite bool_decide_false by congruence. exact Hf.
    + clear Hp. destruct (sessions (store w) !! id') as [e|]; [|exact Hf].
      case_bool_decide; [|exact Hf]. cbn. by rewrite lookup_delete_ne.
  - unfold fire_timer. destruct (timers w !! i) as [t|] eqn:Et; [|by left].
    destruct (Z.leb_spec (deadline t) (now w)); [|by left]. cbn [store].
    rewrite expire_if_lookup, Hf. case_bool_decide as Hd; [|by left].
    right. destruct Hd as [Hd1 Hd2]. split; [done|]. exists t.
    split_and!; try done. by apply list_elem_of_lookup_2 in Et.
  - by left.
Qed.

Lemma run_op_find_none w o id : find w id = None -> suspends id o = false -> find (run_op w o) id = None.
Proof.
  unfold find. intros Hf Hs. destruct o as [id' u sm tok p g grace | id' tok | i | dt]; cbn [run_op].
  - cbn in Hs. apply bool_decide_eq_false in Hs. unfold suspend_and_schedule_expiry.
    destruct (ConnectionSm.suspend sm) as [[?|?] ?]; [|done]. cbn. by rewrite lookup_insert_ne.
  - unfold try_reconnect. destruct (sessions (store w) !! id') as [e|] eqn:E; [|done].
    destruct (ct_eq _ _); [|exact Hf]. cbn. destruct (decide (id' = id)) as [-> |];
      [by rewrite lookup_delete_eq|by rewrite lookup_delete_ne].
  - unfold fire_timer. destruct (timers w !! i) as [t|]; [|done].
    destruct (_ <=? _); [|done]. cbn [store]. by rewrite expire_if_lookup, Hf.
  - done.
Qed.

(** Timers are only added by suspensions, with their token and a deadline. *)
Lemma run_op_timers w o t id :
  suspends id o = false -> t_session t = id -> t ∈ timers (run_op w o) -> t ∈ timers w.
Proof.
  intros Hs Ht. destruct o as [id' u sm tok p g grace | id' tok | i | dt]; cbn [run_op]; try done.
  - cbn in Hs. apply bool_decide_eq_false in Hs. unfold suspend_and_schedule_expiry.
    destruct (ConnectionSm.suspend sm) as [[?|?] ?]; [|done]. cbn.
    intros [?|He%list_elem_of_singleton]%elem_of_app; [done|]. subst. by destruct Hs.
  - unfold fire_timer. destruct (timers w !! i); [|done]. destruct (_ <=? _); [|done]. cbn.
    intros Hin. apply list_elem_of_lookup in Hin as [j Hj].
    apply list_elem_of_lookup. destruct (decide (j < i)%nat).
    + exists j. by rewrite list_lookup_delete_lt in Hj.
    + exists (S j). rewrite list_lookup_delete_ge in Hj by lia. done.
Qed.

Lemma run_op_now w o : now w <= now (run_op w o).
Proof.
  destruct o as [id' u sm tok p g grace | id' tok | i | dt]; cbn; try lia.
  - unfold suspend_and_schedule_expiry. by destruct (ConnectionSm.suspend sm) as [[?|?] ?].
  - unfold fire_timer. destruct (timers w !! i); [|done]. by destruct (_ <=? _).
Qed.

Lemma run_now w ops : now w <= now (run w ops).
Proof.
  revert w. induction ops as [|o ops IH]; intros w; [done|]. unfold run in *. cbn.
  etransitivity; [apply run_op_now|apply IH].
Qed.

Lemma handed_out_none id w ops :
  find w id = None -> forallb (fun o => negb (suspends id o)) ops = true -> handed_out id w ops = [].
Proof.
  revert w. induction ops as [|o ops IH]; intros w Hf Hs; [done|]. cbn in Hs.
  apply andb_true_iff in Hs as [Ho Hs]. apply negb_true_iff in Ho.
  cbn [handed_out]. rewrite IH; [|by apply run_op_find_none|done]. rewrite app_nil_r.
  destruct o; try done. case_bool_decide; [|done]. subst. unfold try_reconnect.
  unfold find in Hf. by rewrite Hf.
Qed.

Lemma handed_out_cons id w o ops :
  handed_out id w (o :: ops)
  = match o with
    | Reconnect id' tok =>
        if bool_decide (id' = id) then
          match (try_reconnect id' tok (store w)).1 with Ok s => [s] | Err _ => [] end
        else []
    | _ => []
    end ++ handed_out id (run_op w o) ops.
Proof. done. Qed.

(** Once handed out, a session's entry is gone. *)
Lemma reconnect_removes id tok w s :
  (try_reconnect id tok (store w)).1 = Ok s -> find (run_op w (Reconnect id tok)) id = None.
Proof.
  unfold find. cbn [run_op set_store store]. rewrite try_reconnect_spec.
  destruct (sessions (store w) !! id); [|done]. case_bool_decide; [|done].
  intros _. apply lookup_delete_eq.
Qed.

(** No expiry task that is due before [limit] holds the entry's token. *)
Lemma entry_survives limit id s w ops :
  find w id = Some s ->
  (forall t, t ∈ timers w -> t_session t = id -> t_token t = reconnect_token s -> limit <= deadline t) ->
  forallb (fun o => negb (suspends id o) && negb (presents id (reconnect_token s) o)) ops = true ->
  now (run w ops) < limit ->
  find (run w ops) id = Some s.
Proof.
  revert w. induction ops as [|o ops IH]; intros w Hf Ht Hops Hnow; [done|].
  cbn [forallb] in Hops. apply andb_true_iff in Hops as [[Ho1 Ho2]%andb_true_iff Hops].
  apply negb_true_iff in Ho1, Ho2.
  change (run w (o :: ops)) with (run (run_op w o) ops) in *.
  pose proof (run_now (run_op w o) ops). pose proof (run_op_now w o).
  apply IH; [|intros t Hin Hid; eapply Ht; [by eapply run_op_timers|done]|done|done].
  destruct (run_op_find w o id s Hf Ho1 Ho2) as [?|(_ & t & Hin & Hid & Htok & Hdl)]; [done|].
  pose proof (Ht t Hin Hid Htok). lia.
Qed.

(** * Properties *)

(** C32: A token is spent once.  A reconnect attempt succeeds exactly when it
    presents the stored token, hands out the stored session and removes it;
    a failed one leaves the store as it was; and between two suspensions of a
    session, however other operations and expiry tasks are interleaved, at
    most one attempt for it succeeds, with any token. *)
Theorem token_spent_once id w ops :
  (forall tok,
     match try_reconnect id tok (store w) with
     | (Ok s, st) => find w id = Some s /\ reconnect_token s = tok /\
                     sessions st = delete id (sessions (store w))
     | (Err TokenMismatch, st) => (exists s, find w id = Some s /\ reconnect_token s ≠ tok) /\ st = store w
     | (Err NoSuchSession, st) => find w id = None /\ st = store w
     end) /\
  (forallb (fun o => negb (suspends id o)) ops = true ->
   (length (handed_out id w ops) <= 1)%nat /\
   (forall s, s ∈ handed_out id w ops -> find w id = Some s)).
Proof.
  split.
  - intros tok. rewrite try_reconnect_spec. unfold find.
    destruct (sessions (store w) !! id) as [s|]; [|done]. case_bool_decide; [done|eauto].
  - revert w. induction ops as [|o ops IH]; intros w Hs; [split; [cbn; lia|set_solver]|].
    cbn [forallb] in Hs. apply andb_true_iff in Hs as [Ho Hs]. apply negb_true_iff in Ho.
    rewrite handed_out_cons.
    assert (handed_out id (run_op w o) ops = [] \/ find (run_op w o) id = find w id) as Hnext.
    { destruct (find w id) as [s|] eqn:Ef.
      - destruct (presents id (reconnect_token s) o) eqn:Ep.
        + left. apply handed_out_none; [|done]. destruct o; try done.
          cbn in Ep. apply andb_true_iff in Ep as [->%bool_decide_eq_true ->%bool_decide_eq_true].
          apply (reconnect_removes _ _ _ s). rewrite try_reconnect_spec. unfold find in Ef.
          by rewrite Ef, bool_decide_true.
        + destruct (run_op_find w o id s Ef Ho Ep) as [->|[E _]]; [by right|].
          left. by apply handed_out_none.
      - right. by apply run_op_find_none. }
    destruct (IH (run_op w o) Hs) as [IH1 IH2].
    assert ((match o with
      | Reconnect id' tok => if bool_decide (id' = id) then
          match (try_reconnect id' tok (store w)).1 with Ok s => [s] | Err _ => [] end else []
      | _ => [] end) = [] \/
      exists tok s, o = Reconnect id tok /\ (try_reconnect id tok (store w)).1 = Ok s) as Hcase.
    { destruct o as [| id' tok | |]; try by left. case_bool_decide; [subst|by left].
      destruct (try_reconnect id tok (store w)).1 eqn:E; [|by left]. right. eauto. }
    destruct Hcase as [-> | (tok & s & -> & E)].
    + cbn [app]. split; [done|]. intros s Hin. destruct Hnext as [E | <-]; [|by apply IH2].
      rewrite E in Hin. by apply not_elem_of_nil in Hin.
    + rewrite bool_decide_true, E by done.
      rewrite handed_out_none; [|by eapply reconnect_removes|done].
      split; [cbn; lia|]. intros s' ->%list_elem_of_singleton. unfold find.
      rewrite try_reconnect_spec in E. destruct (sessions (store w) !! id); [|done].
      case_bool_decide; [|done]. by injection E as ->.
Qed.

(** C33: A suspended session stays resumable for its whole grace period.  If its
    token was not used for an earlier suspension whose expiry task is still
    armed, then whatever the other operations and expiry tasks do, in any
    order, until the period is over the entry is there, and a reconnect with
    its token gets it back; a stale timer of an earlier episode never removes
    it. *)
Theorem resumable_until_deadline id u sm tok p g grace w w1 ops :
  ConnectionSm.state sm = Active ->
  suspend_and_schedule_expiry id u sm tok p g grace w = (Ok tt, w1) ->
  (forall t, t ∈ timers w -> t_session t = id -> t_token t ≠ tok) ->
  forallb (fun o => negb (suspends id o) && negb (presents id tok o)) ops = true ->
  now (run w1 ops) < now w + grace ->
  exists s st,
    try_reconnect id tok (store (run w1 ops)) = (Ok s, st) /\
    reconnect_token s = tok /\ ss_granted_permissions s = p /\ last_generation s = g /\
    ss_user_id s = u /\ ConnectionSm.state (connection_sm s) = Suspended.
Proof.
  intros Hact Hsus Hfresh Hops Hnow.
  set (s := {| reconnect_token := tok; connection_sm := set_state Suspended sm;
               ss_granted_permissions := p; last_generation := g; ss_user_id := u |}).
  assert (find w1 id = Some s /\
    (forall t, t ∈ timers w1 -> t_session t = id -> t_token t = tok -> now w + grace <= deadline t))
    as (Hf & Ht).
  { revert Hsus. unfold suspend_and_schedule_expiry, ConnectionSm.suspend. rewrite Hact.
    intros [= <-]. split; [by apply lookup_insert_eq|]. cbn [timers].
    intros t [Hin | ->%list_elem_of_singleton]%elem_of_app Hx1 Hx2; [by destruct (Hfresh t Hin)|]. cbn. lia. }
  pose proof (entry_survives _ id s w1 ops Hf Ht Hops Hnow) as Hend. unfold find in Hend.
  exists s. eexists. rewrite try_reconnect_spec, Hend, bool_decide_true by done. done.
Qed.

(** And no longer.  Once an expiry task whose session and token match has
    run, and as long as the session is not suspended again, nothing is left
    to resume. *)
Theorem expired_is_gone id tok w i t ops :
  timers w !! i = Some t -> t_session t = id -> t_token t = tok -> deadline t <= now w ->
  (forall s, find w id = Some s -> reconnect_token s = tok) ->
  forallb (fun o => negb (suspends id o)) ops = true ->
  let w' := run (run_op w (FireTimer i)) ops in
  (forall tok', (try_reconnect id tok' (store w')).1 = Err NoSuchSession) /\
  contains id (store w') = false.
Proof.
  intros Hi Hid Htok Hd Hown Hops w'.
  assert (find w' id = None) as Hn.
  { assert (find (run_op w (FireTimer i)) id = None) as H0'.
    { unfold find. cbn [run_op]. unfold fire_timer. rewrite Hi.
      destruct (Z.leb_spec (deadline t) (now w)); [|lia]. cbn [store]. rewrite expire_if_lookup.
      unfold find in Hown. destruct (sessions (store w) !! id) as [s|]; [|done].
      by rewrite bool_decide_true by (split; [done|rewrite Htok; by apply Hown]). }
    subst w'. revert H0'. generalize (run_op w (FireTimer i)) as w0. clear -Hops Hlaws.
    induction ops as [|o ops IH]; intros w0 Hn; [done|]. cbn [forallb] in Hops.
    apply andb_true_iff in Hops as [Ho Hops]. apply negb_true_iff in Ho.
    change (run w0 (o :: ops)) with (run (run_op w0 o) ops). apply IH; [done|].
    by apply run_op_find_none. }
  unfold find in Hn. split.
  - intros tok'. by rewrite try_reconnect_spec, Hn.
  - unfold contains. rewrite Hn. by apply bool_decide_eq_false_2, is_Some_None.
Qed.
End session_store.

(** ** Witnesses *)

Definition active_sm : ConnectionSm := {| ConnectionSm.state := Active; auth_attempts := 0 |}.

Definition one : SessionId := [1%Z].

Lemma token_spent_once_witness :
  let w := {| store := {| sessions := {[ [1] := {| reconnect_token := [7]; connection_sm := active_sm;
                ss_granted_permissions := 1; last_generation := 0; ss_user_id := "u" |} ]} |};
              timers := []; now := 0 |} in
  let ops := [Reconnect [1] [8]; Reconnect [1] [7]; Reconnect [1] [7]] in
  @CtEqLaws plain_ct_eq /\
  forallb (fun o => negb (suspends one o)) ops = true /\
  (length (@handed_out plain_ct_eq one w ops) <= 1)%nat.
Proof.
  intros w ops. split; [exact plain_ct_eq_laws|].
  assert (forallb (fun o => negb (suspends one o)) ops = true) as H by (by vm_compute).
  split; [exact H|].
  exact (proj1 (proj2 (@token_spent_once plain_ct_eq plain_ct_eq_laws one w ops) H)).
Defined.

Definition empty_world : world := {| store := new; timers := []; now := 5 |}.

Lemma resumable_until_deadline_witness :
  let w1 := (suspend_and_schedule_expiry one "u" active_sm [9] 3 4 100 empty_world).2 in
  let ops := [FireTimer 0; @Reconnect one [8]; Advance 99; FireTimer 0] in
  ConnectionSm.state active_sm = Active /\
  @CtEqLaws plain_ct_eq /\
  now (@run plain_ct_eq w1 ops) < 105 /\
  exists s st,
    @try_reconnect plain_ct_eq one [9] (store (@run plain_ct_eq w1 ops)) = (Ok s, st) /\
    reconnect_token s = [9] /\ ss_granted_permissions s = 3 /\ last_generation s = 4 /\
    ss_user_id s = "u"%string /\ ConnectionSm.state (connection_sm s) = Suspended.
Proof.
  intros w1 ops. split; [done|]. split; [exact plain_ct_eq_laws|].
  assert (now (@run plain_ct_eq w1 ops) < 105) as Hn by (by vm_compute).
  split; [exact Hn|].
  apply (@resumable_until_deadline plain_ct_eq plain_ct_eq_laws one "u" active_sm [9] 3 4 100
           empty_world w1 ops); [done|done|..|exact Hn].
  - intros t Hin. by apply not_elem_of_nil in Hin.
  - by vm_compute.
Defined.

Lemma expired_is_gone_witness :
  let w := @run plain_ct_eq (suspend_and_schedule_expiry one "u" active_sm [9] 3 4 100 empty_world).2
             [Advance 100] in
  @CtEqLaws plain_ct_eq /\ deadline {| deadline := 105; t_session := one; t_token := [9] |} <= now w /\
  contains one (store (@run plain_ct_eq (@run_op plain_ct_eq w (FireTimer 0)) [@Reconnect one [9]])) = false.
Proof.
  intros w. split; [exact plain_ct_eq_laws|]. split; [by vm_compute|].
  refine (proj2 (@expired_is_gone plain_ct_eq plain_ct_eq_laws one [9] w 0
    {| deadline := 105; t_session := one; t_token := [9] |} [@Reconnect one [9]] _ _ _ _ _ _)).
  - done.
  - done.
  - done.
  - by vm_compute.
  - intros s. cbn. by intros [= <-].
  - done.
Defined.
