(* ===== verification/FileHandleStore.v ===== *)
(** The registry of issued file handles: the model of
    [src/src/file_handle_store.rs].  The clock and the random source are
    inputs of each operation: [now] is what [clock::now_us] returns and
    [draws] the 64-bit values the generator yields. *)

From S2P Require Import Prelude.
From S2P Require Varint.
From S2P Require Import Messages.

(** * Definitions *)

Record FileHandleRecord := {
  session_id : list Z;
  user_id : string;
  direction : FileTransferDirection;
  resolved_size : Z;
  expiry_ts : Z;
}.

Inductive FileHandleError := Unknown | Expired | SessionMismatch | UserMismatch | DirectionMismatch.

Record FileHandleStore := { handles : gmap Z FileHandleRecord }.

Definition new : FileHandleStore := {| handles := ∅ |}.

(** The loop that draws handles until one is free, on a finite prefix of the
    generator's output; [None] while it is still drawing. *)
Fixpoint draw_handle (draws : list Z) (m : gmap Z FileHandleRecord) : option Z :=
  match draws with
  | [] => None
  | raw :: draws' =>
      let candidate := Z.land raw Varint.MAX in
      match m !! candidate with
      | None => Some candidate
      | Some _ => draw_handle draws' m
      end
  end.

(** The verdict of [try_issue]: what it returns, or still drawing. *)
Inductive issue_result :=
| Issued (handle expiry : Z)
| Refused
| Drawing.

Definition try_issue (now : Z) (draws : list Z) (session_id : list Z) (user_id : string)
    (direction : FileTransferDirection) (resolved_size ttl max_concurrent : Z)
    (s : FileHandleStore) : issue_result * FileHandleStore :=
  let expiry_ts := wrap 64 (now + wrap 64 ttl) in
  let record := {| session_id := session_id; user_id := user_id; direction := direction;
                   resolved_size := resolved_size; expiry_ts := expiry_ts |} in
  if max_concurrent <=? Z.of_nat (size (handles s)) then (Refused, s)
  else
    match draw_handle draws (handles s) with
    | Some candidate =>
        (Issued candidate expiry_ts, {| handles := <[candidate := record]> (handles s) |})
    | None => (Drawing, s)
    end.

(** [usize::MAX], and the [expect] on the refusal. *)
Definition usize_MAX : Z := 2 ^ 64 - 1.

Definition issue (now : Z) (draws : list Z) (session_id : list Z) (user_id : string)
    (direction : FileTransferDirection) (resolved_size ttl : Z) (s : FileHandleStore) :
    outcome (issue_result * FileHandleStore) :=
  match try_issue now draws session_id user_id direction resolved_size ttl usize_MAX s with
  | (Refused, _) => Panicked
  | r => Done r
  end.

Definition sweep_expired (now : Z) (s : FileHandleStore) : Z * FileHandleStore :=
  let kept := filter (fun '(_, record) => now <= expiry_ts record) (handles s) in
  (Z.of_nat (size (handles s)) - Z.of_nat (size kept), {| handles := kept |}).

Definition validate (now file_handle : Z) (sid : list Z) (uid : string)
    (dir : FileTransferDirection) (s : FileHandleStore) : result FileHandleError FileHandleRecord :=
  record ← ok_or (handles s !! file_handle) Unknown;
  if negb (bool_decide (session_id record = sid)) then Err SessionMismatch
  else if negb (bool_decide (user_id record = uid)) then Err UserMismatch
  else if negb (bool_decide (direction record = dir)) then Err DirectionMismatch
  else if expiry_ts record <? now then Err Expired
  else Ok record.

Definition remove (file_handle : Z) (s : FileHandleStore) : FileHandleStore :=
  {| handles := delete file_handle (handles s) |}.

(** ** Runs *)

Inductive op :=
| TryIssue (now : Z) (draws : list Z) (sid : list Z) (uid : string) (dir : FileTransferDirection)
    (resolved_size ttl max_concurrent : Z)
| Sweep (now : Z)
| Remove (file_handle : Z).

Definition run_op (s : FileHandleStore) (o : op) : FileHandleStore :=
  match o with
  | TryIssue now draws sid uid dir sz ttl k => (try_issue now draws sid uid dir sz ttl k s).2
  | Sweep now => (sweep_expired now s).2
  | Remove h => remove h s
  end.

Definition run (ops : list op) : FileHandleStore := fold_left run_op ops new.

(** ** The reaper

    The task of [spawn_reaper]: it lets the first tick pass, and then sweeps at each
    tick while the store is still there for anyone else. *)

Inductive reaper_point := FirstTick | Ticking | ReaperDone.

Definition reaper_tick (alive : bool) (now : Z) (p : reaper_point) (s : FileHandleStore) :
    reaper_point * FileHandleStore :=
  match p with
  | FirstTick => (Ticking, s)
  | Ticking => if alive then (Ticking, (sweep_expired now s).2) else (ReaperDone, s)
  | ReaperDone => (ReaperDone, s)
  end.

(** What happens to a store, with the time: others' operations and the reaper's
    ticks. *)
Inductive event := ByOthers (o : op) | Tick (now : Z).

Definition on_event (st : reaper_point * FileHandleStore) (e : event) : reaper_point * FileHandleStore :=
  match e with
  | ByOthers o => (st.1, run_op st.2 o)
  | Tick now => reaper_tick true now st.1 st.2
  end.

Definition watched (events : list event) : reaper_point * FileHandleStore := fold_left on_event events (FirstTick, new).

(** * Lemmas *)

Lemma run_handles_snoc ops o : run (ops ++ [o]) = run_op (run ops) o.
Proof. unfold run. by rewrite fold_left_app. Qed.

Lemma draw_handle_fresh draws m h :
  draw_handle draws m = Some h -> m !! h = None /\ 0 <= h <= Varint.MAX.
Proof.
  induction draws as [|raw draws IH]; cbn; [done|].
  destruct (m !! Z.land raw Varint.MAX) eqn:E; [done|]. intros [= <-]. split; [done|].
  unfold Varint.MAX. rewrite Z.shiftl_1_l, land_ones_mod by lia.
  pose proof (Z.mod_pos_bound raw (2 ^ 62) ltac:(lia)). lia.
Qed.

(** The loop ends once it has drawn more distinct handles than are taken. *)
Lemma draw_handle_ends draws m :
  NoDup (map (fun raw => Z.land raw Varint.MAX) draws) -> (size m < length draws)%nat ->
  exists h, draw_handle draws m = Some h.
Proof.
  intros Hnd Hlen. destruct (draw_handle draws m) as [h|] eqn:E; [by exists h|exfalso].
  assert (list_to_set (map (fun raw => Z.land raw Varint.MAX) draws) ⊆ dom m) as Hsub.
  { intros h Hh. apply elem_of_list_to_set, list_elem_of_fmap in Hh as (raw & -> & Hin).
    apply elem_of_dom. clear -E Hin. induction draws as [|x draws IH]; cbn in E; [set_solver|].
    destruct (m !! Z.land x Varint.MAX) eqn:Ex; [|done].
    apply elem_of_cons in Hin as [-> | Hin]; [by eexists|by apply IH]. }
  apply (subseteq_size (C := gset Z)) in Hsub.
  rewrite size_list_to_set, length_map, size_dom in Hsub by done. lia.
Qed.

Lemma sweep_lookup now s h :
  handles (sweep_expired now s).2 !! h
  = match handles s !! h with
    | Some r => if now <=? expiry_ts r then Some r else None
    | None => None
    end.
Proof.
  cbn. rewrite map_lookup_filter. destruct (handles s !! h) as [r|]; [|done]. cbn.
  zcases; [rewrite option_guard_True by done|rewrite option_guard_False by lia]; done.
Qed.

Lemma sweep_size now s :
  Z.of_nat (size (handles (sweep_expired now s).2)) <= Z.of_nat (size (handles s)).
Proof. apply Nat2Z.inj_le, map_size_filter. Qed.

(** * Properties *)

(** The binding check.  A handle validates exactly when it is issued and
    its session, user and direction are those presented and its deadline has
    not passed; otherwise the verdict names the first of these checks that
    fails, in this order.  Validation does not consume the handle. *)
Theorem validate_verdicts now h sid uid dir s :
  match validate now h sid uid dir s with
  | Ok r => handles s !! h = Some r /\ session_id r = sid /\ user_id r = uid /\
            direction r = dir /\ now <= expiry_ts r
  | Err e =>
      match handles s !! h with
      | None => e = Unknown
      | Some r =>
          if decide (session_id r = sid) then
            if decide (user_id r = uid) then
              if decide (direction r = dir) then e = Expired /\ expiry_ts r < now
              else e = DirectionMismatch
            else e = UserMismatch
          else e = SessionMismatch
      end
  end.
Proof.
  unfold validate. destruct (handles s !! h) as [r|]; cbn; [|done].
  do 3 (case_bool_decide; cbn; [|by repeat case_decide]).
  zcases; [|done]. by rewrite !decide_True by done.
Qed.

(** Issuing.  An issued handle was free, fits the varint that carries it,
    validates for exactly the binding given until its deadline, and disturbs
    no other handle; a request is refused, changing nothing, exactly when the
    store already holds the permitted number; and the search for a free handle
    ends once more distinct ones were drawn than are taken. *)
Theorem issue_binds now draws sid uid dir sz ttl k s :
  match try_issue now draws sid uid dir sz ttl k s with
  | (Issued h e, s') =>
      e = wrap 64 (now + wrap 64 ttl) /\ Z.of_nat (size (handles s)) < k /\
      handles s !! h = None /\ 0 <= h <= Varint.MAX /\
      (forall t sid' uid' dir', t <= e ->
         is_ok (validate t h sid' uid' dir' s') = true <-> (sid' = sid /\ uid' = uid /\ dir' = dir)) /\
      (forall h', h' ≠ h -> handles s' !! h' = handles s !! h')
  | (Refused, s') => s' = s /\ k <= Z.of_nat (size (handles s))
  | (Drawing, s') =>
      s' = s /\ Z.of_nat (size (handles s)) < k /\
      (NoDup (map (fun raw => Z.land raw Varint.MAX) draws) -> (length draws <= size (handles s))%nat)
  end.
Proof.
  unfold try_issue. zcases; [done|].
  destruct (draw_handle draws (handles s)) as [h|] eqn:E.
  - destruct (draw_handle_fresh _ _ _ E). split_and!; try done; [lia..| |].
    + intros t sid' uid' dir' Ht. unfold validate. cbn [handles]. rewrite lookup_insert_eq. cbn.
      repeat (case_bool_decide; cbn; [|naive_solver]). zcases; [lia|]. naive_solver.
    + intros h' Hne. cbn. by rewrite lookup_insert_ne.
  - split_and!; [done|lia|]. intros Hnd. destruct (decide (size (handles s) < length draws)%nat); [|lia].
    destruct (draw_handle_ends draws (handles s)) as [h Hh]; [done..|]. congruence.
Qed.

(** The store stays bounded and sweeping is invisible.  If every issue is
    made with a capacity of at most [k], the store never holds more than [k]
    handles; a sweep removes exactly the expired ones, reports how many, and no
    [validate] from then on accepts more or fewer handles because of it. *)
Theorem store_is_bounded k ops :
  0 <= k ->
  Forall (fun o => match o with TryIssue _ _ _ _ _ _ _ k' => k' <= k | _ => True end) ops ->
  Z.of_nat (size (handles (run ops))) <= k /\
  (forall now, let '(n, s') := sweep_expired now (run ops) in
     n = Z.of_nat (size (handles (run ops))) - Z.of_nat (size (handles s')) /\ 0 <= n /\
     (forall h r, handles s' !! h = Some r <-> handles (run ops) !! h = Some r /\ now <= expiry_ts r) /\
     (forall now' h sid uid dir r, now <= now' ->
        validate now' h sid uid dir s' = Ok r <-> validate now' h sid uid dir (run ops) = Ok r)).
Proof.
  intros Hk Hops. split.
  - induction ops as [|o ops IH] using rev_ind; [cbn; by rewrite map_size_empty|].
    apply Forall_app in Hops as [Hops [Ho _]%Forall_cons_1]. specialize (IH Hops).
    rewrite run_handles_snoc. destruct o as [now draws sid uid dir sz ttl k' | now | h]; cbn [run_op].
    + unfold try_issue. zcases; [done|].
      destruct (draw_handle draws (handles (run ops))) as [h|] eqn:E; [|done].
      destruct (draw_handle_fresh _ _ _ E) as [Hf _]. cbn. rewrite map_size_insert_None by done. lia.
    + etransitivity; [apply sweep_size|done].
    + cbn. rewrite map_size_delete. destruct (handles (run ops) !! h); cbn [id]; lia.
  - intros now. pose proof (sweep_lookup now (run ops)) as Hl.
    destruct (sweep_expired now (run ops)) as [n s'] eqn:E. cbn [snd] in Hl.
    unfold sweep_expired in E. injection E as <- <-. split; [done|].
    split.
    { pose proof (sweep_size now (run ops)) as Hz. cbn in Hz |- *. lia. }
    split.
    + intros h r. rewrite Hl. destruct (handles (run ops) !! h); [|naive_solver].
      zcases; [naive_solver|]. split; [done|]. intros [[= ->] ?]. lia.
    + intros now' h sid uid dir r Hn. unfold validate. rewrite Hl.
      destruct (handles (run ops) !! h) as [r'|]; [|done]. zcases; [done|]. cbn.
      repeat (case_bool_decide; cbn; [|done]). zcases; [done|lia].
Qed.

Lemma store_is_bounded_witness :
  let ops := [TryIssue 0 [5; 5; 6] [1] "u" Upload 10 100 2; TryIssue 0 [5; 6] [1] "u" Upload 10 50 2;
              TryIssue 0 [7] [1] "u" Upload 10 50 2; Sweep 60] in
  (0 <= 2 /\
   Forall (fun o => match o with TryIssue _ _ _ _ _ _ _ k' => k' <= 2 | _ => True end) ops) /\
  Z.of_nat (size (handles (run ops))) <= 2.
Proof.
  intros ops.
  assert (Forall (fun o => match o with TryIssue _ _ _ _ _ _ _ k' => k' <= 2 | _ => True end) ops) as Ho
    by (repeat constructor; done).
  split; [by split|]. exact (proj1 (store_is_bounded 2 ops ltac:(lia) Ho)).
Defined.

(** Handles are given out for a time ahead, and nothing happens before [last]. *)
Definition in_time (last : Z) (e : event) : Prop :=
  match e with
  | ByOthers (TryIssue now _ _ _ _ _ ttl _) => last <= now /\ 0 <= now /\ 0 <= ttl /\ now + ttl < 2 ^ 64
  | _ => True
  end.

Definition fresh_at (last : Z) (s : FileHandleStore) : Prop :=
  forall h r, handles s !! h = Some r -> last <= expiry_ts r.

Lemma fresh_op last o s : fresh_at last s -> in_time last (ByOthers o) -> fresh_at last (run_op s o).
Proof.
  intros Hs Ht. destruct o as [now draws sid uid dir sz ttl k|now|h0]; cbn [run_op].
  - destruct Ht as (Hl & Hn & Ht & Hw). unfold try_issue. zcases; [done|].
    destruct (draw_handle draws (handles s)) as [h|]; [|done]. intros h' r. cbn.
    destruct (decide (h' = h)) as [->|Hne]; [|rewrite lookup_insert_ne by done; apply Hs].
    rewrite lookup_insert_eq. intros [= <-]. cbn. unfold wrap. rewrite (Z.mod_small ttl) by lia.
    rewrite Z.mod_small by lia. lia.
  - intros h r. rewrite sweep_lookup. destruct (handles s !! h) as [r'|] eqn:E; [|done].
    zcases; [intros [= <-]; by eapply Hs|done].
  - intros h r. cbn. intros [_ Hr]%lookup_delete_Some. by eapply Hs.
Qed.

(** What the reaper leaves has not expired at its last tick: whatever the others do,
    a handle that nobody presents is gone one interval after its expiry. *)
Theorem reaper_reclaims events last before :
  events = before ++ [Tick last] -> (watched before).1 = Ticking ->
  forall after,
    Forall (in_time last) after -> Forall (fun e => match e with Tick _ => False | _ => True end) after ->
    fresh_at last (watched (events ++ after)).2.
Proof.
  intros -> Hp after Ht Hn. unfold watched in *. rewrite !fold_left_app. cbn [fold_left].
  destruct (fold_left on_event before (FirstTick, new)) as [p s]. cbn in Hp. subst p.
  assert (Hs : fresh_at last (on_event (Ticking, s) (Tick last)).2).
  { intros h r. cbn [on_event reaper_tick snd fst]. rewrite sweep_lookup. destruct (handles s !! h); [|done].
    zcases; [by intros [= <-]|done]. }
  revert Hs. generalize (on_event (Ticking, s) (Tick last)). induction after as [|e after IH]; intros st Hs; [done|].
  apply Forall_cons in Ht as [He Ht], Hn as [Hn Hn']. cbn. apply IH; [done..|]. destruct e as [o|]; [|done].
  by apply fresh_op.
Qed.

Lemma reaper_reclaims_witness :
  fresh_at 100 (watched ([Tick 0; ByOthers (TryIssue 5 [7] [1] "u" Upload 10 50 2); Tick 100]
                         ++ [ByOthers (TryIssue 101 [8] [1] "u" Upload 10 50 2)])).2.
Proof.
  apply (reaper_reclaims _ 100 [Tick 0; ByOthers (TryIssue 5 [7] [1] "u" Upload 10 50 2)]); [reflexivity..| |];
    repeat constructor; cbn; lia.
Defined.
