(* ===== verification/FileReassembly.v ===== *)
(** Splitting a file into chunks and putting it together again: the model of
    [FileReassembly] and of the chunking of [send_file_data] in
    [src/src/file_transfer_session.rs]. *)

From stdpp Require Import sorting.
From S2P Require Import Prelude.
From S2P Require Import ReasonCode.
From S2P Require Import Messages.
From S2P Require Import Crypto.

(** * Definitions *)

Record FileReassembly := {
  resolved_size : Z;
  received_ranges : list (Z * Z);
  data : list Z;
}.

(** [vec![0u8; n]] panics when [n] exceeds [isize::MAX]. *)
Definition isize_MAX : Z := 2 ^ 63 - 1.

Definition new (resolved_size : Z) : outcome FileReassembly :=
  if resolved_size <=? isize_MAX then
    Done {| resolved_size := resolved_size; received_ranges := [];
            data := replicate (Z.to_nat resolved_size) 0 |}
  else Panicked.

(** [self.data[start..stop].copy_from_slice(src)]. *)
Definition copy_range (start stop : Z) (src dst : list Z) : outcome (list Z) :=
  if (start <=? stop) && (stop <=? Z.of_nat (length dst)) && (Z.of_nat (length src) =? stop - start)
  then Done (list_inserts (Z.to_nat start) src dst)
  else Panicked.

(** The test of the loop over [received_ranges]. *)
Definition overlaps (offset stop : Z) (existing : Z * Z) : bool :=
  let existing_end := wrap 64 (existing.1 + existing.2) in
  (offset <? existing_end) && (existing.1 <? stop).

Definition apply_chunk (chunk : FileChunk) (r : FileReassembly) :
    outcome (result ReasonCode unit * FileReassembly) :=
  if negb (Z.of_nat (length (fc_data chunk)) =? fc_length chunk) then
    Done (Err PROTOCOL_FILE_CHUNK_OUT_OF_RANGE, r)
  else
    match checked_add 64 (fc_offset chunk) (fc_length chunk) with
    | None => Done (Err PROTOCOL_FILE_CHUNK_OUT_OF_RANGE, r)
    | Some stop =>
        if resolved_size r <? stop then Done (Err PROTOCOL_FILE_CHUNK_OUT_OF_RANGE, r)
        else if existsb (overlaps (fc_offset chunk) stop) (received_ranges r) then
          Done (Err PROTOCOL_FILE_CHUNK_OVERLAP, r)
        else
          d ← copy_range (fc_offset chunk) stop (fc_data chunk) (data r);
          Done (Ok tt,
            {| resolved_size := resolved_size r;
               received_ranges := received_ranges r ++ [(fc_offset chunk, fc_length chunk)];
               data := d |})
    end.

(** [sort_unstable_by_key]: the sort is by offset; ranges with equal offsets
    may come out in any order, which [covered_sorted] shows to be immaterial. *)
Definition by_offset (a b : Z * Z) : Prop := a.1 <= b.1.

#[export] Instance by_offset_dec a b : Decision (by_offset a b).
Proof. unfold by_offset. apply _. Defined.

(** The loop of [is_complete]; [None] is the early [return false]. *)
Fixpoint cover (covered : Z) (ranges : list (Z * Z)) : option Z :=
  match ranges with
  | [] => Some covered
  | (offset, len) :: ranges' =>
      if covered <? offset then None else cover (Z.max covered (wrap 64 (offset + len))) ranges'
  end.

Definition is_complete (r : FileReassembly) : bool :=
  match cover 0 (merge_sort by_offset (received_ranges r)) with
  | None => false
  | Some covered => resolved_size r <=? covered
  end.

Definition verify_checksum `{Sha256} (r : FileReassembly) (checksum : list Z) : bool :=
  bool_decide (sha256 (data r) = checksum).

Definition into_data (r : FileReassembly) : list Z := data r.

(** [data.chunks(n)]. *)
Definition chunks {A} (n : nat) (l : list A) : list (list A) :=
  map (fun i => take n (drop (i * n) l)) (seq 0 ((length l + n - 1) / n)).

(** The [FileChunk]s of [send_file_data], with [chunk_size : usize]. *)
Definition file_chunk (chunk_size : Z) (index : nat) (chunk_bytes : list Z) : FileChunk :=
  {| fc_offset := wrap 64 (Z.of_nat index * chunk_size);
     fc_length := wrap 32 (Z.of_nat (length chunk_bytes));
     fc_data := chunk_bytes |}.

Definition file_chunks (chunk_size : Z) (d : list Z) : list FileChunk :=
  imap (file_chunk chunk_size) (chunks (Z.to_nat (Z.max chunk_size 1)) d).

(** Applying chunks one after the other, until one is refused. *)
Fixpoint apply_chunks (cs : list FileChunk) (r : FileReassembly) :
    outcome (result ReasonCode unit * FileReassembly) :=
  match cs with
  | [] => Done (Ok tt, r)
  | c :: cs' =>
      '(v, r') ← apply_chunk c r;
      match v with Ok _ => apply_chunks cs' r' | Err e => Done (Err e, r') end
  end.

(** ** Ranges in the statements *)

Definition stop_of (c : FileChunk) : Z := fc_offset c + fc_length c.

(** A chunk as the type of its fields and its own length require. *)
Definition in_file (size : Z) (c : FileChunk) : Prop :=
  0 <= fc_offset c /\ Z.of_nat (length (fc_data c)) = fc_length c /\ stop_of c <= size.

Definition apart (a b : FileChunk) : Prop := stop_of a <= fc_offset b \/ stop_of b <= fc_offset a.

(** [c] holds the byte at position [i]. *)
Definition holds_byte (i : Z) (c : FileChunk) : Prop := fc_offset c <= i < stop_of c.

(** * Lemmas *)

Lemma lookup_list_inserts (i : nat) (k l : list Z) (j : nat) :
  (i + length k <= length l)%nat ->
  list_inserts i k l !! j = if decide (i <= j < i + length k)%nat then k !! (j - i)%nat else l !! j.
Proof.
  intros Hl. case_decide as Hj.
  - apply list_lookup_inserts; lia.
  - destruct (decide (j < i)%nat); [apply list_lookup_inserts_lt; lia|apply list_lookup_inserts_ge; lia].
Qed.

(** The state after the chunks [cs] were accepted. *)
Record reassembled (size : Z) (cs : list FileChunk) (r : FileReassembly) : Prop := {
  rs_size : resolved_size r = size;
  rs_ranges : received_ranges r = map (fun c => (fc_offset c, fc_length c)) cs;
  rs_length : Z.of_nat (length (data r)) = size;
  rs_in_file : Forall (in_file size) cs;
  rs_apart : ForallOrdPairs apart cs;
  rs_data : forall (i : nat) c, c ∈ cs -> holds_byte (Z.of_nat i) c ->
    data r !! i = fc_data c !! Z.to_nat (Z.of_nat i - fc_offset c);
}.

Lemma reassembled_new size r : 0 <= size -> new size = Done r -> reassembled size [] r.
Proof.
  unfold new. zcases; [|done]. intros H0 [= <-]. split; cbn; try done; try constructor; try set_solver.
  rewrite length_replicate. lia.
Qed.

Lemma overlaps_apart size c stop cs :
  size < 2 ^ 64 -> Forall (in_file size) cs -> stop = stop_of c ->
  existsb (overlaps (fc_offset c) stop) (map (fun c => (fc_offset c, fc_length c)) cs) = false
  <-> Forall (fun a => apart a c) cs.
Proof.
  intros Hs Hin ->. induction Hin as [|a cs Ha _ IH]; cbn [map existsb]; [done|].
  rewrite orb_false_iff, IH, Forall_cons. apply and_iff_compat_r.
  destruct Ha as (H1 & H2 & H3). unfold overlaps, apart, stop_of in *. cbn [fst snd].
  rewrite wrap_small by (unfold in_width; lia). rewrite andb_false_iff, !Z.ltb_ge. lia.
Qed.

(** One chunk: accepted exactly when it lies in the file and apart from the
    earlier ones, and refused with the source's reason otherwise. *)
Lemma apply_chunk_cases size cs r c :
  reassembled size cs r -> 0 <= size < 2 ^ 63 -> is_u64 (fc_offset c) -> is_u32 (fc_length c) ->
  (in_file size c /\ Forall (fun a => apart a c) cs /\
   exists r', apply_chunk c r = Done (Ok tt, r') /\ reassembled size (cs ++ [c]) r') \/
  (~ in_file size c /\ apply_chunk c r = Done (Err PROTOCOL_FILE_CHUNK_OUT_OF_RANGE, r)) \/
  (in_file size c /\ ~ Forall (fun a => apart a c) cs /\
   apply_chunk c r = Done (Err PROTOCOL_FILE_CHUNK_OVERLAP, r)).
Proof.
  intros [Hsz Hrg Hlen Hin Hap Hdat] Hs Ho Hl. widths. unfold apply_chunk.
  destruct (Z.eqb_spec (Z.of_nat (length (fc_data c))) (fc_length c)) as [Hlc|Hlc]; cbn [negb].
  2: { right. left. split; [|done]. intros (_ & ? & _). done. }
  assert (checked_add 64 (fc_offset c) (fc_length c)
    = if stop_of c <? 2 ^ 64 then Some (stop_of c) else None) as -> by done.
  destruct (Z.ltb_spec (stop_of c) (2 ^ 64)) as [Hst|Hst].
  2: { right. left. split; [|done]. intros (_ & _ & ?). change (2 ^ 64) with 18446744073709551616 in *.
       change (2 ^ 63) with 9223372036854775808 in *. lia. }
  rewrite Hsz. destruct (Z.ltb_spec size (stop_of c)) as [Hgt|Hle].
  { right. left. split; [|done]. intros (_ & _ & ?). lia. }
  assert (in_file size c) as Hc by (unfold in_file; lia).
  pose proof (overlaps_apart size c _ cs ltac:(lia) Hin eq_refl) as Hov. rewrite Hrg.
  destruct (existsb _ _) eqn:E.
  { right. right. split; [done|]. split; [|done]. rewrite <- Hov. done. }
  left. clear E. pose proof (proj1 Hov eq_refl) as E. split; [done|]. split; [done|].
  unfold copy_range. unfold stop_of in *.
  rewrite (proj2 (Z.leb_le (fc_offset c) _)), (proj2 (Z.leb_le _ (Z.of_nat (length (data r))))),
    (proj2 (Z.eqb_eq _ _)) by lia.
  cbn [andb mbind outcome_bind]. eexists. split; [done|]. split; cbn [resolved_size received_ranges data].
  - done.
  - by rewrite map_app.
  - by rewrite length_inserts.
  - by apply Forall_snoc.
  - clear -Hap E. induction Hap as [|a cs Ha _ IH]; cbn; [by repeat constructor|].
    apply Forall_cons in E as [E1 E2]. constructor; [by apply Forall_snoc|by apply IH].
  - intros i a Ha Hi. rewrite lookup_list_inserts by lia. apply elem_of_app in Ha as [Ha | ->%list_elem_of_singleton].
    + rewrite Forall_forall in E. specialize (E a Ha). unfold apart, holds_byte, stop_of in *.
      rewrite decide_False by lia. by apply Hdat.
    + unfold holds_byte, stop_of in Hi. rewrite decide_True by lia. f_equal. lia.
Qed.

(** What the loop of [is_complete] decides, on ranges in any order sorted by
    offset: every position from [k] on is in a range. *)
Lemma cover_spec size l k :
  size < 2 ^ 64 -> StronglySorted by_offset l ->
  Forall (fun p => 0 <= p.1 /\ 0 <= p.2 /\ p.1 + p.2 <= size) l ->
  match cover k l with Some m => size <= m | None => False end
  <-> forall i, k <= i < size -> exists p, p ∈ l /\ p.1 <= i < p.1 + p.2.
Proof.
  intros Hs Hsort. revert k. induction Hsort as [|[o n] l _ IH Hle]; intros k Hin; cbn [cover].
  { split; [intros; lia|]. intros Hall. destruct (Z.le_gt_cases size k); [done|].
    destruct (Hall k) as (p & Hp & _); [lia|]. by apply not_elem_of_nil in Hp. }
  apply Forall_cons in Hin as [(H1 & H2 & H3) Hin]. cbn [fst snd] in *.
  rewrite wrap_small by (unfold in_width; lia). zcases.
  - split; [done|]. intros Hall. destruct (Hall k) as (p & Hp & Hk); [lia|].
    apply elem_of_cons in Hp as [-> | Hp]; [cbn in Hk; lia|].
    rewrite Forall_forall in Hle. specialize (Hle p Hp). unfold by_offset in Hle. cbn in Hle. lia.
  - rewrite IH by done. split; intros Hall i Hi.
    + destruct (Z.lt_ge_cases i (o + n)).
      * exists (o, n). cbn. split; [set_solver|lia].
      * destruct (Hall i) as (p & Hp & Hpi); [lia|]. exists p. split; [set_solver|done].
    + destruct (Hall i) as (p & Hp & Hpi); [lia|]. apply elem_of_cons in Hp as [-> | Hp]; [cbn in Hpi; lia|].
      by exists p.
Qed.

#[export] Instance by_offset_total : Total by_offset.
Proof. intros a b. unfold by_offset. lia. Qed.
#[export] Instance by_offset_trans : Transitive by_offset.
Proof. intros a b c. unfold by_offset. lia. Qed.

Lemma is_complete_spec size cs r :
  reassembled size cs r -> size < 2 ^ 64 ->
  is_complete r = true <-> forall i, 0 <= i < size -> exists c, c ∈ cs /\ holds_byte i c.
Proof.
  intros [Hsz Hrg _ Hin _ _] Hs. unfold is_complete. rewrite Hsz, Hrg.
  set (l := map (fun c => (fc_offset c, fc_length c)) cs).
  assert (Forall (fun p => 0 <= p.1 /\ 0 <= p.2 /\ p.1 + p.2 <= size) (merge_sort by_offset l)) as Hl.
  { rewrite merge_sort_Permutation. apply Forall_map. eapply Forall_impl; [exact Hin|].
    intros c (? & ? & ?). unfold stop_of in *. cbn. lia. }
  pose proof (cover_spec size _ 0 Hs (StronglySorted_merge_sort by_offset l) Hl) as Hc.
  assert (match cover 0 (merge_sort by_offset l) with Some covered => size <=? covered | None => false end = true
    <-> match cover 0 (merge_sort by_offset l) with Some m => size <= m | None => False end) as ->.
  { destruct (cover _ _); [apply Z.leb_le|done]. }
  rewrite Hc. split; intros Hall i Hi; destruct (Hall i Hi) as (p & Hp & Hpi).
  - rewrite merge_sort_Permutation in Hp. apply list_elem_of_fmap in Hp as (c & -> & Hp). by exists c.
  - exists (fc_offset p, fc_length p). rewrite merge_sort_Permutation. split; [|done].
    apply list_elem_of_fmap. by exists p.
Qed.

Definition chunk_wf (c : FileChunk) : Prop := is_u64 (fc_offset c) /\ is_u32 (fc_length c).

(** Any number of chunks, from any point on. *)
Lemma apply_chunks_ok size cs done_ r :
  0 <= size < 2 ^ 63 -> reassembled size done_ r -> Forall chunk_wf cs ->
  Forall (in_file size) cs -> ForallOrdPairs apart (done_ ++ cs) ->
  exists r', apply_chunks cs r = Done (Ok tt, r') /\ reassembled size (done_ ++ cs) r'.
Proof.
  intros Hs. revert done_ r. induction cs as [|c cs IH]; intros done_ r Hr Hwf Hin Hap.
  { exists r. by rewrite app_nil_r. }
  apply Forall_cons in Hwf as [[Ho Hl] Hwf]. apply Forall_cons in Hin as [Hc Hin].
  assert (Forall (fun a => apart a c) done_) as Ha.
  { clear -Hap. induction done_ as [|a l IH]; [constructor|]. inversion Hap as [|? ? Hf Hrest]; subst.
    constructor; [|by apply IH]. rewrite Forall_app, Forall_cons in Hf. by apply Hf. }
  destruct (apply_chunk_cases size done_ r c Hr Hs Ho Hl) as [(_ & _ & r1 & E & Hr1) | [[? _] | (_ & ? & _)]];
    [|done..].
  cbn [apply_chunks]. rewrite E. cbn. rewrite cons_middle, app_assoc in Hap |- *.
  by apply IH.
Qed.

Lemma reassembled_data size cs r (file : list Z) :
  reassembled size cs r -> Z.of_nat (length file) = size ->
  (forall i, 0 <= i < size -> exists c, c ∈ cs /\ holds_byte i c) ->
  (forall c (i : nat), c ∈ cs -> holds_byte (Z.of_nat i) c ->
     fc_data c !! Z.to_nat (Z.of_nat i - fc_offset c) = file !! i) ->
  data r = file.
Proof.
  intros [_ _ Hlen _ _ Hdat] Hf Hall Hc. apply list_eq. intros i.
  destruct (decide (i < length file)%nat) as [Hi|Hi].
  - destruct (Hall (Z.of_nat i)) as (c & Hin & Hb); [lia|]. by rewrite (Hdat i c), <- (Hc c i) by done.
  - rewrite !lookup_ge_None_2 by lia. done.
Qed.

(** The chunks the sender makes. *)
Lemma file_chunks_lookup n file i c :
  0 < n < 2 ^ 32 -> Z.of_nat (length file) < 2 ^ 63 ->
  file_chunks n file !! i = Some c ->
  fc_offset c = Z.of_nat i * n /\ fc_data c = take (Z.to_nat n) (drop (i * Z.to_nat n) file) /\
  fc_length c = Z.of_nat (length (fc_data c)) /\ fc_length c = Z.min n (Z.of_nat (length file) - fc_offset c) /\
  0 < fc_length c.
Proof.
  intros Hn Hf. unfold file_chunks. rewrite list_lookup_imap, fmap_Some. intros (bs & Hbs & ->).
  rewrite Z.max_l in Hbs by lia. unfold chunks in Hbs. rewrite list_lookup_fmap, fmap_Some in Hbs.
  destruct Hbs as (j & Hj & ->). apply lookup_seq in Hj as [-> Hj]. cbn [Nat.add] in *.
  set (k := Z.to_nat n) in *. assert (0 < k)%nat as Hk by lia.
  assert (i * k < length file)%nat as Hlt.
  { assert (k * ((length file + k - 1) / k) <= length file + k - 1)%nat by (apply Nat.Div0.mul_div_le). nia. }
  unfold file_chunk. cbn [fc_offset fc_length fc_data].
  rewrite length_take, length_drop.
  rewrite !wrap_small; [split_and!; try done; nia| |]; unfold in_width; nia.
Qed.

Lemma file_chunks_apart n file :
  0 < n < 2 ^ 32 -> Z.of_nat (length file) < 2 ^ 63 -> ForallOrdPairs apart (file_chunks n file).
Proof.
  intros Hn Hf.
  assert (forall i j c d, (i < j)%nat -> file_chunks n file !! i = Some c -> file_chunks n file !! j = Some d ->
    apart c d) as Hij.
  { intros i j c d Hlt Hc Hd. apply file_chunks_lookup in Hc as (Hc1 & _ & _ & Hc4 & _); [|done..].
    apply file_chunks_lookup in Hd as (Hd1 & _); [|done..]. left. unfold stop_of. rewrite Hd1. nia. }
  revert Hij. generalize (file_chunks n file) as l. induction l as [|x l IH]; intros Hij; constructor.
  - apply Forall_forall. intros y Hy. apply list_elem_of_lookup in Hy as [j Hj].
    apply (Hij 0%nat (S j)); [lia|done|done].
  - apply IH. intros i j c d Hlt Hc Hd. apply (Hij (S i) (S j)); [lia|done|done].
Qed.

Lemma file_chunks_in_file n file :
  0 < n < 2 ^ 32 -> Z.of_nat (length file) < 2 ^ 63 ->
  Forall (fun c => in_file (Z.of_nat (length file)) c /\ chunk_wf c) (file_chunks n file).
Proof.
  intros Hn Hf. apply Forall_forall. intros c Hc. apply list_elem_of_lookup in Hc as [i Hi].
  apply file_chunks_lookup in Hi as (H1 & H2 & H3 & H4 & H5); [|done..].
  unfold in_file, chunk_wf, stop_of. widths. change (2 ^ 63) with 9223372036854775808 in Hf. split_and!; nia.
Qed.

Lemma file_chunks_cover n file i :
  0 < n < 2 ^ 32 -> Z.of_nat (length file) < 2 ^ 63 -> 0 <= i < Z.of_nat (length file) ->
  exists c, c ∈ file_chunks n file /\ holds_byte i c.
Proof.
  intros Hn Hf Hi. set (j := Z.to_nat (i / n)).
  assert (is_Some (file_chunks n file !! j)) as [c Hc].
  { apply lookup_lt_is_Some. unfold file_chunks, chunks. rewrite Z.max_l by lia.
    rewrite length_imap, length_map, length_seq.
    apply (Nat.lt_le_trans _ (S j)); [lia|]. apply Nat.div_le_lower_bound; [lia|]. subst j.
    assert (Z.to_nat n * S (Z.to_nat (i / n)) = Z.to_nat (n * (i / n) + n))%nat as ->.
    { rewrite Nat.mul_succ_r, Z2Nat.inj_add, Z2Nat.inj_mul by (try apply Z.mul_nonneg_nonneg; try apply Z.div_pos; lia). lia. }
    pose proof (Z.mul_div_le i n ltac:(lia)). lia. }
  exists c. split; [by eapply list_elem_of_lookup_2|].
  apply file_chunks_lookup in Hc as (H1 & H2 & H3 & H4 & H5); [|done..].
  unfold holds_byte, stop_of. subst j.
  pose proof (Z.div_pos i n ltac:(lia) ltac:(lia)). rewrite Z2Nat.id in H1 by done.
  pose proof (Z.mul_div_le i n ltac:(lia)). pose proof (Z.mul_succ_div_gt i n ltac:(lia)). lia.
Qed.

Lemma file_chunks_bytes n file c (i : nat) :
  0 < n < 2 ^ 32 -> Z.of_nat (length file) < 2 ^ 63 -> c ∈ file_chunks n file ->
  holds_byte (Z.of_nat i) c -> fc_data c !! Z.to_nat (Z.of_nat i - fc_offset c) = file !! i.
Proof.
  intros Hn Hf Hc Hi. apply list_elem_of_lookup in Hc as [j Hj].
  apply file_chunks_lookup in Hj as (H1 & H2 & H3 & H4 & H5); [|done..].
  unfold holds_byte, stop_of in Hi. rewrite H2, lookup_take_lt, lookup_drop by lia. f_equal. nia.
Qed.

Lemma apply_chunks_inv size cs done_ r r' :
  0 <= size < 2 ^ 63 -> reassembled size done_ r -> Forall chunk_wf cs ->
  apply_chunks cs r = Done (Ok tt, r') -> reassembled size (done_ ++ cs) r'.
Proof.
  intros Hs. revert done_ r. induction cs as [|c cs IH]; intros done_ r Hr Hwf E.
  { injection E as <-. by rewrite app_nil_r. }
  apply Forall_cons in Hwf as [[Ho Hl] Hwf]. cbn [apply_chunks] in E.
  destruct (apply_chunk_cases size done_ r c Hr Hs Ho Hl) as [(_ & _ & r1 & E1 & Hr1) | [[_ E1] | (_ & _ & E1)]];
    rewrite E1 in E; [|done..].
  rewrite cons_middle, app_assoc. by eapply IH.
Qed.

Lemma ForallOrdPairs_perm {A} (R : A -> A -> Prop) l l' :
  (forall x y, R x y -> R y x) -> Permutation l l' -> ForallOrdPairs R l -> ForallOrdPairs R l'.
Proof.
  intros Hsym. induction 1 as [|x l l' Hp IH|x y l|l l' l'' _ IH1 _ IH2]; intros Hl; try done.
  - inversion Hl as [|? ? Hx Hl']; subst. constructor; [by rewrite <- Hp|by apply IH].
  - inversion Hl as [|? ? Hy Hl']; subst. inversion Hl' as [|? ? Hx Hl'']; subst.
    apply Forall_cons in Hy as [Hyx Hy]. repeat constructor; auto.
  - by apply IH2, IH1.
Qed.

Lemma apart_sym a b : apart a b -> apart b a.
Proof. unfold apart. tauto. Qed.

#[export] Instance in_file_dec size c : Decision (in_file size c).
Proof. unfold in_file. apply _. Defined.
#[export] Instance apart_dec a b : Decision (apart a b).
Proof. unfold apart. apply _. Defined.

Lemma reassemble_any_order n file cs r0 :
  0 < n < 2 ^ 32 -> Z.of_nat (length file) < 2 ^ 63 ->
  cs ≡ₚ file_chunks n file -> new (Z.of_nat (length file)) = Done r0 ->
  exists r, apply_chunks cs r0 = Done (Ok tt, r) /\ is_complete r = true /\ data r = file.
Proof.
  intros Hn Hf Hp Hnew. set (size := Z.of_nat (length file)) in *.
  assert (Forall (fun c => in_file size c /\ chunk_wf c) cs) as Hall
    by (rewrite Hp; by apply file_chunks_in_file).
  apply Forall_and in Hall as [Hin Hwf].
  assert (ForallOrdPairs apart cs) as Hap.
  { apply (ForallOrdPairs_perm apart (file_chunks n file)); [apply apart_sym|by rewrite Hp|].
    by apply file_chunks_apart. }
  destruct (apply_chunks_ok size cs [] r0) as (r & E & Hr);
    [lia|apply reassembled_new; [lia|done]|done..|].
  cbn [app] in Hr.
  assert (forall i, 0 <= i < size -> exists c, c ∈ cs /\ holds_byte i c) as Hcov.
  { intros i Hi. destruct (file_chunks_cover n file i) as (c & Hc & Hb); [done..|].
    exists c. by rewrite Hp. }
  assert (data r = file) as Hd.
  { apply (reassembled_data size cs); [done..|]. intros c i Hc. apply (file_chunks_bytes n); [done..|].
    by rewrite <- Hp. }
  exists r. split; [done|]. split; [apply (is_complete_spec size cs); [done|lia|done]|done].
Qed.

Lemma chunks_reassemble_in_order n file r0 :
  0 < n < 2 ^ 32 -> Z.of_nat (length file) < 2 ^ 63 ->
  new (Z.of_nat (length file)) = Done r0 ->
  exists r, apply_chunks (file_chunks n file) r0 = Done (Ok tt, r) /\ is_complete r = true /\ data r = file.
Proof. intros. by apply (reassemble_any_order n). Qed.

(** * Properties *)

(** The receiver's verdict on a chunk, after any accepted chunks: refused as
    out of range exactly when its declared length is not its data's or it
    reaches past the file's size (also when the sum overflows), as overlapping
    exactly when it meets an earlier range, and accepted otherwise; a refusal
    changes nothing, nothing ever panics, the transfer counts as complete
    exactly when every byte of the file was received, and every byte received
    is in place. *)
Theorem chunk_verdicts size r0 cs r c :
  0 <= size < 2 ^ 63 -> new size = Done r0 -> Forall chunk_wf (c :: cs) ->
  apply_chunks cs r0 = Done (Ok tt, r) ->
  (exists r', apply_chunk c r =
     Done (if decide (in_file size c) then
             if decide (Forall (fun a => apart a c) cs) then Ok tt
             else Err PROTOCOL_FILE_CHUNK_OVERLAP
           else Err PROTOCOL_FILE_CHUNK_OUT_OF_RANGE, r') /\
     (~ (in_file size c /\ Forall (fun a => apart a c) cs) -> r' = r)) /\
  (is_complete r = true <-> forall i, 0 <= i < size -> exists c', c' ∈ cs /\ holds_byte i c') /\
  (forall (i : nat) c', c' ∈ cs -> holds_byte (Z.of_nat i) c' ->
     data r !! i = fc_data c' !! Z.to_nat (Z.of_nat i - fc_offset c')).
Proof.
  intros Hs Hnew [[Ho Hl] Hwf]%Forall_cons Hok.
  assert (reassembled size [] r0) as Hr0 by (apply reassembled_new; [lia|done]).
  pose proof (apply_chunks_inv size cs [] r0 r Hs Hr0 Hwf Hok) as Hr. cbn [app] in Hr.
  split; [|split; [apply (is_complete_spec size cs r); [done|lia]|apply Hr]].
  destruct (apply_chunk_cases size cs r c Hr Hs Ho Hl) as [(H1 & H2 & r' & E & _) | [[H1 E] | (H1 & H2 & E)]].
  - exists r'. rewrite !decide_True by done. by split; [|intros []].
  - exists r. by rewrite decide_False.
  - exists r. by rewrite decide_True, decide_False.
Qed.

Lemma chunk_verdicts_witness :
  let c1 := {| fc_offset := 2; fc_length := 2; fc_data := [7; 8] |} in
  let c2 := {| fc_offset := 1; fc_length := 2; fc_data := [5; 6] |} in
  let r0 := {| resolved_size := 4; received_ranges := []; data := [0; 0; 0; 0] |} in
  let r := {| resolved_size := 4; received_ranges := [(2, 2)]; data := [0; 0; 7; 8] |} in
  (new 4 = Done r0 /\ apply_chunks [c1] r0 = Done (Ok tt, r)) /\
  (exists r', apply_chunk c2 r = Done (Err PROTOCOL_FILE_CHUNK_OVERLAP, r')) /\
  data r !! 3%nat = Some 8.
Proof.
  intros c1 c2 r0 r.
  assert (new 4 = Done r0) as H1 by done.
  assert (apply_chunks [c1] r0 = Done (Ok tt, r)) as H2 by done.
  split; [done|].
  assert (Forall chunk_wf [c2; c1]) as H3 by (repeat constructor; by vm_compute).
  destruct (chunk_verdicts 4 r0 [c1] r c2 ltac:(by vm_compute) H1 H3 H2) as ((r' & E & _) & _ & Hd).
  split; [by exists r'|].
  apply (Hd 3%nat c1); [set_solver|by vm_compute].
Defined.

(** A file survives chunking, in any order.  The chunks the sender cuts a
    file into, delivered in any order, are all accepted; the transfer is then
    complete, its content is the file, and the sender's checksum verifies. *)
Theorem chunks_reassemble `{Sha256} n file cs r0 :
  0 < n < 2 ^ 32 -> Z.of_nat (length file) < 2 ^ 63 ->
  cs ≡ₚ file_chunks n file -> new (Z.of_nat (length file)) = Done r0 ->
  exists r, apply_chunks cs r0 = Done (Ok tt, r) /\ is_complete r = true /\
    into_data r = file /\ verify_checksum r (sha256 file) = true.
Proof.
  intros Hn Hf Hp Hnew. destruct (reassemble_any_order n file cs r0) as (r & E & Hc & Hd); [done..|].
  exists r. split_and!; try done. unfold verify_checksum. rewrite Hd. by apply bool_decide_eq_true.
Qed.

Lemma chunks_reassemble_witness :
  let file := [1; 2; 3; 4; 5] in
  let cs := reverse (file_chunks 2 file) in
  let r0 := {| resolved_size := 5; received_ranges := []; data := [0; 0; 0; 0; 0] |} in
  (cs ≡ₚ file_chunks 2 file /\ new 5 = Done r0) /\
  exists r, apply_chunks cs r0 = Done (Ok tt, r) /\ is_complete r = true /\
    into_data r = file /\ @verify_checksum (fun d => [Z.of_nat (length d)]) r [5] = true.
Proof.
  intros file cs r0. assert (cs ≡ₚ file_chunks 2 file) as H1 by apply reverse_Permutation.
  assert (new 5 = Done r0) as H2 by done. split; [done|].
  apply (@chunks_reassemble (fun d => [Z.of_nat (length d)]) 2 file cs r0); [lia|by vm_compute|exact H1|exact H2].
Defined.

(** A chunk size of zero does not work: the data is cut into chunks of one
    byte, but every one of them is sent with offset zero, so the second is
    refused as overlapping for every file of two or more bytes. *)
Theorem zero_chunk_size_overlaps a b rest r0 :
  Z.of_nat (length (a :: b :: rest)) < 2 ^ 63 ->
  new (Z.of_nat (length (a :: b :: rest))) = Done r0 ->
  exists r, apply_chunks (file_chunks 0 (a :: b :: rest)) r0
    = Done (Err PROTOCOL_FILE_CHUNK_OVERLAP, r) /\ is_complete r = false.
Proof.
  intros Hf Hnew. set (size := Z.of_nat (length (a :: b :: rest))) in *.
  assert (exists cs, file_chunks 0 (a :: b :: rest)
    = {| fc_offset := 0; fc_length := 1; fc_data := [a] |}
      :: {| fc_offset := 0; fc_length := 1; fc_data := [b] |} :: cs) as [cs ->].
  { unfold file_chunks, chunks. change (Z.to_nat (Z.max 0 1)) with 1%nat. rewrite Nat.div_1_r.
    cbn [length]. replace (S (S (length rest)) + 1 - 1)%nat with (S (S (length rest))) by lia.
    cbn [seq map imap Nat.add]. by eexists. }
  assert (reassembled size [] r0) as H0 by (apply reassembled_new; [lia|done]).
  assert (2 <= size) as H2 by (subst size; cbn [length]; lia).
  set (c := {| fc_offset := 0; fc_length := 1; fc_data := [a] |}).
  set (d := {| fc_offset := 0; fc_length := 1; fc_data := [b] |}).
  assert (in_file size c /\ in_file size d) as [Hc Hd] by (unfold in_file, stop_of; cbn; lia).
  destruct (apply_chunk_cases size [] r0 c H0) as [(_ & _ & r1 & E & Hr1) | [[? _] | (_ & Hx & _)]];
    [lia|by vm_compute..| |done|by destruct Hx].
  cbn [apply_chunks]. rewrite E. cbn.
  destruct (apply_chunk_cases size [c] r1 d Hr1) as [(_ & Hx & _) | [[? _] | (_ & _ & E2)]];
    [lia|by vm_compute..| |done|].
  { apply Forall_cons in Hx as [[Hx|Hx] _]; by vm_compute in Hx. }
  cbn [app] in *. rewrite E2. exists r1. split; [done|]. apply not_true_iff_false.
  rewrite (is_complete_spec size [c]) by (done || lia). intros Hall.
  destruct (Hall 1) as (c' & ->%list_elem_of_singleton & Hh); [lia|]. unfold holds_byte, stop_of in Hh. cbn in Hh. lia.
Qed.

Lemma zero_chunk_size_overlaps_witness :
  let r0 := {| resolved_size := 2; received_ranges := []; data := [0; 0] |} in
  new 2 = Done r0 /\
  exists r, apply_chunks (file_chunks 0 [5; 6]) r0 = Done (Err PROTOCOL_FILE_CHUNK_OVERLAP, r) /\
    is_complete r = false.
Proof.
  intros r0. assert (new 2 = Done r0) as H by done. split; [exact H|].
  apply (zero_chunk_size_overlaps 5 6 [] r0); [by vm_compute|exact H].
Defined.
