(* ===== verification/Connection.v ===== *)
(** A QUIC connection as the session code uses it.

    [quinn] is not modelled: what its [accept] and [open] calls yield is a
    script of the connection, like the reads and writes of a stream in
    [StreamReader]; the theorems quantify over it. *)

From S2P Require Import Prelude.
From S2P Require Import Async.
From S2P Require Import StreamKind.
From S2P Require Import Prologue.
From S2P Require Import StreamReader.

Section connection.
Context `{Transport}.

(** What [accept_uni] or [accept_bi] yields: a stream with what its reads will
    yield (and, for a bidirectional one, its sending half), a failure, or the
    firing of a timer armed around the call. *)
Inductive accept_event :=
| AStream (incoming : list read_event) (outgoing : SendStream)
| AFail (e : ConnectionError)
| AElapsed.

(** What [open_uni] or [open_bi] yields. *)
Inductive open_event :=
| OStream (outgoing : SendStream) (incoming : list read_event)
| OFail (e : ConnectionError)
| OElapsed.

Record Connection := {
  uni_accepts : list accept_event;
  bi_accepts : list accept_event;
  uni_opens : list open_event;
  bi_opens : list open_event;
  released : list SendStream;  (** the sending halves dropped so far *)
  stopped_readers : list Z;    (** the codes of the [stop] calls so far *)
}.

Fixpoint next_accept (timed : bool) (evs : list accept_event) :
    poll ConnectionError (list read_event * SendStream) * list accept_event :=
  match evs with
  | [] => (Pending, [])
  | AStream r s :: evs' => (Ready (Ok (r, s)), evs')
  | AFail e :: _ => (Ready (Err e), evs)
  | AElapsed :: evs' => if timed then (Elapsed, evs') else next_accept timed evs'
  end.

Fixpoint next_open (timed : bool) (evs : list open_event) :
    poll ConnectionError (SendStream * list read_event) * list open_event :=
  match evs with
  | [] => (Pending, [])
  | OStream s r :: evs' => (Ready (Ok (s, r)), evs')
  | OFail e :: _ => (Ready (Err e), evs)
  | OElapsed :: evs' => if timed then (Elapsed, evs') else next_open timed evs'
  end.

Definition accept_uni (timed : bool) : async Connection ConnectionError (list read_event) := fun c =>
  let '(p, evs) := next_accept timed (uni_accepts c) in
  (match p with
   | Ready (Ok (r, _)) => Ready (Ok r)
   | Ready (Err e) => Ready (Err e)
   | Pending => Pending | Elapsed => Elapsed | Crash => Crash
   end,
   {| uni_accepts := evs; bi_accepts := bi_accepts c; uni_opens := uni_opens c;
      bi_opens := bi_opens c; released := released c; stopped_readers := stopped_readers c |}).

Definition accept_bi (timed : bool) : async Connection ConnectionError (SendStream * list read_event) :=
  fun c =>
  let '(p, evs) := next_accept timed (bi_accepts c) in
  (match p with
   | Ready (Ok (r, s)) => Ready (Ok (s, r))
   | Ready (Err e) => Ready (Err e)
   | Pending => Pending | Elapsed => Elapsed | Crash => Crash
   end,
   {| uni_accepts := uni_accepts c; bi_accepts := evs; uni_opens := uni_opens c;
      bi_opens := bi_opens c; released := released c; stopped_readers := stopped_readers c |}).

(** [open_uni] inside a [timeout] if [timed]. *)
Definition open_uni_within (timed : bool) : async Connection ConnectionError SendStream := fun c =>
  let '(p, evs) := next_open timed (uni_opens c) in
  (match p with
   | Ready (Ok (s, _)) => Ready (Ok s)
   | Ready (Err e) => Ready (Err e)
   | Pending => Pending | Elapsed => Elapsed | Crash => Crash
   end,
   {| uni_accepts := uni_accepts c; bi_accepts := bi_accepts c; uni_opens := evs;
      bi_opens := bi_opens c; released := released c; stopped_readers := stopped_readers c |}).

Definition open_uni : async Connection ConnectionError SendStream := open_uni_within false.

Definition open_bi : async Connection ConnectionError (SendStream * list read_event) := fun c =>
  let '(p, evs) := next_open false (bi_opens c) in
  (p,
   {| uni_accepts := uni_accepts c; bi_accepts := bi_accepts c; uni_opens := uni_opens c;
      bi_opens := evs; released := released c; stopped_readers := stopped_readers c |}).

(** A sending half goes out of scope. *)
Definition release (s : SendStream) (c : Connection) : Connection :=
  {| uni_accepts := uni_accepts c; bi_accepts := bi_accepts c; uni_opens := uni_opens c;
     bi_opens := bi_opens c; released := released c ++ [s]; stopped_readers := stopped_readers c |}.

(** A reader that was [stop]ped goes out of scope. *)
Definition note_stop (code : Z) (c : Connection) : Connection :=
  {| uni_accepts := uni_accepts c; bi_accepts := bi_accepts c; uni_opens := uni_opens c;
     bi_opens := bi_opens c; released := released c; stopped_readers := stopped_readers c ++ [code] |}.

(** Runs [m] on a local variable and hands back its result with the variable. *)
Definition alocal {S T E F A} (t : T) (m : async T E A) : async S F (result E A * T) := fun s =>
  match m t with
  | (Ready r, t') => (Ready (Ok (r, t')), s)
  | (Pending, _) => (Pending, s)
  | (Elapsed, _) => (Elapsed, s)
  | (Crash, _) => (Crash, s)
  end.

(** The same with [?]: an error leaves the function. *)
Definition alocal_try {S T E A} (t : T) (m : async T E A) : async S E (A * T) :=
  '(r, t') ← alocal t m;
  x ← alift r;
  aret (x, t').

(** ** Facts *)

Lemma alocal_ready {S T E F A} (t : T) (m : async T E A) r t' (s : S) :
  m t = (Ready r, t') -> @alocal S T E F A t m s = (Ready (Ok (r, t')), s).
Proof. unfold alocal. by intros ->. Qed.

Lemma alocal_try_ready {S T E A} (t : T) (m : async T E A) x t' (s : S) :
  m t = (Ready (Ok x), t') -> alocal_try t m s = (Ready (Ok (x, t')), s).
Proof. intros Hm. unfold alocal_try. by erewrite abind_ready by (by apply alocal_ready). Qed.

Lemma alocal_try_inv {S T E A} (t : T) (m : async T E A) y s s' :
  @alocal_try S T E A t m s = (Ready (Ok y), s') -> m t = (Ready (Ok y.1), y.2) /\ s' = s.
Proof.
  unfold alocal_try, alocal, mbind, async_bind, abind, alift, aret.
  destruct (m t) as [[[x|e]| | |] t'] eqn:Em; cbn; intros Hx; try done. by injection Hx as <- <-.
Qed.

End connection.
