(* ===== verification/VideoSession.v ===== *)
(** A video instance on its stream: the model of [src/src/video_session.rs]. *)

From S2P Require Import Prelude.
From S2P Require Varint.
From S2P Require Import ReasonCode.
From S2P Require Import StreamKind.
From S2P Require Import Prologue.
From S2P Require Import Envelope.
From S2P Require Import Async.
From S2P Require Import StreamReader.
From S2P Require Import Connection.
From S2P Require Import Messages.
From S2P Require Import MessageCodecs.
From S2P Require VideoSm.

Section video_session.
Context `{Transport}.
Context `{!Cbor VideoStreamGeneration, !Cbor EncoderConfig, !Cbor VideoFrameHeader}.

(** * Definitions *)

Inductive VideoError :=
| Quic (e : ConnectionError)
| Write (e : WriteError)
| ReadErr (e : StreamReadError)
| Decode (e : DecodeError)
| Violation (reason : ReasonCode)
| FrameLengthMismatch
| WrongStreamKind.

Definition violation (v : VideoSm.ProtocolViolation) : VideoError := Violation (VideoSm.pv_reason v).

(** [sm.transition().map_err(violation)?]. *)
Definition step_sm {S} (t : VideoSm.transition) (sm : VideoSm.VideoInstanceSm) :
    async S VideoError VideoSm.VideoInstanceSm :=
  _ ← alift (map_err violation (t sm).1);
  aret (t sm).2.

(** [timed] where the caller has armed a timeout around the call. *)
Definition send_message (timed : bool) (t : Z) (payload : list Z) : async SendStream VideoError unit :=
  amap_err Write (write_envelope timed t payload).

(** ** The server *)

(** What follows [open_uni]. *)
Definition send_intro (timed : bool) (monitor_id generation config_id : Z) (encoder_config : EncoderConfig)
    (idr_payload : list Z) (capture encode_done : Z) :
    async SendStream VideoError VideoSm.VideoInstanceSm :=
  let sm := VideoSm.new in
  prologue_bytes ← aoutcome (Prologue.encode Video 1 monitor_id []);
  _ ← amap_err Write (write_all timed prologue_bytes);
  sm ← step_sm VideoSm.on_prologue_sent sm;
  let generation_msg := {| vsg_generation := generation; vsg_config_id := config_id |} in
  _ ← send_message timed type_id.VIDEO_STREAM_GENERATION (encode generation_msg);
  sm ← step_sm VideoSm.on_generation_sent sm;
  _ ← send_message timed type_id.ENCODER_CONFIG (encode encoder_config);
  sm ← step_sm VideoSm.on_encoder_config_sent sm;
  let header :=
    {| vfh_generation := generation; frame_id := 0; vfh_config_id := config_id;
       flags := VIDEO_FRAME_FLAG_IDR; capture_ts := capture; encode_done_ts := encode_done;
       vfh_width := ec_width encoder_config; vfh_height := ec_height encoder_config;
       payload_len := Z.of_nat (length idr_payload) |} in
  _ ← send_message timed type_id.VIDEO_FRAME_HEADER (encode header);
  _ ← send_message timed type_id.VIDEO_FRAME_PAYLOAD idr_payload;
  step_sm VideoSm.on_first_idr_sent sm.

Definition open_video_instance (timed : bool) (monitor_id generation config_id : Z) (encoder_config : EncoderConfig)
    (idr_payload : list Z) (capture encode_done : Z) :
    async Connection VideoError (SendStream * VideoSm.VideoInstanceSm) :=
  send ← amap_err Quic (open_uni_within timed);
  '(sm, send) ← alocal_try send
    (send_intro timed monitor_id generation config_id encoder_config idr_payload capture encode_done);
  aret (send, sm).

Definition send_video_frame (generation frame config_id frame_flags capture encode_done width height : Z)
    (payload : list Z) : async SendStream VideoError unit :=
  let header :=
    {| vfh_generation := generation; frame_id := frame; vfh_config_id := config_id;
       flags := frame_flags; capture_ts := capture; encode_done_ts := encode_done;
       vfh_width := width; vfh_height := height; payload_len := Z.of_nat (length payload) |} in
  _ ← send_message false type_id.VIDEO_FRAME_HEADER (encode header);
  _ ← send_message false type_id.VIDEO_FRAME_PAYLOAD payload;
  aret tt.

(** ** The client *)

Record VideoInstanceIntro := {
  monitor_id : Z;
  generation : VideoStreamGeneration;
  encoder_config : EncoderConfig;
  first_frame_header : VideoFrameHeader;
  first_frame_payload : list Z;
}.

(** The next envelope, which has to be of type [t]. *)
Definition expect_message (timed : bool) (t : Z) : async EnvelopeReader VideoError (list Z) :=
  '(type_raw, payload) ← amap_err ReadErr (read_envelope timed (max_envelope_length Video));
  if negb (type_raw =? t) then athrow (Violation PROTOCOL_UNEXPECTED_MESSAGE) else aret payload.

(** What follows [accept_uni]; [timed] inside a [timeout]. *)
Definition read_intro (timed : bool) : async EnvelopeReader VideoError VideoInstanceIntro :=
  let sm := VideoSm.new in
  stream_prologue ← amap_err ReadErr (read_prologue timed);
  if negb (bool_decide (kind stream_prologue = Video)) then athrow WrongStreamKind
  else
    sm ← step_sm VideoSm.on_prologue_sent sm;
    payload ← expect_message timed type_id.VIDEO_STREAM_GENERATION;
    gen ← alift (map_err Decode (decode payload));
    sm ← step_sm VideoSm.on_generation_sent sm;
    payload ← expect_message timed type_id.ENCODER_CONFIG;
    config ← alift (map_err Decode (decode payload));
    sm ← step_sm VideoSm.on_encoder_config_sent sm;
    payload ← expect_message timed type_id.VIDEO_FRAME_HEADER;
    header ← alift (map_err Decode (decode payload));
    frame_payload ← expect_message timed type_id.VIDEO_FRAME_PAYLOAD;
    if negb (Z.of_nat (length frame_payload) =? payload_len header) then athrow FrameLengthMismatch
    else
      _ ← step_sm VideoSm.on_first_idr_sent sm;
      aret {| monitor_id := context_id stream_prologue; generation := gen; encoder_config := config;
              first_frame_header := header; first_frame_payload := frame_payload |}.

Definition accept_intro (timed : bool) : async Connection VideoError (VideoInstanceIntro * EnvelopeReader) :=
  recv ← amap_err Quic (accept_uni timed);
  alocal_try (StreamReader.new recv) (read_intro timed).

Definition read_video_instance_intro : async Connection VideoError VideoInstanceIntro :=
  '(intro, _) ← accept_intro false;
  aret intro.

Record VideoFrameReader := {
  reader : EnvelopeReader;
  pending_header : option VideoFrameHeader;
}.

Definition accept_video_instance_within (timed : bool) :
    async Connection VideoError (VideoInstanceIntro * VideoFrameReader) :=
  '(intro, reader) ← accept_intro timed;
  aret (intro, {| reader := reader; pending_header := None |}).

Definition accept_video_instance : async Connection VideoError (VideoInstanceIntro * VideoFrameReader) :=
  accept_video_instance_within false.

Definition on_reader {A} : async EnvelopeReader VideoError A -> async VideoFrameReader VideoError A :=
  azoom reader (fun r s => {| reader := r; pending_header := pending_header s |}).

(** [self.pending_header.take()] and the assignment to it. *)
Definition take_pending : async VideoFrameReader VideoError (option VideoFrameHeader) := fun s =>
  (Ready (Ok (pending_header s)), {| reader := reader s; pending_header := None |}).

Definition park (header : VideoFrameHeader) : async VideoFrameReader VideoError unit := fun s =>
  (Ready (Ok tt), {| reader := reader s; pending_header := Some header |}).

(** A future that is dropped while it waits leaves the reader as it is at that
    moment: the outcome [Elapsed], possible where [timed] says so. *)
Definition read_next_frame (timed : bool) :
    async VideoFrameReader VideoError (VideoFrameHeader * list Z) :=
  pending ← take_pending;
  header ← match pending with
           | Some header => aret header
           | None =>
               payload ← on_reader (expect_message timed type_id.VIDEO_FRAME_HEADER);
               alift (map_err Decode (decode payload))
           end;
  _ ← park header;
  '(type_raw, frame_payload) ←
    on_reader (amap_err ReadErr (read_envelope timed (max_envelope_length Video)));
  parked ← take_pending;
  header ← aoutcome (match parked with Some header => Done header | None => Panicked end);
  if negb (type_raw =? type_id.VIDEO_FRAME_PAYLOAD) then athrow (Violation PROTOCOL_UNEXPECTED_MESSAGE)
  else if negb (Z.of_nat (length frame_payload) =? payload_len header) then athrow FrameLengthMismatch
  else aret (header, frame_payload).

(** * Lemmas *)

Definition fits (p : list Z) : Prop := Z.of_nat (length p) <= max_envelope_length Video.

Lemma send_message_ok timed t p s :
  fits p -> write_results s = [] ->
  send_message timed t p s = (Ready (Ok tt), {| sent := sent s ++ frame t p; write_results := [] |}).
Proof.
  intros Hp Hw. unfold send_message, amap_err. rewrite write_envelope_frame; [done| |done].
  etransitivity; [exact Hp|]. by vm_compute.
Qed.

Lemma expect_message_ok t p rest r :
  is_u16 t -> fits p -> stream_bytes r = frame t p ++ rest ->
  exists r', expect_message false t r = (Ready (Ok p), r') /\ stream_bytes r' = rest.
Proof.
  intros Ht Hp Hs.
  destruct (read_envelope_frame false (max_envelope_length Video) r t p rest)
    as (r' & Hr & Hb & _); [done..|by vm_compute|done|done|].
  exists r'. split; [|done]. unfold expect_message.
  erewrite abind_ready by (unfold amap_err; rewrite Hr; reflexivity). cbv beta iota. by rewrite Z.eqb_refl.
Qed.

(** ** Cancellation *)

Context `{!CborLaws VideoFrameHeader}.
Set Default Proof Using "Type*".

(** A frame is owed to the client: its header and payload are next on the
    stream, or its header is parked and its payload is next. *)
Definition owed (h : VideoFrameHeader) (p rest : list Z) (s : VideoFrameReader) : Prop :=
  match pending_header s with
  | None =>
      stream_bytes (reader s) = frame type_id.VIDEO_FRAME_HEADER (encode h)
                                ++ frame type_id.VIDEO_FRAME_PAYLOAD p ++ rest
  | Some h' => h' = h /\ stream_bytes (reader s) = frame type_id.VIDEO_FRAME_PAYLOAD p ++ rest
  end.

Definition frame_ok (h : VideoFrameHeader) (p : list Z) : Prop :=
  fits (encode h) /\ fits p /\ payload_len h = Z.of_nat (length p).

(** The payload of a parked header. *)
Lemma read_parked_frame h p rest r :
  frame_ok h p -> stream_bytes r = frame type_id.VIDEO_FRAME_PAYLOAD p ++ rest ->
  exists s',
    (read_next_frame true {| reader := r; pending_header := Some h |} = (Ready (Ok (h, p)), s') /\
     pending_header s' = None /\ stream_bytes (reader s') = rest /\
     (length (recv (reader s')) <= length (recv r))%nat) \/
    (read_next_frame true {| reader := r; pending_header := Some h |} = (Elapsed, s') /\ owed h p rest s' /\
     (length (recv (reader s')) < length (recv r))%nat).
Proof.
  intros (Hh & Hp & Hlen) Hs.
  destruct (read_envelope_cancel (max_envelope_length Video) r type_id.VIDEO_FRAME_PAYLOAD p rest)
    as (r' & Hr); [by vm_compute|done|by vm_compute|done|].
  destruct Hr as [(Hr & Hb & Hl)|(Hr & Hb & Hl)].
  - exists {| reader := r'; pending_header := None |}. left. split; [|done].
    unfold read_next_frame. do 3 erewrite abind_ready by done. cbn [reader pending_header].
    erewrite abind_ready by (unfold on_reader, azoom, amap_err; cbn [reader]; rewrite Hr; reflexivity).
    cbv beta iota. do 2 erewrite abind_ready by done. rewrite Z.eqb_refl, Hlen, Z.eqb_refl. done.
  - exists {| reader := r'; pending_header := Some h |}. right.
    split; [|split; [split; [done|cbn [reader]; by rewrite Hb]|done]].
    unfold read_next_frame. do 3 erewrite abind_ready by done. cbn [reader pending_header].
    unfold mbind, async_bind, abind, on_reader, azoom, amap_err. cbn [reader]. by rewrite Hr.
Qed.

(** One call, cancelled or not. *)
Lemma read_owed_frame h p rest s :
  frame_ok h p -> owed h p rest s ->
  exists s',
    (read_next_frame true s = (Ready (Ok (h, p)), s') /\ pending_header s' = None /\
     stream_bytes (reader s') = rest /\ (length (recv (reader s')) <= length (recv (reader s)))%nat) \/
    (read_next_frame true s = (Elapsed, s') /\ owed h p rest s' /\
     (length (recv (reader s')) < length (recv (reader s)))%nat).
Proof.
  intros Hok Ho. destruct s as [r [h'|]]; unfold owed in Ho; cbn [pending_header reader] in Ho.
  { destruct Ho as [-> Hs]. by apply read_parked_frame. }
  destruct (read_envelope_cancel (max_envelope_length Video) r type_id.VIDEO_FRAME_HEADER (encode h)
    (frame type_id.VIDEO_FRAME_PAYLOAD p ++ rest))
    as (r1 & Hr); [by vm_compute|by apply Hok|by vm_compute|done|].
  destruct Hr as [(Hr & Hb & Hl)|(Hr & Hb & Hl)].
  - destruct (read_parked_frame h p rest r1 Hok Hb) as (s' & Hs').
    exists s'. cbn [reader].
    assert (read_next_frame true {| reader := r; pending_header := None |}
            = read_next_frame true {| reader := r1; pending_header := Some h |}) as ->.
    { unfold read_next_frame.
      rewrite (abind_ready take_pending _ {| reader := r; pending_header := None |} None
        {| reader := r; pending_header := None |} eq_refl).
      erewrite abind_ready.
      2: { cbv beta iota. erewrite abind_ready; [unfold alift; rewrite decode_encode_msg; reflexivity|].
           unfold on_reader, azoom, expect_message. cbn [reader].
           erewrite abind_ready by (unfold amap_err; rewrite Hr; reflexivity).
           cbv beta iota. rewrite Z.eqb_refl. reflexivity. }
      by rewrite (abind_ready take_pending _ {| reader := r1; pending_header := Some h |} (Some h)
        {| reader := r1; pending_header := None |} eq_refl). }
    destruct Hs' as [(E1 & E2 & E3 & E4)|(E1 & E2 & E3)]; [left|right]; split_and!; try done; lia.
  - exists {| reader := r1; pending_header := None |}. right. cbn [reader].
    split; [|split; [|done]].
    + unfold read_next_frame. erewrite abind_ready by done. cbv beta iota.
      unfold expect_message, mbind, async_bind, abind, on_reader, azoom, amap_err.
      cbn [reader pending_header]. by rewrite Hr.
    + unfold owed. cbn [pending_header reader]. by rewrite Hb.
Qed.

(** A client loop whose [select!] drops the read whenever another arm is ready and
    calls it again: at most [attempts] calls for a frame. *)
Fixpoint read_frame_retrying (attempts : nat) :
    async VideoFrameReader VideoError (VideoFrameHeader * list Z) := fun s =>
  match attempts with
  | O => (Elapsed, s)
  | S attempts' =>
      match read_next_frame true s with
      | (Elapsed, s') => read_frame_retrying attempts' s'
      | o => o
      end
  end.

Fixpoint read_frames (n attempts : nat) : async VideoFrameReader VideoError (list (VideoFrameHeader * list Z)) :=
  match n with
  | O => aret []
  | S n' =>
      f ← read_frame_retrying attempts;
      fs ← read_frames n' attempts;
      aret (f :: fs)
  end.

(** The bytes of a list of frames. *)
Definition frame_bytes (fs : list (VideoFrameHeader * list Z)) : list Z :=
  concat (map (fun '(h, p) => frame type_id.VIDEO_FRAME_HEADER (encode h)
                              ++ frame type_id.VIDEO_FRAME_PAYLOAD p) fs).

Lemma read_frame_retrying_ok attempts h p rest s :
  frame_ok h p -> owed h p rest s -> (length (recv (reader s)) < attempts)%nat ->
  exists s', read_frame_retrying attempts s = (Ready (Ok (h, p)), s') /\ pending_header s' = None /\
    stream_bytes (reader s') = rest /\ (length (recv (reader s')) <= length (recv (reader s)))%nat.
Proof.
  intros Hok. revert s. induction attempts as [|a IH]; intros s Ho Hl; [lia|].
  cbn [read_frame_retrying].
  destruct (read_owed_frame h p rest s Hok Ho) as (s1 & [(-> & E2 & E3 & E4)|(-> & E2 & E3)]).
  - by exists s1.
  - destruct (IH s1 E2 ltac:(lia)) as (s2 & F1 & F2 & F3 & F4). exists s2. split_and!; try done. lia.
Qed.

Lemma read_frames_ok fs rest attempts s :
  Forall (fun f => frame_ok f.1 f.2) fs ->
  pending_header s = None -> stream_bytes (reader s) = frame_bytes fs ++ rest ->
  (length (recv (reader s)) < attempts)%nat ->
  exists s', read_frames (length fs) attempts s = (Ready (Ok fs), s') /\
    pending_header s' = None /\ stream_bytes (reader s') = rest.
Proof.
  intros Hfs. revert s. induction Hfs as [|[h p] fs Hf _ IH]; intros s Hn Hs Hl.
  { by exists s. }
  cbn [frame_bytes map concat] in Hs. rewrite <- !app_assoc in Hs.
  destruct (read_frame_retrying_ok attempts h p (frame_bytes fs ++ rest) s) as (s1 & F1 & F2 & F3 & F4);
    [done|unfold owed; by rewrite Hn|done|].
  destruct (IH s1 F2 F3 ltac:(lia)) as (s2 & G1 & G2 & G3).
  exists s2. split; [|done]. cbn [length read_frames].
  erewrite abind_ready by exact F1. by erewrite abind_ready by exact G1.
Qed.

(** * Properties *)

(** Frames survive cancellation.  Let the frames of a list be next on the stream,
    each header announcing the length of its payload.  However the transport
    cuts them into chunks, and at whichever points of the waiting the read is
    dropped and called again, the client reads exactly these frames in order and
    keeps what follows them; a call per scripted event and one more is enough
    for each frame. *)
Theorem frames_survive_cancellation fs rest attempts s :
  Forall (fun f => frame_ok f.1 f.2) fs ->
  pending_header s = None -> stream_bytes (reader s) = frame_bytes fs ++ rest ->
  (length (recv (reader s)) < attempts)%nat ->
  exists s', read_frames (length fs) attempts s = (Ready (Ok fs), s') /\
    pending_header s' = None /\ stream_bytes (reader s') = rest.
Proof. apply read_frames_ok. Qed.

Context `{!CborLaws VideoStreamGeneration, !CborLaws EncoderConfig}.

Definition intro_header (gen config_id : Z) (config : EncoderConfig) (idr : list Z) (capture encode_done : Z) :
    VideoFrameHeader :=
  {| vfh_generation := gen; frame_id := 0; vfh_config_id := config_id; flags := VIDEO_FRAME_FLAG_IDR;
     capture_ts := capture; encode_done_ts := encode_done; vfh_width := ec_width config;
     vfh_height := ec_height config; payload_len := Z.of_nat (length idr) |}.

(** The bytes of an intro behind its prologue. *)
Definition intro_bytes (gen config_id : Z) (config : EncoderConfig) (idr : list Z) (capture encode_done : Z) :
    list Z :=
  frame type_id.VIDEO_STREAM_GENERATION (encode {| vsg_generation := gen; vsg_config_id := config_id |})
  ++ frame type_id.ENCODER_CONFIG (encode config)
  ++ frame type_id.VIDEO_FRAME_HEADER (encode (intro_header gen config_id config idr capture encode_done))
  ++ frame type_id.VIDEO_FRAME_PAYLOAD idr.

Definition streaming_sm : VideoSm.VideoInstanceSm :=
  {| VideoSm.state := VideoSm.Streaming; VideoSm.sent_generation := true;
     VideoSm.sent_encoder_config := true |}.

Lemma send_intro_ok timed mon gen config_id config idr capture encode_done pb s :
  Prologue.encode Video 1 mon [] = Done pb ->
  fits (encode {| vsg_generation := gen; vsg_config_id := config_id |}) -> fits (encode config) ->
  fits (encode (intro_header gen config_id config idr capture encode_done)) -> fits idr ->
  write_results s = [] ->
  send_intro timed mon gen config_id config idr capture encode_done s
  = (Ready (Ok streaming_sm),
     {| sent := sent s ++ pb ++ intro_bytes gen config_id config idr capture encode_done;
        write_results := [] |}).
Proof.
  intros Hpb Hg Hc Hh Hi Hw. unfold send_intro. rewrite Hpb.
  erewrite abind_ready by done.
  erewrite abind_ready by (unfold amap_err, write_all; rewrite Hw; reflexivity).
  erewrite abind_ready by done. erewrite abind_ready by (by apply send_message_ok).
  erewrite abind_ready by done. erewrite abind_ready by (by apply send_message_ok).
  erewrite abind_ready by done. erewrite abind_ready by (by apply send_message_ok).
  erewrite abind_ready by (by apply send_message_ok).
  unfold intro_bytes. cbn [sent]. by rewrite <- !app_assoc.
Qed.

Lemma read_intro_ok mon gen config_id config idr capture encode_done pb rest r :
  0 <= mon <= Varint.MAX -> Prologue.encode Video 1 mon [] = Done pb ->
  fits (encode {| vsg_generation := gen; vsg_config_id := config_id |}) -> fits (encode config) ->
  fits (encode (intro_header gen config_id config idr capture encode_done)) -> fits idr ->
  stream_bytes r = pb ++ intro_bytes gen config_id config idr capture encode_done ++ rest ->
  exists r',
    read_intro false r = (Ready (Ok
      {| monitor_id := mon; generation := {| vsg_generation := gen; vsg_config_id := config_id |};
         encoder_config := config;
         first_frame_header := intro_header gen config_id config idr capture encode_done;
         first_frame_payload := idr |}), r') /\
    stream_bytes r' = rest.
Proof.
  intros Hmon Hpb Hg Hc Hh Hi Hs. unfold intro_bytes in Hs. rewrite <- !app_assoc in Hs.
  edestruct (read_prologue_next false r Video 1 mon pb) as (r1 & Hr1 & Hb1 & _); [done..|exact Hs|].
  edestruct expect_message_ok as (r2 & Hr2 & Hb2); [|exact Hg|exact Hb1|]; [by vm_compute|].
  edestruct expect_message_ok as (r3 & Hr3 & Hb3); [|exact Hc|exact Hb2|]; [by vm_compute|].
  edestruct expect_message_ok as (r4 & Hr4 & Hb4); [|exact Hh|exact Hb3|]; [by vm_compute|].
  edestruct expect_message_ok as (r5 & Hr5 & Hb5); [|exact Hi|exact Hb4|]; [by vm_compute|].
  exists r5. split; [|done]. unfold read_intro.
  erewrite abind_ready by (unfold amap_err; rewrite Hr1; reflexivity).
  cbn [kind]. rewrite bool_decide_true by done. cbn [negb]. erewrite abind_ready by done.
  erewrite abind_ready by exact Hr2.
  erewrite abind_ready by (unfold alift; rewrite decode_encode_msg; reflexivity).
  erewrite abind_ready by done. erewrite abind_ready by exact Hr3.
  erewrite abind_ready by (unfold alift; rewrite decode_encode_msg; reflexivity).
  erewrite abind_ready by done. erewrite abind_ready by exact Hr4.
  erewrite abind_ready by (unfold alift; rewrite decode_encode_msg; reflexivity).
  erewrite abind_ready by exact Hr5. cbn [payload_len intro_header]. rewrite Z.eqb_refl. cbn [negb].
  by erewrite abind_ready by done.
Qed.

Lemma open_instance_ok timed mon gen config_id config idr capture encode_done pb c opens :
  Prologue.encode Video 1 mon [] = Done pb ->
  fits (encode {| vsg_generation := gen; vsg_config_id := config_id |}) -> fits (encode config) ->
  fits (encode (intro_header gen config_id config idr capture encode_done)) -> fits idr ->
  uni_opens c = OStream {| sent := []; write_results := [] |} [] :: opens ->
  exists c', open_video_instance timed mon gen config_id config idr capture encode_done c
    = (Ready (Ok ({| sent := pb ++ intro_bytes gen config_id config idr capture encode_done; write_results := [] |},
                  streaming_sm)), c').
Proof.
  intros Hpb Hg Hc Hh Hi Ho.
  pose proof (send_intro_ok timed mon gen config_id config idr capture encode_done pb
    {| sent := []; write_results := [] |} Hpb Hg Hc Hh Hi eq_refl) as Hsend.
  eexists. unfold open_video_instance.
  erewrite abind_ready by (unfold amap_err, open_uni, open_uni_within; rewrite Ho; reflexivity).
  erewrite abind_ready by (apply alocal_try_ready; exact Hsend). reflexivity.
Qed.

Lemma accept_intro_ok mon gen config_id config idr capture encode_done pb rest cl accepts evs s :
  0 <= mon <= Varint.MAX -> Prologue.encode Video 1 mon [] = Done pb ->
  fits (encode {| vsg_generation := gen; vsg_config_id := config_id |}) -> fits (encode config) ->
  fits (encode (intro_header gen config_id config idr capture encode_done)) -> fits idr ->
  uni_accepts cl = AStream evs s :: accepts ->
  recv_bytes evs = pb ++ intro_bytes gen config_id config idr capture encode_done ++ rest ->
  exists r' cl', accept_intro false cl = (Ready (Ok
      ({| monitor_id := mon; generation := {| vsg_generation := gen; vsg_config_id := config_id |};
          encoder_config := config;
          first_frame_header := intro_header gen config_id config idr capture encode_done;
          first_frame_payload := idr |}, r')), cl') /\
    stream_bytes r' = rest.
Proof.
  intros Hmon Hpb Hg Hc Hh Hi Ha Hb.
  edestruct (read_intro_ok mon gen config_id config idr capture encode_done pb rest (StreamReader.new evs))
    as (r' & Hr & Hrest); [done..|].
  do 2 eexists. split; [|exact Hrest]. unfold accept_intro.
  erewrite abind_ready by (unfold amap_err, accept_uni; rewrite Ha; reflexivity).
  apply alocal_try_ready. exact Hr.
Qed.

(** An instance opens on both sides.  The server, opening an instance, writes some
    bytes and ends with the instance streaming; the client that accepts a stream
    with these bytes, in any chunks, gets the monitor, the generation, the
    encoder configuration and the first frame as the server sent them, the frame
    flagged IDR, and is left with exactly what follows. *)
Theorem instance_opens timed mon gen config_id config idr capture encode_done c opens :
  0 <= mon <= Varint.MAX ->
  fits (encode {| vsg_generation := gen; vsg_config_id := config_id |}) -> fits (encode config) ->
  fits (encode (intro_header gen config_id config idr capture encode_done)) -> fits idr ->
  uni_opens c = OStream {| sent := []; write_results := [] |} [] :: opens ->
  exists send sm c',
    open_video_instance timed mon gen config_id config idr capture encode_done c
      = (Ready (Ok (send, sm)), c') /\
    VideoSm.state sm = VideoSm.Streaming /\
    forall cl accepts evs s rest,
      uni_accepts cl = AStream evs s :: accepts -> recv_bytes evs = sent send ++ rest ->
      exists rd cl', accept_video_instance cl = (Ready (Ok
          ({| monitor_id := mon;
              generation := {| vsg_generation := gen; vsg_config_id := config_id |};
              encoder_config := config;
              first_frame_header := intro_header gen config_id config idr capture encode_done;
              first_frame_payload := idr |}, rd)), cl') /\
        stream_bytes (reader rd) = rest /\ pending_header rd = None.
Proof.
  intros Hmon Hg Hc Hh Hi Ho.
  destruct (Prologue.parse_encoded_prologue Video 1 mon [] Hmon) as (pb & Hpb & _).
  destruct (open_instance_ok timed mon gen config_id config idr capture encode_done pb c opens) as (c' & E); [done..|].
  do 3 eexists. split; [exact E|].
  split; [done|]. intros cl accepts evs s rest Ha Hb. cbn [sent] in Hb. rewrite <- app_assoc in Hb.
  destruct (accept_intro_ok mon gen config_id config idr capture encode_done pb rest cl accepts evs s) as (r' & cl' & Er & Hrest);
    [done..|].
  do 2 eexists. split; [unfold accept_video_instance, accept_video_instance_within; by erewrite abind_ready by exact Er|].
  done.
Qed.

End video_session.

(** ** Concrete runs *)

Module Examples.
#[local] Existing Instance plain_transport.
#[local] Instance generation_cbor : Cbor VideoStreamGeneration := countable_cbor.
#[local] Instance config_cbor : Cbor EncoderConfig := countable_cbor.
#[local] Instance header_cbor : Cbor VideoFrameHeader := countable_cbor.

Definition header (n len : Z) : VideoFrameHeader :=
  {| vfh_generation := 1; frame_id := n; vfh_config_id := 0; flags := 0; capture_ts := 0;
     encode_done_ts := 0; vfh_width := 2; vfh_height := 2; payload_len := len |}.

Definition two_frames : list (VideoFrameHeader * list Z) := [(header 1 2, [5; 6]); (header 2 1, [7])].

(** A script that drops the read behind the first header, in the middle of the
    payload and before the second frame. *)
Definition cut_stream : list read_event :=
  let h1 := frame type_id.VIDEO_FRAME_HEADER (encode (header 1 2)) in
  let p1 := frame type_id.VIDEO_FRAME_PAYLOAD [5; 6] in
  [RData h1; RElapsed; RData (take 3 p1); RElapsed; RData (drop 3 p1); RElapsed;
   RData (frame type_id.VIDEO_FRAME_HEADER (encode (header 2 1)) ++ frame type_id.VIDEO_FRAME_PAYLOAD [7])].

Lemma frames_survive_cancellation_witness :
  (CborLaws VideoFrameHeader /\ Forall (fun f => frame_ok f.1 f.2) two_frames) /\
  exists s', read_frames 2 8 {| reader := StreamReader.new cut_stream; pending_header := None |}
    = (Ready (Ok two_frames), s') /\ pending_header s' = None /\ stream_bytes (reader s') = [].
Proof.
  assert (CborLaws VideoFrameHeader) as L by apply countable_cbor_laws.
  assert (Forall (fun f => frame_ok f.1 f.2) two_frames) as Hf
    by (repeat constructor; by vm_compute).
  split; [done|].
  apply (frames_survive_cancellation two_frames [] 8
    {| reader := StreamReader.new cut_stream; pending_header := None |} Hf); [done|by vm_compute|cbn; lia].
Defined.

Definition config : EncoderConfig :=
  {| ec_codec := H264; profile := 0; chroma_format := C420; bit_depth := 8; ec_width := 2; ec_height := 2;
     max_fps := 60; tier := 0; b_frames := 0; server_cursor_excludable := false |}.

Definition opening : Connection :=
  {| uni_accepts := []; bi_accepts := []; uni_opens := [OStream {| sent := []; write_results := [] |} []];
     bi_opens := []; released := []; stopped_readers := [] |}.

Lemma instance_opens_witness :
  (0 <= 3 <= Varint.MAX /\ fits (encode (intro_header 1 0 config [9; 9] 10 20))) /\
  exists send sm c',
    open_video_instance false 3 1 0 config [9; 9] 10 20 opening = (Ready (Ok (send, sm)), c') /\
    VideoSm.state sm = VideoSm.Streaming.
Proof.
  pose proof (@countable_cbor_laws VideoStreamGeneration _ _) as L1.
  pose proof (@countable_cbor_laws EncoderConfig _ _) as L2.
  pose proof (@countable_cbor_laws VideoFrameHeader _ _) as L3.
  split; [by vm_compute|].
  destruct (instance_opens false 3 1 0 config [9; 9] 10 20 opening []) as (send & sm & c' & E1 & E2 & _);
    [by vm_compute..|done|]. by exists send, sm, c'.
Defined.
End Examples.
