(* ===== verification/Handshake.v ===== *)
(** The handshake on the control stream: the model of [src/src/handshake.rs].

    The control stream of a running handshake is the state ([ControlChannel]):
    what a failed handshake had written is its final state.  Random bytes are
    arguments; a timeout is an event of the script of a read or a write. *)

From S2P Require Import Prelude.
From S2P Require Varint.
From S2P Require Import ReasonCode.
From S2P Require Import StreamKind.
From S2P Require Import Prologue.
From S2P Require Import Envelope.
From S2P Require Import Async.
From S2P Require Import StreamReader.
From S2P Require Import Connection.
From S2P Require Import Messages.
From S2P Require Import MessageCodecs.
From S2P Require Import ConnectionSm.
From S2P Require PermissionSet.
From S2P Require Import Crypto.
From S2P Require Import Auth.

(** * Definitions *)

(** [env!("CARGO_PKG_VERSION")], from [src/Cargo.toml]. *)
Definition CARGO_PKG_VERSION : string := "0.1.0".

Section channel.
Context `{Transport}.

Record ControlChannel := {
  send : SendStream;
  reader : EnvelopeReader;
}.

Inductive HandshakeError :=
| Quic (e : ConnectionError)
| ReadErr (e : StreamReadError)
| Write (e : WriteError)
| Decode (e : DecodeError)
| Violation (reason : ReasonCode)
| AuthFailed (e : AuthError)
| AuthDenied
| HandshakeTimeout
| AuthTimeout.

Definition reason_code (e : HandshakeError) : ReasonCode :=
  match e with
  | HandshakeTimeout => TRANSPORT_HANDSHAKE_TIMEOUT
  | AuthTimeout => AUTH_TIMEOUT
  | Violation reason => reason
  | AuthDenied => AUTH_SIGNATURE_INVALID
  | AuthFailed _ => AUTH_SIGNATURE_INVALID
  | Quic _ | ReadErr _ | Write _ | Decode _ => PROTOCOL_UNEXPECTED_MESSAGE
  end.

Record HandshakeOutcome := {
  session_id : list Z;
  reconnect_token : list Z;
  granted_permissions : Z;
  user_id : string;
}.

Definition violation (v : ProtocolViolation) : HandshakeError := Violation (pv_reason v).

Definition check (sm : ConnectionSm) (type_id : Z) : result HandshakeError unit :=
  map_err violation (check_message sm type_id).

(** ** Working on a channel *)

(** [sm.transition().map_err(|v| ProtocolViolation(v.reason))?]. *)
Definition step_sm {S} (t : transition) (sm : ConnectionSm) : async S HandshakeError ConnectionSm :=
  _ ← alift (map_err violation (t sm).1);
  aret (t sm).2.

Definition on_send {E A} : async SendStream E A -> async ControlChannel E A :=
  azoom send (fun s ch => {| send := s; reader := reader ch |}).

Definition on_reader {E A} : async EnvelopeReader E A -> async ControlChannel E A :=
  azoom reader (fun r ch => {| send := send ch; reader := r |}).

Definition channel_write (timed : bool) (bs : list Z) : async ControlChannel HandshakeError unit :=
  on_send (amap_err Write (write_all timed bs)).

Definition channel_send (timed : bool) (t : Z) (payload : list Z) : async ControlChannel HandshakeError unit :=
  on_send (amap_err Write (write_envelope timed t payload)).

Definition channel_recv (timed : bool) : async ControlChannel HandshakeError (Z * list Z) :=
  on_reader (amap_err ReadErr (read_envelope timed (max_envelope_length Control))).

(** Runs [m] on the local channel [ch], which goes out of scope when [m] fails. *)
Definition with_channel {A} (ch : ControlChannel) (m : async ControlChannel HandshakeError A) :
    async Connection HandshakeError (A * ControlChannel) := fun c =>
  match m ch with
  | (Ready (Ok x), ch') => (Ready (Ok (x, ch')), c)
  | (Ready (Err e), ch') => (Ready (Err e), release (send ch') c)
  | (Pending, _) => (Pending, c)
  | (Elapsed, _) => (Elapsed, c)
  | (Crash, _) => (Crash, c)
  end.

(** ** Facts *)

Lemma channel_send_ok timed t p ch :
  Z.of_nat (length p) <= Varint.MAX -> write_results (send ch) = [] ->
  channel_send timed t p ch
  = (Ready (Ok tt),
     {| send := {| sent := sent (send ch) ++ frame t p; write_results := [] |}; reader := reader ch |}).
Proof.
  intros Hp Hw. unfold channel_send, on_send, azoom, amap_err. by rewrite write_envelope_frame.
Qed.

(** However a send goes, it has put a prefix of its frame on the stream, all of
    it if it succeeds, and it has not touched the reader. *)
Lemma channel_send_any timed t p ch :
  reader (channel_send timed t p ch).2 = reader ch /\
  (exists n, sent (send (channel_send timed t p ch).2) = sent (send ch) ++ take n (frame t p)) /\
  (forall x, (channel_send timed t p ch).1 = Ready (Ok x) ->
   sent (send (channel_send timed t p ch).2) = sent (send ch) ++ frame t p).
Proof.
  unfold channel_send, on_send, azoom, amap_err, write_envelope, mbind, async_bind, abind, aoutcome, frame.
  destruct (Envelope.encode t p []) as [bs|]; cbn.
  2: { split; [done|]. split; [exists 0%nat; by rewrite take_0, app_nil_r|done]. }
  unfold write_all. destruct (write_results (send ch)) as [|[|n e|n] ws]; [..|destruct timed]; cbn.
  1, 2: split; [done|]; split; [exists (length bs); by rewrite firstn_all|done].
  all: split; [done|]; split; [by exists n|done].
Qed.

Lemma channel_recv_frame timed t p rest r :
  is_u16 t -> Z.of_nat (length p) <= max_envelope_length Control ->
  (timed = true -> no_elapsed (recv r)) ->
  stream_bytes r = frame t p ++ rest ->
  exists r',
    (forall s, channel_recv timed {| send := s; reader := r |}
               = (Ready (Ok (t, p)), {| send := s; reader := r' |})) /\
    stream_bytes r' = rest /\ (no_elapsed (recv r) -> no_elapsed (recv r')).
Proof.
  intros Ht Hp Hne Hs.
  destruct (read_envelope_frame timed (max_envelope_length Control) r t p rest)
    as (r' & Hr & Hb & _ & Hn & _); [done..|by vm_compute|done|done|].
  exists r'. split; [|done]. intros s.
  unfold channel_recv, on_reader, azoom, amap_err. cbn [reader]. by rewrite Hr.
Qed.

Lemma channel_recv_any timed ch p ch' :
  channel_recv timed ch = (p, ch') ->
  send ch' = send ch /\
  forall m, p = Ready (Ok m) ->
    exists r', read_envelope timed (max_envelope_length Control) (reader ch) = (Ready (Ok m), r').
Proof.
  unfold channel_recv, on_reader, azoom, amap_err.
  destruct (read_envelope _ _ _) as [q r'] eqn:E. intros Hp.
  destruct q as [[x|]| | |]; simplify_eq/=; (split; [done|]); intros m Hm; simplify_eq/=; eauto.
Qed.

Lemma with_channel_ready {A} ch (m : async ControlChannel HandshakeError A) x ch' c :
  m ch = (Ready (Ok x), ch') -> with_channel ch m c = (Ready (Ok (x, ch')), c).
Proof. intros Hm. unfold with_channel. by rewrite Hm. Qed.

Lemma channel_write_ok timed bs ch :
  write_results (send ch) = [] ->
  channel_write timed bs ch
  = (Ready (Ok tt),
     {| send := {| sent := sent (send ch) ++ bs; write_results := [] |}; reader := reader ch |}).
Proof. intros Hw. unfold channel_write, on_send, azoom, amap_err, write_all. by rewrite Hw. Qed.

End channel.

Section handshake.
Context `{Transport, Sha256, Ed25519, TlsExporter}.
Context `{!Cbor ClientHello, !Cbor ServerHello, !Cbor AuthPubkey, !Cbor AuthResult}.

(** ** The client *)

Definition client_hello (client_name : string) : ClientHello :=
  {| client_name := client_name; client_version := CARGO_PKG_VERSION;
     ch_capabilities := []; auth_methods := [PublicKey] |}.

(** The block under [handshake_timeout]. *)
Definition client_hello_phase (sm : ConnectionSm) (client_name : string) :
    async ControlChannel HandshakeError (list Z * ServerHello * list Z) :=
  prologue_bytes ← aoutcome (Prologue.encode Control 1 0 []);
  _ ← channel_write true prologue_bytes;
  let client_hello_bytes := encode (client_hello client_name) in
  _ ← alift (check sm type_id.CLIENT_HELLO);
  _ ← channel_send true type_id.CLIENT_HELLO client_hello_bytes;
  '(type_raw, payload) ← channel_recv true;
  _ ← alift (check sm type_raw);
  server_hello ← alift (map_err Decode (decode payload));
  aret (client_hello_bytes, server_hello, payload).

(** The block under [auth_timeout]. *)
Definition client_auth_phase (sm : ConnectionSm) (signing_key : SigningKey) (uid device_id : string)
    (client_hello_bytes : list Z) (server_hello : ServerHello) (server_hello_bytes : list Z) :
    async ControlChannel HandshakeError AuthResult :=
  let context :=
    channel_binding_context client_hello_bytes server_hello_bytes (auth_challenge server_hello) in
  exporter ← alift (map_err AuthFailed (compute_exporter context));
  let auth_pubkey :=
    {| ap_user_id := uid; ap_device_id := device_id;
       public_key := as_bytes (verifying_key signing_key);
       signature := sign_exporter signing_key exporter |} in
  _ ← alift (check sm type_id.AUTH_PUBKEY);
  _ ← channel_send true type_id.AUTH_PUBKEY (encode auth_pubkey);
  '(_, payload) ← channel_recv true;
  alift (map_err Decode (decode payload)).

(** The client's side once its control stream is open. *)
Definition client_exchange (signing_key : SigningKey) (client_name uid device_id : string) :
    async ControlChannel HandshakeError (HandshakeOutcome * ConnectionSm) :=
  let sm := ConnectionSm.new in
  '(client_hello_bytes, server_hello, server_hello_bytes) ←
    atimeout HandshakeTimeout (client_hello_phase sm client_name);
  sm ← step_sm complete_handshake sm;
  auth_result ← atimeout AuthTimeout
    (client_auth_phase sm signing_key uid device_id client_hello_bytes server_hello server_hello_bytes);
  match status auth_result with
  | AuthOk =>
      sm ← step_sm complete_authentication sm;
      aret ({| session_id := ar_session_id auth_result;
               reconnect_token := ar_reconnect_token auth_result;
               granted_permissions := ar_granted_permissions auth_result;
               user_id := uid |}, sm)
  | MfaRequired | Denied => athrow AuthDenied
  end.

Definition client_handshake_with_timeouts (signing_key : SigningKey)
    (client_name uid device_id : string) :
    async Connection HandshakeError (HandshakeOutcome * ConnectionSm * ControlChannel) :=
  '(send, recv) ← amap_err Quic open_bi;
  '(outcome, sm, control) ←
    with_channel {| send := send; reader := StreamReader.new recv |}
      (client_exchange signing_key client_name uid device_id);
  aret (outcome, sm, control).

(** The default timeouts differ from others only in when they fire. *)
Definition client_handshake := client_handshake_with_timeouts.

(** ** The server *)

Definition server_hello (server_name : string) (challenge : list Z) : ServerHello :=
  {| server_name := server_name; server_version := CARGO_PKG_VERSION; sh_capabilities := [];
     auth_policy := {| accepted_combinations := [{| methods := [PublicKey]; priority := 0 |}] |};
     auth_challenge := challenge |}.

(** The closure [verification]. *)
Definition verification (trusted_public_key : VerifyingKey) (auth_pubkey : AuthPubkey) (context : list Z) :
    result AuthError unit :=
  if negb (bool_decide (public_key auth_pubkey = as_bytes trusted_public_key)) then Err SignatureInvalid
  else
    exporter ← compute_exporter context;
    verify_exporter (public_key auth_pubkey) exporter (signature auth_pubkey).

Definition default_permissions : Z :=
  Z.lor (Z.lor PermissionSet.bit.VIEW PermissionSet.bit.INPUT_KEYBOARD) PermissionSet.bit.INPUT_MOUSE.

Definition auth_ok (sid token : list Z) : AuthResult :=
  {| status := AuthOk; ar_reason := NONE; ar_session_id := sid; ar_reconnect_token := token;
     ar_granted_permissions := default_permissions |}.

Definition auth_denied (reason : ReasonCode) : AuthResult :=
  {| status := Denied; ar_reason := reason; ar_session_id := replicate 16 0;
     ar_reconnect_token := replicate 32 0; ar_granted_permissions := 0 |}.

(** [challenge], [sid] and [token] are the random bytes drawn. *)
Definition server_handshake_from_client_hello (server_name : string) (trusted_public_key : VerifyingKey)
    (challenge sid token client_hello_bytes : list Z) :
    async ControlChannel HandshakeError (HandshakeOutcome * ConnectionSm) :=
  let sm := ConnectionSm.new in
  _ ← alift (check sm type_id.CLIENT_HELLO);
  let server_hello_bytes := encode (server_hello server_name challenge) in
  _ ← atimeout HandshakeTimeout (
    _ ← alift (check sm type_id.SERVER_HELLO);
    channel_send true type_id.SERVER_HELLO server_hello_bytes);
  sm ← step_sm complete_handshake sm;
  auth_pubkey ← atimeout AuthTimeout (
    '(type_raw, payload) ← channel_recv true;
    _ ← alift (check sm type_raw);
    alift (map_err Decode (decode payload)));
  let context := channel_binding_context client_hello_bytes server_hello_bytes challenge in
  match verification trusted_public_key auth_pubkey context with
  | Ok _ =>
      sm ← step_sm complete_authentication sm;
      _ ← channel_send false type_id.AUTH_RESULT (encode (auth_ok sid token));
      aret ({| session_id := sid; reconnect_token := token;
               granted_permissions := default_permissions;
               user_id := ap_user_id auth_pubkey |}, sm)
  | Err auth_error =>
      let _ := record_auth_failure sm in
      _ ← channel_send false type_id.AUTH_RESULT (encode (auth_denied AUTH_SIGNATURE_INVALID));
      athrow (AuthFailed auth_error)
  end.

(** The block under [handshake_deadline]: the raw [ClientHello]. *)
Definition read_client_hello : async ControlChannel HandshakeError (list Z) :=
  stream_prologue ← on_reader (amap_err ReadErr (read_prologue true));
  if negb (bool_decide (kind stream_prologue = Control)) then
    athrow (Violation PROTOCOL_UNEXPECTED_MESSAGE)
  else
    '(type_raw, payload) ← channel_recv true;
    _ ← alift (check ConnectionSm.new type_raw);
    aret payload.

Definition server_handshake_with_timeouts (server_name : string) (trusted_public_key : VerifyingKey)
    (challenge sid token : list Z) :
    async Connection HandshakeError (HandshakeOutcome * ConnectionSm * ControlChannel) :=
  '(send, recv) ← amap_err Quic (accept_bi false);
  '(outcome, sm, control) ←
    with_channel {| send := send; reader := StreamReader.new recv |} (
      client_hello_bytes ← atimeout HandshakeTimeout read_client_hello;
      server_handshake_from_client_hello server_name trusted_public_key challenge sid token
        client_hello_bytes);
  aret (outcome, sm, control).

Definition server_handshake := server_handshake_with_timeouts.

(** * Lemmas *)

Lemma verification_ok trusted ap context :
  verification trusted ap context = Ok tt <->
  public_key ap = as_bytes trusted /\
  exists exporter, compute_exporter context = Ok exporter /\
    verify_exporter (public_key ap) exporter (signature ap) = Ok tt.
Proof.
  unfold verification. destruct (decide (public_key ap = as_bytes trusted)) as [E|E];
    [rewrite (bool_decide_true _ E)|rewrite (bool_decide_false _ E)]; cbn [negb]; [|naive_solver].
  destruct (compute_exporter context) as [x|e]; cbn [mbind result_bind]; naive_solver.
Qed.

Lemma check_hello t :
  t = type_id.CLIENT_HELLO \/ t = type_id.SERVER_HELLO -> check ConnectionSm.new t = Ok tt.
Proof. by intros [-> | ->]. Qed.

Lemma check_authenticating t n :
  check {| state := Authenticating; auth_attempts := n |} t
  = if t =? type_id.AUTH_PUBKEY then Ok tt else Err (Violation PROTOCOL_UNEXPECTED_MESSAGE).
Proof. unfold check, check_message, allowed_in_authenticating. cbn [state]. by destruct (_ =? _). Qed.

Lemma step_to_authenticating {S} (s : S) :
  step_sm complete_handshake ConnectionSm.new s
  = (Ready (Ok {| state := Authenticating; auth_attempts := 0 |}), s).
Proof. done. Qed.

(** The server's handshake with the state machine's steps carried out. *)
Lemma server_handshake_unfold sname trusted challenge sid token chb ch :
  let shb := encode (server_hello sname challenge) in
  server_handshake_from_client_hello sname trusted challenge sid token chb ch =
    match channel_send true type_id.SERVER_HELLO shb ch with
    | (Ready (Ok _), ch) =>
        match channel_recv true ch with
        | (Ready (Ok (t, payload)), ch) =>
            if t =? type_id.AUTH_PUBKEY then
              match decode payload with
              | Ok ap =>
                  match verification trusted ap (channel_binding_context chb shb challenge) with
                  | Ok _ =>
                      (_ ← channel_send false type_id.AUTH_RESULT (encode (auth_ok sid token));
                       aret ({| session_id := sid; reconnect_token := token;
                                granted_permissions := default_permissions;
                                user_id := ap_user_id ap |},
                             {| state := Authenticated; auth_attempts := 0 |})) ch
                  | Err e =>
                      (_ ← channel_send false type_id.AUTH_RESULT
                             (encode (auth_denied AUTH_SIGNATURE_INVALID));
                       athrow (AuthFailed e)) ch
                  end
              | Err e => (Ready (Err (Decode e)), ch)
              end
            else (Ready (Err (Violation PROTOCOL_UNEXPECTED_MESSAGE)), ch)
        | (Ready (Err e), ch) => (Ready (Err e), ch)
        | (Elapsed, ch) => (Ready (Err AuthTimeout), ch)
        | (Pending, ch) => (Pending, ch)
        | (Crash, ch) => (Crash, ch)
        end
    | (Ready (Err e), ch) => (Ready (Err e), ch)
    | (Elapsed, ch) => (Ready (Err HandshakeTimeout), ch)
    | (Pending, ch) => (Pending, ch)
    | (Crash, ch) => (Crash, ch)
    end.
Proof.
  intros shb. unfold server_handshake_from_client_hello. rewrite !check_hello by auto.
  unfold mbind, async_bind, abind, atimeout, alift. cbv beta iota zeta. fold shb.
  destruct (channel_send true type_id.SERVER_HELLO shb ch) as [[[[]|]| | |] ch1]; try done.
  rewrite step_to_authenticating. cbv beta iota.
  destruct (channel_recv true ch1) as [[[[t payload]|]| | |] ch2]; try done.
  cbv beta iota. rewrite check_authenticating. destruct (t =? type_id.AUTH_PUBKEY); [|done].
  destruct (decode payload) as [ap|]; [|done]. cbn [map_err]. cbv beta iota.
  by destruct (verification trusted ap _).
Qed.

(** * Properties *)

(** The next message of the client proves that it holds the trusted key on this
    very connection: it is an [AuthPubkey] with that key, whose signature
    verifies over the exporter value for the two hello messages as they were
    exchanged and for the server's challenge. *)
Definition verified (sname : string) (trusted : VerifyingKey) (challenge chb : list Z)
    (ap : AuthPubkey) (r : EnvelopeReader) : Prop :=
  (exists payload r',
    read_envelope true (max_envelope_length Control) r = (Ready (Ok (type_id.AUTH_PUBKEY, payload)), r') /\
    decode payload = Ok ap) /\
  public_key ap = as_bytes trusted /\
  exists exporter vk,
    compute_exporter (channel_binding_context chb (encode (server_hello sname challenge)) challenge)
      = Ok exporter /\
    verifying_key_from_bytes (public_key ap) = Some vk /\
    verify vk exporter (signature ap) = true.

Definition sent_hello (sname : string) (challenge : list Z) (ch : ControlChannel) : list Z :=
  sent (send ch) ++ frame type_id.SERVER_HELLO (encode (server_hello sname challenge)).

(** A run that ends without success and before an [AuthResult]. *)
Lemma fails_before_grant sname trusted challenge chb ch (p : poll HandshakeError (HandshakeOutcome * ConnectionSm)) ch' R :
  (forall x, p <> Ready (Ok x)) -> sent (send ch') `prefix_of` sent_hello sname challenge ch ->
  (forall outcome sm, p = Ready (Ok (outcome, sm)) -> R outcome sm) /\
  ((forall ap, ~ verified sname trusted challenge chb ap (reader ch)) ->
     (forall x, p <> Ready (Ok x)) /\
     sent (send ch') `prefix_of`
       sent_hello sname challenge ch
       ++ frame type_id.AUTH_RESULT (encode (auth_denied AUTH_SIGNATURE_INVALID))).
Proof.
  intros Hp Hs. split.
  - intros o sm Hx. by destruct (Hp _ Hx).
  - intros _. split; [done|]. by apply prefix_app_r.
Qed.

(** How the server's handshake can go, whatever the client sends and however the
    transport behaves: success has verified the client's signature and sent an
    [AuthResult] of status OK with what the outcome holds; without verification
    there is no success and no such message. *)
Lemma server_handshake_run sname trusted challenge sid token chb ch :
  let '(p, ch') := server_handshake_from_client_hello sname trusted challenge sid token chb ch in
  (forall outcome sm, p = Ready (Ok (outcome, sm)) ->
     exists ap, verified sname trusted challenge chb ap (reader ch) /\
       outcome = {| session_id := sid; reconnect_token := token;
                    granted_permissions := default_permissions; user_id := ap_user_id ap |} /\
       sm = {| state := Authenticated; auth_attempts := 0 |} /\
       sent (send ch') = sent_hello sname challenge ch
                         ++ frame type_id.AUTH_RESULT (encode (auth_ok sid token))) /\
  ((forall ap, ~ verified sname trusted challenge chb ap (reader ch)) ->
     (forall x, p <> Ready (Ok x)) /\
     sent (send ch') `prefix_of`
       sent_hello sname challenge ch
       ++ frame type_id.AUTH_RESULT (encode (auth_denied AUTH_SIGNATURE_INVALID))).
Proof.
  rewrite server_handshake_unfold. fold (sent_hello sname challenge ch).
  destruct (channel_send_any true type_id.SERVER_HELLO (encode (server_hello sname challenge)) ch)
    as (Hrd & (n & Hn) & Hok).
  destruct (channel_send true type_id.SERVER_HELLO _ ch) as [q ch1]. cbn [fst snd] in *.
  assert (sent (send ch1) `prefix_of` sent_hello sname challenge ch) as Hpre1.
  { rewrite Hn. apply prefix_app, prefix_take. }
  destruct q as [[x|e]| | |]; try (by eauto using fails_before_grant).
  specialize (Hok x eq_refl). fold (sent_hello sname challenge ch) in Hok.
  destruct (channel_recv true ch1) as [q ch2] eqn:Er.
  apply channel_recv_any in Er as [Hsd Hrecv]. rewrite Hrd in Hrecv. rewrite <- Hsd in Hpre1, Hok.
  destruct q as [[[t payload]|e]| | |]; try (by eauto using fails_before_grant).
  destruct (Hrecv _ eq_refl) as [r' Hr].
  destruct (Z.eqb_spec t type_id.AUTH_PUBKEY) as [->|]; [|by eauto using fails_before_grant].
  destruct (decode payload) as [ap|] eqn:Ed; [|by eauto using fails_before_grant].
  set (context := channel_binding_context chb (encode (server_hello sname challenge)) challenge).
  destruct (verification trusted ap context) as [[]|ae] eqn:Ev; unfold mbind, async_bind, abind.
  - apply verification_ok in Ev as (Hkey & exporter & Hexp & (_ & _ & vk & Hvk & Hsig)%verify_exporter_ok).
    assert (verified sname trusted challenge chb ap (reader ch)) as Hver.
    { split; [by eauto|]. split; [done|]. by exists exporter, vk. }
    destruct (channel_send_any false type_id.AUTH_RESULT (encode (auth_ok sid token)) ch2) as (_ & _ & Hsent).
    destruct (channel_send false type_id.AUTH_RESULT _ ch2) as [[[y|]| | |] ch3];
      (split; [|intros Hnot; by destruct (Hnot _ Hver)]); try done.
    intros outcome sm [= <- <-]. exists ap. split; [done|]. split; [done|]. split; [done|].
    cbn [snd fst] in Hsent. by rewrite (Hsent y), Hok.
  - destruct (channel_send_any false type_id.AUTH_RESULT (encode (auth_denied AUTH_SIGNATURE_INVALID)) ch2)
      as (_ & (k & Hk) & _).
    destruct (channel_send false type_id.AUTH_RESULT _ ch2) as [[[]| | |] ch3];
      (split; [done|]); intros _; (split; [done|]);
      cbn [snd] in *; rewrite Hk, Hok; apply prefix_app, prefix_take.
Qed.
(** C3: The server refuses a client that does not authenticate.  Unless the client's
    next message proves that it holds the trusted key on this connection, for
    the hello messages as they were exchanged and the server's challenge, the
    handshake does not succeed, whatever the transport does, and the only thing
    the client can have got after the [ServerHello] is a prefix of an
    [AuthResult] of status DENIED. *)
Theorem server_refuses_unverified sname trusted challenge sid token chb ch :
  (forall ap, ~ verified sname trusted challenge chb ap (reader ch)) ->
  let '(p, ch') := server_handshake_from_client_hello sname trusted challenge sid token chb ch in
  (forall x, p <> Ready (Ok x)) /\
  sent (send ch') `prefix_of`
    sent_hello sname challenge ch
    ++ frame type_id.AUTH_RESULT (encode (auth_denied AUTH_SIGNATURE_INVALID)).
Proof.
  intros Hno. pose proof (server_handshake_run sname trusted challenge sid token chb ch) as Hrun.
  destruct (server_handshake_from_client_hello sname trusted challenge sid token chb ch) as [p ch'].
  by apply Hrun.
Qed.

(** ** Both ends together *)

Definition auth_pubkey (k : SigningKey) (uid device_id : string) (exporter : list Z) : AuthPubkey :=
  {| ap_user_id := uid; ap_device_id := device_id; public_key := as_bytes (verifying_key k);
     signature := sign_exporter k exporter |}.

Definition control_prologue : list Z :=
  match Prologue.encode Control 1 0 [] with Done bs => bs | Panicked => [] end.

Definition fits (p : list Z) : Prop := Z.of_nat (length p) <= max_envelope_length Control.

Lemma fits_varint p : fits p -> Z.of_nat (length p) <= Varint.MAX.
Proof. unfold fits. intros Hp. etransitivity; [exact Hp|]. by vm_compute. Qed.

Context `{!CborLaws ServerHello, !CborLaws AuthPubkey, !CborLaws AuthResult, !Ed25519Laws}.
Set Default Proof Using "Type*".

(** The first phase of the client when the [ServerHello] is next on its stream. *)
Lemma client_hello_phase_ok cname sh s r rest :
  let chb := encode (client_hello cname) in
  fits chb -> fits (encode sh) -> write_results s = [] -> no_elapsed (recv r) ->
  stream_bytes r = frame type_id.SERVER_HELLO (encode sh) ++ rest ->
  exists r',
    client_hello_phase ConnectionSm.new cname {| send := s; reader := r |}
    = (Ready (Ok (chb, sh, encode sh)),
       {| send := {| sent := (sent s ++ control_prologue) ++ frame type_id.CLIENT_HELLO chb;
                     write_results := [] |};
          reader := r' |}) /\
    stream_bytes r' = rest /\ no_elapsed (recv r').
Proof.
  intros chb Hch Hsh Hw Hne Hs.
  destruct (channel_recv_frame true type_id.SERVER_HELLO (encode sh) rest r)
    as (r' & Hr & Hb & Hn); [by vm_compute|done..|].
  exists r'. split; [|by auto].
  unfold client_hello_phase. rewrite check_hello by auto. fold chb.
  erewrite abind_ready by done. erewrite abind_ready by (by apply channel_write_ok).
  erewrite abind_ready by done.
  erewrite abind_ready by (apply channel_send_ok; [by apply fits_varint|done]).
  erewrite abind_ready by apply Hr. cbv beta iota. rewrite check_hello by auto.
  erewrite abind_ready by done.
  by erewrite abind_ready by (unfold alift; by rewrite decode_encode_msg).
Qed.

(** The second phase when the [AuthResult] is next. *)
Lemma client_auth_phase_ok k uid dev sh chb exporter ar s r rest :
  let apb := encode (auth_pubkey k uid dev exporter) in
  compute_exporter (channel_binding_context chb (encode sh) (auth_challenge sh)) = Ok exporter ->
  fits apb -> fits (encode ar) -> write_results s = [] -> no_elapsed (recv r) ->
  stream_bytes r = frame type_id.AUTH_RESULT (encode ar) ++ rest ->
  exists r',
    client_auth_phase {| state := Authenticating; auth_attempts := 0 |} k uid dev chb sh (encode sh)
      {| send := s; reader := r |}
    = (Ready (Ok ar),
       {| send := {| sent := sent s ++ frame type_id.AUTH_PUBKEY apb; write_results := [] |};
          reader := r' |}) /\
    stream_bytes r' = rest.
Proof.
  intros apb Hexp Hap Har Hw Hne Hs.
  destruct (channel_recv_frame true type_id.AUTH_RESULT (encode ar) rest r)
    as (r' & Hr & Hb & _); [by vm_compute|done..|].
  exists r'. split; [|done]. unfold client_auth_phase. rewrite Hexp.
  erewrite abind_ready by done. rewrite check_authenticating.
  erewrite abind_ready by done.
  erewrite abind_ready by (apply channel_send_ok; [by apply fits_varint|done]).
  erewrite abind_ready by apply Hr. cbv beta iota. unfold alift. by rewrite decode_encode_msg.
Qed.

(** The client's side of a handshake whose answers are next on its stream. *)
Lemma client_exchange_ok k cname uid dev sname challenge sid token exporter s r rest :
  let chb := encode (client_hello cname) in
  let shb := encode (server_hello sname challenge) in
  let apb := encode (auth_pubkey k uid dev exporter) in
  let arb := encode (auth_ok sid token) in
  compute_exporter (channel_binding_context chb shb challenge) = Ok exporter ->
  fits chb -> fits shb -> fits apb -> fits arb ->
  write_results s = [] -> no_elapsed (recv r) ->
  stream_bytes r = frame type_id.SERVER_HELLO shb ++ frame type_id.AUTH_RESULT arb ++ rest ->
  exists r',
    client_exchange k cname uid dev {| send := s; reader := r |}
    = (Ready (Ok ({| session_id := sid; reconnect_token := token;
                     granted_permissions := default_permissions; user_id := uid |},
                  {| state := Authenticated; auth_attempts := 0 |})),
       {| send := {| sent := ((sent s ++ control_prologue) ++ frame type_id.CLIENT_HELLO chb)
                             ++ frame type_id.AUTH_PUBKEY apb; write_results := [] |};
          reader := r' |}) /\
    stream_bytes r' = rest.
Proof.
  intros chb shb apb arb Hexp Hch Hsh Hap Har Hw Hne Hs.
  edestruct client_hello_phase_ok as (r1 & Hp1 & Hb1 & Hne1); [exact Hch|exact Hsh|exact Hw|exact Hne|exact Hs|].
  edestruct (client_auth_phase_ok k uid dev (server_hello sname challenge) chb exporter (auth_ok sid token)
    {| sent := (sent s ++ control_prologue) ++ frame type_id.CLIENT_HELLO chb; write_results := [] |} r1 rest)
    as (r2 & Hp2 & Hb2); [done..|].
  exists r2. split; [|done]. unfold client_exchange.
  erewrite abind_ready by (apply atimeout_ready; exact Hp1). cbv beta iota.
  erewrite abind_ready by apply step_to_authenticating.
  by erewrite abind_ready by (apply atimeout_ready; exact Hp2).
Qed.

Lemma read_client_hello_ok chb s r rest :
  fits chb -> no_elapsed (recv r) ->
  stream_bytes r = control_prologue ++ frame type_id.CLIENT_HELLO chb ++ rest ->
  exists r',
    read_client_hello {| send := s; reader := r |} = (Ready (Ok chb), {| send := s; reader := r' |}) /\
    stream_bytes r' = rest /\ no_elapsed (recv r').
Proof.
  intros Hch Hne Hs.
  destruct (read_prologue_next true r Control 1 0 control_prologue (frame type_id.CLIENT_HELLO chb ++ rest))
    as (r1 & Hr1 & Hb1 & _ & Hn1 & _); [by vm_compute|by vm_compute|done|done|].
  destruct (channel_recv_frame true type_id.CLIENT_HELLO chb rest r1)
    as (r2 & Hr2 & Hb2 & Hn2); [by vm_compute|done|by auto|done|].
  exists r2. split; [|by auto]. unfold read_client_hello.
  erewrite abind_ready by (unfold on_reader, azoom, amap_err; cbn [reader]; by rewrite Hr1).
  cbn [kind send map_err reader]. rewrite bool_decide_true by done. cbn [negb].
  erewrite abind_ready by apply Hr2. cbv beta iota. by rewrite check_hello by auto.
Qed.

Lemma server_handshake_ok k sname challenge sid token uid dev chb exporter s r rest :
  let shb := encode (server_hello sname challenge) in
  let apb := encode (auth_pubkey k uid dev exporter) in
  let arb := encode (auth_ok sid token) in
  compute_exporter (channel_binding_context chb shb challenge) = Ok exporter ->
  fits shb -> fits apb -> fits arb -> write_results s = [] -> no_elapsed (recv r) ->
  stream_bytes r = frame type_id.AUTH_PUBKEY apb ++ rest ->
  exists r',
    server_handshake_from_client_hello sname (verifying_key k) challenge sid token chb
      {| send := s; reader := r |}
    = (Ready (Ok ({| session_id := sid; reconnect_token := token;
                     granted_permissions := default_permissions; user_id := uid |},
                  {| state := Authenticated; auth_attempts := 0 |})),
       {| send := {| sent := (sent s ++ frame type_id.SERVER_HELLO shb) ++ frame type_id.AUTH_RESULT arb;
                     write_results := [] |};
          reader := r' |}) /\
    stream_bytes r' = rest.
Proof.
  intros shb apb arb Hexp Hsh Hap Har Hw Hne Hs.
  destruct (channel_recv_frame true type_id.AUTH_PUBKEY apb rest r)
    as (r' & Hr & Hb & _); [by vm_compute|done..|].
  exists r'. split; [|done]. rewrite server_handshake_unfold.
  rewrite channel_send_ok by (done || by apply fits_varint). cbn [send reader]. rewrite Hr.
  rewrite Z.eqb_refl. unfold apb. rewrite decode_encode_msg. cbn [ap_user_id auth_pubkey].
  rewrite (proj2 (verification_ok _ _ _)).
  2: { split; [done|]. exists exporter. split; [exact Hexp|]. apply verify_sign_exporter. }
  by erewrite abind_ready by (apply channel_send_ok; [by apply fits_varint|done]).
Qed.

(** C2: The two ends complete the handshake.  Take a client with the key the server
    trusts.  There are byte strings [cs] and [ss] such that the client, reading
    [ss] cut into chunks in any way, writes exactly [cs], and the server, reading
    [cs] cut in any way, writes exactly [ss]; both return, authenticated, with
    the same session id, token, permissions and user, and nothing of what
    follows on the streams is lost. *)
Theorem handshake_agree k cname uid dev sname challenge sid token exporter :
  let chb := encode (client_hello cname) in
  let shb := encode (server_hello sname challenge) in
  let outcome := {| session_id := sid; reconnect_token := token;
                    granted_permissions := default_permissions; user_id := uid |} in
  let authenticated := {| state := Authenticated; auth_attempts := 0 |} in
  compute_exporter (channel_binding_context chb shb challenge) = Ok exporter ->
  Forall fits [chb; shb; encode (auth_pubkey k uid dev exporter); encode (auth_ok sid token)] ->
  exists cs ss,
    (forall c opens evs rest,
       bi_opens c = OStream {| sent := []; write_results := [] |} evs :: opens ->
       no_elapsed evs -> recv_bytes evs = ss ++ rest ->
       exists control c',
         client_handshake k cname uid dev c = (Ready (Ok (outcome, authenticated, control)), c') /\
         sent (send control) = cs /\ stream_bytes (reader control) = rest) /\
    (forall c accepts evs rest,
       bi_accepts c = AStream evs {| sent := []; write_results := [] |} :: accepts ->
       no_elapsed evs -> recv_bytes evs = cs ++ rest ->
       exists control c',
         server_handshake sname (verifying_key k) challenge sid token c
         = (Ready (Ok (outcome, authenticated, control)), c') /\
         sent (send control) = ss /\ stream_bytes (reader control) = rest).
Proof.
  intros chb shb outcome authenticated Hexp Hf.
  repeat match goal with Hx : Forall fits (_ :: _) |- _ => apply Forall_cons in Hx as [? Hx] end.
  eexists (control_prologue ++ frame type_id.CLIENT_HELLO chb ++ _),
          (frame type_id.SERVER_HELLO shb ++ _).
  split.
  - intros c opens evs rest Ho Hne Hs.
    edestruct (client_exchange_ok k cname uid dev sname challenge sid token exporter
      {| sent := []; write_results := [] |} (StreamReader.new evs) rest) as (r' & He & Hb);
      [exact Hexp|done..|unfold stream_bytes, StreamReader.new; cbn [buf recv app]; rewrite Hs, <- app_assoc; reflexivity|].
    unfold client_handshake, client_handshake_with_timeouts.
    erewrite abind_ready by (unfold amap_err, open_bi; rewrite Ho; reflexivity). cbv beta iota.
    erewrite abind_ready by (unfold with_channel; rewrite He; reflexivity). cbv beta iota.
    do 2 eexists. split; [reflexivity|]. cbn [send reader sent app]. split; [|exact Hb].
    by rewrite <- !app_assoc.
  - intros c accepts evs rest Ha Hne Hs.
    edestruct (read_client_hello_ok chb {| sent := []; write_results := [] |} (StreamReader.new evs))
      as (r1 & Hr1 & Hb1 & Hn1); [done|done|unfold stream_bytes, StreamReader.new; cbn [buf recv app]; rewrite Hs, <- !app_assoc; reflexivity|].
    edestruct (server_handshake_ok k sname challenge sid token uid dev chb exporter
      {| sent := []; write_results := [] |} r1) as (r2 & He & Hb); [exact Hexp|done..|exact Hb1|].
    unfold server_handshake, server_handshake_with_timeouts.
    erewrite abind_ready by (unfold amap_err, accept_bi; rewrite Ha; reflexivity). cbv beta iota.
    erewrite abind_ready.
    2: { unfold with_channel. erewrite abind_ready by (apply atimeout_ready; exact Hr1).
         rewrite He. reflexivity. }
    do 2 eexists. split; [reflexivity|]. cbn [send reader sent app]. done.
Qed.

End handshake.

(** ** Concrete runs *)

Module Examples.
#[local] Existing Instance plain_transport.
#[local] Existing Instance toy_sha256.
#[local] Existing Instance toy_ed25519.
#[local] Existing Instance toy_exporter.
#[local] Instance client_hello_cbor : Cbor ClientHello := countable_cbor.
#[local] Instance server_hello_cbor : Cbor ServerHello := countable_cbor.
#[local] Instance auth_pubkey_cbor : Cbor AuthPubkey := countable_cbor.
#[local] Instance auth_result_cbor : Cbor AuthResult := countable_cbor.

(** The client's key; in this scheme also the public one. *)
Definition key : SigningKey := 5.
Definition other_key : SigningKey := 6.

Definition empty_stream : SendStream := {| sent := []; write_results := [] |}.

Definition connection_with (opens : list open_event) (accepts : list accept_event) : Connection :=
  {| uni_accepts := []; bi_accepts := accepts; uni_opens := []; bi_opens := opens; released := [];
     stopped_readers := [] |}.

(** The exporter value of the run below. *)
Definition value : list Z :=
  match compute_exporter
          (channel_binding_context (encode (client_hello "c")) (encode (server_hello "s" [9])) [9]) with
  | Ok v => v
  | Err _ => []
  end.

Lemma handshake_agree_witness :
  Forall fits [encode (client_hello "c"); encode (server_hello "s" [9]);
               encode (auth_pubkey key "u" "d" value); encode (auth_ok [1] [2])] /\
  exists cs ss : list Z,
    (exists control c',
       client_handshake key "c" "u" "d" (connection_with [OStream empty_stream [RData ss]] [])
       = (Ready (Ok ({| session_id := [1]; reconnect_token := [2];
                        granted_permissions := default_permissions; user_id := "u" |},
                     {| state := Authenticated; auth_attempts := 0 |}, control)), c') /\
       sent (send control) = cs) /\
    (exists control c',
       server_handshake "s" key [9] [1] [2] (connection_with [] [AStream [RData cs] empty_stream])
       = (Ready (Ok ({| session_id := [1]; reconnect_token := [2];
                        granted_permissions := default_permissions; user_id := "u" |},
                     {| state := Authenticated; auth_attempts := 0 |}, control)), c') /\
       sent (send control) = ss).
Proof.
  assert (Forall fits [encode (client_hello "c"); encode (server_hello "s" [9]);
               encode (auth_pubkey key "u" "d" value); encode (auth_ok [1] [2])]) as Hf
    by (repeat constructor; by vm_compute).
  split; [exact Hf|].
  pose proof (@countable_cbor_laws ServerHello _ _) as L1.
  pose proof (@countable_cbor_laws AuthPubkey _ _) as L2.
  pose proof (@countable_cbor_laws AuthResult _ _) as L3.
  pose proof toy_ed25519_laws as L4.
  assert (compute_exporter (channel_binding_context (encode (client_hello "c"))
            (encode (server_hello "s" [9])) [9]) = Ok value) as Hv by (by vm_compute).
  destruct (handshake_agree key "c" "u" "d" "s" [9] [1] [2] value Hv Hf) as (cs & ss & Hc & Hs).
  exists cs, ss. split.
  - destruct (Hc (connection_with [OStream empty_stream [RData ss]] []) [] [RData ss] [])
      as (control & c' & E1 & E2 & _); [done|by repeat constructor|done|]. by exists control, c'.
  - destruct (Hs (connection_with [] [AStream [RData cs] empty_stream]) [] [RData cs] [])
      as (control & c' & E1 & E2 & _); [done|by repeat constructor|done|]. by exists control, c'.
Defined.

(** A client with another key: its message is not verified, and is denied. *)
Lemma server_refuses_unverified_witness :
  let ch := {| send := empty_stream;
               reader := StreamReader.new
                 [RData (frame type_id.AUTH_PUBKEY (encode (auth_pubkey other_key "u" "d" value)))] |} in
  (forall ap, ~ verified "s" key [9] (encode (client_hello "c")) ap (reader ch)) /\
  forall x, (server_handshake_from_client_hello "s" key [9] [1] [2] (encode (client_hello "c")) ch).1
            <> Ready (Ok x).
Proof.
  intros ch.
  assert (forall ap, ~ verified "s" key [9] (encode (client_hello "c")) ap (reader ch)) as Hno.
  { intros ap ((payload & r' & Hr & Hd) & Hk & _). vm_compute in Hr. injection Hr as <- _.
    vm_compute in Hd. injection Hd as <-. by vm_compute in Hk. }
  split; [exact Hno|].
  pose proof (server_refuses_unverified "s" key [9] [1] [2] (encode (client_hello "c")) ch Hno) as Hs.
  destruct (server_handshake_from_client_hello _ _ _ _ _ _ _) as [p ch']. by apply Hs.
Defined.

(** The server does not decode the [ClientHello]: any payload is bound and
    answered. *)
Example undecodable_hello_is_answered :
  let bytes := control_prologue ++ frame type_id.CLIENT_HELLO [255; 255] in
  let '(p, _) := server_handshake "s" key [9] [1] [2] (connection_with [] [AStream [RData bytes] empty_stream]) in
  is_ok (@decode plain_transport ClientHello client_hello_cbor [255; 255]) = false /\
  p = Pending.
Proof. by vm_compute. Qed.

(** The client takes the second message for the [AuthResult] whatever its type. *)
Example auth_result_of_any_type :
  let bytes := frame type_id.SERVER_HELLO (encode (server_hello "s" [9]))
               ++ frame type_id.KEEP_ALIVE (encode (auth_ok [1] [2])) in
  let '(p, _) := client_handshake key "c" "u" "d" (connection_with [OStream empty_stream [RData bytes]] []) in
  match p with Ready (Ok (o, _, _)) => session_id o = [1] | _ => False end.
Proof. by vm_compute. Qed.
End Examples.
