(* ===== verification/Reconnection.v ===== *)
(** Accepting connections and resuming sessions: the model of
    [src/src/reconnection.rs]. *)

From S2P Require Import Prelude.
From S2P Require Varint.
From S2P Require Import ReasonCode.
From S2P Require Import StreamKind.
From S2P Require Import Prologue.
From S2P Require Import Envelope.
From S2P Require Import Async.
From S2P Require Import StreamReader.
From S2P Require Import Connection.
From S2P Require Import Messages.
From S2P Require Import MessageCodecs.
From S2P Require Import ConnectionSm.
From S2P Require Import Crypto.
From S2P Require Import Auth.
From S2P Require SessionStore.
From S2P Require Import Handshake.

(** * Definitions *)

Section reconnection.
Context `{Transport, Sha256, Ed25519, TlsExporter, SessionStore.CtEq}.
Context `{!Cbor ClientHello, !Cbor ServerHello, !Cbor AuthPubkey, !Cbor AuthResult,
          !Cbor SessionReauthenticate}.

(** ** The first message *)

(** No timer is armed around the wait for the prologue. *)
Definition accept_control_prologue : async Connection HandshakeError ControlChannel :=
  '(send, recv) ← amap_err Quic (accept_bi false);
  '(_, control) ←
    with_channel {| send := send; reader := StreamReader.new recv |} (
      stream_prologue ← on_reader (amap_err ReadErr (read_prologue false));
      if negb (bool_decide (kind stream_prologue = Control)) then
        athrow (Violation PROTOCOL_UNEXPECTED_MESSAGE)
      else aret tt);
  aret control.

Inductive FirstControlMessage :=
| FirstClientHello (client_hello_bytes : list Z)
| FirstReauthenticate (reauth : SessionReauthenticate).

Definition read_first_control_message :
    async Connection HandshakeError (FirstControlMessage * ControlChannel) :=
  control ← accept_control_prologue;
  with_channel control (
    '(type_raw, payload) ← atimeout HandshakeTimeout (channel_recv true);
    if type_raw =? type_id.CLIENT_HELLO then aret (FirstClientHello payload)
    else if type_raw =? type_id.SESSION_REAUTHENTICATE then
      reauth ← alift (map_err Decode (decode payload));
      aret (FirstReauthenticate reauth)
    else athrow (Violation PROTOCOL_UNEXPECTED_MESSAGE)).

(** ** Reconnection on the server *)

Record ReconnectOutcome := {
  ro_session_id : list Z;
  ro_reconnect_token : list Z;
  ro_granted_permissions : Z;
  resumed_generation : Z;
  ro_user_id : string;
}.

Inductive ReconnectServerError :=
| Store (e : SessionStore.ReconnectError)
| WriteFailed (e : WriteError)
| ServerViolation (reason : ReasonCode).

Definition server_reason_code (e : ReconnectServerError) : ReasonCode :=
  match e with
  | Store _ => AUTH_RECONNECT_TOKEN_INVALID
  | ServerViolation reason => reason
  | WriteFailed _ => PROTOCOL_UNEXPECTED_MESSAGE
  end.

(** The answer to an accepted reconnection. *)
Definition resumed_result (id token : list Z) (suspended : SessionStore.SuspendedSession) : AuthResult :=
  {| status := AuthOk; ar_reason := NONE; ar_session_id := id; ar_reconnect_token := token;
     ar_granted_permissions := SessionStore.ss_granted_permissions suspended |}.

Definition answer (result : AuthResult) :
    async (ControlChannel * SessionStore.SessionStore) ReconnectServerError unit :=
  azoom fst (fun ch s => (ch, s.2))
    (on_send (amap_err WriteFailed (write_envelope false type_id.AUTH_RESULT (encode result)))).

(** [new_token] is the random token drawn. *)
Definition server_complete_reconnect (new_token : list Z) (reauth : SessionReauthenticate) :
    async (ControlChannel * SessionStore.SessionStore) ReconnectServerError
      (ReconnectOutcome * ConnectionSm) :=
  '(control, store) ← aget;
  let '(found, store) :=
    SessionStore.try_reconnect (prior_session_id reauth) (sr_reconnect_token reauth) store in
  _ ← aput (control, store);
  match found with
  | Ok suspended =>
      let '(resumed, sm) := resume (SessionStore.connection_sm suspended) in
      _ ← alift (map_err (fun v => ServerViolation (pv_reason v)) resumed);
      _ ← answer (resumed_result (prior_session_id reauth) new_token suspended);
      aret ({| ro_session_id := prior_session_id reauth; ro_reconnect_token := new_token;
               ro_granted_permissions := SessionStore.ss_granted_permissions suspended;
               resumed_generation := wrap 64 (SessionStore.last_generation suspended + 1);
               ro_user_id := SessionStore.ss_user_id suspended |}, sm)
  | Err store_error =>
      _ ← atry (F := ReconnectServerError)
            (answer (auth_denied (server_reason_code (Store store_error))));
      athrow (Store store_error)
  end.

(** ** Establishing a connection *)

Record ConnectionContext := {
  connection_sm : ConnectionSm;
  control : ControlChannel;
  cc_session_id : list Z;
  cc_user_id : string;
  cc_reconnect_token : list Z;
  cc_granted_permissions : Z;
  starting_generation : Z;
  is_resumed : bool;
}.

Inductive EstablishOutcome :=
| Established (context : ConnectionContext)
| ReconnectRejected (reason : ReasonCode).

(** The connection and the server's session store. *)
Record server_env := {
  connection : Connection;
  sessions : SessionStore.SessionStore;
}.

Definition on_connection {E A} : async Connection E A -> async server_env E A :=
  azoom connection (fun c env => {| connection := c; sessions := sessions env |}).

(** [m] on the local channel [ch] and the store; its result goes to the caller
    with the channel. *)
Definition on_sessions {E F A} (ch : ControlChannel)
    (m : async (ControlChannel * SessionStore.SessionStore) E A) :
    async server_env F (result E A * ControlChannel) := fun env =>
  match m (ch, sessions env) with
  | (Ready r, (ch', s)) => (Ready (Ok (r, ch')), {| connection := connection env; sessions := s |})
  | (Pending, (_, s)) => (Pending, {| connection := connection env; sessions := s |})
  | (Elapsed, (_, s)) => (Elapsed, {| connection := connection env; sessions := s |})
  | (Crash, (_, s)) => (Crash, {| connection := connection env; sessions := s |})
  end.

(** [challenge], [sid] and [token] are the random bytes drawn on either path. *)
Definition establish_connection (server_name : string) (trusted_pubkey : VerifyingKey)
    (challenge sid token : list Z) : async server_env HandshakeError EstablishOutcome :=
  '(first_message, ch) ← on_connection read_first_control_message;
  match first_message with
  | FirstClientHello client_hello_bytes =>
      '(outcome, sm, ch) ← on_connection (with_channel ch
        (server_handshake_from_client_hello server_name trusted_pubkey challenge sid token
           client_hello_bytes));
      aret (Established
        {| connection_sm := sm; control := ch; cc_session_id := session_id outcome;
           cc_user_id := user_id outcome; cc_reconnect_token := reconnect_token outcome;
           cc_granted_permissions := granted_permissions outcome;
           starting_generation := 0; is_resumed := false |})
  | FirstReauthenticate reauth =>
      '(r, ch) ← on_sessions ch (server_complete_reconnect token reauth);
      match r with
      | Ok (outcome, sm) =>
          aret (Established
            {| connection_sm := sm; control := ch; cc_session_id := ro_session_id outcome;
               cc_user_id := ro_user_id outcome; cc_reconnect_token := ro_reconnect_token outcome;
               cc_granted_permissions := ro_granted_permissions outcome;
               starting_generation := resumed_generation outcome; is_resumed := true |})
      | Err e =>
          env ← aget;
          _ ← aput {| connection := release (send ch) (connection env); sessions := sessions env |};
          aret (ReconnectRejected (server_reason_code e))
      end
  end.

(** ** Reconnection on the client *)

(** The client's side once its control stream is open; the channel and the
    caller's [connection_sm] are the state. *)
Definition client_reauthenticate (prior token : list Z) (uid : string) :
    async (ControlChannel * ConnectionSm) HandshakeError ReconnectOutcome :=
  let on_channel {A} : async ControlChannel HandshakeError A -> _ :=
    azoom fst (fun ch s => (ch, s.2)) in
  prologue_bytes ← aoutcome (Prologue.encode Control 1 0 []);
  _ ← on_channel (channel_write false prologue_bytes);
  let reauth := {| reauth_reason := ReauthReconnect; prior_session_id := prior;
                   sr_reconnect_token := token |} in
  _ ← on_channel (channel_send false type_id.SESSION_REAUTHENTICATE (encode reauth));
  '(type_raw, payload) ← on_channel (channel_recv false);
  if negb (type_raw =? type_id.AUTH_RESULT) then athrow (Violation PROTOCOL_UNEXPECTED_MESSAGE)
  else
    auth_result ← alift (map_err Decode (decode payload));
    match status auth_result with
    | AuthOk =>
        '(ch, sm) ← aget;
        let '(resumed, sm) := resume sm in
        _ ← aput (ch, sm);
        _ ← alift (map_err violation resumed);
        aret {| ro_session_id := prior; ro_reconnect_token := ar_reconnect_token auth_result;
                ro_granted_permissions := ar_granted_permissions auth_result;
                resumed_generation := 0; ro_user_id := uid |}
    | MfaRequired | Denied => athrow AuthDenied
    end.

(** The caller's [connection_sm] is part of the state. *)
Definition client_reconnect (prior token : list Z) (uid : string) :
    async (Connection * ConnectionSm) HandshakeError (ReconnectOutcome * ControlChannel) := fun '(c, sm) =>
  match amap_err Quic open_bi c with
  | (Ready (Ok (send, recv)), c) =>
      match client_reauthenticate prior token uid
              ({| send := send; reader := StreamReader.new recv |}, sm) with
      | (Ready (Ok outcome), (ch, sm)) => (Ready (Ok (outcome, ch)), (c, sm))
      | (Ready (Err e), (ch, sm)) => (Ready (Err e), (release (Handshake.send ch) c, sm))
      | (Pending, (_, sm)) => (Pending, (c, sm))
      | (Elapsed, (_, sm)) => (Elapsed, (c, sm))
      | (Crash, (_, sm)) => (Crash, (c, sm))
      end
  | (Ready (Err e), c) => (Ready (Err e), (c, sm))
  | (Pending, c) => (Pending, (c, sm))
  | (Elapsed, c) => (Elapsed, (c, sm))
  | (Crash, c) => (Crash, (c, sm))
  end.

(** * Lemmas *)

(** However an answer goes, a prefix of its frame is on the stream, all of it
    if it was accepted; the store is not touched. *)
Lemma answer_any result ch st :
  (answer result (ch, st)).2.2 = st /\
  reader (answer result (ch, st)).2.1 = reader ch /\
  (exists n, sent (send (answer result (ch, st)).2.1)
             = sent (send ch) ++ take n (frame type_id.AUTH_RESULT (encode result))) /\
  (forall x, (answer result (ch, st)).1 = Ready (Ok x) ->
     sent (send (answer result (ch, st)).2.1) = sent (send ch) ++ frame type_id.AUTH_RESULT (encode result)).
Proof.
  destruct (channel_send_any false type_id.AUTH_RESULT (encode result) ch) as (Hr & Hn & Hok).
  revert Hr Hn Hok. unfold answer, channel_send, on_send, azoom, amap_err. cbn [fst snd].
  destruct (write_envelope false type_id.AUTH_RESULT (encode result) (send ch)) as [[[]| | |] s']; cbn;
    intros Hr Hn Hok; (split; [done|]); (split; [done|]); (split; [done|]); try done.
    intros y _. by eapply Hok.
Qed.

Lemma answer_ok result ch st :
  Z.of_nat (length (encode result)) <= Varint.MAX -> write_results (send ch) = [] ->
  answer result (ch, st)
  = (Ready (Ok tt),
     ({| send := {| sent := sent (send ch) ++ frame type_id.AUTH_RESULT (encode result);
                    write_results := [] |};
         reader := reader ch |}, st)).
Proof.
  intros Hl Hw. unfold answer, on_send, azoom, amap_err. cbn [fst snd]. by rewrite write_envelope_frame.
Qed.

(** A refused request. *)
Lemma denied_run {A} e ch st (p : poll ReconnectServerError A) ch' st' :
  (_ ← atry (F := ReconnectServerError) (answer (auth_denied (server_reason_code (Store e))));
   athrow (Store e)) (ch, st) = (p, (ch', st')) ->
  st' = st /\ (forall x, p <> Ready (Ok x)) /\
  sent (send ch') `prefix_of`
    sent (send ch) ++ frame type_id.AUTH_RESULT (encode (auth_denied AUTH_RECONNECT_TOKEN_INVALID)).
Proof.
  unfold mbind, async_bind, abind, atry. cbn [server_reason_code].
  destruct (answer_any (auth_denied AUTH_RECONNECT_TOKEN_INVALID) ch st) as (Hst & _ & (n & Hn) & _).
  destruct (answer (auth_denied AUTH_RECONNECT_TOKEN_INVALID) (ch, st)) as [[[]| | |] [ch1 st1]];
    cbn [snd fst] in *; intros [= <- <- <-]; (split; [done|]); (split; [done|]);
    rewrite Hn; apply prefix_app, prefix_take.
Qed.

(** * Properties *)

Context `{!SessionStore.CtEqLaws}.
Set Default Proof Using "Type*".

(** The session a reconnect request is entitled to. *)
Definition entitled (st : SessionStore.SessionStore) (reauth : SessionReauthenticate)
    (s : SessionStore.SuspendedSession) : Prop :=
  SessionStore.sessions st !! prior_session_id reauth = Some s /\
  SessionStore.reconnect_token s = sr_reconnect_token reauth.

(** How a reconnect request can go, whatever the transport does: success
    resumes an entitled session, which leaves the store, and has sent the new
    token; a request entitled to none leaves the store as it was and gets at
    most an [AuthResult] of status DENIED. *)
Lemma reconnect_run new_token reauth ch st :
  let '(p, (ch', st')) := server_complete_reconnect new_token reauth (ch, st) in
  (forall outcome sm, p = Ready (Ok (outcome, sm)) ->
     exists s, entitled st reauth s /\
       state (SessionStore.connection_sm s) = Suspended /\
       sm = set_state Active (SessionStore.connection_sm s) /\
       outcome = {| ro_session_id := prior_session_id reauth; ro_reconnect_token := new_token;
                    ro_granted_permissions := SessionStore.ss_granted_permissions s;
                    resumed_generation := wrap 64 (SessionStore.last_generation s + 1);
                    ro_user_id := SessionStore.ss_user_id s |} /\
       SessionStore.sessions st' = delete (prior_session_id reauth) (SessionStore.sessions st) /\
       sent (send ch') = sent (send ch)
         ++ frame type_id.AUTH_RESULT (encode (resumed_result (prior_session_id reauth) new_token s))) /\
  ((forall s, ~ entitled st reauth s) ->
     st' = st /\ (forall x, p <> Ready (Ok x)) /\
     sent (send ch') `prefix_of`
       sent (send ch) ++ frame type_id.AUTH_RESULT (encode (auth_denied AUTH_RECONNECT_TOKEN_INVALID))).
Proof.
  unfold server_complete_reconnect. erewrite abind_ready by done.
  cbv beta iota. rewrite SessionStore.try_reconnect_spec.
  set (id := prior_session_id reauth). set (tok := sr_reconnect_token reauth).
  match goal with |- context [match ?x with Some _ => _ | None => _ end] => destruct x as [s|] eqn:Es end.
  2: { cbv beta iota. erewrite abind_ready by done.
       match goal with |- context [mbind ?f ?m (ch, st)] => destruct (mbind f m (ch, st)) as [p [ch' st']] eqn:E end.
       apply denied_run in E as (Hst & Hp & Hpre).
       split; [|done]. intros outcome sm Hx. by destruct (Hp _ Hx). }
  destruct (decide (SessionStore.reconnect_token s = tok)) as [Et|Et].
  2: { rewrite (bool_decide_false _ Et). cbv beta iota. erewrite abind_ready by done.
       match goal with |- context [mbind ?f ?m (ch, st)] => destruct (mbind f m (ch, st)) as [p [ch' st']] eqn:E end.
       apply denied_run in E as (Hst & Hp & Hpre).
       split; [|done]. intros outcome sm Hx. by destruct (Hp _ Hx). }
  assert (entitled st reauth s) as Hent by done.
  rewrite (bool_decide_true _ Et). cbv beta iota. erewrite abind_ready by done.
  unfold resume. destruct (state (SessionStore.connection_sm s)) eqn:Ess;
    try (split; [done|intros Hno; by destruct (Hno s)]).
  cbv beta iota. erewrite abind_ready by done.
  unfold mbind, async_bind, abind.
  destruct (answer_any (resumed_result id new_token s) ch
    {| SessionStore.sessions := delete id (SessionStore.sessions st) |}) as (Hst & _ & _ & Hsent).
  destruct (answer _ _) as [[[]| | |] [ch' st']]; cbn [fst snd] in *;
    (split; [|intros Hno; by destruct (Hno s)]); try done.
  intros outcome sm [= <- <-]. exists s. rewrite Hst. by rewrite (Hsent _ eq_refl).
Qed.

(** The state an established connection starts in. *)
Lemma established_state sname trusted challenge sid token env context env' :
  establish_connection sname trusted challenge sid token env
    = (Ready (Ok (Established context)), env') ->
  (state (connection_sm context) = if is_resumed context then Active else Authenticated) /\
  in_width 64 (starting_generation context).
Proof.
  unfold establish_connection. intros ([first ch] & env1 & _ & Hrun)%abind_inv. destruct first as [chb|reauth].
  - apply abind_inv in Hrun as ([[outcome sm] ch'] & env2 & Hh & Hret).
    unfold on_connection, azoom, with_channel in Hh.
    pose proof (server_handshake_run sname trusted challenge sid token chb ch) as Hg.
    destruct (server_handshake_from_client_hello sname trusted challenge sid token chb ch)
      as [[[x|]| | |] ch2]; try done.
    injection Hh as -> -> <-. destruct Hg as [Hg _]. destruct (Hg _ _ eq_refl) as (ap & _ & -> & -> & _).
    by injection Hret as <- <-.
  - apply abind_inv in Hrun as ([r ch'] & env2 & Hh & Hret). unfold on_sessions in Hh.
    pose proof (reconnect_run token reauth ch (sessions env1)) as Hg.
    destruct (server_complete_reconnect token reauth (ch, sessions env1)) as [[q| | |] [ch2 st2]]; try done.
    injection Hh as -> -> <-. destruct r as [[outcome sm]|e]; [|by injection Hret].
    destruct Hg as [Hg _]. destruct (Hg _ _ eq_refl) as (s & _ & _ & -> & -> & _).
    injection Hret as <- <-. split; [done|]. by apply wrap_in_width.
Qed.

(** C1: Every session that starts is authenticated.  If [establish_connection]
    establishes a connection, then either its first message was a [ClientHello],
    the client proved over this connection that it holds the trusted key, and
    the session is new (fresh id and token, generation 0, the store as before);
    or its first message was a reconnect request entitled to a suspended
    session, which is resumed, active, with its own permissions and user, under
    a fresh token, and is no longer in the store. *)
Theorem established_is_authenticated sname trusted challenge sid token env context env' :
  establish_connection sname trusted challenge sid token env
    = (Ready (Ok (Established context)), env') ->
  exists first ch c,
    read_first_control_message (connection env) = (Ready (Ok (first, ch)), c) /\
    match first with
    | FirstClientHello chb =>
        (exists ap, verified sname trusted challenge chb ap (reader ch) /\ cc_user_id context = ap_user_id ap) /\
        state (connection_sm context) = Authenticated /\
        cc_session_id context = sid /\ cc_reconnect_token context = token /\
        cc_granted_permissions context = default_permissions /\
        starting_generation context = 0 /\ is_resumed context = false /\
        sessions env' = sessions env
    | FirstReauthenticate reauth =>
        exists s, entitled (sessions env) reauth s /\
          state (SessionStore.connection_sm s) = Suspended /\
          state (connection_sm context) = Active /\
          cc_session_id context = prior_session_id reauth /\ cc_reconnect_token context = token /\
          cc_granted_permissions context = SessionStore.ss_granted_permissions s /\
          cc_user_id context = SessionStore.ss_user_id s /\
          starting_generation context = wrap 64 (SessionStore.last_generation s + 1) /\
          is_resumed context = true /\
          SessionStore.sessions (sessions env')
            = delete (prior_session_id reauth) (SessionStore.sessions (sessions env))
    end.
Proof.
  unfold establish_connection. intros ([first ch] & env1 & Hf & Hrun)%abind_inv.
  unfold on_connection, azoom in Hf.
  destruct (read_first_control_message (connection env)) as [p c] eqn:Efirst. injection Hf as -> <-.
  exists first, ch, c. split; [done|]. destruct first as [chb|reauth].
  - apply abind_inv in Hrun as ([[outcome sm] ch'] & env2 & Hh & Hret).
    unfold on_connection, azoom, with_channel in Hh. cbn [connection sessions] in Hh.
    pose proof (server_handshake_run sname trusted challenge sid token chb ch) as Hg.
    destruct (server_handshake_from_client_hello sname trusted challenge sid token chb ch)
      as [[[x|]| | |] ch2]; try done.
    injection Hh as -> -> <-. destruct Hg as [Hg _].
    destruct (Hg _ _ eq_refl) as (ap & Hver & -> & -> & _).
    injection Hret as <- <-. cbn. by eauto 20.
  - apply abind_inv in Hrun as ([r ch'] & env2 & Hh & Hret).
    unfold on_sessions in Hh. cbn [connection sessions] in Hh.
    pose proof (reconnect_run token reauth ch (sessions env)) as Hg.
    destruct (server_complete_reconnect token reauth (ch, sessions env)) as [[q| | |] [ch2 st2]]; try done.
    injection Hh as -> -> <-. destruct r as [[outcome sm]|e].
    + destruct Hg as [Hg _]. destruct (Hg _ _ eq_refl) as (s & Hent & Hs & -> & -> & Hdel & _).
      injection Hret as <- <-. cbn. by exists s.
    + by injection Hret.
Qed.

(** A request entitled to no session is refused: the store is as it was before
    and no connection is established, whatever the transport does. *)
Theorem unentitled_is_refused sname trusted challenge sid token env reauth ch c :
  read_first_control_message (connection env) = (Ready (Ok (FirstReauthenticate reauth, ch)), c) ->
  (forall s, ~ entitled (sessions env) reauth s) ->
  let '(p, env') := establish_connection sname trusted challenge sid token env in
  sessions env' = sessions env /\ forall context, p <> Ready (Ok (Established context)).
Proof.
  intros Hf Hno. unfold establish_connection.
  erewrite abind_ready by (unfold on_connection, azoom; rewrite Hf; reflexivity). cbv beta iota.
  pose proof (reconnect_run token reauth ch (sessions env)) as Hg.
  unfold mbind at 1, async_bind, abind, on_sessions. cbn [connection sessions].
  destruct (server_complete_reconnect token reauth (ch, sessions env)) as [[[x|]| | |] [ch2 st2]];
    destruct Hg as [_ Hg]; destruct (Hg Hno) as (-> & Hp & _); try done.
  by destruct (Hp x).
Qed.

(** ** Both ends together *)

Definition reauth_request (id token : list Z) : SessionReauthenticate :=
  {| reauth_reason := ReauthReconnect; prior_session_id := id; sr_reconnect_token := token |}.

Lemma read_first_reauth reauth c accepts evs rest s `{!CborLaws SessionReauthenticate} :
  fits (encode reauth) -> no_elapsed evs ->
  bi_accepts c = AStream evs s :: accepts ->
  recv_bytes evs = control_prologue ++ frame type_id.SESSION_REAUTHENTICATE (encode reauth) ++ rest ->
  exists r c', read_first_control_message c
    = (Ready (Ok (FirstReauthenticate reauth, {| send := s; reader := r |})), c') /\
    stream_bytes r = rest.
Proof.
  intros Hfit Hne Ha Hs.
  destruct (read_prologue_next false (StreamReader.new evs) Control 1 0 control_prologue
    (frame type_id.SESSION_REAUTHENTICATE (encode reauth) ++ rest))
    as (r1 & Hr1 & Hb1 & _ & Hn1 & _); [by vm_compute|by vm_compute|done|done|].
  destruct (channel_recv_frame true type_id.SESSION_REAUTHENTICATE (encode reauth) rest r1)
    as (r2 & Hr2 & Hb2 & _); [by vm_compute|done|by auto|done|].
  exists r2, (accept_bi false c).2. split; [|exact Hb2].
  assert (accept_control_prologue c = (Ready (Ok {| send := s; reader := r1 |}), (accept_bi false c).2)) as Hacc.
  { unfold accept_control_prologue.
    erewrite abind_ready by (unfold amap_err, accept_bi; rewrite Ha; reflexivity). cbv beta iota.
    erewrite abind_ready.
    2: { apply with_channel_ready.
         erewrite abind_ready by (unfold on_reader, azoom, amap_err; cbn [reader]; rewrite Hr1; reflexivity).
         cbn [kind]. rewrite bool_decide_true by done. reflexivity. }
    unfold accept_bi. by rewrite Ha. }
  unfold read_first_control_message. erewrite abind_ready by exact Hacc.
  unfold with_channel. erewrite abind_ready by (apply atimeout_ready, Hr2). cbv beta iota.
  rewrite (proj2 (Z.eqb_neq _ _)) by done. rewrite Z.eqb_refl.
  by erewrite abind_ready by (unfold alift; rewrite decode_encode_msg; reflexivity).
Qed.

Context `{!CborLaws SessionReauthenticate, !CborLaws AuthResult}.

Lemma client_reauthenticate_ok id token uid new_token session sm s r rest :
  let reauthb := encode (reauth_request id token) in
  let arb := encode (resumed_result id new_token session) in
  fits reauthb -> fits arb -> write_results s = [] -> state sm = Suspended ->
  stream_bytes r = frame type_id.AUTH_RESULT arb ++ rest ->
  exists r',
    client_reauthenticate id token uid ({| send := s; reader := r |}, sm)
    = (Ready (Ok {| ro_session_id := id; ro_reconnect_token := new_token;
                    ro_granted_permissions := SessionStore.ss_granted_permissions session;
                    resumed_generation := 0; ro_user_id := uid |}),
       ({| send := {| sent := (sent s ++ control_prologue)
                              ++ frame type_id.SESSION_REAUTHENTICATE reauthb; write_results := [] |};
           reader := r' |}, set_state Active sm)) /\
    stream_bytes r' = rest.
Proof.
  intros reauthb arb Hre Har Hw Hsm Hs.
  destruct (channel_recv_frame false type_id.AUTH_RESULT arb rest r)
    as (r' & Hr & Hb & _); [by vm_compute|done..|].
  exists r'. split; [|done]. unfold client_reauthenticate.
  erewrite abind_ready by done.
  erewrite abind_ready by (unfold azoom; cbn [fst snd]; rewrite channel_write_ok by done; reflexivity).
  erewrite abind_ready by (unfold azoom; cbn [fst snd];
    rewrite channel_send_ok by (done || by apply fits_varint); reflexivity).
  erewrite abind_ready by (unfold azoom; cbn [fst snd reader]; rewrite Hr; reflexivity).
  cbv beta iota. rewrite Z.eqb_refl. cbn [negb].
  erewrite abind_ready by (unfold alift, arb; rewrite decode_encode_msg; reflexivity).
  cbn [status resumed_result]. erewrite abind_ready by done. cbn [snd]. cbv beta iota.
  unfold resume. rewrite Hsm. reflexivity.
Qed.

Lemma server_complete_reconnect_ok new_token reauth st session s r :
  entitled st reauth session -> state (SessionStore.connection_sm session) = Suspended ->
  fits (encode (resumed_result (prior_session_id reauth) new_token session)) -> write_results s = [] ->
  server_complete_reconnect new_token reauth ({| send := s; reader := r |}, st)
  = (Ready (Ok ({| ro_session_id := prior_session_id reauth; ro_reconnect_token := new_token;
                   ro_granted_permissions := SessionStore.ss_granted_permissions session;
                   resumed_generation := wrap 64 (SessionStore.last_generation session + 1);
                   ro_user_id := SessionStore.ss_user_id session |},
                set_state Active (SessionStore.connection_sm session))),
     ({| send := {| sent := sent s ++ frame type_id.AUTH_RESULT
                              (encode (resumed_result (prior_session_id reauth) new_token session));
                    write_results := [] |};
         reader := r |},
      {| SessionStore.sessions := delete (prior_session_id reauth) (SessionStore.sessions st) |})).
Proof.
  intros [Hl Ht] Hsm Hfit Hw. unfold server_complete_reconnect. erewrite abind_ready by done.
  cbv beta iota. rewrite (SessionStore.try_reconnect_match _ _ _ _ Hl Ht). cbv beta iota. erewrite abind_ready by done.
  unfold resume. rewrite Hsm. erewrite abind_ready by done.
  by erewrite abind_ready by (apply answer_ok; [by apply fits_varint|done]).
Qed.

Lemma server_complete_reconnect_none new_token reauth st s r :
  SessionStore.sessions st !! prior_session_id reauth = None ->
  fits (encode (auth_denied AUTH_RECONNECT_TOKEN_INVALID)) -> write_results s = [] ->
  exists ch, server_complete_reconnect new_token reauth ({| send := s; reader := r |}, st)
             = (Ready (Err (Store SessionStore.NoSuchSession)), (ch, st)).
Proof.
  intros Hl Hfit Hw. unfold server_complete_reconnect. erewrite abind_ready by done.
  cbv beta iota. rewrite (SessionStore.try_reconnect_none _ _ _ Hl). cbv beta iota. erewrite abind_ready by done. cbn [server_reason_code].
  erewrite abind_ready by (unfold atry; rewrite answer_ok by (done || by apply fits_varint); reflexivity).
  by eexists.
Qed.

(** C4: The two ends resume a session.  Let the store hold a suspended session under
    an id and a token, and let the client present them, its own state machine
    suspended.  There are byte strings [cs] and [ss] such that the client,
    reading [ss] in any chunks, writes [cs] and becomes active with the session's
    permissions and the new token; and a server with this store, reading [cs]
    in any chunks, writes [ss] and establishes the connection on the session,
    active, with the same new token, one generation further.  A server that gets
    [cs] once more after that rejects it. *)
Theorem reconnect_agree sname trusted challenge sid new_token id token uid session sm st :
  let request := encode (reauth_request id token) in
  fits request -> fits (encode (resumed_result id new_token session)) ->
  fits (encode (auth_denied AUTH_RECONNECT_TOKEN_INVALID)) ->
  state sm = Suspended -> state (SessionStore.connection_sm session) = Suspended ->
  SessionStore.sessions st !! id = Some session -> SessionStore.reconnect_token session = token ->
  exists cs ss,
    (forall c opens evs rest,
       bi_opens c = OStream {| sent := []; write_results := [] |} evs :: opens ->
       recv_bytes evs = ss ++ rest ->
       exists ch c',
         client_reconnect id token uid (c, sm)
         = (Ready (Ok ({| ro_session_id := id; ro_reconnect_token := new_token;
                          ro_granted_permissions := SessionStore.ss_granted_permissions session;
                          resumed_generation := 0; ro_user_id := uid |}, ch)),
            (c', set_state Active sm)) /\
         sent (send ch) = cs /\ stream_bytes (reader ch) = rest) /\
    (forall c accepts evs rest,
       bi_accepts c = AStream evs {| sent := []; write_results := [] |} :: accepts ->
       no_elapsed evs -> recv_bytes evs = cs ++ rest ->
       exists context st',
         (exists c', establish_connection sname trusted challenge sid new_token
                       {| connection := c; sessions := st |}
                     = (Ready (Ok (Established context)), {| connection := c'; sessions := st' |})) /\
         cc_session_id context = id /\ cc_reconnect_token context = new_token /\
         cc_granted_permissions context = SessionStore.ss_granted_permissions session /\
         starting_generation context = wrap 64 (SessionStore.last_generation session + 1) /\
         state (connection_sm context) = Active /\
         sent (send (control context)) = ss /\ stream_bytes (reader (control context)) = rest /\
         (exists c', establish_connection sname trusted challenge sid new_token
                       {| connection := c; sessions := st' |}
                     = (Ready (Ok (ReconnectRejected AUTH_RECONNECT_TOKEN_INVALID)),
                        {| connection := c'; sessions := st' |}))).
Proof.
  intros request Hreq Hres Hden Hsm Hsess Hst Htok.
  exists (control_prologue ++ frame type_id.SESSION_REAUTHENTICATE request),
         (frame type_id.AUTH_RESULT (encode (resumed_result id new_token session))).
  split.
  - intros c opens evs rest Ho Hb.
    destruct (client_reauthenticate_ok id token uid new_token session sm
      {| sent := []; write_results := [] |} (StreamReader.new evs) rest) as (r' & He & Hr'); [done..|].
    unfold client_reconnect, amap_err, open_bi. rewrite Ho. cbn [next_open map_err]. rewrite He.
    do 2 eexists. split; [reflexivity|]. done.
  - intros c accepts evs rest Ha Hne Hb.
    destruct (read_first_reauth (reauth_request id token) c accepts evs rest
      {| sent := []; write_results := [] |}) as (r & c' & Hf & Hr); [done..|by rewrite Hb, <- app_assoc|].
    pose proof (server_complete_reconnect_ok new_token (reauth_request id token) st session
      {| sent := []; write_results := [] |} r (conj Hst Htok) Hsess Hres eq_refl) as Hok.
    destruct (server_complete_reconnect_none new_token (reauth_request id token)
      {| SessionStore.sessions := delete id (SessionStore.sessions st) |}
      {| sent := []; write_results := [] |} r) as (ch & Hnone); [apply lookup_delete_eq|done|done|].
    eexists _, {| SessionStore.sessions := delete id (SessionStore.sessions st) |}. split.
    { exists c'. unfold establish_connection.
      erewrite abind_ready by (unfold on_connection, azoom; cbn [connection]; rewrite Hf; reflexivity).
      cbv beta iota.
      erewrite abind_ready by (unfold on_sessions; cbn [sessions]; rewrite Hok; reflexivity). reflexivity. }
    cbn. do 7 (split; [done|]).
    exists (release (send ch) c'). unfold establish_connection.
    erewrite abind_ready by (unfold on_connection, azoom; cbn [connection]; rewrite Hf; reflexivity).
    cbv beta iota.
    erewrite abind_ready by (unfold on_sessions; cbn [sessions]; rewrite Hnone; reflexivity). reflexivity.
Qed.

End reconnection.

(** ** Concrete runs *)

Module Examples.
#[local] Existing Instance plain_transport.
#[local] Existing Instance toy_sha256.
#[local] Existing Instance toy_ed25519.
#[local] Existing Instance toy_exporter.
#[local] Existing Instance SessionStore.plain_ct_eq.
#[local] Instance client_hello_cbor : Cbor ClientHello := countable_cbor.
#[local] Instance server_hello_cbor : Cbor ServerHello := countable_cbor.
#[local] Instance auth_pubkey_cbor : Cbor AuthPubkey := countable_cbor.
#[local] Instance auth_result_cbor : Cbor AuthResult := countable_cbor.
#[local] Instance reauth_cbor : Cbor SessionReauthenticate := countable_cbor.

Definition trusted : VerifyingKey := verifying_key (5 : SigningKey).

Definition session : SessionStore.SuspendedSession :=
  {| SessionStore.reconnect_token := [7]; SessionStore.ss_granted_permissions := 3;
     SessionStore.connection_sm := {| state := Suspended; auth_attempts := 0 |};
     SessionStore.last_generation := 4; SessionStore.ss_user_id := "u" |}.

Definition store : SessionStore.SessionStore := {| SessionStore.sessions := {[ [1] := session ]} |}.

(** A connection on whose control stream the script [evs] arrives. *)
Definition incoming (evs : list read_event) (writes : list write_event) : server_env :=
  {| connection := {| uni_accepts := [];
                      bi_accepts := [AStream evs {| sent := []; write_results := writes |}];
                      uni_opens := []; bi_opens := []; released := []; stopped_readers := [] |};
     sessions := store |}.

Definition request_bytes (reauth : SessionReauthenticate) : list Z :=
  control_prologue ++ frame type_id.SESSION_REAUTHENTICATE (encode reauth).

Definition establish (env : server_env) := establish_connection "s" trusted [9] [8] [6] env.

Lemma established_is_authenticated_witness :
  exists context env',
    establish (incoming [RData (request_bytes (reauth_request [1] [7]))] [])
      = (Ready (Ok (Established context)), env') /\
    exists first ch c,
      read_first_control_message (connection (incoming [RData (request_bytes (reauth_request [1] [7]))] []))
        = (Ready (Ok (first, ch)), c) /\
      match first with
      | FirstClientHello _ => False
      | FirstReauthenticate reauth => exists s, entitled store reauth s
      end.
Proof.
  pose proof SessionStore.plain_ct_eq_laws as L.
  destruct (establish (incoming [RData (request_bytes (reauth_request [1] [7]))] [])) as [p env'] eqn:E.
  assert (exists context, p = Ready (Ok (Established context))) as [context ->].
  { change p with (p, env').1. rewrite <- E. vm_compute. by eexists. }
  exists context, env'. split; [done|].
  destruct (established_is_authenticated _ _ _ _ _ _ _ _ E) as (first & ch & c & Hf & Hm).
  exists first, ch, c. split; [exact Hf|].
  assert (match first with FirstClientHello _ => false | FirstReauthenticate _ => true end = true) as Hr.
  { change (match (match Ready (Ok (first, ch)) : poll HandshakeError _ with
                   | Ready (Ok (f, _)) => Some f | _ => None end) with
            | Some (FirstReauthenticate _) => true | _ => false end = true).
    change (Ready (Ok (first, ch))) with (@Ready HandshakeError _ (Ok (first, ch)), c).1. rewrite <- Hf.
    by vm_compute. }
  destruct first as [|reauth]; [done|]. destruct Hm as (s & Hent & _). by exists s.
Defined.

Lemma unentitled_is_refused_witness :
  (forall s, ~ entitled store (reauth_request [1] [0]) s) /\
  sessions (establish (incoming [RData (request_bytes (reauth_request [1] [0]))] [])).2 = store.
Proof.
  pose proof SessionStore.plain_ct_eq_laws as L.
  assert (forall s, ~ entitled store (reauth_request [1] [0]) s) as Hno.
  { intros s [Hl Ht]. vm_compute in Hl. injection Hl as <-. by vm_compute in Ht. }
  split; [exact Hno|].
  destruct (read_first_control_message
    (connection (incoming [RData (request_bytes (reauth_request [1] [0]))] []))) as [p c] eqn:E.
  assert (exists ch, p = Ready (Ok (FirstReauthenticate (reauth_request [1] [0]), ch))) as [ch ->].
  { change p with (p, c).1. rewrite <- E. vm_compute. by eexists. }
  pose proof (unentitled_is_refused "s" trusted [9] [8] [6]
    (incoming [RData (request_bytes (reauth_request [1] [0]))] []) _ ch c E Hno) as Hr.
  unfold establish. destruct (establish_connection _ _ _ _ _ _) as [q env']. by destruct Hr.
Defined.

Lemma reconnect_agree_witness :
  fits (encode (reauth_request [1] [7])) /\
  exists cs ss : list Z,
    (exists c', establish (incoming [RData cs] []) = c' /\
       match c'.1 with
       | Ready (Ok (Established context)) => sent (send (control context)) = ss /\ cc_reconnect_token context = [6]
       | _ => False
       end).
Proof.
  pose proof SessionStore.plain_ct_eq_laws as L.
  pose proof (@countable_cbor_laws SessionReauthenticate _ _) as L1.
  pose proof (@countable_cbor_laws AuthResult _ _) as L2.
  split; [by vm_compute|].
  destruct (reconnect_agree "s" trusted [9] [8] [6] [1] [7] "u" session
    {| state := Suspended; auth_attempts := 0 |} store) as (cs & ss & _ & Hs);
    [by vm_compute|by vm_compute|by vm_compute|done|done|done|done|].
  exists cs, ss. eexists. split; [reflexivity|].
  destruct (Hs (connection (incoming [RData cs] [])) [] [RData cs] [])
    as (context & st' & (c' & He) & _ & Ht & _ & _ & _ & Hss & _); [done|by repeat constructor|done|].
  unfold establish, incoming. cbn [connection] in He.
  match type of He with ?l = _ => match goal with |- context [fst ?m] => change (fst m) with (fst l) end end.
  rewrite He. by split.
Defined.

(** The wait for the prologue is not under the handshake timeout: a client that
    opens the control stream and sends nothing keeps the server waiting. *)
Example silent_client_is_waited_for : (establish (incoming [RElapsed] [])).1 = Pending.
Proof. by vm_compute. Qed.

(** The reason of the request is not looked at. *)
Example permission_refresh_resumes :
  match (establish (incoming [RData (request_bytes
    {| reauth_reason := PermissionRefresh; prior_session_id := [1]; sr_reconnect_token := [7] |})] [])).1 with
  | Ready (Ok (Established context)) => is_resumed context = true
  | _ => False
  end.
Proof. by vm_compute. Qed.

(** If the answer cannot be written, the token is spent all the same and the
    client has been sent nothing. *)
Example unsent_answer_spends_token :
  let '(p, env') := establish (incoming [RData (request_bytes (reauth_request [1] [7]))] [WFail 0 tt]) in
  p = Ready (Ok (ReconnectRejected PROTOCOL_UNEXPECTED_MESSAGE)) /\
  SessionStore.sessions (sessions env') !! [1] = None /\
  map sent (released (connection env')) = [[]].
Proof. by vm_compute. Qed.
End Examples.
