(* ===== verification/TimeSync.v ===== *)
(** Clock synchronisation: the model of [src/src/timesync.rs]. *)

From S2P Require Import Prelude.
From S2P Require Varint.
From S2P Require Import StreamKind.
From S2P Require Import Envelope.
From S2P Require Import Async.
From S2P Require Import StreamReader.
From S2P Require Import Messages.
From S2P Require Import MessageCodecs.
From S2P Require Import Handshake.

(** * Definitions *)

(** ** The arithmetic *)

(** [offset_us] is an [i64], [rtt_us] a [u64]. *)
Record TimeSyncResult := { offset_us : Z; rtt_us : Z }.

Definition compute (t1 t2 t3 t4 : Z) : TimeSyncResult :=
  let t1 := swrap 64 t1 in
  let t2 := swrap 64 t2 in
  let t3 := swrap 64 t3 in
  let t4 := swrap 64 t4 in
  let offset := Z.quot (swrap 64 (swrap 64 (t2 - t1) + swrap 64 (t3 - t4))) 2 in
  let rtt := swrap 64 (swrap 64 (t4 - t1) - swrap 64 (t3 - t2)) in
  {| offset_us := offset; rtt_us := wrap 64 (Z.max rtt 0) |}.

Definition to_responder_clock (local_ts offset : Z) : Z :=
  wrap 64 (Z.max (swrap 64 (swrap 64 local_ts + offset)) 0).

(** The [fold] of [best_of]. *)
Definition keep_best (best : option TimeSyncResult) (r : TimeSyncResult) : option TimeSyncResult :=
  match best with
  | Some b => if rtt_us b <? rtt_us r then Some b else Some r
  | None => Some r
  end.

Definition best_of (rounds : list TimeSyncResult) : option TimeSyncResult :=
  fold_left keep_best rounds None.

Definition DEFAULT_TIME_SYNC_ROUNDS : nat := 8.

(** ** The exchange *)

Section exchange.
Context `{Transport}.
Context `{!Cbor TimeSyncRequest, !Cbor TimeSyncResponse}.

(** What the [n]-th call of [clock::now_us] returns. *)
Variable clock : nat -> Z.

Inductive TimeSyncError :=
| Write (e : WriteError)
| Read (e : StreamReadError)
| Decode (e : DecodeError)
| UnexpectedType (type_raw : Z).

(** The control channel and the number of clock reads so far. *)
Record peer := { channel : ControlChannel; ticks : nat }.

Definition now_us {E} : async peer E Z := fun s =>
  (Ready (Ok (clock (ticks s))), {| channel := channel s; ticks := S (ticks s) |}).

Definition on_channel {E A} : async ControlChannel E A -> async peer E A :=
  azoom channel (fun ch s => {| channel := ch; ticks := ticks s |}).

Definition sync_send (t : Z) (payload : list Z) : async peer TimeSyncError unit :=
  on_channel (on_send (amap_err Write (write_envelope false t payload))).

Definition sync_recv (timed : bool) : async peer TimeSyncError (Z * list Z) :=
  on_channel (on_reader (amap_err Read (read_envelope timed (max_envelope_length Control)))).

Definition client_time_sync_once : async peer TimeSyncError TimeSyncResult :=
  t1 ← now_us;
  let request := {| req_t1 := t1 |} in
  _ ← sync_send type_id.TIME_SYNC_REQUEST (encode request);
  '(type_raw, payload) ← sync_recv false;
  t4 ← now_us;
  if negb (type_raw =? type_id.TIME_SYNC_RESPONSE) then athrow (UnexpectedType type_raw)
  else
    response ← alift (map_err Decode (decode payload));
    aret (compute (resp_t1 response) (resp_t2 response) (resp_t3 response) t4).

(** The loop of [client_time_sync_rounds]. *)
Fixpoint sync_rounds (rounds : nat) : async peer TimeSyncError (list TimeSyncResult) :=
  match rounds with
  | O => aret []
  | S rounds' =>
      r ← client_time_sync_once;
      results ← sync_rounds rounds';
      aret (r :: results)
  end.

Definition client_time_sync_rounds (rounds : nat) : async peer TimeSyncError (list TimeSyncResult) :=
  sync_rounds (Nat.max rounds 1).

Definition client_time_sync : async peer TimeSyncError TimeSyncResult :=
  rounds ← client_time_sync_rounds DEFAULT_TIME_SYNC_ROUNDS;
  aoutcome (match best_of rounds with Some r => Done r | None => Panicked end).

Definition answer_time_sync_request (type_raw : Z) (payload : list Z) :
    async peer TimeSyncError TimeSyncResponse :=
  t2 ← now_us;
  if negb (type_raw =? type_id.TIME_SYNC_REQUEST) then athrow (UnexpectedType type_raw)
  else
    request ← alift (map_err Decode (decode payload));
    t3 ← now_us;
    aret {| resp_t1 := req_t1 request; resp_t2 := t2; resp_t3 := t3 |}.

Definition respond_to_time_sync_request (type_raw : Z) (payload : list Z) : async peer TimeSyncError unit :=
  response ← answer_time_sync_request type_raw payload;
  sync_send type_id.TIME_SYNC_RESPONSE (encode response).

Definition server_respond_time_sync : async peer TimeSyncError unit :=
  '(type_raw, payload) ← sync_recv false;
  respond_to_time_sync_request type_raw payload.

(** The loop of [server_respond_time_sync_burst].  Each turn that goes on has
    taken a frame off the stream, so one turn more than there are bytes is
    enough ([burst_loop_unfold]). *)
Fixpoint burst_loop (fuel : nat) (answered : Z) : async peer TimeSyncError Z := fun s =>
  match fuel with
  | O => (Crash, s)
  | S fuel' =>
      match sync_recv true s with
      | (Ready (Ok (type_raw, payload)), s) =>
          (_ ← respond_to_time_sync_request type_raw payload;
           burst_loop fuel' (answered + 1)) s
      | (Elapsed, s) => (Ready (Ok answered), s)
      | (Ready (Err e), s) => (Ready (Err e), s)
      | (Pending, s) => (Pending, s)
      | (Crash, s) => (Crash, s)
      end
  end.

Definition burst_loop' (answered : Z) : async peer TimeSyncError Z := fun s =>
  burst_loop (S (length (stream_bytes (reader (channel s))))) answered s.

Definition server_respond_time_sync_burst : async peer TimeSyncError Z :=
  _ ← server_respond_time_sync;
  burst_loop' 1.

End exchange.

(** * Lemmas *)

Lemma as_i64_small x : - 2 ^ 63 <= x < 2 ^ 63 -> swrap 64 x = x.
Proof. intros Hx. apply swrap_small; [lia|exact Hx]. Qed.

(** With clock readings below [2^61] nothing wraps around. *)
Lemma compute_exact t1 t2 t3 t4 :
  0 <= t1 < 2 ^ 61 -> 0 <= t2 < 2 ^ 61 -> 0 <= t3 < 2 ^ 61 -> 0 <= t4 < 2 ^ 61 ->
  compute t1 t2 t3 t4
  = {| offset_us := Z.quot ((t2 - t1) + (t3 - t4)) 2; rtt_us := Z.max ((t4 - t1) - (t3 - t2)) 0 |}.
Proof.
  intros. unfold compute. rewrite (as_i64_small t1), (as_i64_small t2), (as_i64_small t3), (as_i64_small t4) by lia.
  rewrite (as_i64_small (t2 - t1)), (as_i64_small (t3 - t4)), (as_i64_small (t4 - t1)),
    (as_i64_small (t3 - t2)) by lia.
  rewrite !as_i64_small by lia. f_equal. apply wrap_small. unfold in_width. lia.
Qed.

Lemma best_of_snoc rounds r : best_of (rounds ++ [r]) = keep_best (best_of rounds) r.
Proof. unfold best_of. apply fold_left_snoc. Qed.

(** * Properties *)

(** C39: The estimate is as good as the round trip is short.  Let the responder's
    clock be ahead of the requester's by [theta], let the request take [d1] and
    the response [d2] microseconds, and let the readings be below [2^61].  Then
    the computed round trip time is exactly the time spent on the wire, and the
    computed offset is within half of it (rounded up) of [theta]. *)
Theorem offset_error_bounded theta d1 d2 t1 t3 :
  let t2 := t1 + d1 + theta in
  let t4 := t3 - theta + d2 in
  let r := compute t1 t2 t3 t4 in
  0 <= d1 -> 0 <= d2 -> t2 <= t3 ->
  0 <= t1 < 2 ^ 61 -> 0 <= t2 < 2 ^ 61 -> 0 <= t3 < 2 ^ 61 -> 0 <= t4 < 2 ^ 61 ->
  rtt_us r = d1 + d2 /\ 2 * Z.abs (offset_us r - theta) <= rtt_us r + 1.
Proof.
  intros t2 t4 r Hd1 Hd2 Hle H1 H2 H3 H4. unfold r. rewrite compute_exact by done.
  cbn [rtt_us offset_us]. unfold t2, t4 in *. split; [lia|].
  pose proof (Z.quot_rem' (t1 + d1 + theta - t1 + (t3 - (t3 - theta + d2))) 2) as Hq.
  pose proof (Z.rem_bound_abs (t1 + d1 + theta - t1 + (t3 - (t3 - theta + d2))) 2 ltac:(lia)) as Hr.
  lia.
Qed.

(** The sample taken is the last one of smallest round trip time; only an empty
    list has none. *)
Theorem best_of_is_last_smallest rounds :
  match best_of rounds with
  | None => rounds = []
  | Some b => exists before after, rounds = before ++ b :: after /\
      Forall (fun r => rtt_us b <= rtt_us r) before /\ Forall (fun r => rtt_us b < rtt_us r) after
  end.
Proof.
  induction rounds as [|r rounds IH] using rev_ind; [done|]. rewrite best_of_snoc.
  destruct (best_of rounds) as [b|]; cbn [keep_best].
  - destruct IH as (before & after & -> & Hb & Ha). destruct (Z.ltb_spec (rtt_us b) (rtt_us r)).
    + exists before, (after ++ [r]). rewrite <- app_assoc. split; [done|]. split; [done|].
      by apply Forall_snoc.
    + exists (before ++ b :: after), []. split; [done|]. split; [|done].
      apply Forall_app. split; [eapply Forall_impl; [exact Hb|]; cbn; lia|].
      constructor; [lia|]. eapply Forall_impl; [exact Ha|]. cbn. lia.
  - subst. by exists [], [].
Qed.

(** ** The exchange *)

Section exchange_facts.
Context `{Transport}.
Context `{!Cbor TimeSyncRequest, !Cbor TimeSyncResponse}.

Lemma sync_send_ok t p s r k :
  fits p -> write_results s = [] ->
  sync_send t p {| channel := {| send := s; reader := r |}; ticks := k |}
  = (Ready (Ok tt),
     {| channel := {| send := {| sent := sent s ++ frame t p; write_results := [] |}; reader := r |};
        ticks := k |}).
Proof.
  intros Hp Hw. unfold sync_send, on_channel, on_send, azoom, amap_err. cbn [channel send reader ticks].
  by rewrite write_envelope_frame by (done || by apply fits_varint).
Qed.

Lemma sync_recv_ready timed s r k m r' :
  read_envelope timed (max_envelope_length Control) r = (Ready (Ok m), r') ->
  sync_recv timed {| channel := {| send := s; reader := r |}; ticks := k |}
  = (Ready (Ok m), {| channel := {| send := s; reader := r' |}; ticks := k |}).
Proof.
  intros Hr. unfold sync_recv, on_channel, on_reader, azoom, amap_err. cbn [channel send reader ticks].
  by rewrite Hr.
Qed.

(** Answering does not touch the reader. *)
Lemma respond_reader clock t p s s' :
  (respond_to_time_sync_request clock t p s).2 = s' -> reader (channel s') = reader (channel s).
Proof.
  unfold respond_to_time_sync_request, answer_time_sync_request.
  destruct s as [[sd rd] k]. unfold mbind, async_bind, abind, now_us, athrow, alift. cbn [channel ticks].
  destruct (negb (t =? type_id.TIME_SYNC_REQUEST)); [by intros <-|].
  destruct (decode p) as [req|]; cbn [map_err]; [|by intros <-].
  unfold sync_send, on_channel, on_send, azoom, amap_err, aret. cbn [channel send reader ticks].
  destruct (write_envelope _ _ _ _) as [[]]; by intros <-.
Qed.

Lemma sync_recv_progress timed s m s' :
  sync_recv timed s = (Ready (Ok m), s') ->
  (length (stream_bytes (reader (channel s'))) < length (stream_bytes (reader (channel s))))%nat.
Proof.
  destruct s as [[sd rd] k]. unfold sync_recv, on_channel, on_reader, azoom, amap_err.
  cbn [channel send reader ticks].
  destruct (read_envelope timed (max_envelope_length Control) rd) as [[[x|]| | |] rd'] eqn:E; try done.
  intros [= -> <-]. by apply read_envelope_progress in E.
Qed.

(** [fuel] beyond the bytes of the stream makes no difference. *)
Lemma burst_loop_fuel clock n m a s :
  (length (stream_bytes (reader (channel s))) < n)%nat ->
  (length (stream_bytes (reader (channel s))) < m)%nat ->
  burst_loop clock n a s = burst_loop clock m a s.
Proof.
  revert m a s. induction n as [|n IH]; intros [|m] a s Hn Hm; try lia. cbn [burst_loop].
  destruct (sync_recv true s) as [[[[t p]|]| | |] s1] eqn:E; try done.
  apply sync_recv_progress in E. unfold mbind, async_bind, abind.
  destruct (respond_to_time_sync_request clock t p s1) as [q s2] eqn:Eq.
  assert (reader (channel s2) = reader (channel s1)) as Hr
    by (eapply respond_reader; rewrite Eq; done).
  destruct q as [[]| | |]; try done. apply IH; rewrite Hr; lia.
Qed.

(** The loop as the source writes it, without fuel. *)
Lemma burst_loop_unfold clock a s :
  burst_loop' clock a s =
    match sync_recv true s with
    | (Ready (Ok (type_raw, payload)), s) =>
        (_ ← respond_to_time_sync_request clock type_raw payload; burst_loop' clock (a + 1)) s
    | (Elapsed, s) => (Ready (Ok a), s)
    | (Ready (Err e), s) => (Ready (Err e), s)
    | (Pending, s) => (Pending, s)
    | (Crash, s) => (Crash, s)
    end.
Proof.
  unfold burst_loop' at 1. cbn [burst_loop].
  destruct (sync_recv true s) as [[[[t p]|]| | |] s1] eqn:E; try done.
  apply sync_recv_progress in E. unfold mbind, async_bind, abind.
  destruct (respond_to_time_sync_request clock t p s1) as [q s2] eqn:Eq.
  assert (reader (channel s2) = reader (channel s1)) as Hr
    by (eapply respond_reader; rewrite Eq; done).
  destruct q as [[]| | |]; try done. apply burst_loop_fuel; rewrite Hr; lia.
Qed.

(** *** Both ends together *)

Context `{!CborLaws TimeSyncRequest, !CborLaws TimeSyncResponse}.
Set Default Proof Using "Type*".
Variables cc sc : nat -> Z.

Definition request (t1 : Z) : list Z := encode {| req_t1 := t1 |}.
Definition response (t1 t2 t3 : Z) : list Z := encode {| resp_t1 := t1; resp_t2 := t2; resp_t3 := t3 |}.

(** What [n] rounds put on the wire and compute, when the client's clock has
    been read [k] times before and the server's [m] times. *)
Fixpoint requests (n k : nat) : list Z :=
  match n with
  | O => []
  | S n' => frame type_id.TIME_SYNC_REQUEST (request (cc k)) ++ requests n' (S (S k))
  end.

Fixpoint responses (n k m : nat) : list Z :=
  match n with
  | O => []
  | S n' => frame type_id.TIME_SYNC_RESPONSE (response (cc k) (sc m) (sc (S m)))
            ++ responses n' (S (S k)) (S (S m))
  end.

Fixpoint samples (n k m : nat) : list TimeSyncResult :=
  match n with
  | O => []
  | S n' => compute (cc k) (sc m) (sc (S m)) (cc (S k)) :: samples n' (S (S k)) (S (S m))
  end.

Hypothesis request_fits : forall k, fits (request (cc k)).
Hypothesis response_fits : forall k m, fits (response (cc k) (sc m) (sc (S m))).

Lemma sync_rounds_ok n k m s r rest :
  write_results s = [] -> stream_bytes r = responses n k m ++ rest ->
  exists r',
    sync_rounds cc n {| channel := {| send := s; reader := r |}; ticks := k |}
    = (Ready (Ok (samples n k m)),
       {| channel := {| send := {| sent := sent s ++ requests n k; write_results := [] |}; reader := r' |};
          ticks := k + 2 * n |}) /\
    stream_bytes r' = rest.
Proof.
  revert k m s r. induction n as [|n IH]; intros k m s r Hw Hs.
  { exists r. cbn. rewrite app_nil_r, Nat.add_0_r, <- Hw. by destruct s. }
  cbn [responses] in Hs. rewrite <- app_assoc in Hs.
  destruct (read_envelope_frame false (max_envelope_length Control) r type_id.TIME_SYNC_RESPONSE
    (response (cc k) (sc m) (sc (S m))) (responses n (S (S k)) (S (S m)) ++ rest))
    as (r1 & Hr1 & Hb1 & _); [by vm_compute|apply response_fits|by vm_compute|done|done|].
  destruct (IH (S (S k)) (S (S m))
    {| sent := sent s ++ frame type_id.TIME_SYNC_REQUEST (request (cc k)); write_results := [] |} r1)
    as (r2 & Hr2 & Hb2); [done|done|].
  exists r2. split; [|done]. cbn [sync_rounds].
  erewrite abind_ready.
  2: { unfold client_time_sync_once. erewrite abind_ready by done. cbn [channel ticks].
       erewrite abind_ready by (apply sync_send_ok; [apply request_fits|done]).
       erewrite abind_ready by (by apply sync_recv_ready). cbv beta iota.
       erewrite abind_ready by done. rewrite Z.eqb_refl. cbn [negb].
       erewrite abind_ready by (unfold alift, response; rewrite decode_encode_msg; reflexivity).
       reflexivity. }
  erewrite abind_ready by exact Hr2. unfold aret. cbn [samples requests sent resp_t1 resp_t2 resp_t3].
  rewrite <- app_assoc. by replace (S (S k) + 2 * n)%nat with (k + 2 * S n)%nat by lia.
Qed.

Lemma respond_ok m k s r :
  write_results s = [] ->
  respond_to_time_sync_request sc type_id.TIME_SYNC_REQUEST (request (cc k))
    {| channel := {| send := s; reader := r |}; ticks := m |}
  = (Ready (Ok tt),
     {| channel := {| send := {| sent := sent s ++ frame type_id.TIME_SYNC_RESPONSE
                                                     (response (cc k) (sc m) (sc (S m)));
                                 write_results := [] |}; reader := r |};
        ticks := S (S m) |}).
Proof.
  intros Hw. unfold respond_to_time_sync_request. erewrite abind_ready.
  2: { unfold answer_time_sync_request. erewrite abind_ready by done. rewrite Z.eqb_refl. cbn [negb].
       erewrite abind_ready by (unfold alift, request; rewrite decode_encode_msg; reflexivity).
       erewrite abind_ready by done. reflexivity. }
  cbn [channel ticks req_t1]. apply sync_send_ok; [apply response_fits|done].
Qed.

(** The loop answers the requests that come before its timer fires. *)
Lemma burst_loop_ok more n k m a s r :
  write_results s = [] -> no_elapsed (recv r) -> recv_end (recv r) = Pending ->
  stream_bytes r = requests n k ->
  exists r',
    burst_loop' sc a {| channel := {| send := s; reader := extend (RElapsed :: more) r |}; ticks := m |}
    = (Ready (Ok (a + Z.of_nat n)),
       {| channel := {| send := {| sent := sent s ++ responses n k m; write_results := [] |}; reader := r' |};
          ticks := m + 2 * n |}) /\
    recv r' = more /\ buf r' = [].
Proof.
  revert k m a s r. induction n as [|n IH]; intros k m a s r Hw Hne He Hs; rewrite burst_loop_unfold.
  - cbn [requests responses] in *. unfold stream_bytes in Hs. apply app_nil in Hs as [Hb Hs].
    exists {| recv := more; buf := []; stopped := stopped r |}. split; [|done].
    unfold sync_recv, on_channel, on_reader, azoom, amap_err, extend. cbn [channel reader send ticks].
    rewrite Hb, read_envelope_elapsed by done. rewrite app_nil_r, Z.add_0_r, Nat.add_0_r, <- Hw.
    by destruct s.
  - cbn [requests] in Hs.
    destruct (read_envelope_frame true (max_envelope_length Control) r type_id.TIME_SYNC_REQUEST
      (request (cc k)) (requests n (S (S k))))
      as (r1 & Hr1 & Hb1 & He1 & Hn1 & _); [by vm_compute|apply request_fits|by vm_compute|done|done|].
    apply (read_loop_extend _ _ (RElapsed :: more)) in Hr1.
    rewrite (sync_recv_ready true s _ m _ _ Hr1).
    erewrite abind_ready by (by apply respond_ok).
    destruct (IH (S (S k)) (S (S m)) (a + 1)
      {| sent := sent s ++ frame type_id.TIME_SYNC_RESPONSE (response (cc k) (sc m) (sc (S m)));
         write_results := [] |} r1)
      as (r2 & Hr2 & Hb2); [done|by auto|by rewrite He1|done|].
    exists r2. split; [|done]. rewrite Hr2. cbn [responses sent]. rewrite <- app_assoc.
    replace (S (S m) + 2 * n)%nat with (m + 2 * S n)%nat by lia.
    by replace (a + 1 + Z.of_nat n) with (a + Z.of_nat (S n)) by lia.
Qed.

(** A burst of rounds is answered in full.  Let the client run [S n] rounds.
    There are byte strings [qs] and [rs] such that the client, reading [rs] in
    any chunks, writes [qs] and gets one sample per round, computed from its own
    readings and those of the server; and the server, reading [qs] in any chunks
    and then nothing until its timer fires, writes [rs] and reports [S n]
    answers. *)
Theorem burst_agree n more :
  exists qs rs,
    (forall r rest, stream_bytes r = rs ++ rest ->
       exists s' r', client_time_sync_rounds cc (S n)
           {| channel := {| send := {| sent := []; write_results := [] |}; reader := r |}; ticks := 0 |}
         = (Ready (Ok (samples (S n) 0 0)),
            {| channel := {| send := s'; reader := r' |}; ticks := 2 * S n |}) /\
         sent s' = qs /\ stream_bytes r' = rest) /\
    (forall r, no_elapsed (recv r) -> recv_end (recv r) = Pending -> stream_bytes r = qs ->
       exists s' r', server_respond_time_sync_burst sc
           {| channel := {| send := {| sent := []; write_results := [] |};
                            reader := extend (RElapsed :: more) r |}; ticks := 0 |}
         = (Ready (Ok (Z.of_nat (S n))),
            {| channel := {| send := s'; reader := r' |}; ticks := 2 * S n |}) /\
         sent s' = rs).
Proof.
  exists (requests (S n) 0), (responses (S n) 0 0). split.
  - intros r rest Hs.
    destruct (sync_rounds_ok (S n) 0 0 {| sent := []; write_results := [] |} r rest)
      as (r' & Hr & Hb); [done|done|].
    do 2 eexists. unfold client_time_sync_rounds. replace (Nat.max (S n) 1) with (S n) by lia.
    split; [exact Hr|]. done.
  - intros r Hne He Hs. cbn [requests] in Hs.
    destruct (read_envelope_frame false (max_envelope_length Control) r type_id.TIME_SYNC_REQUEST
      (request (cc 0)) (requests n 2))
      as (r1 & Hr1 & Hb1 & He1 & Hn1 & _); [by vm_compute|apply request_fits|by vm_compute|done|done|].
    apply (read_loop_extend _ _ (RElapsed :: more)) in Hr1.
    destruct (burst_loop_ok more n 2 2 1
      {| sent := frame type_id.TIME_SYNC_RESPONSE (response (cc 0) (sc 0) (sc 1));
         write_results := [] |} r1)
      as (r2 & Hr2 & _); [done|by auto|by rewrite He1|done|].
    do 2 eexists. split.
    { unfold server_respond_time_sync_burst, server_respond_time_sync.
      erewrite abind_ready.
      2: { erewrite abind_ready by (apply sync_recv_ready; exact Hr1). cbv beta iota.
           by apply respond_ok. }
      cbn [sent app]. rewrite Hr2.
      replace (2 + 2 * n)%nat with (2 * S n)%nat by lia.
      by replace (1 + Z.of_nat n) with (Z.of_nat (S n)) by lia. }
    done.
Qed.

End exchange_facts.

Lemma offset_error_bounded_witness :
  (0 <= 30 /\ 0 <= 10 /\ 1000 + 30 - 500 <= 700) /\
  rtt_us (compute 1000 (1000 + 30 + -500) 700 (700 - -500 + 10)) = 30 + 10 /\
  2 * Z.abs (offset_us (compute 1000 (1000 + 30 + -500) 700 (700 - -500 + 10)) - -500)
    <= rtt_us (compute 1000 (1000 + 30 + -500) 700 (700 - -500 + 10)) + 1.
Proof. split; [lia|]. apply (offset_error_bounded (-500) 30 10 1000 700); lia. Defined.

(** A burst of two rounds between a client whose clock stands at 5 and a server
    whose clock stands at 9. *)
Module Examples.
#[local] Existing Instance plain_transport.
#[local] Instance request_cbor : Cbor TimeSyncRequest := countable_cbor.
#[local] Instance response_cbor : Cbor TimeSyncResponse := countable_cbor.

Lemma burst_agree_witness :
  exists qs rs : list Z,
    exists s' r', server_respond_time_sync_burst (fun _ => 9)
        {| channel := {| send := {| sent := []; write_results := [] |};
                         reader := extend [RElapsed] (StreamReader.new [RData qs]) |}; ticks := 0 |}
      = (Ready (Ok 2), {| channel := {| send := s'; reader := r' |}; ticks := 4 |}) /\
      sent s' = rs.
Proof.
  pose proof (@countable_cbor_laws TimeSyncRequest _ _) as L1.
  pose proof (@countable_cbor_laws TimeSyncResponse _ _) as L2.
  destruct (burst_agree (fun _ => 5) (fun _ => 9)) with (n := 1%nat) (more := @nil read_event)
    as (qs & rs & _ & Hs); [by intros k; vm_compute|by intros k m; vm_compute|].
  exists qs, rs. apply Hs; [by repeat constructor|done|]. unfold stream_bytes. cbn. by rewrite app_nil_r.
Defined.
End Examples.
