(* ===== verification/FeedbackSession.v ===== *)
(** The feedback stream: the model of [src/src/feedback_session.rs]. *)

From S2P Require Import Prelude.
From S2P Require Varint.
From S2P Require Import ReasonCode.
From S2P Require Import StreamKind.
From S2P Require Import Prologue.
From S2P Require Import Envelope.
From S2P Require Import Async.
From S2P Require Import StreamReader.
From S2P Require Import Connection.
From S2P Require Import Messages.
From S2P Require Import MessageCodecs.
From S2P Require TimeSync.

(** * Definitions *)

Inductive FeedbackMessage :=
| Transport (feedback : TransportFeedback)
| AudioSync (feedback : AudioSyncFeedback)
| Keyframe (request : KeyframeRequest).

Section feedback_session.
Context `{Async.Transport}.
Context `{!Cbor TransportFeedback, !Cbor AudioSyncFeedback, !Cbor KeyframeRequest}.

Inductive ReadFeedbackError :=
| Quic (e : ConnectionError)
| ReadErr (e : StreamReadError)
| Decode (e : DecodeError)
| WrongStreamKind
| UnexpectedType (type_raw : Z).

(** ** The client *)

(** The result of writing the prologue is ignored. *)
Definition open_feedback_stream : async Connection ConnectionError SendStream :=
  send ← open_uni;
  prologue_bytes ← aoutcome (Prologue.encode Feedback 1 0 []);
  '(_, send) ← alocal send (write_all false prologue_bytes);
  aret send.

Definition send_transport_feedback (feedback : TransportFeedback) : async SendStream WriteError unit :=
  write_envelope false type_id.TRANSPORT_FEEDBACK (encode feedback).

Definition send_audio_sync_feedback (feedback : AudioSyncFeedback) : async SendStream WriteError unit :=
  write_envelope false type_id.AUDIO_SYNC_FEEDBACK (encode feedback).

Definition send_keyframe_request (request : KeyframeRequest) : async SendStream WriteError unit :=
  write_envelope false type_id.KEYFRAME_REQUEST (encode request).

(** ** The server *)

Record FeedbackReceiver := { reader : EnvelopeReader }.

Definition accept : async Connection ReadFeedbackError FeedbackReceiver :=
  recv ← amap_err Quic (accept_uni false);
  '(stream_prologue, reader) ←
    alocal_try (StreamReader.new recv) (amap_err ReadErr (read_prologue false));
  if negb (bool_decide (kind stream_prologue = Feedback)) then athrow WrongStreamKind
  else aret {| reader := reader |}.

Definition on_reader {A} : async EnvelopeReader ReadFeedbackError A ->
    async FeedbackReceiver ReadFeedbackError A :=
  azoom reader (fun r _ => {| reader := r |}).

Definition next_envelope : async FeedbackReceiver ReadFeedbackError (Z * list Z) :=
  on_reader (amap_err ReadErr (read_envelope false (max_envelope_length Feedback))).

Definition read_one : async FeedbackReceiver ReadFeedbackError TransportFeedback :=
  '(type_raw, payload) ← next_envelope;
  if negb (type_raw =? type_id.TRANSPORT_FEEDBACK) then athrow (UnexpectedType type_raw)
  else alift (map_err Decode (decode payload)).

Definition read_message : async FeedbackReceiver ReadFeedbackError FeedbackMessage :=
  '(type_raw, payload) ← next_envelope;
  if type_raw =? type_id.TRANSPORT_FEEDBACK then
    feedback ← alift (map_err Decode (decode payload));
    aret (Transport feedback)
  else if type_raw =? type_id.AUDIO_SYNC_FEEDBACK then
    feedback ← alift (map_err Decode (decode payload));
    aret (AudioSync feedback)
  else if type_raw =? type_id.KEYFRAME_REQUEST then
    request ← alift (map_err Decode (decode payload));
    aret (Keyframe request)
  else athrow (UnexpectedType type_raw).

Definition read_transport_feedback : async Connection ReadFeedbackError TransportFeedback :=
  receiver ← accept;
  '(feedback, _) ← alocal_try receiver read_one;
  aret feedback.

End feedback_session.

(** ** Building a report *)

Record FrameTimestamps := {
  receive_ts : Z;
  decode_done_ts : Z;
  display_ts : Z;
}.

Definition TRANSPORT_FEEDBACK_INTERVAL_US : Z := 100000.

Definition build_transport_feedback (header : VideoFrameHeader) (payload_len : Z)
    (timestamps : FrameTimestamps) (offset_us target_latency : Z) : TransportFeedback :=
  let decode_delay := wrap 32 (sat_sub (decode_done_ts timestamps) (receive_ts timestamps)) in
  let display_delay := wrap 32 (sat_sub (display_ts timestamps) (decode_done_ts timestamps)) in
  let display_ts_server_clock := TimeSync.to_responder_clock (display_ts timestamps) offset_us in
  let client_queue_delay := wrap 32 (sat_sub display_ts_server_clock (capture_ts header)) in
  let receive_bitrate := wrap 64 (wrap 64 (payload_len * 8) * 1000000) / TRANSPORT_FEEDBACK_INTERVAL_US in
  {| last_received_frame_id := frame_id header; last_decoded_frame_id := frame_id header;
     tf_last_displayed_frame_id := frame_id header; frames_received := 1; frames_dropped := 0;
     receive_bitrate_bps := receive_bitrate; decode_delay_us := decode_delay;
     display_delay_us := display_delay; target_latency_us := target_latency;
     client_queue_delay_us := client_queue_delay |}.

(** * Lemmas *)

(** A clock reading moved by the estimated offset, while nothing wraps around. *)
Lemma to_responder_clock_exact t o :
  0 <= t < 2 ^ 62 -> - 2 ^ 62 <= o < 2 ^ 62 -> TimeSync.to_responder_clock t o = Z.max (t + o) 0.
Proof.
  intros Ht Ho. unfold TimeSync.to_responder_clock.
  rewrite (TimeSync.as_i64_small t), TimeSync.as_i64_small by lia. apply wrap_small. unfold in_width. lia.
Qed.

Section streams.
Context `{Async.Transport}.
Context `{!Cbor TransportFeedback, !Cbor AudioSyncFeedback, !Cbor KeyframeRequest}.

(** Sending any of the messages of the stream. *)
Definition send_feedback (m : FeedbackMessage) : async SendStream WriteError unit :=
  match m with
  | Transport f => send_transport_feedback f
  | AudioSync f => send_audio_sync_feedback f
  | Keyframe r => send_keyframe_request r
  end.

Definition feedback_frame (m : FeedbackMessage) : Z * list Z :=
  match m with
  | Transport f => (type_id.TRANSPORT_FEEDBACK, encode f)
  | AudioSync f => (type_id.AUDIO_SYNC_FEEDBACK, encode f)
  | Keyframe r => (type_id.KEYFRAME_REQUEST, encode r)
  end.

Definition feedback_bytes (m : FeedbackMessage) : list Z := frame (feedback_frame m).1 (feedback_frame m).2.

Definition fits (m : FeedbackMessage) : Prop :=
  Z.of_nat (length (feedback_frame m).2) <= max_envelope_length Feedback.

Lemma send_feedback_ok m s :
  fits m -> write_results s = [] ->
  send_feedback m s = (Ready (Ok tt), {| sent := sent s ++ feedback_bytes m; write_results := [] |}).
Proof.
  intros Hm Hw. assert (Z.of_nat (length (feedback_frame m).2) <= Varint.MAX) as Hl
    by (etransitivity; [exact Hm|by vm_compute]).
  destruct m; by apply write_envelope_frame.
Qed.

Context `{!CborLaws TransportFeedback, !CborLaws AudioSyncFeedback, !CborLaws KeyframeRequest}.
Set Default Proof Using "Type*".

Lemma read_message_ok m rest s :
  fits m -> stream_bytes (reader s) = feedback_bytes m ++ rest ->
  exists s', read_message s = (Ready (Ok m), s') /\ stream_bytes (reader s') = rest.
Proof.
  intros Hm Hs.
  destruct (read_envelope_frame false (max_envelope_length Feedback) (reader s)
    (feedback_frame m).1 (feedback_frame m).2 rest) as (r' & Hr & Hb & _);
    [by destruct m; vm_compute|done|by vm_compute|done|done|].
  exists {| reader := r' |}. split; [|done]. unfold read_message.
  erewrite abind_ready by (unfold next_envelope, on_reader, azoom, amap_err; rewrite Hr; reflexivity).
  destruct m; cbn [feedback_frame fst snd]; cbv beta iota; eval_types;
    by erewrite abind_ready by (unfold alift; rewrite decode_encode_msg; reflexivity).
Qed.

(** * Properties *)

(** Feedback arrives in order.  What the client writes when it opens the feedback
    stream and sends any messages of the three kinds, the server that accepts a
    stream with these bytes, in any chunks, reads back as the same messages in
    the same order, and what follows is left on the stream. *)
Theorem feedback_in_order ms c opens :
  Forall fits ms ->
  uni_opens c = OStream {| sent := []; write_results := [] |} [] :: opens ->
  exists send c' send',
    open_feedback_stream c = (Ready (Ok send), c') /\
    afor send_feedback ms send = (Ready (Ok tt), send') /\
    forall cs accepts evs s rest,
      uni_accepts cs = AStream evs s :: accepts -> recv_bytes evs = sent send' ++ rest ->
      exists receiver cs' receiver',
        accept cs = (Ready (Ok receiver), cs') /\
        areplicate (length ms) read_message receiver = (Ready (Ok ms), receiver') /\
        stream_bytes (reader receiver') = rest.
Proof.
  intros Hms Ho. rewrite Forall_forall in Hms.
  destruct (Prologue.parse_encoded_prologue Feedback 1 0 []) as (pb & Hpb & _); [by vm_compute|].
  do 3 eexists. split; [|split].
  - unfold open_feedback_stream. erewrite abind_ready by (unfold open_uni, open_uni_within; rewrite Ho; reflexivity).
    rewrite Hpb. erewrite abind_ready by done.
    by erewrite abind_ready by (by apply alocal_ready).
  - apply (afor_writes _ feedback_bytes); [|done]. intros m s Hm Hw. apply send_feedback_ok; [|done].
    by apply Hms.
  - intros cs accepts evs s rest Ha Hb. cbn [sent app] in Hb. rewrite <- app_assoc in Hb.
    destruct (read_prologue_next false (StreamReader.new evs) Feedback 1 0 pb
      (concat (map feedback_bytes ms) ++ rest)) as (r1 & Hr1 & Hb1 & _); [by vm_compute|done|done|done|].
    destruct (areplicate_in_order read_message (fun s => stream_bytes (reader s)) feedback_bytes ms rest
      {| reader := r1 |}) as (s2 & Hr2 & Hb2); [|done|].
    { intros m rest' t Hm Ht. apply read_message_ok; [|done]. by apply Hms. }
    exists {| reader := r1 |}. do 2 eexists. split; [|by split].
    unfold accept. erewrite abind_ready by (unfold amap_err, accept_uni; rewrite Ha; reflexivity).
    by erewrite abind_ready by (apply alocal_try_ready; unfold amap_err; rewrite Hr1; reflexivity).
Qed.

End streams.

(** The reported delay is true up to half a round trip.  Let the offset come from
    an exchange over which the server's clock was ahead by [theta] and the
    messages took [d1] and [d2] microseconds, with readings below [2^61].  If a
    frame is displayed [delay] microseconds, on the server's clock, after its
    capture, then the [client_queue_delay_us] of its report differs from [delay]
    by at most half the round trip, rounded up. *)
Theorem reported_delay_bounded theta d1 d2 t1 t3 header len timestamps target delay :
  let t2 := t1 + d1 + theta in
  let t4 := t3 - theta + d2 in
  let offset := TimeSync.offset_us (TimeSync.compute t1 t2 t3 t4) in
  let report := build_transport_feedback header len timestamps offset target in
  0 <= d1 -> 0 <= d2 -> t2 <= t3 ->
  0 <= t1 < 2 ^ 61 -> 0 <= t2 < 2 ^ 61 -> 0 <= t3 < 2 ^ 61 -> 0 <= t4 < 2 ^ 61 ->
  0 <= display_ts timestamps < 2 ^ 61 -> 0 <= capture_ts header ->
  delay = display_ts timestamps + theta - capture_ts header -> 0 <= delay -> delay + d1 + d2 < 2 ^ 32 ->
  2 * Z.abs (client_queue_delay_us report - delay) <= d1 + d2 + 1.
Proof.
  intros t2 t4 offset report Hd1 Hd2 Hle H1 H2 H3 H4 Hdisp Hcap Hdelay Hpos Hmax.
  unfold report, build_transport_feedback. cbn [client_queue_delay_us].
  assert (2 * Z.abs (offset - theta) <= d1 + d2 + 1) as Ho.
  { unfold offset. rewrite TimeSync.compute_exact by done. cbn [TimeSync.offset_us].
    pose proof (Z.quot_rem' (t2 - t1 + (t3 - t4)) 2) as Hq.
    pose proof (Z.rem_bound_abs (t2 - t1 + (t3 - t4)) 2 ltac:(lia)) as Hr. unfold t2, t4 in *. lia. }
  unfold t2, t4 in *. rewrite to_responder_clock_exact by lia.
  unfold sat_sub. rewrite wrap_small by (unfold in_width; lia). lia.
Qed.

Lemma reported_delay_bounded_witness :
  let header := {| vfh_generation := 0; frame_id := 1; vfh_config_id := 0; flags := 0; capture_ts := 5000;
                   encode_done_ts := 0; vfh_width := 2; vfh_height := 2; payload_len := 9 |} in
  let timestamps := {| receive_ts := 5400; decode_done_ts := 5600; display_ts := 5800 |} in
  (5800 + -500 - 5000 = 300 /\ 0 <= 300) /\
  2 * Z.abs (client_queue_delay_us (build_transport_feedback header 9 timestamps
               (TimeSync.offset_us (TimeSync.compute 1000 (1000 + 30 + -500) 700 (700 - -500 + 10))) 0) - 300)
    <= 30 + 10 + 1.
Proof.
  split; [lia|].
  apply (reported_delay_bounded (-500) 30 10 1000 700); cbn [display_ts capture_ts]; lia.
Defined.

(** ** Concrete runs *)

Module Examples.
#[local] Existing Instance plain_transport.
#[local] Instance transport_cbor : Cbor TransportFeedback := countable_cbor.
#[local] Instance audio_cbor : Cbor AudioSyncFeedback := countable_cbor.
#[local] Instance keyframe_cbor : Cbor KeyframeRequest := countable_cbor.

Definition messages : list FeedbackMessage :=
  [Keyframe {| kr_reason := Manual |};
   AudioSync {| audio_played_ts := 4; video_displayed_ts := 5; drift_ppm := -1 |}].

Definition opening : Connection :=
  {| uni_accepts := []; bi_accepts := []; uni_opens := [OStream {| sent := []; write_results := [] |} []];
     bi_opens := []; released := []; stopped_readers := [] |}.

Lemma feedback_in_order_witness :
  Forall fits messages /\
  exists send c' send',
    open_feedback_stream opening = (Ready (Ok send), c') /\
    afor send_feedback messages send = (Ready (Ok tt), send').
Proof.
  pose proof (@countable_cbor_laws TransportFeedback _ _) as L1.
  pose proof (@countable_cbor_laws AudioSyncFeedback _ _) as L2.
  pose proof (@countable_cbor_laws KeyframeRequest _ _) as L3.
  assert (Forall fits messages) as Hf by (repeat constructor; by vm_compute).
  split; [exact Hf|].
  destruct (feedback_in_order messages opening [] Hf eq_refl) as (send & c' & send' & E1 & E2 & _).
  by exists send, c', send'.
Defined.
End Examples.
