(* ===== verification/InputState.v ===== *)
(** Input-side session state: the model of [src/src/input_state.rs]. *)

From stdpp Require Import sorting.
From S2P Require Import Prelude.
From S2P Require Import ReasonCode.
From S2P Require Import Messages.

(** * Definitions *)

Record ImeModeSm := {
  current : ImeMode;
  pending : option (ImeMode * Z);
}.

Definition new_ime : ImeModeSm := {| current := ClientSide; pending := None |}.

Definition on_mode_change (change : ImeModeChange) (sm : ImeModeSm) : ImeModeSm :=
  {| current := current sm; pending := Some (mode change, effective_after_event_id change) |}.

Definition mode_for (event_id : Z) (sm : ImeModeSm) : ImeMode * ImeModeSm :=
  let sm :=
    match pending sm with
    | Some (m, boundary) =>
        if boundary <? event_id then {| current := m; pending := None |} else sm
    | None => sm
    end in
  (current sm, sm).

Definition check_text_allowed (m : ImeMode) : result ReasonCode unit :=
  match m with
  | ClientSide => Ok tt
  | RemoteSide => Err PROTOCOL_UNEXPECTED_MESSAGE
  end.

Inductive Release :=
| Key (scancode : Z)
| Button (button : Z).

(** The [BTreeSet]s. *)
Record PressedInputs := {
  keys : gset Z;
  buttons : gset Z;
}.

Definition new_pressed : PressedInputs := {| keys := ∅; buttons := ∅ |}.

Definition on_key (scancode : Z) (down : bool) (p : PressedInputs) : PressedInputs :=
  {| keys := if down then {[ scancode ]} ∪ keys p else keys p ∖ {[ scancode ]};
     buttons := buttons p |}.

Definition on_button (button : Z) (down : bool) (p : PressedInputs) : PressedInputs :=
  {| keys := keys p;
     buttons := if down then {[ button ]} ∪ buttons p else buttons p ∖ {[ button ]} |}.

Definition is_empty (p : PressedInputs) : bool :=
  bool_decide (keys p = ∅) && bool_decide (buttons p = ∅).

(** A [BTreeSet]'s elements in its iteration order. *)
Definition ascending (s : gset Z) : list Z := merge_sort Z.le (elements s).

Definition take_releases (p : PressedInputs) : list Release * PressedInputs :=
  (map Button (ascending (buttons p)) ++ map Key (ascending (keys p)), new_pressed).

Definition between (lo hi x : Z) : bool := (lo <=? x) && (x <=? hi).

Definition is_character_key (hid_usage : Z) : bool :=
  between 0x04 0x27 hid_usage
  || (hid_usage =? 0x2C)
  || between 0x2D 0x38 hid_usage
  || between 0x54 0x57 hid_usage
  || between 0x59 0x63 hid_usage
  || (hid_usage =? 0x64)
  || (hid_usage =? 0x67)
  || (hid_usage =? 0x85)
  || (hid_usage =? 0x87)
  || (hid_usage =? 0x89).

Definition should_inject_key (m : ImeMode) (hid_usage modifiers : Z) : bool :=
  match m with
  | RemoteSide => true
  | ClientSide =>
      let shortcut_modifier :=
        negb (Z.land modifiers (Z.lor (Z.lor key_modifier.CTRL key_modifier.ALT) key_modifier.META) =? 0) in
      shortcut_modifier || negb (is_character_key hid_usage)
  end.

(** ** Runs *)

(** The modes a sequence of events is processed under. *)
Fixpoint modes (sm : ImeModeSm) (event_ids : list Z) : list ImeMode :=
  match event_ids with
  | [] => []
  | e :: es => let '(m, sm') := mode_for e sm in m :: modes sm' es
  end.

Inductive input :=
| KeyInput (scancode : Z) (down : bool)
| ButtonInput (button : Z) (down : bool).

Definition on_input (p : PressedInputs) (i : input) : PressedInputs :=
  match i with
  | KeyInput k down => on_key k down p
  | ButtonInput b down => on_button b down p
  end.

Definition press_all (ins : list input) : PressedInputs := fold_left on_input ins new_pressed.

(** The last transition of a key or button in a sequence, if any. *)
Definition last_key (k : Z) (ins : list input) : option bool :=
  fold_left (fun acc i => match i with KeyInput k' d => if k' =? k then Some d else acc | _ => acc end)
    ins None.

Definition last_button (b : Z) (ins : list input) : option bool :=
  fold_left (fun acc i => match i with ButtonInput b' d => if b' =? b then Some d else acc | _ => acc end)
    ins None.

(** * Lemmas *)

Lemma elem_of_ascending x s : x ∈ ascending s <-> x ∈ s.
Proof. unfold ascending. by rewrite merge_sort_Permutation, elem_of_elements. Qed.

Lemma NoDup_ascending s : NoDup (ascending s).
Proof. unfold ascending. rewrite merge_sort_Permutation. apply NoDup_elements. Qed.

Lemma press_all_snoc ins i : press_all (ins ++ [i]) = on_input (press_all ins) i.
Proof. apply fold_left_snoc. Qed.

Lemma pressed_keys ins k : k ∈ keys (press_all ins) <-> last_key k ins = Some true.
Proof.
  induction ins as [|i ins IH] using rev_ind; [done|].
  unfold last_key. rewrite press_all_snoc, fold_left_snoc. fold (last_key k ins).
  destruct i as [k' d|b d]; cbn [on_input on_key on_button keys]; [|exact IH].
  zcases; destruct d; set_solver.
Qed.

Lemma pressed_buttons ins b : b ∈ buttons (press_all ins) <-> last_button b ins = Some true.
Proof.
  induction ins as [|i ins IH] using rev_ind; [done|].
  unfold last_button. rewrite press_all_snoc, fold_left_snoc. fold (last_button b ins).
  destruct i as [k d|b' d]; cbn [on_input on_key on_button buttons]; [exact IH|].
  zcases; destruct d; set_solver.
Qed.

(** A release as the transition it is. *)
Definition release_input (r : Release) : input :=
  match r with Key k => KeyInput k false | Button b => ButtonInput b false end.

(** What a list of releases leaves pressed. *)
Lemma press_releases rs p :
  let p' := fold_left on_input (map release_input rs) p in
  (forall k, k ∈ keys p' <-> k ∈ keys p /\ Key k ∉ rs) /\
  (forall b, b ∈ buttons p' <-> b ∈ buttons p /\ Button b ∉ rs).
Proof.
  revert p. induction rs as [|r rs IH]; intros p; cbn [map fold_left]; [split; set_solver|].
  destruct (IH (on_input p (release_input r))) as [Hk Hb].
  destruct r as [k|b]; cbn [release_input on_input] in *; split; intros x; rewrite ?Hk, ?Hb;
    cbn [on_key on_button keys buttons]; set_solver.
Qed.

(** The synthesized releases release everything. *)
Lemma all_released p :
  fold_left on_input (map release_input (take_releases p).1) p = new_pressed.
Proof.
  destruct (press_releases (take_releases p).1 p) as [Hk Hb].
  set (p' := fold_left _ _ _) in *. unfold take_releases in *. cbn [fst] in *.
  assert (keys p' = ∅ /\ buttons p' = ∅) as [Hks Hbs].
  { split; apply set_eq; intros x; rewrite ?Hk, ?Hb, elem_of_app, !list_elem_of_fmap;
      (split; [|set_solver]); intros [Hin Hni]; destruct Hni; [right|left];
      exists x; (split; [done|]); by apply elem_of_ascending. }
  destruct p' as [ks bs]. cbn [keys buttons] in *. by subst.
Qed.

(** * Properties *)

(** The mode boundary.  After a change to [m] effective after event [n] is
    announced, events arriving in the order of their ids are processed under
    the old mode up to and including [n] and under [m] from then on, whatever
    was pending before; composed text is refused exactly under [RemoteSide]. *)
Theorem mode_boundary sm m n event_ids :
  StronglySorted Z.le event_ids ->
  modes (on_mode_change {| mode := m; effective_after_event_id := n |} sm) event_ids
    = map (fun e => if n <? e then m else current sm) event_ids /\
  (check_text_allowed m = Ok tt <-> m = ClientSide).
Proof.
  intros Hs. split; [|by destruct m].
  assert (forall sm' es, current sm' = m -> pending sm' = None -> Forall (fun e => n < e) es ->
    modes sm' es = map (fun e => if n <? e then m else current sm) es) as Hafter.
  { intros sm' es Hc Hp Hes. induction Hes as [|e es He _ IH]; [done|]. cbn [modes mode_for map].
    rewrite Hp. rewrite (proj2 (Z.ltb_lt n e)), Hc by done. by rewrite IH. }
  induction Hs as [|e es Hs IH Hle]; [done|]. cbn [modes mode_for on_mode_change pending map mode effective_after_event_id].
  destruct (Z.ltb_spec n e) as [He|He]; cbn [current].
  - f_equal. apply Hafter; [done..|]. eapply Forall_impl; [exact Hle|]. cbn. lia.
  - f_equal. exact IH.
Qed.

Lemma mode_boundary_witness :
  StronglySorted Z.le [4; 5; 6; 9] /\
  modes (on_mode_change {| mode := RemoteSide; effective_after_event_id := 5 |} new_ime) [4; 5; 6; 9]
    = [ClientSide; ClientSide; RemoteSide; RemoteSide].
Proof.
  assert (StronglySorted Z.le [4; 5; 6; 9]) as H by (repeat constructor; lia).
  split; [exact H|]. exact (proj1 (mode_boundary new_ime RemoteSide 5 [4; 5; 6; 9] H)).
Defined.

(** Nothing stays pressed.  After any inputs, the releases cover exactly the
    keys and buttons whose last transition was a press, each once, the buttons
    before the keys, and leave nothing pressed; a second call has nothing left
    to release. *)
Theorem releases_are_exact ins :
  let p := press_all ins in
  let '(rs, p') := take_releases p in
  (forall k, Key k ∈ rs <-> last_key k ins = Some true) /\
  (forall b, Button b ∈ rs <-> last_button b ins = Some true) /\
  NoDup rs /\
  (exists bs ks, rs = map Button bs ++ map Key ks /\ StronglySorted Z.le bs /\ StronglySorted Z.le ks) /\
  is_empty p' = true /\ (take_releases p').1 = [] /\
  (is_empty p = true <-> rs = []).
Proof.
  intros p. subst p. unfold take_releases. cbn [fst].
  assert (forall k l l', Key k ∈ map Button l ++ map Key l' <-> k ∈ l') as Hk.
  { intros k l l'. rewrite elem_of_app, !list_elem_of_fmap. naive_solver. }
  assert (forall b l l', Button b ∈ map Button l ++ map Key l' <-> b ∈ l) as Hb.
  { intros b l l'. rewrite elem_of_app, !list_elem_of_fmap. naive_solver. }
  split_and!.
  - intros k. by rewrite Hk, elem_of_ascending, pressed_keys.
  - intros b. by rewrite Hb, elem_of_ascending, pressed_buttons.
  - apply NoDup_app. split_and!.
    + apply NoDup_fmap_2; [by intros ?? [=]|apply NoDup_ascending].
    + intros r. rewrite !list_elem_of_fmap. naive_solver.
    + apply NoDup_fmap_2; [by intros ?? [=]|apply NoDup_ascending].
  - eexists _, _. split; [done|]. split; apply (StronglySorted_merge_sort Z.le).
  - done.
  - done.
  - unfold is_empty. rewrite andb_true_iff, !bool_decide_eq_true.
    split.
    + intros [-> ->]. done.
    + intros [E1 E2]%app_eq_nil. apply map_eq_nil in E1, E2.
      split; apply set_eq; intros x; rewrite <- elem_of_ascending, ?E1, ?E2; set_solver.
Qed.

(** Characters travel once.  A key that produces a character and is pressed
    without a shortcut modifier is injected exactly under [RemoteSide], where
    text messages are refused; so for such a key, the two ways a character can
    reach the desktop exclude each other in every mode, and one is open. *)
Theorem characters_travel_once m hid_usage modifiers :
  is_character_key hid_usage = true ->
  Z.land modifiers (Z.lor (Z.lor key_modifier.CTRL key_modifier.ALT) key_modifier.META) = 0 ->
  should_inject_key m hid_usage modifiers = negb (is_ok (check_text_allowed m)).
Proof.
  intros Hc Hm. unfold should_inject_key. rewrite Hm, Hc. by destruct m.
Qed.

Lemma characters_travel_once_witness :
  is_character_key 0x04 = true /\
  should_inject_key ClientSide 0x04 key_modifier.SHIFT = false.
Proof.
  split; [done|]. exact (characters_travel_once ClientSide 0x04 key_modifier.SHIFT eq_refl eq_refl).
Defined.
