(* ===== verification/InputSession.v ===== *)
(** The input stream: the model of [src/src/input_session.rs]. *)

From S2P Require Import Prelude.
From S2P Require Varint.
From S2P Require Import ReasonCode.
From S2P Require Import StreamKind.
From S2P Require Import Prologue.
From S2P Require Import Envelope.
From S2P Require Import Async.
From S2P Require Import StreamReader.
From S2P Require Import Connection.
From S2P Require Import Messages.
From S2P Require Import MessageCodecs.

(** * Definitions *)

(** The constructors of the source are named like the messages they hold; the
    names here are short forms of them. *)
Inductive InputMessage :=
| Key (event : KeyEvent)
| Text (event : TextInput)
| Composition (event : ImeComposition)
| Move (event : MouseMove)
| Button (event : MouseButton)
| WheelTurn (event : Wheel)
| ModeChange (event : ImeModeChange).

Section input_session.
Context `{Transport}.
Context `{!Cbor KeyEvent, !Cbor TextInput, !Cbor ImeComposition, !Cbor MouseMove, !Cbor MouseButton,
          !Cbor Wheel, !Cbor ImeModeChange}.

Inductive ReadInputError :=
| Quic (e : ConnectionError)
| ReadErr (e : StreamReadError)
| Decode (e : DecodeError)
| WrongStreamKind
| UnexpectedType (type_raw : Z).

(** ** The client *)

(** The result of writing the prologue is ignored. *)
Definition open_input_stream : async Connection ConnectionError SendStream :=
  send ← open_uni;
  prologue_bytes ← aoutcome (Prologue.encode Input 1 0 []);
  '(_, send) ← alocal send (write_all false prologue_bytes);
  aret send.

Definition send_key_event (event : KeyEvent) : async SendStream WriteError unit :=
  write_envelope false type_id.KEY_EVENT (encode event).

Definition send_text_input (event : TextInput) : async SendStream WriteError unit :=
  write_envelope false type_id.TEXT_INPUT (encode event).

Definition send_ime_composition (event : ImeComposition) : async SendStream WriteError unit :=
  write_envelope false type_id.IME_COMPOSITION (encode event).

Definition send_mouse_move (event : MouseMove) : async SendStream WriteError unit :=
  write_envelope false type_id.MOUSE_MOVE (encode event).

Definition send_mouse_button (event : MouseButton) : async SendStream WriteError unit :=
  write_envelope false type_id.MOUSE_BUTTON (encode event).

Definition send_wheel (event : Wheel) : async SendStream WriteError unit :=
  write_envelope false type_id.WHEEL (encode event).

Definition send_ime_mode_change (event : ImeModeChange) : async SendStream WriteError unit :=
  write_envelope false type_id.IME_MODE_CHANGE (encode event).

(** ** The server *)

Record InputReceiver := { reader : EnvelopeReader }.

Definition accept : async Connection ReadInputError InputReceiver :=
  recv ← amap_err Quic (accept_uni false);
  '(stream_prologue, reader) ←
    alocal_try (StreamReader.new recv) (amap_err ReadErr (read_prologue false));
  if negb (bool_decide (kind stream_prologue = Input)) then athrow WrongStreamKind
  else aret {| reader := reader |}.

Definition from_reader (reader : EnvelopeReader) : InputReceiver := {| reader := reader |}.

(** [messages::decode(&payload).map_err(Decode)?] under a constructor. *)
Definition decode_as {T} `{!Cbor T} (f : T -> InputMessage) (payload : list Z) :
    async InputReceiver ReadInputError InputMessage :=
  event ← alift (map_err Decode (decode payload));
  aret (f event).

Definition read_message : async InputReceiver ReadInputError InputMessage :=
  '(type_raw, payload) ←
    azoom reader (fun r _ => {| reader := r |})
      (amap_err ReadErr (read_envelope false (max_envelope_length Input)));
  if type_raw =? type_id.KEY_EVENT then decode_as Key payload
  else if type_raw =? type_id.TEXT_INPUT then decode_as Text payload
  else if type_raw =? type_id.IME_COMPOSITION then decode_as Composition payload
  else if type_raw =? type_id.MOUSE_MOVE then decode_as Move payload
  else if type_raw =? type_id.MOUSE_BUTTON then decode_as Button payload
  else if type_raw =? type_id.WHEEL then decode_as WheelTurn payload
  else if type_raw =? type_id.IME_MODE_CHANGE then decode_as ModeChange payload
  else athrow (UnexpectedType type_raw).

(** * Lemmas *)

(** Sending any of the messages of the stream. *)
Definition send_input (m : InputMessage) : async SendStream WriteError unit :=
  match m with
  | Key e => send_key_event e
  | Text e => send_text_input e
  | Composition e => send_ime_composition e
  | Move e => send_mouse_move e
  | Button e => send_mouse_button e
  | WheelTurn e => send_wheel e
  | ModeChange e => send_ime_mode_change e
  end.

Definition input_frame (m : InputMessage) : Z * list Z :=
  match m with
  | Key e => (type_id.KEY_EVENT, encode e)
  | Text e => (type_id.TEXT_INPUT, encode e)
  | Composition e => (type_id.IME_COMPOSITION, encode e)
  | Move e => (type_id.MOUSE_MOVE, encode e)
  | Button e => (type_id.MOUSE_BUTTON, encode e)
  | WheelTurn e => (type_id.WHEEL, encode e)
  | ModeChange e => (type_id.IME_MODE_CHANGE, encode e)
  end.

Definition input_bytes (m : InputMessage) : list Z := frame (input_frame m).1 (input_frame m).2.

Definition fits (m : InputMessage) : Prop :=
  Z.of_nat (length (input_frame m).2) <= max_envelope_length Input.

Lemma fits_computed (ms : list InputMessage) :
  forallb (fun m => Z.of_nat (length (input_frame m).2) <=? max_envelope_length Input) ms = true -> Forall fits ms.
Proof.
  intros Hb. apply Forall_forall. intros m Hm. rewrite forallb_forall in Hb.
  apply list_elem_of_In, Hb, Z.leb_le in Hm. exact Hm.
Qed.

Lemma send_input_ok m s :
  fits m -> write_results s = [] ->
  send_input m s = (Ready (Ok tt), {| sent := sent s ++ input_bytes m; write_results := [] |}).
Proof.
  intros Hm Hw. assert (Z.of_nat (length (input_frame m).2) <= Varint.MAX) as Hl
    by (etransitivity; [exact Hm|by vm_compute]).
  destruct m; by apply write_envelope_frame.
Qed.

Context `{!CborLaws KeyEvent, !CborLaws TextInput, !CborLaws ImeComposition, !CborLaws MouseMove,
          !CborLaws MouseButton, !CborLaws Wheel, !CborLaws ImeModeChange}.
Set Default Proof Using "Type*".

Lemma decode_as_encoded {T} `{!Cbor T, !CborLaws T} (f : T -> InputMessage) (event : T) s :
  decode_as f (encode event) s = (Ready (Ok (f event)), s).
Proof. unfold decode_as. by erewrite abind_ready by (unfold alift; rewrite decode_encode_msg; reflexivity). Qed.

Lemma input_read_message_ok m rest s :
  fits m -> stream_bytes (reader s) = input_bytes m ++ rest ->
  exists s', read_message s = (Ready (Ok m), s') /\ stream_bytes (reader s') = rest.
Proof.
  intros Hm Hs.
  destruct (read_envelope_frame false (max_envelope_length Input) (reader s)
    (input_frame m).1 (input_frame m).2 rest) as (r' & Hr & Hb & _);
    [by destruct m; vm_compute|done|by vm_compute|done|done|].
  exists {| reader := r' |}. split; [|done]. unfold read_message.
  erewrite abind_ready by (unfold azoom, amap_err; rewrite Hr; reflexivity).
  destruct m; cbn [input_frame fst snd]; cbv beta iota; eval_types; apply decode_as_encoded.
Qed.

(** * Properties *)

(** Input arrives in order.  What the client writes when it opens the input stream
    and sends any events of the seven kinds, the server that accepts a stream
    with these bytes, in any chunks, reads back as the same events in the same
    order, and what follows is left on the stream. *)
Theorem input_in_order ms c opens :
  Forall fits ms ->
  uni_opens c = OStream {| sent := []; write_results := [] |} [] :: opens ->
  exists send c' send',
    open_input_stream c = (Ready (Ok send), c') /\
    afor send_input ms send = (Ready (Ok tt), send') /\
    forall cs accepts evs s rest,
      uni_accepts cs = AStream evs s :: accepts -> recv_bytes evs = sent send' ++ rest ->
      exists receiver cs' receiver',
        accept cs = (Ready (Ok receiver), cs') /\
        areplicate (length ms) read_message receiver = (Ready (Ok ms), receiver') /\
        stream_bytes (reader receiver') = rest.
Proof.
  intros Hms Ho. rewrite Forall_forall in Hms.
  destruct (Prologue.parse_encoded_prologue Input 1 0 []) as (pb & Hpb & _); [by vm_compute|].
  do 3 eexists. split; [|split].
  - unfold open_input_stream. erewrite abind_ready by (unfold open_uni, open_uni_within; rewrite Ho; reflexivity).
    rewrite Hpb. erewrite abind_ready by done.
    by erewrite abind_ready by (by apply alocal_ready).
  - apply (afor_writes _ input_bytes); [|done]. intros m s Hm Hw. apply send_input_ok; [|done].
    by apply Hms.
  - intros cs accepts evs s rest Ha Hb. cbn [sent app] in Hb. rewrite <- app_assoc in Hb.
    destruct (read_prologue_next false (StreamReader.new evs) Input 1 0 pb
      (concat (map input_bytes ms) ++ rest)) as (r1 & Hr1 & Hb1 & _); [by vm_compute|done|done|done|].
    destruct (areplicate_in_order read_message (fun s => stream_bytes (reader s)) input_bytes ms rest
      {| reader := r1 |}) as (s2 & Hr2 & Hb2); [|done|].
    { intros m rest' t Hm Ht. apply input_read_message_ok; [|done]. by apply Hms. }
    exists {| reader := r1 |}. do 2 eexists. split; [|by split].
    unfold accept. erewrite abind_ready by (unfold amap_err, accept_uni; rewrite Ha; reflexivity).
    by erewrite abind_ready by (apply alocal_try_ready; unfold amap_err; rewrite Hr1; reflexivity).
Qed.

End input_session.

(** ** Concrete runs *)

Module Examples.
#[local] Existing Instance plain_transport.
#[local] Instance key_cbor : Cbor KeyEvent := countable_cbor.
#[local] Instance text_cbor : Cbor TextInput := countable_cbor.
#[local] Instance composition_cbor : Cbor ImeComposition := countable_cbor.
#[local] Instance move_cbor : Cbor MouseMove := countable_cbor.
#[local] Instance button_cbor : Cbor MouseButton := countable_cbor.
#[local] Instance wheel_cbor : Cbor Wheel := countable_cbor.
#[local] Instance mode_cbor : Cbor ImeModeChange := countable_cbor.

Definition header (n : Z) : InputHeader := {| event_id := n; client_ts := 0 |}.

Definition events : list InputMessage :=
  [Key {| ke_header := header 1; ke_down := true; scancode := 4; logical_key := 97; modifiers := 0 |};
   ModeChange {| mode := RemoteSide; effective_after_event_id := 1 |};
   Text {| ti_header := header 2; ti_text := "a" |};
   Move {| mm_header := header 3; mm_x := 10; mm_y := 20 |}].

Definition opening : Connection :=
  {| uni_accepts := []; bi_accepts := []; uni_opens := [OStream {| sent := []; write_results := [] |} []];
     bi_opens := []; released := []; stopped_readers := [] |}.

Lemma input_in_order_witness :
  Forall fits events /\
  exists send c' send',
    open_input_stream opening = (Ready (Ok send), c') /\
    afor send_input events send = (Ready (Ok tt), send').
Proof.
  pose proof (@countable_cbor_laws KeyEvent _ _) as L1.
  pose proof (@countable_cbor_laws TextInput _ _) as L2.
  pose proof (@countable_cbor_laws ImeComposition _ _) as L3.
  pose proof (@countable_cbor_laws MouseMove _ _) as L4.
  pose proof (@countable_cbor_laws MouseButton _ _) as L5.
  pose proof (@countable_cbor_laws Wheel _ _) as L6.
  pose proof (@countable_cbor_laws ImeModeChange _ _) as L7.
  assert (Forall fits events) as Hf by (repeat constructor; by vm_compute).
  split; [exact Hf|].
  destruct (input_in_order events opening [] Hf eq_refl) as (send & c' & send' & E1 & E2 & _).
  by exists send, c', send'.
Defined.
End Examples.
