(* ===== verification/AudioSession.v ===== *)
(** Audio streams: the model of [src/src/audio_session.rs], but for the
    synthetic tone, which is computed in floating point. *)

From S2P Require Import Prelude.
From S2P Require Varint.
From S2P Require Import ReasonCode.
From S2P Require Import StreamKind.
From S2P Require Import Prologue.
From S2P Require Import Envelope.
From S2P Require Import Async.
From S2P Require Import StreamReader.
From S2P Require Import Connection.
From S2P Require Import Messages.
From S2P Require Import MessageCodecs.

Section audio_session.
Context `{Transport}.
Context `{!Cbor AudioConfig, !Cbor AudioFrameHeader}.

(** * Definitions *)

Inductive AudioError :=
| Quic (e : ConnectionError)
| Write (e : WriteError)
| ReadErr (e : StreamReadError)
| Decode (e : DecodeError)
| Violation (reason : ReasonCode)
| FrameLengthMismatch
| WrongStreamKind.

Definition send_message (t : Z) (payload : list Z) : async SendStream AudioError unit :=
  amap_err Write (write_envelope false t payload).

Definition open_audio_stream (kind : StreamKind) (config : AudioConfig) :
    async Connection AudioError SendStream :=
  send ← amap_err Quic open_uni;
  prologue_bytes ← aoutcome (Prologue.encode kind 1 0 []);
  '(_, send) ← alocal_try send (
    _ ← amap_err Write (write_all false prologue_bytes);
    send_message type_id.AUDIO_CONFIG (encode config));
  aret send.

Definition send_audio_frame (seq capture duration : Z) (payload : list Z) :
    async SendStream AudioError unit :=
  let header := {| sequence := seq; afh_capture_ts := capture; duration_us := duration;
                   afh_payload_len := Z.of_nat (length payload) |} in
  _ ← send_message type_id.AUDIO_FRAME_HEADER (encode header);
  _ ← send_message type_id.AUDIO_FRAME_PAYLOAD payload;
  aret tt.

Record AudioFrameReader := {
  reader : EnvelopeReader;
  reader_kind : StreamKind;
}.

(** The next envelope, which has to be of type [t]; [timed] as in
    [read_next_frame]. *)
Definition expect_message (timed : bool) (kind : StreamKind) (t : Z) :
    async EnvelopeReader AudioError (list Z) :=
  '(type_raw, payload) ← amap_err ReadErr (read_envelope timed (max_envelope_length kind));
  if negb (type_raw =? t) then athrow (Violation PROTOCOL_UNEXPECTED_MESSAGE) else aret payload.

Definition read_config (timed : bool) (kind : StreamKind) : async EnvelopeReader AudioError AudioConfig :=
  payload ← expect_message timed kind type_id.AUDIO_CONFIG;
  alift (map_err Decode (decode payload)).

(** What follows [accept_uni]; [timed] for a future that may be dropped. *)
Definition read_audio_intro (timed : bool) (expected_kind : StreamKind) :
    async EnvelopeReader AudioError AudioConfig :=
  stream_prologue ← amap_err ReadErr (read_prologue timed);
  if negb (bool_decide (kind stream_prologue = expected_kind)) then athrow WrongStreamKind
  else read_config timed expected_kind.

Definition accept_audio_stream_within (timed : bool) (expected_kind : StreamKind) :
    async Connection AudioError (AudioConfig * AudioFrameReader) :=
  recv ← amap_err Quic (accept_uni timed);
  '(config, reader) ← alocal_try (StreamReader.new recv) (read_audio_intro timed expected_kind);
  aret (config, {| reader := reader; reader_kind := expected_kind |}).

Definition accept_audio_stream (expected_kind : StreamKind) :
    async Connection AudioError (AudioConfig * AudioFrameReader) :=
  accept_audio_stream_within false expected_kind.

Definition accept_audio_capture_from_reader (reader : EnvelopeReader) (audio_capture_granted : bool) :
    async Connection AudioError (option (AudioConfig * AudioFrameReader)) :=
  if negb audio_capture_granted then
    c ← aget;
    _ ← aput (note_stop (default 0 (stopped (stop 0 reader))) c);
    aret None
  else
    '(config, reader) ← alocal_try reader (read_config false AudioCapture);
    aret (Some (config, {| reader := reader; reader_kind := AudioCapture |})).

Definition accept_audio_capture_gated (audio_capture_granted : bool) :
    async Connection AudioError (option (AudioConfig * AudioFrameReader)) :=
  recv ← amap_err Quic (accept_uni false);
  '(stream_prologue, reader) ←
    alocal_try (StreamReader.new recv) (amap_err ReadErr (read_prologue false));
  if negb (bool_decide (kind stream_prologue = AudioCapture)) then athrow WrongStreamKind
  else accept_audio_capture_from_reader reader audio_capture_granted.

Definition generate_silence_payload (samples : Z) : list Z :=
  replicate (Z.to_nat (wrap 64 (samples * 2))) 0.

(** A future that is dropped while it waits leaves the reader as it is at that
    moment: the outcome [Elapsed], possible where [timed] says so.  The header
    is a local variable, which a dropped future loses. *)
Definition read_next_frame (timed : bool) :
    async AudioFrameReader AudioError (AudioFrameHeader * list Z) := fun s =>
  let on_reader {A} : async EnvelopeReader AudioError A -> async AudioFrameReader AudioError A :=
    azoom reader (fun r s => {| reader := r; reader_kind := reader_kind s |}) in
  (payload ← on_reader (expect_message timed (reader_kind s) type_id.AUDIO_FRAME_HEADER);
   header ← alift (map_err Decode (decode payload));
   frame_payload ← on_reader (expect_message timed (reader_kind s) type_id.AUDIO_FRAME_PAYLOAD);
   if negb (Z.of_nat (length frame_payload) =? afh_payload_len header) then athrow FrameLengthMismatch
   else aret (header, frame_payload)) s.

(** * Lemmas *)

Definition fits (kind : StreamKind) (p : list Z) : Prop := Z.of_nat (length p) <= max_envelope_length kind.

Lemma audio_fits_varint kind p : fits kind p -> Z.of_nat (length p) <= Varint.MAX.
Proof. unfold fits. intros Hp. etransitivity; [exact Hp|]. by destruct kind; vm_compute. Qed.

Lemma audio_send_message_ok kind t p s :
  fits kind p -> write_results s = [] ->
  send_message t p s = (Ready (Ok tt), {| sent := sent s ++ frame t p; write_results := [] |}).
Proof.
  intros Hp Hw. unfold send_message, amap_err.
  by rewrite write_envelope_frame by (done || by eapply audio_fits_varint).
Qed.

Lemma audio_expect_message_ok timed kind t p rest r :
  is_u16 t -> fits kind p -> (timed = true -> no_elapsed (recv r)) -> stream_bytes r = frame t p ++ rest ->
  exists r', expect_message timed kind t r = (Ready (Ok p), r') /\ stream_bytes r' = rest /\
    (no_elapsed (recv r) -> no_elapsed (recv r')).
Proof.
  intros Ht Hp Hne Hs.
  destruct (read_envelope_frame timed (max_envelope_length kind) r t p rest)
    as (r' & Hr & Hb & _ & Hn & _); [done..|by destruct kind; vm_compute|done|done|].
  exists r'. split; [|done]. unfold expect_message.
  erewrite abind_ready by (unfold amap_err; rewrite Hr; reflexivity). cbv beta iota. by rewrite Z.eqb_refl.
Qed.

(** A frame: its header's sequence number, capture time and duration, and its payload. *)
Definition frame_header (f : Z * Z * Z * list Z) : AudioFrameHeader :=
  let '(seq, capture, duration, payload) := f in
  {| sequence := seq; afh_capture_ts := capture; duration_us := duration;
     afh_payload_len := Z.of_nat (length payload) |}.

Definition frame_bytes (f : Z * Z * Z * list Z) : list Z :=
  frame type_id.AUDIO_FRAME_HEADER (encode (frame_header f)) ++ frame type_id.AUDIO_FRAME_PAYLOAD f.2.

Definition frame_ok (kind : StreamKind) (f : Z * Z * Z * list Z) : Prop :=
  fits kind (encode (frame_header f)) /\ fits kind f.2.

Definition send_frame (f : Z * Z * Z * list Z) : async SendStream AudioError unit :=
  let '(seq, capture, duration, payload) := f in send_audio_frame seq capture duration payload.

Lemma send_frame_ok kind f s :
  frame_ok kind f -> write_results s = [] ->
  send_frame f s = (Ready (Ok tt), {| sent := sent s ++ frame_bytes f; write_results := [] |}).
Proof.
  destruct f as [[[seq capture] duration] payload]. intros [Hh Hp] Hw.
  unfold send_frame, send_audio_frame.
  erewrite abind_ready by (by eapply audio_send_message_ok).
  erewrite abind_ready by (by eapply audio_send_message_ok).
  unfold frame_bytes, aret. cbn [sent frame_header snd]. by rewrite <- app_assoc.
Qed.

Context `{!CborLaws AudioConfig, !CborLaws AudioFrameHeader}.
Set Default Proof Using "Type*".

Lemma read_next_frame_ok f rest s :
  frame_ok (reader_kind s) f -> stream_bytes (reader s) = frame_bytes f ++ rest ->
  exists r', read_next_frame false s
    = (Ready (Ok (frame_header f, f.2)), {| reader := r'; reader_kind := reader_kind s |}) /\
    stream_bytes r' = rest.
Proof.
  intros [Hh Hp] Hs. unfold frame_bytes in Hs. rewrite <- app_assoc in Hs.
  edestruct (audio_expect_message_ok false) as (r1 & Hr1 & Hb1 & _); [|exact Hh|done|exact Hs|]; [by vm_compute|].
  edestruct (audio_expect_message_ok false) as (r2 & Hr2 & Hb2 & _); [|exact Hp|done|exact Hb1|]; [by vm_compute|].
  exists r2. split; [|done]. unfold read_next_frame.
  erewrite abind_ready by (unfold azoom; rewrite Hr1; reflexivity).
  erewrite abind_ready by (unfold alift; rewrite decode_encode_msg; reflexivity).
  erewrite abind_ready by (unfold azoom; cbn [reader]; rewrite Hr2; reflexivity).
  destruct f as [[[seq capture] duration] payload]. cbn [snd afh_payload_len frame_header].
  by rewrite Z.eqb_refl.
Qed.

(** * Properties *)

(** Audio arrives.  What one side writes when it opens an audio stream of either
    kind and sends frames on it, the other side, accepting a stream of that kind
    with these bytes in any chunks, reads back as the same configuration and, as
    long as no read is dropped, the same frames in order. *)
Theorem audio_in_order kind config fs c opens :
  fits kind (encode config) -> Forall (frame_ok kind) fs ->
  uni_opens c = OStream {| sent := []; write_results := [] |} [] :: opens ->
  exists send c' send',
    open_audio_stream kind config c = (Ready (Ok send), c') /\
    afor send_frame fs send = (Ready (Ok tt), send') /\
    forall cr accepts evs s rest,
      uni_accepts cr = AStream evs s :: accepts -> recv_bytes evs = sent send' ++ rest ->
      exists rd cr' rd',
        accept_audio_stream kind cr = (Ready (Ok (config, rd)), cr') /\
        areplicate (length fs) (read_next_frame false) rd
          = (Ready (Ok (map (fun f => (frame_header f, f.2)) fs)), rd') /\
        stream_bytes (reader rd') = rest.
Proof.
  intros Hc Hfs Ho.
  destruct (Prologue.parse_encoded_prologue kind 1 0 []) as (pb & Hpb & _); [by vm_compute|].
  do 3 eexists. split; [|split].
  - unfold open_audio_stream. erewrite abind_ready by (unfold amap_err, open_uni, open_uni_within; rewrite Ho; reflexivity).
    rewrite Hpb. erewrite abind_ready by done.
    erewrite abind_ready.
    2: { apply alocal_try_ready.
         erewrite abind_ready by (unfold amap_err, write_all; reflexivity). by eapply audio_send_message_ok. }
    reflexivity.
  - apply (afor_writes _ frame_bytes); [|done]. intros f s Hf Hw. eapply send_frame_ok; [|done].
    rewrite Forall_forall in Hfs. by apply Hfs.
  - intros cr accepts evs s rest Ha Hb. cbn [sent app] in Hb. rewrite <- !app_assoc in Hb.
    edestruct (read_prologue_next false (StreamReader.new evs) kind 1 0 pb)
      as (r1 & Hr1 & Hb1 & _); [by vm_compute|done|done|exact Hb|].
    edestruct (audio_expect_message_ok false) as (r2 & Hr2 & Hb2 & _); [|exact Hc|done|exact Hb1|]; [by vm_compute|].
    destruct (areplicate_map_in_order (read_next_frame false) (fun s => reader_kind s = kind)
      (fun s => stream_bytes (reader s)) frame_bytes (fun f => (frame_header f, f.2)) fs rest
      {| reader := r2; reader_kind := kind |}) as (s2 & Hr3 & _ & Hb3); [|done..|].
    { intros f rest' t Hf Hk Ht. rewrite Forall_forall in Hfs.
      destruct (read_next_frame_ok f rest' t) as (r' & Hr & Hb'); [rewrite Hk; by apply Hfs|done|].
      by exists {| reader := r'; reader_kind := reader_kind t |}. }
    exists {| reader := r2; reader_kind := kind |}. do 2 eexists. split; [|by split].
    unfold accept_audio_stream, accept_audio_stream_within.
    erewrite abind_ready by (unfold amap_err, accept_uni; rewrite Ha; reflexivity).
    erewrite abind_ready.
    2: { apply alocal_try_ready. unfold read_audio_intro.
         erewrite abind_ready by (unfold amap_err; rewrite Hr1; reflexivity).
         cbn [Prologue.kind]. rewrite bool_decide_true by done. cbn [negb].
         unfold read_config. erewrite abind_ready by exact Hr2.
         unfold alift. rewrite decode_encode_msg. reflexivity. }
    reflexivity.
Qed.

End audio_session.

(** ** Concrete runs *)

Module Examples.
#[local] Existing Instance plain_transport.
#[local] Instance config_cbor : Cbor AudioConfig := countable_cbor.
#[local] Instance header_cbor : Cbor AudioFrameHeader := countable_cbor.

Definition config : AudioConfig :=
  {| ac_codec := Opus; sample_rate := 48000; channels := 2; frame_duration_ms := 20 |}.

Definition frames : list (Z * Z * Z * list Z) := [(0, 10, 20, [1; 2; 3]); (1, 30, 20, [])].

Definition opening : Connection :=
  {| uni_accepts := []; bi_accepts := []; uni_opens := [OStream {| sent := []; write_results := [] |} []];
     bi_opens := []; released := []; stopped_readers := [] |}.

Lemma audio_in_order_witness :
  (fits AudioPlayback (encode config) /\ Forall (frame_ok AudioPlayback) frames) /\
  exists send c' send',
    open_audio_stream AudioPlayback config opening = (Ready (Ok send), c') /\
    afor send_frame frames send = (Ready (Ok tt), send').
Proof.
  pose proof (@countable_cbor_laws AudioConfig _ _) as L1.
  pose proof (@countable_cbor_laws AudioFrameHeader _ _) as L2.
  assert (Forall (frame_ok AudioPlayback) frames) as Hf
    by (do 2 (apply Forall_cons_2; [split; by vm_compute|]); apply Forall_nil_2).
  assert (fits AudioPlayback (encode config)) as Hc by by vm_compute.
  split; [done|].
  destruct (audio_in_order AudioPlayback config frames opening [] Hc Hf eq_refl)
    as (send & c' & send' & E1 & E2 & _).
  by exists send, c', send'.
Defined.

(** A read dropped between a header and its payload loses the header: the next
    read finds the payload where a header has to be. *)
Definition cut_stream : list read_event :=
  [RData (frame type_id.AUDIO_FRAME_HEADER (encode (frame_header (0, 10, 20, [1; 2; 3]))));
   RElapsed; RData (frame type_id.AUDIO_FRAME_PAYLOAD [1; 2; 3])].

Definition reading : AudioFrameReader :=
  {| reader := StreamReader.new cut_stream; reader_kind := AudioPlayback |}.

Example dropped_read_loses_its_header :
  (read_next_frame true reading).1 = Elapsed /\
  (read_next_frame true (read_next_frame true reading).2).1
    = Ready (Err (Violation PROTOCOL_UNEXPECTED_MESSAGE)).
Proof. split; vm_compute; reflexivity. Qed.

(** A microphone that is not granted is stopped without an error. *)
Example ungranted_capture_stopped :
  let o := accept_audio_capture_from_reader (StreamReader.new cut_stream) false opening in
  o.1 = Ready (Ok None) /\ stopped_readers o.2 = [0].
Proof. by vm_compute. Qed.
End Examples.
