(* ===== verification/ClipboardSession.v ===== *)
(** Clipboard exchange: the model of [src/src/clipboard_session.rs]. *)

From S2P Require Import Prelude.
From S2P Require Varint.
From S2P Require Import ReasonCode.
From S2P Require Import StreamKind.
From S2P Require Import Prologue.
From S2P Require Import Envelope.
From S2P Require Import Async.
From S2P Require Import StreamReader.
From S2P Require Import Connection.
From S2P Require Import Messages.
From S2P Require Import MessageCodecs.

Section clipboard_session.
Context `{Transport}.
Context `{!Cbor ClipboardFormats, !Cbor ClipboardRequest, !Cbor ClipboardData, !Cbor ClipboardError}.

(** * Definitions *)

Inductive ClipboardSessionError :=
| Quic (e : ConnectionError)
| Write (e : WriteError)
| ReadErr (e : StreamReadError)
| Decode (e : DecodeError)
| WrongStreamKind
| UnexpectedType (type_raw : Z)
| RequestIdMismatch (context_id request_id : Z)
| ResponseTimeout.

(** The two halves of the exchange's stream, as one side holds them. *)
Record Exchange := {
  send : SendStream;
  reader : EnvelopeReader;
}.

Definition on_send {E A} : async SendStream E A -> async Exchange E A :=
  azoom send (fun s x => {| send := s; reader := reader x |}).

Definition on_reader {E A} : async EnvelopeReader E A -> async Exchange E A :=
  azoom reader (fun r x => {| send := send x; reader := r |}).

Definition next_envelope (timed : bool) : async EnvelopeReader ClipboardSessionError (Z * list Z) :=
  amap_err ReadErr (read_envelope timed (max_envelope_length Clipboard)).

Definition announce_clipboard_formats (fs : ClipboardFormats) :
    async Connection ClipboardSessionError Exchange :=
  '(send, recv) ← amap_err Quic open_bi;
  prologue_bytes ← aoutcome (Prologue.encode Clipboard 1 (cf_request_id fs) []);
  '(_, send) ← alocal_try send (amap_err Write (
    _ ← write_all false prologue_bytes;
    write_envelope false type_id.CLIPBOARD_FORMATS (encode fs)));
  aret {| send := send; reader := StreamReader.new recv |}.

(** What follows [accept_bi]; [timed] where the future can be dropped while it waits. *)
Definition read_formats (timed : bool) : async EnvelopeReader ClipboardSessionError ClipboardFormats :=
  stream_prologue ← amap_err ReadErr (read_prologue timed);
  if negb (bool_decide (kind stream_prologue = Clipboard)) then athrow WrongStreamKind
  else
    '(type_raw, payload) ← next_envelope timed;
    if negb (type_raw =? type_id.CLIPBOARD_FORMATS) then athrow (UnexpectedType type_raw)
    else
      fs ← alift (map_err Decode (decode payload));
      if negb (cf_request_id fs =? context_id stream_prologue) then
        athrow (RequestIdMismatch (context_id stream_prologue) (cf_request_id fs))
      else aret fs.

Definition accept_clipboard_formats_within (timed : bool) :
    async Connection ClipboardSessionError (Exchange * ClipboardFormats) :=
  '(send, recv) ← amap_err Quic (accept_bi timed);
  '(fs, reader) ← alocal_try (StreamReader.new recv) (read_formats timed);
  aret ({| send := send; reader := reader |}, fs).

Definition accept_clipboard_formats := accept_clipboard_formats_within false.

(** The body of the timeout. *)
Definition read_response : async EnvelopeReader ClipboardSessionError (result ClipboardError ClipboardData) :=
  '(type_raw, payload) ← next_envelope true;
  if type_raw =? type_id.CLIPBOARD_DATA then
    data ← alift (map_err Decode (decode payload));
    aret (Ok data)
  else if type_raw =? type_id.CLIPBOARD_ERROR then
    error ← alift (map_err Decode (decode payload));
    aret (Err error)
  else athrow (UnexpectedType type_raw).

(** When the timeout fires, whatever its length, is part of the reader's script. *)
Definition request_clipboard_data_with_timeout (request : ClipboardRequest) :
    async Exchange ClipboardSessionError (result ClipboardError ClipboardData) :=
  _ ← on_send (amap_err Write (write_envelope false type_id.CLIPBOARD_REQUEST (encode request)));
  on_reader (atimeout ResponseTimeout read_response).

Definition request_clipboard_data (request : ClipboardRequest) :
    async Exchange ClipboardSessionError (result ClipboardError ClipboardData) :=
  request_clipboard_data_with_timeout request.

Definition read_clipboard_request : async EnvelopeReader ClipboardSessionError ClipboardRequest :=
  '(type_raw, payload) ← next_envelope false;
  if negb (type_raw =? type_id.CLIPBOARD_REQUEST) then athrow (UnexpectedType type_raw)
  else alift (map_err Decode (decode payload)).

Definition send_clipboard_error (error : ClipboardError) : async SendStream WriteError unit :=
  write_envelope false type_id.CLIPBOARD_ERROR (encode error).

Definition respond_to_clipboard_request (request_id : Z) (namespace : FormatNamespace)
    (format_id : string) (data : list Z) (max_size : option Z) : async SendStream WriteError unit :=
  if match max_size with Some max => max <? Z.of_nat (length data) | None => false end then
    send_clipboard_error
      {| ce_request_id := request_id; ce_reason := POLICY_CLIPBOARD_FORMAT_TOO_LARGE |}
  else
    let response := {| cd_request_id := request_id; cd_namespace := namespace;
                       cd_format_id := format_id; cd_data := data |} in
    write_envelope false type_id.CLIPBOARD_DATA (encode response).

(** * Specification *)

(** What a requester is owed: the data under its request's names if the
    announcer's policy lets it out, the refusal otherwise. *)
Definition answer (request : ClipboardRequest) (data : list Z) (max_size : option Z) :
    result ClipboardError ClipboardData :=
  if match max_size with Some max => bool_decide (max < Z.of_nat (length data)) | None => false end
  then Err {| ce_request_id := cr_request_id request; ce_reason := POLICY_CLIPBOARD_FORMAT_TOO_LARGE |}
  else Ok {| cd_request_id := cr_request_id request; cd_namespace := cr_namespace request;
             cd_format_id := cr_format_id request; cd_data := data |}.

Definition answer_payload (a : result ClipboardError ClipboardData) : list Z :=
  match a with Ok data => encode data | Err e => encode e end.

Definition answer_type (a : result ClipboardError ClipboardData) : Z :=
  match a with Ok _ => type_id.CLIPBOARD_DATA | Err _ => type_id.CLIPBOARD_ERROR end.

Definition fits (p : list Z) : Prop := Z.of_nat (length p) <= max_envelope_length Clipboard.

(** * Lemmas *)

Lemma clipboard_fits_varint p : fits p -> Z.of_nat (length p) <= Varint.MAX.
Proof. intros Hp. etransitivity; [exact Hp|]. by vm_compute. Qed.

Lemma next_envelope_ok timed t p rest r :
  is_u16 t -> fits p -> (timed = true -> no_elapsed (recv r)) -> stream_bytes r = frame t p ++ rest ->
  exists r', next_envelope timed r = (Ready (Ok (t, p)), r') /\ stream_bytes r' = rest /\
    (no_elapsed (recv r) -> no_elapsed (recv r')).
Proof.
  intros Ht Hp Hne Hs.
  destruct (read_envelope_frame timed (max_envelope_length Clipboard) r t p rest)
    as (r' & Hr & Hb & _ & Hn & _); [done..|by vm_compute|done|done|].
  exists r'. split; [|done]. unfold next_envelope, amap_err. by rewrite Hr.
Qed.

Lemma clipboard_respond_ok request data max_size s :
  fits (answer_payload (answer request data max_size)) -> write_results s = [] ->
  respond_to_clipboard_request (cr_request_id request) (cr_namespace request) (cr_format_id request)
    data max_size s
  = (Ready (Ok tt),
     {| sent := sent s ++ frame (answer_type (answer request data max_size))
                                (answer_payload (answer request data max_size));
        write_results := [] |}).
Proof.
  intros Hf Hw. apply clipboard_fits_varint in Hf. unfold respond_to_clipboard_request, answer in *.
  replace (match max_size with Some max => max <? _ | None => false end)
    with (match max_size with Some max => bool_decide (max < Z.of_nat (length data)) | None => false end).
  - destruct (match max_size with Some _ => _ | None => _ end); by apply write_envelope_frame.
  - destruct max_size as [max|]; [|done].
    destruct (Z.ltb_spec max (Z.of_nat (length data))); [by rewrite bool_decide_true|by rewrite bool_decide_false by lia].
Qed.

Context `{!CborLaws ClipboardFormats, !CborLaws ClipboardRequest, !CborLaws ClipboardData,
  !CborLaws ClipboardError}.
Set Default Proof Using "Type*".

Lemma read_response_ok a rest r :
  fits (answer_payload a) -> no_elapsed (recv r) ->
  stream_bytes r = frame (answer_type a) (answer_payload a) ++ rest ->
  exists r', read_response r = (Ready (Ok a), r') /\ stream_bytes r' = rest.
Proof.
  intros Hf Hne Hs.
  destruct (next_envelope_ok true (answer_type a) (answer_payload a) rest r)
    as (r' & Hr & Hb & _); [by destruct a; vm_compute|done..|].
  exists r'. split; [|done]. unfold read_response. erewrite abind_ready by exact Hr. cbv beta iota.
  destruct a; cbn [answer_type answer_payload]; eval_types; unfold alift;
    erewrite abind_ready by (rewrite decode_encode_msg; reflexivity); done.
Qed.

Lemma read_formats_ok fs pb rest r :
  0 <= cf_request_id fs <= Varint.MAX -> Prologue.encode Clipboard 1 (cf_request_id fs) [] = Done pb ->
  fits (encode fs) -> stream_bytes r = pb ++ frame type_id.CLIPBOARD_FORMATS (encode fs) ++ rest ->
  exists r', read_formats false r = (Ready (Ok fs), r') /\ stream_bytes r' = rest /\
    (no_elapsed (recv r) -> no_elapsed (recv r')).
Proof.
  intros Hid Hpb Hf Hs.
  edestruct (read_prologue_next false r Clipboard 1 (cf_request_id fs) pb)
    as (r1 & Hr1 & Hb1 & Hn1); [done..|exact Hs|].
  destruct (next_envelope_ok false type_id.CLIPBOARD_FORMATS (encode fs) rest r1)
    as (r2 & Hr2 & Hb2 & Hn2); [by vm_compute|done..|].
  exists r2. split; [|split; [done|]].
  - unfold read_formats. erewrite abind_ready by (unfold amap_err; rewrite Hr1; reflexivity).
    cbn [kind]. rewrite bool_decide_true by done. cbn [negb].
    erewrite abind_ready by exact Hr2. cbv beta iota. eval_types. cbn [negb].
    erewrite abind_ready by (unfold alift; rewrite decode_encode_msg; reflexivity).
    cbn [context_id]. by rewrite Z.eqb_refl.
  - intros Hn. apply Hn2. by apply Hn1.
Qed.
(** * Properties *)

(** C35: A clipboard exchange comes to its answer.  The announcer opens the exchange's
    stream, and reads the request off it and replies to it.  The requester
    that accepts this stream, with the announcer's bytes in any chunks and no
    timeout before their end, reads the formats as announced; the request it
    sends is the one the announcer read, and the answer it gets is the data under
    the names it asked for, or, when the data is longer than the announcer's
    policy allows, the error POLICY_CLIPBOARD_FORMAT_TOO_LARGE for its request.
    The announcement's request id must be one that a varint can carry, and the
    three messages, the answer among them, must each fit the clipboard stream's
    envelope limit of 16 MiB: with data above that limit and a policy that lets it
    through, the requester's read refuses the envelope instead. *)
Theorem clipboard_exchange fs request data max_size c opens incoming :
  0 <= cf_request_id fs <= Varint.MAX ->
  fits (encode fs) -> fits (encode request) -> fits (answer_payload (answer request data max_size)) ->
  bi_opens c = OStream {| sent := []; write_results := [] |} incoming :: opens ->
  recv_bytes incoming = frame type_id.CLIPBOARD_REQUEST (encode request) ->
  exists announcer c' r' send',
    announce_clipboard_formats fs c = (Ready (Ok announcer), c') /\
    read_clipboard_request (reader announcer) = (Ready (Ok request), r') /\
    respond_to_clipboard_request (cr_request_id request) (cr_namespace request)
      (cr_format_id request) data max_size (send announcer) = (Ready (Ok tt), send') /\
    forall cr accepts evs,
      bi_accepts cr = AStream evs {| sent := []; write_results := [] |} :: accepts ->
      no_elapsed evs -> recv_bytes evs = sent send' ->
      exists requester cr' requester',
        accept_clipboard_formats cr = (Ready (Ok (requester, fs)), cr') /\
        request_clipboard_data request requester
          = (Ready (Ok (answer request data max_size)), requester') /\
        sent (send requester') = recv_bytes incoming.
Proof.
  intros Hid Hfs Hreq Hans Ho Hin.
  destruct (Prologue.parse_encoded_prologue Clipboard 1 (cf_request_id fs) [] Hid) as (pb & Hpb & _).
  destruct (next_envelope_ok false type_id.CLIPBOARD_REQUEST (encode request) [] (StreamReader.new incoming))
    as (r' & Hr & _); [by vm_compute|done|done|by rewrite app_nil_r|].
  do 4 eexists. split; [|split; [|split]].
  - unfold announce_clipboard_formats.
    erewrite abind_ready by (unfold amap_err, open_bi; rewrite Ho; reflexivity). cbv beta iota.
    rewrite Hpb. erewrite abind_ready by done.
    erewrite abind_ready.
    2: { apply alocal_try_ready. unfold amap_err.
         erewrite abind_ready by (unfold write_all; reflexivity).
         rewrite write_envelope_frame by (done || by apply clipboard_fits_varint). reflexivity. }
    reflexivity.
  - cbn [reader]. unfold read_clipboard_request. erewrite abind_ready by exact Hr. cbv beta iota. eval_types. cbn [negb].
    unfold alift. by rewrite decode_encode_msg.
  - by apply clipboard_respond_ok.
  - intros cr accepts evs Ha Hne Hb. cbn [send sent app] in Hb. rewrite <- app_assoc in Hb.
    destruct (read_formats_ok fs pb (frame (answer_type (answer request data max_size))
      (answer_payload (answer request data max_size))) (StreamReader.new evs))
      as (r1 & Hr1 & Hb1 & Hn1); [done..|].
    destruct (read_response_ok (answer request data max_size) [] r1)
      as (r2 & Hr2 & _); [done|by apply Hn1|by rewrite app_nil_r|].
    do 3 eexists. split; [|split].
    + unfold accept_clipboard_formats, accept_clipboard_formats_within.
      erewrite abind_ready by (unfold amap_err, accept_bi; rewrite Ha; reflexivity). cbv beta iota.
      erewrite abind_ready by (apply alocal_try_ready; exact Hr1). reflexivity.
    + unfold request_clipboard_data, request_clipboard_data_with_timeout. erewrite abind_ready.
      2: { unfold on_send, azoom, amap_err. cbn [send].
           rewrite write_envelope_frame by (done || by apply clipboard_fits_varint). reflexivity. }
      unfold on_reader, azoom. cbn [reader]. erewrite atimeout_ready by exact Hr2. reflexivity.
    + by rewrite Hin.
Qed.
End clipboard_session.

(** ** Concrete runs *)

Module Examples.
#[local] Existing Instance plain_transport.
#[local] Instance formats_cbor : Cbor ClipboardFormats := countable_cbor.
#[local] Instance request_cbor : Cbor ClipboardRequest := countable_cbor.
#[local] Instance data_cbor : Cbor ClipboardData := countable_cbor.
#[local] Instance error_cbor : Cbor ClipboardError := countable_cbor.

Definition announced : ClipboardFormats :=
  {| cf_request_id := 7; formats := [{| entry_namespace := Mime; entry_format_id := "t" |}] |}.

Definition wanted : ClipboardRequest :=
  {| cr_request_id := 7; cr_namespace := Mime; cr_format_id := "t" |}.

Definition opening : Connection :=
  {| uni_accepts := []; bi_accepts := []; uni_opens := [];
     bi_opens := [OStream {| sent := []; write_results := [] |}
                    [RData (frame type_id.CLIPBOARD_REQUEST (encode wanted))]];
     released := []; stopped_readers := [] |}.

(** Three bytes where the policy allows two. *)
Lemma clipboard_exchange_witness :
  answer wanted [1; 2; 3] (Some 2)
    = Err {| ce_request_id := 7; ce_reason := POLICY_CLIPBOARD_FORMAT_TOO_LARGE |} /\
  exists announcer c' r' send',
    announce_clipboard_formats announced opening = (Ready (Ok announcer), c') /\
    read_clipboard_request (reader announcer) = (Ready (Ok wanted), r') /\
    respond_to_clipboard_request 7 Mime "t" [1; 2; 3] (Some 2) (send announcer) = (Ready (Ok tt), send').
Proof.
  pose proof (@countable_cbor_laws ClipboardFormats _ _) as L1.
  pose proof (@countable_cbor_laws ClipboardRequest _ _) as L2.
  pose proof (@countable_cbor_laws ClipboardData _ _) as L3.
  pose proof (@countable_cbor_laws ClipboardError _ _) as L4.
  split; [done|].
  assert (fits (encode announced)) as Hf by by vm_compute.
  assert (fits (encode wanted)) as Hw by by vm_compute.
  assert (fits (answer_payload (answer wanted [1; 2; 3] (Some 2)))) as Ha by by vm_compute.
  assert (0 <= cf_request_id announced <= Varint.MAX) as Hid by by vm_compute.
  destruct (clipboard_exchange announced wanted [1; 2; 3] (Some 2) opening []
    [RData (frame type_id.CLIPBOARD_REQUEST (encode wanted))] Hid Hf Hw Ha eq_refl
    (app_nil_r _)) as (announcer & c' & r' & send' & E1 & E2 & E3 & _).
  by exists announcer, c', r', send'.
Defined.

(** A request that no answer comes to ends with the timeout. *)
Example unanswered_request :
  (request_clipboard_data wanted
    {| send := {| sent := []; write_results := [] |}; reader := StreamReader.new [RElapsed] |}).1
    = Ready (Err ResponseTimeout).
Proof. by vm_compute. Qed.
End Examples.
