(* ===== verification/ConnError.v ===== *)
(** The server's errors and which of them are a lost transport: the model of
    [src/src/conn_error.rs]. *)

From S2P Require Import Prelude.
From S2P Require Import ReasonCode.
From S2P Require Import StreamKind.
From S2P Require Import Async.
From S2P Require Import StreamReader.
From S2P Require Import Envelope.
From S2P Require VideoSession.
From S2P Require FeedbackSession.
From S2P Require AudioSession.
From S2P Require ClipboardSession.
From S2P Require Handshake.
From S2P Require TimeSync.

Section conn_error.
Context `{Transport}.

(** The errors of the encoder process and of [tokio]'s tasks, which are only passed on. *)
Context {EncodeError JoinError : Type}.

(** * Definitions *)

Inductive ConnError :=
| Handshake (e : Handshake.HandshakeError)
| Quic (e : ConnectionError)
| Write (e : WriteError)
| Video (e : VideoSession.VideoError)
| Feedback (e : FeedbackSession.ReadFeedbackError)
| Violation (reason : ReasonCode)
| Encode (e : EncodeError)
| Join (e : JoinError)
| Read (e : StreamReadError)
| TimeSync (e : TimeSync.TimeSyncError)
| Audio (e : AudioSession.AudioError)
| Clipboard (e : ClipboardSession.ClipboardSessionError)
| Capture (message : string)
| IdleTimeout.

Definition is_read_disconnect (e : StreamReadError) : bool :=
  match e with
  | StreamReader.Read _ | ClosedEarly => true
  | _ => false
  end.

Definition is_transport_disconnect (error : ConnError) : bool :=
  match error with
  | IdleTimeout => true
  | Quic _ | Write _ => true
  | Read e => is_read_disconnect e
  | Feedback (FeedbackSession.Quic _) => true
  | Feedback (FeedbackSession.ReadErr e) => is_read_disconnect e
  | Video (VideoSession.Quic _ | VideoSession.Write _) => true
  | Video (VideoSession.ReadErr e) => is_read_disconnect e
  | Audio (AudioSession.Quic _ | AudioSession.Write _) => true
  | Audio (AudioSession.ReadErr e) => is_read_disconnect e
  | Clipboard (ClipboardSession.Quic _ | ClipboardSession.Write _) => true
  | Clipboard (ClipboardSession.ReadErr e) => is_read_disconnect e
  | _ => false
  end.

(** * Properties *)

(** The streams whose read errors the server's loop passes on. *)
Inductive passed_on : (StreamReadError -> ConnError) -> Prop :=
| on_control : passed_on Read
| on_feedback : passed_on (fun e => Feedback (FeedbackSession.ReadErr e))
| on_video : passed_on (fun e => Video (VideoSession.ReadErr e))
| on_audio : passed_on (fun e => Audio (AudioSession.ReadErr e))
| on_clipboard : passed_on (fun e => Clipboard (ClipboardSession.ReadErr e)).

(** A session is suspended for its transport's failures and not for its peer's.
    When reading an envelope fails, on any of the streams whose errors the
    server's loop passes on, the error counts as a disconnect exactly when the
    bytes received to the end of the stream are no complete message and no
    malformed one: an unfinished one that the transport, closed or failed, cut
    short.  A peer that sends a malformed envelope is never taken for a
    lost one, whatever the transport does afterwards. *)
Theorem disconnect_is_cut_short wrap max_length r e r' :
  passed_on wrap -> read_envelope false max_length r = (Ready (Err e), r') ->
  (is_transport_disconnect (wrap e) = true <->
   envelope_parser max_length (stream_bytes r) = Ok None) /\
  (is_transport_disconnect (wrap e) = false <->
   exists e', envelope_parser max_length (stream_bytes r) = Err e').
Proof.
  intros Hw Hr.
  assert (is_transport_disconnect (wrap e) = is_read_disconnect e) as -> by by destruct Hw.
  destruct (read_loop_spec (envelope_parser max_length) false r
    (envelope_parser_incremental max_length) ltac:(done)) as (r2 & _ & Hspec).
  unfold read_envelope in Hr.
  destruct (envelope_parser max_length (stream_bytes r)) as [[[x n]|]|e'] eqn:Ep.
  - destruct Hspec as [Hspec _]. congruence.
  - rewrite Hr in Hspec. assert (is_read_disconnect e = true) as ->; [|naive_solver].
    destruct (recv_end (recv r)) as [[|e2]| | |] eqn:Ee; try done. injection Hspec as -> _.
    clear -Ee. induction (recv r) as [|[] l IH]; cbn in Ee; try done; try (by apply IH);
      by injection Ee as <-.
  - rewrite Hr in Hspec. injection Hspec as -> _. unfold envelope_parser in Ep.
    destruct (Envelope.parse _ _) as [[[env m]|]|e2]; [done..|]. injection Ep as <-.
    naive_solver.
Qed.

End conn_error.

(** ** Concrete runs *)

Module Examples.
#[local] Existing Instance plain_transport.

(** A control stream that closes inside an envelope's header. *)
Definition cut_short : EnvelopeReader := StreamReader.new [RData [0; 1]; RFin].

Lemma disconnect_is_cut_short_witness :
  exists e r',
    read_envelope false (max_envelope_length Control) cut_short = (Ready (Err e), r') /\
    is_transport_disconnect (EncodeError := unit) (JoinError := unit) (Read e) = true.
Proof.
  exists ClosedEarly, {| recv := [RFin]; buf := [0; 1]; stopped := None |}.
  assert (read_envelope false (max_envelope_length Control) cut_short
    = (Ready (Err ClosedEarly), {| recv := [RFin]; buf := [0; 1]; stopped := None |})) as Hr
    by by vm_compute.
  split; [exact Hr|].
  apply (disconnect_is_cut_short (EncodeError := unit) (JoinError := unit) Read
    (max_envelope_length Control) cut_short ClosedEarly _ on_control Hr).
  by vm_compute.
Defined.
End Examples.
