(* ===== verification/InputInjection.v ===== *)
(** What a server session does with the input events it receives: the model of
    [InputInjection] in [src/sardp-cli/src/bin/sardp-server.rs]. *)

From S2P Require Import Prelude.
From S2P Require Import ReasonCode.
From S2P Require Import PermissionSet.
From S2P Require PermissionSm.
From S2P Require Import Messages.
From S2P Require Import Async.
From S2P Require Import InputState.
From S2P Require InputSession.
From S2P Require ConnError.

Section input_injection.
Context `{Transport}.
Context {EncodeError JoinError : Type}.

#[local] Notation conn_error := (@ConnError.ConnError _ EncodeError JoinError).

(** * Definitions *)

(** Sink-level events, after permission, IME and character-key decisions. *)
Inductive SinkEvent :=
| SinkKey (hid_usage : Z) (down : bool)
| SinkText (text : string)
| SinkMouseMove (x y : Z)
| SinkMouseButton (button : Z) (down : bool)
| SinkWheel (dx dy : Z).

(** [os::InjectCommand]. *)
Inductive InjectCommand :=
| InjectKey (hid_usage : Z) (down : bool)
| InjectText (text : string)
| InjectMouseMove (x y : Z)
| InjectMouseButton (button : Z) (down : bool)
| InjectWheel (dx dy : Z).

(** The injector's thread takes its commands from a channel; [inject] on one
    that is gone fails, which is logged only. *)
Inductive InputSink :=
| Log
| Os (alive : bool) (commands : list InjectCommand)
| Unavailable (reason : string).

(** [emitted] is what has been passed to [emit] so far, whatever the sink;
    [peer] is only for the log. *)
Record InputInjection := {
  sink : InputSink;
  ime : ImeModeSm;
  pressed : PressedInputs;
  injected : Z;
  dropped_not_granted : Z;
  skipped_character_keys : Z;
  mouse_moves : Z;
  emitted : list SinkEvent;
}.

Definition new (sink : InputSink) : InputInjection :=
  {| sink := sink; ime := new_ime; pressed := new_pressed; injected := 0; dropped_not_granted := 0;
     skipped_character_keys := 0; mouse_moves := 0; emitted := [] |}.

Definition command (event : SinkEvent) : InjectCommand :=
  match event with
  | SinkKey hid_usage down => InjectKey hid_usage down
  | SinkText text => InjectText text
  | SinkMouseMove x y => InjectMouseMove x y
  | SinkMouseButton button down => InjectMouseButton button down
  | SinkWheel dx dy => InjectWheel dx dy
  end.

Definition emit (event : SinkEvent) (s : InputInjection) : InputInjection :=
  {| sink := match sink s with
             | Os true commands => Os true (commands ++ [command event])
             | other => other
             end;
     ime := ime s; pressed := pressed s; injected := wrap 64 (injected s + 1);
     dropped_not_granted := dropped_not_granted s;
     skipped_character_keys := skipped_character_keys s; mouse_moves := mouse_moves s;
     emitted := emitted s ++ [event] |}.

Definition with_ime (i : ImeModeSm) (s : InputInjection) : InputInjection :=
  {| sink := sink s; ime := i; pressed := pressed s; injected := injected s;
     dropped_not_granted := dropped_not_granted s;
     skipped_character_keys := skipped_character_keys s; mouse_moves := mouse_moves s;
     emitted := emitted s |}.

Definition with_pressed (p : PressedInputs) (s : InputInjection) : InputInjection :=
  {| sink := sink s; ime := ime s; pressed := p; injected := injected s;
     dropped_not_granted := dropped_not_granted s;
     skipped_character_keys := skipped_character_keys s; mouse_moves := mouse_moves s;
     emitted := emitted s |}.

(** The closure of [handle]. *)
Definition not_granted (s : InputInjection) : InputInjection :=
  {| sink := sink s; ime := ime s; pressed := pressed s; injected := injected s;
     dropped_not_granted := wrap 64 (dropped_not_granted s + 1);
     skipped_character_keys := skipped_character_keys s; mouse_moves := mouse_moves s;
     emitted := emitted s |}.

Definition skip_character_key (s : InputInjection) : InputInjection :=
  {| sink := sink s; ime := ime s; pressed := pressed s; injected := injected s;
     dropped_not_granted := dropped_not_granted s;
     skipped_character_keys := wrap 64 (skipped_character_keys s + 1); mouse_moves := mouse_moves s;
     emitted := emitted s |}.

Definition count_move (s : InputInjection) : InputInjection :=
  {| sink := sink s; ime := ime s; pressed := pressed s; injected := injected s;
     dropped_not_granted := dropped_not_granted s;
     skipped_character_keys := skipped_character_keys s; mouse_moves := wrap 64 (mouse_moves s + 1);
     emitted := emitted s |}.

Definition handle (message : InputSession.InputMessage) (permission_sm : PermissionSm.PermissionSm)
    (s : InputInjection) : result conn_error unit * InputInjection :=
  let keyboard := PermissionSm.is_granted permission_sm bit.INPUT_KEYBOARD in
  let mouse := PermissionSm.is_granted permission_sm bit.INPUT_MOUSE in
  match message with
  | InputSession.ModeChange change => (Ok tt, with_ime (on_mode_change change (ime s)) s)
  | InputSession.Key key =>
      let '(m, i) := mode_for (event_id (ke_header key)) (ime s) in
      let s := with_ime i s in
      if negb keyboard then (Ok tt, not_granted s)
      else if negb (should_inject_key m (scancode key) (modifiers key)) then (Ok tt, skip_character_key s)
      else
        let s := with_pressed (on_key (scancode key) (ke_down key) (pressed s)) s in
        (Ok tt, emit (SinkKey (scancode key) (ke_down key)) s)
  | InputSession.Text text =>
      let '(m, i) := mode_for (event_id (ti_header text)) (ime s) in
      let s := with_ime i s in
      match check_text_allowed m with
      | Err reason => (Err (ConnError.Violation reason), s)
      | Ok _ =>
          if negb keyboard then (Ok tt, not_granted s) else (Ok tt, emit (SinkText (ti_text text)) s)
      end
  | InputSession.Composition composition =>
      let '(m, i) := mode_for (event_id (ic_header composition)) (ime s) in
      let s := with_ime i s in
      match check_text_allowed m with
      | Err reason => (Err (ConnError.Violation reason), s)
      | Ok _ => if negb keyboard then (Ok tt, not_granted s) else (Ok tt, s)
      end
  | InputSession.Move m =>
      if negb mouse then (Ok tt, not_granted s)
      else (Ok tt, emit (SinkMouseMove (mm_x m) (mm_y m)) (count_move s))
  | InputSession.Button b =>
      if negb mouse then (Ok tt, not_granted s)
      else
        let s := with_pressed (on_button (mb_button b) (mb_down b) (pressed s)) s in
        let s := emit (SinkMouseMove (mb_x b) (mb_y b)) s in
        (Ok tt, emit (SinkMouseButton (mb_button b) (mb_down b)) s)
  | InputSession.WheelTurn w =>
      if negb mouse then (Ok tt, not_granted s)
      else (Ok tt, emit (SinkWheel (dx w) (dy w)) s)
  end.

Definition release_event (r : Release) : SinkEvent :=
  match r with
  | Key hid_usage => SinkKey hid_usage false
  | Button button => SinkMouseButton button false
  end.

Definition release_all (s : InputInjection) : InputInjection :=
  let '(releases, p) := take_releases (pressed s) in
  fold_left (fun s r => emit (release_event r) s) releases (with_pressed p s).

(** ** Runs *)

(** What happens to a session's input: a message, handled under the permissions
    of that moment, or the end of an input stream. *)
Inductive op :=
| Message (m : InputSession.InputMessage) (permission_sm : PermissionSm.PermissionSm)
| StreamEnd.

Definition run_op (s : InputInjection) (o : op) : InputInjection :=
  match o with
  | Message m sm => (handle m sm s).2
  | StreamEnd => release_all s
  end.

Definition run (s : InputInjection) (ops : list op) : InputInjection := fold_left run_op ops s.

(** The presses and releases among the events, as the desktop sees them. *)
Definition desktop_input (e : SinkEvent) : list input :=
  match e with
  | SinkKey k down => [KeyInput k down]
  | SinkMouseButton b down => [ButtonInput b down]
  | _ => []
  end.

(** The same of a command. *)
Definition command_input (c : InjectCommand) : list input :=
  match c with
  | InjectKey k down => [KeyInput k down]
  | InjectMouseButton b down => [ButtonInput b down]
  | _ => []
  end.

(** What they leave held down there. *)
Definition held (es : list SinkEvent) : PressedInputs := press_all (flat_map desktop_input es).

Definition keyboard_event (e : SinkEvent) : bool :=
  match e with SinkKey _ _ | SinkText _ => true | _ => false end.

(** * Lemmas *)

Lemma desktop_input_command e : desktop_input e = command_input (command e).
Proof. by destruct e. Qed.

Lemma held_snoc es e : held (es ++ [e]) = fold_left on_input (desktop_input e) (held es).
Proof.
  unfold held, press_all. rewrite flat_map_app, fold_left_app. cbn [flat_map]. by rewrite app_nil_r.
Qed.

Lemma held_app es es' : held (es ++ es') = fold_left on_input (flat_map desktop_input es') (held es).
Proof. unfold held, press_all. by rewrite flat_map_app, fold_left_app. Qed.

(** An open injector has been given every event. *)
Definition all_injected (s : InputInjection) : Prop :=
  forall commands, sink s = Os true commands -> commands = map command (emitted s).

Lemma emit_all_injected e s : all_injected s -> all_injected (emit e s).
Proof.
  intros Hs commands. cbn [emit sink emitted]. unfold all_injected in Hs.
  destruct (sink s) as [|[] cs|]; try done. intros [= <-]. by rewrite map_app, <- (Hs cs).
Qed.

(** The session knows what is held down. *)
Definition in_step (s : InputInjection) : Prop := pressed s = held (emitted s) /\ all_injected s.

Lemma emit_in_step e s :
  all_injected s -> pressed s = held (emitted s ++ [e]) -> in_step (emit e s).
Proof. intros Hs Hp. split; [exact Hp|]. by apply emit_all_injected. Qed.

Lemma emit_plain_in_step e s : desktop_input e = [] -> in_step s -> in_step (emit e s).
Proof. intros He [Hp Hs]. apply emit_in_step; [done|]. by rewrite held_snoc, He. Qed.

Lemma handle_in_step m sm s : in_step s -> in_step (handle m sm s).2.
Proof.
  intros Hin. pose proof Hin as [Hp Hs].
  destruct m as [key|text|comp|mv|b|w|change]; cbn [handle]; try destruct (mode_for _ _) as [mode i];
    cbn zeta; repeat case_match; try done; cbn [snd].
  - apply emit_in_step; [done|]. rewrite held_snoc. cbn [with_pressed with_ime emitted pressed].
    by rewrite <- Hp.
  - by apply emit_plain_in_step.
  - by apply emit_plain_in_step.
  - apply emit_in_step; [by apply emit_all_injected|]. rewrite !held_snoc.
    cbn [emit with_pressed pressed emitted desktop_input fold_left]. rewrite !held_snoc.
    cbn [desktop_input fold_left]. by rewrite <- Hp.
  - by apply emit_plain_in_step.
Qed.

Lemma emit_releases rs s :
  let s' := fold_left (fun s r => emit (release_event r) s) rs s in
  emitted s' = emitted s ++ map release_event rs /\ pressed s' = pressed s /\
  (all_injected s -> all_injected s').
Proof.
  revert s. induction rs as [|r rs IH]; intros s; cbn [fold_left map].
  { by rewrite app_nil_r. }
  destruct (IH (emit (release_event r) s)) as (-> & -> & Hs). cbn [emit emitted pressed].
  rewrite <- app_assoc. split_and!; [done..|]. intros Hin. by apply Hs, emit_all_injected.
Qed.

Lemma release_events_input rs : flat_map desktop_input (map release_event rs) = map release_input rs.
Proof. induction rs as [|[] rs IH]; cbn; by rewrite ?IH. Qed.

Lemma release_all_in_step s :
  in_step s -> in_step (release_all s) /\ held (emitted (release_all s)) = new_pressed.
Proof.
  intros [Hp Hs]. unfold release_all.
  destruct (emit_releases (take_releases (pressed s)).1 (with_pressed new_pressed s)) as (He & Hp' & Hs').
  assert (held (emitted s ++ map release_event (take_releases (pressed s)).1) = new_pressed) as Hheld.
  { rewrite held_app, <- Hp, release_events_input. apply all_released. }
  change (take_releases (pressed s)) with ((take_releases (pressed s)).1, new_pressed) at 1 2.
  cbv beta iota. unfold in_step. rewrite He, Hp'. cbn [with_pressed emitted pressed].
  rewrite Hheld. split; [split; [done|]|done]. by apply Hs'.
Qed.

Lemma run_in_step s ops : in_step s -> in_step (run s ops).
Proof.
  revert s. induction ops as [|o ops IH]; intros s Hs; [done|]. apply IH.
  destruct o; [by apply handle_in_step|by apply release_all_in_step].
Qed.

Lemma new_in_step sk :
  sk = Log \/ sk = Os true [] \/ (exists reason, sk = Unavailable reason) -> in_step (new sk).
Proof. intros Hsk. split; [done|]. intros commands. naive_solver. Qed.

(** * Properties *)

(** No key or button outlives its session.  Whatever messages a session handles,
    under permissions that change at any point, and however many input streams
    end in between, it knows at each moment exactly which keys and buttons the
    events it passed on hold down, and once it has released everything, as it does
    when it ends, none of them is.  With an injector behind it, that is what the
    desktop was told, command for command and in order. *)
Theorem session_leaves_nothing_held sk ops :
  sk = Log \/ sk = Os true [] \/ (exists reason, sk = Unavailable reason) ->
  let s := run (new sk) ops in
  pressed s = held (emitted s) /\
  held (emitted (release_all s)) = new_pressed /\
  (forall commands, sink (release_all s) = Os true commands ->
     commands = map command (emitted (release_all s))).
Proof.
  intros Hsk s. assert (in_step s) as Hs by by apply run_in_step, new_in_step.
  split; [by apply Hs|]. destruct (release_all_in_step s Hs) as [Hr Hh]. split; [done|]. apply Hr.
Qed.

(** A message's own events, when nothing stops them. *)
Definition translation (m : InputSession.InputMessage) : list SinkEvent :=
  match m with
  | InputSession.Key key => [SinkKey (scancode key) (ke_down key)]
  | InputSession.Text text => [SinkText (ti_text text)]
  | InputSession.Move m => [SinkMouseMove (mm_x m) (mm_y m)]
  | InputSession.Button b => [SinkMouseMove (mb_x b) (mb_y b); SinkMouseButton (mb_button b) (mb_down b)]
  | InputSession.WheelTurn w => [SinkWheel (dx w) (dy w)]
  | InputSession.Composition _ | InputSession.ModeChange _ => []
  end.

(** The bit a message needs. *)
Definition required (m : InputSession.InputMessage) : option Z :=
  match m with
  | InputSession.Key _ | InputSession.Text _ | InputSession.Composition _ => Some bit.INPUT_KEYBOARD
  | InputSession.Move _ | InputSession.Button _ | InputSession.WheelTurn _ => Some bit.INPUT_MOUSE
  | InputSession.ModeChange _ => None
  end.

(** What input does to a desktop.  Handling a message passes on either nothing or
    the events of that message, and something only under the permission it needs;
    with the permission, mouse input always arrives, text arrives exactly when it
    is not a violation, and a key exactly when the input mode has it injected.
    A violation is reported exactly for text and compositions in a mode that
    forbids them, permission or not, and passes on nothing. *)
Theorem handle_delivers m sm s :
  let granted := match required m with Some b => PermissionSm.is_granted sm b | None => true end in
  let mode :=
    match m with
    | InputSession.Key e => (mode_for (event_id (ke_header e)) (ime s)).1
    | InputSession.Text e => (mode_for (event_id (ti_header e)) (ime s)).1
    | InputSession.Composition e => (mode_for (event_id (ic_header e)) (ime s)).1
    | _ => current (ime s)
    end in
  let violation :=
    match m with
    | InputSession.Text _ | InputSession.Composition _ => bool_decide (mode = RemoteSide)
    | _ => false
    end in
  let injects :=
    match m with
    | InputSession.Key e => should_inject_key mode (scancode e) (modifiers e)
    | _ => negb violation
    end in
  (handle m sm s).1 = (if violation then Err (ConnError.Violation PROTOCOL_UNEXPECTED_MESSAGE) else Ok tt) /\
  emitted (handle m sm s).2 = emitted s ++ (if granted && injects then translation m else []).
Proof.
  destruct m as [key|text|comp|mv|b|w|change]; cbn [handle required];
    try destruct (mode_for _ _) as [md i]; cbn zeta; cbn [fst];
    try destruct (PermissionSm.is_granted _ _);
    try destruct (should_inject_key _ _ _);
    try (destruct md; cbn [check_text_allowed]);
    cbn; rewrite ?app_nil_r, <- ?app_assoc; done.
Qed.
End input_injection.

(** ** Concrete runs *)

Module Examples.
#[local] Existing Instance plain_transport.
#[local] Notation handle := (handle (EncodeError := unit) (JoinError := unit)).
#[local] Notation run := (run (EncodeError := unit) (JoinError := unit)).

Definition everything : PermissionSm.PermissionSm :=
  PermissionSm.new (Z.lor bit.INPUT_KEYBOARD bit.INPUT_MOUSE).

Definition nothing : PermissionSm.PermissionSm := PermissionSm.new 0.

Definition key (n hid : Z) (down : bool) (mods : Z) : InputSession.InputMessage :=
  InputSession.Key {| ke_header := {| event_id := n; client_ts := 0 |}; ke_down := down;
                      scancode := hid; logical_key := 0; modifiers := mods |}.

(** Shift pressed, then the session ends. *)
Lemma session_leaves_nothing_held_witness :
  let s := run (new (Os true [])) [Message (key 1 0xE1 true key_modifier.SHIFT) everything] in
  keys (pressed s) = {[ 0xE1 ]} /\ held (emitted (release_all s)) = new_pressed /\
  sink (release_all s) = Os true [InjectKey 0xE1 true; InjectKey 0xE1 false].
Proof.
  intros s. split; [by apply (bool_decide_unpack _); vm_compute|]. split; [|by vm_compute].
  exact (proj1 (proj2 (session_leaves_nothing_held (EncodeError := unit) (JoinError := unit) (Os true [])
    [Message (key 1 0xE1 true key_modifier.SHIFT) everything] (or_intror (or_introl eq_refl))))).
Defined.

(** Ctrl+A whose Ctrl comes up first: the release of A produces a character key
    without a modifier, is not injected, and A stays down on the desktop. *)
Example shortcut_key_stays_down :
  let s := run (new Log)
    [Message (key 1 0xE0 true key_modifier.CTRL) everything;
     Message (key 2 0x04 true key_modifier.CTRL) everything;
     Message (key 3 0xE0 false 0) everything;
     Message (key 4 0x04 false 0) everything] in
  keys (held (emitted s)) = {[ 0x04 ]}.
Proof. by apply (bool_decide_unpack _); vm_compute. Qed.

(** A key held while the keyboard is revoked: its release is dropped. *)
Example revoked_key_stays_down :
  let s := run (new Log)
    [Message (key 1 0x28 true 0) everything; Message (key 2 0x28 false 0) nothing] in
  keys (held (emitted s)) = {[ 0x28 ]}.
Proof. by apply (bool_decide_unpack _); vm_compute. Qed.
End Examples.
