(* ===== verification/InputForwarder.v ===== *)
(** What a client makes of its window's input: the model of [InputForwarder] in
    [src/sardp-cli/src/bin/sardp-client.rs]. *)

From S2P Require Import Prelude.
From S2P Require Varint.
From S2P Require Import PermissionSet.
From S2P Require Import StreamKind.
From S2P Require PermissionSm.
From S2P Require Import Messages.
From S2P Require Import MessageCodecs.
From S2P Require Import Async.
From S2P Require Import StreamReader.
From S2P Require Import InputState.
From S2P Require Import InputSession.
From S2P Require InputInjection.

(** * Definitions *)

(** [sardp_win::WindowInput]. *)
Inductive WindowInput :=
| WindowKey (down : bool) (hid_usage virtual_key modifiers : Z)
| WindowText (text : string)
| WindowComposition (text : string) (caret : Z)
| WindowMove (x y : Z)
| WindowButton (button : Z) (down : bool) (x y : Z)
| WindowWheel (dx dy : Z)
| FocusLost.

(** The closure of [map]: from an [i32] to an [i32], through [i64]. *)
Definition scale (v from to : Z) : Z :=
  let mapped := Z.quot (swrap 64 (v * to)) (Z.max from 1) in
  swrap 32 (Z.max 0 (Z.min mapped (sat_sub to 1))).

Section forwarder.
Context `{Transport}.
Context `{!Cbor KeyEvent, !Cbor TextInput, !Cbor ImeComposition, !Cbor MouseMove, !Cbor MouseButton,
          !Cbor Wheel}.

(** What [clock::now_us] returns for the header of event [n]. *)
Variable clock : Z -> Z.

(** [messages_sent] is the source's [sent]. *)
Record InputForwarder := {
  send : SendStream;
  next_event_id : Z;
  pressed : PressedInputs;
  keyboard : bool;
  mouse : bool;
  stream_size : Z * Z;
  window_size : Z * Z;
  messages_sent : Z;
  mouse_moves : Z;
}.

Definition new (send : SendStream) (granted_permissions : Z) (stream_size window_size : Z * Z) :
    InputForwarder :=
  {| send := send; next_event_id := 1; pressed := new_pressed;
     keyboard := negb (Z.land granted_permissions bit.INPUT_KEYBOARD =? 0);
     mouse := negb (Z.land granted_permissions bit.INPUT_MOUSE =? 0);
     stream_size := stream_size; window_size := window_size; messages_sent := 0; mouse_moves := 0 |}.

(** The error of a write, which [AppError] wraps. *)
Notation forwarding := (async InputForwarder WriteError).

Definition header : forwarding InputHeader := fun s =>
  (Ready (Ok {| event_id := next_event_id s; client_ts := clock (next_event_id s) |}),
   {| send := send s; next_event_id := wrap 64 (next_event_id s + 1); pressed := pressed s;
      keyboard := keyboard s; mouse := mouse s; stream_size := stream_size s;
      window_size := window_size s; messages_sent := wrap 64 (messages_sent s + 1);
      mouse_moves := mouse_moves s |}).

Definition map_point (x y : Z) (s : InputForwarder) : Z * Z :=
  (scale x (window_size s).1 (stream_size s).1, scale y (window_size s).2 (stream_size s).2).

Definition on_send : async SendStream WriteError unit -> forwarding unit :=
  azoom send (fun sd s =>
    {| send := sd; next_event_id := next_event_id s; pressed := pressed s; keyboard := keyboard s;
       mouse := mouse s; stream_size := stream_size s; window_size := window_size s;
       messages_sent := messages_sent s; mouse_moves := mouse_moves s |}).

Definition set_pressed (p : PressedInputs) : forwarding unit := fun s =>
  (Ready (Ok tt),
   {| send := send s; next_event_id := next_event_id s; pressed := p; keyboard := keyboard s;
      mouse := mouse s; stream_size := stream_size s; window_size := window_size s;
      messages_sent := messages_sent s; mouse_moves := mouse_moves s |}).

Definition count_move : forwarding unit := fun s =>
  (Ready (Ok tt),
   {| send := send s; next_event_id := next_event_id s; pressed := pressed s; keyboard := keyboard s;
      mouse := mouse s; stream_size := stream_size s; window_size := window_size s;
      messages_sent := messages_sent s; mouse_moves := wrap 64 (mouse_moves s + 1) |}).

Definition send_release (r : Release) : forwarding unit :=
  match r with
  | InputState.Key hid_usage =>
      h ← header;
      on_send (send_key_event {| ke_header := h; ke_down := false; scancode := hid_usage;
                                 logical_key := 0; modifiers := 0 |})
  | InputState.Button button =>
      h ← header;
      on_send (send_mouse_button {| mb_header := h; mb_button := button; mb_down := false;
                                    mb_x := 0; mb_y := 0 |})
  end.

Definition release_all : forwarding unit := fun s =>
  let '(releases, p) := take_releases (pressed s) in
  (_ ← set_pressed p; afor send_release releases) s.

Definition forward (event : WindowInput) : forwarding unit := fun s =>
  match event with
  | WindowKey down hid_usage virtual_key mods =>
      if negb (keyboard s) then aret tt s
      else
        (_ ← set_pressed (on_key hid_usage down (pressed s));
         h ← header;
         on_send (send_key_event {| ke_header := h; ke_down := down; scancode := hid_usage;
                                    logical_key := virtual_key; modifiers := mods |})) s
  | WindowText text =>
      if negb (keyboard s) then aret tt s
      else (h ← header; on_send (send_text_input {| ti_header := h; ti_text := text |})) s
  | WindowComposition text c =>
      if negb (keyboard s) then aret tt s
      else
        (h ← header;
         on_send (send_ime_composition {| ic_header := h; ic_text := text; caret := c |})) s
  | WindowMove x y =>
      if negb (mouse s) then aret tt s
      else
        let '(x, y) := map_point x y s in
        (h ← header;
         _ ← count_move;
         on_send (send_mouse_move {| mm_header := h; mm_x := x; mm_y := y |})) s
  | WindowButton button down x y =>
      if negb (mouse s) then aret tt s
      else
        let '(x, y) := map_point x y s in
        (_ ← set_pressed (on_button button down (pressed s));
         h ← header;
         on_send (send_mouse_button {| mb_header := h; mb_button := button; mb_down := down;
                                       mb_x := x; mb_y := y |})) s
  | WindowWheel x y =>
      if negb (mouse s) then aret tt s
      else
        (h ← header;
         on_send (send_wheel {| wh_header := h; dx := x; dy := y; is_precise := false |})) s
  | FocusLost => if negb (is_empty (pressed s)) then release_all s else aret tt s
  end.

(** ** The script of a client without a window *)

Definition script_move (x y : Z) : forwarding unit :=
  h ← header;
  on_send (send_mouse_move {| mm_header := h; mm_x := x; mm_y := y |}).

Definition script_button (button : Z) (down : bool) (at_ : Z * Z) : forwarding unit := fun s =>
  (_ ← set_pressed (on_button button down (pressed s));
   h ← header;
   on_send (send_mouse_button {| mb_header := h; mb_button := button; mb_down := down;
                                 mb_x := at_.1; mb_y := at_.2 |})) s.

Definition script_key (hid_usage : Z) (down : bool) : forwarding unit := fun s =>
  (_ ← set_pressed (on_key hid_usage down (pressed s));
   h ← header;
   on_send (send_key_event {| ke_header := h; ke_down := down; scancode := hid_usage;
                              logical_key := 0; modifiers := 0 |})) s.

Definition when (b : bool) (m : forwarding unit) : forwarding unit := if b then m else aret tt.

(** Without the pauses. *)
Definition run_script (stream : Z * Z) : forwarding unit := fun s =>
  let centre := (Z.quot (swrap 32 stream.1) 2, Z.quot (swrap 32 stream.2) 2) in
  let offset i := (swrap 32 (centre.1 + i * 40), swrap 32 (centre.2 + i * 40)) in
  (_ ← when (mouse s) (
     _ ← script_move centre.1 centre.2;
     _ ← afor (fun _ => _ ← script_button mouse_button.LEFT true centre;
                        script_button mouse_button.LEFT false centre) [0; 1; 2];
     _ ← script_button mouse_button.LEFT true centre;
     _ ← afor (fun i => script_move (offset i).1 (offset i).2) [1; 2; 3];
     script_button mouse_button.LEFT false (offset 3));
   _ ← when (keyboard s) (
     _ ← script_key 0xE1 true;
     _ ← script_key 0x04 true;
     _ ← script_key 0x04 false;
     _ ← script_key 0xE1 false;
     h ← header;
     on_send (send_text_input {| ti_header := h; ti_text := "SARDP 3M-1-d" |}));
   when (mouse s) (
     h ← header;
     on_send (send_wheel {| wh_header := h; dx := 0; dy := 120; is_precise := false |}))) s.

(** * Specification *)

(** What a client keeps between events: the next id and what it has reported as
    pressed. *)
Record progress := { next_id : Z; reported : PressedInputs }.

Definition progress_of (s : InputForwarder) : progress :=
  {| next_id := next_event_id s; reported := pressed s |}.

Definition release_message (r : Release) (h : InputHeader) : InputMessage :=
  match r with
  | InputState.Key k =>
      Key {| ke_header := h; ke_down := false; scancode := k; logical_key := 0; modifiers := 0 |}
  | InputState.Button b =>
      Button {| mb_header := h; mb_button := b; mb_down := false; mb_x := 0; mb_y := 0 |}
  end.

(** The messages an event makes, but for their headers. *)
Definition event_messages (kb ms : bool) (sizes : (Z * Z) * (Z * Z)) (p : PressedInputs)
    (event : WindowInput) : list (InputHeader -> InputMessage) :=
  let point x y := (scale x sizes.2.1 sizes.1.1, scale y sizes.2.2 sizes.1.2) in
  match event with
  | WindowKey down hid vk mods =>
      if kb then [fun h => Key {| ke_header := h; ke_down := down; scancode := hid; logical_key := vk;
                                  modifiers := mods |}] else []
  | WindowText text => if kb then [fun h => Text {| ti_header := h; ti_text := text |}] else []
  | WindowComposition text c =>
      if kb then [fun h => Composition {| ic_header := h; ic_text := text; caret := c |}] else []
  | WindowMove x y =>
      if ms then [fun h => Move {| mm_header := h; mm_x := (point x y).1; mm_y := (point x y).2 |}] else []
  | WindowButton button down x y =>
      if ms then [fun h => Button {| mb_header := h; mb_button := button; mb_down := down;
                                     mb_x := (point x y).1; mb_y := (point x y).2 |}] else []
  | WindowWheel x y =>
      if ms then [fun h => WheelTurn {| wh_header := h; dx := x; dy := y; is_precise := false |}] else []
  | FocusLost => map release_message (take_releases p).1
  end.

(** What is pressed after it, of the keys and buttons that are reported. *)
Definition event_reported (kb ms : bool) (p : PressedInputs) (event : WindowInput) : PressedInputs :=
  match event with
  | WindowKey down hid _ _ => if kb then on_key hid down p else p
  | WindowButton button down _ _ => if ms then on_button button down p else p
  | FocusLost => new_pressed
  | _ => p
  end.

(** What the user holds down, as the window's events tell it: of the keys if the
    keyboard is reported, of the buttons if the mouse is, and nothing after a loss
    of the focus. *)
Definition held_in_window (kb ms : bool) (events : list WindowInput) : PressedInputs :=
  fold_left (event_reported kb ms) events new_pressed.

(** Messages under the headers [n], [n + 1], ... *)
Fixpoint number (n : Z) (fs : list (InputHeader -> InputMessage)) : list InputMessage :=
  match fs with
  | [] => []
  | f :: fs => f {| event_id := n; client_ts := clock n |} :: number (n + 1) fs
  end.

Fixpoint trace (kb ms : bool) (sizes : (Z * Z) * (Z * Z)) (p : progress) (events : list WindowInput) :
    list InputMessage * progress :=
  match events with
  | [] => ([], p)
  | event :: events =>
      let fs := event_messages kb ms sizes (reported p) event in
      let p' := {| next_id := next_id p + Z.of_nat (length fs);
                   reported := event_reported kb ms (reported p) event |} in
      let '(msgs, p'') := trace kb ms sizes p' events in
      (number (next_id p) fs ++ msgs, p'')
  end.

(** The messages that [forward] writes for some events, and what is kept after them
    ([forward_all_ok]). *)
Definition trace_of (s : InputForwarder) (events : list WindowInput) : list InputMessage * progress :=
  trace (keyboard s) (mouse s) (stream_size s, window_size s) (progress_of s) events.
End forwarder.

(** * Lemmas *)

(** ** The server behind it *)

Section server.
Context `{Transport} {EncodeError JoinError : Type}.

#[local] Notation handle := (InputInjection.handle (EncodeError := EncodeError) (JoinError := JoinError)).

Definition message_input (m : InputMessage) : list input :=
  match m with
  | Key e => [KeyInput (scancode e) (ke_down e)]
  | Button e => [ButtonInput (mb_button e) (mb_down e)]
  | _ => []
  end.

(** A server's view that agrees with [p], but for the keys that make characters. *)
Definition agrees (p : PressedInputs) (s : InputInjection.InputInjection) : Prop :=
  InputInjection.ime s = new_ime /\
  (forall k, is_character_key k = false -> k ∈ keys (InputInjection.pressed s) <-> k ∈ keys p) /\
  buttons (InputInjection.pressed s) = buttons p.

Definition is_mode_change (m : InputMessage) : bool :=
  match m with ModeChange _ => true | _ => false end.

Lemma handle_agrees m sm p s :
  PermissionSm.is_granted sm bit.INPUT_KEYBOARD = true ->
  PermissionSm.is_granted sm bit.INPUT_MOUSE = true ->
  is_mode_change m = false -> agrees p s ->
  (handle m sm s).1 = Ok tt /\ agrees (fold_left on_input (message_input m) p) (handle m sm s).2.
Proof.
  intros Hkb Hms Hm (Hi & Hk & Hb).
  destruct m as [e|e|e|e|e|e|e]; try done; cbn [InputInjection.handle message_input fold_left];
    rewrite ?Hkb, ?Hms, ?Hi; cbn; try (by split_and!).
  - destruct (negb (negb (Z.land (modifiers e) _ =? 0) || negb (is_character_key (scancode e)))) eqn:Ej.
    + split; [done|]. split_and!; [done| |done]. intros k Hc. cbn. rewrite Hk by done.
      assert (scancode e ≠ k) as Hne.
      { intros Heq. rewrite Heq, Hc in Ej. by rewrite orb_true_r in Ej. }
      destruct (ke_down e); set_solver.
    + split; [done|]. split_and!; [done| |done]. intros k Hc. cbn.
      specialize (Hk k Hc). destruct (ke_down e); set_solver.
  - split; [done|]. split_and!; [done|exact Hk|]. unfold on_button. cbn. by rewrite Hb.
Qed.

Lemma run_agrees msgs sm p s :
  PermissionSm.is_granted sm bit.INPUT_KEYBOARD = true ->
  PermissionSm.is_granted sm bit.INPUT_MOUSE = true ->
  forallb (fun m => negb (is_mode_change m)) msgs = true -> agrees p s ->
  agrees (fold_left on_input (flat_map message_input msgs) p)
    (InputInjection.run (EncodeError := EncodeError) (JoinError := JoinError) s
       (map (fun m => InputInjection.Message m sm) msgs)).
Proof.
  intros Hkb Hms. revert p s. induction msgs as [|m msgs IH]; intros p s Hm Ha; [done|].
  cbn in Hm. apply andb_true_iff in Hm as [Hm Hrest]. apply negb_true_iff in Hm.
  cbn [flat_map map]. rewrite fold_left_app. apply IH; [done|]. by apply handle_agrees.
Qed.
End server.

Section facts.
Context `{Transport}.
Context `{!Cbor KeyEvent, !Cbor TextInput, !Cbor ImeComposition, !Cbor MouseMove, !Cbor MouseButton,
          !Cbor Wheel, !Cbor ImeModeChange}.
Variable clock : Z -> Z.

#[local] Notation forward := (forward clock).
#[local] Notation number := (number clock).
#[local] Notation trace := (trace clock).
#[local] Notation trace_of := (trace_of clock).

(** From [s] the messages [msgs] have been written, leading to [s'] with [p]
    reported as pressed. *)
Definition moved (s : InputForwarder) (msgs : list InputMessage) (p : PressedInputs) (s' : InputForwarder) :
    Prop :=
  write_results (send s') = [] /\
  sent (send s') = sent (send s) ++ concat (map input_bytes msgs) /\
  next_event_id s' = next_event_id s + Z.of_nat (length msgs) /\ pressed s' = p /\
  (keyboard s', mouse s', stream_size s', window_size s')
  = (keyboard s, mouse s, stream_size s, window_size s).

Lemma moved_none s : write_results (send s) = [] -> moved s [] (pressed s) s.
Proof. intros Hw. unfold moved. cbn. rewrite app_nil_r. split_and!; try done. lia. Qed.

Lemma moved_trans s msgs p s1 msgs' p' s2 :
  moved s msgs p s1 -> moved s1 msgs' p' s2 -> moved s (msgs ++ msgs') p' s2.
Proof.
  intros (Hw & Hs & Hn & Hp & Hc) (Hw' & Hs' & Hn' & Hp' & Hc'). unfold moved.
  rewrite Hs', Hs, Hn', Hn, map_app, concat_app, length_app, <- app_assoc, Hc', Hc.
  split_and!; try done. lia.
Qed.

Lemma number_length n fs : length (number n fs) = length fs.
Proof. revert n. induction fs as [|f fs IH]; intros n; [done|]. cbn. by rewrite IH. Qed.

(** One message under the next header. *)
Lemma send_numbered (f : InputHeader -> InputMessage) (sending : InputHeader -> async SendStream WriteError unit) s :
  (forall h, sending h = send_input (f h)) ->
  write_results (send s) = [] -> Forall fits (number (next_event_id s) [f]) ->
  0 <= next_event_id s -> next_event_id s + 1 < 2 ^ 64 ->
  exists s', (h ← header clock; on_send (sending h)) s = (Ready (Ok tt), s') /\
    moved s (number (next_event_id s) [f]) (pressed s) s'.
Proof.
  intros Hsend Hw Hf Hn Hmax. inversion Hf as [|m ms Hm _]; subst. eexists. split.
  { erewrite abind_ready by (unfold header; reflexivity). unfold on_send, azoom. cbn [send].
    rewrite Hsend, send_input_ok by done. reflexivity. }
  unfold moved. cbn [send write_results sent next_event_id pressed keyboard mouse stream_size window_size
    number map concat length]. rewrite app_nil_r, wrap_small by (unfold in_width; lia).
  by split_and!.
Qed.

Lemma send_release_ok r s :
  write_results (send s) = [] -> Forall fits (number (next_event_id s) [release_message r]) ->
  0 <= next_event_id s -> next_event_id s + 1 < 2 ^ 64 ->
  exists s', send_release clock r s = (Ready (Ok tt), s') /\
    moved s (number (next_event_id s) [release_message r]) (pressed s) s'.
Proof. intros. destruct r; by apply send_numbered. Qed.

Lemma send_releases_ok rs s :
  write_results (send s) = [] -> Forall fits (number (next_event_id s) (map release_message rs)) ->
  0 <= next_event_id s -> next_event_id s + Z.of_nat (length rs) < 2 ^ 64 ->
  exists s', afor (send_release clock) rs s = (Ready (Ok tt), s') /\
    moved s (number (next_event_id s) (map release_message rs)) (pressed s) s'.
Proof.
  revert s. induction rs as [|r rs IH]; intros s Hw Hf Hn Hmax.
  { exists s. split; [done|]. by apply moved_none. }
  cbn [length map] in *. inversion Hf as [|m ms Hm Hms]; subst.
  destruct (send_release_ok r s) as (s1 & Hr1 & Hm1); [done|by repeat constructor|done|lia|].
  pose proof Hm1 as (Hw1 & _ & Hn1 & Hp1 & _).
  rewrite number_length in Hn1. change (Z.of_nat (length [release_message r])) with 1 in Hn1.
  destruct (IH s1) as (s2 & Hr2 & Hm2); [done|by rewrite Hn1|lia|rewrite Hn1; lia|].
  exists s2. split; [cbn [afor]; by erewrite abind_ready by exact Hr1|].
  rewrite Hp1, Hn1 in Hm2. exact (moved_trans _ _ _ _ _ _ _ Hm1 Hm2).
Qed.

(** The state in which a message goes out: [s] with [p] reported as pressed. *)
Definition at_send (s : InputForwarder) (p : PressedInputs) (moves : Z) : InputForwarder :=
  {| send := send s; next_event_id := next_event_id s; pressed := p; keyboard := keyboard s;
     mouse := mouse s; stream_size := stream_size s; window_size := window_size s;
     messages_sent := messages_sent s; mouse_moves := moves |}.

#[local] Ltac one_message s1 :=
  match goal with
  | Hf : Forall fits (number _ [?f]) |- _ =>
      destruct (send_numbered f (fun h => send_input (f h)) s1 (fun h => eq_refl)) as (s' & Hr & Hm);
        [assumption..|]; exists s'; split; [exact Hr|exact Hm]
  end.

Lemma take_releases_empty p : is_empty p = true -> p = new_pressed.
Proof.
  unfold is_empty. rewrite andb_true_iff, !bool_decide_eq_true. destruct p as [ks bs]. cbn.
  by intros [-> ->].
Qed.

#[local] Opaque scale wrap Z.of_nat.

(** One event. *)
Lemma forward_ok event s :
  let fs := event_messages (keyboard s) (mouse s) (stream_size s, window_size s) (pressed s) event in
  write_results (send s) = [] -> Forall fits (number (next_event_id s) fs) ->
  0 <= next_event_id s -> next_event_id s + Z.of_nat (length fs) < 2 ^ 64 ->
  exists s', forward event s = (Ready (Ok tt), s') /\
    moved s (number (next_event_id s) fs) (event_reported (keyboard s) (mouse s) (pressed s) event) s'.
Proof.
  intros fs Hw Hf Hn Hmax.
  assert (exists s', aret tt s = (Ready (Ok tt) : poll WriteError unit, s') /\ moved s [] (pressed s) s') as Hnone
    by (exists s; split; [done|by apply moved_none]).
  subst fs.
  destruct event as [down hid vk mods|text|text c|x y|button down x y|x y|];
    cbn [event_messages event_reported forward map_point] in *.
  - destruct (keyboard s) eqn:Ek; cbn [negb length] in *; [|exact Hnone].
    one_message (at_send s (on_key hid down (pressed s)) (mouse_moves s)).
  - destruct (keyboard s); cbn [negb length] in *; [|exact Hnone]. one_message s.
  - destruct (keyboard s); cbn [negb length] in *; [|exact Hnone]. one_message s.
  - destruct (mouse s) eqn:Em; cbn [negb length] in *; [|exact Hnone].
    one_message (at_send s (pressed s) (wrap 64 (mouse_moves s + 1))).
  - destruct (mouse s) eqn:Em; cbn [negb length] in *; [|exact Hnone].
    one_message (at_send s (on_button button down (pressed s)) (mouse_moves s)).
  - destruct (mouse s); cbn [negb length] in *; [|exact Hnone]. one_message s.
  - rewrite length_map in Hmax. destruct (is_empty (pressed s)) eqn:Ee; cbn [negb].
    + apply take_releases_empty in Ee. rewrite Ee in *. exact Hnone.
    + destruct (send_releases_ok (take_releases (pressed s)).1 (at_send s new_pressed (mouse_moves s)))
        as (s' & Hr & Hm); [done..|]. exists s'. split; [exact Hr|exact Hm].
Qed.
Lemma number_app n fs gs : number n (fs ++ gs) = number n fs ++ number (n + Z.of_nat (length fs)) gs.
Proof.
  revert n. induction fs as [|f fs IH]; intros n; cbn [app number length].
  { by rewrite Z.add_0_r. }
  rewrite IH. do 3 f_equal. lia.
Qed.

(** Any events. *)
Lemma forward_all_ok events s :
  write_results (send s) = [] -> Forall fits (trace_of s events).1 ->
  0 <= next_event_id s -> next_event_id s + Z.of_nat (length (trace_of s events).1) < 2 ^ 64 ->
  exists s', afor forward events s = (Ready (Ok tt), s') /\
    moved s (trace_of s events).1 (reported (trace_of s events).2) s' /\
    progress_of s' = (trace_of s events).2.
Proof.
  revert s. induction events as [|event events IH]; intros s Hw Hf Hn Hmax.
  { exists s. split; [done|]. split; [by apply moved_none|done]. }
  unfold trace_of in *. cbn [trace] in *.
  change (reported (progress_of s)) with (pressed s) in *.
  change (next_id (progress_of s)) with (next_event_id s) in *.
  set (fs := event_messages _ _ _ _ _) in *.
  destruct (trace (keyboard s) (mouse s) (stream_size s, window_size s)
    {| next_id := next_event_id s + Z.of_nat (length fs);
       reported := event_reported (keyboard s) (mouse s) (pressed s) event |} events)
    as [msgs p] eqn:Et.
  cbn [fst snd] in *. apply Forall_app in Hf as [Hf1 Hf2]. rewrite length_app, number_length in Hmax.
  destruct (forward_ok event s) as (s1 & Hr1 & Hm1); [done|exact Hf1|done|fold fs; lia|].
  pose proof Hm1 as (Hw1 & _ & Hn1 & Hp1 & Hc1). fold fs in Hn1. rewrite number_length in Hn1.
  injection Hc1 as Ek Em Es Ewin.
  assert (trace (keyboard s1) (mouse s1) (stream_size s1, window_size s1) (progress_of s1) events = (msgs, p))
    as Et1.
  { unfold progress_of at 1. rewrite Ek, Em, Es, Ewin, Hn1, Hp1. exact Et. }
  destruct (IH s1) as (s2 & Hr2 & Hm2 & Hp2); rewrite ?Et1; cbn [fst]; [done..|lia|lia|].
  rewrite Et1 in Hm2, Hp2. cbn [fst snd] in Hm2, Hp2.
  exists s2. split; [|split; [|done]].
  - cbn [afor]. by erewrite abind_ready by exact Hr1.
  - exact (moved_trans _ _ _ _ _ _ _ Hm1 Hm2).
Qed.

(** The id in a message's header. *)
Definition message_id (m : InputMessage) : option Z :=
  match m with
  | Key e => Some (event_id (ke_header e))
  | Text e => Some (event_id (ti_header e))
  | Composition e => Some (event_id (ic_header e))
  | Move e => Some (event_id (mm_header e))
  | Button e => Some (event_id (mb_header e))
  | WheelTurn e => Some (event_id (wh_header e))
  | ModeChange _ => None
  end.

Lemma event_messages_id kb ms sizes p event f h :
  f ∈ event_messages kb ms sizes p event -> message_id (f h) = Some (event_id h).
Proof.
  destruct event; cbn [event_messages];
    [destruct kb|destruct kb|destruct kb|destruct ms|destruct ms|destruct ms|];
    rewrite ?elem_of_nil, ?list_elem_of_singleton; try (by intros ->); try done;
    intros ([k|b] & -> & _)%list_elem_of_fmap; done.
Qed.

Lemma number_ids n fs :
  (forall f h, f ∈ fs -> message_id (f h) = Some (event_id h)) ->
  map message_id (number n fs) = map Some (seqZ n (Z.of_nat (length fs))).
Proof.
  revert n. induction fs as [|f fs IH]; intros n Hf; [done|]. cbn [number map length].
  rewrite Hf by (by left). rewrite IH by (intros g h Hg; apply Hf; by right).
  rewrite (seqZ_cons n) by lia. cbn [map event_id].
  replace (Z.pred (Z.of_nat (S (length fs)))) with (Z.of_nat (length fs)) by lia.
  by replace (Z.succ n) with (n + 1) by lia.
Qed.

Lemma number_releases n rs :
  flat_map message_input (number n (map release_message rs)) = map release_input rs.
Proof.
  revert n. induction rs as [|[k|b] rs IH]; intros n; [done|..]; cbn; by rewrite IH.
Qed.

Lemma event_messages_input kb ms sizes p event n :
  fold_left on_input (flat_map message_input (number n (event_messages kb ms sizes p event))) p
  = event_reported kb ms p event.
Proof.
  destruct event; cbn [event_messages event_reported];
    [destruct kb|destruct kb|destruct kb|destruct ms|destruct ms|destruct ms|]; try done.
  rewrite number_releases. apply all_released.
Qed.

Lemma trace_facts kb ms sizes p events :
  let '(msgs, p') := trace kb ms sizes p events in
  map message_id msgs = map Some (seqZ (next_id p) (Z.of_nat (length msgs))) /\
  fold_left on_input (flat_map message_input msgs) (reported p) = reported p'.
Proof.
  revert p. induction events as [|event events IH]; intros p; cbn [trace]; [done|].
  set (fs := event_messages _ _ _ _ _). set (p1 := {| next_id := _; reported := _ |}).
  specialize (IH p1). destruct (trace _ _ _ p1 events) as [msgs p']. destruct IH as [Hid Hin].
  split.
  - rewrite map_app, Hid, number_ids by (intros f h; apply event_messages_id).
    rewrite length_app, number_length, Nat2Z.inj_add, <- map_app. f_equal.
    rewrite seqZ_app by lia. done.
  - rewrite flat_map_app, fold_left_app. subst fs. by rewrite event_messages_input.
Qed.

Lemma trace_held kb ms sizes p events :
  reported (trace kb ms sizes p events).2 = fold_left (event_reported kb ms) events (reported p).
Proof.
  revert p. induction events as [|event events IH]; intros p; [done|]. cbn [trace fold_left].
  set (p1 := {| next_id := _; reported := _ |}). specialize (IH p1).
  by destruct (trace kb ms sizes p1 events).
Qed.

Lemma trace_focus_lost kb ms sizes p events :
  reported (trace kb ms sizes p (events ++ [FocusLost])).2 = new_pressed.
Proof.
  revert p. induction events as [|event events IH]; intros p; [done|]. cbn [app trace].
  set (p1 := {| next_id := _; reported := _ |}). specialize (IH p1).
  by destruct (trace kb ms sizes p1 (events ++ [FocusLost])).
Qed.

(** * Properties *)

(** What happens in the window is reported.  As long as its messages fit and the
    stream takes them, a client that forwards any events succeeds; it writes
    messages whose ids count on from the next one without a gap, whose presses
    and releases leave pressed exactly what the client believes pressed, and after
    a loss of focus that is nothing. *)
Theorem window_input_reported events s :
  let msgs := (trace_of s events).1 in
  write_results (send s) = [] -> Forall fits msgs ->
  0 <= next_event_id s -> next_event_id s + Z.of_nat (length msgs) < 2 ^ 64 ->
  exists s', afor forward events s = (Ready (Ok tt), s') /\
    sent (send s') = sent (send s) ++ concat (map input_bytes msgs) /\
    map message_id msgs = map Some (seqZ (next_event_id s) (Z.of_nat (length msgs))) /\
    fold_left on_input (flat_map message_input msgs) (pressed s) = pressed s' /\
    (last events = Some FocusLost -> pressed s' = new_pressed).
Proof.
  intros msgs Hw Hf Hn Hmax.
  destruct (forward_all_ok events s Hw Hf Hn Hmax) as (s' & Hr & (Hw' & Hs & _ & Hp & _) & Hpr).
  assert (last events = Some FocusLost -> reported (trace_of s events).2 = new_pressed) as Hlost.
  { intros (events' & ->)%last_Some. apply trace_focus_lost. }
  pose proof (trace_facts (keyboard s) (mouse s) (stream_size s, window_size s) (progress_of s) events) as Hfacts.
  fold (trace_of s events) in Hfacts. subst msgs. destruct (trace_of s events) as [msgs p].
  destruct Hfacts as [Hid Hin]. exists s'. cbn [fst snd] in *. rewrite Hp. by split_and!.
Qed.

Context `{!CborLaws KeyEvent, !CborLaws TextInput, !CborLaws ImeComposition, !CborLaws MouseMove,
          !CborLaws MouseButton, !CborLaws Wheel, !CborLaws ImeModeChange}.
Set Default Proof Using "Type*".

(** What is written for some events, read back in any chunks. *)
Lemma written_is_read msgs receiver rest :
  Forall fits msgs -> stream_bytes (reader receiver) = concat (map input_bytes msgs) ++ rest ->
  exists receiver', areplicate (length msgs) read_message receiver = (Ready (Ok msgs), receiver') /\
    stream_bytes (reader receiver') = rest.
Proof.
  intros Hf Hb. rewrite Forall_forall in Hf.
  apply (areplicate_in_order read_message (fun s => stream_bytes (reader s)) input_bytes); [|done].
  intros m rest' t Hm Ht. apply input_read_message_ok; [|done]. by apply Hf.
Qed.

(** C21: The desktop follows the window.  Let a fresh client forward any events of its
    window on a stream that takes them, with messages that fit.  It succeeds, and
    it believes pressed what the user holds there: the keys and buttons that it
    reports, as they went down and up, and none after a loss of the focus.  Let a
    server session that grants keyboard and mouse read the stream in whatever
    chunks it comes, and inject what it reads.  Then exactly the same mouse
    buttons are held down on its desktop, and, of the keys that make no
    character, exactly the same keys. *)
Theorem desktop_follows_window (EncodeError JoinError : Type) sd granted stream window events sk sm :
  PermissionSm.is_granted sm bit.INPUT_KEYBOARD = true ->
  PermissionSm.is_granted sm bit.INPUT_MOUSE = true ->
  sk = InputInjection.Log \/ sk = InputInjection.Os true [] \/
    (exists reason, sk = InputInjection.Unavailable reason) ->
  write_results sd = [] ->
  let client := new sd granted stream window in
  let user := held_in_window (keyboard client) (mouse client) events in
  Forall fits (trace_of client events).1 -> Z.of_nat (length (trace_of client events).1) < 2 ^ 64 - 1 ->
  exists client' wire,
    afor forward events client = (Ready (Ok tt), client') /\
    sent (send client') = sent sd ++ wire /\ pressed client' = user /\
    (last events = Some FocusLost -> user = new_pressed) /\
    forall receiver rest, stream_bytes (reader receiver) = wire ++ rest ->
    exists receiver' read,
      areplicate (length read) read_message receiver = (Ready (Ok read), receiver') /\
      stream_bytes (reader receiver') = rest /\
      let server := InputInjection.run (EncodeError := EncodeError) (JoinError := JoinError)
        (InputInjection.new sk) (map (fun m => InputInjection.Message m sm) read) in
      let desktop := InputInjection.held (InputInjection.emitted server) in
      (forall k, is_character_key k = false -> k ∈ keys desktop <-> k ∈ keys user) /\
      buttons desktop = buttons user.
Proof.
  intros Hkb Hms Hsk Hw client user Hf Hn.
  destruct (forward_all_ok events client) as (client' & Hr & (_ & Hs & _ & Hp & _) & _);
    [done|done|done|cbn [client new next_event_id]; lia|].
  pose proof (trace_facts (keyboard client) (mouse client) (stream, window) (progress_of client) events) as Hfacts.
  pose proof (trace_held (keyboard client) (mouse client) (stream, window) (progress_of client) events) as Hheld.
  change (trace (keyboard client) (mouse client) (stream, window) (progress_of client) events)
    with (trace_of client events) in Hfacts, Hheld. change (fold_left _ _ _) with user in Hheld.
  destruct (trace_of client events) as [msgs p]. cbn [fst snd] in *. destruct Hfacts as [Hid Hin].
  exists client', (concat (map input_bytes msgs)). split; [done|]. split; [done|]. split; [congruence|].
  split. { intros (events' & ->)%last_Some. unfold user, held_in_window. by rewrite fold_left_snoc. }
  intros receiver rest Hb. destruct (written_is_read msgs receiver rest Hf Hb) as (receiver' & Hread & Hrest).
  exists receiver', msgs. split; [done|]. split; [done|].
  set (server := InputInjection.run _ _). set (desktop := InputInjection.held _).
  assert (forallb (fun m => negb (is_mode_change m)) msgs = true) as Hmc.
  { apply forallb_forall. intros m Hm. destruct m; try done. exfalso.
    apply (in_map message_id) in Hm. rewrite Hid in Hm. by apply in_map_iff in Hm as (? & ? & _). }
  assert (agrees new_pressed (InputInjection.new sk)) as Ha by by split_and!.
  pose proof (run_agrees (EncodeError := EncodeError) (JoinError := JoinError) msgs sm _ _ Hkb Hms Hmc Ha)
    as (_ & Hk & Hbs).
  change (reported (progress_of client)) with new_pressed in Hin. rewrite Hin, Hheld in Hk, Hbs.
  assert (InputInjection.pressed server = desktop) as Hpd.
  { apply (InputInjection.run_in_step (EncodeError := EncodeError) (JoinError := JoinError)).
    by apply InputInjection.new_in_step. }
  rewrite <- Hpd. by split.
Qed.
End facts.

(** ** The coordinates *)

(** Points stay in the stream.  A window position becomes a position inside the
    stream: at least 0 and less than the stream's size; a position inside the
    window becomes the point at the same proportion, rounded down; the mapping
    never reverses an order; and a window of the stream's size changes nothing.
    No intermediate value leaves [i64]. *)
Theorem map_in_stream v v' from to :
  - 2 ^ 31 <= v < 2 ^ 31 -> - 2 ^ 31 <= v' < 2 ^ 31 -> 0 <= from < 2 ^ 32 -> 0 < to <= 2 ^ 31 ->
  0 <= scale v from to < to /\
  (0 <= v < from -> scale v from to = v * to / from) /\
  (v <= v' -> scale v from to <= scale v' from to) /\
  (from = to -> 0 <= v < from -> scale v from to = v).
Proof.
  intros Hv Hv' Hfrom Hto. change (2 ^ 31) with 2147483648 in *. change (2 ^ 32) with 4294967296 in *.
  assert (forall x, - 2147483648 <= x < 2147483648 ->
    scale x from to = Z.max 0 (Z.min (Z.quot (x * to) (Z.max from 1)) (to - 1))) as Hscale.
  { intros x Hx. unfold scale. rewrite (swrap_small 64); [|lia|change (2 ^ (64 - 1)) with 9223372036854775808; nia].
    unfold sat_sub. rewrite (Z.max_r 0 (to - 1)) by lia. apply swrap_small; [lia|].
    change (2 ^ (32 - 1)) with 2147483648. lia. }
  rewrite !Hscale by done. split_and!.
  - lia.
  - lia.
  - intros Hin. replace (Z.max from 1) with from by lia. rewrite Z.quot_div_nonneg by nia.
    assert (0 <= v * to / from) by (apply Z.div_pos; nia).
    assert (v * to / from < to) by (apply Z.div_lt_upper_bound; nia). lia.
  - intros Hle. apply Z.max_le_compat_l, Z.min_le_compat_r, Z.quot_le_mono; [lia|].
    by apply Z.mul_le_mono_nonneg_r; [lia|].
  - intros -> Hin. replace (Z.max to 1) with to by lia. rewrite Z.quot_mul by lia. lia.
Qed.

Lemma map_in_stream_witness :
  (-2 ^ 31 <= 400 < 2 ^ 31 /\ 0 <= 800 < 2 ^ 32) /\ scale 400 800 1920 = 400 * 1920 / 800.
Proof.
  split; [lia|].
  exact (proj1 (proj2 (map_in_stream 400 400 800 1920 ltac:(lia) ltac:(lia) ltac:(lia) ltac:(lia))) ltac:(lia)).
Defined.

(** ** Concrete runs *)

Module Examples.
#[local] Existing Instance plain_transport.
#[local] Instance key_cbor : Cbor KeyEvent := countable_cbor.
#[local] Instance text_cbor : Cbor TextInput := countable_cbor.
#[local] Instance composition_cbor : Cbor ImeComposition := countable_cbor.
#[local] Instance move_cbor : Cbor MouseMove := countable_cbor.
#[local] Instance button_cbor : Cbor MouseButton := countable_cbor.
#[local] Instance wheel_cbor : Cbor Wheel := countable_cbor.
#[local] Instance mode_cbor : Cbor ImeModeChange := countable_cbor.

Definition clock (n : Z) : Z := 0.

Definition fresh : InputForwarder :=
  new {| sent := []; write_results := [] |} (Z.lor bit.INPUT_KEYBOARD bit.INPUT_MOUSE) (64, 48) (32, 24).

(** Shift held while a button goes down, then the focus is lost. *)
Definition clicking : list WindowInput :=
  [WindowKey true 0xE1 0 key_modifier.SHIFT; WindowMove 10 5; WindowButton mouse_button.LEFT true 10 5;
   FocusLost].

Lemma window_input_reported_witness :
  Forall fits (trace_of clock fresh clicking).1 /\
  exists s', afor (forward clock) clicking fresh = (Ready (Ok tt), s') /\ pressed s' = new_pressed.
Proof.
  assert (Forall fits (trace_of clock fresh clicking).1) as Hf.
  { apply fits_computed. by vm_compute. }
  split; [exact Hf|].
  destruct (window_input_reported clock clicking fresh eq_refl Hf ltac:(done) ltac:(by vm_compute))
    as (s' & E & _ & _ & _ & Hl).
  exists s'. split; [exact E|]. by apply Hl.
Defined.

(** Shift and the left button stay down. *)
Definition holding : list WindowInput :=
  [WindowKey true 0xE1 0 key_modifier.SHIFT; WindowMove 10 5; WindowButton mouse_button.LEFT true 10 5;
   WindowKey true 0x29 0 0; WindowKey false 0x29 0 0].

Lemma desktop_follows_window_witness :
  Forall fits (trace_of clock fresh holding).1 /\
  exists client' wire, afor (forward clock) holding fresh = (Ready (Ok tt), client') /\
    sent (send client') = [] ++ wire /\
    buttons (pressed client') = {[ mouse_button.LEFT ]} /\ keys (pressed client') = {[ 0xE1 ]}.
Proof.
  pose proof (@countable_cbor_laws KeyEvent _ _) as L1.
  pose proof (@countable_cbor_laws TextInput _ _) as L2.
  pose proof (@countable_cbor_laws ImeComposition _ _) as L3.
  pose proof (@countable_cbor_laws MouseMove _ _) as L4.
  pose proof (@countable_cbor_laws MouseButton _ _) as L5.
  pose proof (@countable_cbor_laws Wheel _ _) as L6.
  pose proof (@countable_cbor_laws ImeModeChange _ _) as L7.
  assert (Forall fits (trace_of clock fresh holding).1) as Hf by (apply fits_computed; by vm_compute).
  split; [exact Hf|].
  destruct (desktop_follows_window clock unit unit {| sent := []; write_results := [] |}
    (Z.lor bit.INPUT_KEYBOARD bit.INPUT_MOUSE) (64, 48) (32, 24) holding InputInjection.Log
    (PermissionSm.new (Z.lor bit.INPUT_KEYBOARD bit.INPUT_MOUSE))
    ltac:(by vm_compute) ltac:(by vm_compute) (or_introl eq_refl) eq_refl Hf ltac:(by vm_compute))
    as (client' & wire & E & Hw & Hp & _).
  exists client', wire. split; [exact E|]. split; [exact Hw|]. rewrite Hp.
  split; by apply (bool_decide_unpack _); vm_compute.
Defined.

(** Ctrl+A when the window loses the focus: the release of A carries no modifier,
    so the server takes it for a character key and A stays down there. *)
Example focus_lost_leaves_key_down :
  let msgs := (trace_of clock fresh
    [WindowKey true 0xE0 0 key_modifier.CTRL; WindowKey true 0x04 0 key_modifier.CTRL; FocusLost]).1 in
  let sm := PermissionSm.new (Z.lor bit.INPUT_KEYBOARD bit.INPUT_MOUSE) in
  keys (InputInjection.held (InputInjection.emitted
    (InputInjection.run (EncodeError := unit) (JoinError := unit) (InputInjection.new InputInjection.Log)
      (map (fun m => InputInjection.Message m sm) msgs)))) = {[ 0x04 ]}.
Proof. by apply (bool_decide_unpack _); vm_compute. Qed.

(** A button held when the focus is lost: its release moves the pointer to the
    corner. *)
Example focus_lost_moves_pointer :
  let msgs := (trace_of clock fresh [WindowButton mouse_button.LEFT true 10 5; FocusLost]).1 in
  let sm := PermissionSm.new bit.INPUT_MOUSE in
  InputInjection.emitted
    (InputInjection.run (EncodeError := unit) (JoinError := unit) (InputInjection.new InputInjection.Log)
      (map (fun m => InputInjection.Message m sm) msgs))
  = [InputInjection.SinkMouseMove 20 10; InputInjection.SinkMouseButton 1 true;
     InputInjection.SinkMouseMove 0 0; InputInjection.SinkMouseButton 1 false].
Proof. by vm_compute. Qed.

(** The script leaves nothing pressed. *)
Example script_is_balanced :
  let '(r, s) := run_script clock (64, 48) fresh in
  r = Ready (Ok tt) /\ is_empty (pressed s) = true /\ messages_sent s = 18.
Proof. by vm_compute. Qed.
End Examples.
