(* ===== verification/FrameSource.v ===== *)
(** The worker behind a video source: the model of [src/src/frame_source.rs].

    The channels are [tokio]'s and the standard library's; what the code relies
    on is the interface [BoundedChannel].  A worker body is the list of the calls
    it makes on its context, in order, and how it ends. *)

From S2P Require Import Prelude.

(** * Definitions *)

Record DesktopH264Config := {
  bitrate_bps : Z;
  all_idr : bool;
  acquire_timeout : Z;  (** microseconds *)
}.

Definition default_config : DesktopH264Config :=
  {| bitrate_bps := 8000000; all_idr := false; acquire_timeout := 500 * 1000 |}.

Record SourceInfo := {
  si_width : Z;
  si_height : Z;
  fps : Z;
  origin_x : Z;
  origin_y : Z;
}.

Record EncodedFrame := {
  annex_b : list Z;
  ef_is_idr : bool;
  ef_capture_ts : Z;
  ef_encode_done_ts : Z;
}.

Inductive SourceError :=
| Init (message : string)
| Worker (message : string).

Definition DEFAULT_CHANNEL_CAPACITY : nat := 4.

Inductive SendOutcome := Sent | Dropped | Closed.

(** ** The channel *)

Inductive TrySendError := Full | ChannelClosed.

(** [tokio::sync::mpsc] with a bound: the items that wait, and whether the
    receiving half is still there. *)
Class BoundedChannel (C T : Type) := {
  channel : nat -> C;
  try_send : T -> C -> result TrySendError unit * C;
  try_recv : C -> option T * C;
  close : C -> C;
  waiting : C -> list T;
  capacity : C -> nat;
  open : C -> bool;
}.

Class BoundedChannelLaws (C T : Type) `{!BoundedChannel C T} : Prop := {
  channel_new : forall n, waiting (channel n) = [] /\ capacity (channel n) = n /\ open (channel n) = true;
  try_send_spec : forall x c,
    let '(r, c') := try_send x c in
    capacity c' = capacity c /\ open c' = open c /\
    match r with
    | Ok _ => open c = true /\ (length (waiting c) < capacity c)%nat /\ waiting c' = waiting c ++ [x]
    | Err Full => open c = true /\ (capacity c <= length (waiting c))%nat /\ waiting c' = waiting c
    | Err ChannelClosed => open c = false /\ waiting c' = waiting c
    end;
  try_recv_spec : forall c,
    let '(r, c') := try_recv c in
    capacity c' = capacity c /\ open c' = open c /\
    match r with
    | Some x => waiting c = x :: waiting c'
    | None => waiting c = [] /\ waiting c' = []
    end;
  close_spec : forall c, capacity (close c) = capacity c /\ open (close c) = false /\ waiting (close c) = [];
}.

(** A channel for concrete runs. *)
Record queue (T : Type) := { q_items : list T; q_capacity : nat; q_open : bool }.
Arguments q_items {T}. Arguments q_capacity {T}. Arguments q_open {T}. Arguments Build_queue {T}.

Definition queue_channel (T : Type) : BoundedChannel (queue T) T := {|
  channel n := {| q_items := []; q_capacity := n; q_open := true |};
  try_send x c :=
    if negb (q_open c) then (Err ChannelClosed, c)
    else if (q_capacity c <=? length (q_items c))%nat then (Err Full, c)
    else (Ok tt, {| q_items := q_items c ++ [x]; q_capacity := q_capacity c; q_open := true |});
  try_recv c :=
    match q_items c with
    | [] => (None, c)
    | x :: xs => (Some x, {| q_items := xs; q_capacity := q_capacity c; q_open := q_open c |})
    end;
  close c := {| q_items := []; q_capacity := q_capacity c; q_open := false |};
  waiting := q_items;
  capacity := q_capacity;
  open := q_open;
|}.

Lemma queue_channel_laws T : @BoundedChannelLaws (queue T) T (queue_channel T).
Proof.
  split; cbn.
  - done.
  - intros x [items n o]. cbn. destruct o; cbn; [|done]. destruct (Nat.leb_spec n (length items)); done.
  - intros [[|x xs] n o]; done.
  - done.
Qed.

Section frame_source.
Context {C T I : Type} `{!BoundedChannel C T}.

(** ** The sender *)

Record FrameSender := {
  tx : C;
  dropped : Z;
}.

Definition new (tx : C) : FrameSender := {| tx := tx; dropped := 0 |}.

Definition send (item : T) (s : FrameSender) : SendOutcome * FrameSender :=
  let '(r, tx) := try_send item (tx s) in
  match r with
  | Ok _ => (Sent, {| tx := tx; dropped := dropped s |})
  | Err Full => (Dropped, {| tx := tx; dropped := wrap 64 (dropped s + 1) |})
  | Err ChannelClosed => (Closed, {| tx := tx; dropped := dropped s |})
  end.

(** ** The worker's context *)

(** [ready] is what is left of the sending half of the readiness channel, and
    [reported] what has been sent through it. *)
Record WorkerContext := {
  frames : FrameSender;
  stop : bool;
  ready : bool;
  reported : list (result string I);
}.

Definition report_ready (info : I) (ctx : WorkerContext) : bool * WorkerContext :=
  if ready ctx then
    (true, {| frames := frames ctx; stop := stop ctx; ready := false;
              reported := reported ctx ++ [Ok info] |})
  else (false, ctx).

Definition is_ready (ctx : WorkerContext) : bool := negb (ready ctx).

(** The calls a body makes. *)
Inductive body_call :=
| ReportReady (info : I)
| SendFrame (item : T).

Definition body_step (ctx : WorkerContext) (c : body_call) : WorkerContext :=
  match c with
  | ReportReady info => (report_ready info ctx).2
  | SendFrame item =>
      {| frames := (send item (frames ctx)).2; stop := stop ctx; ready := ready ctx;
         reported := reported ctx |}
  end.

Definition run_body (ctx : WorkerContext) (calls : list body_call) : WorkerContext :=
  fold_left body_step calls ctx.

(** What the thread does around the body: an error before readiness goes to the
    spawner, a later one to the log. *)
Definition finish_body (r : result string unit) (ctx : WorkerContext) : WorkerContext :=
  match r with
  | Err e =>
      if ready ctx then
        {| frames := frames ctx; stop := stop ctx; ready := false; reported := reported ctx ++ [Err e] |}
      else ctx
  | Ok _ => ctx
  end.

(** ** The worker *)

Record FrameWorker := {
  rx : C;
  info : I;
  worker_stop : bool;
  joined : bool;
}.

(** What the spawner's [recv_timeout] sees: the first report, the channel closed
    without one, or neither in time. *)
Inductive readiness :=
| Reported (r : result string I)
| Disconnected
| TimedOut.

(** The wait, against a thread that has made [calls] so far and, if [ended],
    returned; it times out when there is nothing to see yet. *)
Definition wait_ready (calls : list body_call) (ended : option (result string unit)) (ctx : WorkerContext) :
    readiness * WorkerContext :=
  let ctx := run_body ctx calls in
  let ctx := match ended with Some r => finish_body r ctx | None => ctx end in
  (match reported ctx with
   | r :: _ => Reported r
   | [] => match ended with Some _ => Disconnected | None => TimedOut end
   end, ctx).

(** [spawned] is the outcome of creating the thread and [timeout_debug] how the
    timeout prints; the result comes with the stop flag and whether the thread
    was joined. *)
Definition spawn (cap : nat) (timeout_debug : string) (spawned : result string unit) (calls : list body_call)
    (ended : option (result string unit)) : result SourceError FrameWorker * (bool * bool) :=
  match spawned with
  | Err e => (Err (Init (String.append "spawn worker thread: " e)), (false, false))
  | Ok _ =>
      let ctx := {| frames := new (channel (Nat.max cap 1)); stop := false; ready := true; reported := [] |} in
      let '(r, ctx) := wait_ready calls ended ctx in
      match r with
      | Reported (Ok info) =>
          (Ok {| rx := tx (frames ctx); info := info; worker_stop := false; joined := false |}, (false, false))
      | Reported (Err e) => (Err (Init e), (true, true))
      | Disconnected => (Err (Init "worker exited without reporting readiness"), (true, true))
      | TimedOut => (Err (Init (String.append "worker did not become ready within " timeout_debug)), (true, false))
      end
  end.

(** [next], with an item waiting or the channel's end. *)
Definition next (w : FrameWorker) : option T * FrameWorker :=
  let '(r, c) := try_recv (rx w) in
  (r, {| rx := c; info := info w; worker_stop := worker_stop w; joined := joined w |}).

Definition drop_worker (w : FrameWorker) : FrameWorker :=
  {| rx := rx w; info := info w; worker_stop := true; joined := true |}.

(** ** Runs *)

(** A producer and a consumer on one channel. *)
Inductive op := Produce (item : T) | Consume | CloseReceiver.

(** The sender, what came out of the channel, and what the producer was told. *)
Record flow := {
  sender : FrameSender;
  received : list T;
  outcomes : list (T * SendOutcome);
}.

Definition run_op (f : flow) (o : op) : flow :=
  match o with
  | Produce item =>
      let '(r, s) := send item (sender f) in
      {| sender := s; received := received f; outcomes := outcomes f ++ [(item, r)] |}
  | Consume =>
      let '(r, c) := try_recv (tx (sender f)) in
      {| sender := {| tx := c; dropped := dropped (sender f) |};
         received := received f ++ match r with Some x => [x] | None => [] end;
         outcomes := outcomes f |}
  | CloseReceiver =>
      {| sender := {| tx := close (tx (sender f)); dropped := dropped (sender f) |};
         received := received f; outcomes := outcomes f |}
  end.

Definition run (cap : nat) (ops : list op) : flow :=
  fold_left run_op ops {| sender := new (channel cap); received := []; outcomes := [] |}.

Definition is_sent (p : T * SendOutcome) : bool := match p.2 with Sent => true | _ => false end.
Definition is_dropped (p : T * SendOutcome) : bool := match p.2 with Dropped => true | _ => false end.

Definition accepted (f : flow) : list T := map fst (List.filter is_sent (outcomes f)).

(** The first readiness a body reports. *)
Fixpoint first_ready (calls : list body_call) : option I :=
  match calls with
  | [] => None
  | ReportReady info :: _ => Some info
  | SendFrame _ :: calls' => first_ready calls'
  end.

(** * Lemmas *)

Lemma run_body_reported calls ctx :
  ready ctx = true -> reported ctx = [] ->
  match first_ready calls with
  | Some info => exists rest, reported (run_body ctx calls) = Ok info :: rest /\ ready (run_body ctx calls) = false
  | None => reported (run_body ctx calls) = [] /\ ready (run_body ctx calls) = true
  end.
Proof.
  revert ctx. induction calls as [|[i|x] calls IH] using list_ind; intros ctx Hr Hrep; cbn [first_ready].
  - done.
  - assert (forall cs ctx0, ready ctx0 = false -> reported (run_body ctx0 cs) = reported ctx0 /\
      ready (run_body ctx0 cs) = false) as Hkeep.
    { clear. induction cs as [|[j|y] cs IH]; intros ctx0 H0; [done|..]; cbn [run_body fold_left body_step].
      - unfold report_ready. rewrite H0. by apply IH.
      - by destruct (IH {| frames := (send y (frames ctx0)).2; stop := stop ctx0; ready := ready ctx0;
          reported := reported ctx0 |} H0). }
    cbn [run_body fold_left body_step]. unfold report_ready. rewrite Hr. cbn [snd].
    match goal with |- context [fold_left body_step calls ?c] => destruct (Hkeep calls c eq_refl) as [E1 E2] end.
    exists []. unfold run_body in *. rewrite E1, E2. cbn [reported]. by rewrite Hrep.
  - cbn [run_body fold_left body_step]. by apply IH.
Qed.

(** * Properties *)

(** A worker that starts is ready.  Spawning succeeds exactly with the first
    readiness the body reports, however often it reports it; a body that fails
    before that is the spawner's error with the body's message, one that returns
    has not reported, and one that does neither runs into the timeout.  Whenever
    it fails, the stop flag is set, and the thread has been joined unless it may
    still be running. *)
Theorem spawn_verdicts cap timeout_debug calls ended :
  let '(r, (stopped, joined_thread)) := spawn cap timeout_debug (Ok tt) calls ended in
  match first_ready calls with
  | Some i => exists w, r = Ok w /\ info w = i /\ stopped = false
  | None =>
      match ended with
      | Some (Err e) => r = Err (Init e)
      | Some (Ok _) => r = Err (Init "worker exited without reporting readiness")
      | None => r = Err (Init (String.append "worker did not become ready within " timeout_debug))
      end /\ stopped = true /\ (joined_thread = true <-> ended <> None)
  end.
Proof.
  unfold spawn, wait_ready. set (ctx := {| frames := _; stop := _; ready := _; reported := _ |}).
  pose proof (run_body_reported calls ctx eq_refl eq_refl) as Hb.
  destruct (first_ready calls) as [i|].
  - destruct Hb as (rest & Hrep & Hrd).
    destruct ended as [[[]|e]|]; cbn [finish_body]; rewrite ?Hrd, ?Hrep; by eexists.
  - destruct Hb as [Hrep Hrd].
    destruct ended as [[[]|e]|]; cbn [finish_body]; rewrite ?Hrd; cbn [reported]; rewrite ?Hrep; cbn; done.
Qed.

Context `{!BoundedChannelLaws C T}.
Set Default Proof Using "Type*".

(** The state of a flow. *)
Definition flow_ok (cap : nat) (f : flow) : Prop :=
  capacity (tx (sender f)) = cap /\
  (exists lost, accepted f = received f ++ waiting (tx (sender f)) ++ lost /\
     (open (tx (sender f)) = true -> lost = [])) /\
  (open (tx (sender f)) = true -> (length (waiting (tx (sender f))) <= cap)%nat) /\
  (open (tx (sender f)) = false -> waiting (tx (sender f)) = []) /\
  dropped (sender f) = wrap 64 (Z.of_nat (length (List.filter is_dropped (outcomes f)))).

Lemma accepted_snoc (f : flow) s r (p : T * SendOutcome) :
  accepted {| sender := s; received := r; outcomes := outcomes f ++ [p] |}
  = accepted f ++ (if is_sent p then [p.1] else []).
Proof.
  unfold accepted. cbn [outcomes]. rewrite List.filter_app, map_app. cbn. by destruct (is_sent p).
Qed.

Lemma flow_ok_step cap f o : flow_ok cap f -> flow_ok cap (run_op f o).
Proof.
  intros (Hc & (lost & Ha & Hl) & Hlen & Hw & Hd). destruct o as [x| |]; cbn [run_op].
  - unfold send. pose proof (try_send_spec x (tx (sender f))) as Hs.
    destruct (try_send x (tx (sender f))) as [r c]. destruct Hs as (Hcap & Hop & Hs).
    destruct r as [[]|[]]; unfold flow_ok; rewrite accepted_snoc; cbn [sender tx dropped received outcomes];
      rewrite List.filter_app, length_app, Hcap, Hop; cbn [is_sent is_dropped snd fst List.filter length app].
    + destruct Hs as (Ho & Hlt & ->). split_and!; [done| |..].
      * exists []. rewrite (Hl Ho), app_nil_r in Ha. split; [|done]. by rewrite Ha, app_nil_r, app_assoc.
      * intros _. rewrite length_app. cbn. lia.
      * congruence.
      * by rewrite Nat.add_0_r.
    + destruct Hs as (Ho & Hge & ->). split_and!; [done| |done|done|].
      * exists lost. by rewrite app_nil_r.
      * rewrite Hd. unfold wrap. rewrite Nat2Z.inj_add, Zplus_mod_idemp_l. done.
    + destruct Hs as (Ho & ->). split_and!; [done| |done|done|].
      * exists lost. by rewrite app_nil_r.
      * by rewrite Nat.add_0_r.
  - pose proof (try_recv_spec (tx (sender f))) as Hs. destruct (try_recv (tx (sender f))) as [r c].
    destruct Hs as (Hcap & Hop & Hs). unfold flow_ok. unfold accepted in *. cbn [sender tx dropped received outcomes].
    rewrite Hcap, Hop. destruct r as [x|].
    + rewrite Hs in Ha, Hlen, Hw. split_and!; [done| | | |done].
      * exists lost. split; [|done]. rewrite Ha. by rewrite <- !app_assoc.
      * intros Ho. specialize (Hlen Ho). cbn in Hlen. lia.
      * intros Ho. by specialize (Hw Ho).
    + destruct Hs as [E1 E2]. rewrite E1 in Ha. rewrite E2. split_and!; [done| | |done|done].
      * exists lost. split; [|done]. by rewrite app_nil_r.
      * intros _. cbn. lia.
  - destruct (close_spec (tx (sender f))) as (Hcap & Hop & Hwt). unfold flow_ok, accepted in *.
    cbn [sender tx dropped received outcomes]. rewrite Hcap, Hop, Hwt. split_and!; try done.
    by exists (waiting (tx (sender f)) ++ lost).
Qed.

Lemma run_flow_ok cap ops : flow_ok cap (run cap ops).
Proof.
  induction ops as [|o ops IH] using rev_ind.
  - destruct (channel_new cap) as (Hw & Hc & Ho). unfold flow_ok, run, new, accepted.
    cbn. rewrite Hw, Hc, Ho. split_and!; try done; [by exists []|cbn; lia].
  - unfold run in *. rewrite fold_left_app. by apply flow_ok_step.
Qed.

(** Latency stays bounded by dropping at the source.  However producing and
    consuming interleave, the frames that come out are, in order, the first of
    those the sender accepted; while the consumer is there nothing else has been
    lost, and no more frames wait than the channel's capacity; and the counter
    counts exactly the frames that were dropped. *)
Theorem frames_in_order cap ops :
  let f := run cap ops in
  received f `prefix_of` accepted f /\
  (open (tx (sender f)) = true ->
     accepted f = received f ++ waiting (tx (sender f)) /\ (length (waiting (tx (sender f))) <= cap)%nat) /\
  dropped (sender f) = wrap 64 (Z.of_nat (length (List.filter is_dropped (outcomes f)))).
Proof.
  cbn zeta. destruct (run_flow_ok cap ops) as (_ & (lost & Ha & Hl) & Hlen & _ & Hd).
  split_and!; [by eexists| |done]. intros Ho. rewrite (Hl Ho), app_nil_r in Ha. auto.
Qed.
End frame_source.
Arguments FrameSender C : clear implicits.

(** ** Concrete runs *)

Module Examples.
#[local] Instance nat_channel : BoundedChannel (queue nat) nat := queue_channel nat.

Lemma frames_in_order_witness :
  BoundedChannelLaws (queue nat) nat /\
  let f := run 2 [Produce 1%nat; Produce 2%nat; Produce 3%nat; Consume; Produce 4%nat] in
  received f `prefix_of` accepted f /\ accepted f = [1; 2; 4]%nat /\ dropped (sender f) = 1.
Proof.
  pose proof (queue_channel_laws nat) as L. split; [exact L|]. intros f.
  split; [|done]. apply (frames_in_order 2 [Produce 1%nat; Produce 2%nat; Produce 3%nat; Consume; Produce 4%nat]).
Defined.
End Examples.
