(* ===== verification/FileTransferSession.v ===== *)
(** File transfer over streams: the model of
    [src/src/file_transfer_session.rs] but for [FileReassembly], which is in
    the file of that name. *)

From S2P Require Import Prelude.
From S2P Require Varint.
From S2P Require Import ReasonCode.
From S2P Require Import StreamKind.
From S2P Require Import Prologue.
From S2P Require Import Envelope.
From S2P Require Import Async.
From S2P Require Import StreamReader.
From S2P Require Import Connection.
From S2P Require Import Messages.
From S2P Require Import MessageCodecs.
From S2P Require PermissionSet.
From S2P Require FileHandleStore.
From S2P Require Import Crypto.
From S2P Require Import FileReassembly.

Section control_stream.
Context `{Transport}.
Context `{!Cbor FileTransferRequest, !Cbor FileTransferAccept, !Cbor FileTransferReject,
          !Cbor FileTransferError}.

(** * Definitions *)

(** The [Duration]s of [defaults], in microseconds. *)
Definition FILE_TRANSFER_STALL_TIMEOUT : Z := 30 * 1000000.
Definition FILE_STREAM_ACCEPT_TIMEOUT : Z := 30 * 1000000.

Inductive FileTransferSessionError :=
| Quic (e : ConnectionError)
| Write (e : WriteError)
| ReadErr (e : StreamReadError)
| Decode (e : DecodeError)
| WrongStreamKind
| UnexpectedType (type_raw : Z)
| FileHandleMismatch (context_id file_handle : Z)
| OwnershipRejected (e : FileHandleStore.FileHandleError)
| AcceptTimeout.

Definition required_permission_bit (direction : FileTransferDirection) : Z :=
  match direction with
  | Upload => PermissionSet.bit.FILE_UP
  | Download => PermissionSet.bit.FILE_DOWN
  end.

(** ** The control stream *)

Definition send_file_transfer_request (request : FileTransferRequest) : async SendStream WriteError unit :=
  write_envelope false type_id.FILE_TRANSFER_REQUEST (encode request).

Definition read_file_transfer_request :
    async EnvelopeReader FileTransferSessionError FileTransferRequest :=
  '(type_raw, payload) ← amap_err ReadErr (read_envelope false (max_envelope_length Control));
  if negb (type_raw =? type_id.FILE_TRANSFER_REQUEST) then athrow (UnexpectedType type_raw)
  else alift (map_err Decode (decode payload)).

Definition send_file_transfer_accept (accept : FileTransferAccept) : async SendStream WriteError unit :=
  write_envelope false type_id.FILE_TRANSFER_ACCEPT (encode accept).

Definition send_file_transfer_reject (reject : FileTransferReject) : async SendStream WriteError unit :=
  write_envelope false type_id.FILE_TRANSFER_REJECT (encode reject).

Inductive FileTransferDecision :=
| Accept (accept : FileTransferAccept)
| Reject (reject : FileTransferReject).

Definition read_file_transfer_decision :
    async EnvelopeReader FileTransferSessionError FileTransferDecision :=
  '(type_raw, payload) ← amap_err ReadErr (read_envelope false (max_envelope_length Control));
  if type_raw =? type_id.FILE_TRANSFER_ACCEPT then
    accept ← alift (map_err Decode (decode payload));
    aret (Accept accept)
  else if type_raw =? type_id.FILE_TRANSFER_REJECT then
    reject ← alift (map_err Decode (decode payload));
    aret (Reject reject)
  else athrow (UnexpectedType type_raw).

Definition send_file_transfer_error (error : FileTransferError) : async SendStream WriteError unit :=
  write_envelope false type_id.FILE_TRANSFER_ERROR (encode error).

End control_stream.

(** ** The file stream *)

Section file_transfer.
Context `{Transport, Sha256}.
Context `{!Cbor FileChunk, !Cbor FileTransferComplete}.

Definition open_file_stream (file_handle : Z) :
    async Connection FileTransferSessionError SendStream :=
  send ← amap_err Quic open_uni;
  prologue_bytes ← aoutcome (Prologue.encode File 1 file_handle []);
  '(_, send) ← alocal_try send (amap_err Write (write_all false prologue_bytes));
  aret send.

Definition accept_file_stream (expected_file_handle : Z) :
    async Connection FileTransferSessionError EnvelopeReader :=
  recv ← amap_err Quic (accept_uni false);
  let reader := StreamReader.new recv in
  '(stream_prologue, reader) ← alocal_try reader (amap_err ReadErr (read_prologue false));
  if negb (bool_decide (kind stream_prologue = File)) then athrow WrongStreamKind
  else if negb (context_id stream_prologue =? expected_file_handle) then
    athrow (FileHandleMismatch (context_id stream_prologue) expected_file_handle)
  else aret reader.

(** [now] is what [clock::now_us] returns inside [validate]. *)
Definition accept_file_stream_verified_with_timeout (now : Z) (store : FileHandleStore.FileHandleStore)
    (session_id : list Z) (user_id : string) (direction : FileTransferDirection) :
    async Connection FileTransferSessionError (EnvelopeReader * Z) :=
  recv ← atimeout AcceptTimeout (amap_err Quic (accept_uni true));
  let reader := StreamReader.new recv in
  '(stream_prologue, reader) ← alocal_try reader (amap_err ReadErr (read_prologue false));
  if negb (bool_decide (kind stream_prologue = File)) then athrow WrongStreamKind
  else
    let file_handle := context_id stream_prologue in
    match FileHandleStore.validate now file_handle session_id user_id direction store with
    | Ok _ => aret (reader, file_handle)
    | Err ownership_error =>
        c ← aget;
        _ ← aput (note_stop (default 0 (stopped (stop 0 reader))) c);
        athrow (OwnershipRejected ownership_error)
    end.

Definition accept_file_stream_verified := accept_file_stream_verified_with_timeout.

Definition send_file_chunk (chunk : FileChunk) : async SendStream WriteError unit :=
  write_envelope false type_id.FILE_CHUNK (encode chunk).

Definition send_file_transfer_complete (complete : FileTransferComplete) :
    async SendStream WriteError unit :=
  write_envelope false type_id.FILE_TRANSFER_COMPLETE (encode complete).

(** The [for] loop of [send_file_data]. *)
Fixpoint send_file_chunks (cs : list FileChunk) : async SendStream WriteError unit :=
  match cs with
  | [] => aret tt
  | c :: cs' => _ ← send_file_chunk c; send_file_chunks cs'
  end.

Definition send_file_data (d : list Z) (chunk_size : Z) : async SendStream WriteError unit :=
  _ ← send_file_chunks (file_chunks chunk_size d);
  send_file_transfer_complete {| checksum := sha256 d |}.

Inductive ReceiveOutcome :=
| Complete (d : list Z)
| Error (error : FileTransferError).

(** One turn of the receive loop after its read: what it returns, or the
    reassembly to go on with. *)
Definition receive_message (file_handle : Z) (type_raw : Z) (payload : list Z) (r : FileReassembly) :
    outcome (result FileTransferSessionError (ReceiveOutcome + FileReassembly)) :=
  let error reason := Ok (inl (Error {| fte_file_handle := file_handle; fte_reason := reason |})) in
  if type_raw =? type_id.FILE_CHUNK then
    match decode payload with
    | Err e => Done (Err (Decode e))
    | Ok chunk =>
        '(v, r') ← apply_chunk chunk r;
        Done (match v with Err reason => error reason | Ok _ => Ok (inr r') end)
    end
  else if type_raw =? type_id.FILE_TRANSFER_COMPLETE then
    match decode payload with
    | Err e => Done (Err (Decode e))
    | Ok complete =>
        Done (if negb (is_complete r) then error PROTOCOL_FILE_INCOMPLETE_TRANSFER
              else if negb (verify_checksum r (checksum complete)) then
                error PROTOCOL_FILE_CHECKSUM_MISMATCH
              else Ok (inl (Complete (into_data r))))
    end
  else Done (Err (UnexpectedType type_raw)).

(** The receive loop; each turn takes an envelope off the stream, so as many
    turns as the stream has bytes are enough ([receive_loop_unfold]). *)
Fixpoint receive_loop (file_handle : Z) (fuel : nat) (r : FileReassembly) :
    async EnvelopeReader FileTransferSessionError ReceiveOutcome := fun reader =>
  match fuel with
  | O => (Crash, reader)
  | S fuel' =>
      match read_envelope true (max_envelope_length File) reader with
      | (Elapsed, reader) =>
          (Ready (Ok (Error {| fte_file_handle := file_handle;
                               fte_reason := TRANSPORT_STREAM_STALL_TIMEOUT |})), reader)
      | (Pending, reader) => (Pending, reader)
      | (Crash, reader) => (Crash, reader)
      | (Ready (Err e), reader) => (Ready (Err (ReadErr e)), reader)
      | (Ready (Ok (type_raw, payload)), reader) =>
          match receive_message file_handle type_raw payload r with
          | Panicked => (Crash, reader)
          | Done (Err e) => (Ready (Err e), reader)
          | Done (Ok (inl o)) => (Ready (Ok o), reader)
          | Done (Ok (inr r')) => receive_loop file_handle fuel' r' reader
          end
      end
  end.

Definition receive_loop' (file_handle : Z) (r : FileReassembly) :
    async EnvelopeReader FileTransferSessionError ReceiveOutcome := fun reader =>
  receive_loop file_handle (S (length (stream_bytes reader))) r reader.

Definition receive_file_with_timeout (file_handle resolved_size : Z) :
    async EnvelopeReader FileTransferSessionError ReceiveOutcome :=
  reassembly ← aoutcome (FileReassembly.new resolved_size);
  receive_loop' file_handle reassembly.

Definition receive_file := receive_file_with_timeout.

Inductive FileTransferOutcome :=
| TransferDone
| ReportError (error : FileTransferError).

(** The state of [run_file_transfer]: the connection and the shared store. *)
Record transfer_env := {
  connection : Connection;
  store : FileHandleStore.FileHandleStore;
}.

Definition on_connection {E A} : async Connection E A -> async transfer_env E A :=
  azoom connection (fun c env => {| connection := c; store := store env |}).

Definition remove_handle {E} (file_handle : Z) : async transfer_env E unit := fun env =>
  (Ready (Ok tt), {| connection := connection env;
                     store := FileHandleStore.remove file_handle (store env) |}).

Definition drop_send {E} (send : SendStream) : async transfer_env E unit := fun env =>
  (Ready (Ok tt), {| connection := release send (connection env); store := store env |}).

Definition run_file_transfer (now : Z) (session_id : list Z) (user_id : string)
    (request : FileTransferRequest) (file_handle : Z) :
    async transfer_env FileTransferSessionError FileTransferOutcome :=
  match ftr_direction request with
  | Upload =>
      env ← aget;
      '(reader, verified_handle) ←
        on_connection (accept_file_stream_verified now (store env) session_id user_id
                         (ftr_direction request));
      '(outcome, _) ← alocal reader (receive_file verified_handle (declared_size request));
      _ ← remove_handle verified_handle;
      outcome ← alift outcome;
      match outcome with
      | Complete _ => aret TransferDone
      | Error error => aret (ReportError error)
      end
  | Download =>
      send ← on_connection (open_file_stream file_handle);
      let pseudo_size := Z.min (declared_size request) (1024 * 1024) in
      let pseudo_data := replicate (Z.to_nat pseudo_size) 0xAB in
      '(result, send) ← alocal send (amap_err Write (send_file_data pseudo_data (64 * 1024)));
      _ ← drop_send send;
      _ ← remove_handle file_handle;
      _ ← alift result;
      aret TransferDone
  end.

(** * Lemmas *)

(** [fuel] beyond the bytes of the stream makes no difference. *)
Lemma receive_loop_fuel file_handle n m r reader :
  (length (stream_bytes reader) < n)%nat -> (length (stream_bytes reader) < m)%nat ->
  receive_loop file_handle n r reader = receive_loop file_handle m r reader.
Proof.
  revert m r reader. induction n as [|n IH]; intros [|m] r reader Hn Hm; try lia.
  cbn [receive_loop].
  destruct (read_envelope true (max_envelope_length File) reader) as [[[[t p]|]| | |] rd] eqn:E; try done.
  apply read_envelope_progress in E.
  destruct (receive_message file_handle t p r) as [[[|]|]|]; try done. apply IH; lia.
Qed.

(** The loop as the source writes it, without fuel. *)
Lemma receive_loop_unfold file_handle r reader :
  receive_loop' file_handle r reader =
    match read_envelope true (max_envelope_length File) reader with
    | (Elapsed, reader) =>
        (Ready (Ok (Error {| fte_file_handle := file_handle;
                             fte_reason := TRANSPORT_STREAM_STALL_TIMEOUT |})), reader)
    | (Pending, reader) => (Pending, reader)
    | (Crash, reader) => (Crash, reader)
    | (Ready (Err e), reader) => (Ready (Err (ReadErr e)), reader)
    | (Ready (Ok (type_raw, payload)), reader) =>
        match receive_message file_handle type_raw payload r with
        | Panicked => (Crash, reader)
        | Done (Err e) => (Ready (Err e), reader)
        | Done (Ok (inl o)) => (Ready (Ok o), reader)
        | Done (Ok (inr r')) => receive_loop' file_handle r' reader
        end
    end.
Proof.
  unfold receive_loop' at 1. cbn [receive_loop].
  destruct (read_envelope true (max_envelope_length File) reader) as [[[[t p]|]| | |] rd] eqn:E; try done.
  apply read_envelope_progress in E.
  destruct (receive_message file_handle t p r) as [[[|]|]|]; try done. apply receive_loop_fuel; lia.
Qed.

Definition chunk_message (c : FileChunk) : Z * list Z := (type_id.FILE_CHUNK, encode c).
Definition complete_message (d : list Z) : Z * list Z :=
  (type_id.FILE_TRANSFER_COMPLETE, encode {| checksum := sha256 d |}).

(** Everything [send_file_data] writes. *)
Definition file_messages (n : Z) (d : list Z) : list (Z * list Z) :=
  map chunk_message (file_chunks n d) ++ [complete_message d].

Lemma frames_cons t p ms : frames ((t, p) :: ms) = frame t p ++ frames ms.
Proof. done. Qed.

Lemma frames_app ms ms' : frames (ms ++ ms') = frames ms ++ frames ms'.
Proof. unfold frames. by rewrite map_app, concat_app. Qed.

Lemma send_file_chunks_frames cs s :
  Forall (fun c => Z.of_nat (length (encode c)) <= Varint.MAX) cs -> write_results s = [] ->
  send_file_chunks cs s
  = (Ready (Ok tt), {| sent := sent s ++ frames (map chunk_message cs); write_results := [] |}).
Proof.
  intros Hc. revert s. induction Hc as [|c cs Hc _ IH]; intros s Hw.
  { cbn. rewrite app_nil_r, <- Hw. by destruct s. }
  cbn [send_file_chunks]. erewrite abind_ready by (by apply write_envelope_frame).
  rewrite IH by done. cbn [sent map]. unfold chunk_message at 2. by rewrite frames_cons, app_assoc.
Qed.

Lemma send_file_data_frames n d s :
  Forall (fun m => Z.of_nat (length m.2) <= Varint.MAX) (file_messages n d) -> write_results s = [] ->
  send_file_data d n s
  = (Ready (Ok tt), {| sent := sent s ++ frames (file_messages n d); write_results := [] |}).
Proof.
  unfold file_messages. intros [Hc Hm]%Forall_snoc Hw. unfold send_file_data.
  assert (Forall (fun c => Z.of_nat (length (encode c)) <= Varint.MAX) (file_chunks n d)) as Hc'
    by exact (proj1 (Forall_map chunk_message _ _) Hc).
  erewrite abind_ready by (by apply send_file_chunks_frames).
  unfold send_file_transfer_complete. rewrite write_envelope_frame by done. cbn [sent].
  rewrite frames_app. unfold complete_message. by rewrite frames_cons, app_nil_r, app_assoc.
Qed.

Lemma FILE_limit : 0 < max_envelope_length File <= Varint.MAX.
Proof. by vm_compute. Qed.

(** The handle that the next stream of the connection presents in its prologue,
    and the bytes behind the prologue, if there is such a stream and it is a file
    stream. *)
Definition presented (c : Connection) : option (Z * list Z) :=
  match uni_accepts c with
  | AStream evs _ :: _ =>
      match Prologue.parse (recv_bytes evs) with
      | Ok (Some (p, n)) =>
          if bool_decide (kind p = File) then Some (context_id p, drop n (recv_bytes evs)) else None
      | _ => None
      end
  | _ => None
  end.

(** Accepting a stream, by the handle that it presents. *)
Lemma accept_verified_presented now st sid uid dir c :
  let '(p, c') := accept_file_stream_verified now st sid uid dir c in
  match presented c with
  | None =>
      stopped_readers c' = stopped_readers c /\
      match p with Ready (Ok _) | Ready (Err (OwnershipRejected _)) => False | _ => True end
  | Some (h, rest) =>
      match FileHandleStore.validate now h sid uid dir st with
      | Ok _ => exists reader, p = Ready (Ok (reader, h)) /\ stream_bytes reader = rest /\
                  stopped_readers c' = stopped_readers c
      | Err e => p = Ready (Err (OwnershipRejected e)) /\ stopped_readers c' = stopped_readers c ++ [0]
      end
  end.
Proof.
  unfold accept_file_stream_verified, accept_file_stream_verified_with_timeout, presented.
  unfold mbind, async_bind, abind, atimeout, amap_err, accept_uni.
  destruct (uni_accepts c) as [|[evs sd|e|] accepts]; cbn -[read_prologue Prologue.parse]; try done.
  unfold alocal_try, alocal, mbind, async_bind, abind. cbn -[read_prologue Prologue.parse].
  destruct (read_loop_spec prologue_parser false (StreamReader.new evs) prologue_parser_incremental)
    as (rd & _ & Hr); [done|].
  unfold prologue_parser in Hr at 1. unfold read_prologue. unfold stream_bytes in Hr at 1.
  cbn [StreamReader.new buf recv app] in Hr.
  destruct (Prologue.parse (recv_bytes evs)) as [[[pl n]|]|e]; cbn [map_err] in Hr.
  - destruct Hr as (-> & Hb & _). cbn -[bool_decide]. case_bool_decide; cbn [negb]; [|done].
    destruct (FileHandleStore.validate now (context_id pl) sid uid dir st); [by exists rd|done].
  - rewrite Hr. by destruct (recv_end evs) as [[[]|?]| | |].
  - by rewrite Hr.
Qed.

(** Receiving never raises an ownership error. *)
Lemma receive_no_ownership fh size reader e :
  (receive_file fh size reader).1 ≠ Ready (Err (OwnershipRejected e)).
Proof.
  unfold receive_file, receive_file_with_timeout, mbind, async_bind, abind, aoutcome.
  destruct (FileReassembly.new size) as [r|]; [|done]. unfold receive_loop'.
  generalize (S (length (stream_bytes reader))) as n. intros n. revert r reader.
  induction n as [|n IH]; intros r reader; [done|]. cbn [receive_loop].
  destruct (read_envelope true (max_envelope_length File) reader) as [[[[t p]|]| | |] rd]; try done.
  destruct (receive_message fh t p r) as [[[|]|e']|] eqn:E; [done|apply IH| |done].
  intros [= ->]. revert E. unfold receive_message.
  destruct (t =? _); [|destruct (t =? _); [|done]].
  - destruct (decode p); [|done]. destruct (apply_chunk _ r) as [[[|] ?]|]; done.
  - destruct (decode p); [|done]. destruct (is_complete r); [|done].
    by destruct (verify_checksum r _).
Qed.

(** C40: Only the owner's stream is received.  What an upload does depends on the handle
    that the next stream presents in its own prologue, never on the one that the
    task was started for.  Without a file stream that presents a handle nothing is
    received, and the store stays.  If the store does not know the presented handle
    as issued to this session and user, for uploading, and not expired, the
    transfer ends with that very rejection, the stream is stopped, and the store
    stays.  Otherwise the bytes behind the prologue are received for the presented
    handle against the size that the request declares, the result of that is the
    result of the transfer, and if there is one, an error included, exactly the
    presented handle is removed. *)
Theorem upload_ownership now sid uid request fh env :
  ftr_direction request = Upload ->
  let '(p, env') := run_file_transfer now sid uid request fh env in
  let removed h := store env' = FileHandleStore.remove h (store env) in
  let stopped codes := stopped_readers (connection env') = stopped_readers (connection env) ++ codes in
  match presented (connection env) with
  | None =>
      store env' = store env /\ stopped [] /\
      match p with Ready (Ok _) | Ready (Err (OwnershipRejected _)) => False | _ => True end
  | Some (h, rest) =>
      match FileHandleStore.validate now h sid uid Upload (store env) with
      | Err e => p = Ready (Err (OwnershipRejected e)) /\ store env' = store env /\ stopped [0]
      | Ok _ =>
          exists reader, stream_bytes reader = rest /\ stopped [] /\
            match (receive_file h (declared_size request) reader).1 with
            | Ready (Ok (Complete _)) => p = Ready (Ok TransferDone) /\ removed h
            | Ready (Ok (Error error)) => p = Ready (Ok (ReportError error)) /\ removed h
            | Ready (Err e) => p = Ready (Err e) /\ removed h /\ (forall o, e <> OwnershipRejected o)
            | Pending => p = Pending /\ store env' = store env
            | Elapsed => p = Elapsed /\ store env' = store env
            | Crash => p = Crash /\ store env' = store env
            end
      end
  end.
Proof.
  intros Hd. unfold run_file_transfer. rewrite Hd.
  pose proof (accept_verified_presented now (store env) sid uid Upload (connection env)) as Ha.
  unfold mbind, async_bind, abind, aget, on_connection, azoom.
  destruct (accept_file_stream_verified now (store env) sid uid Upload (connection env)) as [p c'].
  destruct (presented (connection env)) as [[h rest]|].
  - destruct (FileHandleStore.validate now h sid uid Upload (store env)) as [r|e].
    + destruct Ha as (reader & -> & Hb & Hs). unfold alocal.
      pose proof (receive_no_ownership h (declared_size request) reader) as Hn.
      destruct (receive_file h (declared_size request) reader) as [[[[]|e]| | |] rd'] eqn:E; cbn;
        (exists reader; split; [exact Hb|]); rewrite app_nil_r, E in *; cbn; split_and!; try done.
      intros o ->. by destruct (Hn o).
    + destruct Ha as [-> Hs]. done.
  - destruct Ha as [Hs Hp]. cbv zeta. rewrite app_nil_r. by destruct p as [[[reader h]|e]| | |].
Qed.

Context `{!CborLaws FileChunk, !CborLaws FileTransferComplete}.
Set Default Proof Using "Type*".

(** Receiving chunks that are accepted. *)
Lemma receive_chunks fh cs r r' reader rest :
  apply_chunks cs r = Done (Ok tt, r') ->
  Forall (fun c => Z.of_nat (length (encode c)) <= max_envelope_length File) cs ->
  no_elapsed (recv reader) -> stream_bytes reader = frames (map chunk_message cs) ++ rest ->
  exists reader', receive_loop' fh r reader = receive_loop' fh r' reader' /\
    stream_bytes reader' = rest /\ no_elapsed (recv reader').
Proof.
  intros Ha Hl. revert r reader Ha. induction Hl as [|c cs Hc _ IH]; intros r reader Ha Hn Hs.
  { injection Ha as <-. by exists reader. }
  cbn [apply_chunks] in Ha. apply bind_done in Ha as ([v r1] & E & Ha).
  destruct v as [[]|]; [|done]. cbn [map] in Hs. unfold chunk_message at 1 in Hs.
  rewrite frames_cons, <- app_assoc in Hs.
  destruct (read_envelope_frame true (max_envelope_length File) reader type_id.FILE_CHUNK (encode c)
    (frames (map chunk_message cs) ++ rest)) as (rd & Er & Hs1 & _ & Hn1 & _);
    [by vm_compute|done|apply FILE_limit|done|done|].
  destruct (IH r1 rd Ha (Hn1 Hn) Hs1) as (rd' & E' & ? & ?).
  exists rd'. split; [|done]. rewrite receive_loop_unfold, Er. cbn [receive_message].
  unfold receive_message. rewrite Z.eqb_refl, decode_encode_msg, E. exact E'.
Qed.

Lemma receive_complete fh r reader d rest :
  is_complete r = true -> data r = d ->
  Z.of_nat (length (encode {| checksum := sha256 d |})) <= max_envelope_length File ->
  no_elapsed (recv reader) -> stream_bytes reader = frames [complete_message d] ++ rest ->
  exists reader', receive_loop' fh r reader = (Ready (Ok (Complete d)), reader') /\
    stream_bytes reader' = rest.
Proof.
  intros Hc Hd Hl Hn Hs. unfold complete_message in Hs. rewrite frames_cons in Hs. cbn [frames map concat] in Hs.
  rewrite app_nil_r in Hs.
  destruct (read_envelope_frame true (max_envelope_length File) reader type_id.FILE_TRANSFER_COMPLETE
    (encode {| checksum := sha256 d |}) rest) as (rd & Er & Hs1 & _);
    [by vm_compute|done|apply FILE_limit|done|done|].
  exists rd. split; [|done]. rewrite receive_loop_unfold, Er. unfold receive_message.
  change (type_id.FILE_TRANSFER_COMPLETE =? type_id.FILE_CHUNK) with false. rewrite Z.eqb_refl.
  rewrite decode_encode_msg, Hc. unfold verify_checksum, into_data. cbn [checksum negb]. rewrite Hd.
  by rewrite bool_decide_true by done.
Qed.

(** * Properties *)

(** C29: A file survives the wire.  What [send_file_data] writes for a file, read
    back over any chunking of the stream, makes [receive_file] return exactly
    that file with its checksum verified, and leaves the reader right behind
    it.  The chunk size must be positive (of size 0 every chunk is empty and the
    second overlaps the first) and a [u32], the file shorter than 2^63 bytes,
    every message within the stream's envelope limit; the transport must not
    fail and the stall timer not fire. *)
Theorem transfer_roundtrip n file fh :
  0 < n < 2 ^ 32 -> Z.of_nat (length file) < 2 ^ 63 ->
  Forall (fun m => Z.of_nat (length m.2) <= max_envelope_length File) (file_messages n file) ->
  exists s', send_file_data file n {| sent := []; write_results := [] |} = (Ready (Ok tt), s') /\
    forall reader rest,
      no_elapsed (recv reader) -> stream_bytes reader = sent s' ++ rest ->
      exists reader', receive_file fh (Z.of_nat (length file)) reader
          = (Ready (Ok (Complete file)), reader') /\ stream_bytes reader' = rest.
Proof.
  intros Hn Hf Hm. eexists. split.
  { apply send_file_data_frames; [|done]. eapply Forall_impl; [exact Hm|].
    intros m Hx. etransitivity; [exact Hx|]. apply FILE_limit. }
  cbn [sent app]. intros reader rest Hne Hs. unfold file_messages in *.
  apply Forall_snoc in Hm as [Hmc Hml]. apply (Forall_map chunk_message) in Hmc.
  rewrite frames_app, <- app_assoc in Hs.
  set (size := Z.of_nat (length file)) in *.
  assert (exists r0, FileReassembly.new size = Done r0) as [r0 Hnew].
  { unfold FileReassembly.new, isize_MAX. destruct (Z.leb_spec size (2 ^ 63 - 1)); [by eexists|lia]. }
  destruct (chunks_reassemble_in_order n file r0) as (r & Ha & Hcomp & Hd); [done..|].
  destruct (receive_chunks fh _ r0 r reader _ Ha Hmc Hne Hs) as (rd & E & Hs1 & Hn1).
  destruct (receive_complete fh r rd file rest) as (rd' & E' & ?); [done..|].
  exists rd'. split; [|done]. unfold receive_file, receive_file_with_timeout.
  erewrite abind_ready by (unfold aoutcome; by rewrite Hnew). by rewrite E.
Qed.

End file_transfer.

(** ** Concrete runs *)

Module Examples.
#[local] Existing Instance plain_transport.
#[local] Instance sum_hash : Sha256 := fun d => [fold_right Z.add 0 d].
#[local] Instance chunk_cbor : Cbor FileChunk := countable_cbor.
#[local] Instance complete_cbor : Cbor FileTransferComplete := countable_cbor.

Lemma transfer_roundtrip_witness :
  (CborLaws FileChunk /\ CborLaws FileTransferComplete /\
   Forall (fun m => Z.of_nat (length m.2) <= max_envelope_length File) (file_messages 2 [1; 2; 3])) /\
  exists s', send_file_data [1; 2; 3] 2 {| sent := []; write_results := [] |} = (Ready (Ok tt), s') /\
    forall reader rest,
      no_elapsed (recv reader) -> stream_bytes reader = sent s' ++ rest ->
      exists reader', receive_file 9 3 reader = (Ready (Ok (Complete [1; 2; 3])), reader') /\
        stream_bytes reader' = rest.
Proof.
  assert (CborLaws FileChunk) as H1 by apply countable_cbor_laws.
  assert (CborLaws FileTransferComplete) as H2 by apply countable_cbor_laws.
  assert (Forall (fun m => Z.of_nat (length m.2) <= max_envelope_length File)
            (file_messages 2 [1; 2; 3])) as H3
    by (repeat constructor; by vm_compute).
  split; [done|].
  apply (transfer_roundtrip 2 [1; 2; 3] 9); [lia|by vm_compute|exact H3].
Defined.

Definition handle (size : Z) : FileHandleStore.FileHandleRecord :=
  {| FileHandleStore.session_id := [1]; FileHandleStore.user_id := "u";
     FileHandleStore.direction := Upload; FileHandleStore.resolved_size := size;
     FileHandleStore.expiry_ts := 100 |}.

(** Two uploads of the same user are open: 7, of four bytes, and 8, of two. *)
Definition two_uploads : FileHandleStore.FileHandleStore :=
  {| FileHandleStore.handles := {[ 7 := handle 4; 8 := handle 2 ]} |}.

Definition env_with (incoming : list Z) : transfer_env :=
  {| connection := {| uni_accepts := [AStream [RData incoming; RFin] {| sent := []; write_results := [] |}];
                      bi_accepts := []; uni_opens := []; bi_opens := []; released := [];
                      stopped_readers := [] |};
     store := two_uploads |}.

Definition request (size : Z) : FileTransferRequest :=
  {| ftr_request_id := 1; ftr_direction := Upload; virtual_path := "f"; declared_size := size |}.

(** The bytes of the stream on which the client uploads [d] under [h]. *)
Definition upload_bytes (h : Z) (d : list Z) : list Z :=
  match Prologue.encode File 1 h [] with Done p => p | Panicked => [] end
  ++ frames (file_messages 64 d).

Lemma upload_ownership_witness :
  ftr_direction (request 4) = Upload /\
  presented (connection (env_with (upload_bytes 8 [5; 6]))) = Some (8, frames (file_messages 64 [5; 6])) /\
  FileHandleStore.handles (store (run_file_transfer 50 [1] "u" (request 2) 7 (env_with (upload_bytes 8 [5; 6]))).2)
    = delete 8 (FileHandleStore.handles two_uploads).
Proof.
  split; [done|].
  pose proof (upload_ownership 50 [1] "u" (request 2) 7 (env_with (upload_bytes 8 [5; 6])) eq_refl) as Hu.
  assert (presented (connection (env_with (upload_bytes 8 [5; 6])))
    = Some (8, frames (file_messages 64 [5; 6]))) as E by (by vm_compute).
  split; [exact E|]. rewrite E in Hu.
  assert ((run_file_transfer 50 [1] "u" (request 2) 7 (env_with (upload_bytes 8 [5; 6]))).1
    = Ready (Ok TransferDone)) as Ep by (by vm_compute).
  destruct (run_file_transfer 50 [1] "u" (request 2) 7 (env_with (upload_bytes 8 [5; 6]))) as [p env'].
  cbn [fst snd] in *. subst p. cbv zeta in Hu.
  change (FileHandleStore.validate 50 8 [1] "u" Upload (store (env_with (upload_bytes 8 [5; 6]))))
    with (@Ok FileHandleStore.FileHandleError FileHandleStore.FileHandleRecord (handle 2)) in Hu.
  destruct Hu as (reader & _ & _ & Hu).
  destruct (receive_file 8 (declared_size (request 2)) reader).1 as [[[d|e]|e]| | |];
    try (destruct Hu as [Hp Hr]; done). destruct Hu as [Hp Hr]. by rewrite Hr.
Defined.

(** Another user's stream is refused. *)
Example other_users_stream :
  let '(p, env') := run_file_transfer 50 [1] "v" (request 4) 7 (env_with (upload_bytes 7 [1; 2; 3; 4])) in
  p = Ready (Err (OwnershipRejected FileHandleStore.UserMismatch)) /\ store env' = two_uploads /\
  stopped_readers (connection env') = [0].
Proof. by vm_compute. Qed.

(** The task of upload 7 takes the stream of upload 8, checks its two bytes
    against the four declared for 7, and reports the complete file as
    incomplete. *)
Example crossed_uploads :
  let '(p, env') := run_file_transfer 50 [1] "u" (request 4) 7 (env_with (upload_bytes 8 [5; 6])) in
  p = Ready (Ok (ReportError {| fte_file_handle := 8; fte_reason := PROTOCOL_FILE_INCOMPLETE_TRANSFER |})) /\
  FileHandleStore.handles (store env') !! 8 = None.
Proof. by vm_compute. Qed.

(** An error after the stream was accepted removes the handle all the same. *)
Example error_removes_handle :
  let bytes := match Prologue.encode File 1 7 [] with Done p => p | Panicked => [] end in
  let '(p, env') := run_file_transfer 50 [1] "u" (request 4) 7 (env_with bytes) in
  p = Ready (Err (ReadErr ClosedEarly)) /\ FileHandleStore.handles (store env') !! 7 = None.
Proof. by vm_compute. Qed.

(** A declared size above [isize::MAX] panics the receiving task. *)
Example huge_upload_panics :
  (run_file_transfer 50 [1] "u" (request (2 ^ 63)) 7 (env_with (upload_bytes 7 []))).1 = Crash.
Proof. by vm_compute. Qed.
End Examples.
