(* ===== verification/H264.v ===== *)
(** H.264 Annex-B handling: the model of [src/src/h264.rs]. *)

From S2P Require Import Prelude.

(** * Definitions *)

Record NalUnit := { nal_type : Z; nal_bytes : list Z }.

Definition NAL_TYPE_SLICE_IDR : Z := 5.
Definition NAL_TYPE_SPS : Z := 7.
Definition NAL_TYPE_PPS : Z := 8.

(** The [while] loop of [find_start_code]; [l] is the buffer from [i] on, and
    the loop ends when fewer than three bytes are left. *)
Fixpoint scan (l : list Z) (i : nat) : option (nat * nat) :=
  match l with
  | b0 :: l' =>
      match l' with
      | b1 :: b2 :: rest =>
          if (b0 =? 0) && (b1 =? 0) then
            if b2 =? 1 then Some (i, (i + 3)%nat)
            else if match rest with b3 :: _ => (b2 =? 0) && (b3 =? 1) | [] => false end
                 then Some (i, (i + 4)%nat)
            else scan l' (S i)
          else scan l' (S i)
      | _ => None
      end
  | [] => None
  end.

Definition find_start_code (buf : list Z) (from : nat) : option (nat * nat) :=
  scan (drop from buf) from.

(** The [loop] of [nal_spans].  The start of the current unit grows with every
    turn, so [S (length buf)] turns are enough ([spans_loop_fuel]). *)
Fixpoint spans_loop (fuel : nat) (buf : list Z) (sc_start nal_start : nat) : list (nat * nat * nat) :=
  match fuel with
  | O => []
  | S fuel' =>
      let next := find_start_code buf nal_start in
      let stop := match next with Some (sc, _) => sc | None => length buf end in
      let here := if (nal_start <? stop)%nat then [(sc_start, nal_start, stop)] else [] in
      match next with
      | Some (next_sc, next_nal) => here ++ spans_loop fuel' buf next_sc next_nal
      | None => here
      end
  end.

Definition nal_spans (buf : list Z) : list (nat * nat * nat) :=
  match find_start_code buf 0 with
  | None => []
  | Some (sc_start, nal_start) => spans_loop (S (length buf)) buf sc_start nal_start
  end.

(** [&buf[a..b]]. *)
Definition slice (buf : list Z) (a b : nat) : list Z := take (b - a) (drop a buf).

Definition split_annex_b (buf : list Z) : list NalUnit :=
  map (fun '(_, nal_start, stop) =>
         let bytes := slice buf nal_start stop in
         {| nal_type := Z.land (bytes !!! 0%nat) 0x1F; nal_bytes := bytes |})
    (nal_spans buf).

Definition nal_unit_types (buf : list Z) : list Z := map nal_type (split_annex_b buf).

Definition contains_idr_slice (buf : list Z) : bool :=
  existsb (fun u => nal_type u =? NAL_TYPE_SLICE_IDR) (split_annex_b buf).

Definition contains_sps (buf : list Z) : bool :=
  existsb (fun u => nal_type u =? NAL_TYPE_SPS) (split_annex_b buf).

Definition is_idr_access_unit (buf : list Z) (encoder_keyframe_flag : bool) : bool :=
  encoder_keyframe_flag || contains_idr_slice buf.

(** The loop of [extract_parameter_sets], with its three variables. *)
Definition extract_step (buf : list Z) (acc : list Z * bool * bool) (span : nat * nat * nat) :
    list Z * bool * bool :=
  let '(out, sps, pps) := acc in
  let '(sc_start, nal_start, stop) := span in
  let t := Z.land (buf !!! nal_start) 0x1F in
  if t =? NAL_TYPE_SPS then (out ++ slice buf sc_start stop, true, pps)
  else if t =? NAL_TYPE_PPS then (out ++ slice buf sc_start stop, sps, true)
  else (out, sps, pps).

Definition extract_parameter_sets (buf : list Z) : option (list Z) :=
  let '(out, sps, pps) := fold_left (extract_step buf) (nal_spans buf) ([], false, false) in
  if sps && pps then Some out else None.

(** The loop of [is_self_contained_idr] over the types of the units. *)
Fixpoint self_contained_loop (types : list Z) (seen_sps seen_pps : bool) : bool :=
  match types with
  | [] => false
  | t :: types' =>
      if t =? NAL_TYPE_SPS then self_contained_loop types' true seen_pps
      else if t =? NAL_TYPE_PPS then self_contained_loop types' seen_sps true
      else if t =? NAL_TYPE_SLICE_IDR then seen_sps && seen_pps
      else self_contained_loop types' seen_sps seen_pps
  end.

Definition is_self_contained_idr (buf : list Z) : bool :=
  self_contained_loop (map nal_type (split_annex_b buf)) false false.

Record ParameterSetCache := { sets : option (list Z) }.

Definition new : ParameterSetCache := {| sets := None |}.

Definition has_sets (c : ParameterSetCache) : bool := bool_decide (is_Some (sets c)).

Definition observe (access_unit : list Z) (c : ParameterSetCache) : bool * ParameterSetCache :=
  let c :=
    match sets c with
    | None => {| sets := extract_parameter_sets access_unit |}
    | Some _ => c
    end in
  (has_sets c, c).

Definition set_fallback (s : list Z) (c : ParameterSetCache) : ParameterSetCache :=
  match sets c, s with
  | None, _ :: _ => {| sets := Some s |}
  | _, _ => c
  end.

Definition complete_idr (c : ParameterSetCache) (access_unit : list Z) : list Z :=
  match sets c with
  | Some s => if negb (contains_sps access_unit) then s ++ access_unit else access_unit
  | None => access_unit
  end.

(** ** Start codes and headers, by position *)

(** [00 00 01] stands at [i]. *)
Definition code_at (buf : list Z) (i : nat) : bool :=
  bool_decide (buf !! i = Some 0 /\ buf !! (i + 1)%nat = Some 0 /\ buf !! (i + 2)%nat = Some 1).

(** The byte behind it. *)
Definition header_at (buf : list Z) (i : nat) : list Z :=
  if code_at buf i then match buf !! (i + 3)%nat with Some h => [h] | None => [] end else [].

(** The header bytes behind every start code from [i] on. *)
Definition headers (buf : list Z) (i : nat) : list Z :=
  concat (map (header_at buf) (seq i (length buf - i))).

(** The types that matter for self-containment. *)
Definition relevant (t : Z) : bool := (t =? NAL_TYPE_SLICE_IDR) || (t =? NAL_TYPE_SPS) || (t =? NAL_TYPE_PPS).

Definition type_of (h : Z) : Z := Z.land h 0x1F.

Definition signature (hs : list Z) : list Z := List.filter relevant (map type_of hs).

(** * Lemmas *)

Lemma signature_app a b : signature (a ++ b) = signature a ++ signature b.
Proof. unfold signature. by rewrite map_app, List.filter_app. Qed.

Lemma scan_cons b0 b1 b2 rest i :
  scan (b0 :: b1 :: b2 :: rest) i =
    if (b0 =? 0) && (b1 =? 0) then
      if b2 =? 1 then Some (i, (i + 3)%nat)
      else if match rest with b3 :: _ => (b2 =? 0) && (b3 =? 1) | [] => false end
           then Some (i, (i + 4)%nat)
      else scan (b1 :: b2 :: rest) (S i)
    else scan (b1 :: b2 :: rest) (S i).
Proof. done. Qed.

(** What the scan finds: the first start code, with a leading zero if any. *)
Lemma scan_spec buf i :
  match scan (drop i buf) i with
  | Some (sc, nal) =>
      (i <= sc)%nat /\ (nal = sc + 3 \/ nal = sc + 4)%nat /\ code_at buf (nal - 3) = true /\
      buf !! sc = Some 0 /\ (nal <= length buf)%nat /\
      (forall j, (i <= j < nal - 3)%nat -> code_at buf j = false)
  | None => forall j, (i <= j)%nat -> code_at buf j = false
  end.
Proof.
  remember (length buf - i)%nat as n eqn:Hn. revert i Hn.
  induction n as [n IH] using lt_wf_ind. intros i Hn.
  assert (forall k, drop i buf !! k = buf !! (i + k)%nat) as Hlk by (intros; apply lookup_drop).
  destruct (drop i buf) as [|b0 [|b1 [|b2 rest]]] eqn:Ed.
  { cbn. intros j Hj. apply bool_decide_eq_false. intros [H0 _].
    specialize (Hlk (j - i)%nat). rewrite lookup_nil in Hlk. replace (i + (j - i))%nat with j in Hlk by lia. congruence. }
  1,2: cbn; intros j Hj; apply bool_decide_eq_false; intros (_ & _ & H2);
    specialize (Hlk (j + 2 - i)%nat); replace (i + (j + 2 - i))%nat with (j + 2)%nat in Hlk by lia;
    rewrite H2 in Hlk; rewrite lookup_ge_None_2 in Hlk by (cbn; lia); done.
  pose proof (Hlk 0%nat) as E0. pose proof (Hlk 1%nat) as E1. pose proof (Hlk 2%nat) as E2.
  pose proof (Hlk 3%nat) as E3. rewrite Nat.add_0_r in E0. cbn in E0, E1, E2, E3.
  assert (length buf - i = 3 + length rest)%nat as Hlen
    by (rewrite <- length_drop, Ed; done).
  assert (drop (S i) buf = b1 :: b2 :: rest) as Ed' by (by rewrite <- Nat.add_1_r, <- drop_drop, Ed).
  assert (code_at buf i = bool_decide (b0 = 0 /\ b1 = 0 /\ b2 = 1)) as Hci.
  { unfold code_at. rewrite <- E0, <- E1, <- E2. apply bool_decide_ext. naive_solver. }
  assert (code_at buf i = false ->
    match scan (b1 :: b2 :: rest) (S i) with
    | Some (sc, nal) =>
        (i <= sc)%nat /\ (nal = sc + 3 \/ nal = sc + 4)%nat /\ code_at buf (nal - 3) = true /\
        buf !! sc = Some 0 /\ (nal <= length buf)%nat /\
        (forall j, (i <= j < nal - 3)%nat -> code_at buf j = false)
    | None => forall j, (i <= j)%nat -> code_at buf j = false
    end) as Hrec.
  { intros Hno. pose proof (IH (length buf - S i)%nat ltac:(lia) (S i) eq_refl) as Hi. rewrite Ed' in Hi.
    destruct (scan (b1 :: b2 :: rest) (S i)) as [[sc nal]|].
    - destruct Hi as (H1 & H2 & H3 & H4 & H5 & H6). split_and!; try done; try lia.
      intros j Hj. destruct (decide (j = i)) as [-> |]; [done|]. apply H6. lia.
    - intros j Hj. destruct (decide (j = i)) as [-> |]; [done|]. apply Hi. lia. }
  rewrite scan_cons. destruct (Z.eqb_spec b0 0) as [-> |Hb0]; cbn [andb];
    [|apply Hrec; rewrite Hci; apply bool_decide_eq_false; naive_solver].
  destruct (Z.eqb_spec b1 0) as [-> |Hb1];
    [|apply Hrec; rewrite Hci; apply bool_decide_eq_false; naive_solver].
  destruct (Z.eqb_spec b2 1) as [-> |Hb2].
  { split_and!; [lia|lia| |done|lia|intros; lia].
    replace (i + 3 - 3)%nat with i by lia. rewrite Hci. by apply bool_decide_eq_true. }
  assert (code_at buf i = false) as Hno by (rewrite Hci; apply bool_decide_eq_false; naive_solver).
  destruct rest as [|b3 rest]; [by apply Hrec|].
  destruct (Z.eqb_spec b2 0) as [-> |Hb2']; cbn [andb]; [|by apply Hrec].
  destruct (Z.eqb_spec b3 1) as [-> |Hb3]; [|by apply Hrec].
  cbn in E3, Hlen. split_and!; [lia|lia| |done|lia|].
  - replace (i + 4 - 3)%nat with (i + 1)%nat by lia. apply bool_decide_eq_true.
    replace (i + 1 + 1)%nat with (i + 2)%nat by lia. replace (i + 1 + 2)%nat with (i + 3)%nat by lia. done.
  - intros j Hj. assert (j = i) as -> by lia. done.
Qed.

Lemma concat_map_nil {A} (f : nat -> list A) l : (forall j, j ∈ l -> f j = []) -> concat (map f l) = [].
Proof.
  induction l as [|x l IH]; intros Hf; cbn; [done|]. rewrite Hf, IH by set_solver. done.
Qed.

Lemma headers_cons buf i : (i < length buf)%nat -> headers buf i = header_at buf i ++ headers buf (S i).
Proof.
  intros Hi. unfold headers. replace (length buf - i)%nat with (S (length buf - S i)) by lia. done.
Qed.

(** Headers do not change over positions without a start code. *)
Lemma headers_skip buf i q :
  (i <= q)%nat -> (forall j, (i <= j < q)%nat -> code_at buf j = false) ->
  headers buf i = headers buf q.
Proof.
  intros Hle. remember (q - i)%nat as n eqn:Hn. revert i Hle Hn.
  induction n as [|n IH]; intros i Hle Hn Hno; [by assert (i = q) as -> by lia|].
  destruct (decide (i < length buf)%nat) as [Hi|Hi].
  - rewrite headers_cons by done. unfold header_at. rewrite Hno by lia. cbn.
    apply IH; [lia|lia|]. intros j Hj. apply Hno. lia.
  - unfold headers. replace (length buf - i)%nat with 0%nat by lia.
    by replace (length buf - q)%nat with 0%nat by lia.
Qed.

Lemma lookup_total_lt (buf : list Z) i : (i < length buf)%nat -> buf !! i = Some (buf !!! i).
Proof. intros Hi. by apply list_lookup_lookup_total_lt. Qed.

Definition opt_list {A} (o : option A) : list A := match o with Some x => [x] | None => [] end.

Lemma code_at_bytes buf p :
  code_at buf p = true <-> buf !! p = Some 0 /\ buf !! (p + 1)%nat = Some 0 /\ buf !! (p + 2)%nat = Some 1.
Proof. apply bool_decide_eq_true. Qed.

(** Two start codes never overlap. *)
Lemma code_at_next buf p j :
  code_at buf p = true -> (p < j < p + 3)%nat -> code_at buf j = false.
Proof.
  intros (H0 & H1 & H2)%code_at_bytes Hj. apply not_true_iff_false. intros (J0 & J1 & J2)%code_at_bytes.
  assert (j = p + 1 \/ j = p + 2)%nat as [-> | ->] by lia; [|congruence].
  replace (p + 1 + 1)%nat with (p + 2)%nat in J1 by lia. congruence.
Qed.

Lemma headers_code buf p :
  code_at buf p = true -> headers buf p = opt_list (buf !! (p + 3)%nat) ++ headers buf (p + 3).
Proof.
  intros Hc. pose proof Hc as (H0 & _ & _)%code_at_bytes. apply lookup_lt_Some in H0.
  rewrite headers_cons by done. unfold header_at. rewrite Hc. f_equal.
  apply headers_skip; [lia|]. intros j Hj. apply (code_at_next buf p); [done|lia].
Qed.

(** [fuel] beyond the bytes of the buffer makes no difference. *)
Lemma spans_loop_fuel n m buf sc nal :
  (length buf - nal < n)%nat -> (length buf - nal < m)%nat ->
  spans_loop n buf sc nal = spans_loop m buf sc nal.
Proof.
  revert m sc nal. induction n as [|n IH]; intros [|m] sc nal Hn Hm; try lia.
  cbn [spans_loop]. pose proof (scan_spec buf nal) as Hs. unfold find_start_code.
  destruct (scan (drop nal buf) nal) as [[sc' nal']|]; [|done].
  f_equal. apply IH; lia.
Qed.

(** A unit's span: its start code, its bytes, and no start code among them. *)
Definition span_ok (buf : list Z) (span : nat * nat * nat) : Prop :=
  let '(sc, nal, stop) := span in
  (nal < stop <= length buf)%nat /\ (nal = sc + 3 \/ nal = sc + 4)%nat /\ buf !! sc = Some 0 /\
  code_at buf (nal - 3) = true /\ (forall j, (nal <= j < stop)%nat -> code_at buf j = false).

Lemma spans_loop_spec fuel buf sc nal :
  (length buf - nal < fuel)%nat -> (nal <= length buf)%nat -> (nal = sc + 3 \/ nal = sc + 4)%nat ->
  buf !! sc = Some 0 -> code_at buf (nal - 3) = true ->
  Forall (span_ok buf) (spans_loop fuel buf sc nal) /\
  List.filter relevant (map (fun '(_, n, _) => type_of (buf !!! n)) (spans_loop fuel buf sc nal))
    = signature (opt_list (buf !! nal) ++ headers buf nal).
Proof.
  revert sc nal. induction fuel as [|fuel IH]; intros sc nal Hf Hle Hsc H0 Hc; [lia|].
  cbn [spans_loop]. pose proof (scan_spec buf nal) as Hs. unfold find_start_code.
  destruct (scan (drop nal buf) nal) as [[sc' nal']|].
  - destruct Hs as (S1 & S2 & S3 & S4 & S5 & S6).
    destruct (IH sc' nal') as [IH1 IH2]; [lia|lia|done|done|done|].
    rewrite (headers_skip buf nal (nal' - 3)) by (done || lia).
    rewrite headers_code by done. replace (nal' - 3 + 3)%nat with nal' by lia.
    rewrite signature_app, <- IH2.
    destruct (Nat.ltb_spec nal sc') as [Hlt|Hge].
    + cbn [app map List.filter]. split.
      * constructor; [|done]. split; [lia|]. do 3 (split; [done|]). intros j Hj. apply S6. lia.
      * rewrite (lookup_total_lt buf nal) by lia. cbn [opt_list].
        unfold signature. cbn [map List.filter]. by destruct (relevant _).
    + assert (nal = sc') as -> by lia. rewrite S4. cbn [app opt_list]. by split.
  - assert (headers buf nal = []) as ->.
    { apply concat_map_nil. intros j Hj. apply elem_of_seq in Hj. unfold header_at. by rewrite Hs by lia. }
    rewrite app_nil_r. destruct (Nat.ltb_spec nal (length buf)) as [Hlt|Hge].
    + split.
      * constructor; [|constructor]. split; [lia|]. do 3 (split; [done|]). intros j Hj. apply Hs. lia.
      * rewrite (lookup_total_lt buf nal) by lia. done.
    + rewrite lookup_ge_None_2 by lia. by split.
Qed.

Lemma nal_spans_spec buf :
  Forall (span_ok buf) (nal_spans buf) /\
  List.filter relevant (map (fun '(_, n, _) => type_of (buf !!! n)) (nal_spans buf))
    = signature (headers buf 0).
Proof.
  unfold nal_spans. pose proof (scan_spec buf 0) as Hs. unfold find_start_code.
  destruct (scan (drop 0 buf) 0) as [[sc nal]|].
  - destruct Hs as (S1 & S2 & S3 & S4 & S5 & S6).
    destruct (spans_loop_spec (S (length buf)) buf sc nal) as [H1 H2]; [lia|done..|].
    split; [done|]. rewrite H2, (headers_skip buf 0 (nal - 3)) by (done || lia).
    rewrite (headers_code buf (nal - 3)) by done. by replace (nal - 3 + 3)%nat with nal by lia.
  - split; [constructor|].
    assert (headers buf 0 = []) as ->; [|done].
    apply concat_map_nil. intros j Hj. unfold header_at. by rewrite Hs by lia.
Qed.

Lemma slice_lookup buf a b i : (i < b - a)%nat -> slice buf a b !! i = buf !! (a + i)%nat.
Proof. intros Hi. unfold slice. by rewrite lookup_take_lt, lookup_drop by done. Qed.

Lemma length_slice buf a b : (b <= length buf)%nat -> length (slice buf a b) = (b - a)%nat.
Proof. intros Hb. unfold slice. rewrite length_take, length_drop. lia. Qed.

Lemma nal_unit_types_spans buf :
  nal_unit_types buf = map (fun '(_, n, _) => type_of (buf !!! n)) (nal_spans buf).
Proof.
  unfold nal_unit_types, split_annex_b. rewrite map_map. apply map_ext_in.
  intros [[sc nal] stop] Hin. apply list_elem_of_In in Hin.
  destruct (nal_spans_spec buf) as [Hok _]. rewrite Forall_forall in Hok.
  destruct (Hok _ Hin) as (Hb & _). cbn [nal_type]. unfold type_of. f_equal.
  apply list_lookup_total_correct. rewrite slice_lookup by lia. rewrite Nat.add_0_r.
  apply lookup_total_lt. lia.
Qed.

(** The relevant types of a buffer, from its header bytes alone. *)
Lemma types_signature buf : List.filter relevant (nal_unit_types buf) = signature (headers buf 0).
Proof. rewrite nal_unit_types_spans. apply nal_spans_spec. Qed.

Lemma self_contained_filter ts a b :
  self_contained_loop ts a b = self_contained_loop (List.filter relevant ts) a b.
Proof.
  revert a b. induction ts as [|t ts IH]; intros a b; [done|]. cbn [self_contained_loop List.filter].
  unfold relevant. destruct (t =? NAL_TYPE_SPS) eqn:E1, (t =? NAL_TYPE_PPS) eqn:E2,
    (t =? NAL_TYPE_SLICE_IDR) eqn:E3; cbn [orb self_contained_loop]; rewrite ?E1, ?E2, ?E3; auto.
Qed.

Lemma contains_type_signature buf t :
  relevant t = true ->
  existsb (fun u => nal_type u =? t) (split_annex_b buf) = true <-> t ∈ signature (headers buf 0).
Proof.
  intros Hr. rewrite <- types_signature. unfold nal_unit_types.
  rewrite existsb_exists, list_elem_of_In, filter_In, in_map_iff.
  setoid_rewrite Z.eqb_eq. naive_solver.
Qed.

Lemma header_at_app_r a b j : header_at (a ++ b) (length a + j) = header_at b j.
Proof.
  assert (forall k, (a ++ b) !! (length a + j + k)%nat = b !! (j + k)%nat) as Hl
    by (intros k; rewrite lookup_app_r by lia; f_equal; lia).
  unfold header_at, code_at. pose proof (Hl 0%nat) as H0. rewrite !Nat.add_0_r in H0.
  by rewrite H0, !Hl.
Qed.

(** Appending keeps the headers of both parts, in order. *)
Lemma headers_app a b : exists mid, headers (a ++ b) 0 = headers a 0 ++ mid ++ headers b 0.
Proof.
  unfold headers. rewrite !Nat.sub_0_r, length_app, seq_app, map_app, concat_app. cbn [Nat.add].
  assert (concat (map (header_at (a ++ b)) (seq (length a) (length b)))
    = concat (map (header_at b) (seq 0 (length b)))) as ->.
  { assert (seq (length a) (length b) = map (Nat.add (length a)) (seq 0 (length b))) as ->
      by (rewrite (fmap_add_seq (length a) 0); by rewrite Nat.add_0_r).
    rewrite map_map. f_equal. apply map_ext. intros j. apply header_at_app_r. }
  set (n := (length a - 3)%nat).
  assert (seq 0 (length a) = seq 0 n ++ seq n (length a - n)) as ->.
  { change (seq n (length a - n)) with (seq (0 + n) (length a - n)). rewrite <- seq_app. f_equal. lia. }
  rewrite !map_app, !concat_app.
  rewrite (concat_map_nil (header_at a) (seq n (length a - n))), app_nil_r.
  - eexists. rewrite <- app_assoc. f_equal. f_equal. apply map_ext_in.
    intros j [_ Hj]%list_elem_of_In%elem_of_seq. unfold header_at, code_at. rewrite !lookup_app_l by lia. done.
  - intros j Hj%elem_of_seq. unfold header_at. destruct (code_at a j); [|done].
    by rewrite lookup_ge_None_2 by lia.
Qed.

(** [out] does not end in a start code. *)
Definition closed (out : list Z) : Prop := code_at out (length out - 3) = false.

(** Appending something that begins with two zeros adds no start code. *)
Lemma headers_app_closed a b :
  closed a -> b !! 0%nat = Some 0 -> b !! 1%nat = Some 0 ->
  headers (a ++ b) 0 = headers a 0 ++ headers b 0.
Proof.
  intros Ha Hb0 Hb1. unfold headers. rewrite !Nat.sub_0_r, length_app, seq_app, map_app, concat_app.
  cbn [Nat.add]. f_equal.
  - f_equal. apply map_ext_in. intros j [_ Hj]%list_elem_of_In%elem_of_seq.
    destruct (decide (j + 3 < length a)%nat).
    { unfold header_at, code_at. by rewrite !lookup_app_l by lia. }
    assert (header_at a j = []) as ->.
    { unfold header_at. destruct (code_at a j); [|done]. by rewrite lookup_ge_None_2 by lia. }
    unfold header_at. assert (code_at (a ++ b) j = false) as ->; [|done].
    apply not_true_iff_false. intros (C0 & C1 & C2)%code_at_bytes.
    assert (j + 3 = length a \/ j + 2 = length a \/ j + 1 = length a)%nat as [E|[E|E]] by lia.
    + unfold closed in Ha. apply not_true_iff_false in Ha. apply Ha, code_at_bytes.
      replace (length a - 3)%nat with j by lia. rewrite !lookup_app_l in C0, C1, C2 by lia. done.
    + rewrite lookup_app_r in C2 by lia. replace (j + 2 - length a)%nat with 0%nat in C2 by lia. congruence.
    + rewrite lookup_app_r in C2 by lia. replace (j + 2 - length a)%nat with 1%nat in C2 by lia. congruence.
  - assert (seq (length a) (length b) = map (Nat.add (length a)) (seq 0 (length b))) as ->
      by (rewrite (fmap_add_seq (length a) 0); by rewrite Nat.add_0_r).
    rewrite map_map. f_equal. apply map_ext. intros j. apply header_at_app_r.
Qed.

(** A unit cut out with its start code has one header and is closed. *)
Lemma slice_unit buf sc nal stop :
  span_ok buf (sc, nal, stop) ->
  let piece := slice buf sc stop in
  headers piece 0 = [buf !!! nal] /\ closed piece /\
  piece !! 0%nat = Some 0 /\ piece !! 1%nat = Some 0 /\ (3 < length piece)%nat.
Proof.
  intros (Hb & Hn & H0 & Hc & Hno) piece.
  pose proof Hc as (C0 & C1 & C2)%code_at_bytes.
  assert (length piece = stop - sc)%nat as Hl by (apply length_slice; lia).
  assert (forall j, (j < stop - sc)%nat -> piece !! j = buf !! (sc + j)%nat) as Hp
    by (intros; by apply slice_lookup).
  assert (forall j, (j + 2 < stop - sc)%nat -> code_at piece j = code_at buf (sc + j)) as Hcode.
  { intros j Hj. unfold code_at. rewrite !Hp by lia. by rewrite !Nat.add_assoc. }
  set (k := (nal - 3 - sc)%nat). assert (sc + k = nal - 3)%nat as Hk by lia.
  assert (code_at piece k = true) as Hck by (rewrite Hcode by lia; by rewrite Hk).
  assert (forall j, (k < j)%nat -> code_at piece j = false) as Hafter.
  { intros j Hj. destruct (decide (j + 2 < stop - sc)%nat).
    - destruct (decide (j < k + 3)%nat); [apply (code_at_next piece k); [done|lia]|].
      rewrite Hcode by done. apply Hno. lia.
    - apply not_true_iff_false. intros (_ & _ & J2)%code_at_bytes. apply lookup_lt_Some in J2. lia. }
  split_and!.
  - rewrite (headers_skip piece 0 k); [|lia|].
    + rewrite headers_code by done. replace (piece !! (k + 3)%nat) with (Some (buf !!! nal)).
      2: { rewrite Hp by lia. rewrite <- lookup_total_lt by lia. f_equal. lia. }
      cbn [opt_list app]. f_equal. apply concat_map_nil. intros j [Hj _]%elem_of_seq.
      unfold header_at. by rewrite Hafter by lia.
    + intros j Hj. assert (j = 0 /\ k = 1)%nat as [-> Ek] by lia.
      apply not_true_iff_false. intros (_ & _ & J2)%code_at_bytes.
      rewrite Hp in J2 by lia. replace (sc + (0 + 2))%nat with (nal - 3 + 1)%nat in J2 by lia. congruence.
  - apply Hafter. lia.
  - rewrite Hp by lia. by rewrite Nat.add_0_r.
  - rewrite Hp by lia. destruct Hn as [-> | ->].
    + by replace (sc + 1)%nat with (sc + 3 - 3 + 1)%nat by lia.
    + by replace (sc + 1)%nat with (sc + 4 - 3)%nat by lia.
  - lia.
Qed.

Lemma closed_app a b : (3 <= length b)%nat -> closed b -> closed (a ++ b).
Proof.
  unfold closed, code_at. intros Hb Hc. rewrite length_app. rewrite !lookup_app_r by lia.
  rewrite <- Hc. apply bool_decide_ext.
  replace (length a + length b - 3 - length a)%nat with (length b - 3)%nat by lia.
  replace (length a + length b - 3 + 1 - length a)%nat with (length b - 3 + 1)%nat by lia.
  replace (length a + length b - 3 + 2 - length a)%nat with (length b - 3 + 2)%nat by lia. done.
Qed.

(** What the extraction loop has collected. *)
Definition collected (out : list Z) (sps pps : bool) : Prop :=
  closed out /\ NAL_TYPE_SLICE_IDR ∉ signature (headers out 0) /\
  (sps = true -> NAL_TYPE_SPS ∈ signature (headers out 0)) /\
  (pps = true -> NAL_TYPE_PPS ∈ signature (headers out 0)).

Lemma collected_append buf out sps pps sc nal stop t :
  collected out sps pps -> span_ok buf (sc, nal, stop) ->
  type_of (buf !!! nal) = t -> t = NAL_TYPE_SPS \/ t = NAL_TYPE_PPS ->
  collected (out ++ slice buf sc stop) (sps || (t =? NAL_TYPE_SPS)) (pps || (t =? NAL_TYPE_PPS)).
Proof.
  intros (Hc & Hn & Hs & Hp) Hok Ht Htt.
  destruct (slice_unit buf sc nal stop Hok) as (Hh & Hcl & H0 & H1 & Hl).
  assert (signature (headers (out ++ slice buf sc stop) 0) = signature (headers out 0) ++ [t]) as Hsig.
  { rewrite headers_app_closed by done. rewrite signature_app, Hh. f_equal.
    unfold signature. cbn [map List.filter]. rewrite Ht. by destruct Htt as [-> | ->]. }
  unfold collected. rewrite Hsig. split; [apply closed_app; [lia|done]|].
  split; [|split].
  - destruct Htt as [-> | ->]; set_solver.
  - intros [E|E%Z.eqb_eq]%orb_true_iff; subst; set_solver.
  - intros [E|E%Z.eqb_eq]%orb_true_iff; subst; set_solver.
Qed.

Lemma extract_collected buf spans out sps pps out' sps' pps' :
  collected out sps pps -> Forall (span_ok buf) spans ->
  fold_left (extract_step buf) spans (out, sps, pps) = (out', sps', pps') -> collected out' sps' pps'.
Proof.
  intros Hc Hok. revert out sps pps Hc.
  induction Hok as [|[[sc nal] stop] spans Hs _ IH]; intros out sps pps Hc E; [by injection E as <- <- <-|].
  cbn [fold_left extract_step] in E.
  destruct (Z.eqb_spec (Z.land (buf !!! nal) 31) NAL_TYPE_SPS) as [Et|Et].
  { apply IH in E; [done|]. pose proof (collected_append buf out sps pps sc nal stop _ Hc Hs Et (or_introl eq_refl)) as H.
    by rewrite orb_true_r, orb_false_r in H. }
  destruct (Z.eqb_spec (Z.land (buf !!! nal) 31) NAL_TYPE_PPS) as [Ep|Ep].
  { apply IH in E; [done|]. pose proof (collected_append buf out sps pps sc nal stop _ Hc Hs Ep (or_intror eq_refl)) as H.
    by rewrite orb_true_r, orb_false_r in H. }
  by apply IH in E.
Qed.

Lemma extract_sets buf out :
  extract_parameter_sets buf = Some out -> collected out true true.
Proof.
  unfold extract_parameter_sets.
  destruct (fold_left (extract_step buf) (nal_spans buf) ([], false, false)) as [[o s] p] eqn:E.
  destruct s, p; cbn; intros [= <-].
  eapply extract_collected; [|apply nal_spans_spec|exact E]. split; [done|]. split; [|done]. set_solver.
Qed.

(** Parameter sets before anything with an IDR slice. *)
Lemma self_contained_prefix pre post s p :
  NAL_TYPE_SLICE_IDR ∉ pre -> (s = true \/ NAL_TYPE_SPS ∈ pre) -> (p = true \/ NAL_TYPE_PPS ∈ pre) ->
  NAL_TYPE_SLICE_IDR ∈ post ->
  self_contained_loop (pre ++ post) s p = true.
Proof.
  revert s p. induction pre as [|t pre IH]; intros s p Hn Hs Hp Hpost.
  - assert (s = true) as -> by (destruct Hs; set_solver). assert (p = true) as -> by (destruct Hp; set_solver).
    cbn [app]. clear -Hpost. induction post as [|t post IH]; [set_solver|]. cbn [self_contained_loop].
    destruct (Z.eqb_spec t NAL_TYPE_SPS) as [-> |]; [apply IH; set_solver|].
    destruct (Z.eqb_spec t NAL_TYPE_PPS) as [-> |]; [apply IH; set_solver|].
    destruct (Z.eqb_spec t NAL_TYPE_SLICE_IDR); [done|]. apply IH. set_solver.
  - cbn [app self_contained_loop].
    destruct (Z.eqb_spec t NAL_TYPE_SPS) as [-> |]; [apply IH; set_solver|].
    destruct (Z.eqb_spec t NAL_TYPE_PPS) as [-> |]; [apply IH; set_solver|].
    destruct (Z.eqb_spec t NAL_TYPE_SLICE_IDR) as [-> |]; [set_solver|]. apply IH; set_solver.
Qed.

(** Both parameter sets and no picture. *)
Definition sets_ok (s : list Z) : bool :=
  bool_decide (NAL_TYPE_SLICE_IDR ∉ nal_unit_types s) && bool_decide (NAL_TYPE_SPS ∈ nal_unit_types s)
  && bool_decide (NAL_TYPE_PPS ∈ nal_unit_types s).

Lemma elem_of_signature s t : relevant t = true -> t ∈ signature (headers s 0) <-> t ∈ nal_unit_types s.
Proof.
  intros Ht. rewrite <- types_signature, !list_elem_of_In, filter_In. naive_solver.
Qed.

Lemma sets_ok_signature s :
  sets_ok s = true <->
  NAL_TYPE_SLICE_IDR ∉ signature (headers s 0) /\ NAL_TYPE_SPS ∈ signature (headers s 0) /\
  NAL_TYPE_PPS ∈ signature (headers s 0).
Proof.
  unfold sets_ok. rewrite !andb_true_iff, !bool_decide_eq_true, !elem_of_signature by done. tauto.
Qed.

Lemma extracted_sets_ok buf out : extract_parameter_sets buf = Some out -> sets_ok out = true.
Proof. intros E. apply sets_ok_signature. by destruct (extract_sets _ _ E) as (_ & Hn & Hs & Hp); auto. Qed.

(** Parameter sets in front of a unit with an IDR slice. *)
Lemma prefixed_self_contained s unit :
  sets_ok s = true -> contains_idr_slice unit = true -> is_self_contained_idr (s ++ unit) = true.
Proof.
  intros (Hn & Hs & Hp)%sets_ok_signature Hidr.
  unfold is_self_contained_idr. fold (nal_unit_types (s ++ unit)).
  rewrite self_contained_filter, types_signature.
  destruct (headers_app s unit) as [mid ->]. rewrite !signature_app.
  apply self_contained_prefix; [done|by auto..|].
  apply elem_of_app. right. by apply contains_type_signature.
Qed.

(** * Properties *)

(** An IDR is made self-contained.  Once an access unit with both parameter
    sets was observed by an empty cache, an access unit with an IDR slice and
    no SPS, whatever its bytes, is completed to one in which an SPS and a PPS
    precede the first IDR slice; and the cache does not change again. *)
Theorem completed_idr_self_contained source unit later :
  (observe source new).1 = true ->
  contains_idr_slice unit = true -> contains_sps unit = false ->
  let c := (observe source new).2 in
  is_self_contained_idr (complete_idr c unit) = true /\
  (observe later c).2 = c /\ set_fallback later c = c.
Proof.
  unfold observe, new. cbn [sets fst snd]. unfold has_sets.
  destruct (extract_parameter_sets source) as [out|] eqn:E; cbn [sets];
    [|by intros [??]%bool_decide_eq_true].
  intros _ Hidr Hsps. split; [|split]; [|done|by destruct later].
  unfold complete_idr. cbn [sets]. rewrite Hsps. cbn [negb].
  apply prefixed_self_contained; [by eapply extracted_sets_ok|done].
Qed.

Lemma completed_idr_self_contained_witness :
  let source := [0; 0; 0; 1; 0x67; 9; 0; 0; 1; 0x68; 7; 0; 0; 1; 0x65; 3] in
  let unit := [0; 0; 1; 0x65; 4] in
  ((observe source new).1 = true /\ contains_idr_slice unit = true /\ contains_sps unit = false) /\
  is_self_contained_idr (complete_idr (observe source new).2 unit) = true.
Proof.
  intros source unit.
  assert ((observe source new).1 = true) as H1 by (by vm_compute).
  assert (contains_idr_slice unit = true) as H2 by (by vm_compute).
  assert (contains_sps unit = false) as H3 by (by vm_compute).
  split; [done|].
  exact (proj1 (completed_idr_self_contained source unit [] H1 H2 H3)).
Defined.

(** An IDR with an SPS but no PPS is not completed. *)
Example sps_without_pps_unchanged :
  let source := [0; 0; 1; 0x67; 9; 0; 0; 1; 0x68; 7] in
  let unit := [0; 0; 1; 0x67; 9; 0; 0; 1; 0x65; 4] in
  complete_idr (observe source new).2 unit = unit /\ is_self_contained_idr unit = false.
Proof. by vm_compute. Qed.
