(* ===== verification/SessionFile.v ===== *)
(** The client's saved session: the model of [src/src/session_file.rs].  A
    [String] is the list of its UTF-8 bytes; reading and writing the file
    itself is the operating system's part. *)

From S2P Require Import Prelude.

(** * Definitions *)

Record SavedSession := {
  session_id : list Z;       (** 16 bytes *)
  reconnect_token : list Z;  (** 32 bytes *)
  user_id : list Z;
}.

(** The lower-case hexadecimal digit of [d < 16]. *)
Definition hex_digit (d : Z) : Z := if d <? 10 then 48 + d else 87 + d.

(** [format!("{b:02x}")] for each byte. *)
Definition hex_encode (bytes : list Z) : list Z :=
  concat (map (fun b => [hex_digit (b `div` 16); hex_digit (b `mod` 16)]) bytes).

(** [char::to_digit(16)]. *)
Definition to_digit (c : Z) : option Z :=
  if (48 <=? c) && (c <=? 57) then Some (c - 48)
  else if (97 <=? c) && (c <=? 102) then Some (c - 87)
  else if (65 <=? c) && (c <=? 70) then Some (c - 55)
  else None.

(** [u8::from_str_radix(s, 16).ok()] on a string of two bytes: a leading plus
    sign is accepted. *)
Definition from_str_radix (a b : Z) : option Z :=
  if a =? 43 then to_digit b
  else match to_digit a, to_digit b with
       | Some x, Some y => Some (16 * x + y)
       | _, _ => None
       end.

(** A byte that continues a UTF-8 character; a slice may not start or end in
    front of one. *)
Definition is_continuation (b : Z) : bool := (0x80 <=? b) && (b <=? 0xBF).

Definition char_boundary (rest : list Z) : bool :=
  match rest with b :: _ => negb (is_continuation b) | [] => true end.

(** The [map] over the pairs, collected; [s] has even length. *)
Fixpoint parse_pairs (s : list Z) : outcome (option (list Z)) :=
  match s with
  | a :: b :: rest =>
      if char_boundary s && char_boundary rest then
        match from_str_radix a b with
        | None => Done None
        | Some x =>
            o ← parse_pairs rest;
            Done (match o with Some xs => Some (x :: xs) | None => None end)
        end
      else Panicked
  | _ => Done (Some [])
  end.

Definition parse_hex_bytes (s : list Z) : outcome (option (list Z)) :=
  if Z.odd (Z.of_nat (length s)) then Done None else parse_pairs s.

(** [str::lines]: split at newlines; a carriage return before the newline goes
    with it, and the empty piece after a final newline is not a line. *)
Definition strip_cr (l : list Z) : list Z :=
  match reverse l with 13 :: r => reverse r | _ => l end.

Fixpoint lines_loop (s cur : list Z) : list (list Z) :=
  match s with
  | [] => match cur with [] => [] | _ => [reverse cur] end
  | c :: s' => if c =? 10 then strip_cr (reverse cur) :: lines_loop s' [] else lines_loop s' (c :: cur)
  end.

Definition lines (s : list Z) : list (list Z) := lines_loop s [].

(** [parse_hex_bytes(line)?.try_into().ok()?] for an array of [n] bytes. *)
Definition parse_array (n : nat) (line : list Z) : outcome (option (list Z)) :=
  o ← parse_hex_bytes line;
  Done (match o with Some bs => if bool_decide (length bs = n) then Some bs else None | None => None end).

Definition parse_saved_session (contents : list Z) : outcome (option SavedSession) :=
  match lines contents with
  | [] => Done None
  | l1 :: ls =>
      o1 ← parse_array 16 l1;
      match o1, ls with
      | Some sid, l2 :: ls =>
          o2 ← parse_array 32 l2;
          match o2, ls with
          | Some tok, l3 :: _ =>
              Done (Some {| session_id := sid; reconnect_token := tok; user_id := l3 |})
          | _, _ => Done None
          end
      | _, _ => Done None
      end
  end.

Definition format_saved_session (session : SavedSession) : list Z :=
  hex_encode (session_id session) ++ [10] ++ hex_encode (reconnect_token session) ++ [10]
  ++ user_id session ++ [10].

(** The file: what it holds, or [None] if it is not there or not text. *)
Definition read_saved_session (file : option (list Z)) : outcome (option SavedSession) :=
  match file with
  | Some contents => parse_saved_session contents
  | None => Done None
  end.

(** [fs::write] succeeds, fails to open the file, or fails after some bytes. *)
Inductive written := Whole | NotOpened | Cut (n : nat).

Definition write_saved_session (w : written) (session : SavedSession) (file : option (list Z)) : option (list Z) :=
  match w with
  | Whole => Some (format_saved_session session)
  | NotOpened => file
  | Cut n => Some (take n (format_saved_session session))
  end.

(** * Lemmas *)

Lemma to_digit_hex d : 0 <= d < 16 -> to_digit (hex_digit d) = Some d.
Proof.
  intros Hd. unfold hex_digit, to_digit. zcases; cbn [andb]; try lia; f_equal; lia.
Qed.

Lemma hex_digit_range d : 0 <= d < 16 -> 48 <= hex_digit d <= 57 \/ 97 <= hex_digit d <= 102.
Proof. intros Hd. unfold hex_digit. zcases; lia. Qed.

Lemma hex_encode_cons b bs :
  hex_encode (b :: bs) = hex_digit (b `div` 16) :: hex_digit (b `mod` 16) :: hex_encode bs.
Proof. done. Qed.

Lemma hex_encode_chars bs : bytes_ok bs -> Forall (fun c => 48 <= c <= 102) (hex_encode bs).
Proof.
  induction 1 as [|b bs Hb _ IH]; [constructor|]. widths. rewrite hex_encode_cons.
  pose proof (hex_digit_range (b `div` 16) ltac:(lia)). pose proof (hex_digit_range (b `mod` 16) ltac:(lia)).
  constructor; [lia|]. constructor; [lia|done].
Qed.

Lemma char_boundary_hex l : Forall (fun c => 48 <= c <= 102) l -> char_boundary l = true.
Proof. destruct 1; [done|]. cbn. unfold is_continuation. zcases; done || lia. Qed.

Lemma parse_hex_encode bs : bytes_ok bs -> parse_hex_bytes (hex_encode bs) = Done (Some bs).
Proof.
  intros Hok. unfold parse_hex_bytes.
  assert (Z.odd (Z.of_nat (length (hex_encode bs))) = false) as ->.
  { clear Hok. induction bs as [|b bs IH]; [done|]. rewrite hex_encode_cons. cbn [length].
    replace (Z.of_nat (S (S (length (hex_encode bs))))) with (Z.of_nat (length (hex_encode bs)) + 2 * 1) by lia.
    by rewrite Z.odd_add_mul_2. }
  induction Hok as [|b bs Hb Hok IH]; [done|]. widths. rewrite hex_encode_cons. cbn [parse_pairs].
  pose proof (hex_digit_range (b `div` 16) ltac:(lia)). pose proof (hex_digit_range (b `mod` 16) ltac:(lia)).
  pose proof (hex_encode_chars bs Hok) as Hch.
  rewrite !char_boundary_hex; [|done|by repeat (constructor; [lia|])]. cbn [andb].
  unfold from_str_radix. destruct (Z.eqb_spec (hex_digit (b `div` 16)) 43); [lia|].
  rewrite !to_digit_hex by lia. rewrite IH. cbn. do 3 f_equal. lia.
Qed.

Lemma lines_loop_line l s cur :
  10 ∉ l -> lines_loop (l ++ 10 :: s) cur = strip_cr (reverse cur ++ l) :: lines_loop s [].
Proof.
  revert cur. induction l as [|c l IH]; intros cur Hn; cbn [app lines_loop].
  { by rewrite app_nil_r. }
  destruct (Z.eqb_spec c 10) as [-> |Hc]; [set_solver|].
  rewrite IH by set_solver. by rewrite reverse_cons, <- app_assoc.
Qed.

Lemma strip_cr_id l : last l ≠ Some 13 -> strip_cr l = l.
Proof.
  intros Hl. unfold strip_cr. destruct l as [|c l _] using rev_ind; [done|].
  rewrite last_snoc in Hl. rewrite reverse_snoc. destruct (decide (c = 13)) as [-> |Hc]; [done|].
  destruct c as [|p|p]; try done. do 4 (destruct p as [p|p|]; try done).
Qed.

Lemma hex_line bs : bytes_ok bs -> 10 ∉ hex_encode bs /\ last (hex_encode bs) ≠ Some 13.
Proof.
  intros Hok. pose proof (hex_encode_chars bs Hok) as Hch. rewrite Forall_forall in Hch. split.
  - intros Hin. specialize (Hch _ Hin). cbn in Hch. lia.
  - intros Hl. apply last_Some in Hl as [l' Hl]. specialize (Hch 13). cbn in Hch.
    rewrite Hl in Hch. assert (48 <= 13 <= 102) by (apply Hch; set_solver). lia.
Qed.

(** * Properties *)

(** A saved session is read back as it was written, for every session id and
    token and every user id on one line that does not end in a carriage
    return. *)
Theorem saved_session_roundtrip s :
  length (session_id s) = 16%nat -> length (reconnect_token s) = 32%nat ->
  bytes_ok (session_id s) -> bytes_ok (reconnect_token s) ->
  10 ∉ user_id s -> last (user_id s) ≠ Some 13 ->
  parse_saved_session (format_saved_session s) = Done (Some s).
Proof.
  intros L1 L2 B1 B2 Hu Hr. destruct (hex_line _ B1), (hex_line _ B2).
  unfold parse_saved_session, format_saved_session, lines. cbn [app].
  rewrite !lines_loop_line by done. cbn [lines_loop]. rewrite !reverse_nil. cbn [app].
  rewrite !strip_cr_id by done. unfold parse_array. rewrite !parse_hex_encode by done.
  cbn [mbind outcome_bind]. rewrite L1, L2, !bool_decide_true by done. by destruct s.
Qed.

Lemma saved_session_roundtrip_witness :
  let s := {| session_id := replicate 16 171; reconnect_token := replicate 32 7;
              user_id := [97; 108; 105; 99; 101] |} in
  (length (session_id s) = 16%nat /\ bytes_ok (session_id s) /\ 10 ∉ user_id s) /\
  parse_saved_session (format_saved_session s) = Done (Some s).
Proof.
  intros s.
  assert (bytes_ok (session_id s)) as B1 by (repeat constructor; by vm_compute).
  assert (bytes_ok (reconnect_token s)) as B2 by (repeat constructor; by vm_compute).
  assert (10 ∉ user_id s) as Hu by (apply (bool_decide_unpack _); by vm_compute).
  split; [done|].
  apply (saved_session_roundtrip s); [done|done|exact B1|exact B2|exact Hu|done].
Defined.

(** A first line that holds a two-byte character across a pair makes the
    reader panic instead of falling back. *)
Example non_ascii_line_panics : parse_saved_session [97; 0xC3; 0xA9; 98; 10] = Panicked.
Proof. by vm_compute. Qed.

(** A write that is cut short inside the last line leaves a file that is read,
    with another user; cut before, it is not read. *)
Example cut_write_changes_the_user :
  let s := {| session_id := replicate 16 171; reconnect_token := replicate 32 7; user_id := [97; 108; 105; 99; 101] |} in
  read_saved_session (write_saved_session (Cut 100) s None)
  = Done (Some {| session_id := session_id s; reconnect_token := reconnect_token s; user_id := [97; 108] |}) /\
  read_saved_session (write_saved_session (Cut 98) s None) = Done None.
Proof. by vm_compute. Qed.
