(* ===== verification/TimecodeFrame.v ===== *)
(** Synthetic frames with an embedded timecode: the model of
    [src/src/timecode_frame.rs]. *)

From S2P Require Import Prelude.

(** * Definitions *)

Definition BIT_BLOCK_SIZE : Z := 8.
Definition TIMECODE_BITS : Z := 64.

Definition WHITE : list Z := [255; 255; 255].
Definition BLACK : list Z := [0; 0; 0].

Record SyntheticFrame := {
  width : Z;
  height : Z;
  rgb : list Z;
}.

(** [((y * self.width + x) * 3) as usize], with the products at 32 bits. *)
Definition pixel_index (f : SyntheticFrame) (x y : Z) : Z := wrap 32 (wrap 32 (wrap 32 (y * width f) + x) * 3).

Definition set_pixel (x y : Z) (color : list Z) (f : SyntheticFrame) : outcome SyntheticFrame :=
  let idx := pixel_index f x y in
  if idx + 3 <=? Z.of_nat (length (rgb f)) then
    Done {| width := width f; height := height f; rgb := list_inserts (Z.to_nat idx) color (rgb f) |}
  else Panicked.

Definition get_pixel (f : SyntheticFrame) (x y : Z) : outcome (list Z) :=
  let idx := pixel_index f x y in
  if idx + 3 <=? Z.of_nat (length (rgb f)) then
    Done [rgb f !!! Z.to_nat idx; rgb f !!! Z.to_nat (idx + 1); rgb f !!! Z.to_nat (idx + 2)]
  else Panicked.

(** [a..b]. *)
Definition range (a b : Z) : list Z := seqZ a (b - a).

(** The pixels of a rectangle in the order of the two nested loops. *)
Definition rectangle (x0 x1 y0 y1 : Z) : list (Z * Z) :=
  concat (map (fun y => map (fun x => (x, y)) (range x0 x1)) (range y0 y1)).

Fixpoint paint (pixels : list (Z * Z)) (color : list Z) (f : SyntheticFrame) : outcome SyntheticFrame :=
  match pixels with
  | [] => Done f
  | (x, y) :: pixels' => f' ← set_pixel x y color f; paint pixels' color f'
  end.

Definition bit_color (timecode_us bit : Z) : list Z :=
  if Z.land (Z.shiftr timecode_us bit) 1 =? 1 then WHITE else BLACK.

(** The loop over the bits. *)
Fixpoint paint_bits (timecode_us : Z) (bits : list Z) (f : SyntheticFrame) : outcome SyntheticFrame :=
  match bits with
  | [] => Done f
  | bit :: bits' =>
      let x0 := bit * BIT_BLOCK_SIZE in
      f' ← paint (rectangle x0 (x0 + BIT_BLOCK_SIZE) 0 BIT_BLOCK_SIZE) (bit_color timecode_us bit) f;
      paint_bits timecode_us bits' f'
  end.

Definition generate_timecode_frame (w h timecode_us : Z) (background : list Z) : outcome SyntheticFrame :=
  let required_width := TIMECODE_BITS * BIT_BLOCK_SIZE in
  if (required_width <=? w) && (BIT_BLOCK_SIZE <=? h) then
    let frame := {| width := w; height := h;
                    rgb := replicate (Z.to_nat (wrap 32 (wrap 32 (w * h) * 3))) 0 |} in
    frame ← paint (rectangle 0 w 0 h) background frame;
    paint_bits timecode_us (range 0 TIMECODE_BITS) frame
  else Panicked.

(** The body of the loop of [extract_timecode]. *)
Definition extract_bit (f : SyntheticFrame) (value bit : Z) : outcome Z :=
  let cx := bit * BIT_BLOCK_SIZE + BIT_BLOCK_SIZE `div` 2 in
  let cy := BIT_BLOCK_SIZE `div` 2 in
  p ← get_pixel f cx cy;
  let brightness := fold_right Z.add 0 p in
  Done (if 3 * 128 <? brightness then Z.lor value (Z.shiftl 1 bit) else value).

Fixpoint extract_bits (f : SyntheticFrame) (bits : list Z) (value : Z) : outcome Z :=
  match bits with
  | [] => Done value
  | bit :: bits' => v ← extract_bit f value bit; extract_bits f bits' v
  end.

Definition extract_timecode (f : SyntheticFrame) : outcome Z :=
  extract_bits f (range 0 TIMECODE_BITS) 0.

(** * Lemmas *)

(** A frame whose pixels are all addressable at 32 bits. *)
Definition frame_ok (f : SyntheticFrame) : Prop :=
  0 < width f /\ 0 < height f /\ width f * height f * 3 < 2 ^ 32 /\
  Z.of_nat (length (rgb f)) = width f * height f * 3.

Definition inside (f : SyntheticFrame) (x y : Z) : Prop := 0 <= x < width f /\ 0 <= y < height f.

Lemma pixel_index_inside f x y :
  frame_ok f -> inside f x y ->
  pixel_index f x y = (y * width f + x) * 3 /\ 0 <= (y * width f + x) * 3 /\
  (y * width f + x) * 3 + 3 <= width f * height f * 3.
Proof.
  intros (Hw & Hh & Hs & Hl) [Hx Hy].
  assert (0 <= y * width f /\ y * width f + width f <= width f * height f) by nia.
  unfold pixel_index. rewrite (wrap_small 32 (y * width f)) by (unfold in_width; lia).
  rewrite (wrap_small 32 (y * width f + x)) by (unfold in_width; lia).
  rewrite wrap_small by (unfold in_width; lia). lia.
Qed.

(** A write and the pixels read after it. *)
Lemma set_pixel_ok f x y color :
  frame_ok f -> inside f x y -> length color = 3%nat ->
  exists f', set_pixel x y color f = Done f' /\ frame_ok f' /\
    width f' = width f /\ height f' = height f /\
    forall x' y', inside f x' y' ->
      get_pixel f' x' y' = if decide (x' = x /\ y' = y) then Done color else get_pixel f x' y'.
Proof.
  intros Hok Hin Hc. pose proof (pixel_index_inside f x y Hok Hin) as (Hi & H0 & H1).
  pose proof Hok as (Hw & Hh & Hs & Hl).
  unfold set_pixel. rewrite Hi. destruct (Z.leb_spec ((y * width f + x) * 3 + 3) (Z.of_nat (length (rgb f)))); [|lia].
  eexists. split; [done|]. split; [|split; [done|split; [done|]]].
  { unfold frame_ok. cbn. rewrite length_inserts. done. }
  intros x' y' Hin'. pose proof (pixel_index_inside f x' y' Hok Hin') as (Hi' & H0' & H1').
  unfold get_pixel. change (pixel_index _ x' y') with (pixel_index f x' y'). rewrite Hi'. cbn [rgb].
  rewrite length_inserts.
  destruct (Z.leb_spec ((y' * width f + x') * 3 + 3) (Z.of_nat (length (rgb f)))); [|lia].
  assert (forall k, 0 <= k < 3 ->
    list_inserts (Z.to_nat ((y * width f + x) * 3)) color (rgb f) !!! Z.to_nat ((y' * width f + x') * 3 + k)
    = if decide (x' = x /\ y' = y) then color !!! Z.to_nat k else rgb f !!! Z.to_nat ((y' * width f + x') * 3 + k))
    as Hk.
  { intros k Hk. rewrite !list_lookup_total_alt. case_decide as Hd.
    - destruct Hd as [-> ->]. rewrite list_lookup_inserts by lia. do 2 f_equal. lia.
    - assert (y' * width f + x' ≠ y * width f + x) as Hne.
      { destruct Hin, Hin'. intros E. apply Hd. assert (y' = y) as -> by nia. lia. }
      destruct (Z.lt_ge_cases ((y' * width f + x') * 3 + k) ((y * width f + x) * 3)).
      + rewrite list_lookup_inserts_lt by lia. done.
      + rewrite list_lookup_inserts_ge by lia. done. }
  pose proof (Hk 0 ltac:(lia)) as K0. rewrite Z.add_0_r in K0. rewrite K0, (Hk 1), (Hk 2) by lia.
  case_decide; [|done]. do 4 (destruct color as [|? color]; try done).
Qed.

Lemma paint_ok pixels color f :
  frame_ok f -> length color = 3%nat -> Forall (fun p => inside f p.1 p.2) pixels ->
  exists f', paint pixels color f = Done f' /\ frame_ok f' /\
    width f' = width f /\ height f' = height f /\
    forall x y, inside f x y ->
      get_pixel f' x y = if decide ((x, y) ∈ pixels) then Done color else get_pixel f x y.
Proof.
  intros Hok Hc Hp. revert f Hok Hp. induction pixels as [|[px py] pixels IH]; intros f Hok Hp.
  { exists f. do 4 (split; [done|]). intros x y _. by rewrite decide_False by set_solver. }
  apply Forall_cons in Hp as [H1 Hp]. cbn [fst snd] in H1.
  destruct (set_pixel_ok f px py color Hok H1 Hc) as (f1 & E1 & Hok1 & Hw & Hh & G1).
  assert (forall x y, inside f1 x y <-> inside f x y) as Hins by (intros; unfold inside; by rewrite Hw, Hh).
  destruct (IH f1 Hok1) as (f2 & E2 & Hok2 & Hw2 & Hh2 & G2).
  { eapply Forall_impl; [exact Hp|]. intros [x y]. apply Hins. }
  exists f2. cbn [paint]. rewrite E1. split; [exact E2|]. split; [done|].
  split; [congruence|]. split; [congruence|]. intros x y Hxy.
  rewrite G2 by (by apply Hins). rewrite G1 by done.
  repeat case_decide; try done; set_solver.
Qed.

Lemma elem_of_range a b x : x ∈ range a b <-> a <= x < b.
Proof. unfold range. rewrite elem_of_seqZ. lia. Qed.

Lemma elem_of_rectangle x0 x1 y0 y1 x y :
  (x, y) ∈ rectangle x0 x1 y0 y1 <-> x0 <= x < x1 /\ y0 <= y < y1.
Proof.
  unfold rectangle. rewrite list_elem_of_In, in_concat. setoid_rewrite in_map_iff.
  split.
  - intros (l & (y' & <- & Hy) & Hin). apply in_map_iff in Hin as (x' & [= -> ->] & Hx).
    apply list_elem_of_In, elem_of_range in Hx, Hy. done.
  - intros [Hx Hy]. eexists. split; [exists y; split; [reflexivity|]|].
    + by apply list_elem_of_In, elem_of_range.
    + apply in_map_iff. exists x. split; [done|]. by apply list_elem_of_In, elem_of_range.
Qed.

Lemma paint_rectangle x0 x1 y0 y1 color f :
  frame_ok f -> length color = 3%nat -> 0 <= x0 -> x1 <= width f -> 0 <= y0 -> y1 <= height f ->
  exists f', paint (rectangle x0 x1 y0 y1) color f = Done f' /\ frame_ok f' /\
    width f' = width f /\ height f' = height f /\
    forall x y, inside f x y ->
      get_pixel f' x y = if decide (x0 <= x < x1 /\ y0 <= y < y1) then Done color else get_pixel f x y.
Proof.
  intros Hok Hc Hx0 Hx1 Hy0 Hy1.
  destruct (paint_ok (rectangle x0 x1 y0 y1) color f Hok Hc) as (f' & E & Hok' & Hw & Hh & G).
  { apply Forall_forall. intros [x y] Hin. apply elem_of_rectangle in Hin. unfold inside. cbn. lia. }
  exists f'. split_and!; try done. intros x y Hin. rewrite G by done.
  pose proof (elem_of_rectangle x0 x1 y0 y1 x y) as He.
  repeat case_decide; try done; tauto.
Qed.

Lemma bit_color_length t b : length (bit_color t b) = 3%nat.
Proof. unfold bit_color. by destruct (_ =? _). Qed.

Lemma bit_color_testbit t b : 0 <= b -> bit_color t b = if Z.testbit t b then WHITE else BLACK.
Proof.
  intros Hb. unfold bit_color. change 1 with (Z.ones 1) at 1. rewrite Z.land_ones by lia.
  rewrite Z.shiftr_div_pow2, <- Z.testbit_spec' by done. by destruct (Z.testbit t b).
Qed.

(** After the bits from [a] up to 64 were painted. *)
Lemma paint_bits_ok t n a f :
  frame_ok f -> 0 <= a -> a + Z.of_nat n = 64 -> 512 <= width f -> 8 <= height f ->
  exists f', paint_bits t (seqZ a (Z.of_nat n)) f = Done f' /\ frame_ok f' /\
    width f' = width f /\ height f' = height f /\
    forall x y, inside f x y ->
      get_pixel f' x y =
        if decide (a * 8 <= x < 512 /\ 0 <= y < 8) then Done (bit_color t (x `div` 8)) else get_pixel f x y.
Proof.
  revert a f. induction n as [|n IH]; intros a f Hok Ha Hn Hw8 Hh8.
  { exists f. do 4 (split; [done|]). intros x y _. by rewrite decide_False by lia. }
  rewrite seqZ_cons by lia. cbn [paint_bits]. unfold BIT_BLOCK_SIZE.
  destruct (paint_rectangle (a * 8) (a * 8 + 8) 0 8 (bit_color t a) f) as (f1 & E1 & Hok1 & Hw & Hh & G1);
    [done|apply bit_color_length|lia..|].
  rewrite E1. cbn [mbind outcome_bind].
  replace (Z.pred (Z.of_nat (S n))) with (Z.of_nat n) by lia.
  destruct (IH (Z.succ a) f1 Hok1) as (f2 & E2 & Hok2 & Hw2 & Hh2 & G2); [lia..|].
  exists f2. split; [done|]. split; [done|]. split; [congruence|]. split; [congruence|].
  intros x y Hxy. rewrite G2 by (unfold inside in *; by rewrite Hw, Hh). rewrite G1 by done.
  destruct (decide (Z.succ a * 8 <= x < 512 /\ 0 <= y < 8)).
  - rewrite decide_True by lia. done.
  - destruct (decide (a * 8 <= x < a * 8 + 8 /\ 0 <= y < 8)).
    + rewrite decide_True by lia. do 2 f_equal. lia.
    + rewrite decide_False by lia. done.
Qed.

(** A pixel that is read as the bit [b]. *)
Definition reads_as (p : list Z) (b : bool) : Prop := (3 * 128 <? fold_right Z.add 0 p) = b.

Lemma extract_bits_ok f t n a v :
  0 <= a -> a + Z.of_nat n = 64 ->
  (forall b, 0 <= b < 64 -> exists p, get_pixel f (b * 8 + 4) 4 = Done p /\ reads_as p (Z.testbit t b)) ->
  exists v', extract_bits f (seqZ a (Z.of_nat n)) v = Done v' /\
    forall b, 0 <= b -> Z.testbit v' b = if decide (a <= b < 64) then Z.testbit v b || Z.testbit t b else Z.testbit v b.
Proof.
  intros Ha Hn Hp. revert a v Ha Hn. induction n as [|n IH]; intros a v Ha Hn.
  { exists v. split; [done|]. intros b Hb. by rewrite decide_False by lia. }
  rewrite seqZ_cons by lia. cbn [extract_bits]. unfold extract_bit, BIT_BLOCK_SIZE.
  destruct (Hp a ltac:(lia)) as (p & Ep & Er). change (8 `div` 2) with 4. rewrite Ep. cbn [mbind outcome_bind].
  replace (Z.pred (Z.of_nat (S n))) with (Z.of_nat n) by lia. rewrite Er.
  set (v1 := if Z.testbit t a then _ else _).
  destruct (IH (Z.succ a) v1) as (v' & E & Hb'); [lia..|].
  exists v'. split; [exact E|]. intros b Hb. rewrite Hb' by done.
  assert (Z.testbit v1 b = if decide (b = a) then Z.testbit v b || Z.testbit t b else Z.testbit v b) as Hv1.
  { subst v1. destruct (Z.testbit t a) eqn:Ea; cbn iota.
    - rewrite Z.lor_spec, Z.shiftl_1_l. case_decide as Hd.
      + subst. rewrite Z.pow2_bits_true, Ea by done. done.
      + rewrite Z.pow2_bits_false by done. apply orb_false_r.
    - case_decide; [subst; by rewrite Ea, orb_false_r|done]. }
  rewrite Hv1. repeat case_decide; try lia; done.
Qed.

(** The timecode of a frame whose blocks are read as the bits of [t]. *)
Lemma extract_reads f t :
  0 <= t < 2 ^ 64 ->
  (forall b, 0 <= b < 64 -> exists p, get_pixel f (b * 8 + 4) 4 = Done p /\ reads_as p (Z.testbit t b)) ->
  extract_timecode f = Done t.
Proof.
  intros Ht Hp. unfold extract_timecode. destruct (extract_bits_ok f t 64 0 0) as (v & Ev & Hv); [lia..|done|].
  change (range 0 TIMECODE_BITS) with (seqZ 0 (Z.of_nat 64)). rewrite Ev. f_equal.
  apply Z.bits_inj'. intros b Hb'. rewrite Hv by done. rewrite Z.bits_0. cbn [orb].
  case_decide; [done|]. rewrite <- (Z.mod_small t (2 ^ 64)) by done.
  symmetry. apply Z.mod_pow2_bits_high. lia.
Qed.

Lemma generate_ok w h t background :
  length background = 3%nat -> 512 <= w -> 8 <= h -> w * h * 3 < 2 ^ 32 ->
  exists f, generate_timecode_frame w h t background = Done f /\ frame_ok f /\ width f = w /\ height f = h /\
    forall b, 0 <= b < 64 -> get_pixel f (b * 8 + 4) 4 = Done (bit_color t b).
Proof.
  intros Hb Hw Hh Hs. unfold generate_timecode_frame.
  change (TIMECODE_BITS * BIT_BLOCK_SIZE) with 512. change (BIT_BLOCK_SIZE <=? h) with (8 <=? h).
  destruct (Z.leb_spec 512 w), (Z.leb_spec 8 h); try lia. cbn [andb].
  rewrite (wrap_small 32 (w * h)) by (unfold in_width; nia).
  rewrite (wrap_small 32 (w * h * 3)) by (unfold in_width; nia).
  set (f0 := {| width := w; height := h; rgb := _ |}).
  assert (frame_ok f0) as Hok0.
  { unfold frame_ok. subst f0. cbn [width height rgb]. rewrite length_replicate. nia. }
  destruct (paint_rectangle 0 w 0 h background f0) as (f1 & E1 & Hok1 & Hw1 & Hh1 & _); [subst f0; cbn; done || lia..|].
  rewrite E1. cbn [mbind outcome_bind].
  change (width f0) with w in *. change (height f0) with h in *.
  destruct (paint_bits_ok t 64 0 f1) as (f2 & E2 & Hok2 & Hw2 & Hh2 & G2); [done|lia..|].
  exists f2. split; [exact E2|]. do 3 (split; [done || congruence|]).
  intros b Hb'. rewrite G2 by (unfold inside; lia). rewrite decide_True by lia. do 2 f_equal. lia.
Qed.

Lemma bit_color_reads t b : 0 <= b -> reads_as (bit_color t b) (Z.testbit t b).
Proof. intros Hb. rewrite bit_color_testbit by done. by destruct (Z.testbit t b). Qed.

(** A frame that differs from [f] by at most [loss] in every byte. *)
Definition close (loss : Z) (f f' : SyntheticFrame) : Prop :=
  width f' = width f /\ height f' = height f /\ Forall2 (fun a b => Z.abs (a - b) <= loss) (rgb f) (rgb f').

Lemma close_pixel loss f f' x y p :
  0 <= loss -> close loss f f' -> get_pixel f x y = Done p ->
  exists p', get_pixel f' x y = Done p' /\ Forall2 (fun a b => Z.abs (a - b) <= loss) p p'.
Proof.
  intros Hl (Hw & Hh & Hc). unfold get_pixel, pixel_index. rewrite Hw, <- (Forall2_length _ _ _ Hc).
  destruct (_ <=? _); [|done]. intros [= <-]. eexists. split; [done|].
  assert (forall n : nat, Z.abs (rgb f !!! n - rgb f' !!! n) <= loss) as Hn.
  { intros n. rewrite !list_lookup_total_alt. apply (Forall2_lookup (fun a b => Z.abs (a - b) <= loss)) with (i := n) in Hc.
    destruct Hc as [a b Hab|]; cbn; [done|lia]. }
  by repeat constructor.
Qed.

Lemma close_reads (p p' : list Z) (b : bool) :
  p = (if b then WHITE else BLACK) -> Forall2 (fun a b => Z.abs (a - b) <= 126) p p' -> reads_as p' b.
Proof.
  intros -> Hf. unfold reads_as. destruct b; unfold WHITE, BLACK in Hf;
    repeat match goal with H : Forall2 _ (_ :: _) _ |- _ => apply Forall2_cons_inv_l in H as (? & ? & ? & H & ->)
      | H : Forall2 _ [] _ |- _ => apply Forall2_nil_inv_l in H as -> end; cbn [fold_right]; zcases; done || lia.
Qed.

(** * Properties *)

(** A timecode survives embedding.  For every 64-bit timecode, every background
    and every frame large enough to hold the row of blocks and small enough to
    be addressed at 32 bits, generating a frame and extracting the timecode
    succeed and return it; a frame too small is refused. *)
Theorem timecode_roundtrip w h t background :
  0 <= t < 2 ^ 64 -> length background = 3%nat -> 0 <= w -> 0 <= h -> w * h * 3 < 2 ^ 32 ->
  if decide (512 <= w /\ 8 <= h) then
    exists f, generate_timecode_frame w h t background = Done f /\ extract_timecode f = Done t
  else generate_timecode_frame w h t background = Panicked.
Proof.
  intros Ht Hb Hw Hh Hs. case_decide as Hd.
  - destruct (generate_ok w h t background) as (f & E & _ & _ & _ & G); [done|lia..|].
    exists f. split; [done|]. apply extract_reads; [done|]. intros b Hb'.
    eexists. split; [by apply G|]. apply bit_color_reads. lia.
  - unfold generate_timecode_frame. change (TIMECODE_BITS * BIT_BLOCK_SIZE) with 512.
    change (BIT_BLOCK_SIZE <=? h) with (8 <=? h). destruct (Z.leb_spec 512 w), (Z.leb_spec 8 h); done || lia.
Qed.

(** A timecode survives a lossy codec: a frame of the same size whose bytes are
    each off by at most 126 still holds it. *)
Theorem timecode_survives_loss w h t background f f' :
  0 <= t < 2 ^ 64 -> length background = 3%nat -> 512 <= w -> 8 <= h -> w * h * 3 < 2 ^ 32 ->
  generate_timecode_frame w h t background = Done f -> close 126 f f' ->
  extract_timecode f' = Done t.
Proof.
  intros Ht Hb Hw Hh Hs Hg Hc. destruct (generate_ok w h t background) as (f0 & E & _ & _ & _ & G); [done..|].
  assert (f0 = f) as -> by congruence. apply extract_reads; [done|]. intros b Hb'.
  destruct (close_pixel 126 f f' (b * 8 + 4) 4 _ ltac:(lia) Hc (G b Hb')) as (p' & Ep & Hp').
  exists p'. split; [done|]. eapply close_reads; [|exact Hp']. apply bit_color_testbit. lia.
Qed.

Lemma timecode_roundtrip_witness :
  (0 <= 0x123456789ABCDEF0 < 2 ^ 64 /\ 512 * 8 * 3 < 2 ^ 32) /\
  exists f, generate_timecode_frame 512 8 0x123456789ABCDEF0 [9; 9; 9] = Done f /\
    extract_timecode f = Done 0x123456789ABCDEF0.
Proof.
  assert (0 <= 0x123456789ABCDEF0 < 2 ^ 64) as H1 by (split; by vm_compute).
  assert (512 * 8 * 3 < 2 ^ 32) as H2 by (by vm_compute).
  split; [done|].
  exact (timecode_roundtrip 512 8 0x123456789ABCDEF0 [9; 9; 9] H1 eq_refl ltac:(lia) ltac:(lia) H2).
Defined.

(** A codec that dims white. *)
Definition dim (loss : Z) (f : SyntheticFrame) : SyntheticFrame :=
  {| width := width f; height := height f; rgb := map (fun b => if 200 <? b then b - loss else b) (rgb f) |}.

Lemma dim_close loss f : 0 <= loss -> close loss f (dim loss f).
Proof.
  intros Hl. split; [done|]. split; [done|]. unfold dim. cbn [rgb]. induction (rgb f) as [|b l IH]; [constructor|].
  cbn [map]. constructor; [destruct (200 <? b); lia|done].
Qed.

Lemma timecode_survives_loss_witness :
  exists f, generate_timecode_frame 512 8 6 [9; 9; 9] = Done f /\ close 126 f (dim 126 f) /\
    extract_timecode (dim 126 f) = Done 6.
Proof.
  assert (0 <= 6 < 2 ^ 64) as H1 by lia. assert (512 <= 512) as H2 by lia. assert (8 <= 8) as H3 by lia.
  assert (512 * 8 * 3 < 2 ^ 32) as H4 by lia. assert (0 <= 126) as H5 by lia.
  assert (length [9; 9; 9] = 3%nat) as H6 by reflexivity.
  destruct (generate_ok 512 8 6 [9; 9; 9] H6 H2 H3 H4) as (f & E & _). exists f.
  pose proof (dim_close 126 f H5) as Hc.
  exact (conj E (conj Hc (timecode_survives_loss 512 8 6 [9; 9; 9] f (dim 126 f) H1 H6 H2 H3 H4 E Hc))).
Defined.

(** White off by 127 is not read as white any more. *)
Example more_loss_is_too_much : reads_as [129; 129; 129] true /\ reads_as [128; 128; 128] false.
Proof. done. Qed.
