(* ===== verification/AsyncTriples.v ===== *)
(** Reasoning about async code by pre- and postconditions.

    [triple P m Q R]: run from a state where [P] holds, [m] that completes with a
    value leaves it and a state where [Q] holds, and [m] that completes with an
    error leaves it and a state where [R] holds.  A wait that does not end, a
    timer that fires and a panic are not constrained. *)

From S2P Require Import Prelude.
From S2P Require Import Async.
From S2P Require Import Envelope.
From S2P Require Import StreamReader.
From S2P Require Import Connection.

Definition triple {S E A} (P : S -> Prop) (m : async S E A) (Q : A -> S -> Prop) (R : E -> S -> Prop) : Prop :=
  forall s, P s ->
    match m s with
    | (Ready (Ok x), s') => Q x s'
    | (Ready (Err e), s') => R e s'
    | _ => True
    end.

(** Any error will do. *)
Definition any_error {S E : Type} (e : E) (s : S) : Prop := True.

Section rules.
Context {S E : Type}.
Implicit Types (P : S -> Prop) (R : E -> S -> Prop).

Lemma triple_ok {A} P (m : async S E A) Q R s x s' :
  triple P m Q R -> P s -> m s = (Ready (Ok x), s') -> Q x s'.
Proof. intros H Hs Hm. specialize (H s Hs). by rewrite Hm in H. Qed.

Lemma triple_err {A} P (m : async S E A) Q R s e s' :
  triple P m Q R -> P s -> m s = (Ready (Err e), s') -> R e s'.
Proof. intros H Hs Hm. specialize (H s Hs). by rewrite Hm in H. Qed.

Lemma triple_ret {A} P (x : A) Q R : (forall s, P s -> Q x s) -> triple P (aret x) Q R.
Proof. intros H s Hs. by apply H. Qed.

Lemma triple_throw {A} P (e : E) (Q : A -> S -> Prop) R :
  (forall s, P s -> R e s) -> triple P (athrow e) Q R.
Proof. intros H s Hs. by apply H. Qed.

Lemma triple_lift {A} P (r : result E A) Q R :
  (forall s, P s -> match r with Ok x => Q x s | Err e => R e s end) -> triple P (alift r) Q R.
Proof. intros H s Hs. specialize (H s Hs). unfold alift. by destruct r. Qed.

Lemma triple_outcome {A} P (o : outcome A) Q R :
  (forall s x, P s -> o = Done x -> Q x s) -> triple P (aoutcome o) Q R.
Proof. intros H s Hs. unfold aoutcome. destruct o; [|done]. by apply H. Qed.

Lemma triple_get P (Q : S -> S -> Prop) R : (forall s, P s -> Q s s) -> triple P aget Q R.
Proof. intros H s Hs. by apply H. Qed.

Lemma triple_put P t (Q : unit -> S -> Prop) R : (forall s, P s -> Q tt t) -> triple P (aput t) Q R.
Proof. intros H s Hs. by eapply H. Qed.

(** The postcondition of the first is the precondition of the second. *)
Lemma triple_bind {A B} P (m : async S E A) (f : A -> async S E B) Q Q' R :
  triple P m Q R -> (forall x, triple (Q x) (f x) Q' R) -> triple P (m ≫= f) Q' R.
Proof.
  intros Hm Hf s Hs. specialize (Hm s Hs). unfold mbind, async_bind, abind.
  destruct (m s) as [[[x|e]| | |] s']; try done. by apply Hf.
Qed.

Lemma triple_outcome_bind {A B} P (o : outcome A) (f : A -> async S E B) Q R :
  (forall x, o = Done x -> triple P (f x) Q R) -> triple P (aoutcome o ≫= f) Q R.
Proof.
  intros H s Hs. unfold mbind, async_bind, abind, aoutcome. destruct o as [x|]; [|done]. by apply (H x).
Qed.

(** The state behind a bind, however far it gets. *)
Lemma bind_state {A B} (m : async S E A) (f : A -> async S E B) s (Q : S -> Prop) :
  Q (m s).2 -> (forall x s1, m s = (Ready (Ok x), s1) -> Q (f x s1).2) -> Q ((m ≫= f) s).2.
Proof.
  intros Hm Hf. unfold mbind, async_bind, abind. destruct (m s) as [[[x|e]| | |] s1]; try done. by apply Hf.
Qed.

(** The first two steps taken together. *)
Lemma triple_assoc {A B C} P (m : async S E A) (f : A -> async S E B) (g : B -> async S E C) Q Q' R :
  triple P (m ≫= f) Q R -> (forall y, triple (Q y) (g y) Q' R) -> triple P (m ≫= (fun x => f x ≫= g)) Q' R.
Proof.
  intros Hm Hg s Hs. specialize (Hm s Hs). unfold mbind, async_bind, abind in *.
  destruct (m s) as [[[x|e]| | |] s1]; try done.
  destruct (f x s1) as [[[y|e]| | |] s2]; try done. by apply Hg.
Qed.

Lemma triple_conseq {A} P P' (m : async S E A) Q Q' R R' :
  triple P' m Q' R' -> (forall s, P s -> P' s) -> (forall x s, Q' x s -> Q x s) ->
  (forall e s, R' e s -> R e s) -> triple P m Q R.
Proof.
  intros H HP HQ HR s Hs. specialize (H s (HP s Hs)).
  destruct (m s) as [[[x|e]| | |] s']; auto.
Qed.

(** An error's state forgotten. *)
Lemma triple_any {A} P (m : async S E A) Q R : triple P m Q R -> triple P m Q any_error.
Proof. intros H s Hs. specialize (H s Hs). by destruct (m s) as [[[x|e]| | |] s']. Qed.

Lemma triple_post {A} P (m : async S E A) Q Q' R :
  triple P m Q R -> (forall x s, Q x s -> Q' x s) -> triple P m Q' R.
Proof. intros H HQ s Hs. specialize (H s Hs). destruct (m s) as [[[x|e]| | |] s']; auto. Qed.

Lemma triple_pre {A} P P' (m : async S E A) Q R :
  triple P' m Q R -> (forall s, P s -> P' s) -> triple P m Q R.
Proof. intros H HP s Hs. by apply H, HP. Qed.

(** A function of the state it starts in. *)
Lemma triple_state {A} P (m : S -> async S E A) Q R :
  (forall t, P t -> triple (fun s => s = t) (m t) Q R) -> triple P (fun s => m s s) Q R.
Proof. intros H s Hs. exact (H s Hs s eq_refl). Qed.

Lemma triple_false {A} (m : async S E A) Q R : triple (fun _ => False) m Q R.
Proof. by intros s []. Qed.

Lemma triple_for {A} P (f : A -> async S E unit) xs R :
  (forall x, x ∈ xs -> triple P (f x) (fun _ => P) R) -> triple P (afor f xs) (fun _ => P) R.
Proof.
  induction xs as [|x xs IH]; intros Hf; [apply triple_ret; auto|].
  cbn [afor]. eapply triple_bind; [apply Hf; by left|]. intros u. cbv beta. apply IH. intros y Hy. apply Hf. by right.
Qed.

Lemma triple_timeout {A} P (e : E) (m : async S E A) Q (R : E -> S -> Prop) :
  triple P m Q R -> (forall s, R e s) -> triple P (atimeout e m) Q R.
Proof.
  intros H He s Hs. specialize (H s Hs). unfold atimeout. by destruct (m s) as [[[x|e']| | |] s'].
Qed.
End rules.

Lemma triple_map_err {S E F A} P (f : E -> F) (m : async S E A) Q (R : F -> S -> Prop) :
  triple P m Q (fun e s => R (f e) s) -> triple P (amap_err f m) Q R.
Proof.
  intros H s Hs. specialize (H s Hs). unfold amap_err. by destruct (m s) as [[[x|e]| | |] s'].
Qed.

Lemma triple_try {S E F A} P (m : async S E A) (Q : result E A -> S -> Prop) (R : F -> S -> Prop) :
  triple P m (fun x => Q (Ok x)) (fun e => Q (Err e)) -> triple P (atry m) Q R.
Proof.
  intros H s Hs. specialize (H s Hs). unfold atry. by destruct (m s) as [[[x|e]| | |] s'].
Qed.

(** Running on a component. *)
Lemma triple_zoom {S T E A} (P : S -> Prop) (get : S -> T) set (m : async T E A) Q (R : E -> S -> Prop) :
  (forall s, P s -> triple (fun t => t = get s) m (fun x t => Q x (set t s)) (fun e t => R e (set t s))) ->
  triple P (azoom get set m) Q R.
Proof.
  intros H s Hs. specialize (H s Hs (get s) eq_refl). unfold azoom.
  by destruct (m (get s)) as [[[x|e]| | |] t].
Qed.

(** Running on a local variable. *)
Lemma triple_local {S T E F A} (P : S -> Prop) (t : T) (m : async T E A) Q (R : F -> S -> Prop) :
  (forall s, P s -> triple (fun t' => t' = t) m (fun x t' => Q (Ok x, t') s) (fun e t' => Q (Err e, t') s)) ->
  triple P (alocal t m) Q R.
Proof.
  intros H s Hs. specialize (H s Hs t eq_refl). unfold alocal.
  by destruct (m t) as [[[x|e]| | |] t'].
Qed.

Lemma triple_local_try {S T E A} (P : S -> Prop) (t : T) (m : async T E A) Q (R : E -> S -> Prop) :
  (forall s, P s -> triple (fun t' => t' = t) m (fun x t' => Q (x, t') s) (fun e _ => R e s)) ->
  triple P (alocal_try t m) Q R.
Proof.
  intros H s Hs. specialize (H s Hs t eq_refl).
  unfold alocal_try, alocal, mbind, async_bind, abind, alift, aret.
  by destruct (m t) as [[[x|e]| | |] t'].
Qed.

(** ** Invariants *)

(** However far [m] gets, [I] holds as before. *)
Definition preserves {S E A} (I : S -> Prop) (m : async S E A) : Prop := forall s, I s -> I (m s).2.

Section preserving.
Context {S : Type} (I : S -> Prop).

Lemma preserves_triple {E A} (m : async S E A) : preserves I m -> triple I m (fun _ => I) (fun _ => I).
Proof. intros H s Hs. specialize (H s Hs). by destruct (m s) as [[[x|e]| | |] s']. Qed.

Lemma triple_and {E A} P (m : async S E A) Q R :
  triple P m Q R -> preserves I m -> triple (fun s => P s /\ I s) m (fun x s => Q x s /\ I s) R.
Proof.
  intros Ht Hp s [Hs Hi]. specialize (Ht s Hs). specialize (Hp s Hi). by destruct (m s) as [[[x|e]| | |] s'].
Qed.

Lemma preserves_ret {E A} (x : A) : preserves I (aret (E := E) x).
Proof. by intros s. Qed.

Lemma preserves_throw {E A} (e : E) : preserves I (athrow (A := A) e).
Proof. by intros s. Qed.

Lemma preserves_lift {E A} (r : result E A) : preserves I (alift r).
Proof. by intros s. Qed.

Lemma preserves_outcome {E A} (o : outcome A) : preserves I (aoutcome (E := E) o).
Proof. intros s. by destruct o. Qed.

Lemma preserves_get {E} : preserves I (aget (E := E)).
Proof. by intros s. Qed.

Lemma preserves_bind {E A B} (m : async S E A) (f : A -> async S E B) :
  preserves I m -> (forall x, preserves I (f x)) -> preserves I (m ≫= f).
Proof.
  intros Hm Hf s Hs. specialize (Hm s Hs). unfold mbind, async_bind, abind.
  destruct (m s) as [[[x|e]| | |] s']; try done. by apply Hf.
Qed.

Lemma preserves_map_err {E F A} (f : E -> F) (m : async S E A) : preserves I m -> preserves I (amap_err f m).
Proof. intros H s Hs. specialize (H s Hs). unfold amap_err. by destruct (m s) as [[[x|e]| | |] s']. Qed.

Lemma preserves_try {E F A} (m : async S E A) : preserves I m -> preserves I (atry (F := F) m).
Proof. intros H s Hs. specialize (H s Hs). unfold atry. by destruct (m s) as [[[x|e]| | |] s']. Qed.

Lemma preserves_timeout {E A} (e : E) (m : async S E A) : preserves I m -> preserves I (atimeout e m).
Proof. intros H s Hs. specialize (H s Hs). unfold atimeout. by destruct (m s) as [[[x|e']| | |] s']. Qed.

Lemma preserves_for {E A} (f : A -> async S E unit) xs :
  (forall x, preserves I (f x)) -> preserves I (afor f xs).
Proof.
  intros Hf. induction xs as [|x xs IH]; [apply preserves_ret|]. by apply preserves_bind.
Qed.

Lemma preserves_local {T E F A} (t : T) (m : async T E A) : preserves I (@alocal S T E F A t m).
Proof. intros s Hs. unfold alocal. by destruct (m t) as [[[x|e]| | |] t']. Qed.

Lemma preserves_local_try {T E A} (t : T) (m : async T E A) : preserves I (@alocal_try S T E A t m).
Proof.
  apply preserves_bind; [apply preserves_local|]. intros [r t'].
  apply preserves_bind; [apply preserves_lift|]. intros x. apply preserves_ret.
Qed.

Lemma preserves_and (J : S -> Prop) {E A} (m : async S E A) :
  preserves I m -> preserves J m -> preserves (fun s => I s /\ J s) m.
Proof. intros Hi Hj s [Hs1 Hs2]. split; [by apply Hi|by apply Hj]. Qed.

(** A part of the state that [I] does not speak of. *)
Lemma preserves_zoom {T E A} (get : S -> T) set (m : async T E A) :
  (forall s t, I s -> I (set t s)) -> preserves I (azoom get set m).
Proof. intros H s Hs. unfold azoom. destruct (m (get s)) as [p t]. by apply H. Qed.

(** One that it does. *)
Lemma preserves_zoom_in {T E A} (J : T -> Prop) (get : S -> T) set (m : async T E A) :
  preserves J m -> (forall s, I s -> J (get s)) -> (forall s t, I s -> J t -> I (set t s)) ->
  preserves I (azoom get set m).
Proof.
  intros Hm Hg Ht s Hs. specialize (Hm (get s) (Hg s Hs)). unfold azoom.
  destruct (m (get s)) as [p t]. by apply Ht.
Qed.
End preserving.

(** Walks through a function; the hint database [preserves] has the lemmas of its calls. *)
Create HintDb preserves.
#[export] Hint Constants Opaque : preserves.
Ltac preserve :=
  repeat (cbv beta zeta;
    lazymatch goal with
    | |- forall _, _ => intros ?
    | |- preserves _ (_ ≫= _) => apply preserves_bind
    | |- preserves _ (aret _) => apply preserves_ret
    | |- preserves _ (athrow _) => apply preserves_throw
    | |- preserves _ (alift _) => apply preserves_lift
    | |- preserves _ (aoutcome _) => apply preserves_outcome
    | |- preserves _ aget => apply preserves_get
    | |- preserves _ (alocal _ _) => apply preserves_local
    | |- preserves _ (alocal_try _ _) => apply preserves_local_try
    | |- preserves _ (atimeout _ _) => apply preserves_timeout
    | |- preserves _ (amap_err _ _) => apply preserves_map_err
    | |- preserves _ (atry _) => apply preserves_try
    | |- preserves _ (match ?x with _ => _ end) => destruct x
    | |- preserves _ _ => solve [auto with preserves nocore]
    end).

(** What [m] preserves holds before the rest. *)
Lemma triple_bind_keep {S E A B} P (m : async S E A) (f : A -> async S E B) Q :
  preserves P m -> (forall x, triple P (f x) Q any_error) -> triple P (m ≫= f) Q any_error.
Proof. intros Hm Hf. eapply triple_bind; [eapply triple_any, preserves_triple, Hm|done]. Qed.

(** ** Total correctness *)

(** From a state where [P] holds, [m] comes to a result: it neither waits for good
    nor panics; a value comes with [Q]. *)
Definition total {S E A} (P : S -> Prop) (m : async S E A) (Q : A -> S -> Prop) : Prop :=
  forall s, P s ->
    match m s with
    | (Ready (Ok x), s') => Q x s'
    | (Ready (Err _), _) => True
    | _ => False
    end.

Section total_rules.
Context {S E : Type}.
Implicit Types (P : S -> Prop).

Lemma total_ret {A} P (x : A) Q : (forall s, P s -> Q x s) -> total P (aret (E := E) x) Q.
Proof. intros H s Hs. by apply H. Qed.

Lemma total_throw {A} P (e : E) (Q : A -> S -> Prop) : total P (athrow e) Q.
Proof. by intros s Hs. Qed.

Lemma total_lift {A} P (r : result E A) Q : (forall s x, P s -> r = Ok x -> Q x s) -> total P (alift r) Q.
Proof. intros H s Hs. unfold alift. destruct r; [by apply H|done]. Qed.

Lemma total_bind {A B} P (m : async S E A) (f : A -> async S E B) Q Q' :
  total P m Q -> (forall x, total (Q x) (f x) Q') -> total P (m ≫= f) Q'.
Proof.
  intros Hm Hf s Hs. specialize (Hm s Hs). unfold mbind, async_bind, abind.
  destruct (m s) as [[[x|e]| | |] s']; try done. by apply Hf.
Qed.

(** Behind [aget] the state is known. *)
Lemma total_get {A} P (f : S -> async S E A) Q :
  (forall s, P s -> total (fun s' => s' = s) (f s) Q) -> total P (aget ≫= f) Q.
Proof. intros H s Hs. by apply (H s Hs s). Qed.

Lemma total_conseq {A} P P' (m : async S E A) (Q Q' : A -> S -> Prop) :
  total P m Q -> (forall s, P' s -> P s) -> (forall x s, Q x s -> Q' x s) -> total P' m Q'.
Proof.
  intros Hm Hp Hq s Hs. specialize (Hm s (Hp s Hs)). destruct (m s) as [[[x|e]| | |] s']; try done. by apply Hq.
Qed.

Lemma total_map_err {F A} P (f : E -> F) (m : async S E A) Q : total P m Q -> total P (amap_err f m) Q.
Proof.
  intros Hm s Hs. specialize (Hm s Hs). unfold amap_err. by destruct (m s) as [[[x|e]| | |] s'].
Qed.

Lemma total_ready {A} P (m : async S E A) Q s : total P m Q -> P s -> exists r, (m s).1 = Ready r.
Proof. intros Hm Hs. specialize (Hm s Hs). destruct (m s) as [[r| | |] s']; [by exists r|done..]. Qed.
End total_rules.

(** ** Writing *)

Section writing.
Context `{Transport}.

(** What was accepted before an error is a part of what was to be written. *)
Lemma triple_write_all timed bs b :
  triple (fun s => sent s = b) (write_all timed bs) (fun _ s => sent s = b ++ bs)
    (fun _ s => exists n, sent s = b ++ take n bs).
Proof. intros s <-. unfold write_all. destruct (write_results s) as [|[] ws]; eauto. by destruct timed. Qed.

Lemma triple_write_envelope timed t p b :
  triple (fun s => sent s = b) (write_envelope timed t p) (fun _ s => sent s = b ++ frame t p)
    (fun _ s => exists n, sent s = b ++ take n (frame t p)).
Proof.
  apply triple_outcome_bind. intros buf Hb. unfold frame. rewrite Hb. apply triple_write_all.
Qed.
End writing.

#[export] Hint Resolve triple_false : sardp.
