(* ===== verification/ServerVideo.v ===== *)
(** Where a server session's video frames come from and how they reach the
    client: the model of [FrameSource], [next_frame], [next_idr_frame],
    [send_sourced_frame], [open_generation] and [reopen_video_generation] in
    [src/sardp-cli/src/bin/sardp-server.rs].

    The encoder ([ffmpeg] in a blocking task) is the parameter [encode_task]; the
    desktop source is the script of the frames its worker delivers. *)

From S2P Require Import Prelude.
From S2P Require Import ReasonCode.
From S2P Require Import Async.
From S2P Require Import StreamReader.
From S2P Require Import Connection.
From S2P Require Import Messages.
From S2P Require Import MessageCodecs.
From S2P Require TimecodeFrame.
From S2P Require FrameSource.
From S2P Require VideoSm.
From S2P Require VideoChannel.
From S2P Require VideoSession.
From S2P Require ConnError.
From S2P Require Import AsyncTriples.

Section server_video.
Context `{Transport}.
Context `{!Cbor VideoStreamGeneration, !Cbor EncoderConfig, !Cbor VideoFrameHeader}.
Context {EncodeError JoinError : Type}.

#[local] Notation conn_error := (@ConnError.ConnError _ EncodeError JoinError).

(** What the [n]-th call of [clock::now_us] returns. *)
Variable clock : nat -> Z.

(** What awaiting [spawn_blocking] of [encode_single_frame_idr] leads to; [None]
    when it does not finish. *)
Variable encode_task : TimecodeFrame.SyntheticFrame -> option (result JoinError (result EncodeError (list Z))).

(** * Definitions *)

(** What awaiting the desktop source's next frame yields. *)
Inductive desktop_event :=
| DesktopFrame (f : FrameSource.EncodedFrame)
| DesktopStopped
| DesktopElapsed.

Inductive FrameSource :=
| Synthetic (width height : Z)
| Desktop (coming : list desktop_event) (idr_requests : nat).

Record SourcedFrame := {
  bytes : list Z;
  is_idr : bool;
  sf_capture_ts : Z;
  sf_encode_done_ts : Z;
}.

Definition MAX_FRAMES_TO_SKIP_FOR_IDR : nat := 120.

(** The connection, the source, and how often the clock was read. *)
Record media := {
  connection : Connection;
  frame_source : FrameSource;
  ticks : nat;
}.

Definition now_us {E} : async media E Z := fun m =>
  (Ready (Ok (clock (ticks m))),
   {| connection := connection m; frame_source := frame_source m; ticks := S (ticks m) |}).

Definition on_connection {E A} : async Connection E A -> async media E A :=
  azoom connection (fun c m => {| connection := c; frame_source := frame_source m; ticks := ticks m |}).

(** [desktop.next_frame().await]: [None] once the worker has stopped. *)
Fixpoint recv_desktop (timed : bool) (coming : list desktop_event) :
    poll conn_error (option FrameSource.EncodedFrame) * list desktop_event :=
  match coming with
  | [] => (Pending, [])
  | DesktopFrame f :: coming' => (Ready (Ok (Some f)), coming')
  | DesktopStopped :: _ => (Ready (Ok None), coming)
  | DesktopElapsed :: coming' => if timed then (Elapsed, coming') else recv_desktop timed coming'
  end.

Definition next_encoded (timed : bool) : async media conn_error (option FrameSource.EncodedFrame) := fun m =>
  match frame_source m with
  | Desktop coming idr_requests =>
      let '(p, coming') := recv_desktop timed coming in
      (p, {| connection := connection m; frame_source := Desktop coming' idr_requests; ticks := ticks m |})
  | Synthetic _ _ => (Pending, m)
  end.

Definition sourced (f : FrameSource.EncodedFrame) : SourcedFrame :=
  {| bytes := FrameSource.annex_b f; is_idr := FrameSource.ef_is_idr f;
     sf_capture_ts := FrameSource.ef_capture_ts f; sf_encode_done_ts := FrameSource.ef_encode_done_ts f |}.

(** [spawn_blocking(..).await??]. *)
Definition await_encode (timed : bool) (frame : TimecodeFrame.SyntheticFrame) :
    async media conn_error (list Z) := fun m =>
  match encode_task frame with
  | None => (if timed then Elapsed else Pending, m)
  | Some (Err e) => (Ready (Err (ConnError.Join e)), m)
  | Some (Ok (Err e)) => (Ready (Err (ConnError.Encode e)), m)
  | Some (Ok (Ok bytes)) => (Ready (Ok bytes), m)
  end.

(** [timed] where the caller has armed a timeout around the call. *)
Definition next_frame (timed : bool) : async media conn_error (option SourcedFrame) := fun m =>
  match frame_source m with
  | Synthetic width height =>
      (capture ← now_us;
       frame ← aoutcome (TimecodeFrame.generate_timecode_frame width height capture [40; 40; 40]);
       bytes ← await_encode timed frame;
       encode_done ← now_us;
       aret (Some {| bytes := bytes; is_idr := true; sf_capture_ts := capture;
                     sf_encode_done_ts := encode_done |})) m
  | Desktop coming idr_requests =>
      (f ← next_encoded timed;
       aret (option_map sourced f)) m
  end.

(** [desktop.request_idr()]. *)
Definition request_idr {E} : async media E unit := fun m =>
  match frame_source m with
  | Desktop coming n =>
      (Ready (Ok tt), {| connection := connection m; frame_source := Desktop coming (S n); ticks := ticks m |})
  | Synthetic _ _ => aret tt m
  end.

(** The loop of [next_idr_frame]. *)
Fixpoint skip_to_idr (timed : bool) (attempts : nat) : async media conn_error SourcedFrame :=
  match attempts with
  | O => athrow (ConnError.Capture "no IDR from the encoder within 120 frames")
  | S attempts' =>
      f ← next_frame timed;
      match f with
      | Some frame => if is_idr frame then aret frame else skip_to_idr timed attempts'
      | None => athrow (ConnError.Capture "desktop capture stopped")
      end
  end.

Definition next_idr_frame (timed : bool) : async media conn_error SourcedFrame :=
  _ ← request_idr;
  skip_to_idr timed MAX_FRAMES_TO_SKIP_FOR_IDR.

Definition send_sourced_frame (generation frame_id width height : Z) (frame : SourcedFrame) :
    async SendStream conn_error unit :=
  let flags := if is_idr frame then VIDEO_FRAME_FLAG_IDR else 0 in
  amap_err ConnError.Video
    (VideoSession.send_video_frame generation frame_id 1 flags (sf_capture_ts frame)
       (sf_encode_done_ts frame) width height (bytes frame)).

(** Whether the frame is self-contained only decides on a warning in the log. *)
Definition open_generation (timed : bool) (generation config_id : Z) (encoder_config : EncoderConfig) :
    async media conn_error SendStream :=
  idr ← next_idr_frame timed;
  '(send, _) ← on_connection (amap_err ConnError.Video
    (VideoSession.open_video_instance timed 0 generation config_id encoder_config (bytes idr)
       (sf_capture_ts idr) (sf_encode_done_ts idr)));
  aret send.

(** A session's video: its channel, the stream of the current instance, the
    streams it has reset, and the number of the next frame. *)
Record video := {
  env : media;
  video_channel : VideoChannel.VideoChannel;
  video_send : SendStream;
  reset_streams : list SendStream;
  frame_id : Z;
}.

Definition on_env {E A} : async media E A -> async video E A :=
  azoom env (fun e v => {| env := e; video_channel := video_channel v; video_send := video_send v;
                           reset_streams := reset_streams v; frame_id := frame_id v |}).

Definition on_channel {E A} : async VideoChannel.VideoChannel E A -> async video E A :=
  azoom video_channel (fun c v => {| env := env v; video_channel := c; video_send := video_send v;
                                     reset_streams := reset_streams v; frame_id := frame_id v |}).

Definition on_video_send {E A} : async SendStream E A -> async video E A :=
  azoom video_send (fun s v => {| env := env v; video_channel := video_channel v; video_send := s;
                                  reset_streams := reset_streams v; frame_id := frame_id v |}).

(** [frame_id = id]. *)
Definition set_frame_id {E} (id : Z) : async video E unit := fun v =>
  (Ready (Ok tt), {| env := env v; video_channel := video_channel v; video_send := video_send v;
                     reset_streams := reset_streams v; frame_id := id |}).

(** The stream of the new instance takes the place of the old one, which is reset. *)
Definition reset_old {E} : async video E unit := fun v =>
  (Ready (Ok tt), {| env := env v; video_channel := video_channel v; video_send := video_send v;
                     reset_streams := reset_streams v ++ [video_send v]; frame_id := frame_id v |}).

Definition set_video_send {E} (s : SendStream) : async video E unit := fun v =>
  (Ready (Ok tt), {| env := env v; video_channel := video_channel v; video_send := s;
                     reset_streams := reset_streams v; frame_id := frame_id v |}).

(** [channel.op()?]. *)
Definition channel_op {A} (op : VideoChannel.VideoChannel -> result VideoSm.ProtocolViolation A * VideoChannel.VideoChannel) :
    async video conn_error A :=
  on_channel (fun c =>
    let '(r, c') := op c in
    (Ready (map_err (fun v => ConnError.Violation (VideoSm.pv_reason v)) r), c')).

(** The caller's [video_send = reopen_video_generation(..).await?] and
    [frame_id = 1]. *)
Definition reopen_video_generation (encoder_config : EncoderConfig) : async video conn_error unit :=
  _ ← reset_old;
  new_generation ← on_channel (fun c =>
    let '(g, c') := VideoChannel.prepare_reopen c in (Ready (Ok g), c'));
  send ← atimeout (ConnError.Violation PROTOCOL_VIDEO_CONFIGURING_TIMEOUT)
           (on_env (open_generation true new_generation 1 encoder_config));
  _ ← channel_op VideoChannel.mark_instance_streaming;
  _ ← set_video_send send;
  set_frame_id 1.

(** A frame of the source on the current instance's stream. *)
Definition send_next (encoder_config : EncoderConfig) (frame : SourcedFrame) : async video conn_error unit :=
  v ← aget;
  _ ← on_video_send (send_sourced_frame (VideoChannel.generation (video_channel v)) (frame_id v)
        (ec_width encoder_config) (ec_height encoder_config) frame);
  set_frame_id (wrap 64 (frame_id v + 1)).

(** * Lemmas *)

(** ** What a stream of an instance carries *)

Definition sourced_header (gen id : Z) (config : EncoderConfig) (f : SourcedFrame) : VideoFrameHeader :=
  {| vfh_generation := gen; Messages.frame_id := id; vfh_config_id := 1;
     flags := if is_idr f then VIDEO_FRAME_FLAG_IDR else 0; capture_ts := sf_capture_ts f;
     encode_done_ts := sf_encode_done_ts f; vfh_width := ec_width config; vfh_height := ec_height config;
     payload_len := Z.of_nat (length (bytes f)) |}.

(** Frames under the numbers [k], [k + 1], ... *)
Fixpoint numbered (gen : Z) (config : EncoderConfig) (k : nat) (fs : list SourcedFrame) :
    list (VideoFrameHeader * list Z) :=
  match fs with
  | [] => []
  | f :: fs => (sourced_header gen (wrap 64 (Z.of_nat k)) config f, bytes f) :: numbered gen config (S k) fs
  end.

(** The stream holds the intro of generation [gen] with an IDR, and behind it [n]
    frames of that generation, numbered from 1. *)
Definition carries (gen : Z) (config : EncoderConfig) (n : nat) (s : SendStream) : Prop :=
  exists pb config_id idr fs,
    Prologue.encode StreamKind.Video 1 0 [] = Done pb /\ is_idr idr = true /\ length fs = n /\
    sent s = pb ++ VideoSession.intro_bytes gen config_id config (bytes idr) (sf_capture_ts idr)
                     (sf_encode_done_ts idr)
             ++ VideoSession.frame_bytes (numbered gen config 1 fs).

(** A stream just opened has nothing on it yet. *)
Definition fresh_opens (c : Connection) : Prop :=
  forall s r, OStream s r ∈ uni_opens c -> sent s = [].

Lemma numbered_snoc gen config k fs f :
  numbered gen config k (fs ++ [f])
  = numbered gen config k fs ++ [(sourced_header gen (wrap 64 (Z.of_nat (k + length fs))) config f, bytes f)].
Proof.
  revert k. induction fs as [|g fs IH]; intros k; cbn [numbered app length]; [by rewrite Nat.add_0_r|].
  rewrite IH. by rewrite Nat.add_succ_r.
Qed.

Lemma frame_bytes_snoc hps h p :
  VideoSession.frame_bytes (hps ++ [(h, p)])
  = VideoSession.frame_bytes hps ++ Envelope.frame type_id.VIDEO_FRAME_HEADER (encode h)
    ++ Envelope.frame type_id.VIDEO_FRAME_PAYLOAD p.
Proof. unfold VideoSession.frame_bytes. rewrite map_app, concat_app. cbn. by rewrite app_nil_r. Qed.

(** Errors of the transport, and of the source. *)
Definition video_io (e : VideoSession.VideoError) : Prop :=
  match e with VideoSession.Quic _ | VideoSession.Write _ => True | _ => False end.

Definition io_error (e : conn_error) : Prop :=
  match e with
  | ConnError.Video e => video_io e
  | ConnError.Join _ | ConnError.Encode _ | ConnError.Capture _ => True
  | _ => False
  end.

Lemma triple_send_message timed t p b :
  triple (fun s => sent s = b) (VideoSession.send_message timed t p)
    (fun _ s => sent s = b ++ Envelope.frame t p) (fun e _ => video_io e).
Proof. apply triple_map_err. eapply triple_conseq; [apply triple_write_envelope|naive_solver..]. Qed.

(** A transition that is accepted. *)
Lemma triple_step_sm {S A} (P : S -> Prop) t sm (f : VideoSm.VideoInstanceSm -> async S VideoSession.VideoError A) Q R :
  (t sm).1 = Ok tt -> triple P (f (t sm).2) Q R -> triple P (VideoSession.step_sm t sm ≫= f) Q R.
Proof.
  intros Ht Hf s Hs. unfold VideoSession.step_sm. rewrite Ht. exact (Hf s Hs).
Qed.

Lemma triple_send_frame gen id config f b :
  triple (fun s => sent s = b)
    (send_sourced_frame gen id (ec_width config) (ec_height config) f)
    (fun _ s => sent s = b ++ Envelope.frame type_id.VIDEO_FRAME_HEADER (encode (sourced_header gen id config f))
                           ++ Envelope.frame type_id.VIDEO_FRAME_PAYLOAD (bytes f)) (fun e _ => io_error e).
Proof.
  apply triple_map_err. unfold VideoSession.send_video_frame.
  eapply triple_bind; [apply triple_send_message|intros u].
  eapply triple_bind; [apply triple_send_message|intros u'].
  apply triple_ret. intros s ->. by rewrite <- app_assoc.
Qed.

Lemma triple_send_intro timed gen config_id config idr :
  triple (fun s => sent s = [])
    (VideoSession.send_intro timed 0 gen config_id config (bytes idr) (sf_capture_ts idr) (sf_encode_done_ts idr))
    (fun _ s => is_idr idr = true -> carries gen config 0 s) (fun e _ => video_io e).
Proof.
  unfold VideoSession.send_intro. apply triple_outcome_bind. intros pb Hpb.
  eapply triple_bind.
  { apply triple_map_err. eapply triple_conseq; [apply triple_write_all|intros s Hs; exact Hs|intros x s Hs; exact Hs|done]. }
  intros u. repeat first [apply triple_step_sm; [reflexivity|] | eapply triple_bind; [apply triple_send_message|intros ?]].
  intros s Hs Hi. exists pb, config_id, idr, []. split_and!; [done..|].
  rewrite Hs. cbn [app numbered]. unfold VideoSession.frame_bytes, VideoSession.intro_bytes, VideoSession.intro_header.
  cbn. by rewrite !app_nil_r, <- !app_assoc.
Qed.

(** ** Opening a generation *)

Lemma triple_now_us {E} c R : triple (fun m => connection m = c) (now_us (E := E)) (fun _ m => connection m = c) R.
Proof. by intros m Hc. Qed.

Lemma triple_await_encode timed frame c :
  triple (fun m => connection m = c) (await_encode timed frame) (fun _ m => connection m = c) (fun e _ => io_error e).
Proof. intros m Hc. unfold await_encode. destruct (encode_task frame) as [[[x|e]|e]|]; try done. by destruct timed. Qed.

Lemma recv_desktop_ready timed coming : forall e, (recv_desktop timed coming).1 <> Ready (Err e).
Proof. induction coming as [|[f| |] coming IH]; cbn; try done. by destruct timed. Qed.

Lemma triple_next_encoded timed c :
  triple (fun m => connection m = c) (next_encoded timed) (fun _ m => connection m = c) (fun e _ => io_error e).
Proof.
  intros m Hc. unfold next_encoded. destruct (frame_source m) as [|coming n]; [done|].
  pose proof (recv_desktop_ready timed coming) as Hr.
  destruct (recv_desktop timed coming) as [[[f|e]| | |] coming']; try done. by destruct (Hr e).
Qed.

Lemma triple_next_frame timed c :
  triple (fun m => connection m = c) (next_frame timed) (fun _ m => connection m = c) (fun e _ => io_error e).
Proof.
  intros m Hc. unfold next_frame. destruct (frame_source m) as [w h|coming n].
  - refine ((_ : triple (fun m => connection m = c) _ _ _) m Hc).
    eapply triple_bind; [apply triple_now_us|intros t].
    apply triple_outcome_bind. intros f _.
    eapply triple_bind; [apply triple_await_encode|intros bs].
    eapply triple_bind; [apply triple_now_us|intros t']. by apply triple_ret.
  - refine ((_ : triple (fun m => connection m = c) _ _ _) m Hc).
    eapply triple_bind; [apply triple_next_encoded|intros f]. by apply triple_ret.
Qed.

Lemma triple_next_idr_frame timed c :
  triple (fun m => connection m = c) (next_idr_frame timed) (fun f m => connection m = c /\ is_idr f = true)
    (fun e _ => io_error e).
Proof.
  unfold next_idr_frame. eapply triple_bind with (Q := fun _ m => connection m = c).
  { intros m Hc. unfold request_idr. by destruct (frame_source m). }
  intros u. generalize MAX_FRAMES_TO_SKIP_FOR_IDR as n. induction n as [|n IH]; cbn [skip_to_idr].
  { by apply triple_throw. }
  eapply triple_bind; [apply triple_next_frame|intros [f|]]; [|by apply triple_throw].
  destruct (is_idr f) eqn:E; [by apply triple_ret|exact IH].
Qed.

Lemma next_open_fresh timed evs :
  let '(p, evs') := next_open timed evs in
  (forall s r, p = Ready (Ok (s, r)) -> OStream s r ∈ evs) /\ (forall ev, ev ∈ evs' -> ev ∈ evs).
Proof.
  induction evs as [|[s r|e|] evs IH]; cbn.
  - naive_solver.
  - split; [intros s' r' [= <- <-]; by left|by right].
  - done.
  - destruct timed; [split; [done|by right]|].
    destruct (next_open false evs) as [p evs']. destruct IH as [H1 H2].
    split; [intros s r Hp; right; by apply (H1 s r)|intros ev Hev; right; by apply H2].
Qed.

Lemma triple_open_uni timed :
  triple fresh_opens (open_uni_within timed) (fun s c => sent s = [] /\ fresh_opens c) any_error.
Proof.
  intros c Hc. unfold open_uni_within. pose proof (next_open_fresh timed (uni_opens c)) as Hn.
  destruct (next_open timed (uni_opens c)) as [p evs]. destruct Hn as [H1 H2].
  destruct p as [[[s r]|e]| | |]; try done. split; [by apply (Hc s r), H1|].
  intros s' r' Hs'. apply (Hc s' r'), H2, Hs'.
Qed.

Lemma triple_open_generation timed gen config_id config :
  triple (fun m => fresh_opens (connection m)) (open_generation timed gen config_id config)
    (fun send m => fresh_opens (connection m) /\ carries gen config 0 send) (fun e _ => io_error e).
Proof.
  intros m Hm. unfold open_generation.
  refine ((_ : triple (fun m' => connection m' = connection m) _ _ _) m eq_refl).
  eapply triple_bind; [apply triple_next_idr_frame|intros idr].
  eapply triple_bind with (Q := fun p m => fresh_opens (connection m) /\ carries gen config 0 p.1);
    [|intros [send sm]; by apply triple_ret].
  apply triple_zoom. intros m' [Hc Hi]. apply triple_map_err. cbn [connection].
  eapply triple_pre; [|intros c Hc'; exact (eq_ind_r fresh_opens Hm (eq_trans Hc' Hc))].
  unfold VideoSession.open_video_instance.
  eapply triple_bind; [apply triple_map_err; eapply triple_conseq; [apply triple_open_uni|done..]|].
  intros send. eapply triple_bind with (Q := fun p c => fresh_opens c /\ carries gen config 0 p.2);
    [|intros [sm s']; by apply triple_ret].
  apply triple_local_try. intros c [Hs Hf]. eapply triple_conseq; [apply triple_send_intro|..].
  - by intros ? ->.
  - cbn. auto.
  - done.
Qed.

(** ** The invariant of a session's video *)

Definition live_channel (c : VideoChannel.VideoChannel) : Prop :=
  VideoChannel.synced c /\ VideoChannel.channel_state c = ChannelSm.Live /\
  (VideoChannel.instance_state c = VideoSm.Streaming \/ VideoChannel.instance_state c = VideoSm.Congested).

Definition reset_channel (c : VideoChannel.VideoChannel) : Prop :=
  VideoChannel.synced c /\ VideoChannel.instance_state c = VideoSm.Closed VideoSm.Reset.

(** Every stream the session has used carries one instance, each of the
    generation after the one before it, the first of generation [start]; the
    frames on it are numbered from 1 without gaps, and the next number is the one
    after the last. *)
Definition in_sequence (start : Z) (config : EncoderConfig) (v : video) : Prop :=
  fresh_opens (connection (env v)) /\
  (forall k s, reset_streams v !! k = Some s ->
     exists n, carries (wrap 64 (start + Z.of_nat k)) config n s) /\
  VideoChannel.generation (video_channel v) = wrap 64 (start + Z.of_nat (length (reset_streams v))) /\
  exists n, frame_id v = wrap 64 (Z.of_nat (S n)) /\
    carries (VideoChannel.generation (video_channel v)) config n (video_send v).

Definition video_ok (start : Z) (config : EncoderConfig) (v : video) : Prop :=
  in_sequence start config v /\ live_channel (video_channel v).

Lemma wrap_64_succ x : wrap 64 (wrap 64 x + 1) = wrap 64 (x + 1).
Proof. unfold wrap. by rewrite Zplus_mod_idemp_l. Qed.

Lemma mark_after_reopen c :
  reset_channel c ->
  let c' := (VideoChannel.prepare_reopen c).2 in
  (VideoChannel.mark_instance_streaming c').1 = Ok tt /\ live_channel (VideoChannel.mark_instance_streaming c').2 /\
  VideoChannel.generation (VideoChannel.mark_instance_streaming c').2 = VideoChannel.generation c'.
Proof.
  intros [Hs Hi]. destruct c as [ch bl cg i g lr]. cbn. split; [done|]. split; [|done].
  split; [done|]. split; [done|]. by left.
Qed.

Definition reopen_error (e : conn_error) : Prop :=
  io_error e \/ e = ConnError.Violation PROTOCOL_VIDEO_CONFIGURING_TIMEOUT.

(** The streams of the instances before the current one. *)
Definition past_streams (start : Z) (config : EncoderConfig) (v : video) : Prop :=
  fresh_opens (connection (env v)) /\
  forall k s, reset_streams v !! k = Some s -> exists n, carries (wrap 64 (start + Z.of_nat k)) config n s.

(** A new instance of generation [g] can be marked streaming. *)
Definition reopening (start : Z) (config : EncoderConfig) (g : Z) (v : video) : Prop :=
  past_streams start config v /\ g = wrap 64 (start + Z.of_nat (length (reset_streams v))) /\
  (VideoChannel.mark_instance_streaming (video_channel v)).1 = Ok tt /\
  live_channel (VideoChannel.mark_instance_streaming (video_channel v)).2 /\
  VideoChannel.generation (VideoChannel.mark_instance_streaming (video_channel v)).2 = g.

Lemma triple_reset_and_prepare start config :
  triple (fun v => in_sequence start config v /\ reset_channel (video_channel v))
    (_ ← reset_old;
     on_channel (fun c => let '(g, c') := VideoChannel.prepare_reopen c in (Ready (Ok g), c')))
    (fun g v => reopening start config g v) (fun (e : conn_error) _ => reopen_error e).
Proof.
  clear clock encode_task. intros v [(Hf & Hr & Hg & n & Hid & Hc) Hch].
  destruct (mark_after_reopen _ Hch) as (Hm & Hl & Hge).
  change (reopening start config (wrap 64 (VideoChannel.generation (video_channel v) + 1))
    {| env := env v; video_channel := (VideoChannel.prepare_reopen (video_channel v)).2;
       video_send := video_send v; reset_streams := reset_streams v ++ [video_send v];
       frame_id := frame_id v |}).
  split_and!; cbn [env reset_streams video_channel]; [split; cbn [env reset_streams]; [done|]| |done..].
  - intros k s. rewrite lookup_app_Some. intros [Hk|[Hk Hs]]; [by apply Hr|].
    apply list_lookup_singleton_Some in Hs as [Hk' <-].
    exists n. replace k with (length (reset_streams v)) by lia. by rewrite <- Hg.
  - rewrite Hg, wrap_64_succ, length_app. cbn [length]. f_equal. lia.
Qed.

Lemma triple_reopen start config :
  triple (fun v => in_sequence start config v /\ reset_channel (video_channel v))
    (reopen_video_generation config) (fun _ v => video_ok start config v /\ frame_id v = 1)
    (fun e _ => reopen_error e).
Proof.
  unfold reopen_video_generation. eapply triple_assoc; [apply triple_reset_and_prepare|intros g].
  eapply triple_bind with (Q := fun send v => reopening start config g v /\ carries g config 0 send).
  { apply triple_timeout; [|by right]. apply triple_zoom. intros v ((Hf & Hr) & Hv).
    eapply triple_conseq; [apply triple_open_generation|by intros m ->| |by left].
    intros send m [Hm Hc]. done. }
  intros send. eapply triple_bind with (Q := fun _ v => past_streams start config v /\
    g = wrap 64 (start + Z.of_nat (length (reset_streams v))) /\ live_channel (video_channel v) /\
    VideoChannel.generation (video_channel v) = g /\ carries g config 0 send).
  { apply triple_zoom. intros v (((Hf & Hr) & Hg & Hm & Hl & Hge) & Hc) c ->.
    destruct (VideoChannel.mark_instance_streaming (video_channel v)) as [[[]|e] c']; [|done]. done. }
  intros u v ((Hf & Hr) & Hg & Hl & Hge & Hc).
  split; [|done]. split; [|done]. split; [done|]. split; [done|]. split; [exact (eq_trans Hge Hg)|].
  exists 0%nat. split; [done|]. rewrite <- Hge in Hc. exact Hc.
Qed.

(** ** Sending a frame *)

Lemma carries_snoc gen config n s s' f :
  carries gen config n s ->
  sent s' = sent s ++ Envelope.frame type_id.VIDEO_FRAME_HEADER
                        (encode (sourced_header gen (wrap 64 (Z.of_nat (S n))) config f))
                   ++ Envelope.frame type_id.VIDEO_FRAME_PAYLOAD (bytes f) ->
  carries gen config (S n) s'.
Proof.
  intros (pb & cid & idr & fs & Hpb & Hi & <- & Hs) Hs'. exists pb, cid, idr, (fs ++ [f]).
  split_and!; [done|done|rewrite length_app; cbn; lia|].
  rewrite Hs', numbered_snoc, frame_bytes_snoc, Hs. by rewrite <- !app_assoc.
Qed.

Lemma triple_send_next start config f :
  triple (video_ok start config) (send_next config f) (fun _ => video_ok start config) (fun e _ => io_error e).
Proof.
  clear clock encode_task. intros v ((Hf & Hr & Hg & n & Hid & Hc) & Hl). unfold send_next.
  erewrite abind_ready by reflexivity.
  refine ((_ : triple (fun v' => v' = v) _ _ _) v eq_refl).
  eapply triple_bind with (Q := fun _ v' => exists s, v' = {| env := env v; video_channel := video_channel v;
    video_send := s; reset_streams := reset_streams v; frame_id := frame_id v |} /\
    carries (VideoChannel.generation (video_channel v)) config (S n) s).
  - apply triple_zoom. intros v' ->. eapply triple_conseq; [apply triple_send_frame|by intros s ->| |done].
    intros u s Hs. exists s. split; [done|]. rewrite Hid in Hs. by eapply carries_snoc.
  - intros u v' (s & -> & Hc'). cbn. split; [|done]. split_and!; [done..|].
    exists (S n). split; [|done]. cbn [frame_id]. rewrite Hid, wrap_64_succ. f_equal. lia.
Qed.

(** * Properties *)

(** The frames the desktop source delivers before it stops, and whether it does. *)
Fixpoint delivered (coming : list desktop_event) : list FrameSource.EncodedFrame * bool :=
  match coming with
  | [] => ([], false)
  | DesktopFrame f :: coming' => (f :: (delivered coming').1, (delivered coming').2)
  | DesktopStopped :: _ => ([], true)
  | DesktopElapsed :: coming' => delivered coming'
  end.

Lemma recv_desktop_delivered coming :
  exists coming',
    recv_desktop false coming =
      (match delivered coming with
       | (f :: _, _) => Ready (Ok (Some f))
       | ([], true) => Ready (Ok None)
       | ([], false) => Pending
       end, coming') /\
    (delivered coming').1 = tail (delivered coming).1 /\ (delivered coming').2 = (delivered coming).2.
Proof.
  induction coming as [|[f| |] coming IH]; cbn.
  - by exists [].
  - exists coming. by destruct (delivered coming).
  - by exists (DesktopStopped :: coming).
  - exact IH.
Qed.

Lemma skip_to_idr_delivered attempts m coming n :
  frame_source m = Desktop coming n ->
  let '(fs, stopped) := delivered coming in
  (skip_to_idr false attempts m).1 =
    match List.find FrameSource.ef_is_idr (take attempts fs) with
    | Some f => Ready (Ok (sourced f))
    | None =>
        if (attempts <=? length fs)%nat then
          Ready (Err (ConnError.Capture "no IDR from the encoder within 120 frames"))
        else if stopped then Ready (Err (ConnError.Capture "desktop capture stopped"))
        else Pending
    end.
Proof.
  revert m coming. induction attempts as [|k IH]; intros m coming Hm; [by destruct (delivered coming)|].
  destruct (recv_desktop_delivered coming) as (coming' & Hr & H1 & H2).
  cbn [skip_to_idr]. unfold mbind, async_bind, abind at 1.
  unfold next_frame, mbind, async_bind, abind, next_encoded. rewrite Hm, Hr.
  destruct (delivered coming) as [[|f fs] b]; cbn [fst snd tail] in *.
  { by destruct b. }
  cbn [aret option_map take List.find]. unfold sourced at 1. cbn [is_idr].
  destruct (FrameSource.ef_is_idr f); [done|].
  specialize (IH {| connection := connection m; frame_source := Desktop coming' n; ticks := ticks m |} coming' eq_refl).
  destruct (delivered coming') as [fs' b']. cbn [fst snd] in *. subst. exact IH.
Qed.

(** The search for a frame to open with ends.  Asking a desktop source for one
    looks at no more than 120 of the frames it delivers: the first IDR among them
    is the answer, without one the search fails, saying whether the frames ran
    out or the source stopped; it waits on only while fewer have come and the
    source is running. *)
Theorem next_idr_frame_ends m coming n :
  frame_source m = Desktop coming n ->
  let '(fs, stopped) := delivered coming in
  (next_idr_frame false m).1 =
    match List.find FrameSource.ef_is_idr (take 120 fs) with
    | Some f => Ready (Ok (sourced f))
    | None =>
        if (120 <=? length fs)%nat then
          Ready (Err (ConnError.Capture "no IDR from the encoder within 120 frames"))
        else if stopped then Ready (Err (ConnError.Capture "desktop capture stopped"))
        else Pending
    end.
Proof.
  intros Hm. pose proof (skip_to_idr_delivered MAX_FRAMES_TO_SKIP_FOR_IDR
    {| connection := connection m; frame_source := Desktop coming (S n); ticks := ticks m |} coming (S n) eq_refl) as Hs.
  unfold next_idr_frame, mbind, async_bind, abind, request_idr. rewrite Hm. exact Hs.
Qed.
End server_video.

(** ** Concrete runs *)

Module Examples.
#[local] Existing Instance plain_transport.

Definition encoded (idr : bool) : FrameSource.EncodedFrame :=
  {| FrameSource.annex_b := [0; 0; 1; 0x65]; FrameSource.ef_is_idr := idr; FrameSource.ef_capture_ts := 5;
     FrameSource.ef_encode_done_ts := 6 |}.

Definition desktop (coming : list desktop_event) : media :=
  {| connection := {| uni_accepts := []; bi_accepts := []; uni_opens := []; bi_opens := []; released := [];
                      stopped_readers := [] |};
     frame_source := Desktop coming 0; ticks := 0 |}.

Definition one_idr : list desktop_event :=
  [DesktopFrame (encoded false); DesktopElapsed; DesktopFrame (encoded true)].

Lemma next_idr_frame_ends_witness :
  frame_source (desktop one_idr) = Desktop one_idr 0 /\
  (next_idr_frame (EncodeError := unit) (JoinError := unit) (fun _ => 0) (fun _ => None) false (desktop one_idr)).1
  = Ready (Ok (sourced (encoded true))).
Proof.
  split; [reflexivity|].
  exact (next_idr_frame_ends (EncodeError := unit) (JoinError := unit) (fun _ => 0) (fun _ => None)
    (desktop one_idr) one_idr 0 eq_refl).
Defined.
End Examples.
