(* ===== verification/ServerSession.v ===== *)
(** The server's session loop: the model of [run_active_session] in
    [src/sardp-cli/src/bin/sardp-server.rs] with the tasks it spawns.

    One turn of the [select!] loop is [step]: an event says at which instant the
    turn happens and which arm's future is polled to the end; the futures
    themselves run on the scripts of their streams.  The arms of the loop that are
    polled before it are those that are not ready, but for the idle deadline,
    which the biased [select!] looks at first.  A future that does not complete is
    dropped with the turn.  What other tasks do to the shared state between two
    turns is an event too. *)

From S2P Require Import Prelude.
From S2P Require Import ReasonCode.
From S2P Require Import StreamKind.
From S2P Require Import PermissionSet.
From S2P Require Import Prologue.
From S2P Require Import Async.
From S2P Require Import StreamReader.
From S2P Require Import Connection.
From S2P Require Import Messages.
From S2P Require Import MessageCodecs.
From S2P Require Import Crypto.
From S2P Require ConnectionSm.
From S2P Require PermissionSm.
From S2P Require FileHandleStore.
From S2P Require FileTransferSession.
From S2P Require Handshake.
From S2P Require TimeSync.
From S2P Require Backpressure.
From S2P Require VideoSm.
From S2P Require VideoChannel.
From S2P Require FeedbackSession.
From S2P Require InputSession.
From S2P Require InputInjection.
From S2P Require AudioSession.
From S2P Require ClipboardSession.
From S2P Require ConnError.
From S2P Require Import ServerVideo.
From S2P Require Import AsyncTriples.

Definition FILE_HANDLE_TTL : Z := 300 * 1000000.
Definition MAX_CONCURRENT_FILE_TRANSFERS : Z := 64.

Section server_session.
Context `{Transport, Sha256}.
Context `{!Cbor VideoStreamGeneration, !Cbor EncoderConfig, !Cbor VideoFrameHeader}.
Context `{!Cbor TimeSyncRequest, !Cbor TimeSyncResponse, !Cbor SessionClose, !Cbor KeepAlive,
          !Cbor PermissionUpdate}.
Context `{!Cbor FileTransferRequest, !Cbor FileTransferAccept, !Cbor FileTransferReject,
          !Cbor FileTransferError, !Cbor FileChunk, !Cbor FileTransferComplete}.
Context `{!Cbor TransportFeedback, !Cbor AudioSyncFeedback, !Cbor KeyframeRequest}.
Context `{!Cbor KeyEvent, !Cbor TextInput, !Cbor ImeComposition, !Cbor MouseMove, !Cbor MouseButton,
          !Cbor Wheel, !Cbor ImeModeChange}.
Context `{!Cbor AudioConfig, !Cbor AudioFrameHeader}.
Context `{!Cbor ClipboardFormats, !Cbor ClipboardRequest, !Cbor ClipboardData, !Cbor ClipboardError}.
Context {EncodeError JoinError : Type}.

#[local] Notation conn_error := (@ConnError.ConnError _ EncodeError JoinError).

(** The clock, the encoder, and the synthetic tone, which is computed in floating
    point. *)
Variable clock : nat -> Z.
Variable encode_task : TimecodeFrame.SyntheticFrame -> option (result JoinError (result EncodeError (list Z))).
Variable generate_sine_wave_payload : Z -> Z -> list Z.

(** * Definitions *)

(** The tasks a session spawns. *)
Inductive task :=
| FileTransferTask (request : FileTransferRequest) (file_handle : Z)
| ClipboardAnnounceTask
| ClipboardRequestTask (exchange : ClipboardSession.Exchange) (request : ClipboardRequest)
| AudioCaptureTask (frame_reader : AudioSession.AudioFrameReader).

(** What the session shares with its tasks and with other sessions: the control
    stream's sending half, the file handles, the admin's commands. *)
Record shared := {
  control_send : SendStream;
  file_handles : FileHandleStore.FileHandleStore;
  permission_command : list PermissionSm.AdminCommand;
}.

(** [last_activity] is an instant of [tokio]'s clock, in microseconds. *)
Record session := {
  video : ServerVideo.video;
  state : shared;
  control_reader : EnvelopeReader;
  feedback_receiver : FeedbackSession.FeedbackReceiver;
  permission_sm : PermissionSm.PermissionSm;
  input_receiver : option InputSession.InputReceiver;
  input_injection : InputInjection.InputInjection;
  audio_playback_send : option SendStream;
  audio_sequence : Z;
  last_activity : Z;
  spawned : list task;
  closed : bool;
}.

Notation in_session := (async session conn_error).

Definition with_video (v : ServerVideo.video) (s : session) : session :=
  Build_session v (state s) (control_reader s) (feedback_receiver s) (permission_sm s)
    (input_receiver s) (input_injection s) (audio_playback_send s) (audio_sequence s) (last_activity s)
    (spawned s) (closed s).

Definition with_state (st : shared) (s : session) : session :=
  Build_session (video s) st (control_reader s) (feedback_receiver s) (permission_sm s)
    (input_receiver s) (input_injection s) (audio_playback_send s) (audio_sequence s) (last_activity s)
    (spawned s) (closed s).

Definition with_control_reader (r : EnvelopeReader) (s : session) : session :=
  Build_session (video s) (state s) r (feedback_receiver s) (permission_sm s) (input_receiver s)
    (input_injection s) (audio_playback_send s) (audio_sequence s) (last_activity s) (spawned s)
    (closed s).

Definition with_feedback_receiver (r : FeedbackSession.FeedbackReceiver) (s : session) : session :=
  Build_session (video s) (state s) (control_reader s) r (permission_sm s) (input_receiver s)
    (input_injection s) (audio_playback_send s) (audio_sequence s) (last_activity s) (spawned s)
    (closed s).

Definition with_permission_sm (sm : PermissionSm.PermissionSm) (s : session) : session :=
  Build_session (video s) (state s) (control_reader s) (feedback_receiver s) sm (input_receiver s)
    (input_injection s) (audio_playback_send s) (audio_sequence s) (last_activity s) (spawned s)
    (closed s).

Definition with_input_receiver (r : option InputSession.InputReceiver) (s : session) : session :=
  Build_session (video s) (state s) (control_reader s) (feedback_receiver s) (permission_sm s) r
    (input_injection s) (audio_playback_send s) (audio_sequence s) (last_activity s) (spawned s) (closed s).

Definition with_input_injection (i : InputInjection.InputInjection) (s : session) : session :=
  Build_session (video s) (state s) (control_reader s) (feedback_receiver s) (permission_sm s)
    (input_receiver s) i (audio_playback_send s) (audio_sequence s) (last_activity s) (spawned s) (closed s).

Definition with_audio (send : option SendStream) (sequence : Z) (s : session) : session :=
  Build_session (video s) (state s) (control_reader s) (feedback_receiver s) (permission_sm s)
    (input_receiver s) (input_injection s) send sequence (last_activity s) (spawned s) (closed s).

Definition with_last_activity (now : Z) (s : session) : session :=
  Build_session (video s) (state s) (control_reader s) (feedback_receiver s) (permission_sm s)
    (input_receiver s) (input_injection s) (audio_playback_send s) (audio_sequence s) now (spawned s)
    (closed s).

Definition with_spawned (ts : list task) (s : session) : session :=
  Build_session (video s) (state s) (control_reader s) (feedback_receiver s) (permission_sm s)
    (input_receiver s) (input_injection s) (audio_playback_send s) (audio_sequence s) (last_activity s)
    ts (closed s).

Definition with_closed (c : bool) (s : session) : session :=
  Build_session (video s) (state s) (control_reader s) (feedback_receiver s) (permission_sm s)
    (input_receiver s) (input_injection s) (audio_playback_send s) (audio_sequence s) (last_activity s)
    (spawned s) c.

Definition on_video {E A} : async ServerVideo.video E A -> async session E A := azoom video with_video.
Definition on_state {E A} : async shared E A -> async session E A := azoom state with_state.
Definition on_control_reader {E A} : async EnvelopeReader E A -> async session E A :=
  azoom control_reader with_control_reader.
Definition on_feedback_receiver {E A} : async FeedbackSession.FeedbackReceiver E A -> async session E A :=
  azoom feedback_receiver with_feedback_receiver.

Definition update {E} (f : session -> session) : async session E unit := fun s => (Ready (Ok tt), f s).

Definition set_permission_sm {E} (sm : PermissionSm.PermissionSm) : async session E unit :=
  update (with_permission_sm sm).
Definition set_input_receiver {E} (r : option InputSession.InputReceiver) : async session E unit :=
  update (with_input_receiver r).
Definition set_audio {E} (send : option SendStream) (sequence : Z) : async session E unit :=
  update (with_audio send sequence).
Definition set_last_activity {E} (now : Z) : async session E unit := update (with_last_activity now).
Definition spawn {E} (t : task) : async session E unit := update (fun s => with_spawned (spawned s ++ [t]) s).
Definition close_connection {E} : async session E unit := update (with_closed true).

Definition on_media {E A} (m : async media E A) : async session E A := on_video (on_env m).
Definition on_connection {E A} (m : async Connection E A) : async session E A :=
  on_media (ServerVideo.on_connection m).

Definition set_control_send {E A} : async SendStream E A -> async shared E A :=
  azoom control_send (fun c st =>
    {| control_send := c; file_handles := file_handles st; permission_command := permission_command st |}).

Definition set_commands {E} (cs : list PermissionSm.AdminCommand) : async shared E unit := fun st =>
  (Ready (Ok tt), {| control_send := control_send st; file_handles := file_handles st; permission_command := cs |}).

(** [write_control]: the lock is held for one write only. *)
Definition write_control (type_raw : Z) (payload : list Z) : async shared WriteError unit :=
  set_control_send (write_envelope false type_raw payload).

(** [write_control(..).await?]. *)
Definition control (type_raw : Z) (payload : list Z) : in_session unit :=
  amap_err ConnError.Write (on_state (write_control type_raw payload)).

(** The result of the write is ignored; [finish] and the grace period leave the
    state as it is. *)
Definition close_gracefully (reason : ReasonCode) : in_session unit :=
  _ ← atry (E := WriteError)
        (on_state (write_control type_id.SESSION_CLOSE (encode {| close_reason := reason |})));
  close_connection.

Inductive flow := Continue | Finished.

(** ** The control arm *)

(** [answer_time_sync_request] reads the clock and leaves the channel alone. *)
Definition sync_peer (s : session) : TimeSync.peer :=
  {| TimeSync.channel := {| Handshake.send := control_send (state s); Handshake.reader := control_reader s |};
     TimeSync.ticks := ticks (env (video s)) |}.

Definition with_ticks (n : nat) (s : session) : session :=
  let v := video s in
  with_video
    {| env := {| connection := connection (env v); frame_source := frame_source (env v); ticks := n |};
       video_channel := video_channel v; video_send := video_send v; reset_streams := reset_streams v;
       frame_id := frame_id v |} s.

Definition answer_time_sync (type_raw : Z) (payload : list Z) : in_session flow :=
  response ← amap_err ConnError.TimeSync
    (azoom sync_peer (fun p => with_ticks (TimeSync.ticks p))
       (TimeSync.answer_time_sync_request clock type_raw payload));
  _ ← control type_id.TIME_SYNC_RESPONSE (encode response);
  aret Continue.

(** [state.file_handles.try_issue]. *)
Definition try_issue (draws : list Z) (session_id : list Z) (user_id : string)
    (request : FileTransferRequest) : in_session FileHandleStore.issue_result :=
  now ← on_media (now_us clock);
  on_state (fun st =>
    let '(r, store) := FileHandleStore.try_issue now draws session_id user_id (ftr_direction request)
                         (declared_size request) FILE_HANDLE_TTL MAX_CONCURRENT_FILE_TRANSFERS
                         (file_handles st) in
    (match r with FileHandleStore.Drawing => Pending | _ => Ready (Ok r) end,
     {| control_send := control_send st; file_handles := store; permission_command := permission_command st |})).

Definition reject (request : FileTransferRequest) (reason : ReasonCode) : in_session flow :=
  _ ← control type_id.FILE_TRANSFER_REJECT
        (encode {| ftj_request_id := ftr_request_id request; ftj_reason := reason |});
  aret Continue.

(** [draws] is what the random generator yields during the turn. *)
Definition on_file_transfer_request (draws : list Z) (session_id : list Z) (user_id : string)
    (payload : list Z) : in_session flow :=
  request ← alift (map_err (fun _ => ConnError.Violation PROTOCOL_UNEXPECTED_MESSAGE) (decode payload));
  s ← aget;
  let required_bit := FileTransferSession.required_permission_bit (ftr_direction request) in
  match PermissionSm.check_gate (permission_sm s) required_bit with
  | Err reason => reject request reason
  | Ok _ =>
      issued ← try_issue draws session_id user_id request;
      match issued with
      | FileHandleStore.Issued file_handle expiry_ts =>
          _ ← control type_id.FILE_TRANSFER_ACCEPT
                (encode {| fta_request_id := ftr_request_id request; fta_file_handle := file_handle;
                           fta_resolved_size := declared_size request; fta_expiry_ts := expiry_ts |});
          _ ← spawn (FileTransferTask request file_handle);
          aret Continue
      | _ => reject request POLICY_FILE_POLICY_REJECTED
      end
  end.

Definition on_control (now : Z) (draws : list Z) (session_id : list Z) (user_id : string)
    (control_msg : result StreamReadError (Z * list Z)) : in_session flow :=
  '(type_raw, payload) ← alift (map_err ConnError.Read control_msg);
  _ ← set_last_activity now;
  if type_raw =? type_id.TIME_SYNC_REQUEST then answer_time_sync type_raw payload
  else if type_raw =? type_id.SESSION_CLOSE then aret Finished
  else if type_raw =? type_id.FILE_TRANSFER_REQUEST then
    on_file_transfer_request draws session_id user_id payload
  else aret Continue.

(** ** The tick arms *)

Definition on_keepalive : in_session flow :=
  _ ← control type_id.KEEP_ALIVE (encode mkKeepAlive);
  aret Continue.

(** One admin command; [granted_permissions] is the session's initial mask. *)
Definition on_admin_command (granted_permissions : Z) (c : PermissionSm.AdminCommand) : in_session unit :=
  match c with
  | PermissionSm.TogglePermission toggled_bit grant =>
      let update := PermissionSm.build_permission_toggle granted_permissions toggled_bit grant in
      s ← aget;
      _ ← set_permission_sm (PermissionSm.apply_update update (permission_sm s));
      control type_id.PERMISSION_UPDATE (encode update)
  | PermissionSm.SendClipboard =>
      s ← aget;
      match PermissionSm.check_gate (permission_sm s) bit.CLIP_READ with
      | Err _ => aret tt
      | Ok _ => spawn ClipboardAnnounceTask
      end
  end.

(** [commands.drain(..)]: the queue is empty afterwards, however the loop ends. *)
Definition drain_commands (granted_permissions : Z) : in_session unit :=
  s ← aget;
  _ ← on_state (set_commands []);
  afor (on_admin_command granted_permissions) (permission_command (state s)).

Definition send_frame (encoder_config : EncoderConfig) (frame : SourcedFrame) : in_session unit :=
  on_video (send_next encoder_config frame).

Definition on_frame_tick (granted_permissions : Z) (encoder_config : EncoderConfig) : in_session flow :=
  _ ← drain_commands granted_permissions;
  s ← aget;
  if negb (PermissionSm.is_granted (permission_sm s) bit.VIEW) then aret Continue
  else
    match frame_source (env (video s)) with
    | Desktop _ _ => aret Continue
    | Synthetic _ _ =>
        frame ← on_media (next_frame clock encode_task false);
        match frame with
        | None => aret Continue
        | Some frame =>
            _ ← send_frame encoder_config frame;
            aret Continue
        end
    end.

(** [next_desktop_frame] as an arm: never ready for the synthetic source. *)
Definition on_desktop_frame (encoder_config : EncoderConfig) (desktop : result conn_error (option SourcedFrame)) :
    in_session flow :=
  frame ← alift desktop;
  frame ← alift (ok_or frame (ConnError.Capture "desktop capture stopped"));
  s ← aget;
  if negb (PermissionSm.is_granted (permission_sm s) bit.VIEW) then aret Continue
  else
    _ ← send_frame encoder_config frame;
    aret Continue.

Definition audio_config : AudioConfig :=
  {| ac_codec := Opus; sample_rate := 48000; channels := 1; frame_duration_ms := 20 |}.

Definition audio_samples_per_frame : Z := sample_rate audio_config * frame_duration_ms audio_config / 1000.

Definition open_playback : in_session SendStream :=
  amap_err ConnError.Audio (on_connection (AudioSession.open_audio_stream AudioPlayback audio_config)).

Definition on_audio_tick : in_session flow :=
  s ← aget;
  if negb (PermissionSm.is_granted (permission_sm s) bit.AUDIO_PLAYBACK) then aret Continue
  else
    send ← match audio_playback_send s with Some send => aret send | None => open_playback end;
    _ ← set_audio (Some send) (audio_sequence s);
    capture_ts ← on_media (now_us clock);
    let payload := generate_sine_wave_payload audio_samples_per_frame (sample_rate audio_config) in
    let duration_us := wrap 32 (frame_duration_ms audio_config * 1000) in
    '(r, send) ← alocal send (AudioSession.send_audio_frame (audio_sequence s) capture_ts duration_us payload);
    _ ← set_audio (Some send) (audio_sequence s);
    _ ← alift (map_err ConnError.Audio r);
    _ ← set_audio (Some send) (wrap 64 (audio_sequence s + 1));
    aret Continue.

(** ** The feedback arm *)

Definition keyframe_request (now_us : Z) (request : KeyframeRequest) :
    in_session VideoChannel.KeyframeRequestDecision :=
  on_video (ServerVideo.on_channel (fun c =>
    let '(d, c') := VideoChannel.on_keyframe_request now_us request c in (Ready (Ok d), c'))).

Definition reopen (encoder_config : EncoderConfig) : in_session unit :=
  on_video (reopen_video_generation clock encode_task encoder_config).

Definition on_feedback (now : Z) (encoder_config : EncoderConfig)
    (message : result FeedbackSession.ReadFeedbackError FeedbackSession.FeedbackMessage) : in_session flow :=
  _ ← set_last_activity now;
  now_us ← on_media (now_us clock);
  message ← alift (map_err ConnError.Feedback message);
  match message with
  | FeedbackSession.Transport feedback =>
      decision ← on_video (channel_op (VideoChannel.on_feedback now_us (client_queue_delay_us feedback) 0));
      match decision with
      | Backpressure.ResetStream =>
          _ ← reopen encoder_config;
          aret Continue
      | _ => aret Continue
      end
  | FeedbackSession.Keyframe request =>
      d ← keyframe_request now_us request;
      match d with
      | VideoChannel.Reopen =>
          _ ← reopen encoder_config;
          aret Continue
      | VideoChannel.Ignored _ => aret Continue
      end
  | FeedbackSession.AudioSync _ => aret Continue
  end.

(** ** The arms for what the client opens *)

Definition accept_incoming_uni (timed : bool) : async Connection conn_error (StreamKind * EnvelopeReader) :=
  recv ← amap_err ConnError.Quic (accept_uni timed);
  '(prologue, reader) ← alocal_try (StreamReader.new recv) (amap_err ConnError.Read (read_prologue timed));
  aret (kind prologue, reader).

(** [reader.stop(0)] on a reader that then goes out of scope. *)
Definition stop_reader (reader : EnvelopeReader) : in_session unit :=
  on_connection (fun c => (Ready (Ok tt), note_stop (default 0 (stopped (stop 0 reader))) c)).

Definition on_incoming_uni (accepted : result conn_error (StreamKind * EnvelopeReader)) : in_session flow :=
  '(kind, reader) ← alift accepted;
  s ← aget;
  match kind with
  | AudioCapture =>
      capture ← amap_err ConnError.Audio (on_connection
        (AudioSession.accept_audio_capture_from_reader reader
           (PermissionSm.is_granted (permission_sm s) bit.AUDIO_CAPTURE)));
      match capture with
      | Some (_, frame_reader) => _ ← spawn (AudioCaptureTask frame_reader); aret Continue
      | None => aret Continue
      end
  | Input =>
      match input_receiver s with
      | Some _ => _ ← stop_reader reader; aret Continue
      | None => _ ← set_input_receiver (Some (InputSession.from_reader reader)); aret Continue
      end
  | _ => _ ← stop_reader reader; aret Continue
  end.

Definition handle_input (message : InputSession.InputMessage) : in_session unit := fun s =>
  let '(r, i) := InputInjection.handle message (permission_sm s) (input_injection s) in
  (Ready r, with_input_injection i s).

Definition release_all {E} : async session E unit :=
  update (fun s => with_input_injection (InputInjection.release_all (input_injection s)) s).

Definition on_input (now : Z) (input : result InputSession.ReadInputError InputSession.InputMessage) :
    in_session flow :=
  match input with
  | Ok message =>
      _ ← set_last_activity now;
      _ ← handle_input message;
      aret Continue
  | Err _ =>
      _ ← release_all;
      _ ← set_input_receiver None;
      aret Continue
  end.

Definition on_clipboard (accept_result :
      result ClipboardSession.ClipboardSessionError (ClipboardSession.Exchange * ClipboardFormats)) :
    in_session flow :=
  '(exchange, fs) ← alift (map_err ConnError.Clipboard accept_result);
  s ← aget;
  if negb (PermissionSm.is_granted (permission_sm s) bit.CLIP_WRITE) then aret Continue
  else
    match formats fs with
    | [] => aret Continue
    | first_format :: _ =>
        _ ← spawn (ClipboardRequestTask exchange
              {| cr_request_id := cf_request_id fs; cr_namespace := entry_namespace first_format;
                 cr_format_id := entry_format_id first_format |});
        aret Continue
    end.

(** ** The loop *)

Inductive arm :=
| Shutdown
| ControlArm (draws : list Z)
| KeepAliveTick
| FrameTick
| DesktopArm
| FeedbackArm
| AudioTick
| IncomingUni
| InputArm
| ClipboardArm.

(** Besides the loop's own turns: the admin queues a command, another task changes
    the store of file handles, a transfer's task reports an error. *)
Inductive event :=
| Turn (now : Z) (a : arm)
| AdminQueues (c : PermissionSm.AdminCommand)
| StoreChanges (o : FileHandleStore.op)
| TransferReports (e : FileTransferError).

(** An arm: its future, and what follows its completion; a future that waits is
    dropped. *)
Definition select {A E} (future : async session E A) (handler : result E A -> in_session flow) :
    in_session flow := fun s =>
  match future s with
  | (Ready r, s) => handler r s
  | (Pending, s) => (Ready (Ok Continue), s)
  | (Elapsed, s) => (Ready (Ok Continue), s)
  | (Crash, s) => (Crash, s)
  end.

Definition on_input_receiver (r : InputSession.InputReceiver) :
    async session InputSession.ReadInputError InputSession.InputMessage :=
  azoom (fun _ => r)
    (fun r s => with_input_receiver (Some r) s)
    InputSession.read_message.

Record params := {
  encoder_config : EncoderConfig;
  granted_permissions : Z;
  session_id : list Z;
  user_id : string;
}.

Definition turn (p : params) (now : Z) (a : arm) : in_session flow := fun s =>
  match a with
  | Shutdown => (_ ← close_gracefully NONE; aret Finished) s
  | _ =>
      if last_activity s + ConnectionSm.defaults.IDLE_TIMEOUT <=? now then athrow ConnError.IdleTimeout s
      else
        match a with
        | Shutdown => aret Continue s
        | ControlArm draws =>
            select (on_control_reader (read_envelope true (max_envelope_length Control)))
              (on_control now draws (session_id p) (user_id p)) s
        | KeepAliveTick => on_keepalive s
        | FrameTick => on_frame_tick (granted_permissions p) (encoder_config p) s
        | DesktopArm =>
            match frame_source (env (video s)) with
            | Synthetic _ _ => aret Continue s
            | Desktop _ _ =>
                select (on_media (next_frame clock encode_task true)) (on_desktop_frame (encoder_config p)) s
            end
        | FeedbackArm =>
            select (on_feedback_receiver FeedbackSession.read_message) (on_feedback now (encoder_config p)) s
        | AudioTick => on_audio_tick s
        | IncomingUni => select (on_connection (accept_incoming_uni true)) on_incoming_uni s
        | InputArm =>
            match input_receiver s with
            | None => aret Continue s
            | Some r => select (on_input_receiver r) (on_input now) s
            end
        | ClipboardArm =>
            select (on_connection (ClipboardSession.accept_clipboard_formats_within true)) on_clipboard s
        end
  end.

(** What a transfer's task does about an error it found: a failed write is only
    logged. *)
Definition report_error (e : FileTransferError) : in_session unit :=
  _ ← atry (E := WriteError) (on_state (write_control type_id.FILE_TRANSFER_ERROR (encode e)));
  aret tt.

Definition step (p : params) (e : event) : in_session flow :=
  match e with
  | Turn now a => turn p now a
  | AdminQueues c =>
      s ← aget;
      _ ← on_state (set_commands (permission_command (state s) ++ [c]));
      aret Continue
  | StoreChanges o =>
      _ ← on_state (fun st =>
        (Ready (Ok tt), {| control_send := control_send st;
                           file_handles := FileHandleStore.run_op (file_handles st) o;
                           permission_command := permission_command st |}));
      aret Continue
  | TransferReports e =>
      _ ← report_error e;
      aret Continue
  end.

(** The loop over the turns and events of a schedule; it waits on when the
    schedule is over. *)
Fixpoint run_active_session (p : params) (events : list event) : in_session unit :=
  match events with
  | [] => fun s => (Pending, s)
  | e :: events' =>
      f ← step p e;
      match f with
      | Finished => aret tt
      | Continue => run_active_session p events'
      end
  end.

(** ** The tasks *)

(** [spawn_file_transfer], on the connection and store it shares; the control
    stream is written to for a reported error only. *)
Definition file_transfer_task (now : Z) (p : params) (request : FileTransferRequest) (file_handle : Z) :
    async (FileTransferSession.transfer_env * SendStream) WriteError unit :=
  outcome ← atry (azoom fst (fun env x => (env, x.2))
    (FileTransferSession.run_file_transfer now (session_id p) (user_id p) request file_handle));
  match outcome with
  | Ok (FileTransferSession.ReportError error) =>
      _ ← atry (E := WriteError) (azoom snd (fun send x => (x.1, send))
            (write_envelope false type_id.FILE_TRANSFER_ERROR (encode error)));
      aret tt
  | _ => aret tt
  end.

(** [spawn_clipboard_announce]. *)
Definition synthetic_formats : ClipboardFormats :=
  {| cf_request_id := 1; formats := [{| entry_namespace := Mime; entry_format_id := "text/plain" |}] |}.

Definition pseudo_data : list Z := chars "hello from sardp-server's synthetic clipboard".

Definition drop_send (send : SendStream) : async Connection WriteError unit := fun c =>
  (Ready (Ok tt), release send c).

Definition clipboard_announce_task : async Connection WriteError unit :=
  announced ← atry (ClipboardSession.announce_clipboard_formats synthetic_formats);
  match announced with
  | Err _ => aret tt
  | Ok exchange =>
      '(request, exchange) ← alocal exchange
        (ClipboardSession.on_reader ClipboardSession.read_clipboard_request);
      match request with
      | Err _ => aret tt
      | Ok request =>
          '(_, exchange) ← alocal exchange (ClipboardSession.on_send
            (ClipboardSession.respond_to_clipboard_request (cr_request_id request) (cr_namespace request)
               (cr_format_id request) pseudo_data None));
          drop_send (ClipboardSession.send exchange)
      end
  end.

(** * Lemmas *)

(** ** What the arms leave alone *)

Lemma fresh_open_uni timed : preserves fresh_opens (open_uni_within timed).
Proof.
  intros c Hc. unfold open_uni_within. pose proof (next_open_fresh timed (uni_opens c)) as Hn.
  destruct (next_open timed (uni_opens c)) as [r evs]. destruct Hn as [_ H2].
  intros s r' Hs. apply (Hc s r'), H2, Hs.
Qed.

Lemma fresh_accept_uni timed : preserves fresh_opens (accept_uni timed).
Proof. intros c Hc. unfold accept_uni. by destruct (next_accept timed (uni_accepts c)). Qed.

Lemma fresh_accept_bi timed : preserves fresh_opens (accept_bi timed).
Proof. intros c Hc. unfold accept_bi. by destruct (next_accept timed (bi_accepts c)). Qed.

#[local] Hint Resolve fresh_open_uni fresh_accept_uni fresh_accept_bi : preserves.

Lemma fresh_open_audio kind config : preserves fresh_opens (AudioSession.open_audio_stream kind config).
Proof. unfold AudioSession.open_audio_stream, open_uni. preserve. Qed.

Lemma fresh_accept_capture reader granted :
  preserves fresh_opens (AudioSession.accept_audio_capture_from_reader reader granted).
Proof.
  destruct granted; unfold AudioSession.accept_audio_capture_from_reader; cbn [negb]; [preserve|].
  by intros c Hc.
Qed.

Lemma fresh_accept_incoming : preserves fresh_opens (accept_incoming_uni true).
Proof. unfold accept_incoming_uni. preserve. Qed.

Lemma fresh_accept_clipboard : preserves fresh_opens (ClipboardSession.accept_clipboard_formats_within true).
Proof. unfold ClipboardSession.accept_clipboard_formats_within. preserve. Qed.

#[local] Hint Resolve fresh_open_audio fresh_accept_capture fresh_accept_incoming fresh_accept_clipboard : preserves.

Lemma preserves_select {A E} (I : session -> Prop) (future : async session E A) handler :
  preserves I future -> (forall r, preserves I (handler r)) -> preserves I (select future handler).
Proof.
  intros Hf Hh s Hs. specialize (Hf s Hs). unfold select.
  destruct (future s) as [[r| | |] s']; try done. by apply Hh.
Qed.

(** What a server writes on the control stream of an active session. *)
Inductive control_message :=
| TimeSyncAnswer (response : TimeSyncResponse)
| Closing (close : SessionClose)
| StillAlive (alive : KeepAlive)
| Update (update : PermissionUpdate)
| Accepted (accept : FileTransferAccept)
| Rejected (reject : FileTransferReject)
| TransferFailed (error : FileTransferError).

Definition message_type (m : control_message) : Z :=
  match m with
  | TimeSyncAnswer _ => type_id.TIME_SYNC_RESPONSE
  | Closing _ => type_id.SESSION_CLOSE
  | StillAlive _ => type_id.KEEP_ALIVE
  | Update _ => type_id.PERMISSION_UPDATE
  | Accepted _ => type_id.FILE_TRANSFER_ACCEPT
  | Rejected _ => type_id.FILE_TRANSFER_REJECT
  | TransferFailed _ => type_id.FILE_TRANSFER_ERROR
  end.

Definition message_payload (m : control_message) : list Z :=
  match m with
  | TimeSyncAnswer m => encode m
  | Closing m => encode m
  | StillAlive m => encode m
  | Update m => encode m
  | Accepted m => encode m
  | Rejected m => encode m
  | TransferFailed m => encode m
  end.

Definition message_bytes (m : control_message) : list Z := Envelope.frame (message_type m) (message_payload m).

Definition write_message (m : control_message) : async shared WriteError unit :=
  write_control (message_type m) (message_payload m).

Definition with_files (fh : FileHandleStore.FileHandleStore) (s : session) : session :=
  with_state {| control_send := control_send (state s); file_handles := fh;
                permission_command := permission_command (state s) |} s.

Definition with_commands (cs : list PermissionSm.AdminCommand) (s : session) : session :=
  with_state {| control_send := control_send (state s); file_handles := file_handles (state s);
                permission_command := cs |} s.

(** A property of a session that does not speak of its file handles, its queue of
    commands, its readers, its permissions, its spawned tasks and its clock, and
    which a message of the server on the control stream does not end. *)
Record background (I : session -> Prop) : Prop := {
  bg_message : forall m, preserves I (on_state (write_message m));
  bg_files : forall fh s, I s -> I (with_files fh s);
  bg_commands : forall cs s, I s -> I (with_commands cs s);
  bg_control_reader : forall r s, I s -> I (with_control_reader r s);
  bg_feedback_receiver : forall r s, I s -> I (with_feedback_receiver r s);
  bg_permission_sm : forall sm s, I s -> I (with_permission_sm sm s);
  bg_input_receiver : forall r s, I s -> I (with_input_receiver r s);
  bg_last_activity : forall now s, I s -> I (with_last_activity now s);
  bg_spawned : forall ts s, I s -> I (with_spawned ts s);
  bg_closed : forall c s, I s -> I (with_closed c s);
  bg_ticks : forall n s, I s -> I (with_ticks n s);
  bg_connection : forall E A (m : async Connection E A), preserves fresh_opens m -> preserves I (on_connection m);
}.

Section keeping.
Variable I : session -> Prop.
Hypothesis bg : background I.
#[local] Notation keeps := (preserves I).

Lemma keeps_message m : keeps (on_state (write_message m)).
Proof using bg. by apply bg_message. Qed.
Lemma keeps_set_commands {E} cs : keeps (on_state (set_commands (E := E) cs)).
Proof using bg. intros s. by apply (bg_commands _ bg cs). Qed.
Lemma keeps_store_op {E} o :
  keeps (on_state (E := E) (fun st =>
    (Ready (Ok tt), {| control_send := control_send st; file_handles := FileHandleStore.run_op (file_handles st) o;
                       permission_command := permission_command st |}))).
Proof using bg. intros s. by apply (bg_files _ bg). Qed.
Lemma keeps_control_reader {E A} (m : async EnvelopeReader E A) : keeps (on_control_reader m).
Proof using bg. apply preserves_zoom. intros s r. by apply bg_control_reader. Qed.
Lemma keeps_feedback_receiver {E A} (m : async FeedbackSession.FeedbackReceiver E A) :
  keeps (on_feedback_receiver m).
Proof using bg. apply preserves_zoom. intros s r. by apply bg_feedback_receiver. Qed.
Lemma keeps_input_receiver r : keeps (on_input_receiver r).
Proof using bg. apply preserves_zoom. intros s r'. by apply bg_input_receiver. Qed.
Lemma keeps_set_permission {E} sm : keeps (set_permission_sm (E := E) sm).
Proof using bg. intros s. by apply bg_permission_sm. Qed.
Lemma keeps_set_input_receiver {E} r : keeps (set_input_receiver (E := E) r).
Proof using bg. intros s. by apply bg_input_receiver. Qed.
Lemma keeps_set_activity {E} now : keeps (set_last_activity (E := E) now).
Proof using bg. intros s. by apply bg_last_activity. Qed.
Lemma keeps_spawn {E} t : keeps (spawn (E := E) t).
Proof using bg. intros s. by apply bg_spawned. Qed.
Lemma keeps_close {E} : keeps (close_connection (E := E)).
Proof using bg. intros s. by apply bg_closed. Qed.
Lemma keeps_now {E} : keeps (on_media (E := E) (now_us clock)).
Proof using bg. intros s Hs. exact (bg_ticks I bg (S (ticks (env (video s)))) s Hs). Qed.
Lemma keeps_sync {E A} (m : async TimeSync.peer E A) :
  keeps (azoom sync_peer (fun p => with_ticks (TimeSync.ticks p)) m).
Proof using bg. apply preserves_zoom. intros s p. by apply bg_ticks. Qed.
Lemma keeps_connection {E A} (m : async Connection E A) : preserves fresh_opens m -> keeps (on_connection m).
Proof using bg. by apply bg_connection. Qed.

#[local] Hint Resolve keeps_set_commands keeps_store_op keeps_control_reader keeps_feedback_receiver
  keeps_input_receiver keeps_set_permission keeps_set_input_receiver keeps_set_activity keeps_spawn keeps_close
  keeps_now keeps_sync keeps_connection : preserves.

Lemma keeps_control m : keeps (control (message_type m) (message_payload m)).
Proof using bg. apply preserves_map_err, keeps_message. Qed.
Lemma keeps_time_sync (r : TimeSyncResponse) : keeps (control type_id.TIME_SYNC_RESPONSE (encode r)).
Proof using bg. apply (keeps_control (TimeSyncAnswer r)). Qed.
Lemma keeps_alive (a : KeepAlive) : keeps (control type_id.KEEP_ALIVE (encode a)).
Proof using bg. apply (keeps_control (StillAlive a)). Qed.
Lemma keeps_update (u : PermissionUpdate) : keeps (control type_id.PERMISSION_UPDATE (encode u)).
Proof using bg. apply (keeps_control (Update u)). Qed.
Lemma keeps_accept (a : FileTransferAccept) : keeps (control type_id.FILE_TRANSFER_ACCEPT (encode a)).
Proof using bg. apply (keeps_control (Accepted a)). Qed.
Lemma keeps_rejection (r : FileTransferReject) : keeps (control type_id.FILE_TRANSFER_REJECT (encode r)).
Proof using bg. apply (keeps_control (Rejected r)). Qed.
#[local] Hint Resolve keeps_time_sync keeps_alive keeps_update keeps_accept keeps_rejection : preserves.

Lemma keeps_try_issue draws sid uid request : keeps (try_issue draws sid uid request).
Proof using bg.
  apply preserves_bind; [apply keeps_now|]. intros now s Hs. unfold on_state, azoom.
  destruct (FileHandleStore.try_issue _ _ _ _ _ _ _ _ _) as [r fh].
  by destruct r; apply (bg_files _ bg fh).
Qed.

Lemma keeps_reject request reason : keeps (reject request reason).
Proof using bg. unfold reject. preserve. Qed.
#[local] Hint Resolve keeps_try_issue keeps_reject : preserves.

Lemma keeps_close_gracefully reason : keeps (close_gracefully reason).
Proof using bg.
  apply preserves_bind; [apply preserves_try, (keeps_message (Closing _))|]. preserve.
Qed.

Lemma keeps_on_control now draws sid uid msg : keeps (on_control now draws sid uid msg).
Proof using bg.
  unfold on_control, on_file_transfer_request, answer_time_sync. preserve.
Qed.

Lemma keeps_report e : keeps (report_error e).
Proof using bg. apply preserves_bind; [apply preserves_try, (keeps_message (TransferFailed e))|]. preserve. Qed.
#[local] Hint Resolve keeps_report : preserves.

Lemma keeps_on_keepalive : keeps on_keepalive.
Proof using bg. unfold on_keepalive. preserve. Qed.

Lemma keeps_drain_commands mask : keeps (drain_commands mask).
Proof using bg.
  unfold drain_commands. preserve. apply preserves_for. intros c. unfold on_admin_command. preserve.
Qed.

Lemma keeps_open_playback : keeps open_playback.
Proof using bg. unfold open_playback. preserve. Qed.

Lemma keeps_on_incoming_uni accepted : keeps (on_incoming_uni accepted).
Proof using bg.
  assert (forall r, keeps (stop_reader r)) as Hr.
  { intros r. apply (keeps_connection (E := conn_error)). by intros c Hc. }
  unfold on_incoming_uni. preserve.
Qed.

Lemma keeps_on_clipboard accepted : keeps (on_clipboard accepted).
Proof using bg. unfold on_clipboard. preserve. Qed.

(** ... nor of the video. *)
Section but_video.
Hypothesis Hvideo : forall v s, I s -> I (with_video v s).

Lemma keeps_video {E A} (m : async ServerVideo.video E A) : keeps (on_video m).
Proof using Hvideo. apply preserves_zoom. auto. Qed.
#[local] Hint Resolve keeps_video keeps_drain_commands : preserves.

Lemma keeps_next_frame timed : keeps (on_media (next_frame clock encode_task timed)).
Proof using Hvideo. unfold on_media. preserve. Qed.

Lemma keeps_on_frame_tick mask config : keeps (on_frame_tick mask config).
Proof using bg Hvideo. unfold on_frame_tick, on_media, send_frame. preserve. Qed.

Lemma keeps_on_desktop_frame config r : keeps (on_desktop_frame config r).
Proof using bg Hvideo. unfold on_desktop_frame, send_frame. preserve. Qed.

Lemma keeps_on_feedback now config r : keeps (on_feedback now config r).
Proof using bg Hvideo. unfold on_feedback, keyframe_request, reopen. preserve. Qed.
End but_video.

(** ... nor of the input. *)
Lemma keeps_on_input now msg :
  (forall i s, I s -> I (with_input_injection i s)) -> keeps (on_input now msg).
Proof using bg.
  intros Hinput.
  assert (forall m, keeps (handle_input m)).
  { intros m s Hs. unfold handle_input. destruct (InputInjection.handle _ _ _) as [r i]. by apply Hinput. }
  assert (keeps (release_all (E := conn_error))) by (intros s Hs; by apply Hinput).
  unfold on_input. preserve.
Qed.

(** ... nor of the audio. *)
Lemma keeps_on_audio_tick :
  (forall send n s, I s -> I (with_audio send n s)) -> keeps on_audio_tick.
Proof using bg.
  intros Haudio. pose proof keeps_open_playback.
  assert (forall send n, keeps (set_audio (E := conn_error) send n)) by (intros send n s Hs; by apply Haudio).
  unfold on_audio_tick. preserve.
Qed.

(** What is left to show of the property for a turn to keep it. *)
Lemma keeps_step p e :
  ((exists now, e = Turn now FrameTick) -> keeps (on_frame_tick (granted_permissions p) (encoder_config p))) ->
  ((exists now, e = Turn now DesktopArm) ->
     keeps (on_media (next_frame clock encode_task true)) /\ forall r, keeps (on_desktop_frame (encoder_config p) r)) ->
  ((exists now, e = Turn now FeedbackArm) -> forall now r, keeps (on_feedback now (encoder_config p) r)) ->
  keeps on_audio_tick -> (forall now r, keeps (on_input now r)) ->
  keeps (step p e).
Proof using bg.
  intros Hframe Hdesktop Hfeedback Haudio Hinput.
  destruct e as [now a|c|o|err]; unfold step; [|preserve..].
  intros s Hs. unfold turn.
  destruct a; [revert s Hs; change (keeps (_ ← close_gracefully NONE; aret Finished));
               pose proof keeps_close_gracefully; preserve|..]; (destruct (_ <=? _); [done|]).
  - apply preserves_select; [preserve|intros r; apply keeps_on_control|done].
  - by apply keeps_on_keepalive.
  - by apply Hframe; [eexists|].
  - destruct (frame_source (env (video s))); [done|].
    destruct Hdesktop as [Hnext Hd]; [by eexists|]. by apply preserves_select.
  - apply preserves_select; [preserve|intros r; apply Hfeedback; by eexists|done].
  - by apply Haudio.
  - by apply preserves_select; [preserve|intros r; apply keeps_on_incoming_uni|].
  - destruct (input_receiver s) as [r|]; [|done]. by apply preserves_select; [preserve|intros r'; apply Hinput|].
  - by apply preserves_select; [preserve|intros r; apply keeps_on_clipboard|].
Qed.

Lemma triple_select {A E} R (future : async session E A) handler :
  preserves I future -> (forall r, triple I (handler r) (fun _ => I) R) ->
  triple I (select future handler) (fun _ => I) R.
Proof.
  clear bg. intros Hf Hh s Hs. specialize (Hf s Hs). unfold select.
  destruct (future s) as [[r| | |] s']; try done. by apply Hh.
Qed.

(** The same for what holds at the head of the loop. *)
Lemma triple_step p e :
  (forall mask, triple I (on_frame_tick mask (encoder_config p)) (fun _ => I) any_error) ->
  keeps (on_media (next_frame clock encode_task true)) ->
  (forall r, triple I (on_desktop_frame (encoder_config p) r) (fun _ => I) any_error) ->
  (forall now r, triple I (on_feedback now (encoder_config p) r) (fun _ => I) any_error) ->
  triple I on_audio_tick (fun _ => I) any_error -> (forall now r, keeps (on_input now r)) ->
  triple I (step p e) (fun _ => I) any_error.
Proof using bg.
  intros Hframe Hnext Hdesktop Hfeedback Haudio Hinput.
  assert (forall A (m : in_session A), keeps m -> triple I m (fun _ => I) any_error) as Hk
    by (intros A m Hm; by eapply triple_any, preserves_triple).
  destruct e as [now a|c|o|err]; unfold step; [|apply Hk; preserve..].
  intros s Hs. unfold turn.
  destruct a; [apply (Hk _ (_ ← close_gracefully NONE; aret Finished));
               [pose proof keeps_close_gracefully; preserve|done]|..]; (destruct (_ <=? _); [done|]).
  - apply triple_select; [preserve|intros r; apply Hk, keeps_on_control|done].
  - by apply Hk; [apply keeps_on_keepalive|].
  - by apply Hframe.
  - destruct (frame_source (env (video s))); [done|]. by apply triple_select; [|intros r; apply Hdesktop|].
  - by apply triple_select; [preserve|intros r; apply Hfeedback|].
  - by apply Haudio.
  - by apply triple_select; [preserve|intros r; apply Hk, keeps_on_incoming_uni|].
  - destruct (input_receiver s) as [r|]; [|done].
    by apply triple_select; [preserve|intros r'; apply Hk, Hinput|].
  - by apply triple_select; [preserve|intros r; apply Hk, keeps_on_clipboard|].
Qed.
End keeping.

(** ** Input *)

#[local] Notation handle := (InputInjection.handle (EncodeError := EncodeError) (JoinError := JoinError)).
#[local] Notation run_input := (InputInjection.run (EncodeError := EncodeError) (JoinError := JoinError)).

(** A session's input has gone through nothing but messages and ends of streams. *)
Definition input_from (i : InputInjection.InputInjection) (s : session) : Prop :=
  exists ops, input_injection s = run_input i ops.

Lemma input_background i : background (input_from i).
Proof. split; try done; intros; by apply preserves_zoom. Qed.

Lemma input_on_input i now msg : preserves (input_from i) (on_input now msg).
Proof.
  assert (forall m, preserves (input_from i) (handle_input m)) as Hh.
  { intros m s [ops Hops]. unfold handle_input.
    assert (input_from i (with_input_injection (handle m (permission_sm s) (input_injection s)).2 s)) as Hi.
    { exists (ops ++ [InputInjection.Message m (permission_sm s)]).
      unfold InputInjection.run in *. by rewrite fold_left_app, <- Hops. }
    by destruct (handle m (permission_sm s) (input_injection s)) as [[x|e] inj]. }
  assert (preserves (input_from i) (release_all (E := conn_error))) as Hr.
  { intros s [ops Hops]. exists (ops ++ [InputInjection.StreamEnd]).
    unfold InputInjection.run in *. by rewrite fold_left_app, <- Hops. }
  assert (forall t, preserves (input_from i) (set_last_activity (E := conn_error) t)) by (by intros t s).
  assert (forall r, preserves (input_from i) (set_input_receiver (E := conn_error) r)) by (by intros r s).
  unfold on_input. preserve.
Qed.

Lemma input_step i p e : preserves (input_from i) (step p e).
Proof.
  pose proof (input_background i) as bg. apply keeps_step; [done|..].
  - intros _. by apply keeps_on_frame_tick.
  - intros _. split; [by apply keeps_next_frame|]. intros r. by apply keeps_on_desktop_frame.
  - intros _ now r. by apply keeps_on_feedback.
  - by apply keeps_on_audio_tick.
  - apply input_on_input.
Qed.

Lemma input_run i p events : preserves (input_from i) (run_active_session p events).
Proof.
  induction events as [|e events IH]; [by intros s|]. cbn [run_active_session].
  apply preserves_bind; [apply input_step|]. intros []; [exact IH|]. apply preserves_ret.
Qed.

(** What releasing everything then leaves. *)
Lemma input_from_released sk s :
  sk = InputInjection.Log \/ sk = InputInjection.Os true [] \/ (exists reason, sk = InputInjection.Unavailable reason) ->
  input_from (InputInjection.new sk) s ->
  let i := InputInjection.release_all (input_injection s) in
  InputInjection.held (InputInjection.emitted i) = InputState.new_pressed /\ InputInjection.all_injected i.
Proof.
  intros Hsk [ops Hops] i.
  pose proof (InputInjection.run_in_step (EncodeError := EncodeError) (JoinError := JoinError)
    (InputInjection.new sk) ops (InputInjection.new_in_step sk Hsk)) as Hin. rewrite <- Hops in Hin.
  destruct (InputInjection.release_all_in_step _ Hin) as [Hr Hh]. split; [exact Hh|]. apply Hr.
Qed.

(** ** Video *)

Definition session_video (start : Z) (config : EncoderConfig) (s : session) : Prop :=
  video_ok start config (video s).

Lemma video_ok_env start config v e :
  video_ok start config v -> fresh_opens (connection e) ->
  video_ok start config {| env := e; video_channel := video_channel v; video_send := video_send v;
                           reset_streams := reset_streams v; frame_id := frame_id v |}.
Proof. intros ((Hf & Hr & Hg & Hn) & Hl) He. by split; [split|]. Qed.

Lemma video_background start config : background (session_video start config).
Proof.
  split; try done; [intros m; by apply preserves_zoom|]. intros E A m Hm. unfold on_connection, on_media, on_video, on_env, ServerVideo.on_connection.
  apply preserves_zoom_in with (J := video_ok start config); [|done..].
  apply preserves_zoom_in with (J := fun e => fresh_opens (connection e)).
  - by apply preserves_zoom_in with (J := fresh_opens).
  - intros v Hv. apply Hv.
  - intros v e Hv He. by apply video_ok_env.
Qed.

Lemma video_on_env start config {E A} (m : async media E A) R :
  (forall c, triple (fun e => connection e = c) m (fun _ e => connection e = c) R) ->
  triple (session_video start config) (on_media m) (fun _ => session_video start config) any_error.
Proof.
  intros Hm. apply triple_zoom. intros s Hs v ->.
  pose proof (Hm (connection (env (video s))) (env (video s)) eq_refl) as H1. unfold on_env, azoom.
  destruct (m (env (video s))) as [[[x|e]| | |] m']; try done.
  apply video_ok_env; [exact Hs|]. rewrite H1. apply Hs.
Qed.

Lemma in_sequence_channel start config v c :
  in_sequence start config v -> VideoChannel.generation c = VideoChannel.generation (video_channel v) ->
  in_sequence start config {| env := env v; video_channel := c; video_send := video_send v;
                              reset_streams := reset_streams v; frame_id := frame_id v |}.
Proof.
  intros (Hf & Hr & Hg & n & Hid & Hc) He. unfold in_sequence. cbn [env video_channel video_send reset_streams frame_id].
  rewrite He. split_and!; [done..|]. by exists n.
Qed.

(** A sample fed to a live channel is never refused. *)
Lemma triple_on_feedback_channel start config now delay :
  triple (video_ok start config) (channel_op (VideoChannel.on_feedback now delay 0))
    (fun d v => in_sequence start config v /\
       match d with
       | Backpressure.ResetStream => reset_channel (video_channel v)
       | _ => live_channel (video_channel v)
       end) (fun (e : conn_error) _ => False).
Proof.
  intros v [Hq (Hs & Hc & Hl)].
  destruct (VideoChannel.on_feedback_live now delay 0 (video_channel v) Hs Hl)
    as (d & c' & Hd & Hs' & Hi & Hch & _ & Hg & _).
  unfold channel_op, ServerVideo.on_channel, azoom. rewrite Hd. cbn [map_err].
  split; [by apply in_sequence_channel|]. cbn [video_channel].
  destruct d; cbn [live_channel]; (split; [done|]); rewrite ?Hch, ?Hi; auto.
Qed.

Lemma triple_keyframe_channel start config now r :
  triple (video_ok start config)
    (ServerVideo.on_channel (fun c =>
       let '(d, c') := VideoChannel.on_keyframe_request now r c in (Ready (Ok d), c')))
    (fun d v => in_sequence start config v /\
       match d with
       | VideoChannel.Reopen => reset_channel (video_channel v)
       | VideoChannel.Ignored _ => live_channel (video_channel v)
       end) (fun (e : conn_error) _ => False).
Proof.
  intros v [Hq Hl]. unfold ServerVideo.on_channel, azoom.
  pose proof (VideoChannel.keyframe_cases now r (video_channel v)) as Hk.
  pose proof (VideoChannel.synced_invoke (video_channel v) (VideoChannel.KeyframeReq now r) (proj1 Hl) I) as Hs.
  cbn [VideoChannel.invoke] in Hs.
  destruct (VideoChannel.on_keyframe_request now r (video_channel v)) as [[|why] c'].
  - destruct Hk as (_ & Hi & _ & _ & Hg & _). split; [by apply in_sequence_channel|]. by split.
  - subst c'. split; [by apply in_sequence_channel|exact Hl].
Qed.

(** Errors of the feedback arm: its stream's, or those of a reopening. *)
Definition feedback_arm_error (e : conn_error) : Prop :=
  reopen_error e \/ exists e', e = ConnError.Feedback e'.

Lemma triple_reopen_arm start config :
  triple (fun s => in_sequence start config (video s) /\ reset_channel (video_channel (video s)))
    (reopen config) (fun _ => session_video start config) (fun e _ => feedback_arm_error e).
Proof.
  apply triple_zoom. intros s Hs. eapply triple_conseq; [apply triple_reopen|by intros v ->| |by left].
  by intros u v [Hv _].
Qed.

Lemma triple_feedback_arm start config now msg :
  triple (session_video start config) (on_feedback now config msg) (fun _ => session_video start config)
    (fun e _ => feedback_arm_error e).
Proof.
  unfold on_feedback. eapply triple_bind with (Q := fun _ => session_video start config); [by intros s Hs|intros u].
  eapply triple_bind with (Q := fun _ => session_video start config); [by intros s Hs|intros t].
  eapply triple_bind with (Q := fun _ => session_video start config).
  { apply triple_lift. intros s Hs. destruct msg; cbn; [done|]. right. by eexists. }
  intros [feedback|sync|request]; [..|].
  - eapply triple_bind.
    { apply triple_zoom. intros s Hs.
      eapply triple_conseq; [apply triple_on_feedback_channel|by intros v ->| |done].
      intros d v Hv. instantiate (1 := fun d s => in_sequence start config (video s) /\
        match d with Backpressure.ResetStream => reset_channel (video_channel (video s))
                   | _ => live_channel (video_channel (video s)) end). exact Hv. }
    intros []; [by apply triple_ret..|]. eapply triple_bind; [apply triple_reopen_arm|intros u']. by apply triple_ret.
  - by apply triple_ret.
  - eapply triple_bind.
    { apply triple_zoom. intros s Hs.
      eapply triple_conseq; [apply triple_keyframe_channel|by intros v ->| |done].
      intros d v Hv. instantiate (1 := fun d s => in_sequence start config (video s) /\
        match d with VideoChannel.Reopen => reset_channel (video_channel (video s))
                   | _ => live_channel (video_channel (video s)) end). exact Hv. }
    intros []; [|by apply triple_ret]. eapply triple_bind; [apply triple_reopen_arm|intros u']. by apply triple_ret.
Qed.

Lemma triple_send_frame_arm start config f :
  triple (session_video start config) (send_frame config f) (fun _ => session_video start config) any_error.
Proof.
  apply triple_zoom. intros s Hs. eapply triple_conseq; [apply triple_send_next|by intros v ->|done|done].
Qed.

Lemma video_next_frame start config timed : preserves (session_video start config) (on_media (next_frame clock encode_task timed)).
Proof.
  apply preserves_zoom_in with (J := video_ok start config); [|done..].
  apply preserves_zoom_in with (J := fun e => fresh_opens (connection e));
    [|intros v Hv; apply Hv|intros v e Hv He; by apply video_ok_env].
  intros e He. unfold next_frame. destruct (frame_source e) as [w h|coming n].
  - refine ((_ : preserves (fun e => fresh_opens (connection e)) _) e He).
    assert (forall t, preserves (fun e => fresh_opens (connection e)) (await_encode (EncodeError := EncodeError) encode_task timed t)).
    { intros t m Hm. unfold await_encode. by destruct (encode_task t) as [[[]|]|]. }
    assert (preserves (fun e => fresh_opens (connection e)) (now_us (E := conn_error) clock)) by by intros m Hm.
    preserve.
  - refine ((_ : preserves (fun e => fresh_opens (connection e)) _) e He).
    assert (preserves (fun e => fresh_opens (connection e)) (next_encoded (EncodeError := EncodeError) (JoinError := JoinError) timed)).
    { intros m Hm. unfold next_encoded. destruct (frame_source m); [done|]. by destruct (recv_desktop timed coming0). }
    preserve.
Qed.

Lemma triple_frame_tick start config mask :
  triple (session_video start config) (on_frame_tick mask config) (fun _ => session_video start config) any_error.
Proof using Cbor0 Cbor1 Cbor10 Cbor11 Cbor2 Cbor4 Cbor5 Cbor6 Cbor7 Cbor9 EncodeError H JoinError clock encode_task.
  pose proof (video_background start config) as bg. unfold on_frame_tick.
  eapply triple_bind; [by eapply triple_any, preserves_triple, keeps_drain_commands|intros u].
  eapply triple_bind; [by apply triple_get with (Q := fun _ => session_video start config)|intros s].
  destruct (negb _); [by apply triple_ret|]. destruct (frame_source _); [|by apply triple_ret].
  eapply triple_bind; [eapply triple_any, preserves_triple, video_next_frame|intros [f|]]; [|by apply triple_ret].
  eapply triple_bind; [apply triple_send_frame_arm|intros u']. by apply triple_ret.
Qed.

Lemma triple_desktop_arm start config r :
  triple (session_video start config) (on_desktop_frame config r) (fun _ => session_video start config) any_error.
Proof.
  unfold on_desktop_frame.
  eapply triple_bind; [eapply triple_any, preserves_triple, preserves_lift|intros f].
  eapply triple_bind; [eapply triple_any, preserves_triple, preserves_lift|intros f'].
  eapply triple_bind; [by apply triple_get with (Q := fun _ => session_video start config)|intros s].
  destruct (negb _); [by apply triple_ret|].
  eapply triple_bind; [apply triple_send_frame_arm|intros u']. by apply triple_ret.
Qed.

(** ** Audio *)

(** Frames of the synthetic tone with the sequence numbers [k], [k + 1], ...,
    captured at the times [ts]. *)
Fixpoint tone_frames (k : nat) (ts : list Z) : list (Z * Z * Z * list Z) :=
  match ts with
  | [] => []
  | t :: ts => (wrap 64 (Z.of_nat k), t, 20000, generate_sine_wave_payload 960 48000) :: tone_frames (S k) ts
  end.

(** The stream carries the configuration and the frames of the tone in sequence,
    and [next] is the number after them. *)
Definition carries_tone (send : SendStream) (next : Z) : Prop :=
  exists pb ts,
    Prologue.encode AudioPlayback 1 0 [] = Done pb /\ next = wrap 64 (Z.of_nat (length ts)) /\
    sent send = pb ++ Envelope.frame type_id.AUDIO_CONFIG (encode audio_config)
                   ++ concat (map AudioSession.frame_bytes (tone_frames 0 ts)).

Definition audio_in_sequence (s : session) : Prop :=
  match audio_playback_send s with
  | None => audio_sequence s = 0
  | Some send => carries_tone send (audio_sequence s)
  end.

Lemma background_and (I J : session -> Prop) : background I -> background J -> background (fun s => I s /\ J s).
Proof. intros [] []. split; try (intros ? ? []; solve [split; auto]); intros; apply preserves_and; auto. Qed.

Lemma tone_frames_snoc k ts t :
  tone_frames k (ts ++ [t])
  = tone_frames k ts ++ [(wrap 64 (Z.of_nat (k + length ts)), t, 20000, generate_sine_wave_payload 960 48000)].
Proof.
  revert k. induction ts as [|u ts IH]; intros k; cbn [tone_frames app length]; [by rewrite Nat.add_0_r|].
  rewrite IH. by rewrite Nat.add_succ_r.
Qed.

Lemma triple_audio_message t p b :
  triple (fun s => sent s = b) (AudioSession.send_message t p) (fun _ s => sent s = b ++ Envelope.frame t p) any_error.
Proof. apply triple_map_err. eapply triple_any, triple_write_envelope. Qed.

Lemma triple_audio_frame f b :
  triple (fun s => sent s = b) (AudioSession.send_frame f) (fun _ s => sent s = b ++ AudioSession.frame_bytes f) any_error.
Proof.
  destruct f as [[[seq capture] duration] payload]. unfold AudioSession.send_frame, AudioSession.send_audio_frame.
  eapply triple_bind; [apply triple_audio_message|intros u].
  eapply triple_bind; [apply triple_audio_message|intros u'].
  apply triple_ret. intros s ->. by rewrite <- app_assoc.
Qed.

Lemma triple_open_audio kind config :
  triple fresh_opens (AudioSession.open_audio_stream kind config)
    (fun send c => fresh_opens c /\ exists pb, Prologue.encode kind 1 0 [] = Done pb /\
       sent send = pb ++ Envelope.frame type_id.AUDIO_CONFIG (encode config)) any_error.
Proof.
  unfold AudioSession.open_audio_stream.
  eapply triple_bind; [apply triple_map_err, (triple_open_uni false)|intros send].
  apply triple_outcome_bind. intros pb Hpb.
  eapply triple_bind with (Q := fun p c => fresh_opens c /\ sent p.2 = pb ++ Envelope.frame type_id.AUDIO_CONFIG (encode config)).
  - apply triple_local_try. intros c [Hs Hf]. eapply (triple_pre _ (fun s => sent s = [])); [|by intros s ->].
    eapply triple_bind; [apply triple_map_err; eapply triple_any, triple_write_all|intros u].
    eapply triple_post; [apply triple_audio_message|]. cbn. by intros x s ->.
  - intros [u s']. apply triple_ret. intros c [Hf Hs]. split; [done|]. by exists pb.
Qed.

Definition session_streams (start : Z) (config : EncoderConfig) (s : session) : Prop :=
  session_video start config s /\ audio_in_sequence s.

Lemma streams_background start config : background (session_streams start config).
Proof.
  apply background_and; [apply video_background|]. split; try done; intros; by apply preserves_zoom.
Qed.

Lemma triple_open_playback start config :
  triple (session_video start config) open_playback
    (fun send s => session_video start config s /\ exists pb, Prologue.encode AudioPlayback 1 0 [] = Done pb /\
       sent send = pb ++ Envelope.frame type_id.AUDIO_CONFIG (encode audio_config)) any_error.
Proof.
  apply triple_map_err. unfold on_connection, on_media, on_video.
  apply triple_zoom. intros s Hs. apply triple_zoom. intros v ->. apply triple_zoom. intros e ->.
  eapply triple_conseq; [apply triple_open_audio|intros c ->; apply Hs| |done].
  intros send c [Hf Hb]. split; [|exact Hb]. by apply video_ok_env.
Qed.

Lemma carries_tone_snoc send send' next t :
  carries_tone send next ->
  sent send' = sent send ++ AudioSession.frame_bytes (next, t, 20000, generate_sine_wave_payload 960 48000) ->
  carries_tone send' (wrap 64 (next + 1)).
Proof.
  intros (pb & ts & Hpb & -> & Hs) Hs'. exists pb, (ts ++ [t]). split_and!; [done|..].
  - rewrite length_app, wrap_64_succ. f_equal. cbn. lia.
  - rewrite Hs', Hs, tone_frames_snoc, map_app, concat_app. cbn [map concat].
    by rewrite app_nil_r, <- !app_assoc.
Qed.

Lemma triple_audio_tick start config :
  triple (session_streams start config) on_audio_tick (fun _ => session_streams start config) any_error.
Proof.
  intros s0 [Hv Ha]. unfold on_audio_tick. erewrite abind_ready by reflexivity.
  destruct (negb _); [by split|].
  refine ((_ : triple (fun s => s = s0) _ _ _) s0 eq_refl).
  set (n := audio_sequence s0).
  eapply triple_bind with (Q := fun send s => session_video start config s /\ carries_tone send n).
  { unfold audio_in_sequence in Ha. destruct (audio_playback_send s0) as [send|].
    - apply triple_ret. by intros s ->.
    - eapply triple_conseq; [apply triple_open_playback|by intros s ->| |done].
      intros send s (Hs & pb & Hpb & Hb). split; [done|]. exists pb, [].
      cbn [tone_frames map concat length]. by rewrite app_nil_r. }
  intros send.
  eapply triple_bind with (Q := fun _ s => session_video start config s /\ carries_tone send n); [by intros s Hs|intros u].
  eapply triple_bind with (Q := fun _ s => session_video start config s /\ carries_tone send n); [by intros s Hs|intros t].
  eapply triple_bind with (Q := fun p s => session_video start config s /\
    match p.1 with Ok _ => carries_tone p.2 (wrap 64 (n + 1)) | Err _ => True end).
  { apply triple_local. intros s [Hs Hc]. eapply triple_conseq;
      [apply (triple_audio_frame (n, t, 20000, generate_sine_wave_payload 960 48000) (sent send))|by intros s' ->|..].
    - cbn. intros u' s' Hs'. split; [done|]. by eapply carries_tone_snoc.
    - by intros e s'. }
  intros [r send']. cbn [fst snd].
  eapply triple_bind with (Q := fun _ s => session_video start config s /\
    match r with Ok _ => carries_tone send' (wrap 64 (n + 1)) | Err _ => True end); [by intros s Hs|intros u'].
  destruct r as [x|e]; [|by intros s Hs].
  eapply triple_bind; [by apply triple_ret with (Q := fun _ s => session_video start config s /\ carries_tone send' (wrap 64 (n + 1)))|].
  intros y. eapply triple_bind with (Q := fun _ => session_streams start config).
  { intros s [Hs Hc]. by split. }
  intros u''. by apply triple_ret.
Qed.

Lemma audio_background : background audio_in_sequence.
Proof. split; try done; intros; by apply preserves_zoom. Qed.

Lemma streams_step start p e :
  triple (session_streams start (encoder_config p)) (step p e)
    (fun _ => session_streams start (encoder_config p)) any_error.
Proof.
  pose proof (video_background start (encoder_config p)) as bv. pose proof audio_background as ba.
  apply triple_step; [apply streams_background|..].
  - intros mask. apply triple_and; [apply triple_frame_tick|]. by apply keeps_on_frame_tick.
  - apply preserves_and; [apply video_next_frame|]. by apply keeps_next_frame.
  - intros r. apply triple_and; [apply triple_desktop_arm|]. by apply keeps_on_desktop_frame.
  - intros now r. apply triple_and; [eapply triple_any, triple_feedback_arm|]. by apply keeps_on_feedback.
  - apply triple_audio_tick.
  - intros now r. apply preserves_and; by apply keeps_on_input.
Qed.

(** ** Reaching the head of the loop *)

Inductive reaches (p : params) (s0 : session) : list event -> session -> Prop :=
| reaches_start : reaches p s0 [] s0
| reaches_step events s e s' :
    reaches p s0 events s -> step p e s = (Ready (Ok Continue), s') -> reaches p s0 (events ++ [e]) s'.

Lemma reaches_streams start p s0 events s :
  reaches p s0 events s -> session_streams start (encoder_config p) s0 -> session_streams start (encoder_config p) s.
Proof.
  induction 1 as [|events s e s' _ IH Hstep]; [done|]. intros Hi.
  exact (triple_ok _ _ _ _ _ _ _ (streams_step start p e) (IH Hi) Hstep).
Qed.

(** ** Writing on control *)

(** What a message on the control stream changes. *)
Definition wrote (t : Z) (payload : list Z) (s s' : session) : Prop :=
  exists send, sent send = sent (control_send (state s)) ++ Envelope.frame t payload /\
    s' = with_state {| control_send := send; file_handles := file_handles (state s);
                       permission_command := permission_command (state s) |} s.

Lemma triple_control t payload s0 :
  triple (fun s => s = s0) (control t payload) (fun _ s => wrote t payload s0 s) any_error.
Proof.
  apply triple_map_err. apply triple_zoom. intros s ->. apply triple_zoom. intros st ->.
  eapply triple_any, triple_post;
    [eapply triple_pre; [apply triple_write_envelope with (b := sent (control_send (state s0)))|by intros x ->]|].
  intros u x Hx. by exists x.
Qed.

(** A request taken off the control stream at [now]: the session with its activity
    noted, and with the clock read once more. *)
Definition request_read (now : Z) (s : session) : session := with_last_activity now s.
Definition request_timed (now : Z) (s : session) : session :=
  with_ticks (S (ticks (env (video s)))) (with_last_activity now s).

(** A rejection is all that happens. *)
Definition rejects (request : FileTransferRequest) (reason : ReasonCode) (s s' : session) : Prop :=
  wrote type_id.FILE_TRANSFER_REJECT
    (encode {| ftj_request_id := ftr_request_id request; ftj_reason := reason |}) s s'.

(** The handle [h] with [record] is stored, reported to the client and given to a task. *)
Definition accepts (request : FileTransferRequest) (h : Z) (record : FileHandleStore.FileHandleRecord)
    (s s' : session) : Prop :=
  exists s1,
    wrote type_id.FILE_TRANSFER_ACCEPT
      (encode {| fta_request_id := ftr_request_id request; fta_file_handle := h;
                 fta_resolved_size := declared_size request;
                 fta_expiry_ts := FileHandleStore.expiry_ts record |})
      (with_state {| control_send := control_send (state s);
                     file_handles := {| FileHandleStore.handles :=
                       <[h := record]> (FileHandleStore.handles (file_handles (state s))) |};
                     permission_command := permission_command (state s) |} s) s1 /\
    s' = with_spawned (spawned s1 ++ [FileTransferTask request h]) s1.

Definition new_record (sid : list Z) (uid : string) (request : FileTransferRequest) (issued : Z) :
    FileHandleStore.FileHandleRecord :=
  {| FileHandleStore.session_id := sid; FileHandleStore.user_id := uid;
     FileHandleStore.direction := ftr_direction request;
     FileHandleStore.resolved_size := declared_size request;
     FileHandleStore.expiry_ts := wrap 64 (issued + FILE_HANDLE_TTL) |}.

Lemma triple_try_issue draws sid uid request s0 :
  let store := FileHandleStore.handles (file_handles (state s0)) in
  let s1 := with_ticks (S (ticks (env (video s0)))) s0 in
  let record := new_record sid uid request (clock (ticks (env (video s0)))) in
  triple (fun s => s = s0) (try_issue draws sid uid request)
    (fun r s =>
       match r with
       | FileHandleStore.Issued h expiry =>
           Z.of_nat (size store) < MAX_CONCURRENT_FILE_TRANSFERS /\ store !! h = None /\
           expiry = FileHandleStore.expiry_ts record /\
           s = with_state {| control_send := control_send (state s0);
                             file_handles := {| FileHandleStore.handles := <[h := record]> store |};
                             permission_command := permission_command (state s0) |} s1
       | _ => MAX_CONCURRENT_FILE_TRANSFERS <= Z.of_nat (size store) /\ s = s1
       end) (fun (e : conn_error) _ => False).
Proof.
  cbv zeta. intros s ->. unfold try_issue. erewrite abind_ready by reflexivity.
  unfold on_state, azoom, FileHandleStore.try_issue.
  change (file_handles (state (with_video _ s0))) with (file_handles (state s0)).
  destruct (Z.leb_spec MAX_CONCURRENT_FILE_TRANSFERS (Z.of_nat (size (FileHandleStore.handles (file_handles (state s0)))))) as [Hl|Hl].
  - split; [done|]. by destruct s0 as [v [] ? ? ? ? ? ? ? ? ? ?].
  - destruct (FileHandleStore.draw_handle draws _) as [h|] eqn:E; [|done].
    destruct (FileHandleStore.draw_handle_fresh _ _ _ E). split_and!; [done..|].
    reflexivity.
Qed.

(** Every way a request can go: it is answered as [Q] says, the write of the answer
    failed or stalled, or the generator is still [drawing]. *)
Definition ends_as (ws : list write_event) (drawing : Prop) (Q : session -> Prop) (r : poll conn_error flow * session) :
    Prop :=
  match r with
  | (Ready (Ok f), s') => f = Continue /\ Q s'
  | (Ready (Err e), _) => exists n we rest, ws = WFail n we :: rest /\ e = ConnError.Write we
  | (Pending, _) => drawing \/ exists n rest, ws = WStall n :: rest
  | _ => False
  end.

Lemma ends_as_control t payload (rest : in_session flow) drawing Q s :
  Z.of_nat (length payload) <= Varint.MAX ->
  (forall s', wrote t payload s s' -> ends_as (write_results (control_send (state s))) drawing Q (rest s')) ->
  ends_as (write_results (control_send (state s))) drawing Q ((_ ← control t payload; rest) s).
Proof.
  intros Hp Hrest.
  assert (Hw : control t payload s
    = (match head (write_results (control_send (state s))) with
       | Some (WFail _ e) => Ready (Err (ConnError.Write e))
       | Some (WStall _) => Pending
       | _ => Ready (Ok tt)
       end,
       with_state {| control_send :=
           {| sent := sent (control_send (state s))
                ++ match head (write_results (control_send (state s))) with
                   | Some (WFail n _ | WStall n) => take n (Envelope.frame t payload)
                   | _ => Envelope.frame t payload
                   end;
              write_results := tail (write_results (control_send (state s))) |};
         file_handles := file_handles (state s); permission_command := permission_command (state s) |} s)).
  { unfold control, amap_err, on_state, write_control, set_control_send, azoom, write_envelope.
    rewrite (abind_ready _ _ _ (Envelope.frame t payload) (control_send (state s))).
    2: { unfold aoutcome. by rewrite Envelope.encode_frame. }
    unfold write_all. by destruct (write_results (control_send (state s))) as [|[] ws]. }
  unfold mbind, async_bind, abind. rewrite Hw.
  destruct (write_results (control_send (state s))) as [|[|n e|n] ws]; cbn [head tail].
  - apply Hrest. by refine (ex_intro _ {| sent := _; write_results := _ |} (conj _ eq_refl)).
  - apply Hrest. by refine (ex_intro _ {| sent := _; write_results := _ |} (conj _ eq_refl)).
  - cbn. by exists n, e, ws.
  - cbn. right. by exists n, ws.
Qed.

Definition rejection (request : FileTransferRequest) (reason : ReasonCode) : list Z :=
  encode {| ftj_request_id := ftr_request_id request; ftj_reason := reason |}.

Definition acceptance (request : FileTransferRequest) (h expiry : Z) : list Z :=
  encode {| fta_request_id := ftr_request_id request; fta_file_handle := h;
            fta_resolved_size := declared_size request; fta_expiry_ts := expiry |}.

(** The answers that the session may give are short enough for an envelope. *)
Definition answers_fit (draws sid : list Z) (uid : string) (request : FileTransferRequest) (s : session) : Prop :=
  (forall reason,
    PermissionSm.check_gate (permission_sm s) (FileTransferSession.required_permission_bit (ftr_direction request))
      = Err reason -> Z.of_nat (length (rejection request reason)) <= Varint.MAX) /\
  Z.of_nat (length (rejection request POLICY_FILE_POLICY_REJECTED)) <= Varint.MAX /\
  (forall h, FileHandleStore.draw_handle draws (FileHandleStore.handles (file_handles (state s))) = Some h ->
    Z.of_nat (length (acceptance request h
      (FileHandleStore.expiry_ts (new_record sid uid request (clock (ticks (env (video s)))))))) <= Varint.MAX).

Lemma ends_as_reject request reason drawing s :
  Z.of_nat (length (rejection request reason)) <= Varint.MAX ->
  ends_as (write_results (control_send (state s))) drawing (rejects request reason s) (reject request reason s).
Proof. intros Hf. unfold reject. by apply ends_as_control. Qed.

(** What follows the gate. *)
Lemma ends_as_issue draws sid uid request s0 :
  answers_fit draws sid uid request s0 ->
  let store := FileHandleStore.handles (file_handles (state s0)) in
  let s1 := with_ticks (S (ticks (env (video s0)))) s0 in
  let record := new_record sid uid request (clock (ticks (env (video s0)))) in
  ends_as (write_results (control_send (state s0)))
    (Z.of_nat (size store) < MAX_CONCURRENT_FILE_TRANSFERS /\ FileHandleStore.draw_handle draws store = None)
    (fun s' =>
       if MAX_CONCURRENT_FILE_TRANSFERS <=? Z.of_nat (size store) then
         rejects request POLICY_FILE_POLICY_REJECTED s1 s'
       else exists h, store !! h = None /\ accepts request h record s1 s')
    ((issued ← try_issue draws sid uid request;
      match issued with
      | FileHandleStore.Issued file_handle expiry_ts =>
          _ ← control type_id.FILE_TRANSFER_ACCEPT
                (encode {| fta_request_id := ftr_request_id request; fta_file_handle := file_handle;
                           fta_resolved_size := declared_size request; fta_expiry_ts := expiry_ts |});
          _ ← spawn (FileTransferTask request file_handle);
          aret Continue
      | _ => reject request POLICY_FILE_POLICY_REJECTED
      end) s0).
Proof.
  intros (_ & Hpolicy & Haccept). cbv zeta.
  pose proof (triple_try_issue draws sid uid request s0 s0 eq_refl) as Ht. cbv zeta in Ht.
  set (store := FileHandleStore.handles (file_handles (state s0))) in *.
  destruct (try_issue draws sid uid request s0) as [r s1] eqn:Et.
  assert (Hr : match r with Ready (Ok FileHandleStore.Drawing) | Elapsed | Crash => False
               | Pending => Z.of_nat (size store) < MAX_CONCURRENT_FILE_TRANSFERS /\ FileHandleStore.draw_handle draws store = None
               | Ready (Ok (FileHandleStore.Issued h _)) => FileHandleStore.draw_handle draws store = Some h
               | _ => True end).
  { unfold try_issue in Et. erewrite abind_ready in Et by reflexivity. unfold on_state, azoom, FileHandleStore.try_issue in Et.
    change (file_handles (state (with_video _ s0))) with (file_handles (state s0)) in Et. fold store in Et.
    destruct (Z.leb_spec MAX_CONCURRENT_FILE_TRANSFERS (Z.of_nat (size store))); [by injection Et as <- _|].
    destruct (FileHandleStore.draw_handle draws store) as [h|] eqn:Eh; by injection Et as <- _. }
  unfold mbind at 1, async_bind, abind at 1. rewrite Et. destruct r as [[[h expiry| |]|e]| | |]; try done.
  - destruct Ht as (Hl & Hfree & -> & ->). rewrite (proj2 (Z.leb_gt _ _) Hl).
    refine (ends_as_control _ _ _ _ _ _ (Haccept h Hr) _). intros s' Hs'. cbn. split; [done|]. exists h. split; [done|]. by exists s'.
  - destruct Ht as (Hl & ->). rewrite (proj2 (Z.leb_le _ _) Hl).
    by apply (ends_as_reject request _ _ (with_ticks (S (ticks (env (video s0)))) s0)).
  - by left.
Qed.

Lemma accepted_validates sid uid request issued h s s' :
  accepts request h (new_record sid uid request issued) s s' ->
  forall t, t <= wrap 64 (issued + FILE_HANDLE_TTL) ->
    FileHandleStore.validate t h sid uid (ftr_direction request) (file_handles (state s'))
    = Ok (new_record sid uid request issued).
Proof.
  intros (s1 & (send & _ & ->) & ->) t Ht. unfold FileHandleStore.validate.
  cbn [with_spawned with_state state file_handles FileHandleStore.handles].
  rewrite lookup_insert_eq. cbn [ok_or mbind result_bind new_record FileHandleStore.session_id
    FileHandleStore.user_id FileHandleStore.direction FileHandleStore.expiry_ts].
  rewrite !bool_decide_true by done. cbn [negb]. by rewrite (proj2 (Z.ltb_ge _ _) Ht).
Qed.

(** ** What is on the control stream *)

(** What a message leaves on the stream: it whole, or as much of it as was accepted by
    a write that failed or never came back. *)
Definition piece (w : option write_event) (m : control_message) : list Z :=
  match w with Some (WFail n _ | WStall n) => take n (message_bytes m) | _ => message_bytes m end.

(** [ms], written one after the other on a stream whose writes go as [ws] says. *)
Fixpoint written (ws : list write_event) (ms : list control_message) : list Z :=
  match ms with
  | [] => []
  | m :: ms => piece (head ws) m ++ written (tail ws) ms
  end.

(** Messages of the server follow [before], with the writes going as [ws] says. *)
Definition control_typed (before : list Z) (ws : list write_event) (s : session) : Prop :=
  exists ms, Forall (fun m => Z.of_nat (length (message_payload m)) <= Varint.MAX) ms /\
    sent (control_send (state s)) = before ++ written ws ms /\
    write_results (control_send (state s)) = drop (length ms) ws.

Lemma tail_drop {A} n (l : list A) : tail (drop n l) = drop (S n) l.
Proof. revert l. induction n as [|n IH]; intros [|x l]; try done. apply (IH l). Qed.

Lemma written_snoc ws ms m : written ws (ms ++ [m]) = written ws ms ++ piece (head (drop (length ms) ws)) m.
Proof.
  revert ws. induction ms as [|m' ms IH]; intros ws; cbn [written app length]; [by rewrite app_nil_r, drop_0|].
  rewrite IH, <- app_assoc. by destruct ws as [|w ws]; cbn [tail drop]; rewrite ?drop_nil.
Qed.

Lemma written_whole ws ms : Forall (fun w => w = WDone) ws -> written ws ms = concat (map message_bytes ms).
Proof.
  intros Hws. revert ws Hws. induction ms as [|m ms IH]; intros ws Hws; cbn; [done|].
  destruct Hws as [|w ws -> Hws]; cbn; by rewrite IH.
Qed.

(** A write on the control stream, by what comes of it. *)
Lemma write_control_piece m st :
  Z.of_nat (length (message_payload m)) <= Varint.MAX ->
  write_message m st
  = (match head (write_results (control_send st)) with
     | Some (WFail _ e) => Ready (Err e)
     | Some (WStall _) => Pending
     | _ => Ready (Ok tt)
     end,
     {| control_send := {| sent := sent (control_send st) ++ piece (head (write_results (control_send st))) m;
                           write_results := tail (write_results (control_send st)) |};
        file_handles := file_handles st; permission_command := permission_command st |}).
Proof.
  intros Hp. unfold write_message, write_control, set_control_send, azoom, write_envelope. unfold message_bytes, piece.
  rewrite (abind_ready _ _ _ (Envelope.frame (message_type m) (message_payload m)) (control_send st)).
  2: { unfold aoutcome. by rewrite Envelope.encode_frame. }
  unfold write_all. by destruct (write_results (control_send st)) as [|[] ws].
Qed.

Lemma typed_message before ws m : preserves (control_typed before ws) (on_state (write_message m)).
Proof.
  intros s (ms & Hms & Hs & Hw). unfold on_state, azoom.
  destruct (decide (Z.of_nat (length (message_payload m)) <= Varint.MAX)) as [Hp|Hp].
  - rewrite write_control_piece by done. exists (ms ++ [m]).
    split; [by apply Forall_app; split; [|constructor]|]. cbn. rewrite Hs, Hw, written_snoc, <- app_assoc.
    split; [done|]. by rewrite length_app, Nat.add_1_r, tail_drop.
  - unfold write_message, write_control, set_control_send, azoom.
    assert ((write_envelope false (message_type m) (message_payload m) (control_send (state s))).2
      = control_send (state s)) as Hsame.
    { unfold write_envelope, Envelope.encode, Varint.encode. rewrite (proj2 (Z.leb_gt _ _)) by lia. done. }
    destruct (write_envelope _ _ _ _) as [r send]. cbn [snd] in *. subst send. by exists ms.
Qed.

Lemma typed_background before ws : background (control_typed before ws).
Proof. split; [apply typed_message|try done..]. intros E A m _. by apply preserves_zoom. Qed.

Lemma typed_step before ws p e : preserves (control_typed before ws) (step p e).
Proof.
  pose proof (typed_background before ws) as bg. apply keeps_step; [done|..].
  - intros _. by apply keeps_on_frame_tick.
  - intros _. split; [by apply keeps_next_frame|]. intros r. by apply keeps_on_desktop_frame.
  - intros _ now r. by apply keeps_on_feedback.
  - by apply keeps_on_audio_tick.
  - intros now r. by apply keeps_on_input.
Qed.

Lemma typed_run before ws p events : preserves (control_typed before ws) (run_active_session p events).
Proof.
  induction events as [|e events IH]; [by intros s|]. cbn [run_active_session].
  apply preserves_bind; [apply typed_step|]. intros []; [exact IH|]. apply preserves_ret.
Qed.

(** ** The gate on frames *)

Definition view_granted (s : session) : Prop := PermissionSm.is_granted (permission_sm s) bit.VIEW = true.

(** The same stream of the same instance with the same bytes on it. *)
Definition same_stream (s0 s : session) : Prop :=
  video_send (video s) = video_send (video s0) /\ reset_streams (video s) = reset_streams (video s0) /\
  frame_id (video s) = frame_id (video s0).

Lemma same_stream_trans s1 s2 s3 : same_stream s1 s2 -> same_stream s2 s3 -> same_stream s1 s3.
Proof. intros (? & ? & ?) (? & ? & ?). split_and!; congruence. Qed.

Lemma same_stream_on_media s0 {E A} (m : async media E A) : preserves (same_stream s0) (on_media m).
Proof.
  intros s Hs. unfold on_media, on_video, on_env, azoom. by destruct (m (env (video s))) as [r e].
Qed.

Lemma same_stream_background s0 : background (same_stream s0).
Proof. split; try done; [intros m; by apply preserves_zoom|]. intros E A m _. apply same_stream_on_media. Qed.

Lemma granted_kept {E A} sm (m : async ServerVideo.video E A) :
  preserves (fun s => permission_sm s = sm) (on_video m).
Proof. by apply preserves_zoom. Qed.

(** Behind the check, frames go out; the permissions stay as they are. *)
Lemma frame_tick_gated mask config s :
  let s' := (on_frame_tick mask config s).2 in same_stream s s' \/ view_granted s'.
Proof using Cbor10 Cbor11 Cbor2 Cbor4 Cbor5 Cbor6 Cbor7 Cbor9 EncodeError H JoinError clock encode_task.
  cbv zeta. pose proof (keeps_drain_commands _ (same_stream_background s) mask s ltac:(done)) as Hd.
  unfold on_frame_tick. apply (bind_state _ _ _ (fun s' => same_stream s s' \/ view_granted s')); [by left|].
  intros u s1 Hs1. rewrite Hs1 in Hd. cbn [snd] in Hd. rewrite (abind_ready _ _ s1 s1 s1) by done.
  destruct (PermissionSm.is_granted (permission_sm s1) bit.VIEW) eqn:Hg; cbn [negb]; [|by left]. right.
  assert (forall A (m : in_session A), preserves (fun s => permission_sm s = permission_sm s1) m ->
    view_granted (m s1).2) as Hk.
  { intros A m Hm. unfold view_granted. by rewrite (Hm s1 eq_refl). }
  apply Hk. destruct (frame_source _); [|apply preserves_ret].
  pose proof (fun E A => @granted_kept E A (permission_sm s1)). unfold on_media, send_frame. preserve.
Qed.

Lemma desktop_frame_gated config r s :
  let s' := (on_desktop_frame config r s).2 in same_stream s s' \/ view_granted s'.
Proof.
  cbv zeta. unfold on_desktop_frame. destruct r as [f|e]; [|by left].
  rewrite (abind_ready _ _ s f s) by done. destruct f as [f|]; [|by left].
  rewrite (abind_ready _ _ s f s) by done. rewrite (abind_ready _ _ s s s) by done.
  destruct (PermissionSm.is_granted (permission_sm s) bit.VIEW) eqn:Hg; cbn [negb]; [|by left]. right.
  assert (preserves (fun x => permission_sm x = permission_sm s) (_ ← send_frame config f; aret Continue)) as Hk.
  { pose proof (fun E A => @granted_kept E A (permission_sm s)). unfold send_frame. preserve. }
  unfold view_granted. by rewrite (Hk s eq_refl).
Qed.

(** ** Going on *)

Definition goes_on (m : in_session flow) : Prop := forall s, (m s).1 <> Ready (Ok Finished).

Lemma goes_on_bind {A} (m : in_session A) f : (forall x, goes_on (f x)) -> goes_on (m ≫= f).
Proof.
  intros Hf s. unfold mbind, async_bind, abind. destruct (m s) as [[[x|e]| | |] s1]; try done. apply Hf.
Qed.

Lemma goes_on_continue : goes_on (aret Continue).
Proof. by intros s. Qed.

Lemma goes_on_select {A E} (future : async session E A) handler :
  (forall r, goes_on (handler r)) -> goes_on (select future handler).
Proof. intros Hh s. unfold select. destruct (future s) as [[r| | |] s1]; try done. apply Hh. Qed.

#[local] Ltac go_on :=
  repeat (cbv beta zeta;
    lazymatch goal with
    | |- forall _, _ => intros ?
    | |- goes_on (aret Continue) => apply goes_on_continue
    | |- goes_on (_ ≫= _) => apply goes_on_bind
    | |- goes_on (match ?x with _ => _ end) => destruct x
    end).

(** Only a shutdown and a client's [SessionClose] end the loop without an error. *)
Lemma step_finishes p e s s' :
  step p e s = (Ready (Ok Finished), s') ->
  (exists now, e = Turn now Shutdown /\ closed s' = true) \/
  (exists now draws payload, e = Turn now (ControlArm draws) /\
     (read_envelope true (max_envelope_length Control) (control_reader s)).1
       = Ready (Ok (type_id.SESSION_CLOSE, payload))).
Proof.
  assert (forall m, goes_on m -> m s <> (Ready (Ok Finished), s')) as Hgo.
  { intros m Hm Hs. apply (Hm s). by rewrite Hs. }
  destruct e as [now a|c|o|err]; cbn [step];
    [|intros Hs; by apply Hgo in Hs; [|unfold report_error; go_on]..].
  unfold turn. intros Hs. destruct a; [left|destruct (_ <=? _); [done|]..].
  - exists now. split; [done|]. unfold close_gracefully in Hs.
    apply abind_inv in Hs as (u & s1 & Hs & H1). apply abind_inv in Hs as (r & s2 & Hs & H2).
    by injection H2 as _ <-; injection H1 as <-.
  - right. exists now, draws. unfold select, on_control_reader, azoom in Hs.
    destruct (read_envelope true _ (control_reader s)) as [[r| | |] rd]; try done.
    destruct r as [[t payload]|e]; [|done]. exists payload. split; [done|].
    unfold on_control in Hs. cbn [map_err] in Hs.
    rewrite (abind_ready _ _ _ (t, payload) (with_control_reader rd s)) in Hs by done. cbv beta iota in Hs.
    apply abind_inv in Hs as (u & s1 & _ & Hs).
    destruct (t =? type_id.TIME_SYNC_REQUEST);
      [exfalso; revert Hs; clear; intros Hs; unfold answer_time_sync in Hs;
       apply abind_inv in Hs as (? & ? & _ & Hs); apply abind_inv in Hs as (? & ? & _ & Hs); done|].
    destruct (Z.eqb_spec t type_id.SESSION_CLOSE) as [-> |_]; [done|exfalso].
    destruct (t =? type_id.FILE_TRANSFER_REQUEST); [|done].
    assert (goes_on (on_file_transfer_request draws (session_id p) (user_id p) payload)) as Hf
      by (unfold on_file_transfer_request, reject; go_on).
    apply (Hf s1). by rewrite Hs.
  - by apply Hgo in Hs; [|unfold on_keepalive; go_on].
  - by apply Hgo in Hs; [|unfold on_frame_tick; go_on].
  - destruct (frame_source _); [done|]. apply Hgo in Hs; [done|]. apply goes_on_select. unfold on_desktop_frame. go_on.
  - apply Hgo in Hs; [done|]. apply goes_on_select. unfold on_feedback. go_on.
  - by apply Hgo in Hs; [|unfold on_audio_tick; go_on].
  - apply Hgo in Hs; [done|]. apply goes_on_select. unfold on_incoming_uni. go_on.
  - destruct (input_receiver s); [|done]. apply Hgo in Hs; [done|]. apply goes_on_select. unfold on_input. go_on.
  - apply Hgo in Hs; [done|]. apply goes_on_select. unfold on_clipboard. go_on.
Qed.

Lemma run_finishes p events s0 s' :
  run_active_session p events s0 = (Ready (Ok tt), s') ->
  exists before e after s,
    events = before ++ e :: after /\ reaches p s0 before s /\ step p e s = (Ready (Ok Finished), s').
Proof.
  intros Hrun.
  assert (forall past s, reaches p s0 past s -> run_active_session p events s = (Ready (Ok tt), s') ->
    exists before e after s1, past ++ events = before ++ e :: after /\ reaches p s0 before s1 /\
      step p e s1 = (Ready (Ok Finished), s')) as Hgen.
  { clear Hrun. induction events as [|e events IH]; intros past s Hp Hs; [done|].
    cbn [run_active_session] in Hs. apply abind_inv in Hs as ([] & s1 & Hs & Hrest).
    - destruct (IH (past ++ [e]) s1) as (b & e' & a & s2 & Heq & H2); [by eapply reaches_step|done|].
      exists b, e', a, s2. split; [|done]. rewrite <- Heq, <- app_assoc. done.
    - injection Hrest as <-. exists past, e, events, s. done. }
  apply (Hgen [] s0); [constructor|exact Hrun].
Qed.

(** * Properties *)

(** C8: Every request for a transfer is answered once.  However a session goes on that
    takes one off its control stream: if it goes on, all that has happened is one
    answer: a rejection with the gate's reason while the permission the direction
    needs is not granted, a rejection by policy at the limit of 64 transfers, and
    otherwise an acceptance with a handle that was free, is valid for this session,
    user and direction until its expiry, and has been given to a task.  It goes on
    unless the transport failed or stalled the write of that very answer, or the
    random generator has yielded only handles that are taken; it never panics and
    fails in no other way.  The answers are assumed to fit an envelope. *)
Theorem request_is_answered now draws sid uid request payload s :
  decode payload = Ok request -> answers_fit draws sid uid request s ->
  let gate := PermissionSm.check_gate (permission_sm s)
                (FileTransferSession.required_permission_bit (ftr_direction request)) in
  let store := file_handles (state s) in
  let full := MAX_CONCURRENT_FILE_TRANSFERS <=? Z.of_nat (size (FileHandleStore.handles store)) in
  let ws := write_results (control_send (state s)) in
  match on_control now draws sid uid (Ok (type_id.FILE_TRANSFER_REQUEST, payload)) s with
  | (Ready (Ok f), s') =>
      f = Continue /\
      match gate with
      | Err reason => rejects request reason (request_read now s) s'
      | Ok _ =>
          if full then rejects request POLICY_FILE_POLICY_REJECTED (request_timed now s) s'
          else
            exists h,
              let record := new_record sid uid request (clock (ticks (env (video s)))) in
              FileHandleStore.handles store !! h = None /\ accepts request h record (request_timed now s) s' /\
              (forall t, t <= FileHandleStore.expiry_ts record ->
                 FileHandleStore.validate t h sid uid (ftr_direction request) (file_handles (state s')) = Ok record)
      end
  | (Ready (Err e), _) => exists n we rest, ws = WFail n we :: rest /\ e = ConnError.Write we
  | (Pending, _) =>
      (gate = Ok tt /\ full = false /\ FileHandleStore.draw_handle draws (FileHandleStore.handles store) = None) \/
      (exists n rest, ws = WStall n :: rest)
  | _ => False
  end.
Proof.
  intros Hd Hfit. cbv zeta. unfold on_control. cbn [map_err].
  rewrite (abind_ready _ _ s (type_id.FILE_TRANSFER_REQUEST, payload) s) by done.
  cbv beta iota. rewrite (abind_ready _ _ s tt (request_read now s)) by done.
  change (type_id.FILE_TRANSFER_REQUEST =? type_id.TIME_SYNC_REQUEST) with false.
  change (type_id.FILE_TRANSFER_REQUEST =? type_id.SESSION_CLOSE) with false.
  change (type_id.FILE_TRANSFER_REQUEST =? type_id.FILE_TRANSFER_REQUEST) with true.
  cbv beta iota. unfold on_file_transfer_request. rewrite Hd. cbn [map_err].
  rewrite (abind_ready _ _ _ request (request_read now s)) by done.
  rewrite (abind_ready _ _ _ (request_read now s) (request_read now s)) by done.
  change (permission_sm (request_read now s)) with (permission_sm s).
  destruct (PermissionSm.check_gate _ _) as [[]|reason] eqn:Hgate.
  - pose proof (ends_as_issue draws sid uid request (request_read now s) Hfit) as He. cbv zeta in He.
    change (state (request_read now s)) with (state s) in He. unfold ends_as in He.
    match goal with |- match ?m with _ => _ end => destruct m as [[[f|e]| | |] s'] end; try exact He.
    + destruct He as [-> Ha]. split; [done|]. destruct (_ <=? _); [exact Ha|]. destruct Ha as (h & Hfree & Ha). exists h.
      split; [done|]. split; [exact Ha|]. by eapply accepted_validates.
    + destruct He as [[Hl Hn]|He]; [left|by right]. split_and!; [done|by apply Z.leb_gt|done].
  - pose proof (ends_as_reject request reason False (request_read now s) (proj1 Hfit reason Hgate)) as He.
    unfold ends_as in He. destruct (reject request reason (request_read now s)) as [[[f|e]| | |] s']; try exact He. right. by destruct He.
Qed.

(** Video and audio go out in sequence.  At the head of its loop, whatever turns
    were taken and whatever other tasks did, a session's video channel is live;
    every stream it has used carries one instance, opened by an IDR, each of the
    generation after the one before, with its frames numbered from 1 without gaps;
    and its playback stream, opened once, carries the tone's frames numbered from
    0 without gaps. *)
Theorem streams_stay_in_sequence start p s0 events s :
  video_ok start (encoder_config p) (video s0) ->
  audio_playback_send s0 = None -> audio_sequence s0 = 0 ->
  reaches p s0 events s ->
  video_ok start (encoder_config p) (video s) /\ audio_in_sequence s.
Proof.
  intros Hv Ha Hn Hr. apply (reaches_streams start p s0 events s Hr).
  split; [exact Hv|]. unfold audio_in_sequence. by rewrite Ha.
Qed.

(** C11: A session never fails by its own video.  A turn of the feedback arm, at any
    point of a session, ends with an error only for the idle deadline, for its
    stream, or for a reopening whose source, stream or deadline failed: no sample
    and no request drives the channel's state machines into a violation. *)
Theorem feedback_never_violates start p s0 events s now e s' :
  video_ok start (encoder_config p) (video s0) ->
  audio_playback_send s0 = None -> audio_sequence s0 = 0 ->
  reaches p s0 events s ->
  step p (Turn now FeedbackArm) s = (Ready (Err e), s') ->
  e = ConnError.IdleTimeout \/ feedback_arm_error e.
Proof.
  intros Hv Ha Hn Hr Hstep.
  assert (session_streams start (encoder_config p) s) as [Hs _].
  { apply (reaches_streams start p s0 events s Hr). split; [exact Hv|]. unfold audio_in_sequence. by rewrite Ha. }
  cbn [step] in Hstep. unfold turn in Hstep. destruct (_ <=? _); [left; by injection Hstep as <- _|right].
  assert (triple (session_video start (encoder_config p))
    (select (on_feedback_receiver FeedbackSession.read_message) (on_feedback now (encoder_config p)))
    (fun _ => session_video start (encoder_config p)) (fun e _ => feedback_arm_error e)) as Ht.
  { apply triple_select; [apply keeps_feedback_receiver, video_background|]. intros r. apply triple_feedback_arm. }
  exact (triple_err _ _ _ _ _ _ _ Ht Hs Hstep).
Qed.

(** C9: No frame without permission.  In any turn but one that handles feedback, which
    may replace the stream, the session's video stream gets something only when
    VIEW is granted at the end of the turn: commands that arrived before the tick
    are obeyed before its frame. *)
Theorem view_gates_frames p e s :
  (forall now, e <> Turn now FeedbackArm) ->
  PermissionSm.is_granted (permission_sm (step p e s).2) bit.VIEW = false ->
  same_stream s (step p e s).2.
Proof.
  intros Hne Hg. assert (same_stream s (step p e s).2 \/ view_granted (step p e s).2) as [Hs|Hs]; [|done|].
  2: { unfold view_granted in Hs. congruence. }
  clear Hg. pose proof (same_stream_background s) as bg.
  assert ((exists now, e = Turn now FrameTick \/ e = Turn now DesktopArm) \/
    (forall now, e <> Turn now FrameTick /\ e <> Turn now DesktopArm)) as [Hf|Hf].
  { destruct e as [now []| | |]; try (right; by split); left; eauto. }
  - destruct Hf as [now [-> | ->]]; cbn [step]; unfold turn; (destruct (_ <=? _); [by left|]).
    + apply frame_tick_gated.
    + destruct (frame_source _); [by left|]. unfold select.
      pose proof (same_stream_on_media s (next_frame clock encode_task true) s ltac:(done)) as Hm.
      destruct (on_media _ s) as [[r| | |] s1]; try by left.
      cbn [snd] in Hm.
      destruct (desktop_frame_gated (encoder_config p) r s1) as [H1|H1]; [left|by right].
      by eapply same_stream_trans.
  - left. apply (keeps_step _ bg p e); [naive_solver..| | |done].
    + by apply keeps_on_audio_tick.
    + intros now r. by apply keeps_on_input.
Qed.

(** C12: Nothing stays pressed behind a session.  However a session runs and however it
    ends, by a shutdown, an error, a wait that never ends or a panic, releasing
    what its input holds, as the connection does when it is over, leaves no key
    and no button down among the events passed on, and an injector behind it has
    been told exactly those events. *)
Theorem session_releases_input p events s0 sk :
  input_injection s0 = InputInjection.new sk ->
  sk = InputInjection.Log \/ sk = InputInjection.Os true [] \/ (exists reason, sk = InputInjection.Unavailable reason) ->
  let i := InputInjection.release_all (input_injection (run_active_session p events s0).2) in
  InputInjection.held (InputInjection.emitted i) = InputState.new_pressed /\
  (forall commands, InputInjection.sink i = InputInjection.Os true commands ->
     commands = map InputInjection.command (InputInjection.emitted i)).
Proof.
  intros Hi Hsk i. apply (input_from_released sk); [exact Hsk|].
  apply input_run. by exists [].
Qed.

(** C10: The control stream stays well typed.  Whatever happens to a session, and
    however it ends, what it has added to its control stream is a sequence of
    envelopes, each the encoding of one of the server's seven messages under that
    message's type; each is whole, but for one whose write the transport failed or
    stalled, of which the stream has what was accepted.  So on a stream that takes
    what is written there are whole envelopes only. *)
Theorem control_stream_is_typed p events s0 :
  exists ms : list control_message,
    let ws := write_results (control_send (state s0)) in
    Forall (fun m => Z.of_nat (length (message_payload m)) <= Varint.MAX) ms /\
    sent (control_send (state (run_active_session p events s0).2))
    = sent (control_send (state s0)) ++ written ws ms /\
    write_results (control_send (state (run_active_session p events s0).2)) = drop (length ms) ws /\
    (Forall (fun w => w = WDone) ws -> written ws ms = concat (map message_bytes ms)).
Proof.
  destruct (typed_run (sent (control_send (state s0))) (write_results (control_send (state s0))) p events s0)
    as (ms & Hms & Hs & Hw).
  { exists []. split_and!; [constructor|by rewrite app_nil_r|done]. }
  exists ms. cbv zeta. split_and!; [done..|]. by apply written_whole.
Qed.

(** A change of permissions is what the client is told.  After an admin's toggle the
    control stream has the update, and each of the session's gates is open exactly
    when the mask in it has the bit. *)
Theorem toggle_is_reported mask b grant s s' :
  on_admin_command mask (PermissionSm.TogglePermission b grant) s = (Ready (Ok tt), s') ->
  let u := PermissionSm.build_permission_toggle mask b grant in
  sent (control_send (state s')) = sent (control_send (state s))
    ++ Envelope.frame type_id.PERMISSION_UPDATE (encode u) /\
  permission_sm s' = PermissionSm.apply_update u (permission_sm s) /\
  forall b', b' ∈ PermissionSm.ALL_BITS ->
    PermissionSm.is_granted (permission_sm s') b' = PermissionSm.has_bit (Messages.granted_permissions u) b'.
Proof.
  intros Hrun u. unfold on_admin_command in Hrun. fold u in Hrun.
  rewrite (abind_ready _ _ s s s) in Hrun by done.
  rewrite (abind_ready _ _ s tt (with_permission_sm (PermissionSm.apply_update u (permission_sm s)) s)) in Hrun by done.
  pose proof (triple_ok _ _ _ _ _ _ _ (triple_control _ _ _) eq_refl Hrun) as (send & Hs & ->).
  split; [exact Hs|]. split; [done|]. intros b' Hb'. cbn [with_state with_permission_sm permission_sm].
  unfold PermissionSm.is_granted. rewrite PermissionSm.state_apply_update, decide_True by done.
  unfold PermissionSm.next_state. destruct (PermissionSm.has_bit (Messages.granted_permissions u) b'); [done|].
  destruct (PermissionSm.state (permission_sm s) b'); try done. by destruct (PermissionSm.has_bit _ _).
Qed.

(** C13: A session ends in peace only when asked to.  The loop returns without an error
    only at a turn that the server's shutdown takes, and then the connection has
    been closed, or at one whose control message is the client's [SessionClose]. *)
Theorem session_end_is_asked_for p events s0 s' :
  run_active_session p events s0 = (Ready (Ok tt), s') ->
  exists before now a after s,
    events = before ++ Turn now a :: after /\ reaches p s0 before s /\
    match a with
    | Shutdown => closed s' = true
    | ControlArm _ => exists payload,
        (read_envelope true (max_envelope_length Control) (control_reader s)).1
          = Ready (Ok (type_id.SESSION_CLOSE, payload))
    | _ => False
    end.
Proof.
  intros Hrun. destruct (run_finishes _ _ _ _ Hrun) as (b & e & a & s & He & Hr & Hs).
  destruct (step_finishes _ _ _ _ Hs) as [(now & -> & Hc)|(now & draws & payload & -> & Hp)].
  - exists b, now, Shutdown, a, s. done.
  - exists b, now, (ControlArm draws), a, s. split_and!; [done..|]. by exists payload.
Qed.
End server_session.

Module Examples.
#[local] Existing Instance plain_transport.
#[local] Existing Instance toy_sha256.
#[local] Instance any_cbor `{Countable T} : Cbor T := countable_cbor.

Definition empty_stream : SendStream := {| sent := []; write_results := [] |}.

Definition quiet : Connection :=
  {| uni_accepts := []; bi_accepts := []; uni_opens := []; bi_opens := []; released := []; stopped_readers := [] |}.

Definition config : EncoderConfig :=
  {| ec_codec := H264; Messages.profile := 66; chroma_format := C420; bit_depth := 8; ec_width := 16;
     ec_height := 16; Messages.max_fps := 30; Messages.tier := 4; b_frames := 0; server_cursor_excludable := false |}.

Definition opening_frame : SourcedFrame := {| bytes := [0; 0; 1; 0x65]; is_idr := true; sf_capture_ts := 5; sf_encode_done_ts := 6 |}.

(** A session on the connection [c] whose video stream carries generation 1, just
    opened, with the permissions [mask]. *)
Definition started (c : Connection) (mask : Z) : session :=
  let pb := match Prologue.encode Video 1 0 [] with Done b => b | Panic => [] end in
  let stream := pb ++ VideoSession.intro_bytes 1 0 config (bytes opening_frame) 5 6 in
  Build_session
    {| env := {| connection := c; frame_source := Synthetic 16 16; ticks := 0 |};
       video_channel := (VideoChannel.mark_instance_streaming (VideoChannel.new 1)).2;
       video_send := {| sent := stream; write_results := [] |}; reset_streams := []; frame_id := 1 |}
    {| control_send := empty_stream; file_handles := FileHandleStore.new; permission_command := [] |}
    (StreamReader.new []) {| FeedbackSession.reader := StreamReader.new [RFin] |} (PermissionSm.new mask) None
    (InputInjection.new InputInjection.Log) None 0 0 [] false.

Definition session_params : params :=
  {| encoder_config := config; granted_permissions := bit.CLIP_READ; session_id := [1]; user_id := "u" |}.

Definition clock : nat -> Z := Z.of_nat.
Definition no_encoder : TimecodeFrame.SyntheticFrame -> option (result unit (result unit (list Z))) := fun _ => None.
Definition silence : Z -> Z -> list Z := fun _ _ => [].

#[local] Notation step := (step clock no_encoder silence session_params).
#[local] Notation run := (run_active_session clock no_encoder silence session_params).

Definition upload : FileTransferRequest :=
  {| ftr_request_id := 3; ftr_direction := Upload; virtual_path := "a"; declared_size := 10 |}.

Lemma started_video_ok c mask : (forall s r, OStream s r ∈ uni_opens c -> sent s = []) ->
  video_ok 1 config (video (started c mask)).
Proof.
  intros Hc. split; [|by vm_compute; split_and!; auto].
  split; [exact Hc|]. split; [done|]. split; [done|]. exists 0%nat. split; [done|].
  eexists _, 0, opening_frame, []. split; [reflexivity|]. split; [done|]. split; [done|]. by rewrite app_nil_r.
Defined.

Lemma request_is_answered_witness :
  answers_fit clock [42] [1] "u" upload (started quiet bit.FILE_UP) /\
  exists h, FileHandleStore.validate 0 h [1] "u" Upload
    (file_handles (state (on_control (EncodeError := unit) (JoinError := unit) clock 9 [42] [1] "u"
       (Ok (type_id.FILE_TRANSFER_REQUEST, encode upload)) (started quiet bit.FILE_UP)).2))
    = Ok (new_record [1] "u" upload 0).
Proof.
  assert (decode (encode upload) = Ok upload) as Hd by by vm_compute.
  assert (answers_fit clock [42] [1] "u" upload (started quiet bit.FILE_UP)) as Hfit.
  { split_and!; [by intros reason H; vm_compute in H|by vm_compute|].
    intros h H. vm_compute in H. injection H as <-. by vm_compute. }
  split; [exact Hfit|].
  pose proof (request_is_answered (EncodeError := unit) (JoinError := unit) clock 9 [42] [1] "u" upload (encode upload)
    (started quiet bit.FILE_UP) Hd Hfit) as H. cbv zeta in H.
  destruct (on_control (EncodeError := unit) (JoinError := unit) clock 9 [42] [1] "u"
    (Ok (type_id.FILE_TRANSFER_REQUEST, encode upload)) (started quiet bit.FILE_UP)) as [r s'] eqn:E.
  assert (r = Ready (Ok Continue)) as ->.
  { change r with (r, s').1. rewrite <- E. by vm_compute. }
  destruct H as [_ Hm].
  change (PermissionSm.check_gate (permission_sm (started quiet bit.FILE_UP))
    (FileTransferSession.required_permission_bit (ftr_direction upload))) with (@Ok ReasonCode unit tt) in Hm.
  destruct Hm as (h & _ & _ & Hv). exists h. apply Hv. by vm_compute.
Defined.

Lemma streams_stay_in_sequence_witness :
  let '(_, s) := step (Turn 5 AudioTick) (started {| uni_accepts := []; bi_accepts := [];
       uni_opens := [OStream empty_stream []]; bi_opens := []; released := []; stopped_readers := [] |}
       (Z.lor bit.VIEW bit.AUDIO_PLAYBACK)) in
  video_ok 1 config (video s) /\ audio_in_sequence silence s /\ audio_sequence s = 1.
Proof.
  set (s0 := started _ _). destruct (step (Turn 5 AudioTick) s0) as [r s] eqn:E.
  assert (r = Ready (Ok Continue)) as ->.
  { change r with (r, s).1. rewrite <- E. by vm_compute. }
  assert (audio_sequence s = 1) as Hs.
  { change s with (Ready (E := @ConnError.ConnError _ unit unit) (Ok Continue), s).2. rewrite <- E. by vm_compute. }
  assert (reaches clock no_encoder silence session_params s0 [Turn 5 AudioTick] s) as Hr.
  { apply (reaches_step clock no_encoder silence session_params s0 [] s0); [constructor|exact E]. }
  assert (video_ok 1 config (video s0)) as Hv.
  { apply started_video_ok. intros s1 r1 Hin. apply list_elem_of_singleton in Hin. by injection Hin as -> _. }
  destruct (streams_stay_in_sequence clock no_encoder silence 1 session_params s0 _ s Hv eq_refl eq_refl Hr) as [H1 H2].
  done.
Defined.

Lemma feedback_never_violates_witness :
  exists e s', step (Turn 5 FeedbackArm) (started quiet bit.VIEW) = (Ready (Err e), s') /\
    (e = ConnError.IdleTimeout \/ feedback_arm_error e).
Proof.
  destruct (step (Turn 5 FeedbackArm) (started quiet bit.VIEW)) as [r s'] eqn:E.
  assert (match r with Ready (Err _) => true | _ => false end = true) as Hr.
  { change r with (r, s').1. rewrite <- E. by vm_compute. }
  destruct r as [[?|e]| | |]; try done. exists e, s'. split; [done|].
  refine (feedback_never_violates clock no_encoder silence 1 session_params (started quiet bit.VIEW) [] _ 5 e s'
    _ eq_refl eq_refl _ E); [|constructor].
  apply started_video_ok. intros s1 r1 Hin. by apply not_elem_of_nil in Hin.
Defined.

Lemma view_gates_frames_witness :
  PermissionSm.is_granted (permission_sm (step (Turn 5 FrameTick) (started quiet bit.INPUT_MOUSE)).2) bit.VIEW = false /\
  same_stream (started quiet bit.INPUT_MOUSE) (step (Turn 5 FrameTick) (started quiet bit.INPUT_MOUSE)).2.
Proof.
  assert (PermissionSm.is_granted (permission_sm (step (Turn 5 FrameTick) (started quiet bit.INPUT_MOUSE)).2) bit.VIEW
    = false) as Hg by by vm_compute.
  split; [exact Hg|].
  exact (view_gates_frames clock no_encoder silence session_params (Turn 5 FrameTick) (started quiet bit.INPUT_MOUSE)
    ltac:(intros now; discriminate) Hg).
Defined.

(** A key goes down and the session's schedule is over. *)
Lemma session_releases_input_witness :
  let s0 := with_input_injection (InputInjection.new (InputInjection.Os true [])) (started quiet bit.INPUT_KEYBOARD) in
  let i := InputInjection.release_all (input_injection (run [Turn 1 KeepAliveTick] s0).2) in
  InputInjection.held (InputInjection.emitted i) = InputState.new_pressed.
Proof.
  intros s0 i.
  exact (proj1 (session_releases_input clock no_encoder silence session_params [Turn 1 KeepAliveTick] s0
    (InputInjection.Os true []) eq_refl (or_intror (or_introl eq_refl)))).
Defined.

(** A keepalive and a permission update later. *)
Lemma control_stream_is_typed_witness :
  write_results (control_send (state (started quiet bit.CLIP_READ))) = [] /\
  exists ms : list control_message,
    sent (control_send (state (run [Turn 1 KeepAliveTick; AdminQueues (PermissionSm.TogglePermission bit.INPUT_MOUSE true);
                                    Turn 2 FrameTick] (started quiet bit.CLIP_READ)).2))
    = concat (map message_bytes ms).
Proof.
  split; [done|].
  destruct (control_stream_is_typed clock no_encoder silence session_params
    [Turn 1 KeepAliveTick; AdminQueues (PermissionSm.TogglePermission bit.INPUT_MOUSE true); Turn 2 FrameTick]
    (started quiet bit.CLIP_READ)) as (ms & _ & Hs & _ & Hw).
  exists ms. rewrite <- Hw by constructor. exact Hs.
Defined.

Lemma toggle_is_reported_witness :
  let s0 := started quiet bit.VIEW in
  let '(r, s') := on_admin_command (EncodeError := unit) (JoinError := unit) bit.VIEW
                    (PermissionSm.TogglePermission bit.VIEW false) s0 in
  r = Ready (Ok tt) /\
  sent (control_send (state s')) = Envelope.frame type_id.PERMISSION_UPDATE
    (encode {| Messages.granted_permissions := 0; immediate_revoke := bit.VIEW |}) /\
  PermissionSm.is_granted (permission_sm s') bit.VIEW = false.
Proof.
  intros s0. destruct (on_admin_command _ _ s0) as [r s'] eqn:E.
  assert (r = Ready (Ok tt)) as ->.
  { change r with (r, s').1. rewrite <- E. by vm_compute. }
  destruct (toggle_is_reported bit.VIEW bit.VIEW false s0 s' E) as (H1 & _ & H2).
  split; [done|]. split; [rewrite H1; by vm_compute|].
  rewrite (H2 bit.VIEW) by (apply (bool_decide_unpack _); by vm_compute). by vm_compute.
Defined.

Lemma session_end_is_asked_for_witness :
  (run [Turn 1 KeepAliveTick; Turn 2 Shutdown] (started quiet bit.VIEW)).1 = Ready (Ok tt) /\
  exists before now a after, [Turn 1 KeepAliveTick; Turn 2 Shutdown] = before ++ Turn now a :: after /\
    a <> KeepAliveTick.
Proof.
  destruct (run [Turn 1 KeepAliveTick; Turn 2 Shutdown] (started quiet bit.VIEW)) as [r s'] eqn:E.
  assert (r = Ready (Ok tt)) as ->.
  { change r with (r, s').1. rewrite <- E. by vm_compute. }
  split; [done|].
  destruct (session_end_is_asked_for clock no_encoder silence session_params _ _ _ E) as (b & n & a & aft & s & He & _ & Hm).
  exists b, n, a, aft. split; [exact He|]. by intros ->.
Defined.

(** Two grants by the admin, both built on the session's first mask: the second
    takes the first back. *)
Example second_grant_undoes_first :
  let s := (run [AdminQueues (PermissionSm.TogglePermission bit.INPUT_MOUSE true); Turn 1 FrameTick;
                 AdminQueues (PermissionSm.TogglePermission bit.INPUT_KEYBOARD true); Turn 2 FrameTick]
              (started quiet bit.CLIP_READ)).2 in
  PermissionSm.is_granted (permission_sm s) bit.INPUT_MOUSE = false /\
  PermissionSm.is_granted (permission_sm s) bit.INPUT_KEYBOARD = true.
Proof. by vm_compute. Qed.

Definition input_stream : list Z := match Prologue.encode Input 1 0 [] with Done b => b | Panic => [] end.

(** The client's input stream is accepted, and its prologue is still on its way
    when another arm is taken: the stream is gone, no later turn finds it. *)
Example accepted_stream_is_lost :
  let c := {| uni_accepts := [AStream [RElapsed; RData input_stream] empty_stream]; bi_accepts := [];
              uni_opens := []; bi_opens := []; released := []; stopped_readers := [] |} in
  let s := (run [Turn 1 IncomingUni; Turn 2 KeepAliveTick; Turn 3 IncomingUni; Turn 4 IncomingUni]
              (started c bit.INPUT_KEYBOARD)).2 in
  bool_decide (uni_accepts (connection (env (video s))) = []) = true /\ input_receiver s = None.
Proof. by vm_compute. Qed.

(** Accepted in one go it is served. *)
Example accepted_stream_is_served :
  let c := {| uni_accepts := [AStream [RData input_stream] empty_stream]; bi_accepts := [];
              uni_opens := []; bi_opens := []; released := []; stopped_readers := [] |} in
  input_receiver (run [Turn 1 IncomingUni] (started c bit.INPUT_KEYBOARD)).2 <> None.
Proof. by vm_compute. Qed.
End Examples.
