(* ===== verification/ServerConnection.v ===== *)
(** A connection to the server from its first message to its end: the model of
    [handle_connection] and [suspend_and_store] in
    [src/sardp-cli/src/bin/sardp-server.rs].

    The platform's part is in [platform]: which source and sink there are.  The
    frame rate only paces the loop's ticks; its rounding to the [u16] of the
    encoder configuration is an argument. *)

From S2P Require Import Prelude.
From S2P Require Import ReasonCode.
From S2P Require Import StreamKind.
From S2P Require Import PermissionSet.
From S2P Require Prologue.
From S2P Require Envelope.
From S2P Require Import Async.
From S2P Require Import StreamReader.
From S2P Require Import Connection.
From S2P Require Import Messages.
From S2P Require Import MessageCodecs.
From S2P Require Import Crypto.
From S2P Require Import Auth.
From S2P Require ConnectionSm.
From S2P Require PermissionSm.
From S2P Require SessionStore.
From S2P Require FileHandleStore.
From S2P Require Handshake.
From S2P Require Reconnection.
From S2P Require TimeSync.
From S2P Require FrameSource.
From S2P Require VideoSm.
From S2P Require VideoChannel.
From S2P Require VideoSession.
From S2P Require FeedbackSession.
From S2P Require InputState.
From S2P Require InputInjection.
From S2P Require ConnError.
From S2P Require Import ServerVideo.
From S2P Require Import ServerSession.
From S2P Require Import AsyncTriples.

(** The profile and tier of the platform's encoder. *)
Inductive os := Windows | MacOs.

Definition desktop_profile_tier (o : os) : Z * Z :=
  match o with Windows => (77, 3) | MacOs => (100, 3) end.

(** [--capture], with what starting the source and the injector leads to. *)
Inductive capture :=
| CaptureSynthetic (width height max_fps : Z)
| CaptureDesktop (o : os)
    (started : result string (FrameSource.SourceInfo * list desktop_event))
    (injector : result string unit).

Section server_connection.
Context `{Transport, Sha256, Ed25519, TlsExporter, SessionStore.CtEq}.
Context `{!Cbor ClientHello, !Cbor ServerHello, !Cbor AuthPubkey, !Cbor AuthResult,
          !Cbor SessionReauthenticate}.
Context `{!Cbor VideoStreamGeneration, !Cbor EncoderConfig, !Cbor VideoFrameHeader}.
Context `{!Cbor TimeSyncRequest, !Cbor TimeSyncResponse, !Cbor SessionClose, !Cbor KeepAlive,
          !Cbor PermissionUpdate}.
Context `{!Cbor FileTransferRequest, !Cbor FileTransferAccept, !Cbor FileTransferReject,
          !Cbor FileTransferError, !Cbor FileChunk, !Cbor FileTransferComplete}.
Context `{!Cbor TransportFeedback, !Cbor AudioSyncFeedback, !Cbor KeyframeRequest}.
Context `{!Cbor KeyEvent, !Cbor TextInput, !Cbor ImeComposition, !Cbor MouseMove, !Cbor MouseButton,
          !Cbor Wheel, !Cbor ImeModeChange}.
Context `{!Cbor AudioConfig, !Cbor AudioFrameHeader}.
Context `{!Cbor ClipboardFormats, !Cbor ClipboardRequest, !Cbor ClipboardData, !Cbor ClipboardError}.
Context {EncodeError JoinError : Type}.

#[local] Notation conn_error := (@ConnError.ConnError _ EncodeError JoinError).

Variable clock : nat -> Z.
Variable encode_task : TimecodeFrame.SyntheticFrame -> option (result JoinError (result EncodeError (list Z))).
Variable generate_sine_wave_payload : Z -> Z -> list Z.

(** * Definitions *)

(** The connection, the stores it shares with others, and, once it is over, what
    its input has come to. *)
Record server := {
  connection : Connection;
  clock_reads : nat;
  sessions : SessionStore.world;
  file_handles : FileHandleStore.FileHandleStore;
  permission_command : list PermissionSm.AdminCommand;
  input_left : option InputInjection.InputInjection;
}.

Notation on_server := (async server conn_error).

Definition with_connection (c : Connection) (n : nat) (s : server) : server :=
  {| connection := c; clock_reads := n; sessions := sessions s; file_handles := file_handles s;
     permission_command := permission_command s; input_left := input_left s |}.

Definition with_sessions (w : SessionStore.world) (s : server) : server :=
  {| connection := connection s; clock_reads := clock_reads s; sessions := w; file_handles := file_handles s;
     permission_command := permission_command s; input_left := input_left s |}.

Definition with_input_left (i : InputInjection.InputInjection) (s : server) : server :=
  {| connection := connection s; clock_reads := clock_reads s; sessions := sessions s;
     file_handles := file_handles s; permission_command := permission_command s; input_left := Some i |}.

(** [reconnection::establish_connection] on the connection and the session store. *)
Definition establish (server_name : string) (trusted_pubkey : VerifyingKey) (challenge sid token : list Z) :
    on_server Reconnection.EstablishOutcome :=
  amap_err ConnError.Handshake
    (azoom (fun s => {| Reconnection.connection := connection s;
                        Reconnection.sessions := SessionStore.store (sessions s) |})
       (fun e s => with_sessions (SessionStore.set_store (Reconnection.sessions e) (sessions s))
                     (with_connection (Reconnection.connection e) (clock_reads s) s))
       (Reconnection.establish_connection server_name trusted_pubkey challenge sid token)).

(** The rounds of time synchronisation on the control channel. *)
Definition time_sync_burst (control : Handshake.ControlChannel) : on_server Handshake.ControlChannel := fun s =>
  match TimeSync.server_respond_time_sync_burst clock
          {| TimeSync.channel := control; TimeSync.ticks := clock_reads s |} with
  | (Ready (Ok _), p) => (Ready (Ok (TimeSync.channel p)), with_connection (connection s) (TimeSync.ticks p) s)
  | (Ready (Err e), p) => (Ready (Err (ConnError.TimeSync e)), with_connection (connection s) (TimeSync.ticks p) s)
  | (Pending, p) => (Pending, with_connection (connection s) (TimeSync.ticks p) s)
  | (Elapsed, p) => (Elapsed, with_connection (connection s) (TimeSync.ticks p) s)
  | (Crash, p) => (Crash, with_connection (connection s) (TimeSync.ticks p) s)
  end.

(** The source with the picture's size, the frame rate, the profile and the tier. *)
Record source_setup := {
  source : FrameSource;
  width : Z;
  height : Z;
  max_fps : Z;
  profile : Z;
  tier : Z;
  input_sink : InputInjection.InputSink;
}.

(** [start_input_sink] for a desktop, the log for the synthetic source. *)
Definition start_input_sink (injector : result string unit) : InputInjection.InputSink :=
  match injector with
  | Ok _ => InputInjection.Os true []
  | Err e => InputInjection.Unavailable e
  end.

(** [f64::round] of a whole number and the saturating cast to [u16]. *)
Definition fps_u16 (fps : Z) : Z := Z.min fps (2 ^ 16 - 1).

Definition start_source (c : capture) : result conn_error source_setup :=
  match c with
  | CaptureSynthetic w h fps =>
      Ok {| source := Synthetic w h; width := w; height := h; max_fps := fps; profile := 66; tier := 4;
            input_sink := InputInjection.Log |}
  | CaptureDesktop o started injector =>
      '(info, coming) ← map_err ConnError.Capture started;
      Ok {| source := Desktop coming 0; width := FrameSource.si_width info;
            height := FrameSource.si_height info; max_fps := fps_u16 (FrameSource.fps info);
            profile := (desktop_profile_tier o).1; tier := (desktop_profile_tier o).2;
            input_sink := start_input_sink injector |}
  end.

Definition encoder_config_of (s : source_setup) : EncoderConfig :=
  {| ec_codec := H264; Messages.profile := profile s; chroma_format := C420; bit_depth := 8;
     ec_width := width s; ec_height := height s; Messages.max_fps := max_fps s; Messages.tier := tier s;
     b_frames := 0; server_cursor_excludable := false |}.

(** The first generation, under the setup deadline, on a new channel. *)
Definition open_first (generation : Z) (config : EncoderConfig) :
    async media conn_error (SendStream * VideoChannel.VideoChannel) :=
  let video_channel := VideoChannel.new generation in
  send ← atimeout (ConnError.Violation PROTOCOL_SESSION_SETUP_TIMEOUT)
           (open_generation clock encode_task true generation 0 config);
  let '(r, video_channel) := VideoChannel.mark_instance_streaming video_channel in
  _ ← alift (map_err (fun v => ConnError.Violation (VideoSm.pv_reason v)) r);
  aret (send, video_channel).

Definition channel_live (resumed : bool) (sm : ConnectionSm.ConnectionSm) :
    result conn_error ConnectionSm.ConnectionSm :=
  if resumed then Ok sm
  else
    let '(r, sm) := ConnectionSm.on_channel_live sm in
    match r with
    | Ok _ => Ok sm
    | Err v => Err (ConnError.Violation (ConnectionSm.pv_reason v))
    end.

(** Up to the loop: the session as it starts, its parameters, and the source's
    sink. *)
Definition set_up (c : capture) (now : Z) (ctx : Reconnection.ConnectionContext) :
    on_server (session * params * ConnectionSm.ConnectionSm) :=
  control ← time_sync_burst (Reconnection.control ctx);
  setup ← alift (start_source c);
  let config := encoder_config_of setup in
  s ← aget;
  '(opened, m) ← alocal_try
    {| ServerVideo.connection := connection s; frame_source := source setup; ticks := clock_reads s |}
    (open_first (Reconnection.starting_generation ctx) config);
  sm ← alift (channel_live (Reconnection.is_resumed ctx) (Reconnection.connection_sm ctx));
  '(feedback, m) ← alocal_try m
    (ServerVideo.on_connection (amap_err ConnError.Feedback FeedbackSession.accept));
  let video := {| env := m; video_channel := opened.2; video_send := opened.1; reset_streams := [];
                  frame_id := 1 |} in
  aret (Build_session video
          {| ServerSession.control_send := Handshake.send control; ServerSession.file_handles := file_handles s;
             ServerSession.permission_command := permission_command s |}
          (Handshake.reader control) feedback (PermissionSm.new (Reconnection.cc_granted_permissions ctx))
          None (InputInjection.new (input_sink setup)) None 0 now [] false,
        {| encoder_config := config; granted_permissions := Reconnection.cc_granted_permissions ctx;
           session_id := Reconnection.cc_session_id ctx; user_id := Reconnection.cc_user_id ctx |},
        sm).

Definition suspend_and_store (ctx : Reconnection.ConnectionContext) (sm : ConnectionSm.ConnectionSm)
    (last_generation : Z) : on_server unit := fun s =>
  let '(r, w) := SessionStore.suspend_and_schedule_expiry (Reconnection.cc_session_id ctx)
                   (Reconnection.cc_user_id ctx) sm (Reconnection.cc_reconnect_token ctx)
                   (Reconnection.cc_granted_permissions ctx) last_generation
                   ConnectionSm.defaults.RECONNECT_GRACE_PERIOD (sessions s) in
  (Ready (map_err (fun v => ConnError.Violation (ConnectionSm.pv_reason v)) r), with_sessions w s).

(** The loop, run on the session's part of the state; what it holds pressed is
    released when it is over, by the connection or by the drop.  [meanwhile] is
    what others do to the session store. *)
Definition run_session (p : params) (events : list event) (meanwhile : list SessionStore.op) (s0 : session) :
    async server WriteError (poll conn_error unit * Z) := fun s =>
  let '(r, s1) := run_active_session clock encode_task generate_sine_wave_payload p events s0 in
  let v := video s1 in
  (Ready (Ok (r, VideoChannel.generation (video_channel v))),
   {| connection := ServerVideo.connection (env v); clock_reads := ticks (env v);
      sessions := SessionStore.run (sessions s) meanwhile;
      file_handles := ServerSession.file_handles (state s1);
      permission_command := ServerSession.permission_command (state s1);
      input_left := Some (InputInjection.release_all (input_injection s1)) |}).

(** What the connection makes of the loop's end. *)
Definition conclude (ctx : Reconnection.ConnectionContext) (sm : ConnectionSm.ConnectionSm)
    (result : poll conn_error unit) (last_generation : Z) : on_server unit := fun s =>
  match result with
  | Ready (Ok _) => aret tt s
  | Ready (Err e) =>
      if ConnError.is_transport_disconnect e then suspend_and_store ctx sm last_generation s
      else athrow e s
  | Pending => (Pending, s)
  | Elapsed => (Elapsed, s)
  | Crash => (Crash, s)
  end.

(** [challenge], [sid] and [token] are random bytes, [now] the instant the loop
    starts at. *)
Definition handle_connection (server_name : string) (trusted_pubkey : VerifyingKey) (c : capture)
    (challenge sid token : list Z) (now : Z) (events : list event) (meanwhile : list SessionStore.op) :
    on_server unit :=
  outcome ← establish server_name trusted_pubkey challenge sid token;
  match outcome with
  | Reconnection.ReconnectRejected _ => aret tt
  | Reconnection.Established ctx =>
      '(s0, p, sm) ← set_up c now ctx;
      '(r, last_generation) ← amap_err ConnError.Write (run_session p events meanwhile s0);
      conclude ctx sm r last_generation
  end.

(** * Lemmas *)

(** What an established context promises. *)
Definition context_ok (ctx : Reconnection.ConnectionContext) : Prop :=
  (ConnectionSm.state (Reconnection.connection_sm ctx)
   = if Reconnection.is_resumed ctx then ConnectionSm.Active else ConnectionSm.Authenticated) /\
  in_width 64 (Reconnection.starting_generation ctx).

Lemma channel_live_active ctx sm :
  context_ok ctx -> channel_live (Reconnection.is_resumed ctx) (Reconnection.connection_sm ctx) = Ok sm ->
  ConnectionSm.state sm = ConnectionSm.Active.
Proof.
  intros [Hs _] Hl. unfold channel_live in Hl. destruct (Reconnection.is_resumed ctx).
  - by injection Hl as <-.
  - unfold ConnectionSm.on_channel_live in Hl. rewrite Hs in Hl. by injection Hl as <-.
Qed.

Lemma triple_open_first g config :
  triple (fun m => fresh_opens (ServerVideo.connection m)) (open_first g config)
    (fun p m => fresh_opens (ServerVideo.connection m) /\ carries g config 0 p.1 /\
       VideoChannel.generation p.2 = g /\ live_channel p.2) any_error.
Proof.
  unfold open_first. eapply triple_bind.
  { apply triple_timeout; [|done]. eapply triple_any, triple_open_generation. }
  intros send. cbn. apply triple_ret. intros m [Hf Hc].
  split; [exact Hf|]. split; [exact Hc|]. split; [done|]. split; [done|]. split; [done|by left].
Qed.

Lemma triple_set_up c now ctx :
  context_ok ctx ->
  triple (fun s => fresh_opens (connection s)) (set_up c now ctx)
    (fun r _ =>
       let '(s0, p, sm) := r in
       video_ok (Reconnection.starting_generation ctx) (encoder_config p) (video s0) /\
       audio_playback_send s0 = None /\ audio_sequence s0 = 0 /\
       ConnectionSm.state sm = ConnectionSm.Active /\
       exists setup, start_source c = Ok setup /\ input_injection s0 = InputInjection.new (input_sink setup)) any_error.
Proof.
  intros Hctx. unfold set_up.
  eapply triple_bind with (Q := fun _ s => fresh_opens (connection s)).
  { intros s Hs. unfold time_sync_burst.
    by destruct (TimeSync.server_respond_time_sync_burst _ _) as [[[z|e]| | |] pr]. }
  intros control. eapply triple_bind with (Q := fun setup s => fresh_opens (connection s) /\ start_source c = Ok setup).
  { apply triple_lift. intros s Hs. by destruct (start_source c). }
  intros setup. eapply triple_bind with (Q := fun s0 s => fresh_opens (connection s0) /\ start_source c = Ok setup).
  { by apply triple_get. }
  intros s. set (config := encoder_config_of setup). set (g := Reconnection.starting_generation ctx).
  eapply triple_bind with (Q := fun r _ => (fresh_opens (ServerVideo.connection r.2) /\ carries g config 0 r.1.1 /\
       VideoChannel.generation r.1.2 = g /\ live_channel r.1.2) /\ start_source c = Ok setup).
  { apply triple_local_try. intros s' [Hf Hs].
    eapply triple_conseq; [apply triple_open_first|by intros m ->|by intros r m Hr|done]. }
  intros [opened m]. cbn [fst snd].
  eapply triple_bind with (Q := fun sm _ => ((fresh_opens (ServerVideo.connection m) /\ carries g config 0 opened.1 /\
       VideoChannel.generation opened.2 = g /\ live_channel opened.2) /\ start_source c = Ok setup) /\
       ConnectionSm.state sm = ConnectionSm.Active).
  { apply triple_lift. intros s' Hs'. destruct (channel_live _ _) as [sm|e] eqn:E; [|done].
    split; [exact Hs'|]. by eapply channel_live_active. }
  intros sm. eapply triple_bind with (Q := fun r _ => ((fresh_opens (ServerVideo.connection r.2) /\ carries g config 0 opened.1 /\
       VideoChannel.generation opened.2 = g /\ live_channel opened.2) /\ start_source c = Ok setup) /\
       ConnectionSm.state sm = ConnectionSm.Active).
  { apply triple_local_try. intros s' (((Hf & Hrest) & Hs) & Hsm).
    assert (preserves (fun m => fresh_opens (ServerVideo.connection m))
      (ServerVideo.on_connection (amap_err (ConnError.Feedback (EncodeError := EncodeError) (JoinError := JoinError)) FeedbackSession.accept))) as Hp.
    { apply preserves_zoom_in with (J := fresh_opens); [|done..]. apply preserves_map_err.
      pose proof (fresh_accept_uni false). unfold FeedbackSession.accept. preserve. }
    eapply triple_conseq; [eapply preserves_triple, Hp|by intros m' ->| |done].
    intros r m' Hm'. by split. }
  intros [feedback m']. cbn [fst snd]. apply triple_ret. intros s' (((Hf & Hc & Hg & Hl) & Hs) & Hsm).
  split_and!; [|done|done|done|by exists setup].
  split; [|exact Hl]. split; [exact Hf|]. split; [intros k t Hk; by destruct k|].
  cbn [video video_channel reset_streams frame_id video_send length encoder_config].
  rewrite Hg, Z.add_0_r. split.
  - symmetry. apply wrap_small. apply Hctx.
  - by exists 0%nat.
Qed.

Lemma sink_fresh c setup :
  start_source c = Ok setup ->
  input_sink setup = InputInjection.Log \/ input_sink setup = InputInjection.Os true [] \/
  (exists reason, input_sink setup = InputInjection.Unavailable reason).
Proof.
  destruct c as [w h f|o [[info coming]|e] [u|e']]; cbn; intros Hs; simplify_eq/=; eauto.
Qed.

(** The control stream is accepted, not opened. *)
Lemma establish_fresh sname trusted challenge sid token :
  preserves (fun s => fresh_opens (connection s)) (establish sname trusted challenge sid token).
Proof.
  apply preserves_map_err.
  apply preserves_zoom_in with (J := fun e => fresh_opens (Reconnection.connection e)); [|done..].
  assert (forall A ch (m : async Handshake.ControlChannel Handshake.HandshakeError A),
    preserves fresh_opens (Handshake.with_channel ch m)) as Hw.
  { intros A ch m cn Hc. unfold Handshake.with_channel. by destruct (m ch) as [[[x|e]| | |] ch']. }
  assert (forall E A (m : async Connection E A), preserves fresh_opens m ->
    preserves (fun e => fresh_opens (Reconnection.connection e)) (Reconnection.on_connection m)) as Hon.
  { intros E A m Hm. by apply preserves_zoom_in with (J := fresh_opens). }
  assert (preserves fresh_opens Reconnection.read_first_control_message) as Hfirst.
  { pose proof (fresh_accept_bi false).
    unfold Reconnection.read_first_control_message, Reconnection.accept_control_prologue. preserve. }
  unfold Reconnection.establish_connection. apply preserves_bind; [by apply Hon|].
  intros [[chb|reauth] ch].
  - apply preserves_bind; [by apply Hon, Hw|]. intros [[outcome sm] ch']. apply preserves_ret.
  - apply preserves_bind.
    { intros e He. unfold Reconnection.on_sessions.
      by destruct (Reconnection.server_complete_reconnect _ _ _) as [[[r|r]| | |] [ch' st]]. }
    intros [[[outcome sm]|e] ch']; [apply preserves_ret|].
    intros env He. exact He.
Qed.

Context `{!SessionStore.CtEqLaws}.
Set Default Proof Using "Type*".

Lemma established_context_ok sname trusted challenge sid token s ctx s1 :
  establish sname trusted challenge sid token s = (Ready (Ok (Reconnection.Established ctx)), s1) -> context_ok ctx.
Proof.
  unfold establish, amap_err, azoom. intros He.
  destruct (Reconnection.establish_connection _ _ _ _ _ _) as [[[o|e]| | |] env'] eqn:E; try done.
  injection He as -> _. eapply Reconnection.established_state, E.
Qed.

(** What a connection's session starts its loop with. *)
Lemma established_streams sname trusted challenge sid token c now s ctx s1 s0 p sm s2 :
  fresh_opens (connection s) ->
  establish sname trusted challenge sid token s = (Ready (Ok (Reconnection.Established ctx)), s1) ->
  set_up c now ctx s1 = (Ready (Ok (s0, p, sm)), s2) ->
  session_streams generate_sine_wave_payload (Reconnection.starting_generation ctx) (encoder_config p) s0.
Proof.
  intros Hf He Hset. pose proof (establish_fresh sname trusted challenge sid token s Hf) as Hf1.
  rewrite He in Hf1. cbn [snd] in Hf1.
  pose proof (triple_ok _ _ _ _ _ _ _ (triple_set_up c now ctx (established_context_ok _ _ _ _ _ _ _ _ He)) Hf1 Hset)
    as (Hv & Ha & Hn & _).
  split; [exact Hv|]. unfold audio_in_sequence. by rewrite Ha.
Qed.

(** * Properties *)

(** C6: Every session's streams are in sequence from its first frame on.  A connection
    that is established, new or resumed, and set up enters its loop with a live
    channel of the generation the context asks for; at the head of the loop,
    whatever turns were taken, every video stream used so far carries one
    generation after the other from there, opened by an IDR, frames numbered from
    1 without gaps, and the playback stream the tone's frames from 0. *)
Theorem connection_streams_in_sequence sname trusted challenge sid token c now s ctx s1 s0 p sm s2 events x :
  fresh_opens (connection s) ->
  establish sname trusted challenge sid token s = (Ready (Ok (Reconnection.Established ctx)), s1) ->
  set_up c now ctx s1 = (Ready (Ok (s0, p, sm)), s2) ->
  reaches clock encode_task generate_sine_wave_payload p s0 events x ->
  video_ok (Reconnection.starting_generation ctx) (encoder_config p) (video x) /\
  audio_in_sequence generate_sine_wave_payload x.
Proof.
  intros Hf He Hset Hr. apply (reaches_streams clock encode_task generate_sine_wave_payload _ p s0 events x Hr).
  exact (established_streams _ _ _ _ _ _ _ _ _ _ _ _ _ _ Hf He Hset).
Qed.

(** The session a lost connection leaves in the store. *)
Definition suspended_as (ctx : Reconnection.ConnectionContext) (sm : ConnectionSm.ConnectionSm) (generation : Z) :
    SessionStore.SuspendedSession :=
  {| SessionStore.reconnect_token := Reconnection.cc_reconnect_token ctx;
     SessionStore.connection_sm := ConnectionSm.set_state ConnectionSm.Suspended sm;
     SessionStore.ss_granted_permissions := Reconnection.cc_granted_permissions ctx;
     SessionStore.last_generation := generation; SessionStore.ss_user_id := Reconnection.cc_user_id ctx |}.

Lemma suspend_active ctx sm g s :
  ConnectionSm.state sm = ConnectionSm.Active ->
  exists s', suspend_and_store ctx sm g s = (Ready (Ok tt), s') /\ input_left s' = input_left s /\
    SessionStore.find (sessions s') (Reconnection.cc_session_id ctx) = Some (suspended_as ctx sm g) /\
    SessionStore.timers (sessions s') = SessionStore.timers (sessions s) ++
      [{| SessionStore.deadline := SessionStore.now (sessions s) + ConnectionSm.defaults.RECONNECT_GRACE_PERIOD;
          SessionStore.t_session := Reconnection.cc_session_id ctx;
          SessionStore.t_token := Reconnection.cc_reconnect_token ctx |}].
Proof.
  intros Ha. unfold suspend_and_store, SessionStore.suspend_and_schedule_expiry, ConnectionSm.suspend.
  rewrite Ha. eexists. split; [reflexivity|]. split; [done|]. split; [|done].
  unfold SessionStore.find. cbn. by rewrite lookup_insert_eq.
Qed.

(** C5: A session is suspended exactly when its connection is lost.  Once a connection
    is established and set up, it ends as its loop ends: in peace or with the
    loop's error, leaving the session store to the others; but a lost transport
    or an idle client is no error, the session is in the store under its token,
    user and last generation, to be resumed within the grace period, and storing
    it is never refused.  Either way nothing is left pressed. *)
Theorem connection_end sname trusted challenge sid token c now events meanwhile s ctx s1 s0 p sm s2 :
  fresh_opens (connection s) ->
  establish sname trusted challenge sid token s = (Ready (Ok (Reconnection.Established ctx)), s1) ->
  set_up c now ctx s1 = (Ready (Ok (s0, p, sm)), s2) ->
  let '(result, last) := run_active_session clock encode_task generate_sine_wave_payload p events s0 in
  let '(out, s') := handle_connection sname trusted c challenge sid token now events meanwhile s in
  let others := SessionStore.run (sessions s2) meanwhile in
  (exists i, input_left s' = Some i /\ InputInjection.held (InputInjection.emitted i) = InputState.new_pressed) /\
  match result with
  | Ready (Err e) =>
      if ConnError.is_transport_disconnect e then
        out = Ready (Ok tt) /\
        SessionStore.find (sessions s') (Reconnection.cc_session_id ctx)
          = Some (suspended_as ctx sm (VideoChannel.generation (video_channel (video last)))) /\
        SessionStore.timers (sessions s') = SessionStore.timers others ++
          [{| SessionStore.deadline := SessionStore.now others + ConnectionSm.defaults.RECONNECT_GRACE_PERIOD;
              SessionStore.t_session := Reconnection.cc_session_id ctx;
              SessionStore.t_token := Reconnection.cc_reconnect_token ctx |}]
      else out = Ready (Err e) /\ sessions s' = others
  | r => out = r /\ sessions s' = others
  end.
Proof.
  intros Hf He Hset. pose proof (establish_fresh sname trusted challenge sid token s Hf) as Hf1.
  rewrite He in Hf1. cbn [snd] in Hf1.
  pose proof (triple_ok _ _ _ _ _ _ _ (triple_set_up c now ctx (established_context_ok _ _ _ _ _ _ _ _ He)) Hf1 Hset)
    as (_ & _ & _ & Hsm & setup & Hsetup & Hinput).
  unfold handle_connection. erewrite abind_ready by exact He. cbv beta iota.
  erewrite abind_ready by exact Hset. cbv beta iota.
  pose proof (input_run clock encode_task generate_sine_wave_payload (InputInjection.new (input_sink setup))
    p events s0 ltac:(by exists [])) as Hin.
  apply input_from_released in Hin as [Hheld _]; [|by eapply sink_fresh].
  erewrite abind_ready by (unfold amap_err, run_session; rewrite (surjective_pairing (run_active_session _ _ _ _ _ _)); reflexivity).
  cbv beta iota.
  destruct (run_active_session clock encode_task generate_sine_wave_payload p events s0) as [result last].
  cbn [fst snd] in *. unfold conclude.
  destruct result as [[u|e]| | |]; try (by split; [eexists|]); [by destruct u; split; [eexists|]|].
  destruct (ConnError.is_transport_disconnect e); [|by split; [eexists|]].
  match goal with |- context [suspend_and_store ctx sm ?g ?s'] =>
    destruct (suspend_active ctx sm g s' Hsm) as (sf & -> & Hi & Hfind & Htimers) end.
  split; [rewrite Hi; by eexists|done].
Qed.
End server_connection.

Module Examples.
#[local] Existing Instance plain_transport.
#[local] Existing Instance toy_sha256.
#[local] Existing Instance toy_ed25519.
#[local] Existing Instance toy_exporter.
#[local] Existing Instance SessionStore.plain_ct_eq.
#[local] Instance any_cbor `{Countable T} : Cbor T := countable_cbor.

Definition trusted : VerifyingKey := verifying_key (5 : SigningKey).

(** Session [1] of user "u", suspended with token [7] and the permissions [mask]. *)
Definition stored (mask : Z) : SessionStore.SuspendedSession :=
  {| SessionStore.reconnect_token := [7]; SessionStore.ss_granted_permissions := mask;
     SessionStore.connection_sm := {| ConnectionSm.state := ConnectionSm.Suspended; ConnectionSm.auth_attempts := 0 |};
     SessionStore.last_generation := 4; SessionStore.ss_user_id := "u" |}.

Definition opening_idr : FrameSource.EncodedFrame :=
  {| FrameSource.annex_b := [0; 0; 1; 0x65]; FrameSource.ef_is_idr := true; FrameSource.ef_capture_ts := 5;
     FrameSource.ef_encode_done_ts := 6 |}.

Definition desktop : capture :=
  CaptureDesktop Windows
    (Ok ({| FrameSource.si_width := 16; FrameSource.si_height := 16; FrameSource.fps := 30;
            FrameSource.origin_x := 0; FrameSource.origin_y := 0 |}, [DesktopFrame opening_idr])) (Ok tt).

Definition frame (t : Z) (payload : list Z) : list Z := Envelope.frame t payload.

(** The client reconnects with token [7], measures one round of time
    synchronisation, and its control stream ends. *)
Definition control_script : list read_event :=
  [RData (Handshake.control_prologue
     ++ frame type_id.SESSION_REAUTHENTICATE (encode (Reconnection.reauth_request [1] [7]))
     ++ frame type_id.TIME_SYNC_REQUEST (encode {| req_t1 := 3 |})); RElapsed; RFin].

Definition feedback_prologue : list Z :=
  match Prologue.encode StreamKind.Feedback 1 0 [] with Done b => b | Panic => [] end.

Definition arriving (mask : Z) : server :=
  {| connection :=
       {| uni_accepts := [AStream [RData feedback_prologue] {| sent := []; write_results := [] |}];
          bi_accepts := [AStream control_script {| sent := []; write_results := [] |}];
          uni_opens := [OStream {| sent := []; write_results := [] |} []]; bi_opens := [];
          released := []; stopped_readers := [] |};
     clock_reads := 0;
     sessions := {| SessionStore.store := {| SessionStore.sessions := {[ [1] := stored mask ]} |};
                    SessionStore.timers := []; SessionStore.now := 0 |};
     file_handles := FileHandleStore.new; permission_command := []; input_left := None |}.

Definition clock : nat -> Z := fun _ => 0.
Definition no_encoder : TimecodeFrame.SyntheticFrame -> option (result unit (result unit (list Z))) := fun _ => None.
Definition silence : Z -> Z -> list Z := fun _ _ => [].

#[local] Notation establish := (establish (EncodeError := unit) (JoinError := unit) "s" trusted [9] [8] [6]).
#[local] Notation set_up := (set_up clock no_encoder desktop 0).
#[local] Notation serve := (handle_connection clock no_encoder silence "s" trusted desktop [9] [8] [6] 0).

Lemma arriving_fresh mask : fresh_opens (connection (arriving mask)).
Proof. intros s r Hin. apply list_elem_of_singleton in Hin. by injection Hin as -> _. Defined.

(** The control stream ends in the loop's first turn: the connection is over
    without an error and session [1] waits under its new token. *)
Lemma connection_end_witness :
  (serve [Turn 1 (ControlArm [])] [] (arriving bit.VIEW)).1 = Ready (Ok tt) /\
  exists generation, SessionStore.find (sessions (serve [Turn 1 (ControlArm [])] [] (arriving bit.VIEW)).2) [1]
    = Some {| SessionStore.reconnect_token := [6];
              SessionStore.connection_sm := {| ConnectionSm.state := ConnectionSm.Suspended;
                                               ConnectionSm.auth_attempts := 0 |};
              SessionStore.ss_granted_permissions := bit.VIEW; SessionStore.last_generation := generation;
              SessionStore.ss_user_id := "u" |}.
Proof.
  pose proof SessionStore.plain_ct_eq_laws as L.
  destruct (establish (arriving bit.VIEW)) as [r1 s1] eqn:E1.
  pose proof E1 as E1'. vm_compute in E1'. injection E1' as <- <-.
  match type of E1 with _ = (Ready (Ok (Reconnection.Established ?ctx)), ?s1) =>
    destruct (set_up ctx s1) as [r2 s2] eqn:E2; pose proof E2 as E2'; vm_compute in E2'; injection E2' as <- <-;
    match type of E2 with _ = (Ready (Ok (?s0, ?p, ?sm)), ?s2) =>
      pose proof (connection_end clock no_encoder silence "s" trusted [9] [8] [6] desktop 0 [Turn 1 (ControlArm [])] []
        (arriving bit.VIEW) ctx s1 s0 p sm s2 (arriving_fresh _) E1 E2) as H
    end
  end.
  destruct (run_active_session _ _ _ _ _ _) as [result last] eqn:E3.
  assert (match result with Ready (Err e) => ConnError.is_transport_disconnect e | _ => false end = true) as Hd.
  { change result with (result, last).1. rewrite <- E3. by vm_compute. }
  destruct result as [[?|e]| | |]; [discriminate Hd| |discriminate Hd..]. rewrite Hd in H.
  destruct (serve _ _ _) as [out s']. destruct H as (_ & -> & Hf & _). split; [done|].
  eexists. exact Hf.
Defined.

(** A resumed session whose loop has not turned yet. *)
Lemma connection_streams_in_sequence_witness :
  match (establish (arriving bit.VIEW)).1 with
  | Ready (Ok (Reconnection.Established ctx)) =>
      match (set_up ctx (establish (arriving bit.VIEW)).2).1 with
      | Ready (Ok (s0, p, _)) => video_ok 5 (encoder_config p) (video s0) /\ audio_in_sequence silence s0
      | _ => False
      end
  | _ => False
  end.
Proof.
  pose proof SessionStore.plain_ct_eq_laws as L.
  destruct (establish (arriving bit.VIEW)) as [r1 s1] eqn:E1.
  pose proof E1 as E1'. vm_compute in E1'. injection E1' as <- <-. cbn [fst snd].
  match type of E1 with _ = (Ready (Ok (Reconnection.Established ?ctx)), ?s1) =>
    destruct (set_up ctx s1) as [r2 s2] eqn:E2; pose proof E2 as E2'; vm_compute in E2'; injection E2' as <- <-;
    match type of E2 with _ = (Ready (Ok (?s0, ?p, ?sm)), ?s2) =>
      exact (connection_streams_in_sequence clock no_encoder silence "s" trusted [9] [8] [6] desktop 0
        (arriving bit.VIEW) ctx s1 s0 p sm s2 [] s0 (arriving_fresh _) E1 E2 (reaches_start _ _ _ _ _))
    end
  end.
Defined.

(** The admin takes VIEW away, the client loses its connection, and its next one
    has VIEW again: the store keeps the permissions the session began with. *)
Example revoked_permission_returns :
  let revoking := [AdminQueues (PermissionSm.TogglePermission bit.VIEW false); Turn 1 FrameTick;
                   Turn 2 (ControlArm [])] in
  let s' := (serve revoking [] (arriving bit.VIEW)).2 in
  option_map SessionStore.ss_granted_permissions (SessionStore.find (sessions s') [1]) = Some bit.VIEW.
Proof. by vm_compute. Qed.

(** A session's first stream is announced under configuration 0, and the frames on
    it are sent under configuration 1. *)
Example first_frames_change_configuration :
  let second := {| bytes := [0; 0; 1; 0x41]; is_idr := false; sf_capture_ts := 7; sf_encode_done_ts := 8 |} in
  match establish (arriving bit.VIEW) with
  | (Ready (Ok (Reconnection.Established ctx)), s1) =>
      match (set_up ctx s1).1 with
      | Ready (Ok (s0, p, _)) =>
          let config := encoder_config p in
          let s := (ServerSession.send_frame (EncodeError := unit) (JoinError := unit) config second s0).2 in
          let header := sourced_header 5 1 config second in
          match Prologue.encode StreamKind.Video 1 0 [] with
          | Done pb => sent (video_send (video s))
              = pb ++ VideoSession.intro_bytes 5 0 config [0; 0; 1; 0x65] 5 6
                  ++ VideoSession.frame_bytes [(header, bytes second)] /\ vfh_config_id header = 1
          | Panicked => False
          end
      | _ => False
      end
  | _ => False
  end.
Proof. by vm_compute. Qed.

(** A desktop whose capture does not start refuses the client after its
    authentication; nothing is stored for it. *)
Example capture_failure_ends_connection :
  (handle_connection clock no_encoder silence "s" trusted (CaptureDesktop Windows (Err "no display") (Ok tt))
     [9] [8] [6] 0 [] [] (arriving bit.VIEW)).1 = Ready (Err (ConnError.Capture "no display")).
Proof. by vm_compute. Qed.
End Examples.
