(* ===== verification/DisplayWindow.v ===== *)
(** The client's display window and the thread behind it: the model of
    [H264DisplayWindow], [worker_main], [run_worker] and [decode_and_present] in
    [src/sardp-win/src/display.rs].

    The calls into Windows, Direct3D and Media Foundation are a script: what the
    decoder and the swap chain answer, and what the clock reads, is part of the
    event that makes the thread take a turn.  The client's calls and the thread's
    turns interleave. *)

From S2P Require Import Prelude.

(** * Definitions *)

Record SubmittedFrame := {
  sf_generation : Z;
  sf_frame_id : Z;
  sf_is_idr : bool;
  sf_width : Z;
  sf_height : Z;
  annex_b : list Z;
  sf_receive_ts : Z;
}.

Record FrameTiming := {
  ft_generation : Z;
  ft_frame_id : Z;
  ft_receive_ts : Z;
  ft_dequeue_ts : Z;
  ft_decode_done_ts : Z;
  ft_display_ts : Z;
  ft_presented : bool;
}.

Inductive WinDisplayError := Init (message : string) | Closed.

(** [frames_decoded] of the decoder only counts. *)
Record Decoder := { d_width : Z; d_height : Z; frames_decoded : Z }.

(** The thread: in its loop, with timings it has still to send; returned from the
    loop, which drops its ends of the channels; and done, with [closed] set. *)
Inductive thread :=
| Running (decoder : option Decoder) (unsent : list FrameTiming)
| Returned
| Exited.

(** Both channels, the shared state and the thread. *)
Record H264DisplayWindow := {
  frames : list SubmittedFrame;
  timings : list FrameTiming;
  closed : bool;
  newest_generation : Z;
  handle_live : bool;
  worker : thread;
}.

Definition TIMING_CAPACITY : nat := 64.

(** The window as [open] returns it. *)
Definition opened : H264DisplayWindow :=
  {| frames := []; timings := []; closed := false; newest_generation := 0; handle_live := true;
     worker := Running None [] |}.

Definition in_loop (w : H264DisplayWindow) : bool :=
  match worker w with Running _ _ => true | _ => false end.

(** ** The client's calls *)

Definition submit (f : SubmittedFrame) (w : H264DisplayWindow) : result WinDisplayError unit * H264DisplayWindow :=
  if closed w then (Err Closed, w)
  else
    let newest := Z.max (newest_generation w) (sf_generation f) in
    if in_loop w then
      (Ok tt, {| frames := frames w ++ [f]; timings := timings w; closed := closed w; newest_generation := newest;
                 handle_live := handle_live w; worker := worker w |})
    else
      (Err Closed, {| frames := frames w; timings := timings w; closed := closed w; newest_generation := newest;
                      handle_live := handle_live w; worker := worker w |}).

(** [None] while there is nothing to receive yet, [Some None] once there never
    will be. *)
Definition next_timing (w : H264DisplayWindow) : option (option FrameTiming) * H264DisplayWindow :=
  match timings w with
  | t :: ts =>
      (Some (Some t), {| frames := frames w; timings := ts; closed := closed w;
                         newest_generation := newest_generation w; handle_live := handle_live w;
                         worker := worker w |})
  | [] => (if in_loop w then None else Some None, w)
  end.

Definition is_closed (w : H264DisplayWindow) : bool := closed w.

(** [drop], with the drop of the fields. *)
Definition drop_window (w : H264DisplayWindow) : H264DisplayWindow :=
  {| frames := frames w; timings := []; closed := true; newest_generation := newest_generation w;
     handle_live := false; worker := worker w |}.

(** ** The thread *)

(** What one [ProcessOutput] leads to before the call that ends the loop: a
    picture, with the clock before and after the presentation, the swap chain's
    readiness, and what getting the texture and presenting it answer; an output
    without a sample; new stream parameters. *)
Inductive output_event :=
| Sample (texture : result string unit) (ready : bool) (present : result string unit)
    (decode_done_ts display_ts : Z)
| NoSample
| StreamChange (renegotiated : result string unit).

Record decode_script := {
  created : result string unit;
  sample_built : result string unit;
  input_taken : result string unit;
  outputs : list output_event;
  last_output : result string unit;  (** [Ok] for [MF_E_TRANSFORM_NEED_MORE_INPUT] *)
}.

Definition timing_of (f : SubmittedFrame) (dequeue_ts decode_done_ts display_ts : Z) (presented : bool) :
    FrameTiming :=
  {| ft_generation := sf_generation f; ft_frame_id := sf_frame_id f; ft_receive_ts := sf_receive_ts f;
     ft_dequeue_ts := dequeue_ts; ft_decode_done_ts := decode_done_ts; ft_display_ts := display_ts;
     ft_presented := presented |}.

(** The loop of [decode_and_present]. *)
Fixpoint process_outputs (f : SubmittedFrame) (dequeue_ts : Z) (last : result string unit)
    (d : Decoder) (ts : list FrameTiming) (evs : list output_event) : result string (list FrameTiming) * Decoder :=
  match evs with
  | [] => (_ ← last; Ok ts, d)
  | NoSample :: evs => process_outputs f dequeue_ts last d ts evs
  | StreamChange (Err e) :: _ => (Err e, d)
  | StreamChange (Ok _) :: evs => process_outputs f dequeue_ts last d ts evs
  | Sample texture ready present decode_done_ts display_ts :: evs =>
      let d := {| d_width := d_width d; d_height := d_height d;
                  frames_decoded := wrap 64 (frames_decoded d + 1) |} in
      match texture, (if ready then present else Ok tt) with
      | Err e, _ => (Err e, d)
      | Ok _, Err e => (Err e, d)
      | Ok _, Ok _ =>
          process_outputs f dequeue_ts last d (ts ++ [timing_of f dequeue_ts decode_done_ts display_ts ready]) evs
      end
  end.

Definition needs_new_decoder (d : option Decoder) (f : SubmittedFrame) : bool :=
  match d with
  | Some d => negb (d_width d =? sf_width f) || negb (d_height d =? sf_height f)
  | None => true
  end.

Definition decode_and_present (f : SubmittedFrame) (dequeue_ts : Z) (sc : decode_script) (d : option Decoder) :
    result string (list FrameTiming) * option Decoder :=
  let ensured :=
    match d with
    | Some d' =>
        if needs_new_decoder d f then
          _ ← created sc; Ok {| d_width := sf_width f; d_height := sf_height f; frames_decoded := 0 |}
        else Ok d'
    | None => _ ← created sc; Ok {| d_width := sf_width f; d_height := sf_height f; frames_decoded := 0 |}
    end in
  match ensured with
  | Err e => (Err e, d)
  | Ok d' =>
      match (_ ← sample_built sc; input_taken sc) with
      | Err e => (Err e, Some d')
      | Ok _ =>
          let '(r, d'') := process_outputs f dequeue_ts (last_output sc) d' [] (outputs sc) in
          (r, Some d'')
      end
  end.

(** A turn of the thread: [Quit], the user closed the window; [Take], the message
    queue is drained and the channel looked at. *)
Inductive worker_event :=
| Quit
| Take (dequeue_ts : Z) (sc : decode_script).

Definition with_worker (t : thread) (w : H264DisplayWindow) : H264DisplayWindow :=
  {| frames := frames w; timings := timings w; closed := closed w; newest_generation := newest_generation w;
     handle_live := handle_live w; worker := t |}.

Definition without_frame (rest : list SubmittedFrame) (w : H264DisplayWindow) : H264DisplayWindow :=
  {| frames := rest; timings := timings w; closed := closed w; newest_generation := newest_generation w;
     handle_live := handle_live w; worker := worker w |}.

(** [run_worker] returns: its ends of the channels go with it. *)
Definition return_from_loop (w : H264DisplayWindow) : H264DisplayWindow :=
  with_worker Returned (without_frame [] w).

(** [timing_tx.blocking_send]. *)
Definition send_timing (d : option Decoder) (t : FrameTiming) (ts : list FrameTiming) (w : H264DisplayWindow) :
    H264DisplayWindow :=
  if negb (handle_live w) then return_from_loop w
  else if (length (timings w) <? TIMING_CAPACITY)%nat then
    {| frames := frames w; timings := timings w ++ [t]; closed := closed w;
       newest_generation := newest_generation w; handle_live := handle_live w; worker := Running d ts |}
  else w.

Definition take_frame (d : option Decoder) (dequeue_ts : Z) (sc : decode_script) (w : H264DisplayWindow) :
    H264DisplayWindow :=
  match frames w with
  | [] => if handle_live w then w else return_from_loop w
  | f :: rest =>
      if sf_generation f <? newest_generation w then without_frame rest w
      else
        match decode_and_present f dequeue_ts sc d with
        | (Err _, _) => return_from_loop w
        | (Ok ts, d') => with_worker (Running d' ts) (without_frame rest w)
        end
  end.

Definition worker_turn (e : worker_event) (w : H264DisplayWindow) : H264DisplayWindow :=
  match worker w with
  | Running d (t :: ts) => send_timing d t ts w
  | Running d [] =>
      match e with
      | Quit => return_from_loop w
      | Take dequeue_ts sc => if closed w then return_from_loop w else take_frame d dequeue_ts sc w
      end
  | Returned =>
      {| frames := frames w; timings := timings w; closed := true; newest_generation := newest_generation w;
         handle_live := handle_live w; worker := Exited |}
  | Exited => w
  end.

(** * Lemmas *)

Definition frame_key (f : SubmittedFrame) : Z * Z := (sf_generation f, sf_frame_id f).
Definition timing_key (t : FrameTiming) : Z * Z := (ft_generation t, ft_frame_id t).

Definition unsent (w : H264DisplayWindow) : list FrameTiming :=
  match worker w with Running _ ts => ts | _ => [] end.

(** What may still be reported, in the order in which it would be. *)
Definition in_flight (w : H264DisplayWindow) : list (Z * Z) :=
  map timing_key (timings w ++ unsent w) ++ map frame_key (frames w).

(** A decoder that gives at most one picture per access unit. *)
Definition is_sample (e : output_event) : bool := match e with Sample _ _ _ _ _ => true | _ => false end.
Definition one_picture (e : worker_event) : Prop :=
  match e with
  | Quit => True
  | Take _ sc => (length (List.filter is_sample (outputs sc)) <= 1)%nat
  end.

Lemma process_outputs_timings f q last d ts evs :
  match (process_outputs f q last d ts evs).1 with
  | Ok ts' => exists new, ts' = ts ++ new /\ length new = length (List.filter is_sample evs) /\
      Forall (fun t => timing_key t = frame_key f) new
  | Err _ => True
  end.
Proof.
  revert d ts. induction evs as [|e evs IH]; intros d ts; cbn [process_outputs].
  - destruct last as [[]|e]; cbn; [|done]. exists []. by rewrite app_nil_r.
  - destruct e as [texture ready present dd dt| |[[]|e]]; cbn [List.filter is_sample]; [|apply IH|apply IH|done].
    destruct texture as [[]|e]; [|done]. destruct (if ready then present else Ok tt) as [[]|e]; [|done].
    specialize (IH {| d_width := d_width d; d_height := d_height d; frames_decoded := wrap 64 (frames_decoded d + 1) |}
      (ts ++ [timing_of f q dd dt ready])).
    destruct (process_outputs _ _ _ _ _ evs).1 as [ts'|e]; [|done].
    destruct IH as (new & -> & Hl & Hf). exists (timing_of f q dd dt ready :: new).
    rewrite <- app_assoc. split; [done|]. cbn [length]. split; [by rewrite Hl|]. by constructor.
Qed.

Lemma decode_timings f q sc d :
  match (decode_and_present f q sc d).1 with
  | Ok ts => length ts = length (List.filter is_sample (outputs sc)) /\ Forall (fun t => timing_key t = frame_key f) ts
  | Err _ => True
  end.
Proof.
  unfold decode_and_present. destruct (match d with Some _ => _ | None => _ end) as [d'|e]; [|done].
  destruct (_ ← sample_built sc; input_taken sc) as [[]|e]; [|done].
  pose proof (process_outputs_timings f q (last_output sc) d' [] (outputs sc)) as H.
  destruct (process_outputs _ _ _ _ _ _) as [[ts|e] d'']; [|done]. by destruct H as (new & -> & ? & ?).
Qed.

Lemma in_flight_return w : in_flight (return_from_loop w) `sublist_of` in_flight w.
Proof.
  unfold in_flight, return_from_loop. cbn. rewrite !app_nil_r, map_app, <- app_assoc.
  apply sublist_inserts_r. done.
Qed.

(** A turn of the thread reports at most what was in flight, in the same order. *)
Lemma in_flight_turn e w : one_picture e -> in_flight (worker_turn e w) `sublist_of` in_flight w.
Proof.
  intros He. unfold worker_turn. destruct (worker w) as [d [|t ts]| |] eqn:Ew.
  - destruct e as [|q sc]; [apply in_flight_return|]. destruct (closed w); [apply in_flight_return|].
    unfold take_frame. destruct (frames w) as [|f rest] eqn:Ef.
    { destruct (handle_live w); [done|apply in_flight_return]. }
    assert (forall l, l `sublist_of` [frame_key f] ->
      map timing_key (timings w) ++ l ++ map frame_key rest
      `sublist_of` map timing_key (timings w) ++ map frame_key (frames w)) as Hl.
    { intros l Hl. rewrite Ef. apply sublist_app; [done|]. by apply (sublist_app l [frame_key f]). }
    destruct (_ <? _).
    { unfold in_flight, unsent. cbn. rewrite Ew, app_nil_r. apply (Hl []), sublist_nil_l. }
    pose proof (decode_timings f q sc d) as Hd. cbn in He.
    destruct (decode_and_present f q sc d) as [[ts|err] d']; [|apply in_flight_return].
    cbn [fst] in Hd. destruct Hd as [Hlen Hkeys].
    unfold in_flight, unsent. cbn. rewrite Ew, app_nil_r, map_app, <- app_assoc. apply Hl.
    destruct ts as [|t [|t' ts]]; cbn in *; [apply sublist_nil_l| |lia].
    apply Forall_cons in Hkeys as [-> _]. done.
  - unfold send_timing. destruct (negb _); [apply in_flight_return|]. destruct (_ <? _)%nat; [|done].
    unfold in_flight, unsent. cbn. by rewrite Ew, <- app_assoc.
  - unfold in_flight, unsent. cbn. by rewrite Ew.
  - done.
Qed.

Lemma in_flight_submit f w :
  in_flight (submit f w).2 = in_flight w ++ match (submit f w).1 with Ok _ => [frame_key f] | Err _ => [] end.
Proof.
  unfold submit. destruct (closed w); [by rewrite app_nil_r|]. destruct (in_loop w) eqn:El; cbn.
  - unfold in_flight, unsent. cbn. by rewrite (map_app frame_key), app_assoc.
  - by rewrite app_nil_r.
Qed.

Lemma in_flight_next_timing w :
  match next_timing w with
  | (Some (Some t), w') => in_flight w = timing_key t :: in_flight w'
  | (_, w') => w' = w
  end.
Proof.
  unfold next_timing. destruct (timings w) as [|t ts] eqn:Et; [by destruct (in_loop w)|].
  unfold in_flight. by rewrite Et.
Qed.

Lemma closed_stays e w : closed w = true -> closed (worker_turn e w) = true.
Proof.
  intros Hc. unfold worker_turn, send_timing, take_frame, return_from_loop, with_worker, without_frame.
  destruct (worker w) as [d [|t ts]| |]; [|by repeat case_match|done|done].
  destruct e; [done|]. by rewrite Hc.
Qed.

Lemma closed_submit f w r w' : submit f w = (r, w') -> closed w' = closed w.
Proof. unfold submit. repeat case_match; by intros [= <- <-]. Qed.

Lemma closed_next_timing w r w' : next_timing w = (r, w') -> closed w' = closed w.
Proof. unfold next_timing. repeat case_match; by intros [= <- <-]. Qed.
