(* ===== verification/AppError.v ===== *)
(** The client's errors: the model of [AppError] in
    [src/sardp-cli/src/bin/sardp-client.rs]. *)

From S2P Require Import Prelude.
From S2P Require Import ReasonCode.
From S2P Require Import Async.
From S2P Require Import StreamReader.
From S2P Require VideoSession.
From S2P Require AudioSession.
From S2P Require ClipboardSession.
From S2P Require Handshake.
From S2P Require TimeSync.

Section app_error.
Context `{Transport}.

(** The errors of connecting, of the decoder process and of [tokio]'s tasks, which
    are only passed on. *)
Context {ConnectError FrameError JoinError : Type}.

Inductive AppError :=
| Quic (e : ConnectionError)
| Connect (e : ConnectError)
| Handshake (e : Handshake.HandshakeError)
| TimeSync (e : TimeSync.TimeSyncError)
| Video (e : VideoSession.VideoError)
| Read (e : StreamReadError)
| Write (e : WriteError)
| Decode (e : FrameError)
| Join (e : JoinError)
| Violation (reason : ReasonCode)
| Audio (e : AudioSession.AudioError)
| Clipboard (e : ClipboardSession.ClipboardSessionError)
| Display (message : string).
End app_error.
