(* ===== verification/ClientVideo.v ===== *)
(** What a client does with the frames it receives: the model of [VideoSink],
    [observe_circuit_breaker], [FrameStats], [summarize] and [process_frame] in
    [src/sardp-cli/src/bin/sardp-client.rs].

    The window and its thread are those of [DisplayWindow]; the decoder process of
    the log mode is a parameter.  Dumping frames to files and printing are left
    out. *)

From stdpp Require Import sorting.
From S2P Require Import Prelude.
From S2P Require Import ReasonCode.
From S2P Require Import Async.
From S2P Require Import StreamReader.
From S2P Require Import Connection.
From S2P Require Import Messages.
From S2P Require Import MessageCodecs.
From S2P Require TimeSync.
From S2P Require TimecodeFrame.
From S2P Require Import FeedbackSession.
From S2P Require ClientDisplay.
From S2P Require QueueCircuitBreaker.
From S2P Require DisplayWindow.
From S2P Require AppError.
From S2P Require Import AsyncTriples.

(** * Definitions *)

(** [sort_unstable] on [u64]s; equal elements are the same. *)
Definition sorted (samples : list Z) : list Z := merge_sort Z.le samples.

(** [(avg, p50, p95, max)]. *)
Definition summarize (samples : list Z) : outcome (Z * Z * Z * Z) :=
  match samples with
  | [] => Done (0, 0, 0, 0)
  | _ =>
      let sorted := sorted samples in
      let n := Z.of_nat (length sorted) in
      let at_ i := match sorted !! Z.to_nat i with Some x => Done x | None => Panicked end in
      let percentile p := at_ (wrap 64 ((n - 1) * p) / 100) in
      let avg := fold_left (fun a x => wrap 64 (a + x)) sorted 0 / n in
      p50 ← percentile 50;
      p95 ← percentile 95;
      top ← at_ (n - 1);
      Done (avg, p50, p95, top)
  end.

Record FrameStats := {
  received : Z;
  displayed : Z;
  stale_generation : Z;
  no_output : Z;
  not_presented : Z;
  resets : Z;
  total_bytes : Z;
  idr : Z;
  keyframe_requests_sent : Z;
  encode_us : list Z;
  transport_us : list Z;
  queue_us : list Z;
  decode_us : list Z;
  present_us : list Z;
  glass_to_glass_us : list Z;
}.

Definition no_stats : FrameStats :=
  {| received := 0; displayed := 0; stale_generation := 0; no_output := 0; not_presented := 0; resets := 0;
     total_bytes := 0; idr := 0; keyframe_requests_sent := 0; encode_us := []; transport_us := [];
     queue_us := []; decode_us := []; present_us := []; glass_to_glass_us := [] |}.

(** The counters [received], [stale_generation], [no_output], [resets] and
    [keyframe_requests_sent] increased. *)
Definition count (r s n x k : Z) (f : FrameStats) : FrameStats :=
  {| received := wrap 64 (received f + r); displayed := displayed f;
     stale_generation := wrap 64 (stale_generation f + s); no_output := wrap 64 (no_output f + n);
     not_presented := not_presented f; resets := wrap 64 (resets f + x); total_bytes := total_bytes f;
     idr := idr f; keyframe_requests_sent := wrap 64 (keyframe_requests_sent f + k);
     encode_us := encode_us f; transport_us := transport_us f; queue_us := queue_us f;
     decode_us := decode_us f; present_us := present_us f; glass_to_glass_us := glass_to_glass_us f |}.

Definition record_displayed (header : VideoFrameHeader) (len : Z) (t : FrameTimestamps)
    (dequeue_ts : option Z) (presented : bool) (offset_us : Z) (f : FrameStats) : FrameStats :=
  let encode := sat_sub (encode_done_ts header) (capture_ts header) in
  let receive_server := TimeSync.to_responder_clock (receive_ts t) offset_us in
  let transport := sat_sub receive_server (encode_done_ts header) in
  let queue := option_map (fun d => sat_sub d (receive_ts t)) dequeue_ts in
  let decode := sat_sub (decode_done_ts t) (default (receive_ts t) dequeue_ts) in
  let present := sat_sub (display_ts t) (decode_done_ts t) in
  let display_server := TimeSync.to_responder_clock (display_ts t) offset_us in
  let glass_to_glass := sat_sub display_server (capture_ts header) in
  {| received := received f; displayed := wrap 64 (displayed f + 1); stale_generation := stale_generation f;
     no_output := no_output f;
     not_presented := if presented then not_presented f else wrap 64 (not_presented f + 1);
     resets := resets f; total_bytes := wrap 64 (total_bytes f + len);
     idr := if is_idr header then wrap 64 (idr f + 1) else idr f;
     keyframe_requests_sent := keyframe_requests_sent f; encode_us := encode_us f ++ [encode];
     transport_us := transport_us f ++ [transport];
     queue_us := queue_us f ++ match queue with Some q => [q] | None => [] end;
     decode_us := decode_us f ++ [decode]; present_us := present_us f ++ [present];
     glass_to_glass_us := glass_to_glass_us f ++ [glass_to_glass] |}.

Record DisplayedFrame := { timecode_us : option Z }.

Record PendingFeedback := {
  pf_header : VideoFrameHeader;
  pf_payload_len : Z;
  pf_receive_ts : Z;
}.

Inductive VideoSink :=
| Log
| Window (window : DisplayWindow.H264DisplayWindow) (pending : list PendingFeedback)
    (breaker : QueueCircuitBreaker.ClientQueueCircuitBreaker).

Inductive DisplayMode := LogMode | WindowMode.

(** [VideoSink::open]; [opened] is what opening the window leads to. *)
Definition open_sink (mode : DisplayMode) (opened : result string DisplayWindow.H264DisplayWindow) :
    outcome (result string VideoSink) :=
  match mode with
  | LogMode => Done (Ok Log)
  | WindowMode =>
      match opened with
      | Err e => Done (Err e)
      | Ok window => breaker ← QueueCircuitBreaker.new; Done (Ok (Window window [] breaker))
      end
  end.

Section client_video.
Context `{Async.Transport}.
Context `{!Cbor TransportFeedback, !Cbor AudioSyncFeedback, !Cbor KeyframeRequest}.
Context {ConnectError FrameError JoinError : Type}.

#[local] Notation app_error := (@AppError.AppError _ ConnectError FrameError JoinError).

(** What the [n]-th reading of the clock returns, and what decoding a payload as a
    picture of a given size leads to; [None] while the task goes on. *)
Variable clock : nat -> Z.
Variable decode_task : list Z -> Z -> Z -> option (result JoinError (result FrameError TimecodeFrame.SyntheticFrame)).

(** The variables of the session that frames pass through. *)
Record viewer := {
  sink : VideoSink;
  display : @ClientDisplay.ClientDisplay DisplayedFrame;
  stats : FrameStats;
  feedback_send : SendStream;
  ticks : nat;
}.

Notation viewing := (async viewer app_error).

Definition now_us : viewing Z := fun v =>
  (Ready (Ok (clock (ticks v))),
   {| sink := sink v; display := display v; stats := stats v; feedback_send := feedback_send v; ticks := S (ticks v) |}).

Definition set_sink (s : VideoSink) : viewing unit := fun v =>
  (Ready (Ok tt),
   {| sink := s; display := display v; stats := stats v; feedback_send := feedback_send v; ticks := ticks v |}).

Definition update_stats (f : FrameStats -> FrameStats) : viewing unit := fun v =>
  (Ready (Ok tt),
   {| sink := sink v; display := display v; stats := f (stats v); feedback_send := feedback_send v; ticks := ticks v |}).

(** [display.submit_frame]; the assertion on its outcome is one of debug builds. *)
Definition submit_frame (header : VideoFrameHeader) (frame : DisplayedFrame) : viewing unit := fun v =>
  (Ready (Ok tt),
   {| sink := sink v; display := (ClientDisplay.submit_frame header frame (display v)).2; stats := stats v;
      feedback_send := feedback_send v; ticks := ticks v |}).

Definition on_feedback_send (m : async SendStream WriteError unit) : viewing unit :=
  amap_err AppError.Write (azoom feedback_send (fun s v =>
    {| sink := sink v; display := display v; stats := stats v; feedback_send := s; ticks := ticks v |}) m).

Definition await_decode (payload : list Z) (width height : Z) : viewing TimecodeFrame.SyntheticFrame := fun v =>
  match decode_task payload width height with
  | None => (Pending, v)
  | Some (Err e) => (Ready (Err (AppError.Join e)), v)
  | Some (Ok (Err e)) => (Ready (Err (AppError.Decode e)), v)
  | Some (Ok (Ok decoded)) => (Ready (Ok decoded), v)
  end.

(** [observe_circuit_breaker] on the sink's queue and breaker. *)
Definition observe_circuit_breaker (window : DisplayWindow.H264DisplayWindow) (pending : list PendingFeedback)
    (breaker : QueueCircuitBreaker.ClientQueueCircuitBreaker) : viewing unit :=
  age ← match pending with
        | [] => aret 0
        | p :: _ => now ← now_us; aret (sat_sub now (pf_receive_ts p))
        end;
  let '(request, breaker) := QueueCircuitBreaker.observe age breaker in
  _ ← set_sink (Window window pending breaker);
  match request with
  | Some request =>
      _ ← update_stats (count 0 0 0 0 1);
      on_feedback_send (send_keyframe_request request)
  | None => aret tt
  end.

Definition send_feedback_of (header : VideoFrameHeader) (len : Z) (t : FrameTimestamps)
    (offset_us target_latency : Z) : viewing unit :=
  on_feedback_send (send_transport_feedback (build_transport_feedback header len t offset_us target_latency)).

Definition submitted_frame (header : VideoFrameHeader) (payload : list Z) (received_at : Z) :
    DisplayWindow.SubmittedFrame :=
  {| DisplayWindow.sf_generation := vfh_generation header; DisplayWindow.sf_frame_id := frame_id header;
     DisplayWindow.sf_is_idr := is_idr header; DisplayWindow.sf_width := vfh_width header;
     DisplayWindow.sf_height := vfh_height header; DisplayWindow.annex_b := payload;
     DisplayWindow.sf_receive_ts := received_at |}.

Definition win_display_error (e : DisplayWindow.WinDisplayError) : string :=
  match e with
  | DisplayWindow.Init m => "display init failed: " ++ m
  | DisplayWindow.Closed => "display window closed"
  end.

Definition process_frame (offset_us target_latency : Z) (header : VideoFrameHeader) (payload : list Z) :
    viewing unit :=
  received_at ← now_us;
  _ ← update_stats (count 1 0 0 0 0);
  v ← aget;
  if negb (ClientDisplay.would_display (display v) header) then update_stats (count 0 1 0 0 0)
  else
    let len := Z.of_nat (length payload) in
    match sink v with
    | Log =>
        decoded ← await_decode payload (vfh_width header) (vfh_height header);
        decoded_at ← now_us;
        timecode ← aoutcome (TimecodeFrame.extract_timecode decoded);
        _ ← submit_frame header {| timecode_us := Some timecode |};
        displayed_at ← now_us;
        let t := {| receive_ts := received_at; decode_done_ts := decoded_at; display_ts := displayed_at |} in
        _ ← update_stats (record_displayed header len t None true offset_us);
        send_feedback_of header len t offset_us target_latency
    | Window window pending breaker =>
        if DisplayWindow.is_closed window then aret tt
        else
          let '(submitted, window) := DisplayWindow.submit (submitted_frame header payload received_at) window in
          _ ← set_sink (Window window pending breaker);
          _ ← alift (map_err (fun e => AppError.Display (win_display_error e)) submitted);
          _ ← submit_frame header {| timecode_us := None |};
          let pending := pending ++ [{| pf_header := header; pf_payload_len := len; pf_receive_ts := received_at |}] in
          observe_circuit_breaker window pending breaker
    end.

(** The position of the frame a timing names, as what is before it, it and what
    is behind it. *)
Fixpoint split_pending (generation frame : Z) (pending : list PendingFeedback) :
    option (list PendingFeedback * PendingFeedback * list PendingFeedback) :=
  match pending with
  | [] => None
  | p :: ps =>
      if (vfh_generation (pf_header p) =? generation) && (frame_id (pf_header p) =? frame) then Some ([], p, ps)
      else
        '(before, entry, behind) ← split_pending generation frame ps;
        Some (p :: before, entry, behind)
  end.

Definition on_window_timing (timing : DisplayWindow.FrameTiming) (offset_us target_latency : Z) : viewing unit :=
  v ← aget;
  match sink v with
  | Log => aret tt
  | Window window pending breaker =>
      match split_pending (DisplayWindow.ft_generation timing) (DisplayWindow.ft_frame_id timing) pending with
      | None => aret tt
      | Some (before, entry, behind) =>
          _ ← set_sink (Window window behind breaker);
          _ ← update_stats (count 0 0 (Z.of_nat (length before)) 0 0);
          let t := {| receive_ts := DisplayWindow.ft_receive_ts timing;
                      decode_done_ts := DisplayWindow.ft_decode_done_ts timing;
                      display_ts := DisplayWindow.ft_display_ts timing |} in
          _ ← update_stats (record_displayed (pf_header entry) (pf_payload_len entry) t
                (Some (DisplayWindow.ft_dequeue_ts timing)) (DisplayWindow.ft_presented timing) offset_us);
          _ ← send_feedback_of (pf_header entry) (pf_payload_len entry) t offset_us target_latency;
          observe_circuit_breaker window behind breaker
      end
  end.

(** [next_window_timing]: never ready in log mode. *)
Definition next_window_timing {E} : async viewer E (option DisplayWindow.FrameTiming) := fun v =>
  match sink v with
  | Log => (Pending, v)
  | Window window pending breaker =>
      let '(r, window) := DisplayWindow.next_timing window in
      (match r with Some t => Ready (Ok t) | None => Pending end,
       {| sink := Window window pending breaker; display := display v; stats := stats v;
          feedback_send := feedback_send v; ticks := ticks v |})
  end.

(** The timing arm of the session's loop; [false] once the window is gone. *)
Definition timing_arm (offset_us target_latency : Z) : viewing bool :=
  timing ← next_window_timing;
  match timing with
  | None => aret false
  | Some timing => _ ← on_window_timing timing offset_us target_latency; aret true
  end.

Definition tick_circuit_breaker : viewing unit :=
  v ← aget;
  match sink v with
  | Log => aret tt
  | Window window pending breaker => observe_circuit_breaker window pending breaker
  end.

(** The window's thread takes a turn. *)
Definition window_turn (e : DisplayWindow.worker_event) (v : viewer) : viewer :=
  match sink v with
  | Log => v
  | Window window pending breaker =>
      {| sink := Window (DisplayWindow.worker_turn e window) pending breaker; display := display v;
         stats := stats v; feedback_send := feedback_send v; ticks := ticks v |}
  end.
End client_video.

(** * Lemmas *)

(** ** Statistics *)

Lemma sorted_perm samples : sorted samples ≡ₚ samples.
Proof. apply merge_sort_Permutation. Qed.

Lemma sorted_sorted samples : StronglySorted Z.le (sorted samples).
Proof.
  apply Sorted_StronglySorted; [intros x y z; lia|]. apply Sorted_merge_sort. intros x y. lia.
Qed.

Lemma StronglySorted_at l i j x y :
  StronglySorted Z.le l -> l !! i = Some x -> l !! j = Some y -> (i <= j)%nat -> x <= y.
Proof.
  intros Hs. revert i j. induction Hs as [|z l Hs IH Hz]; intros i j Hi Hj Hij; [done|].
  destruct i as [|i], j as [|j]; cbn in *; simplify_eq; [lia| |lia|].
  - rewrite Forall_forall in Hz. apply Hz. by eapply list_elem_of_lookup_2.
  - eapply IH; [done..|lia].
Qed.

Lemma sorted_at samples i j x y :
  sorted samples !! i = Some x -> sorted samples !! j = Some y -> (i <= j)%nat -> x <= y.
Proof. apply StronglySorted_at, sorted_sorted. Qed.

Lemma sum_permutation xs ys : xs ≡ₚ ys -> foldr Z.add 0 xs = foldr Z.add 0 ys.
Proof. induction 1; cbn; lia. Qed.

Lemma sum_bounds xs top :
  Forall (fun x => 0 <= x <= top) xs -> 0 <= foldr Z.add 0 xs <= Z.of_nat (length xs) * top.
Proof. induction 1; cbn [foldr length]; lia. Qed.

Lemma wrapping_sum xs acc :
  Forall (fun x => 0 <= x) xs -> 0 <= acc -> acc + foldr Z.add 0 xs < 2 ^ 64 ->
  fold_left (fun a x => wrap 64 (a + x)) xs acc = acc + foldr Z.add 0 xs.
Proof.
  intros Hx. revert acc. induction Hx as [|x xs Hx Hxs IH]; intros acc Ha Hb; cbn [fold_left foldr] in *; [lia|].
  assert (0 <= foldr Z.add 0 xs) as Hs by (clear -Hxs; induction Hxs; cbn; lia).
  rewrite wrap_small by (unfold in_width; lia). rewrite IH by lia. lia.
Qed.

(** The index of a percentile is one of the list's. *)
Lemma percentile_index n p :
  0 < n -> n * 100 < 2 ^ 64 -> 0 <= p <= 100 ->
  wrap 64 ((n - 1) * p) / 100 = (n - 1) * p / 100 /\ 0 <= (n - 1) * p / 100 <= n - 1.
Proof.
  intros Hn Hb Hp. rewrite wrap_small by (unfold in_width; nia). split; [done|].
  split; [apply Z.div_pos; nia|]. apply Z.div_le_upper_bound; nia.
Qed.

(** ** The queue *)

Definition pending_key (p : PendingFeedback) : Z * Z := (vfh_generation (pf_header p), frame_id (pf_header p)).

Lemma split_pending_spec g i pending before entry behind :
  split_pending g i pending = Some (before, entry, behind) ->
  pending = before ++ entry :: behind /\ pending_key entry = (g, i).
Proof.
  revert before. induction pending as [|p ps IH]; intros before; cbn [split_pending]; [done|].
  destruct (_ && _) eqn:Ek.
  - intros [= <- <- <-]. unfold pending_key. split; [done|]. f_equal; lia.
  - destruct (split_pending g i ps) as [[[b e] h]|]; [|done]. cbn. intros [= <- <- <-].
    destruct (IH b eq_refl) as [-> He]. done.
Qed.

(** A timing of the window finds its frame, and everything else the window may
    report is behind it. *)
Lemma split_pending_some g i pending l :
  (g, i) :: l `sublist_of` map pending_key pending ->
  exists before entry behind, split_pending g i pending = Some (before, entry, behind) /\
    l `sublist_of` map pending_key behind.
Proof.
  induction pending as [|p ps IH]; cbn [map split_pending]; intros Hs.
  - by apply sublist_nil_r in Hs.
  - destruct (_ && _) eqn:Ek.
    + exists [], p, ps. split; [done|].
      apply sublist_cons_r in Hs as [Hs|(l' & [= _ _ <-] & Hs)]; [|done].
      etransitivity; [|exact Hs]. by apply sublist_cons.
    + apply sublist_cons_r in Hs as [Hs|(l' & [= Hg Hi <-] & Hs)].
      * destruct (IH Hs) as (b & e & h & -> & Hh). by exists (p :: b), e, h.
      * subst. unfold pending_key in Ek. lia.
Qed.

(** ** The feedback stream *)

Section facts.
Context `{Async.Transport}.
Context `{!Cbor TransportFeedback, !Cbor AudioSyncFeedback, !Cbor KeyframeRequest}.
Context {ConnectError FrameError JoinError : Type}.
Variable clock : nat -> Z.

#[local] Notation app_error := (@AppError.AppError _ ConnectError FrameError JoinError).
#[local] Notation viewing := (async viewer app_error).

(** What a message tells of a frame. *)
Definition report_of (m : FeedbackMessage) : option Z :=
  match m with Transport t => Some (last_decoded_frame_id t) | _ => None end.
Definition is_request (m : FeedbackMessage) : bool := match m with Keyframe _ => true | _ => false end.

(** The messages on the feedback stream are those the counters speak of: reports
    of the frames [shown], one for each that counts as displayed, and a request for
    each time the breaker tripped. *)
Definition reported (before shown : list Z) (f : FrameStats) (s : SendStream) : Prop :=
  exists ms, sent s = before ++ concat (map feedback_bytes ms) /\ omap report_of ms = shown /\
    eqw 64 (displayed f) (Z.of_nat (length shown)) /\
    eqw 64 (keyframe_requests_sent f) (Z.of_nat (length (List.filter is_request ms))).

(** One more message, with its counter. *)
Lemma reported_snoc before shown f f' s s' m :
  reported before shown f s -> sent s' = sent s ++ feedback_bytes m ->
  eqw 64 (displayed f') (displayed f + Z.of_nat (length (option_list (report_of m)))) ->
  eqw 64 (keyframe_requests_sent f') (keyframe_requests_sent f + if is_request m then 1 else 0) ->
  reported before (shown ++ option_list (report_of m)) f' s'.
Proof.
  intros (ms & Hs & Ho & Hd & Hk) Hs' Hd' Hk'. exists (ms ++ [m]). split_and!.
  - rewrite Hs', Hs, map_app, concat_app. cbn. by rewrite app_nil_r, <- app_assoc.
  - rewrite omap_app, Ho. done.
  - rewrite Hd', Hd, length_app. apply eq_eqw. lia.
  - rewrite Hk', Hk, List.filter_app, length_app. apply eq_eqw. cbn. destruct (is_request m); cbn; lia.
Qed.

Lemma reported_stats before shown f f' s :
  reported before shown f s -> displayed f' = displayed f ->
  eqw 64 (keyframe_requests_sent f') (keyframe_requests_sent f) -> reported before shown f' s.
Proof. intros (ms & Hs & Ho & Hd & Hk) Ed Ek. exists ms. split_and!; [done|done|by rewrite Ed|by rewrite Ek]. Qed.

Definition with_feedback_send (s : SendStream) (v : viewer) : viewer :=
  {| sink := sink v; display := display v; stats := stats v; feedback_send := s; ticks := ticks v |}.

(** A message more on the stream, and nothing else changed. *)
Lemma triple_feedback m (P Q : viewer -> Prop) :
  (forall v s, P v -> sent s = sent (feedback_send v) ++ feedback_bytes m -> Q (with_feedback_send s v)) ->
  triple P (on_feedback_send (send_feedback m) : viewing unit) (fun _ => Q) any_error.
Proof.
  intros HQ. apply triple_map_err. apply triple_zoom. intros v Hv.
  assert (triple (fun s => s = feedback_send v) (send_feedback m)
    (fun _ s => sent s = sent (feedback_send v) ++ feedback_bytes m) any_error) as Hm.
  { destruct m; cbn [send_feedback];
      (eapply triple_any, triple_pre;
       [apply triple_write_envelope with (b := sent (feedback_send v))|by intros s ->]). }
  eapply triple_any, triple_post; [exact Hm|]. intros u s Hs. by apply HQ.
Qed.

(** ** The queue and the window *)

(** Every frame received is shown, discarded, without output or waiting. *)
Definition accounted (f : FrameStats) (waiting : nat) : Prop :=
  eqw 64 (received f) (stale_generation f + displayed f + no_output f + Z.of_nat waiting).

(** The frames that wait for the window to report them. *)
Definition waiting (k : VideoSink) : list Z :=
  match k with Log => [] | Window _ pending _ => map (fun p => frame_id (pf_header p)) pending end.

(** Nothing the window may still report is missing from the queue. *)
Definition sink_ok (k : VideoSink) (f : FrameStats) : Prop :=
  match k with
  | Log => accounted f 0
  | Window w pending _ =>
      DisplayWindow.in_flight w `sublist_of` map pending_key pending /\
      (DisplayWindow.closed w = false -> accounted f (length pending))
  end.

Definition all_counted (got : list Z) (f : FrameStats) : Prop :=
  eqw 64 (received f) (Z.of_nat (length got)).

Lemma all_counted_snoc got i n f : all_counted got f -> all_counted (got ++ [i]) (count 1 n 0 0 0 f).
Proof.
  unfold all_counted. intros Hg. cbn. rewrite wrap_eqw, Hg, length_app. apply eq_eqw. cbn. lia.
Qed.

Lemma all_counted_request got f : all_counted got f -> all_counted got (count 0 0 0 0 1 f).
Proof. unfold all_counted. intros Hg. cbn. by rewrite wrap_eqw, Z.add_0_r. Qed.

(** Of the frames [got] so far, those reported and those waiting are as many as the
    counters say, in the order in which they came. *)
Definition parts_ok (before got : list Z) (k : VideoSink) (f : FrameStats) (s : SendStream) : Prop :=
  exists shown, reported before shown f s /\ shown ++ waiting k `sublist_of` got /\ all_counted got f /\
    sink_ok k f.

Definition view_ok (before got : list Z) (v : viewer) : Prop :=
  parts_ok before got (sink v) (stats v) (feedback_send v).

(** What matters of the state: the sink, the counters and the stream. *)
Definition at_ (k : VideoSink) (f : FrameStats) (s : SendStream) (v : viewer) : Prop :=
  sink v = k /\ stats v = f /\ feedback_send v = s.

Lemma triple_from_parts before got got' (m : viewing unit) :
  (forall k f s, parts_ok before got k f s -> triple (at_ k f s) m (fun _ => view_ok before got') any_error) ->
  triple (view_ok before got) m (fun _ => view_ok before got') any_error.
Proof. intros Hm v Hv. by apply (Hm (sink v) (stats v) (feedback_send v)). Qed.

Lemma view_ok_parts before got k f s v : at_ k f s v -> parts_ok before got k f s -> view_ok before got v.
Proof. by intros (<- & <- & <-) Hp. Qed.

Lemma triple_now k f s : triple (at_ k f s) (now_us clock : viewing Z) (fun _ => at_ k f s) any_error.
Proof. by intros v Hv. Qed.

Lemma triple_set_sink k k' f s : triple (at_ k f s) (set_sink k' : viewing unit) (fun _ => at_ k' f s) any_error.
Proof. by intros v (? & ? & ?). Qed.

Lemma triple_update_stats k f g s :
  triple (at_ k f s) (update_stats g : viewing unit) (fun _ => at_ k (g f) s) any_error.
Proof. intros v (? & <- & ?). by split. Qed.

Lemma triple_submit_frame h d k f s :
  triple (at_ k f s) (submit_frame h d : viewing unit) (fun _ => at_ k f s) any_error.
Proof. by intros v Hv. Qed.

Lemma triple_get_at k f s (m : viewer -> viewing unit) Q R :
  (forall v, sink v = k -> triple (at_ k f s) (m v) Q R) -> triple (at_ k f s) (aget ≫= m) Q R.
Proof. intros Hm v Hv. apply (Hm v); [by destruct Hv|exact Hv]. Qed.

(** A frame's report, when its display has been counted. *)
Lemma triple_send_feedback before shown k f f' s h len t o l :
  reported before shown f s -> eqw 64 (displayed f') (displayed f + 1) ->
  eqw 64 (keyframe_requests_sent f') (keyframe_requests_sent f) ->
  triple (at_ k f' s) (send_feedback_of h len t o l : viewing unit)
    (fun _ v => sink v = k /\ stats v = f' /\ reported before (shown ++ [frame_id h]) f' (feedback_send v)) any_error.
Proof.
  intros Hr Hd Hk. apply (triple_feedback (Transport (build_transport_feedback h len t o l))).
  intros v s' (Hv & Hf & Hs) Hsent. cbn. split_and!; [done..|]. rewrite Hs in Hsent.
  apply (reported_snoc _ _ _ _ _ _ _ Hr Hsent); [by rewrite Hd|by rewrite Hk, Z.add_0_r].
Qed.

Lemma sink_ok_request k f : sink_ok k f -> sink_ok k (count 0 0 0 0 1 f).
Proof.
  unfold sink_ok, accounted. cbn. destruct k as [|w p b].
  - by rewrite !wrap_eqw, !Z.add_0_r.
  - intros [Hq Ha]. split; [done|]. intros Hc. by rewrite !wrap_eqw, !Z.add_0_r, (Ha Hc).
Qed.

Lemma triple_observe before got w pending b0 f s breaker k :
  parts_ok before got (Window w pending b0) f s ->
  triple (at_ k f s) (observe_circuit_breaker clock w pending breaker : viewing unit)
    (fun _ => view_ok before got) any_error.
Proof.
  intros (shown & Hr & Hw & Hn & Hs). unfold observe_circuit_breaker.
  eapply triple_bind with (Q := fun _ => at_ k f s).
  { destruct pending as [|p ps]; [apply triple_ret; auto|]. by intros v Hv. }
  intros age. destruct (QueueCircuitBreaker.observe age breaker) as [[request|] breaker'].
  - eapply triple_bind; [apply triple_set_sink|intros u].
    eapply triple_bind; [apply triple_update_stats|intros u'].
    apply (triple_feedback (Keyframe request)). intros v s' (Hk & Hf & Hfs) Hsent.
    unfold view_ok. cbn. rewrite Hk, Hf. exists shown. split_and!; [|done|by apply all_counted_request|by apply sink_ok_request].
    rewrite Hfs in Hsent. rewrite <- (app_nil_r shown).
    eapply (reported_snoc _ _ _ _ _ _ (Keyframe request) Hr Hsent); cbn; [by rewrite Z.add_0_r|by rewrite wrap_eqw].
  - eapply triple_bind; [apply triple_set_sink|intros u]. apply triple_ret. intros v Hv.
    eapply view_ok_parts; [exact Hv|]. by exists shown.
Qed.

(** ** The steps *)

Lemma count_add n f : count 0 n 0 0 0 (count 1 0 0 0 0 f) = count 1 n 0 0 0 f.
Proof. unfold count, wrap. cbn. f_equal; rewrite Zplus_mod_idemp_l; f_equal; lia. Qed.

(** A frame that only counts. *)
Lemma parts_ok_dropped before got i k f s n :
  parts_ok before got k f s -> (n = 1 \/ exists w p b, k = Window w p b /\ DisplayWindow.closed w = true) ->
  parts_ok before (got ++ [i]) k (count 1 n 0 0 0 f) s.
Proof.
  intros (shown & Hr & Hw & Hg & Hk) Hn. exists shown. split_and!.
  - eapply reported_stats; [exact Hr|done|]. cbn. by rewrite !wrap_eqw, !Z.add_0_r.
  - by apply sublist_inserts_r.
  - by apply all_counted_snoc.
  - unfold sink_ok, accounted in *. cbn. destruct k as [|w p b].
    + destruct Hn as [->|(w & p & b & [=] & _)]. rewrite !wrap_eqw, !Z.add_0_r, Hk. apply eq_eqw. lia.
    + destruct Hk as [Hq Ha]. split; [exact Hq|]. intros Hc.
      destruct Hn as [->|(w' & p' & b' & [= <- <- <-] & Hn)]; [|congruence].
      rewrite !wrap_eqw, !Z.add_0_r, (Ha Hc). apply eq_eqw. lia.
Qed.

(** A frame handed to the window. *)
Lemma parts_ok_submitted before got header payload received_at w w' p b f s :
  parts_ok before got (Window w p b) f s ->
  DisplayWindow.submit (submitted_frame header payload received_at) w = (Ok tt, w') ->
  parts_ok before (got ++ [frame_id header])
    (Window w' (p ++ [{| pf_header := header; pf_payload_len := Z.of_nat (length payload);
                         pf_receive_ts := received_at |}]) b)
    (count 1 0 0 0 0 f) s.
Proof.
  intros (shown & Hr & Hw & Hg & Hq & Ha) Es. exists shown. split_and!.
  - eapply reported_stats; [exact Hr|done|]. cbn. by rewrite !wrap_eqw, !Z.add_0_r.
  - cbn. rewrite map_app, app_assoc. by apply sublist_app.
  - by apply all_counted_snoc.
  - pose proof (DisplayWindow.in_flight_submit (submitted_frame header payload received_at) w) as Hf.
    rewrite Es in Hf. cbn [fst snd] in Hf. unfold sink_ok. rewrite Hf, map_app.
    split; [by apply sublist_app|]. intros Hc. rewrite (DisplayWindow.closed_submit _ _ _ _ Es) in Hc. specialize (Ha Hc).
    unfold accounted in *. rewrite length_app. cbn. rewrite !wrap_eqw, !Z.add_0_r, Ha. apply eq_eqw. lia.
Qed.

(** A timing the window had to report finds its frame. *)
Lemma triple_on_window_timing before got t w w' p b f s o l :
  parts_ok before got (Window w p b) f s ->
  DisplayWindow.next_timing w = (Some (Some t), w') ->
  triple (at_ (Window w' p b) f s) (on_window_timing clock t o l : viewing unit)
    (fun _ => view_ok before got) any_error.
Proof.
  intros (shown & Hr & Hw & Hg & Hq & Ha) Ht. apply triple_get_at. intros v Hv. rewrite Hv.
  pose proof (DisplayWindow.in_flight_next_timing w) as Hf. rewrite Ht in Hf. rewrite Hf in Hq.
  destruct (split_pending_some (DisplayWindow.ft_generation t) (DisplayWindow.ft_frame_id t) p
    (DisplayWindow.in_flight w') Hq) as (bef & entry & behind & Hsplit & Hq').
  rewrite Hsplit. apply split_pending_spec in Hsplit as [-> _].
  eapply triple_bind; [apply triple_set_sink|intros u1].
  eapply triple_bind; [apply triple_update_stats|intros u2].
  eapply triple_bind; [apply triple_update_stats|intros u3].
  eapply triple_bind; [apply (triple_send_feedback before shown _ f); [exact Hr|cbn; by rewrite wrap_eqw|]|intros u4].
  { cbn. by rewrite wrap_eqw, Z.add_0_r. }
  intros v' (Hk & Hf' & Hs). refine (triple_observe before got _ _ b _ _ b _ _ v' _); [|by split_and!].
  eexists. split_and!; [exact Hs|..].
  - etransitivity; [|exact Hw]. cbn. rewrite map_app, <- app_assoc. apply sublist_app; [done|].
    apply sublist_inserts_l. done.
  - unfold all_counted in *. cbn. by rewrite wrap_eqw, Z.add_0_r.
  - split; [exact Hq'|]. intros Hc. rewrite (DisplayWindow.closed_next_timing _ _ _ Ht) in Hc. specialize (Ha Hc).
    unfold accounted in *. rewrite length_app in Ha. cbn in *. rewrite !wrap_eqw, !Z.add_0_r, Ha. apply eq_eqw. lia.
Qed.

(** The timing arm. *)
Lemma triple_timing before got o l :
  triple (view_ok before got) (timing_arm clock o l : viewing bool) (fun _ => view_ok before got) any_error.
Proof.
  intros v Hv. unfold timing_arm, mbind, async_bind, abind, next_window_timing.
  destruct (sink v) as [|w p b] eqn:Ek; [done|].
  pose proof (DisplayWindow.in_flight_next_timing w) as Hf.
  destruct (DisplayWindow.next_timing w) as [[[t|]|] w'] eqn:Ht; [| |done].
  - unfold view_ok in Hv. rewrite Ek in Hv.
    pose proof (triple_on_window_timing before got t w w' p b _ _ o l Hv Ht
      {| sink := Window w' p b; display := display v; stats := stats v; feedback_send := feedback_send v;
         ticks := ticks v |}) as Hm.
    destruct (on_window_timing _ _ _ _ _) as [[[x|e]| | |] v']; try done. by apply Hm.
  - subst w'. unfold view_ok in *. cbn. by rewrite Ek in Hv.
Qed.

Lemma triple_tick before got :
  triple (view_ok before got) (tick_circuit_breaker clock : viewing unit) (fun _ => view_ok before got) any_error.
Proof.
  apply triple_from_parts. intros k f s Hp. apply triple_get_at. intros v Hv.
  destruct (sink v) as [|w pending breaker]; subst k.
  - apply triple_ret. intros v' Hv'. by eapply view_ok_parts.
  - by eapply triple_observe.
Qed.

Lemma view_ok_window_turn before got e v :
  DisplayWindow.one_picture e -> view_ok before got v -> view_ok before got (window_turn e v).
Proof.
  intros He Hv. unfold window_turn, view_ok in *. destruct (sink v) as [|w pending breaker] eqn:Es; cbn.
  - by rewrite Es.
  - destruct Hv as (shown & Hr & Hw & Hg & Hq & Ha). exists shown. split; [done|split; [done|split; [done|split]]].
    + etransitivity; [|exact Hq]. by apply DisplayWindow.in_flight_turn.
    + intros Hc. apply Ha. destruct (DisplayWindow.closed w) eqn:Ew; [|done]. exfalso.
      by rewrite (DisplayWindow.closed_stays e w Ew) in Hc.
Qed.

Variable decode_task : list Z -> Z -> Z -> option (result JoinError (result FrameError TimecodeFrame.SyntheticFrame)).

Lemma triple_await_decode payload w h P :
  triple P (await_decode decode_task payload w h : viewing _) (fun _ => P) any_error.
Proof. intros v Hv. unfold await_decode. by destruct (decode_task payload w h) as [[[x|e]|e]|]. Qed.

Lemma triple_process_frame before got o l header payload :
  triple (view_ok before got) (process_frame clock decode_task o l header payload : viewing unit)
    (fun _ => view_ok before (got ++ [frame_id header])) any_error.
Proof.
  apply triple_from_parts. intros k f s Hp. unfold process_frame.
  eapply triple_bind; [apply triple_now|intros received_at].
  eapply triple_bind; [apply triple_update_stats|intros u].
  apply triple_get_at. intros v Hv. destruct (negb _).
  { eapply triple_post; [apply triple_update_stats|]. intros u' v' Hv'. eapply view_ok_parts; [exact Hv'|].
    rewrite count_add. apply parts_ok_dropped; auto. }
  destruct (sink v) as [|w pending breaker]; subst k.
  - eapply triple_bind; [apply triple_await_decode|intros decoded].
    eapply triple_bind; [apply triple_now|intros decoded_at].
    apply triple_outcome_bind. intros timecode _.
    eapply triple_bind; [apply triple_submit_frame|intros u1].
    eapply triple_bind; [apply triple_now|intros displayed_at].
    eapply triple_bind; [apply triple_update_stats|intros u2].
    destruct Hp as (shown & Hr & Hw & Hg & Ha).
    eapply triple_post; [apply (triple_send_feedback before shown _ f); [exact Hr|cbn..]|].
    + by rewrite wrap_eqw.
    + by rewrite wrap_eqw, Z.add_0_r.
    + intros u3 v' (Hk & Hf & Hs). unfold view_ok. rewrite Hk, Hf. eexists. split_and!; [exact Hs|..].
      * cbn in *. rewrite app_nil_r in *. by apply sublist_app.
      * by apply (all_counted_snoc _ _ 0).
      * unfold sink_ok, accounted in *. cbn. rewrite !wrap_eqw, !Z.add_0_r, Ha. apply eq_eqw. lia.
  - destruct (DisplayWindow.is_closed w) eqn:Ec.
    { apply triple_ret. intros v' Hv'. eapply view_ok_parts; [exact Hv'|].
      apply parts_ok_dropped; [done|]. right. by exists w, pending, breaker. }
    destruct (DisplayWindow.submit _ w) as [submitted w'] eqn:Es.
    eapply triple_bind; [apply triple_set_sink|intros u1].
    destruct submitted as [[]|e]; cbn [map_err].
    2: { intros v' Hv'. by unfold alift. }
    eapply triple_bind with (Q := fun _ => at_ (Window w' pending breaker) (count 1 0 0 0 0 f) s);
      [by intros v' Hv'|intros u2].
    eapply triple_bind; [apply triple_submit_frame|intros u3].
    apply (triple_observe _ _ _ _ breaker). by apply (parts_ok_submitted _ _ _ _ _ w).
Qed.

(** A frame from the stream, an arm of the session's loop, or a turn of the
    window's thread. *)
Inductive view_step :=
| FrameArrives (header : VideoFrameHeader) (payload : list Z)
| TimingArm
| BreakerTick
| ThreadTurn (e : DisplayWindow.worker_event).

Definition arrived (x : view_step) : option Z :=
  match x with FrameArrives h _ => Some (frame_id h) | _ => None end.
Definition turn_of (x : view_step) : DisplayWindow.worker_event :=
  match x with ThreadTurn e => e | _ => DisplayWindow.Quit end.

Definition view (o l : Z) (x : view_step) : viewing unit :=
  match x with
  | FrameArrives header payload => process_frame clock decode_task o l header payload
  | TimingArm => _ ← timing_arm clock o l; aret tt
  | BreakerTick => tick_circuit_breaker clock
  | ThreadTurn e => v ← aget; aput (window_turn e v)
  end.

Lemma triple_view before got o l x :
  DisplayWindow.one_picture (turn_of x) ->
  triple (view_ok before got) (view o l x) (fun _ => view_ok before (got ++ option_list (arrived x))) any_error.
Proof.
  intros Hx. destruct x as [h p| | |e]; cbn [view arrived option_list]; rewrite ?app_nil_r.
  - apply triple_process_frame.
  - eapply triple_bind; [apply triple_timing|]. intros b. apply triple_ret. auto.
  - apply triple_tick.
  - eapply triple_bind with (Q := fun v' v => v = v' /\ view_ok before got v); [by intros v Hv|].
    intros v. apply triple_put. intros v' [-> Hv]. by apply view_ok_window_turn.
Qed.

Lemma triple_views before got o l xs :
  Forall (fun x => DisplayWindow.one_picture (turn_of x)) xs ->
  triple (view_ok before got) (afor (view o l) xs) (fun _ => view_ok before (got ++ omap arrived xs)) any_error.
Proof.
  intros Hx. revert got. induction Hx as [|x xs Hx _ IH]; intros got; cbn [afor].
  - apply triple_ret. intros v Hv. cbn. by rewrite app_nil_r.
  - eapply triple_bind; [by apply triple_view|]. intros u. cbv beta. eapply triple_post; [apply IH|].
    intros u' v. rewrite <- app_assoc. cbn. by destruct (arrived x).
Qed.

Lemma view_ok_fresh v :
  sink v = Log \/ (exists b, sink v = Window DisplayWindow.opened [] b) -> stats v = no_stats ->
  view_ok (sent (feedback_send v)) [] v.
Proof.
  intros Hs Hf. exists []. rewrite Hf. split_and!.
  - exists []. cbn. by rewrite app_nil_r.
  - by destruct Hs as [->|[b ->]].
  - done.
  - by destruct Hs as [->|[b ->]].
Qed.
End facts.

(** C18: Every received frame is accounted for, and reported at most once.  Take
    a client whose counters start at zero, in log mode or with a window just opened
    around a decoder that gives at most one picture per access unit.  However the
    frames, the window's timings, the breaker's ticks and the turns of the window's
    thread interleave, as long as nothing fails: the feedback stream holds one
    report for each frame that counts as displayed and one request for each that
    counts as sent; the frames reported, and behind them the frames still waiting
    for the window, are frames received, in the order of their receipt; and, until
    the window is closed, [received] is the number of frames that came and the sum
    of those stale, displayed, without output and waiting (modulo [2^64]). *)
Theorem frames_are_accounted `{Async.Transport} `{!Cbor TransportFeedback, !Cbor AudioSyncFeedback, !Cbor KeyframeRequest}
    {ConnectError FrameError JoinError : Type} (clock : nat -> Z)
    (decode_task : list Z -> Z -> Z -> option (result JoinError (result FrameError TimecodeFrame.SyntheticFrame)))
    (offset_us latency : Z) (steps : list view_step) (v v' : viewer) :
  sink v = Log \/ (exists b, sink v = Window DisplayWindow.opened [] b) -> stats v = no_stats ->
  Forall (fun x => DisplayWindow.one_picture (turn_of x)) steps ->
  afor (view (ConnectError := ConnectError) clock decode_task offset_us latency) steps v = (Ready (Ok tt), v') ->
  (exists shown ms,
    sent (feedback_send v') = sent (feedback_send v) ++ concat (map feedback_bytes ms) /\
    omap report_of ms = shown /\ shown ++ waiting (sink v') `sublist_of` omap arrived steps /\
    eqw 64 (displayed (stats v')) (Z.of_nat (length shown)) /\
    eqw 64 (keyframe_requests_sent (stats v')) (Z.of_nat (length (List.filter is_request ms)))) /\
  eqw 64 (received (stats v')) (Z.of_nat (length (omap arrived steps))) /\
  match sink v' with
  | Window w _ _ => DisplayWindow.closed w = false -> accounted (stats v') (length (waiting (sink v')))
  | Log => accounted (stats v') 0
  end.
Proof.
  intros Hs Hf Hx Hrun.
  pose proof (triple_ok _ _ _ _ _ _ _
    (triple_views (ConnectError := ConnectError) clock decode_task (sent (feedback_send v)) [] offset_us latency steps Hx)
    (view_ok_fresh v Hs Hf) Hrun) as (shown & (ms & Hsent & Ho & Hd & Hk) & Hsub & Hg & Hsink).
  split; [exists shown, ms; by split_and!|]. split; [exact Hg|].
  destruct (sink v') as [|w p b]; [exact Hsink|]. cbn. rewrite length_map. by destruct Hsink.
Qed.

(** The latency summary is that of the samples.  For at least one sample, with a
    sum that fits [u64], [summarize] does not panic; the median, the 95th
    percentile and the maximum are samples, in this order; no sample is above the
    maximum; and the average is that of the samples, rounded down, so between 0 and the
    maximum. *)
Theorem summarize_bounds samples :
  samples <> [] -> Forall (in_width 64) samples -> Z.of_nat (length samples) * 100 < 2 ^ 64 ->
  foldr Z.add 0 samples < 2 ^ 64 ->
  exists avg p50 p95 top,
    summarize samples = Done (avg, p50, p95, top) /\
    p50 ∈ samples /\ p95 ∈ samples /\ top ∈ samples /\
    p50 <= p95 <= top /\ Forall (fun x => x <= top) samples /\
    avg = foldr Z.add 0 samples / Z.of_nat (length samples) /\ 0 <= avg <= top.
Proof.
  intros Hne Hw Hlen Hsum. pose proof (sorted_perm samples) as Hperm.
  pose proof (Permutation_length Hperm) as Hl. set (n := Z.of_nat (length (sorted samples))).
  assert (0 < n) as Hn by (unfold n; rewrite Hl; destruct samples; [done|cbn; lia]).
  assert (n * 100 < 2 ^ 64) as Hn100 by (unfold n; by rewrite Hl).
  assert (forall i, 0 <= i <= n - 1 -> exists x, sorted samples !! Z.to_nat i = Some x) as Hat.
  { intros i Hi. apply lookup_lt_is_Some_2. lia. }
  destruct (percentile_index n 50) as [E50 B50]; [lia..|].
  destruct (percentile_index n 95) as [E95 B95]; [lia..|].
  destruct (Hat _ B50) as [p50 H50], (Hat _ B95) as [p95 H95], (Hat (n - 1)) as [top Htop]; [lia|].
  assert (forall i x, sorted samples !! i = Some x -> x ∈ samples) as Hin.
  { intros i x Hx. rewrite <- Hperm. by eapply list_elem_of_lookup_2. }
  assert (Forall (fun x => x <= top) samples) as Hmax.
  { rewrite <- Hperm. apply Forall_lookup_2. intros i x Hx. pose proof (lookup_lt_Some _ _ _ Hx).
    eapply sorted_at; [exact Hx|exact Htop|lia]. }
  assert (Forall (fun x => 0 <= x <= top) samples) as Hbounds.
  { rewrite Forall_forall in Hw, Hmax |- *. intros x Hx. specialize (Hw x Hx). specialize (Hmax x Hx).
    unfold in_width in Hw. lia. }
  pose proof (sum_bounds _ _ Hbounds) as Hs.
  exists (foldr Z.add 0 samples / n), p50, p95, top. split_and!; [|by eapply Hin..| | |done|by unfold n; rewrite Hl| |].
  - unfold summarize. destruct samples as [|x0 xs0] eqn:Es; [done|]. rewrite <- Es in *. cbv zeta beta.
    replace (Z.of_nat (length (sorted samples))) with n by (unfold n; by rewrite Es).
    rewrite E50, H50. cbn [mbind outcome_bind]. rewrite E95, H95. cbn. rewrite Htop. cbn.
    rewrite wrapping_sum; [| |lia|].
    + cbn. by rewrite (sum_permutation _ _ Hperm).
    + rewrite Hperm. eapply Forall_impl; [exact Hbounds|]. cbn. lia.
    + by rewrite (sum_permutation _ _ Hperm).
  - eapply sorted_at; [exact H50|exact H95|]. apply Z2Nat.inj_le; [lia..|]. apply Z.div_le_mono; lia.
  - eapply sorted_at; [exact H95|exact Htop|lia].
  - apply Z.div_pos; lia.
  - apply Z.div_le_upper_bound; [lia|]. rewrite <- Hl in Hs. fold n in Hs. lia.
Qed.

Lemma summarize_bounds_witness :
  [7; 3; 9; 3] <> [] /\ summarize [7; 3; 9; 3] = Done (5, 3, 7, 9) /\
  exists avg p50 p95 top, summarize [7; 3; 9; 3] = Done (avg, p50, p95, top) /\ 0 <= avg <= top.
Proof.
  split; [done|]. split; [by vm_compute|].
  destruct (summarize_bounds [7; 3; 9; 3]) as (a & p50 & p95 & top & E & _ & _ & _ & _ & _ & _ & Hb);
    [done|by repeat constructor|done|done|]. exists a, p50, p95, top. by split.
Defined.

(** ** Concrete runs *)

Module Examples.
#[local] Existing Instance Async.plain_transport.
#[local] Instance short_cbor {T} : Cbor T := {| into_writer := fun _ => [7]; from_reader := fun _ => Err tt |}.

Definition a_header (generation id : Z) : VideoFrameHeader :=
  {| vfh_generation := generation; frame_id := id; vfh_config_id := 0; flags := 0; capture_ts := 100;
     encode_done_ts := 200; vfh_width := 64; vfh_height := 64; payload_len := 3 |}.

(** What the decoder and the swap chain answer for a picture, or for none. *)
Definition a_script (events : list DisplayWindow.output_event) : DisplayWindow.decode_script :=
  {| DisplayWindow.created := Ok tt; DisplayWindow.sample_built := Ok tt; DisplayWindow.input_taken := Ok tt;
     DisplayWindow.outputs := events; DisplayWindow.last_output := Ok tt |}.
Definition a_picture : DisplayWindow.output_event := DisplayWindow.Sample (Ok tt) true (Ok tt) 1500 1600.

Definition a_breaker : QueueCircuitBreaker.ClientQueueCircuitBreaker :=
  {| QueueCircuitBreaker.trip_threshold_us := QueueCircuitBreaker.defaults.TRIP_THRESHOLD_US;
     QueueCircuitBreaker.rearm_threshold_us := QueueCircuitBreaker.defaults.REARM_THRESHOLD_US;
     QueueCircuitBreaker.tripped := false |}.

Definition a_viewer (w : DisplayWindow.H264DisplayWindow) : viewer :=
  {| sink := Window w [] a_breaker; display := ClientDisplay.new; stats := no_stats;
     feedback_send := {| sent := []; write_results := [] |}; ticks := 0 |}.

#[local] Notation watch steps w :=
  (afor (view (ConnectError := unit) (FrameError := unit) (JoinError := unit) (fun n => 1000 + Z.of_nat n)
    (fun _ _ _ => None) 0 50000) steps (a_viewer w)).

(** Three frames, of which the window decodes the first and the last; the second
    gives no picture. *)
Definition three_frames : list view_step :=
  [FrameArrives (a_header 0 1) [7; 7; 7]; FrameArrives (a_header 0 2) [7; 7; 7];
   FrameArrives (a_header 0 3) [7; 7; 7];
   ThreadTurn (DisplayWindow.Take 1100 (a_script [a_picture])); ThreadTurn DisplayWindow.Quit;
   ThreadTurn (DisplayWindow.Take 1200 (a_script []));
   ThreadTurn (DisplayWindow.Take 1300 (a_script [a_picture])); ThreadTurn DisplayWindow.Quit;
   TimingArm; TimingArm; BreakerTick].

Lemma frames_are_accounted_witness :
  let v' := (watch three_frames DisplayWindow.opened).2 in
  (watch three_frames DisplayWindow.opened = (Ready (Ok tt), v')) /\
  (displayed (stats v') = 2 /\ no_output (stats v') = 1) /\
  eqw 64 (received (stats v')) (Z.of_nat (length (omap arrived three_frames))).
Proof.
  intros v'.
  assert (watch three_frames DisplayWindow.opened = (Ready (Ok tt), v')) as E by (vm_compute; reflexivity).
  assert (displayed (stats v') = 2 /\ no_output (stats v') = 1) as Hc by (vm_compute; split; reflexivity).
  split; [exact E|]. split; [exact Hc|].
  assert (Forall (fun x => DisplayWindow.one_picture (turn_of x)) three_frames) as Hx by (repeat constructor).
  clear Hc. clearbody v'.
  pose proof (frames_are_accounted _ _ _ _ three_frames (a_viewer DisplayWindow.opened) v' (or_intror (ex_intro _ a_breaker eq_refl)) eq_refl Hx E)
    as (_ & Hn & _).
  exact Hn.
Defined.

(** The window's thread has returned from its loop but not yet set [closed]: the
    frame that comes now ends the session with an error, though [process_frame]
    means to leave the closing of the window to the timing arm. *)
Example frame_in_the_gap_ends_session :
  let gap := DisplayWindow.worker_turn DisplayWindow.Quit DisplayWindow.opened in
  DisplayWindow.is_closed gap = false /\
  (watch [FrameArrives (a_header 0 1) [7; 7; 7]] gap).1
    = Ready (Err (AppError.Display "display window closed")) /\
  (watch [FrameArrives (a_header 0 1) [7; 7; 7]] (DisplayWindow.worker_turn DisplayWindow.Quit gap)).1 = Ready (Ok tt).
Proof. by vm_compute. Qed.
End Examples.
