(* ===== verification/ClientSession.v ===== *)
(** The client's session: the model of [run], [close_gracefully],
    [next_window_input], [clipboard_announce_once] and [accept_next_generation] in
    [src/sardp-cli/src/bin/sardp-client.rs].

    As in [ServerSession], an event says at which instant a turn of the [select!]
    loop happens and which arm's future is polled to the end; a future that does
    not complete is dropped with the turn.  The window's thread and its user act
    between the turns. *)

From Stdlib Require Import Ascii String.
From S2P Require Import Prelude.
From S2P Require Import ReasonCode.
From S2P Require Import StreamKind.
From S2P Require Import PermissionSet.
From S2P Require Envelope.
From S2P Require Prologue.
From S2P Require Import Async.
From S2P Require Import StreamReader.
From S2P Require Import Connection.
From S2P Require Import Messages.
From S2P Require Import MessageCodecs.
From S2P Require Import Crypto.
From S2P Require Import Auth.
From S2P Require ConnectionSm.
From S2P Require Handshake.
From S2P Require Reconnection.
From S2P Require SessionFile.
From S2P Require TimeSync.
From S2P Require TimecodeFrame.
From S2P Require VideoSession.
From S2P Require FeedbackSession.
From S2P Require InputSession.
From S2P Require InputForwarder.
From S2P Require AudioSession.
From S2P Require ClipboardSession.
From S2P Require ClientDisplay.
From S2P Require DisplayWindow.
From S2P Require AppError.
From S2P Require ClientVideo.
From S2P Require Import AsyncTriples.

(** A [String] from its bytes. *)
Definition of_chars (bs : list Z) : string :=
  string_of_list_ascii (map (fun b => ascii_of_N (Z.to_N b)) bs).

Section client_session.
Context `{Transport, Sha256, Ed25519, TlsExporter}.
Context `{!Cbor ClientHello, !Cbor ServerHello, !Cbor AuthPubkey, !Cbor AuthResult,
          !Cbor SessionReauthenticate}.
Context `{!Cbor VideoStreamGeneration, !Cbor EncoderConfig, !Cbor VideoFrameHeader}.
Context `{!Cbor TimeSyncRequest, !Cbor TimeSyncResponse, !Cbor SessionClose, !Cbor KeepAlive}.
Context `{!Cbor TransportFeedback, !Cbor AudioSyncFeedback, !Cbor KeyframeRequest}.
Context `{!Cbor KeyEvent, !Cbor TextInput, !Cbor ImeComposition, !Cbor MouseMove, !Cbor MouseButton,
          !Cbor Wheel}.
Context `{!Cbor AudioConfig, !Cbor AudioFrameHeader}.
Context `{!Cbor ClipboardFormats, !Cbor ClipboardRequest, !Cbor ClipboardData, !Cbor ClipboardError}.
Context {ConnectError FrameError JoinError : Type}.

#[local] Notation app_error := (@AppError.AppError _ ConnectError FrameError JoinError).

(** The clock of the frames and of the time synchronisation, that of the input's
    headers, the decoder process, and the errors of a read that are the peer's
    reset of the stream. *)
Variable clock : nat -> Z.
Variable input_clock : Z -> Z.
Variable decode_task : list Z -> Z -> Z -> option (result JoinError (result FrameError TimecodeFrame.SyntheticFrame)).
Variable is_reset : ReadError -> bool.

(** * Definitions *)

Inductive task :=
| ClipboardAnnounceTask
| ClipboardRequestTask (exchange : ClipboardSession.Exchange) (request : ClipboardRequest).

(** [window_input] is the receiver's queue; [last_activity] an instant of
    [tokio]'s clock, in microseconds; [closed] that of the connection. *)
Record session := {
  viewer : ClientVideo.viewer;
  connection : Connection;
  control : Handshake.ControlChannel;
  frame_reader : VideoSession.VideoFrameReader;
  window_input : option (list InputForwarder.WindowInput);
  input_forwarder : option InputForwarder.InputForwarder;
  audio_capture_send : option SendStream;
  audio_capture_sequence : Z;
  audio_playback_reader : option AudioSession.AudioFrameReader;
  last_activity : Z;
  spawned : list task;
  closed : bool;
}.

Notation in_session := (async session app_error).

Definition with_viewer (v : ClientVideo.viewer) (s : session) : session :=
  Build_session v (connection s) (control s) (frame_reader s) (window_input s) (input_forwarder s)
    (audio_capture_send s) (audio_capture_sequence s) (audio_playback_reader s) (last_activity s) (spawned s)
    (closed s).
Definition with_connection (c : Connection) (s : session) : session :=
  Build_session (viewer s) c (control s) (frame_reader s) (window_input s) (input_forwarder s)
    (audio_capture_send s) (audio_capture_sequence s) (audio_playback_reader s) (last_activity s) (spawned s)
    (closed s).
Definition with_control (ch : Handshake.ControlChannel) (s : session) : session :=
  Build_session (viewer s) (connection s) ch (frame_reader s) (window_input s) (input_forwarder s)
    (audio_capture_send s) (audio_capture_sequence s) (audio_playback_reader s) (last_activity s) (spawned s)
    (closed s).
Definition with_frame_reader (r : VideoSession.VideoFrameReader) (s : session) : session :=
  Build_session (viewer s) (connection s) (control s) r (window_input s) (input_forwarder s)
    (audio_capture_send s) (audio_capture_sequence s) (audio_playback_reader s) (last_activity s) (spawned s)
    (closed s).
Definition with_window_input (q : option (list InputForwarder.WindowInput)) (s : session) : session :=
  Build_session (viewer s) (connection s) (control s) (frame_reader s) q (input_forwarder s)
    (audio_capture_send s) (audio_capture_sequence s) (audio_playback_reader s) (last_activity s) (spawned s)
    (closed s).
Definition with_input_forwarder (f : option InputForwarder.InputForwarder) (s : session) : session :=
  Build_session (viewer s) (connection s) (control s) (frame_reader s) (window_input s) f
    (audio_capture_send s) (audio_capture_sequence s) (audio_playback_reader s) (last_activity s) (spawned s)
    (closed s).
Definition with_audio_capture (send : option SendStream) (sequence : Z) (s : session) : session :=
  Build_session (viewer s) (connection s) (control s) (frame_reader s) (window_input s) (input_forwarder s)
    send sequence (audio_playback_reader s) (last_activity s) (spawned s) (closed s).
Definition with_audio_playback (r : option AudioSession.AudioFrameReader) (s : session) : session :=
  Build_session (viewer s) (connection s) (control s) (frame_reader s) (window_input s) (input_forwarder s)
    (audio_capture_send s) (audio_capture_sequence s) r (last_activity s) (spawned s) (closed s).
Definition with_last_activity (now : Z) (s : session) : session :=
  Build_session (viewer s) (connection s) (control s) (frame_reader s) (window_input s) (input_forwarder s)
    (audio_capture_send s) (audio_capture_sequence s) (audio_playback_reader s) now (spawned s) (closed s).
Definition with_spawned (ts : list task) (s : session) : session :=
  Build_session (viewer s) (connection s) (control s) (frame_reader s) (window_input s) (input_forwarder s)
    (audio_capture_send s) (audio_capture_sequence s) (audio_playback_reader s) (last_activity s) ts (closed s).
Definition with_closed (b : bool) (s : session) : session :=
  Build_session (viewer s) (connection s) (control s) (frame_reader s) (window_input s) (input_forwarder s)
    (audio_capture_send s) (audio_capture_sequence s) (audio_playback_reader s) (last_activity s) (spawned s) b.

Definition update {E} (f : session -> session) : async session E unit := fun s => (Ready (Ok tt), f s).
Definition on_viewer {E A} : async ClientVideo.viewer E A -> async session E A := azoom viewer with_viewer.
Definition on_connection {E A} : async Connection E A -> async session E A := azoom connection with_connection.
Definition on_control {E A} : async Handshake.ControlChannel E A -> async session E A := azoom control with_control.
Definition on_frame_reader {E A} : async VideoSession.VideoFrameReader E A -> async session E A :=
  azoom frame_reader with_frame_reader.

Inductive flow := Continue | Finished.

(** ** Closing *)

(** The result of the write is ignored; [finish] and the grace period leave the
    state as it is. *)
Definition close_gracefully (reason : ReasonCode) : in_session unit :=
  _ ← atry (E := WriteError)
        (on_control (Handshake.on_send
          (write_envelope false type_id.SESSION_CLOSE (encode {| close_reason := reason |}))));
  update (with_closed true).

(** On a forwarder that is there. *)
Definition on_forwarder {E} (m : async InputForwarder.InputForwarder E unit) : async session E unit := fun s =>
  match input_forwarder s with
  | None => (Ready (Ok tt), s)
  | Some f => let '(r, f) := m f in (r, with_input_forwarder (Some f) s)
  end.

(** [let _ = forwarder.release_all().await]. *)
Definition release_input : in_session unit :=
  _ ← atry (E := WriteError) (on_forwarder (InputForwarder.release_all input_clock));
  aret tt.

(** The arms that leave the loop: the shutdown or the closing of the window, and
    the idle deadline. *)
Definition leave : in_session flow :=
  _ ← release_input;
  _ ← close_gracefully NONE;
  aret Finished.

Definition on_idle : in_session flow :=
  _ ← close_gracefully TRANSPORT_IDLE_TIMEOUT;
  aret Finished.

(** ** The control stream *)

Definition on_keepalive : in_session flow :=
  _ ← amap_err AppError.Write (on_control (Handshake.on_send
        (write_envelope false type_id.KEEP_ALIVE (encode mkKeepAlive))));
  aret Continue.

(** What a [SessionClose] or a [PermissionUpdate] says is only printed. *)
Definition on_control_msg (now : Z) (control_msg : result StreamReadError (Z * list Z)) : in_session flow :=
  '(type_raw, _) ← alift (map_err AppError.Read control_msg);
  _ ← update (with_last_activity now);
  if type_raw =? type_id.SESSION_CLOSE then aret Finished else aret Continue.

(** ** Video *)

Definition reset_error (e : VideoSession.VideoError) : bool :=
  match e with VideoSession.ReadErr (StreamReader.Read e) => is_reset e | _ => false end.

(** Every retry has taken a stream off the connection: [fuel] bounds their
    number. *)
Fixpoint accept_next_generation_loop (fuel : nat) :
    async Connection app_error (VideoSession.VideoInstanceIntro * VideoSession.VideoFrameReader) := fun c =>
  match VideoSession.accept_video_instance_within true c with
  | (Ready (Ok accepted), c) => (Ready (Ok accepted), c)
  | (Ready (Err e), c) =>
      if reset_error e then
        match fuel with
        | O => (Crash, c)
        | S fuel => accept_next_generation_loop fuel c
        end
      else (Ready (Err (AppError.Video e)), c)
  | (Elapsed, c) => (Ready (Err (AppError.Violation PROTOCOL_VIDEO_CONFIGURING_TIMEOUT)), c)
  | (Pending, c) => (Pending, c)
  | (Crash, c) => (Crash, c)
  end.

Definition accept_next_generation :
    async Connection app_error (VideoSession.VideoInstanceIntro * VideoSession.VideoFrameReader) := fun c =>
  accept_next_generation_loop (length (uni_accepts c)) c.

(** [timesync.offset_us] and [args.target_latency_us]. *)
Record params := { offset_us : Z; target_latency_us : Z }.

Definition process_frame (p : params) (header : VideoFrameHeader) (payload : list Z) : in_session unit :=
  on_viewer (ClientVideo.process_frame clock decode_task (offset_us p) (target_latency_us p) header payload).

(** [later] is when the new instance was there. *)
Definition on_reset (p : params) (later : Z) : in_session flow :=
  _ ← on_viewer (ClientVideo.update_stats (ClientVideo.count 0 0 0 1 0));
  '(intro, reader) ← on_connection accept_next_generation;
  _ ← update (with_frame_reader reader);
  _ ← update (with_last_activity later);
  _ ← process_frame p (VideoSession.first_frame_header intro) (VideoSession.first_frame_payload intro);
  aret Continue.

Definition on_frame (p : params) (now later : Z)
    (frame : result VideoSession.VideoError (VideoFrameHeader * list Z)) : in_session flow :=
  match frame with
  | Ok (header, payload) =>
      _ ← update (with_last_activity now);
      _ ← process_frame p header payload;
      aret Continue
  | Err e => if reset_error e then on_reset p later else athrow (AppError.Video e)
  end.

Definition on_timing (p : params) (timing : result app_error (option DisplayWindow.FrameTiming)) :
    in_session flow :=
  timing ← alift timing;
  match timing with
  | None => leave
  | Some timing =>
      _ ← on_viewer (ClientVideo.on_window_timing clock timing (offset_us p) (target_latency_us p));
      aret Continue
  end.

(** ** Input *)

(** Whether the thread still has its end of the channel of input events. *)
Definition window_speaks (s : session) : bool :=
  match ClientVideo.sink (viewer s) with
  | ClientVideo.Window w _ _ => DisplayWindow.in_loop w
  | ClientVideo.Log => false
  end.

Definition next_window_input : in_session InputForwarder.WindowInput := fun s =>
  match window_input s with
  | Some (event :: q) => (Ready (Ok event), with_window_input (Some q) s)
  | Some [] => (Pending, if window_speaks s then s else with_window_input None s)
  | None => (Pending, s)
  end.

Definition on_window_input (event : result app_error InputForwarder.WindowInput) : in_session flow :=
  event ← alift event;
  _ ← amap_err AppError.Write (on_forwarder (InputForwarder.forward input_clock event));
  aret Continue.

(** ** Audio *)

Definition audio_config : AudioConfig :=
  {| ac_codec := Opus; sample_rate := 48000; channels := 1; frame_duration_ms := 20 |}.

Definition audio_samples_per_frame : Z := sample_rate audio_config * frame_duration_ms audio_config / 1000.

Definition set_audio_capture (send : option SendStream) (sequence : Z) : in_session unit :=
  update (with_audio_capture send sequence).

Definition on_audio_tick : in_session flow :=
  s ← aget;
  match audio_capture_send s with
  | None => aret Continue
  | Some send =>
      capture_ts ← on_viewer (ClientVideo.now_us clock);
      '(r, send) ← alocal send
        (AudioSession.send_audio_frame (audio_capture_sequence s) capture_ts
           (frame_duration_ms audio_config * 1000)
           (AudioSession.generate_silence_payload audio_samples_per_frame));
      _ ← set_audio_capture (Some send) (audio_capture_sequence s);
      _ ← alift (map_err AppError.Audio r);
      _ ← set_audio_capture (Some send) (wrap 64 (audio_capture_sequence s + 1));
      aret Continue
  end.

Definition on_playback_accepted
    (accept_result : result AudioSession.AudioError (AudioConfig * AudioSession.AudioFrameReader)) :
    in_session flow :=
  '(_, reader) ← alift (map_err AppError.Audio accept_result);
  _ ← update (with_audio_playback (Some reader));
  aret Continue.

Definition on_playback_reader (r : AudioSession.AudioFrameReader) :
    async session AudioSession.AudioError (AudioFrameHeader * list Z) :=
  azoom (fun _ => r) (fun r => with_audio_playback (Some r)) (AudioSession.read_next_frame true).

Definition on_playback_frame (now : Z)
    (frame_result : result AudioSession.AudioError (AudioFrameHeader * list Z)) : in_session flow :=
  match frame_result with
  | Ok _ => _ ← update (with_last_activity now); aret Continue
  | Err _ => _ ← update (with_audio_playback None); aret Continue
  end.

(** ** Clipboard *)

Definition spawn (t : task) : in_session unit := update (fun s => with_spawned (spawned s ++ [t]) s).

Definition on_clipboard (accept_result :
      result ClipboardSession.ClipboardSessionError (ClipboardSession.Exchange * ClipboardFormats)) :
    in_session flow :=
  '(exchange, fs) ← alift (map_err AppError.Clipboard accept_result);
  match formats fs with
  | [] => aret Continue
  | first_format :: _ =>
      _ ← spawn (ClipboardRequestTask exchange
            {| cr_request_id := cf_request_id fs; cr_namespace := entry_namespace first_format;
               cr_format_id := entry_format_id first_format |});
      aret Continue
  end.

(** ** The loop *)

Inductive arm :=
| Shutdown
| KeepAliveTick
| ControlArm
| FrameArm (later : Z)
| TimingArm
| WindowInputArm
| BreakerTick
| AudioTick
| AcceptPlayback
| PlaybackArm
| ClipboardArm.

(** Besides the loop's own turns: the window's thread takes one, its user acts. *)
Inductive event :=
| Turn (now : Z) (a : arm)
| ThreadTurn (e : DisplayWindow.worker_event)
| UserActs (e : InputForwarder.WindowInput).

Definition select {A E} (future : async session E A) (handler : result E A -> in_session flow) :
    in_session flow := fun s =>
  match future s with
  | (Ready r, s) => handler r s
  | (Pending, s) => (Ready (Ok Continue), s)
  | (Elapsed, s) => (Ready (Ok Continue), s)
  | (Crash, s) => (Crash, s)
  end.

Definition poll_arm (p : params) (now : Z) (a : arm) : in_session flow :=
  match a with
  | Shutdown => leave
  | KeepAliveTick => on_keepalive
  | ControlArm =>
      select (on_control (Handshake.on_reader (read_envelope true (max_envelope_length Control))))
        (on_control_msg now)
  | FrameArm later => select (on_frame_reader (VideoSession.read_next_frame true)) (on_frame p now later)
  | TimingArm => select (on_viewer ClientVideo.next_window_timing) (on_timing p)
  | WindowInputArm => select next_window_input on_window_input
  | BreakerTick => _ ← on_viewer (ClientVideo.tick_circuit_breaker clock); aret Continue
  | AudioTick => on_audio_tick
  | AcceptPlayback =>
      s ← aget;
      match audio_playback_reader s with
      | Some _ => aret Continue
      | None => select (on_connection (AudioSession.accept_audio_stream_within true AudioPlayback)) on_playback_accepted
      end
  | PlaybackArm =>
      s ← aget;
      match audio_playback_reader s with
      | None => aret Continue
      | Some r => select (on_playback_reader r) (on_playback_frame now)
      end
  | ClipboardArm => select (on_connection (ClipboardSession.accept_clipboard_formats_within true)) on_clipboard
  end.

Definition turn (p : params) (now : Z) (a : arm) : in_session flow := fun s =>
  match a with
  | Shutdown => leave s
  | _ => if last_activity s + ConnectionSm.defaults.IDLE_TIMEOUT <=? now then on_idle s else poll_arm p now a s
  end.

Definition step (p : params) (e : event) : in_session flow :=
  match e with
  | Turn now a => turn p now a
  | ThreadTurn e => _ ← update (fun s => with_viewer (ClientVideo.window_turn e (viewer s)) s); aret Continue
  | UserActs e =>
      _ ← update (fun s =>
            match window_input s with
            | Some q => if window_speaks s then with_window_input (Some (q ++ [e])) s else s
            | None => s
            end);
      aret Continue
  end.

(** The loop over the turns and events of a schedule; it waits on when the
    schedule is over. *)
Fixpoint run_loop (p : params) (events : list event) : in_session unit :=
  match events with
  | [] => fun s => (Pending, s)
  | e :: events' =>
      f ← step p e;
      match f with
      | Finished => aret tt
      | Continue => run_loop p events'
      end
  end.

(** ** The clipboard's task *)

Definition announced_formats : ClipboardFormats :=
  {| cf_request_id := 1; formats := [{| entry_namespace := Mime; entry_format_id := "text/plain" |}] |}.

Definition pseudo_data : list Z := chars "hello from sardp-client's synthetic clipboard".

Definition drop_send (send : SendStream) : async Connection WriteError unit := fun c =>
  (Ready (Ok tt), release send c).

Definition clipboard_announce_once : async Connection WriteError unit :=
  announced ← atry (ClipboardSession.announce_clipboard_formats announced_formats);
  match announced with
  | Err _ => aret tt
  | Ok exchange =>
      '(request, exchange) ← alocal exchange
        (ClipboardSession.on_reader ClipboardSession.read_clipboard_request);
      match request with
      | Err _ => aret tt
      | Ok request =>
          '(_, exchange) ← alocal exchange (ClipboardSession.on_send
            (ClipboardSession.respond_to_clipboard_request (cr_request_id request) (cr_namespace request)
               (cr_format_id request) pseudo_data None));
          drop_send (ClipboardSession.send exchange)
      end
  end.

(** ** Setting up *)

(** The command line; [session_file] is the file's contents, where a path is given
    and the file can be read. *)
Record Args := {
  signing_key : SigningKey;
  arg_user_id : string;
  device_id : string;
  client_name : string;
  arg_target_latency_us : Z;
  session_file : option (option (list Z));
  display : ClientVideo.DisplayMode;
  window_size : Z * Z;
  input : bool;
  input_script : bool;
}.

(** What a client has before its session: the connection, the number of readings
    of the clock, and what it has written to the session file. *)
Record client := {
  cl_connection : Connection;
  cl_ticks : nat;
  session_file_written : option (list Z);
}.

Notation in_client := (async client app_error).

Definition with_cl_connection (c : Connection) (s : client) : client :=
  {| cl_connection := c; cl_ticks := cl_ticks s; session_file_written := session_file_written s |}.

Definition on_cl_connection {E A} : async Connection E A -> async client E A :=
  azoom cl_connection with_cl_connection.

(** [.expect(..)] on a transition. *)
Definition expect_step (t : ConnectionSm.transition) (sm : ConnectionSm.ConnectionSm) :
    outcome ConnectionSm.ConnectionSm :=
  match t sm with
  | (Ok _, sm) => Done sm
  | (Err _, _) => Panicked
  end.

Definition suspended_sm : outcome ConnectionSm.ConnectionSm :=
  sm ← expect_step ConnectionSm.complete_handshake ConnectionSm.new;
  sm ← expect_step ConnectionSm.complete_authentication sm;
  sm ← expect_step ConnectionSm.on_channel_live sm;
  expect_step ConnectionSm.suspend sm.

Definition reconnect (saved : SessionFile.SavedSession) (sm : ConnectionSm.ConnectionSm) :
    async client Handshake.HandshakeError
      (Reconnection.ReconnectOutcome * Handshake.ControlChannel * ConnectionSm.ConnectionSm) := fun s =>
  let '(r, (c, sm)) := Reconnection.client_reconnect (SessionFile.session_id saved)
        (SessionFile.reconnect_token saved) (of_chars (SessionFile.user_id saved)) (cl_connection s, sm) in
  (match r with
   | Ready (Ok (outcome, control)) => Ready (Ok (outcome, control, sm))
   | Ready (Err e) => Ready (Err e)
   | Pending => Pending | Elapsed => Elapsed | Crash => Crash
   end, with_cl_connection c s).

(** The session's id and token, the permissions, and whether it is a resumed one. *)
Record established := {
  es_session_id : list Z;
  es_reconnect_token : list Z;
  es_granted_permissions : Z;
  connection_sm : ConnectionSm.ConnectionSm;
  es_control : Handshake.ControlChannel;
  is_resumed : bool;
}.

Definition establish (a : Args) : in_client established :=
  saved_session ← aoutcome (match session_file a with
                            | Some (Some contents) => SessionFile.parse_saved_session contents
                            | _ => Done None
                            end);
  match saved_session with
  | Some saved =>
      sm ← aoutcome suspended_sm;
      '(outcome, control, sm) ← amap_err AppError.Handshake (reconnect saved sm);
      aret {| es_session_id := Reconnection.ro_session_id outcome;
              es_reconnect_token := Reconnection.ro_reconnect_token outcome;
              es_granted_permissions := Reconnection.ro_granted_permissions outcome;
              connection_sm := sm; es_control := control; is_resumed := true |}
  | None =>
      '(outcome, sm, control) ← amap_err AppError.Handshake (on_cl_connection
        (Handshake.client_handshake (signing_key a) (client_name a) (arg_user_id a) (device_id a)));
      aret {| es_session_id := Handshake.session_id outcome;
              es_reconnect_token := Handshake.reconnect_token outcome;
              es_granted_permissions := Handshake.granted_permissions outcome;
              connection_sm := sm; es_control := control; is_resumed := false |}
  end.

(** [write_saved_session], where a path is given; a failure is only logged. *)
Definition save_session (a : Args) (e : established) : in_client unit := fun s =>
  (Ready (Ok tt),
   match session_file a with
   | None => s
   | Some _ =>
       {| cl_connection := cl_connection s; cl_ticks := cl_ticks s;
          session_file_written := Some (SessionFile.format_saved_session
            {| SessionFile.session_id := es_session_id e; SessionFile.reconnect_token := es_reconnect_token e;
               SessionFile.user_id := chars (arg_user_id a) |}) |}
   end).

Definition time_sync (control : Handshake.ControlChannel) :
    in_client (TimeSync.TimeSyncResult * Handshake.ControlChannel) := fun s =>
  let '(r, p) := TimeSync.client_time_sync_rounds clock TimeSync.DEFAULT_TIME_SYNC_ROUNDS
        {| TimeSync.channel := control; TimeSync.ticks := cl_ticks s |} in
  (match r with
   | Ready (Ok rounds) =>
       match TimeSync.best_of rounds with
       | Some best => Ready (Ok (best, TimeSync.channel p))
       | None => Crash
       end
   | Ready (Err e) => Ready (Err (AppError.TimeSync e))
   | Pending => Pending | Elapsed => Elapsed | Crash => Crash
   end,
   {| cl_connection := cl_connection s; cl_ticks := TimeSync.ticks p;
      session_file_written := session_file_written s |}).

(** The first instance, within a deadline that panics. *)
Definition accept_first_instance : in_client (VideoSession.VideoInstanceIntro * VideoSession.VideoFrameReader) := fun s =>
  let '(r, c) := VideoSession.accept_video_instance_within true (cl_connection s) in
  (match r with
   | Ready (Ok accepted) => Ready (Ok accepted)
   | Ready (Err e) => Ready (Err (AppError.Video e))
   | Elapsed => Crash
   | Pending => Pending | Crash => Crash
   end, with_cl_connection c s).

Definition channel_live (e : established) : result app_error ConnectionSm.ConnectionSm :=
  if is_resumed e then Ok (connection_sm e)
  else
    let '(r, sm) := ConnectionSm.on_channel_live (connection_sm e) in
    match r with
    | Ok _ => Ok sm
    | Err v => Err (AppError.Violation (ConnectionSm.pv_reason v))
    end.

(** The forwarder, if input is to be forwarded, and the receiver the loop polls. *)
Definition start_input (a : Args) (granted_permissions : Z) (stream_size : Z * Z)
    (window_input : option (list InputForwarder.WindowInput)) :
    in_client (option InputForwarder.InputForwarder * option (list InputForwarder.WindowInput)) :=
  let input_granted := Z.land granted_permissions (Z.lor bit.INPUT_KEYBOARD bit.INPUT_MOUSE) in
  let scripted := input_script a && input a && negb (input_granted =? 0) in
  let open_input := amap_err AppError.Quic (on_cl_connection InputSession.open_input_stream) in
  if scripted then
    send ← open_input;
    '(_, f) ← alocal_try (InputForwarder.new send granted_permissions stream_size stream_size)
      (amap_err AppError.Write (InputForwarder.run_script input_clock stream_size));
    aret (Some f, window_input)
  else if bool_decide (is_Some window_input) && input a && negb (input_granted =? 0) then
    send ← open_input;
    aret (Some (InputForwarder.new send granted_permissions stream_size (window_size a)), window_input)
  else aret (None, None).

Definition start_audio (granted_permissions : Z) : in_client (option SendStream) :=
  if negb (Z.land granted_permissions bit.AUDIO_CAPTURE =? 0) then
    r ← atry (E := AudioSession.AudioError) (on_cl_connection (AudioSession.open_audio_stream AudioCapture audio_config));
    aret (match r with Ok send => Some send | Err _ => None end)
  else aret None.

(** Up to the loop, which starts at the instant [now]; [window_init] is what
    starting the window leads to. *)
Definition set_up (a : Args) (window_init : result string unit) (now : Z) :
    in_client (session * params * ConnectionSm.ConnectionSm) :=
  e ← establish a;
  _ ← save_session a e;
  '(timesync, control) ← time_sync (es_control e);
  '(intro, frame_reader) ← accept_first_instance;
  sm ← alift (channel_live e);
  feedback_send ← amap_err AppError.Quic (on_cl_connection FeedbackSession.open_feedback_stream);
  sink ← aoutcome (ClientVideo.open_sink (display a) (_ ← window_init; Ok DisplayWindow.opened));
  sink ← alift (map_err AppError.Display sink);
  let config := VideoSession.encoder_config intro in
  let stream_size := (ec_width config, ec_height config) in
  let window_input := match sink with ClientVideo.Log => None | ClientVideo.Window _ _ _ => Some [] end in
  '(forwarder, window_input) ← start_input a (es_granted_permissions e) stream_size window_input;
  s ← aget;
  let p := {| offset_us := TimeSync.offset_us timesync; target_latency_us := arg_target_latency_us a |} in
  '(_, viewer) ← alocal_try
    {| ClientVideo.sink := sink; ClientVideo.display := ClientDisplay.new;
       ClientVideo.stats := ClientVideo.no_stats; ClientVideo.feedback_send := feedback_send;
       ClientVideo.ticks := cl_ticks s |}
    (ClientVideo.process_frame clock decode_task (offset_us p) (target_latency_us p)
       (VideoSession.first_frame_header intro) (VideoSession.first_frame_payload intro));
  audio_send ← start_audio (es_granted_permissions e);
  s ← aget;
  aret (Build_session viewer (cl_connection s) control frame_reader window_input forwarder audio_send 0 None now
          (if negb (Z.land (es_granted_permissions e) bit.CLIP_WRITE =? 0) then [ClipboardAnnounceTask] else [])
          false, p, sm).

(** The session on a connection: how it ends, what it leaves of the connection and
    of itself. *)
Definition run (a : Args) (window_init : result string unit) (now : Z) (events : list event) (s : client) :
    poll app_error unit * client * option session :=
  match set_up a window_init now s with
  | (Ready (Ok (session, p, _)), s) =>
      let '(r, session) := run_loop p events session in
      (r, with_cl_connection (connection session) s, Some session)
  | (Ready (Err e), s) => (Ready (Err e), s, None)
  | (Pending, s) => (Pending, s, None)
  | (Elapsed, s) => (Elapsed, s, None)
  | (Crash, s) => (Crash, s, None)
  end.

(** * Lemmas *)

(** ** Accepting the next generation *)

Lemma next_accept_shorter timed evs r s evs' :
  next_accept timed evs = (Ready (Ok (r, s)), evs') -> (length evs' < length evs)%nat.
Proof.
  induction evs as [|[r' s'|e|] evs IH]; cbn [next_accept length]; [done|..].
  - intros [= _ _ <-]. lia.
  - done.
  - destruct timed; [done|]. intros Hn. specialize (IH Hn). lia.
Qed.

(** An instance that is reset has been accepted first. *)
Lemma reset_instance_shorter c e c' :
  VideoSession.accept_video_instance_within true c = (Ready (Err e), c') -> reset_error e = true ->
  (length (uni_accepts c') < length (uni_accepts c))%nat.
Proof.
  unfold VideoSession.accept_video_instance_within, VideoSession.accept_intro, accept_uni.
  unfold mbind, async_bind, abind, amap_err.
  destruct (next_accept true (uni_accepts c)) as [[[[r s]|e']| | |] evs] eqn:En; try done.
  2: { cbn. intros [= <- _]. done. }
  intros He Hr. apply next_accept_shorter in En. unfold alocal_try, mbind, async_bind, abind, alocal, alift, aret in He.
  cbn [map_err] in He. destruct (VideoSession.read_intro true (StreamReader.new r)) as [[[x|x]| | |] t]; try done.
  by injection He as _ <-.
Qed.

Lemma accept_loop_enough fuel fuel' c :
  (length (uni_accepts c) <= fuel)%nat -> (length (uni_accepts c) <= fuel')%nat ->
  accept_next_generation_loop fuel c = accept_next_generation_loop fuel' c.
Proof using Cbor5 Cbor6 Cbor7 ConnectError FrameError H JoinError clock decode_task input_clock is_reset.
  revert fuel' c. induction fuel as [|fuel IH]; intros fuel' c Hf Hf';
    destruct fuel' as [|fuel']; cbn [accept_next_generation_loop];
    destruct (VideoSession.accept_video_instance_within true c) as [[[x|e]| | |] c'] eqn:E; try done;
    destruct (reset_error e) eqn:Ee; try done; pose proof (reset_instance_shorter _ _ _ E Ee); try lia.
  apply IH; lia.
Qed.

(** ** The control stream *)

Lemma preserves_update (I : session -> Prop) {E} f :
  (forall s, I s -> I (f s)) -> preserves I (update (E := E) f).
Proof. intros Hf s. apply Hf. Qed.

Lemma preserves_arm (I : session -> Prop) {A E} (future : async session E A) handler :
  preserves I future -> (forall r, preserves I (handler r)) -> preserves I (select future handler).
Proof.
  intros Hf Hh s Hs. specialize (Hf s Hs). unfold select.
  destruct (future s) as [[r| | |] s']; try done. by apply Hh.
Qed.

Lemma preserves_forwarder (I : session -> Prop) {E} (m : async InputForwarder.InputForwarder E unit) :
  (forall f s, I s -> I (with_input_forwarder f s)) -> preserves I (on_forwarder m).
Proof.
  intros Hf s Hs. unfold on_forwarder. destruct (input_forwarder s) as [f|]; [|done].
  destruct (m f) as [r f']. by apply Hf.
Qed.

(** The sending half of the control stream and whether the connection is closed. *)
Definition stays (send : SendStream) (b : bool) (s : session) : Prop :=
  Handshake.send (control s) = send /\ closed s = b.

Section staying.
Variables (send : SendStream) (b : bool).
#[local] Notation keeps := (preserves (stays send b)).

Lemma stays_viewer {E A} (m : async ClientVideo.viewer E A) : keeps (on_viewer m).
Proof. by apply preserves_zoom. Qed.
Lemma stays_connection {E A} (m : async Connection E A) : keeps (on_connection m).
Proof. by apply preserves_zoom. Qed.
Lemma stays_frame_reader {E A} (m : async VideoSession.VideoFrameReader E A) : keeps (on_frame_reader m).
Proof. by apply preserves_zoom. Qed.
Lemma stays_forwarder {E} (m : async InputForwarder.InputForwarder E unit) : keeps (on_forwarder m).
Proof. by apply preserves_forwarder. Qed.
Lemma stays_control_reader {E A} (m : async EnvelopeReader E A) : keeps (on_control (Handshake.on_reader m)).
Proof.
  intros s [Hs Hb]. unfold on_control, Handshake.on_reader, azoom. by destruct (m _) as [r t].
Qed.
Lemma stays_frame_reader_set {E} r : keeps (update (E := E) (with_frame_reader r)).
Proof. by apply preserves_update. Qed.
Lemma stays_activity {E} now : keeps (update (E := E) (with_last_activity now)).
Proof. by apply preserves_update. Qed.
Lemma stays_audio_capture c n : keeps (set_audio_capture c n).
Proof. by apply preserves_update. Qed.
Lemma stays_audio_playback {E} r : keeps (update (E := E) (with_audio_playback r)).
Proof. by apply preserves_update. Qed.
Lemma stays_spawn t : keeps (spawn t).
Proof. by apply preserves_update. Qed.
Lemma stays_window_input : keeps next_window_input.
Proof.
  intros s Hs. unfold next_window_input. destruct (window_input s) as [[|e q]|]; [|done..].
  by destruct (window_speaks s).
Qed.
Lemma stays_playback_reader r : keeps (on_playback_reader r).
Proof. by apply preserves_zoom. Qed.
#[local] Hint Resolve stays_viewer stays_connection stays_frame_reader stays_forwarder stays_control_reader
  stays_frame_reader_set stays_activity stays_audio_capture stays_audio_playback stays_spawn
  stays_window_input stays_playback_reader : preserves.

Lemma stays_on_frame p now later frame : keeps (on_frame p now later frame).
Proof. unfold on_frame, on_reset, process_frame. preserve. Qed.
Lemma stays_on_audio_tick : keeps on_audio_tick.
Proof. unfold on_audio_tick. preserve. Qed.
Lemma stays_on_playback_frame now r : keeps (on_playback_frame now r).
Proof. unfold on_playback_frame. preserve. Qed.
Lemma stays_on_clipboard r : keeps (on_clipboard r).
Proof. unfold on_clipboard. preserve. Qed.

(** The arms that neither write on the control stream nor close. *)
Lemma stays_poll_arm p now a :
  match a with Shutdown | KeepAliveTick | TimingArm => False | _ => True end -> keeps (poll_arm p now a).
Proof.
  destruct a; intros Ha; try done; cbn [poll_arm]; unfold on_control_msg, on_window_input, on_playback_accepted.
  - apply preserves_arm; [preserve|]. preserve.
  - apply preserves_arm; [preserve|]. intros r. apply stays_on_frame.
  - apply preserves_arm; [preserve|]. preserve.
  - preserve.
  - apply stays_on_audio_tick.
  - apply preserves_bind; [preserve|]. intros s. destruct (audio_playback_reader s); [preserve|].
    apply preserves_arm; [preserve|]. preserve.
  - apply preserves_bind; [preserve|]. intros s. destruct (audio_playback_reader s); [|preserve].
    apply preserves_arm; [preserve|]. intros r. apply stays_on_playback_frame.
  - apply preserves_arm; [preserve|]. intros r. apply stays_on_clipboard.
Qed.
End staying.

Definition keepalive_bytes : list Z := Envelope.frame type_id.KEEP_ALIVE (encode mkKeepAlive).
Definition close_bytes (reason : ReasonCode) : list Z :=
  Envelope.frame type_id.SESSION_CLOSE (encode {| close_reason := reason |}).

(** What a session has added to its control stream: keepalives and, once it has
    closed the connection, the announcement of that. *)
Definition control_ok (base : list Z) (s : session) : Prop :=
  let send := Handshake.send (control s) in
  write_results send = [] /\
  exists k, let said := base ++ concat (replicate k keepalive_bytes) in
    if closed s then
      exists reason, (reason = NONE \/ reason = TRANSPORT_IDLE_TIMEOUT) /\ sent send = said ++ close_bytes reason
    else sent send = said.

Lemma control_ok_stays base send b s s' :
  control_ok base s -> Handshake.send (control s) = send -> closed s = b -> stays send b s' -> control_ok base s'.
Proof. intros [Hw Hk] <- <- [Hs Hb]. unfold control_ok. by rewrite Hs, Hb. Qed.

Lemma keeps_control_ok base {A} (m : in_session A) :
  (forall send b, preserves (stays send b) m) -> forall s, control_ok base s -> control_ok base (m s).2 /\ closed (m s).2 = closed s.
Proof.
  intros Hm s Hs. specialize (Hm (Handshake.send (control s)) (closed s) s ltac:(by split)).
  split; [by eapply control_ok_stays|by destruct Hm].
Qed.

(** A write on a stream that accepts everything happens as a whole or, if the
    length does not fit, not at all. *)
Lemma write_whole t p send :
  write_results send = [] ->
  match write_envelope false t p send with
  | (Ready (Ok _), send') => write_results send' = [] /\ sent send' = sent send ++ Envelope.frame t p
  | (Ready (Err _), _) => False
  | (_, send') => send' = send
  end.
Proof.
  intros Hw. unfold write_envelope, mbind, async_bind, abind, aoutcome, Envelope.frame.
  destruct (Envelope.encode t p []) as [buf|]; [|done]. unfold write_all. by rewrite Hw.
Qed.

Lemma concat_replicate_snoc {A} k (x : list A) : concat (replicate (S k) x) = concat (replicate k x) ++ x.
Proof. induction k as [|k IH]; cbn in *; [by rewrite app_nil_r|]. by rewrite <- app_assoc, <- IH. Qed.

Lemma control_ok_keepalive base s :
  control_ok base s -> closed s = false ->
  control_ok base (on_keepalive s).2 /\ closed (on_keepalive s).2 = false.
Proof.
  intros (Hw & k & Hk) Hc. rewrite Hc in Hk. cbv zeta in Hk.
  unfold on_keepalive, on_control, Handshake.on_send, mbind, async_bind, abind, amap_err, azoom.
  pose proof (write_whole type_id.KEEP_ALIVE (encode mkKeepAlive) _ Hw) as Hwr.
  destruct (write_envelope _ _ _ _) as [[[x|e]| | |] send']; cbn in *; try done.
  - destruct Hwr as [Hw' Hs']. split; [|done]. split; [done|]. exists (S k). cbn [closed with_control]. rewrite Hc.
    cbn. fold keepalive_bytes in Hs'. by rewrite Hs', Hk, <- app_assoc, <- concat_replicate_snoc.
  - subst send'. split; [|done]. split; [done|]. exists k. cbn. by rewrite Hc.
  - subst send'. split; [|done]. split; [done|]. exists k. cbn. by rewrite Hc.
  - subst send'. split; [|done]. split; [done|]. exists k. cbn. by rewrite Hc.
Qed.

(** The end of a session, and nothing more on the stream. *)
Lemma control_ok_close base reason s :
  reason = NONE \/ reason = TRANSPORT_IDLE_TIMEOUT -> control_ok base s -> closed s = false ->
  control_ok base (close_gracefully reason s).2.
Proof.
  intros Hr (Hw & k & Hk) Hc. rewrite Hc in Hk. cbv zeta in Hk.
  unfold close_gracefully, on_control, Handshake.on_send, mbind, async_bind, abind, atry, azoom.
  pose proof (write_whole type_id.SESSION_CLOSE (encode {| close_reason := reason |}) _ Hw) as Hwr.
  destruct (write_envelope _ _ _ _) as [[[x|e]| | |] send']; cbn in *; try done.
  - destruct Hwr as [Hw' Hs']. split; [done|]. exists k. cbn. exists reason. by rewrite Hs', Hk.
  - subst send'. split; [done|]. exists k. cbn. by rewrite Hc.
  - subst send'. split; [done|]. exists k. cbn. by rewrite Hc.
  - subst send'. split; [done|]. exists k. cbn. by rewrite Hc.
Qed.

(** What a turn leaves: [control_ok], and a connection still open if the loop goes
    on. *)
Definition goes_on (base : list Z) (r : poll app_error flow * session) : Prop :=
  control_ok base r.2 /\ (r.1 = Ready (Ok Continue) -> closed r.2 = false).

Lemma goes_on_stays base (m : in_session flow) s :
  (forall send b, preserves (stays send b) m) -> control_ok base s -> closed s = false -> goes_on base (m s).
Proof. intros Hm Hs Hc. destruct (keeps_control_ok base m Hm s Hs) as [Ho Hb]. split; [done|]. by rewrite Hb. Qed.

Lemma goes_on_leave base s : control_ok base s -> closed s = false -> goes_on base (leave s).
Proof.
  intros Hs Hc. unfold leave, mbind, async_bind, abind at 1.
  assert (forall send b, preserves (stays send b) release_input) as Hm.
  { intros send b. unfold release_input. pose proof (@stays_forwarder send b). preserve. }
  destruct (keeps_control_ok base _ Hm s Hs) as [Ho Hb]. rewrite Hc in Hb.
  destruct (release_input s) as [[[x|e]| | |] s1]; try (by split). cbn [snd] in *.
  pose proof (control_ok_close base NONE s1 ltac:(by left) Ho Hb) as Hcl. unfold abind.
  by destruct (close_gracefully NONE s1) as [[[y|e]| | |] s2]; split.
Qed.

Lemma goes_on_idle base s : control_ok base s -> closed s = false -> goes_on base (on_idle s).
Proof.
  intros Hs Hc. pose proof (control_ok_close base TRANSPORT_IDLE_TIMEOUT s ltac:(by right) Hs Hc) as Hcl.
  unfold on_idle, mbind, async_bind, abind.
  by destruct (close_gracefully TRANSPORT_IDLE_TIMEOUT s) as [[[y|e]| | |] s2]; split.
Qed.

Lemma goes_on_timing base p s :
  control_ok base s -> closed s = false -> goes_on base (select (on_viewer ClientVideo.next_window_timing) (on_timing p) s).
Proof.
  intros Hs Hc. unfold select.
  destruct (keeps_control_ok base (on_viewer (ClientVideo.next_window_timing (E := app_error)))
    (fun send b => stays_viewer send b _) s Hs) as [Ho Hb].
  rewrite Hc in Hb. destruct (on_viewer _ s) as [[r| | |] s1]; try (by split). cbn [snd] in *.
  destruct r as [[t|]|e]; [| |by split].
  - apply (goes_on_stays base (_ ← on_viewer (ClientVideo.on_window_timing clock t (offset_us p) (target_latency_us p));
                               aret Continue)); [|done..].
    intros send b. pose proof (@stays_viewer send b). preserve.
  - by apply (goes_on_leave base s1).
Qed.

Lemma turn_cases p now a s :
  (a = Shutdown /\ turn p now a s = leave s) \/
  (a <> Shutdown /\ turn p now a s =
     if last_activity s + ConnectionSm.defaults.IDLE_TIMEOUT <=? now then on_idle s else poll_arm p now a s).
Proof. destruct a; auto; right; done. Qed.

Lemma goes_on_step base p e s : control_ok base s -> closed s = false -> goes_on base (step p e s).
Proof.
  intros Hs Hc. destruct e as [now a|e|e]; cbn [step].
  - destruct (turn_cases p now a s) as [[-> ->]|[Hne ->]]; [by apply goes_on_leave|].
    destruct (_ <=? _); [by apply goes_on_idle|].
    destruct a; try (apply goes_on_stays; [intros send b; by apply stays_poll_arm|done..]).
    + destruct (control_ok_keepalive base s Hs Hc) as [Ho Hb]. by split.
    + by apply goes_on_timing.
  - apply goes_on_stays; [|done..]. intros send b. by apply preserves_bind; [apply preserves_update|preserve].
  - apply goes_on_stays; [|done..]. intros send b. apply preserves_bind; [|preserve]. apply preserves_update.
    intros s' Hs'. destruct (window_input s'); [|done]. by destruct (window_speaks s').
Qed.

Lemma control_ok_run base p events s :
  control_ok base s -> closed s = false -> control_ok base (run_loop p events s).2.
Proof.
  revert s. induction events as [|e events IH]; intros s Hs Hc; [done|]. cbn [run_loop].
  destruct (goes_on_step base p e s Hs Hc) as [Ho Hb]. unfold mbind, async_bind, abind.
  destruct (step p e s) as [[[[]|x]| | |] s1]; try done. by apply IH; [|apply Hb].
Qed.

(** ** The frames *)

Definition session_view_ok (before : list Z) (s : session) : Prop :=
  exists got, ClientVideo.view_ok before got (viewer s).

#[local] Notation shows before m := (triple (session_view_ok before) m (fun _ => session_view_ok before) any_error).

(** What does not touch the viewer. *)
Lemma shows_untouched before {A} (m : in_session A) :
  (forall v, preserves (fun s => viewer s = v) m) -> shows before m.
Proof.
  intros Hm. eapply triple_any, preserves_triple. intros s (got & Hs). exists got.
  by rewrite (Hm (viewer s) s eq_refl).
Qed.

Lemma shows_viewer before {A} (m : async ClientVideo.viewer app_error A) :
  (forall got, exists got', triple (ClientVideo.view_ok before got) m (fun _ => ClientVideo.view_ok before got') any_error) ->
  shows before (on_viewer m).
Proof.
  intros Hm s (got & Hs). destruct (Hm got) as [got' Ht]. specialize (Ht (viewer s) Hs).
  unfold on_viewer, azoom. destruct (m (viewer s)) as [[[x|e]| | |] v]; try done. by exists got'.
Qed.

Lemma shows_process_frame before p header payload : shows before (process_frame p header payload).
Proof. apply shows_viewer. intros got. eexists. apply ClientVideo.triple_process_frame. Qed.

Lemma shows_count_reset before : 
  shows before (on_viewer (ClientVideo.update_stats (ClientVideo.count 0 0 0 1 0) : async _ app_error unit)).
Proof using Cbor12 Cbor13 Cbor14 ConnectError FrameError H JoinError decode_task.
  apply shows_viewer. intros got. exists got. intros v (shown & Hr & Hw & Hg & Hk).
  exists shown. cbn. split_and!; [|done|..].
  - eapply (ClientVideo.reported_stats); [exact Hr|done|]. cbn. by rewrite wrap_eqw, Z.add_0_r.
  - unfold ClientVideo.all_counted in *. cbn. by rewrite wrap_eqw, Z.add_0_r.
  - unfold ClientVideo.sink_ok, ClientVideo.accounted in *. cbn. destruct (ClientVideo.sink v) as [|w q b].
    + rewrite !wrap_eqw, !Z.add_0_r, Hk. apply eq_eqw. lia.
    + destruct Hk as [Hq Ha]. split; [done|]. intros Hc. rewrite !wrap_eqw, !Z.add_0_r, (Ha Hc). apply eq_eqw. lia.
Qed.

Lemma shows_now before : shows before (on_viewer (ClientVideo.now_us clock : async _ app_error Z)).
Proof. apply shows_viewer. intros got. exists got. by intros v Hv. Qed.

Lemma shows_leave before : shows before leave.
Proof.
  apply shows_untouched. intros v. unfold leave, release_input, close_gracefully.
  assert (preserves (fun s => viewer s = v) (on_forwarder (InputForwarder.release_all input_clock)))
    by (by apply preserves_forwarder).
  assert (forall t p, preserves (fun s => viewer s = v)
    (on_control (Handshake.on_send (write_envelope false t p)))) by (intros t p; by apply preserves_zoom).
  assert (preserves (fun s => viewer s = v) (update (E := app_error) (with_closed true)))
    by (by apply preserves_update).
  preserve.
Qed.

Lemma next_timing_waits before got v r v1 :
  ClientVideo.view_ok before got v ->
  ClientVideo.next_window_timing (E := app_error) v = (r, v1) ->
  match r with Ready _ => True | _ => ClientVideo.view_ok before got v1 end.
Proof.
  intros Hv. unfold ClientVideo.next_window_timing. destruct (ClientVideo.sink v) as [|w q b] eqn:Ek.
  { by intros [= <- <-]. }
  pose proof (DisplayWindow.in_flight_next_timing w) as Hf.
  destruct (DisplayWindow.next_timing w) as [[t|] w']; [by intros [= <- _]|]. subst w'. intros [= <- <-].
  unfold ClientVideo.view_ok in *. cbn. by rewrite Ek in Hv.
Qed.

Lemma shows_timing before p :
  shows before (select (on_viewer ClientVideo.next_window_timing) (on_timing p)).
Proof.
  intros s (got & Hs).
  pose proof (ClientVideo.triple_timing (ConnectError := ConnectError) (FrameError := FrameError)
    (JoinError := JoinError) clock before got (offset_us p) (target_latency_us p) (viewer s) Hs) as Ht.
  unfold ClientVideo.timing_arm, mbind, async_bind, abind in Ht. unfold select, on_viewer, azoom.
  destruct (ClientVideo.next_window_timing (viewer s)) as [r v1] eqn:En.
  pose proof (next_timing_waits before got _ r v1 Hs En) as Hw. destruct r as [[[t|]|e]| | |]; try done.
  - unfold on_timing, mbind, async_bind, abind, alift, on_viewer, azoom. cbn [viewer with_viewer].
    destruct (ClientVideo.on_window_timing clock t _ _ v1) as [[[x|e]| | |] v2]; try done. by exists got.
  - apply (shows_leave before (with_viewer v1 s)). by exists got.
  - exists got. by apply Hw.
  - exists got. by apply Hw.
Qed.

(** A handler's triple, its future leaving the viewer alone. *)
Lemma shows_select before {A E} (future : async session E A) handler :
  (forall v, preserves (fun s => viewer s = v) future) -> (forall r, shows before (handler r)) ->
  shows before (select future handler).
Proof.
  intros Hf Hh s (got & Hs). specialize (Hf (viewer s) s eq_refl). unfold select.
  destruct (future s) as [[r| | |] s1]; cbn [snd] in Hf; try done.
  - apply Hh. exists got. by rewrite Hf.
  - exists got. by rewrite Hf.
  - exists got. by rewrite Hf.
Qed.

Lemma shows_on_frame before p now later frame : shows before (on_frame p now later frame).
Proof.
  assert (forall t, shows before (update (E := app_error) (with_last_activity t))) as Hact.
  { intros t. apply shows_untouched. intros v. by apply preserves_update. }
  assert (forall m : in_session unit, shows before m -> shows before (_ ← m; aret Continue)) as Hret.
  { intros m Hm. eapply triple_bind; [exact Hm|]. intros u. by apply triple_ret. }
  unfold on_frame. destruct frame as [[header payload]|e].
  - eapply triple_bind; [apply Hact|]. intros u. apply Hret, shows_process_frame.
  - destruct (reset_error e); [|by apply triple_throw]. unfold on_reset.
    eapply triple_bind; [apply shows_count_reset|]. intros u.
    eapply triple_bind; [apply shows_untouched; intros v; by apply preserves_zoom|]. intros [intro reader].
    eapply triple_bind; [apply shows_untouched; intros v; by apply preserves_update|]. intros u1.
    eapply triple_bind; [apply Hact|]. intros u2. apply Hret, shows_process_frame.
Qed.

Lemma shows_on_audio_tick before : shows before on_audio_tick.
Proof.
  assert (forall c n, shows before (set_audio_capture c n)) as Hset.
  { intros c n. apply shows_untouched. intros v. by apply preserves_update. }
  unfold on_audio_tick. eapply triple_bind with (Q := fun _ => session_view_ok before); [by intros s Hs|].
  intros s0. destruct (audio_capture_send s0) as [send|]; [|by apply triple_ret].
  eapply triple_bind; [apply shows_now|]. intros ts.
  eapply triple_bind; [apply shows_untouched; intros v; apply preserves_local|]. intros [r send'].
  eapply triple_bind; [apply Hset|]. intros u.
  eapply triple_bind with (Q := fun _ => session_view_ok before).
  { apply triple_lift. intros s Hs. by destruct (map_err _ r). }
  intros u1. eapply triple_bind; [apply Hset|]. intros u2. by apply triple_ret.
Qed.

Lemma untouched_playback v r : preserves (fun s => viewer s = v) (on_playback_reader r).
Proof. by apply preserves_zoom. Qed.

Lemma shows_poll_arm before p now a : shows before (poll_arm p now a).
Proof.
  assert (forall E (f : session -> session), (forall s, viewer (f s) = viewer s) ->
    forall v, preserves (fun s => viewer s = v) (update (E := E) f)) as Hup.
  { intros E f Hf v. apply preserves_update. intros s. by rewrite Hf. }
  assert (forall E A (m : async Connection E A) v, preserves (fun s => viewer s = v) (on_connection m)) as Hco
    by (intros; by apply preserves_zoom).
  assert (forall E A (m : async Handshake.ControlChannel E A) v, preserves (fun s => viewer s = v) (on_control m)) as Hct
    by (intros; by apply preserves_zoom).
  assert (forall E A (m : async VideoSession.VideoFrameReader E A) v,
    preserves (fun s => viewer s = v) (on_frame_reader m)) as Hfr by (intros; by apply preserves_zoom).
  assert (forall E m v, preserves (fun s => viewer s = v) (on_forwarder (E := E) m)) as Hfo
    by (intros; by apply preserves_forwarder).
  destruct a; cbn [poll_arm].
  - apply shows_leave.
  - apply shows_untouched. intros v. unfold on_keepalive. preserve.
  - apply shows_select; [auto|]. intros r. apply shows_untouched. intros v. unfold on_control_msg. preserve.
    by apply Hup.
  - apply shows_select; [auto|]. intros r. apply shows_on_frame.
  - apply shows_timing.
  - apply shows_select.
    + intros v s Hs. unfold next_window_input. destruct (window_input s) as [[|e q]|]; [|done..].
      by destruct (window_speaks s).
    + intros r. apply shows_untouched. intros v. unfold on_window_input. preserve.
  - eapply triple_bind with (Q := fun _ => session_view_ok before); [|intros u; by apply triple_ret]. apply shows_viewer. intros got. exists got.
    apply ClientVideo.triple_tick.
  - apply shows_on_audio_tick.
  - eapply triple_bind with (Q := fun _ => session_view_ok before); [by intros s Hs|]. intros s.
    destruct (audio_playback_reader s); [by apply triple_ret|]. apply shows_select; [auto|].
    intros r. apply shows_untouched. intros v. unfold on_playback_accepted. preserve. by apply Hup.
  - eapply triple_bind with (Q := fun _ => session_view_ok before); [by intros s Hs|]. intros s.
    destruct (audio_playback_reader s) as [r|]; [|by apply triple_ret].
    apply shows_select; [intros v; apply untouched_playback|].
    intros r'. apply shows_untouched. intros v. unfold on_playback_frame. preserve; by apply Hup.
  - apply shows_select; [auto|]. intros r. apply shows_untouched. intros v. unfold on_clipboard, spawn. preserve.
    by apply Hup.
Qed.

Definition thread_turn (e : event) : DisplayWindow.worker_event :=
  match e with ThreadTurn e => e | _ => DisplayWindow.Quit end.

Lemma shows_step before p e : DisplayWindow.one_picture (thread_turn e) -> shows before (step p e).
Proof.
  intros He. destruct e as [now a|e|e]; cbn [step].
  - intros s Hs. destruct (turn_cases p now a s) as [[-> ->]|[_ ->]]; [by apply shows_leave|].
    destruct (_ <=? _); [|by apply shows_poll_arm].
    refine (shows_untouched before on_idle _ s Hs). intros v. unfold on_idle, close_gracefully.
    assert (forall t p, preserves (fun s => viewer s = v)
      (on_control (Handshake.on_send (write_envelope false t p)))) by (intros t p'; by apply preserves_zoom).
    assert (preserves (fun s => viewer s = v) (update (E := app_error) (with_closed true)))
      by (by apply preserves_update).
    preserve.
  - eapply triple_bind with (Q := fun _ => session_view_ok before); [|intros u; by apply triple_ret]. intros s (got & Hs). exists got.
    by apply ClientVideo.view_ok_window_turn.
  - eapply triple_bind with (Q := fun _ => session_view_ok before); [|intros u; by apply triple_ret]. apply shows_untouched. intros v. apply preserves_update.
    intros s Hs. destruct (window_input s); [|done]. by destruct (window_speaks s).
Qed.

(** ** Reaching the head of the loop *)

Inductive reaches (p : params) (s0 : session) : list event -> session -> Prop :=
| reaches_start : reaches p s0 [] s0
| reaches_step events s e s' :
    reaches p s0 events s -> step p e s = (Ready (Ok Continue), s') -> reaches p s0 (events ++ [e]) s'.

Lemma reaches_views before p s0 events s :
  reaches p s0 events s -> Forall (fun e => DisplayWindow.one_picture (thread_turn e)) events ->
  session_view_ok before s0 -> session_view_ok before s.
Proof.
  induction 1 as [|events s e s' _ IH Hstep]; [done|]. intros [He Hx]%Forall_app Hs.
  apply Forall_cons in Hx as [Hx _]. exact (triple_ok _ _ _ _ _ _ _ (shows_step before p e Hx) (IH He Hs) Hstep).
Qed.

Lemma run_finished p events s0 s' :
  run_loop p events s0 = (Ready (Ok tt), s') ->
  exists before e after s,
    events = before ++ e :: after /\ reaches p s0 before s /\ step p e s = (Ready (Ok Finished), s').
Proof.
  intros Hrun.
  assert (forall past s, reaches p s0 past s -> run_loop p events s = (Ready (Ok tt), s') ->
    exists before e after s1, past ++ events = before ++ e :: after /\ reaches p s0 before s1 /\
      step p e s1 = (Ready (Ok Finished), s')) as Hgen.
  { clear Hrun. induction events as [|e events IH]; intros past s Hp Hs; [done|].
    cbn [run_loop] in Hs. apply abind_inv in Hs as ([] & s1 & Hs & Hrest).
    - destruct (IH (past ++ [e]) s1) as (b & e' & a & s2 & Heq & H2'); [by eapply reaches_step|done|].
      exists b, e', a, s2. split; [|done]. rewrite <- Heq, <- app_assoc. done.
    - injection Hrest as <-. exists past, e, events, s. done. }
  apply (Hgen [] s0); [constructor|exact Hrun].
Qed.

(** ** Ending *)

#[local] Notation continues m := (triple (fun _ => True) m (fun f _ => f = Continue) any_error).

Lemma triple_nothing {S E A} P (m : async S E A) : triple P m (fun _ _ => True) any_error.
Proof. intros s _. by destruct (m s) as [[[x|e]| | |] s']. Qed.

Ltac continuing :=
  repeat (cbv beta zeta;
    lazymatch goal with
    | |- forall _, _ => intros ?
    | |- triple _ (_ ≫= _) _ _ => eapply triple_bind; [apply triple_nothing|]
    | |- triple _ (aret _) _ _ => by apply triple_ret
    | |- triple _ (athrow _) _ _ => by apply triple_throw
    | |- triple _ (match ?x with _ => _ end) _ _ => destruct x
    end).

Lemma continues_select {A E} (future : async session E A) handler :
  (forall r, continues (handler r)) -> continues (select future handler).
Proof.
  intros Hh s _. unfold select. destruct (future s) as [[r| | |] s']; try done. by apply Hh.
Qed.

Lemma continues_poll_arm p now a :
  match a with Shutdown | ControlArm | TimingArm => False | _ => True end -> continues (poll_arm p now a).
Proof.
  destruct a; intros Ha; try done; cbn [poll_arm].
  - unfold on_keepalive. continuing.
  - apply continues_select. unfold on_frame, on_reset. continuing.
  - apply continues_select. unfold on_window_input. continuing.
  - continuing.
  - unfold on_audio_tick. continuing.
  - eapply triple_bind; [apply triple_nothing|]. intros s. destruct (audio_playback_reader s); [continuing|].
    apply continues_select. unfold on_playback_accepted. continuing.
  - eapply triple_bind; [apply triple_nothing|]. intros s. destruct (audio_playback_reader s); [|continuing].
    apply continues_select. unfold on_playback_frame. continuing.
  - apply continues_select. unfold on_clipboard. continuing.
Qed.

(** The window has nothing more to report and never will. *)
Definition window_gone (s : session) : Prop :=
  exists w q b, ClientVideo.sink (viewer s) = ClientVideo.Window w q b /\
    DisplayWindow.timings w = [] /\ DisplayWindow.in_loop w = false.

(** The next message on the control stream is the server's [SessionClose]. *)
Definition server_closes (s : session) : Prop :=
  exists payload s1,
    on_control (Handshake.on_reader (read_envelope true (max_envelope_length Control))) s
    = (Ready (Ok (type_id.SESSION_CLOSE, payload)), s1).

Lemma leave_closes s s' : leave s = (Ready (Ok Finished), s') -> closed s' = true.
Proof.
  unfold leave. intros Hl. apply abind_inv in Hl as (x & s1 & _ & Hl). apply abind_inv in Hl as (y & s2 & Hc & Hl).
  injection Hl as <-. unfold close_gracefully in Hc. apply abind_inv in Hc as (z & s3 & _ & Hc).
  unfold update in Hc. by simplify_eq.
Qed.

Lemma idle_closes s s' : on_idle s = (Ready (Ok Finished), s') -> closed s' = true.
Proof.
  unfold on_idle. intros Hl. apply abind_inv in Hl as (y & s2 & Hc & Hl).
  injection Hl as <-. unfold close_gracefully in Hc. apply abind_inv in Hc as (z & s3 & _ & Hc).
  unfold update in Hc. by simplify_eq.
Qed.

Lemma timing_ends p s s' :
  select (on_viewer ClientVideo.next_window_timing) (on_timing p) s = (Ready (Ok Finished), s') ->
  window_gone s /\ closed s' = true.
Proof.
  unfold select, on_viewer, azoom, ClientVideo.next_window_timing, window_gone.
  destruct (ClientVideo.sink (viewer s)) as [|w q b] eqn:Ek; [done|].
  unfold DisplayWindow.next_timing. destruct (DisplayWindow.timings w) as [|t ts] eqn:Et.
  - destruct (DisplayWindow.in_loop w) eqn:El; [done|]. intros Hs. split; [by exists w, q, b|].
    by eapply leave_closes.
  - intros Hs. exfalso. unfold on_timing in Hs. apply abind_inv in Hs as (t' & s1 & Ht & Hs). injection Ht as <- <-.
    apply abind_inv in Hs as (u & s2 & _ & Hs). done.
Qed.

Lemma control_ends now s s' :
  select (on_control (Handshake.on_reader (read_envelope true (max_envelope_length Control)))) (on_control_msg now) s
    = (Ready (Ok Finished), s') -> server_closes s.
Proof.
  unfold select, server_closes. destruct (on_control _ s) as [[[[t payload]|e]| | |] s1]; try done.
  intros Hs. unfold on_control_msg in Hs. apply abind_inv in Hs as ([t' p'] & s2 & Hl & Hs). injection Hl as <- <- <-.
  apply abind_inv in Hs as (u & s3 & _ & Hs). destruct (t =? type_id.SESSION_CLOSE) eqn:Et; [|done].
  apply Z.eqb_eq in Et as ->. by eexists _, _.
Qed.

Lemma step_finished p e s s' :
  step p e s = (Ready (Ok Finished), s') ->
  exists now a, e = Turn now a /\
    ((closed s' = true /\
      (a = Shutdown \/ last_activity s + ConnectionSm.defaults.IDLE_TIMEOUT <= now \/ (a = TimingArm /\ window_gone s)))
     \/ (a = ControlArm /\ server_closes s)).
Proof.
  intros Hs. destruct e as [now a|e|e]; [|done..]. exists now, a. split; [done|]. cbn [step] in Hs.
  destruct (turn_cases p now a s) as [[-> Ht]|[Hne Ht]]; rewrite Ht in Hs.
  { left. split; [by eapply leave_closes|by left]. }
  destruct (_ <=? now) eqn:Ei.
  { left. split; [by eapply idle_closes|]. right. left. lia. }
  assert (match a with Shutdown | ControlArm | TimingArm => False | _ => True end -> False) as Hc.
  { intros Hc. pose proof (triple_ok _ _ _ _ _ _ _ (continues_poll_arm p now a Hc) I Hs). done. }
  destruct a; try (by destruct (Hc I)); [done|..].
  - right. split; [done|]. by eapply control_ends.
  - left. destruct (timing_ends p s s' Hs) as [Hw Hcl]. split; [done|]. by right; right.
Qed.

(** ** Setting up *)

Lemma triple_pure {S E A} (P : Prop) (m : async S E A) : triple (fun _ => P) m (fun _ _ => P) any_error.
Proof. intros s Hp. by destruct (m s) as [[[x|e]| | |] s']. Qed.

Lemma reauthenticated_active prior token uid :
  triple (fun _ => True) (Reconnection.client_reauthenticate prior token uid)
    (fun _ st => ConnectionSm.state st.2 = ConnectionSm.Active) any_error.
Proof.
  unfold Reconnection.client_reauthenticate. cbv zeta.
  do 4 (eapply triple_bind; [apply triple_nothing|intros ?]).
  match goal with |- context [let '(_, _) := ?x in _] => destruct x end.
  destruct (negb _); [by apply triple_throw|].
  eapply triple_bind; [apply triple_nothing|intros ar].
  destruct (status ar); [|by apply triple_throw..].
  eapply triple_bind; [apply triple_nothing|intros [ch sm]].
  intros st _. unfold ConnectionSm.resume. by destruct (ConnectionSm.state sm).
Qed.

Lemma reconnect_active saved sm :
  triple (fun _ => True) (reconnect saved sm)
    (fun r _ => ConnectionSm.state r.2 = ConnectionSm.Active) any_error.
Proof.
  intros s _. unfold reconnect, Reconnection.client_reconnect.
  destruct (amap_err Handshake.Quic open_bi (cl_connection s)) as [[[[send recv]|e]| | |] c]; try done.
  pose proof (reauthenticated_active (SessionFile.session_id saved) (SessionFile.reconnect_token saved)
    (of_chars (SessionFile.user_id saved))
    ({| Handshake.send := send; Handshake.reader := StreamReader.new recv |}, sm) I) as Hr.
  by destruct (Reconnection.client_reauthenticate _ _ _ _) as [[[x|e]| | |] [ch sm']].
Qed.

(** A resumed session is active as it is established. *)
Lemma establish_resumed a :
  triple (fun _ => True) (establish a)
    (fun e _ => is_resumed e = true -> ConnectionSm.state (connection_sm e) = ConnectionSm.Active) any_error.
Proof.
  unfold establish. eapply triple_bind; [apply triple_nothing|intros [saved|]].
  - eapply triple_bind; [apply triple_nothing|intros sm].
    eapply triple_bind; [apply triple_map_err; eapply triple_any, reconnect_active|].
    intros [[outcome control] sm']. apply triple_ret. by intros s Hs _.
  - eapply triple_bind; [apply triple_nothing|]. intros [[outcome sm] control]. by apply triple_ret.
Qed.

Lemma live_is_active e sm :
  (is_resumed e = true -> ConnectionSm.state (connection_sm e) = ConnectionSm.Active) ->
  channel_live e = Ok sm -> ConnectionSm.state sm = ConnectionSm.Active.
Proof.
  unfold channel_live. destruct (is_resumed e); [intros Hr [= <-]; by apply Hr|]. intros _.
  unfold ConnectionSm.on_channel_live. destruct (ConnectionSm.state (connection_sm e)); try done. by intros [= <-].
Qed.

(** A session as the loop finds it. *)
Definition ready (now : Z) (r : session * params * ConnectionSm.ConnectionSm) : Prop :=
  ConnectionSm.state r.2 = ConnectionSm.Active /\ closed r.1.1 = false /\ last_activity r.1.1 = now /\
  exists before i, ClientVideo.view_ok before [i] (viewer r.1.1).

Lemma sink_opened mode (wi : result string unit) sink :
  ClientVideo.open_sink mode (_ ← wi; Ok DisplayWindow.opened) = Done (Ok sink) ->
  sink = ClientVideo.Log \/ exists b, sink = ClientVideo.Window DisplayWindow.opened [] b.
Proof.
  unfold ClientVideo.open_sink. destruct mode; [intros [= <-]; by left|].
  destruct wi as [u|e]; [|done]. cbn. intros [= <-]. right. by eexists.
Qed.

Lemma set_up_triple a wi now : triple (fun _ => True) (set_up a wi now) (fun r _ => ready now r) any_error.
Proof.
  unfold set_up.
  eapply triple_bind; [apply establish_resumed|intros e].
  eapply triple_bind; [apply triple_pure|intros u].
  eapply triple_bind; [apply triple_pure|intros [ts control]].
  eapply triple_bind; [apply triple_pure|intros [intro reader]].
  eapply triple_bind with (Q := fun sm _ => ConnectionSm.state sm = ConnectionSm.Active).
  { apply triple_lift. intros s Hs. destruct (channel_live e) as [sm|x] eqn:El; [|done].
    by eapply live_is_active. }
  intros sm. eapply triple_bind; [apply triple_pure|intros feedback_send].
  apply triple_outcome_bind. intros sink Hopen.
  eapply triple_bind with (Q := fun k _ => ConnectionSm.state sm = ConnectionSm.Active /\ sink = Ok k).
  { apply triple_lift. intros s Hs. by destruct sink. }
  intros k. cbv zeta.
  eapply triple_bind; [apply triple_pure|intros [fwd wq]].
  eapply triple_bind; [apply triple_pure|intros s0].
  eapply triple_bind with (Q := fun r _ => ConnectionSm.state sm = ConnectionSm.Active /\
    exists before i, ClientVideo.view_ok before [i] r.2).
  { apply triple_local_try. intros s [Hsm ->]. apply sink_opened in Hopen.
    eapply triple_any, triple_post.
    - eapply triple_pre; [apply (ClientVideo.triple_process_frame clock decode_task (sent feedback_send) [])|].
      intros v ->. by refine (ClientVideo.view_ok_fresh _ _ _).
    - intros u' v Hv. split; [done|]. eexists _, _. exact Hv. }
  intros [u' v]. eapply triple_bind; [apply triple_pure|intros audio_send].
  eapply triple_bind; [apply triple_pure|intros s1].
  apply triple_ret. intros s [Hsm Hv]. by split_and!.
Qed.

(** * Properties *)

(** Waiting for the next instance terminates.  The retries of
    [accept_next_generation] need no bound of their own: accepting is one step of
    its loop followed by itself, since each instance that was reset has been taken
    off the connection. *)
Theorem accept_next_generation_terminates c :
  accept_next_generation c =
    match VideoSession.accept_video_instance_within true c with
    | (Ready (Ok accepted), c) => (Ready (Ok accepted), c)
    | (Ready (Err e), c) =>
        if reset_error e then accept_next_generation c else (Ready (Err (AppError.Video e)), c)
    | (Elapsed, c) => (Ready (Err (AppError.Violation PROTOCOL_VIDEO_CONFIGURING_TIMEOUT)), c)
    | (Pending, c) => (Pending, c)
    | (Crash, c) => (Crash, c)
    end.
Proof using Cbor5 Cbor6 Cbor7 ConnectError FrameError H JoinError clock decode_task input_clock is_reset.
  unfold accept_next_generation.
  rewrite (accept_loop_enough _ (S (length (uni_accepts c)))) by lia. cbn [accept_next_generation_loop].
  destruct (VideoSession.accept_video_instance_within true c) as [[[x|e]| | |] c'] eqn:E; try done.
  destruct (reset_error e) eqn:Ee; [|done].
  apply accept_loop_enough; [|done]. pose proof (reset_instance_shorter _ _ _ E Ee). lia.
Qed.

(** What a client says on the control stream.  Whatever happens to a session and
    however it ends, it has added a number of keepalives to its control stream and,
    when it has closed the connection, behind them one announcement of that, for no
    reason or for the idle timeout; a closed connection is always announced. *)
Theorem client_control_stream p events s0 :
  write_results (Handshake.send (control s0)) = [] -> closed s0 = false ->
  let s := (run_loop p events s0).2 in
  exists k, let said := sent (Handshake.send (control s0)) ++ concat (replicate k keepalive_bytes) in
    if closed s then
      exists reason, (reason = NONE \/ reason = TRANSPORT_IDLE_TIMEOUT) /\
        sent (Handshake.send (control s)) = said ++ close_bytes reason
    else sent (Handshake.send (control s)) = said.
Proof.
  intros Hw Hc s. apply (control_ok_run (sent (Handshake.send (control s0))) p events s0); [|exact Hc].
  split; [exact Hw|]. exists 0%nat. cbn. by rewrite Hc, app_nil_r.
Qed.

(** C16: A session ends in peace for four reasons.  The loop returns without an error
    only at a turn that the client's shutdown, the idle deadline or the closed
    window takes, and then the connection has been closed, or at one whose control
    message is the server's [SessionClose]. *)
Theorem client_end p events s0 s' :
  run_loop p events s0 = (Ready (Ok tt), s') ->
  exists before now a after s,
    events = before ++ Turn now a :: after /\ reaches p s0 before s /\
    ((closed s' = true /\
      (a = Shutdown \/ last_activity s + ConnectionSm.defaults.IDLE_TIMEOUT <= now \/ (a = TimingArm /\ window_gone s)))
     \/ (a = ControlArm /\ server_closes s)).
Proof.
  intros Hrun. destruct (run_finished p events s0 s' Hrun) as (before & e & after & s & -> & Hr & Hs).
  destruct (step_finished p e s s' Hs) as (now & a & -> & Ha). by exists before, now, a, after, s.
Qed.

(** C14: A session reports what it displays.  Let a client set its session up, fresh or
    resumed: its connection is active, and from there on, at every head of its
    loop, whatever happened in between with a decoder that gives at most one
    picture per access unit, what the feedback stream has got since is one report
    for each frame counted as displayed and one keyframe request for each counted as
    sent; and every frame counted as received is counted as stale, displayed or
    without output or waits for the window, while that is open (modulo [2^64]). *)
Theorem client_reports_frames a wi now c s0 p sm c' :
  set_up a wi now c = (Ready (Ok (s0, p, sm)), c') ->
  ConnectionSm.state sm = ConnectionSm.Active /\
  exists before, forall events s,
    reaches p s0 events s -> Forall (fun e => DisplayWindow.one_picture (thread_turn e)) events ->
    let v := viewer s in
    (exists ms, sent (ClientVideo.feedback_send v) = before ++ concat (map FeedbackSession.feedback_bytes ms) /\
      eqw 64 (ClientVideo.displayed (ClientVideo.stats v)) (Z.of_nat (length (omap ClientVideo.report_of ms))) /\
      eqw 64 (ClientVideo.keyframe_requests_sent (ClientVideo.stats v))
        (Z.of_nat (length (List.filter ClientVideo.is_request ms)))) /\
    match ClientVideo.sink v with
    | ClientVideo.Window w _ _ =>
        DisplayWindow.closed w = false ->
        ClientVideo.accounted (ClientVideo.stats v) (length (ClientVideo.waiting (ClientVideo.sink v)))
    | ClientVideo.Log => ClientVideo.accounted (ClientVideo.stats v) 0
    end.
Proof.
  intros Hset. pose proof (triple_ok _ _ _ _ _ _ _ (set_up_triple a wi now) I Hset) as (Hsm & _ & _ & before & i & Hv).
  split; [exact Hsm|]. exists before. intros events s Hr Hx v.
  destruct (reaches_views before p s0 events s Hr Hx ltac:(by exists [i])) as (got & shown & (ms & Hs & Ho & Hd & Hk) & Hsub & Hg & Hok).
  fold v in Hs, Hd, Hk, Hg, Hok. split.
  - exists ms. split; [exact Hs|]. rewrite Ho. by split.
  - destruct (ClientVideo.sink v) as [|w q b]; [exact Hok|]. cbn. rewrite length_map. by destruct Hok.
Qed.
End client_session.

(** ** Concrete runs *)

Module Examples.
#[local] Existing Instance plain_transport.
#[local] Existing Instance toy_sha256.
#[local] Existing Instance toy_ed25519.
#[local] Existing Instance toy_exporter.

(** A codec whose decoder knows one message only. *)
Definition only {T} (x : result unit T) : Cbor T := {| into_writer := fun _ => [7]; from_reader := fun _ => x |}.
#[local] Instance other_cbor {T} : Cbor T | 100 := only (Err tt).
#[local] Instance auth_cbor : Cbor AuthResult := only (Ok
  {| status := AuthOk; ar_reason := NONE; ar_session_id := [1]; ar_reconnect_token := [2];
     ar_granted_permissions := bit.VIEW |}).
#[local] Instance sync_cbor : Cbor TimeSyncResponse := only (Ok {| resp_t1 := 0; resp_t2 := 0; resp_t3 := 0 |}).
#[local] Instance generation_cbor : Cbor VideoStreamGeneration := only (Ok
  {| vsg_generation := 3; vsg_config_id := 0 |}).
#[local] Instance config_cbor : Cbor EncoderConfig := only (Ok
  {| ec_codec := H264; profile := 66; chroma_format := C420; bit_depth := 8; ec_width := 64; ec_height := 64;
     max_fps := 30; tier := 4; b_frames := 0; server_cursor_excludable := false |}).
#[local] Instance header_cbor : Cbor VideoFrameHeader := only (Ok
  {| vfh_generation := 3; frame_id := 1; vfh_config_id := 0; flags := 0; capture_ts := 100;
     encode_done_ts := 200; vfh_width := 64; vfh_height := 64; payload_len := 3 |}).

Definition silent : SendStream := {| sent := []; write_results := [] |}.
Definition frame (t : Z) : list Z := Envelope.frame t [7].
Definition prologue (k : StreamKind) : list Z :=
  match Prologue.encode k 1 0 [] with Done b => b | Panicked => [] end.

(** An instance with its first picture, and one that is reset. *)
Definition instance : accept_event :=
  AStream [RData (prologue Video ++ frame type_id.VIDEO_STREAM_GENERATION ++ frame type_id.ENCODER_CONFIG
    ++ frame type_id.VIDEO_FRAME_HEADER ++ Envelope.frame type_id.VIDEO_FRAME_PAYLOAD [1; 2; 3])] silent.
Definition instance_reset : accept_event := AStream [RData (prologue Video); RFail tt] silent.

(** The session file of a client that reconnects into a window. *)
Definition args : Args :=
  {| signing_key := 5; arg_user_id := "u"; device_id := "d"; client_name := "c"; arg_target_latency_us := 50000;
     session_file := Some (Some (SessionFile.format_saved_session
       {| SessionFile.session_id := replicate 16 1; SessionFile.reconnect_token := replicate 32 7;
          SessionFile.user_id := chars "u" |}));
     display := ClientVideo.WindowMode; window_size := (64, 64); input := false; input_script := false |}.

Definition connected (uni : list accept_event) : client :=
  {| cl_connection :=
       {| uni_accepts := uni; bi_accepts := []; uni_opens := [OStream silent []];
          bi_opens := [OStream silent [RData (frame type_id.AUTH_RESULT
            ++ concat (replicate 8 (frame type_id.TIME_SYNC_RESPONSE)))]];
          released := []; stopped_readers := [] |};
     cl_ticks := 0; session_file_written := None |}.

#[local] Notation set_up uni :=
  (set_up (ConnectError := unit) (FrameError := unit) (JoinError := unit) Z.of_nat (fun n => n) (fun _ _ _ => None)
     args (Ok tt) 0 (connected uni)).

(** The session a set-up leads to; [uni] are the streams that the server has opened
    behind the first instance. *)
Definition started (uni : list accept_event) : option (session * params) :=
  match (set_up (instance :: uni)).1 with Ready (Ok (s, p, _)) => Some (s, p) | _ => None end.

#[local] Notation step := (step (ConnectError := unit) (FrameError := unit) (JoinError := unit) Z.of_nat (fun n => n)
  (fun _ _ _ => None) (fun _ => true)).
#[local] Notation run_loop := (run_loop (ConnectError := unit) (FrameError := unit) (JoinError := unit) Z.of_nat
  (fun n => n) (fun _ _ _ => None) (fun _ => true)).

Definition starts (uni : list accept_event) (k : session -> params -> Prop) : Prop :=
  match started uni with Some (s, p) => k s p | None => False end.

(** The playback arm is polled while the server's next instance is the stream to
    accept, before the reset of the old one has arrived: it takes the stream, and
    the session is over. *)
Example playback_arm_takes_the_instance :
  starts [instance] (fun s p =>
    (step p (Turn 1 AcceptPlayback) s).1 = Ready (Err (AppError.Audio AudioSession.WrongStreamKind))).
Proof. by vm_compute. Qed.

(** Had the reset come first, the session would have gone on with the new
    instance, also past one that is reset in its turn. *)
Example reset_is_survived :
  starts [instance_reset; instance] (fun s p =>
    let s := with_frame_reader {| VideoSession.reader := StreamReader.new [RFail tt];
                                  VideoSession.pending_header := None |} s in
    let '(r, s) := step p (Turn 1 (FrameArm 2)) s in
    r = Ready (Ok Continue) /\ last_activity s = 2 /\ ClientVideo.resets (ClientVideo.stats (viewer s)) = 1 /\
    ClientVideo.received (ClientVideo.stats (viewer s)) = 2).
Proof. by vm_compute. Qed.

(** The playback stream's configuration has not arrived when another arm is ready:
    the stream is lost, and its next configuration is waited for in vain. *)
Example playback_stream_is_lost :
  starts [AStream [RData (prologue AudioPlayback); RElapsed; RData (frame type_id.AUDIO_CONFIG)] silent] (fun s p =>
    let '(r, s) := step p (Turn 1 AcceptPlayback) s in
    r = Ready (Ok Continue) /\ audio_playback_reader s = None /\ uni_accepts (connection s) = []).
Proof. by vm_compute. Qed.

(** Nothing has come for the idle timeout: the connection is closed, and the server
    told to end the session. *)
Example idle_client_closes :
  starts [] (fun s p =>
    let '(r, s') := step p (Turn ConnectionSm.defaults.IDLE_TIMEOUT KeepAliveTick) s in
    r = Ready (Ok Finished) /\ closed s' = true /\
    sent (Handshake.send (control s')) = sent (Handshake.send (control s)) ++ close_bytes TRANSPORT_IDLE_TIMEOUT).
Proof. by vm_compute. Qed.

Lemma client_control_stream_witness :
  starts [] (fun s0 p =>
    (write_results (Handshake.send (control s0)) = [] /\ closed s0 = false) /\
    let s := (run_loop p [Turn 1 KeepAliveTick; Turn 2 Shutdown] s0).2 in
    closed s = true /\
    exists k reason, (reason = NONE \/ reason = TRANSPORT_IDLE_TIMEOUT) /\
      sent (Handshake.send (control s))
      = (sent (Handshake.send (control s0)) ++ concat (replicate k keepalive_bytes)) ++ close_bytes reason).
Proof.
  unfold starts. destruct (started []) as [[s0 p]|] eqn:E; [|by vm_compute in E].
  pose proof E as E'. vm_compute in E'. injection E' as Es Ep.
  assert (write_results (Handshake.send (control s0)) = [] /\ closed s0 = false) as [Hw Hc] by (clear E; subst s0; split; reflexivity).
  split; [by split|].
  assert (closed (run_loop p [Turn 1 KeepAliveTick; Turn 2 Shutdown] s0).2 = true) as Hcl.
  { clear E Hw Hc. subst s0 p. vm_compute. reflexivity. }
  split; [exact Hcl|].
  clear E Es.
  pose proof (client_control_stream (ConnectError := unit) (FrameError := unit) (JoinError := unit) Z.of_nat
    (fun n => n) (fun _ _ _ => None) (fun _ => true) p [Turn 1 KeepAliveTick; Turn 2 Shutdown] s0 Hw Hc) as [k Hk].
  exists k. cbv zeta in Hk. by rewrite Hcl in Hk.
Defined.

(** Shut down after a keepalive. *)
Lemma client_end_witness :
  starts [] (fun s0 p => exists s',
    run_loop p [Turn 1 KeepAliveTick; Turn 2 Shutdown] s0 = (Ready (Ok tt), s') /\
    exists before now a after s,
      [Turn 1 KeepAliveTick; Turn 2 Shutdown] = before ++ Turn now a :: after /\
      (closed s' = true \/ (a = ControlArm /\ server_closes s))).
Proof.
  unfold starts. destruct (started []) as [[s0 p]|] eqn:E; [|by vm_compute in E].
  pose proof E as E'. vm_compute in E'. injection E' as Es Ep. clear E.
  destruct (run_loop p [Turn 1 KeepAliveTick; Turn 2 Shutdown] s0) as [r s'] eqn:Er.
  assert (r = Ready (Ok tt)) as -> by (change r with (r, s').1; rewrite <- Er; subst s0 p; vm_compute; reflexivity).
  exists s'. split; [reflexivity|]. clear Es Ep.
  destruct (client_end (ConnectError := unit) (FrameError := unit) (JoinError := unit) Z.of_nat
    (fun n => n) (fun _ _ _ => None) (fun _ => true) p [Turn 1 KeepAliveTick; Turn 2 Shutdown] s0 s' Er)
    as (before & now & a & after & s & Hev & _ & Ha).
  exists before, now, a, after, s. split; [exact Hev|]. destruct Ha as [[Hc _]|Ha]; [by left|by right].
Defined.

(** What the decoder answers for the first picture. *)
Definition first_picture : event :=
  ThreadTurn (DisplayWindow.Take 5
    {| DisplayWindow.created := Ok tt; DisplayWindow.sample_built := Ok tt; DisplayWindow.input_taken := Ok tt;
       DisplayWindow.outputs := [DisplayWindow.Sample (Ok tt) true (Ok tt) 6 7];
       DisplayWindow.last_output := Ok tt |}).

(** A resumed session whose window has decoded its first picture. *)
Lemma client_reports_frames_witness :
  exists s0 p sm c', set_up [instance] = (Ready (Ok (s0, p, sm)), c') /\
    ConnectionSm.state sm = ConnectionSm.Active /\
    exists before ms, let v := viewer (step p first_picture s0).2 in
      sent (ClientVideo.feedback_send v) = before ++ concat (map FeedbackSession.feedback_bytes ms) /\
      eqw 64 (ClientVideo.displayed (ClientVideo.stats v)) (Z.of_nat (length (omap ClientVideo.report_of ms))).
Proof.
  destruct (set_up [instance]) as [r c'] eqn:E. pose proof E as E'. vm_compute in E'. injection E' as Er Ec.
  destruct r as [[[[s0 p] sm]|?]| | |]; [|discriminate Er..].
  exists s0, p, sm, c'. split; [reflexivity|].
  destruct (client_reports_frames (ConnectError := unit) (FrameError := unit) (JoinError := unit) Z.of_nat
    (fun n => n) (fun _ _ _ => None) (fun _ => true) args (Ok tt) 0 _ s0 p sm c' E) as [Hsm [before Hb]].
  split; [exact Hsm|]. exists before. clear E.
  assert (reaches (ConnectError := unit) (FrameError := unit) (JoinError := unit) Z.of_nat (fun n => n)
    (fun _ _ _ => None) (fun _ => true) p s0 [first_picture] (step p first_picture s0).2) as Hr.
  { apply (reaches_step _ _ _ _ p s0 [] s0 first_picture); [constructor|reflexivity]. }
  destruct (Hb [first_picture] _ Hr) as [(ms & Hs & Hd & _) _]; [by repeat constructor|].
  exists ms. by split.
Defined.
End Examples.
