(* ===== verification/Unicode.v ===== *)
(** Text as the back ends see it: what the source uses of Rust's [String] and
    [char].  A [String] is its UTF-8 bytes; a [char] is its number. *)

From S2P Require Import Prelude.

(** * Definitions *)

(** The values of [char]. *)
Definition is_scalar (c : Z) : bool :=
  ((0 <=? c) && (c <? 0xD800)) || ((0xE000 <=? c) && (c <=? 0x10FFFF)).

(** [char::from_u32]. *)
Definition from_u32 (u : Z) : option Z := if is_scalar u then Some u else None.

(** [char::is_control]: the category Cc. *)
Definition is_control (c : Z) : bool := (c <? 0x20) || ((0x7F <=? c) && (c <=? 0x9F)).

(** ** UTF-8 *)

Definition utf8_encode (c : Z) : list Z :=
  if c <? 0x80 then [c]
  else if c <? 0x800 then [0xC0 + c / 64; 0x80 + c `mod` 64]
  else if c <? 0x10000 then [0xE0 + c / 4096; 0x80 + (c / 64) `mod` 64; 0x80 + c `mod` 64]
  else [0xF0 + c / 262144; 0x80 + (c / 4096) `mod` 64; 0x80 + (c / 64) `mod` 64; 0x80 + c `mod` 64].

(** [str::chars] on the bytes of a [str], which are UTF-8. *)
Fixpoint utf8_chars (bs : list Z) : list Z :=
  match bs with
  | b0 :: bs1 =>
      if b0 <? 0x80 then b0 :: utf8_chars bs1
      else
        match bs1 with
        | b1 :: bs2 =>
            if b0 <? 0xE0 then ((b0 - 0xC0) * 64 + (b1 - 0x80)) :: utf8_chars bs2
            else
              match bs2 with
              | b2 :: bs3 =>
                  if b0 <? 0xF0
                  then ((b0 - 0xE0) * 4096 + (b1 - 0x80) * 64 + (b2 - 0x80)) :: utf8_chars bs3
                  else
                    match bs3 with
                    | b3 :: bs4 =>
                        ((b0 - 0xF0) * 262144 + (b1 - 0x80) * 4096 + (b2 - 0x80) * 64 + (b3 - 0x80))
                        :: utf8_chars bs4
                    | [] => []
                    end
              | [] => []
              end
        | [] => []
        end
  | [] => []
  end.

Definition string_of_bytes (bs : list Z) : string :=
  String.string_of_list_ascii (map (fun b => Ascii.ascii_of_N (Z.to_N b)) bs).

(** [String::from_iter]; [char::to_string] of one. *)
Definition string_of (cs : list Z) : string := string_of_bytes (flat_map utf8_encode cs).

(** [str::chars]; [Prelude.chars] gives the bytes. *)
Definition chars_of (s : string) : list Z := utf8_chars (chars s).

(** ** UTF-16 *)

Definition is_high (u : Z) : bool := (0xD800 <=? u) && (u <=? 0xDBFF).
Definition is_low (u : Z) : bool := (0xDC00 <=? u) && (u <=? 0xDFFF).

Definition utf16_encode (c : Z) : list Z :=
  if c <? 0x10000 then [c]
  else [0xD800 + (c - 0x10000) / 1024; 0xDC00 + (c - 0x10000) `mod` 1024].

(** [str::encode_utf16]. *)
Definition encode_utf16 (cs : list Z) : list Z := flat_map utf16_encode cs.

Definition surrogate_pair (high low : Z) : Z := 0x10000 + (high - 0xD800) * 1024 + (low - 0xDC00).

(** [char::decode_utf16]; [None] is a surrogate without its other half. *)
Fixpoint decode_utf16 (us : list Z) : list (option Z) :=
  match us with
  | [] => []
  | u :: us1 =>
      if negb (is_high u || is_low u) then Some u :: decode_utf16 us1
      else if is_low u then None :: decode_utf16 us1
      else
        match us1 with
        | v :: us2 =>
            if is_low v then Some (surrogate_pair u v) :: decode_utf16 us2 else None :: decode_utf16 us1
        | [] => [None]
        end
  end.

(** The [chars] of [String::from_utf16_lossy]. *)
Definition from_utf16_lossy (us : list Z) : list Z := map (default 0xFFFD) (decode_utf16 us).

(** * Lemmas *)

Lemma is_scalar_iff c : is_scalar c = true <-> 0 <= c < 0xD800 \/ 0xE000 <= c <= 0x10FFFF.
Proof. unfold is_scalar. rewrite orb_true_iff, !andb_true_iff. lia. Qed.

Lemma chars_string_of_bytes bs : bytes_ok bs -> chars (string_of_bytes bs) = bs.
Proof.
  unfold chars, string_of_bytes. rewrite String.list_ascii_of_string_of_list_ascii.
  induction 1 as [|b bs Hb _ IH]; [done|]. cbn [map]. rewrite IH. f_equal. widths.
  rewrite Ascii.N_ascii_embedding; lia.
Qed.

Lemma utf8_encode_ok c : is_scalar c = true -> bytes_ok (utf8_encode c).
Proof.
  rewrite is_scalar_iff. intros Hc. unfold utf8_encode, bytes_ok.
  zcases; repeat constructor; widths; lia.
Qed.

Lemma utf8_chars_encode c bs : is_scalar c = true -> utf8_chars (utf8_encode c ++ bs) = c :: utf8_chars bs.
Proof.
  rewrite is_scalar_iff. intros Hc. unfold utf8_encode.
  zcases; cbn [app utf8_chars]; zcases; try lia; f_equal; lia.
Qed.

Lemma string_of_bytes_ok cs : Forall (fun c => is_scalar c = true) cs -> bytes_ok (flat_map utf8_encode cs).
Proof.
  induction 1 as [|c cs Hc _ IH]; [constructor|]. apply bytes_ok_app. split; [by apply utf8_encode_ok|done].
Qed.

(** Text survives its way through a [String]. *)
Lemma chars_of_string_of cs : Forall (fun c => is_scalar c = true) cs -> chars_of (string_of cs) = cs.
Proof.
  intros Hcs. unfold chars_of, string_of. rewrite chars_string_of_bytes by by apply string_of_bytes_ok.
  induction Hcs as [|c cs Hc _ IH]; [done|]. cbn [flat_map]. rewrite utf8_chars_encode by done. by rewrite IH.
Qed.

Lemma surrogate_pair_scalar u v :
  is_high u = true -> is_low v = true -> is_scalar (surrogate_pair u v) = true.
Proof. unfold is_high, is_low, surrogate_pair. rewrite is_scalar_iff, !andb_true_iff. lia. Qed.

Lemma utf16_surrogate_pair u v :
  is_high u = true -> is_low v = true -> utf16_encode (surrogate_pair u v) = [u; v].
Proof.
  unfold is_high, is_low, utf16_encode, surrogate_pair. rewrite !andb_true_iff. intros.
  destruct (Z.ltb_spec (0x10000 + (u - 0xD800) * 1024 + (v - 0xDC00)) 0x10000); [lia|].
  f_equal; [|f_equal]; lia.
Qed.

Lemma decode_encode c us :
  is_scalar c = true -> decode_utf16 (utf16_encode c ++ us) = Some c :: decode_utf16 us.
Proof.
  rewrite is_scalar_iff. intros Hc. unfold utf16_encode. zcases; cbn [app decode_utf16].
  - unfold is_high, is_low. zcases; cbn; (reflexivity || lia).
  - unfold is_high, is_low, surrogate_pair. zcases; cbn; try lia. do 2 f_equal. lia.
Qed.

(** UTF-16 loses nothing. *)
Lemma decode_encode_utf16 cs :
  Forall (fun c => is_scalar c = true) cs -> decode_utf16 (encode_utf16 cs) = map Some cs.
Proof.
  induction 1 as [|c cs Hc _ IH]; [done|]. unfold encode_utf16. cbn [flat_map map].
  rewrite decode_encode by done. by rewrite <- IH.
Qed.

Lemma from_utf16_lossy_encode cs :
  Forall (fun c => is_scalar c = true) cs -> from_utf16_lossy (encode_utf16 cs) = cs.
Proof.
  intros Hcs. unfold from_utf16_lossy. rewrite decode_encode_utf16, map_map by done. apply map_id.
Qed.

(** One step of the decoder, by the unit it is at. *)
Lemma decode_plain u us :
  is_high u = false -> is_low u = false -> decode_utf16 (u :: us) = Some u :: decode_utf16 us.
Proof. intros Hh Hl. cbn [decode_utf16]. by rewrite Hh, Hl. Qed.

Lemma decode_low u us : is_low u = true -> decode_utf16 (u :: us) = None :: decode_utf16 us.
Proof. intros Hl. cbn [decode_utf16]. by rewrite Hl, orb_true_r. Qed.

Lemma high_not_low u : is_high u = true -> is_low u = false.
Proof. unfold is_high, is_low. rewrite andb_true_iff, andb_false_iff. lia. Qed.

Lemma decode_pair u v us :
  is_high u = true -> is_low v = true ->
  decode_utf16 (u :: v :: us) = Some (surrogate_pair u v) :: decode_utf16 us.
Proof. intros Hh Hl. cbn [decode_utf16]. by rewrite Hh, Hl, (high_not_low _ Hh). Qed.

Lemma decode_high u v us :
  is_high u = true -> is_low v = false -> decode_utf16 (u :: v :: us) = None :: decode_utf16 (v :: us).
Proof.
  intros Hh Hl. change (decode_utf16 (u :: v :: us)) with
    (if negb (is_high u || is_low u) then Some u :: decode_utf16 (v :: us)
     else if is_low u then None :: decode_utf16 (v :: us)
     else if is_low v then Some (surrogate_pair u v) :: decode_utf16 us else None :: decode_utf16 (v :: us)).
  by rewrite Hh, Hl, (high_not_low _ Hh).
Qed.

(** What decoding finds are characters. *)
Lemma decode_utf16_scalar us :
  Forall is_u16 us -> Forall (fun c => is_scalar c = true) (omap id (decode_utf16 us)).
Proof.
  assert (forall u, is_u16 u -> negb (is_high u || is_low u) = true -> is_scalar u = true) as Hplain.
  { intros u. rewrite is_scalar_iff. unfold is_high, is_low. widths. intros Hu.
    rewrite negb_true_iff, orb_false_iff, !andb_false_iff. lia. }
  induction us as [us IH] using (induction_ltof1 _ (@length Z)); unfold ltof in IH. intros Hus.
  destruct Hus as [|u us1 Hu Hus1]; [constructor|]. cbn [decode_utf16].
  destruct (negb (is_high u || is_low u)) eqn:Ep.
  { cbn. constructor; [by apply Hplain|]. apply IH; [cbn; lia|done]. }
  destruct (is_low u) eqn:El; [apply IH; [cbn; lia|done]|].
  assert (is_high u = true) as Hh by by destruct (is_high u).
  destruct Hus1 as [|v us2 Hv Hus2]; [constructor|]. destruct (is_low v) eqn:Elv.
  - cbn. constructor; [by apply surrogate_pair_scalar|]. apply IH; [cbn; lia|done].
  - apply IH; [cbn; lia|by constructor].
Qed.
