(* ===== verification/KeyTable.v ===== *)
(** Two-way lookups in a table of key codes: the shape [sardp-win/src/keymap.rs]
    and [sardp-mac/src/keymap.rs] share.  A back end's table is an instance;
    what its two lookups promise each other is proved here. *)

From S2P Require Import Prelude.

(** * Definitions *)

(** A table of HID usages and platform codes, without duplicates on either
    side. *)
Class KeyTable (code : Type) `{EqDecision code} := {
  entries : list (Z * code);
  no_duplicate_usage : NoDup (map fst entries);
  no_duplicate_code : NoDup (map snd entries);
}.
#[global] Hint Mode KeyTable + - : typeclass_instances.

(** [iter().find(..)]. *)
Fixpoint find {A} (f : A -> bool) (l : list A) : option A :=
  match l with
  | [] => None
  | x :: l => if f x then Some x else find f l
  end.

Definition code_of {code} `{KeyTable code} (hid_usage : Z) : option code :=
  snd <$> find (fun e => e.1 =? hid_usage) entries.

Definition usage_of {code} `{KeyTable code} (c : code) : option Z :=
  fst <$> find (fun e => bool_decide (e.2 = c)) entries.

(** * Lemmas *)

(** [find] by a key that no two elements share. *)
Lemma find_unique {A K} (key : A -> K) (f : A -> bool) (l : list A) (k : K) :
  (forall x, f x = true <-> key x = k) -> NoDup (map key l) ->
  forall x, find f l = Some x <-> x ∈ l /\ key x = k.
Proof.
  intros Hf. induction l as [|y l IH]; intros Hnd x.
  - cbn. split; [done|]. intros [Hx _]. by apply not_elem_of_nil in Hx.
  - cbn [map] in Hnd. apply NoDup_cons in Hnd as [Hy Hnd]. cbn [find].
    destruct (f y) eqn:Hfy.
    + apply Hf in Hfy. split; [intros [= <-]; split; [left|done]|].
      intros [Hx Hk]. apply elem_of_cons in Hx as [->|Hx]; [done|]. exfalso. apply Hy.
      rewrite Hfy, <- Hk. by apply (list_elem_of_fmap_2 key).
    + rewrite IH by done. rewrite elem_of_cons. split; [tauto|]. intros [[->|Hx] Hk]; [|tauto].
      apply Hf in Hk. congruence.
Qed.

Section lookups.
Context {code : Type} `{KeyTable code}.

Lemma code_of_spec hid_usage (c : code) : code_of hid_usage = Some c <-> (hid_usage, c) ∈ entries.
Proof.
  unfold code_of. rewrite fmap_Some. setoid_rewrite (find_unique fst _ entries hid_usage); last first.
  { apply no_duplicate_usage. } { intros [h c']. cbn. apply Z.eqb_eq. }
  split; [by intros ([h c'] & [Hin <-] & ->)|]. intros Hin. by exists (hid_usage, c).
Qed.

Lemma usage_of_spec hid_usage (c : code) : usage_of c = Some hid_usage <-> (hid_usage, c) ∈ entries.
Proof.
  unfold usage_of. rewrite fmap_Some. setoid_rewrite (find_unique snd _ entries c); last first.
  { apply no_duplicate_code. } { intros [h c']. cbn. apply bool_decide_eq_true. }
  split; [by intros ([h c'] & [Hin <-] & ->)|]. intros Hin. by exists (hid_usage, c).
Qed.

(** The two lookups undo each other. *)
Lemma code_usage hid_usage (c : code) : code_of hid_usage = Some c <-> usage_of c = Some hid_usage.
Proof. by rewrite code_of_spec, usage_of_spec. Qed.
End lookups.
