(* ===== verification/WinKeymap.v ===== *)
(** HID usages and Windows scan codes: the model of
    [src/sardp-win/src/keymap.rs]. *)

From S2P Require Import Prelude.
From S2P Require Import KeyTable.

(** * Definitions *)

(** Usage, then scan code and the extended flag. *)
Definition TABLE : list (Z * (Z * bool)) :=
  [(0x04, (0x1E, false)); (0x05, (0x30, false)); (0x06, (0x2E, false)); (0x07, (0x20, false));
   (0x08, (0x12, false)); (0x09, (0x21, false)); (0x0A, (0x22, false)); (0x0B, (0x23, false));
   (0x0C, (0x17, false)); (0x0D, (0x24, false)); (0x0E, (0x25, false)); (0x0F, (0x26, false));
   (0x10, (0x32, false)); (0x11, (0x31, false)); (0x12, (0x18, false)); (0x13, (0x19, false));
   (0x14, (0x10, false)); (0x15, (0x13, false)); (0x16, (0x1F, false)); (0x17, (0x14, false));
   (0x18, (0x16, false)); (0x19, (0x2F, false)); (0x1A, (0x11, false)); (0x1B, (0x2D, false));
   (0x1C, (0x15, false)); (0x1D, (0x2C, false)); (0x1E, (0x02, false)); (0x1F, (0x03, false));
   (0x20, (0x04, false)); (0x21, (0x05, false)); (0x22, (0x06, false)); (0x23, (0x07, false));
   (0x24, (0x08, false)); (0x25, (0x09, false)); (0x26, (0x0A, false)); (0x27, (0x0B, false));
   (0x28, (0x1C, false)); (0x29, (0x01, false)); (0x2A, (0x0E, false)); (0x2B, (0x0F, false));
   (0x2C, (0x39, false)); (0x2D, (0x0C, false)); (0x2E, (0x0D, false)); (0x2F, (0x1A, false));
   (0x30, (0x1B, false)); (0x31, (0x2B, false)); (0x33, (0x27, false)); (0x34, (0x28, false));
   (0x35, (0x29, false)); (0x36, (0x33, false)); (0x37, (0x34, false)); (0x38, (0x35, false));
   (0x39, (0x3A, false)); (0x3A, (0x3B, false)); (0x3B, (0x3C, false)); (0x3C, (0x3D, false));
   (0x3D, (0x3E, false)); (0x3E, (0x3F, false)); (0x3F, (0x40, false)); (0x40, (0x41, false));
   (0x41, (0x42, false)); (0x42, (0x43, false)); (0x43, (0x44, false)); (0x44, (0x57, false));
   (0x45, (0x58, false)); (0x46, (0x37, true)); (0x47, (0x46, false)); (0x49, (0x52, true));
   (0x4A, (0x47, true)); (0x4B, (0x49, true)); (0x4C, (0x53, true)); (0x4D, (0x4F, true));
   (0x4E, (0x51, true)); (0x4F, (0x4D, true)); (0x50, (0x4B, true)); (0x51, (0x50, true));
   (0x52, (0x48, true)); (0x53, (0x45, false)); (0x54, (0x35, true)); (0x55, (0x37, false));
   (0x56, (0x4A, false)); (0x57, (0x4E, false)); (0x58, (0x1C, true)); (0x59, (0x4F, false));
   (0x5A, (0x50, false)); (0x5B, (0x51, false)); (0x5C, (0x4B, false)); (0x5D, (0x4C, false));
   (0x5E, (0x4D, false)); (0x5F, (0x47, false)); (0x60, (0x48, false)); (0x61, (0x49, false));
   (0x62, (0x52, false)); (0x63, (0x53, false)); (0x64, (0x56, false)); (0x65, (0x5D, true));
   (0x67, (0x59, false)); (0x68, (0x64, false)); (0x69, (0x65, false)); (0x6A, (0x66, false));
   (0x6B, (0x67, false)); (0x6C, (0x68, false)); (0x6D, (0x69, false)); (0x6E, (0x6A, false));
   (0x6F, (0x6B, false)); (0x70, (0x6C, false)); (0x71, (0x6D, false)); (0x72, (0x6E, false));
   (0x73, (0x76, false)); (0x87, (0x73, false)); (0x88, (0x70, false)); (0x89, (0x7D, false));
   (0x8A, (0x79, false)); (0x8B, (0x7B, false)); (0x90, (0x72, false)); (0x91, (0x71, false));
   (0xE0, (0x1D, false)); (0xE1, (0x2A, false)); (0xE2, (0x38, false)); (0xE3, (0x5B, true));
   (0xE4, (0x1D, true)); (0xE5, (0x36, false)); (0xE6, (0x38, true)); (0xE7, (0x5C, true))].

Lemma win_usages_unique : NoDup (map fst TABLE).
Proof. apply (bool_decide_unpack _). vm_compute. exact I. Qed.

Lemma win_codes_unique : NoDup (map snd TABLE).
Proof. apply (bool_decide_unpack _). vm_compute. exact I. Qed.

#[export] Instance table : KeyTable (Z * bool) :=
  {| entries := TABLE; no_duplicate_usage := win_usages_unique; no_duplicate_code := win_codes_unique |}.

Definition hid_to_scancode (hid_usage : Z) : option (Z * bool) := code_of hid_usage.

Definition scancode_to_hid (scancode : Z) (extended : bool) : option Z := usage_of (scancode, extended).

#[global] Arguments hid_to_scancode : simpl never.
#[global] Arguments scancode_to_hid : simpl never.

(** * Lemmas *)

(** A scan code fits the eight bits of a key message. *)
Lemma scancode_u8 hid_usage scancode extended :
  hid_to_scancode hid_usage = Some (scancode, extended) -> 0 <= scancode < 0x100.
Proof.
  unfold hid_to_scancode. rewrite code_of_spec. intros Hin.
  assert (Forall (fun e => 0 <= e.2.1 < 0x100) TABLE) as Hall.
  { apply (bool_decide_unpack _). vm_compute. exact I. }
  by apply (proj1 (Forall_forall _ _) Hall _ Hin).
Qed.

(** A key has one scan code, and a scan code one key. *)
Lemma scancode_hid hid_usage scancode extended :
  hid_to_scancode hid_usage = Some (scancode, extended) <->
  scancode_to_hid scancode extended = Some hid_usage.
Proof. apply code_usage. Qed.
