(* ===== verification/WorkerHandle.v ===== *)
(** A worker thread fed through a channel and joined on drop: the model of
    [src/src/worker_handle.rs].  The thread is the loop both injectors run,
    [for item in rx]; what it does with an item is a parameter. *)

From S2P Require Import Prelude.

(** * Definitions *)

Section worker_handle.
Context {T St : Type}.

(** What the thread does with an item; [None] is a panic. *)
Variable body : T -> St -> option St.

(** The thread: in its loop, returned from it, or panicked. *)
Inductive thread := Looping (s : St) | Returned (s : St) | Dead.

(** [queue] is what is in the channel; [tx] and [worker] are the handle's
    options, [worker] standing for a [JoinHandle] not yet joined. *)
Record WorkerHandle := { tx : bool; queue : list T; worker : bool; loop : thread }.

(** The channel, the thread and the handle over both. *)
Definition new (s : St) : WorkerHandle :=
  {| tx := true; queue := []; worker := true; loop := Looping s |}.

(** The thread holds the receiver until it ends. *)
Definition receiver_live (h : WorkerHandle) : bool :=
  match loop h with Looping _ => true | _ => false end.

(** [Err] gives the item back; the [expect] is the panic. *)
Definition send (item : T) (h : WorkerHandle) : outcome (result T unit * WorkerHandle) :=
  if negb (tx h) then Panicked
  else if receiver_live h then
    Done (Ok tt, {| tx := tx h; queue := queue h ++ [item]; worker := worker h; loop := loop h |})
  else Done (Err item, h).

(** One turn of the thread: the next item; with the channel empty it waits, and
    returns once the sender is gone. *)
Definition turn (h : WorkerHandle) : WorkerHandle :=
  match loop h with
  | Looping s =>
      match queue h with
      | item :: rest =>
          match body item s with
          | Some s => {| tx := tx h; queue := rest; worker := worker h; loop := Looping s |}
          | None => {| tx := tx h; queue := []; worker := worker h; loop := Dead |}
          end
      | [] => if tx h then h else {| tx := tx h; queue := []; worker := worker h; loop := Returned s |}
      end
  | _ => h
  end.

(** [join]: turns until the thread has ended. *)
Fixpoint join (fuel : nat) (h : WorkerHandle) : option WorkerHandle :=
  if receiver_live h then
    match fuel with O => None | S fuel => join fuel (turn h) end
  else Some h.

(** [Drop::drop]. *)
Definition drop (fuel : nat) (h : WorkerHandle) : option WorkerHandle :=
  let h := {| tx := false; queue := queue h; worker := worker h; loop := loop h |} in
  if worker h then
    h ← join fuel h;
    Some {| tx := tx h; queue := queue h; worker := false; loop := loop h |}
  else Some h.

(** ** Runs *)

(** The caller and the thread, interleaved. *)
Inductive op := Send (item : T) | Turn.

Definition step (o : op) (h : WorkerHandle) : WorkerHandle :=
  match o with
  | Send item => match send item h with Done (_, h) => h | Panicked => h end
  | Turn => turn h
  end.

Definition run (ops : list op) (h : WorkerHandle) : WorkerHandle := fold_left (fun h o => step o h) ops h.

Definition sent (ops : list op) : list T := omap (fun o => match o with Send i => Some i | Turn => None end) ops.

(** * Specification *)

(** The items one after the other. *)
Definition in_order (items : list T) (s : St) : option St :=
  fold_left (fun o i => o ≫= body i) items (Some s).

(** The thread is [done] items into [items], the rest are queued. *)
Definition on_track (s0 : St) (items : list T) (h : WorkerHandle) : Prop :=
  tx h = true /\ worker h = true /\
  exists done s, items = done ++ queue h /\ in_order done s0 = Some s /\ loop h = Looping s.

(** * Lemmas *)

Lemma in_order_snoc items i s : in_order (items ++ [i]) s = in_order items s ≫= body i.
Proof. unfold in_order. by rewrite fold_left_snoc. Qed.

Lemma in_order_app items items' s : in_order (items ++ items') s = in_order items s ≫= in_order items'.
Proof.
  induction items' as [|i items' IH] using rev_ind.
  - rewrite app_nil_r. by destruct (in_order items s).
  - rewrite app_assoc, in_order_snoc, IH. destruct (in_order items s) as [x|]; [|done]. cbn.
    by rewrite in_order_snoc.
Qed.

Lemma in_order_cons i items s : in_order (i :: items) s = body i s ≫= in_order items.
Proof. exact (in_order_app [i] items s). Qed.

Lemma in_order_prefix items items' s : is_Some (in_order (items ++ items') s) -> is_Some (in_order items s).
Proof. rewrite in_order_app. destruct (in_order items s); [by eexists|]. by intros [? ?]. Qed.

Lemma on_track_run s0 ops :
  is_Some (in_order (sent ops) s0) -> on_track s0 (sent ops) (run ops (new s0)).
Proof.
  unfold run. induction ops as [|o ops IH] using rev_ind; intros Hok.
  { split_and!; [done|done|]. by exists [], s0. }
  rewrite fold_left_snoc. unfold sent in *. rewrite omap_app in Hok |- *. fold (sent ops) in *.
  destruct (IH (in_order_prefix _ _ _ Hok)) as (Htx & Hw & dn & s & Hi & Hd & Hl).
  set (h := fold_left (fun h o => step o h) ops (new s0)) in *. destruct o as [item|]; cbn [omap list_omap] in *.
  - cbn [step]. unfold send, receiver_live. rewrite Htx, Hl. cbn. split_and!; [done|done|].
    exists dn, s. split_and!; [|done|done]. cbn. by rewrite Hi, app_assoc.
  - rewrite app_nil_r in Hok |- *. cbn [step]. unfold turn. rewrite Hl. destruct (queue h) as [|item rest] eqn:Eq.
    + rewrite Htx. split_and!; [done|done|]. exists dn, s. by rewrite Eq.
    + pose proof Hok as Hok'. rewrite Hi in Hok'.
      rewrite (cons_middle item dn rest), app_assoc in Hok'. apply in_order_prefix in Hok'.
      rewrite in_order_snoc, Hd in Hok'. cbn in Hok'. destruct Hok' as [s' Hs'].
      rewrite Hs'. split_and!; [done|done|]. exists (dn ++ [item]), s'. cbn. split_and!; [|by rewrite in_order_snoc, Hd|done].
      by rewrite Hi, <- app_assoc.
Qed.

(** [join] on a thread whose channel is closed. *)
Lemma join_returns fuel q s s' :
  in_order q s = Some s' -> (length q < fuel)%nat ->
  join fuel {| tx := false; queue := q; worker := true; loop := Looping s |}
  = Some {| tx := false; queue := []; worker := true; loop := Returned s' |}.
Proof.
  revert q s. induction fuel as [|fuel IH]; intros q s Hq Hf; [lia|]. cbn [join receiver_live loop].
  destruct q as [|item q]; cbn [turn loop queue tx worker].
  - injection Hq as <-. by destruct fuel.
  - rewrite in_order_cons in Hq. destruct (body item s) as [s1|] eqn:Eb; [|done]. apply IH; [done|cbn in Hf; lia].
Qed.

(** However sends and the thread interleave, and wherever the thread is when the
    handle is dropped, the drop ends, and by then every item sent has been worked
    on, in the order of the sends. *)
Lemma dropped_in_order s0 ops s :
  in_order (sent ops) s0 = Some s ->
  exists fuel, drop fuel (run ops (new s0)) = Some {| tx := false; queue := []; worker := false; loop := Returned s |}.
Proof.
  intros Hs. destruct (on_track_run s0 ops) as (_ & Hw & dn & s1 & Hi & Hd & Hl); [by eexists|].
  set (h := run ops (new s0)) in *. exists (S (length (queue h))). unfold drop. cbn [worker].
  rewrite Hw, Hl, (join_returns _ _ _ s); [done| |lia].
  rewrite Hi, in_order_app, Hd in Hs. exact Hs.
Qed.

(** The [expect] of [send] holds, and as long as the thread lives nothing is
    refused. *)
Lemma send_while_looping s0 items item h :
  on_track s0 items h -> exists h', send item h = Done (Ok tt, h') /\ on_track s0 (items ++ [item]) h'.
Proof.
  intros (Htx & Hw & dn & s & Hi & Hd & Hl). eexists. unfold send, receiver_live. rewrite Htx, Hl.
  split; [done|]. split_and!; [done|done|]. exists dn, s. cbn. by rewrite Hi, app_assoc.
Qed.
End worker_handle.

Arguments WorkerHandle : clear implicits.
Arguments thread : clear implicits.
Arguments op : clear implicits.
