(* ===== verification/WinInject.v ===== *)
(** Injection on Windows: the model of [src/sardp-win/src/inject.rs].  The
    commands a session queues become [SendInput] calls, made one after the other
    by a thread of their own. *)

From S2P Require Import Prelude.
From S2P Require Import Unicode.
From S2P Require KeyTable.
From S2P Require WinKeymap.
From S2P Require Import InputState.
From S2P Require WorkerHandle.
From S2P Require Import InputInjection.

(** * Definitions *)

(** "SARD". *)
Definition INJECTED_EXTRA_INFO : Z := 0x53415244.

Module button.
Definition LEFT : Z := 1.
Definition RIGHT : Z := 2.
Definition MIDDLE : Z := 3.
Definition X1 : Z := 4.
Definition X2 : Z := 5.
End button.

(** Constants of the [windows] crate whose value the source computes with. *)
Class Win32 := { XBUTTON1 : Z; XBUTTON2 : Z; GCS_COMPSTR : Z; xbuttons_differ : XBUTTON1 ≠ XBUTTON2 }.

Inductive KEYBD_EVENT_FLAG := KEYEVENTF_SCANCODE | KEYEVENTF_EXTENDEDKEY | KEYEVENTF_KEYUP | KEYEVENTF_UNICODE.

Inductive MOUSE_EVENT_FLAG :=
| MOUSEEVENTF_MOVE | MOUSEEVENTF_ABSOLUTE | MOUSEEVENTF_VIRTUALDESK
| MOUSEEVENTF_LEFTDOWN | MOUSEEVENTF_LEFTUP | MOUSEEVENTF_RIGHTDOWN | MOUSEEVENTF_RIGHTUP
| MOUSEEVENTF_MIDDLEDOWN | MOUSEEVENTF_MIDDLEUP | MOUSEEVENTF_XDOWN | MOUSEEVENTF_XUP
| MOUSEEVENTF_WHEEL | MOUSEEVENTF_HWHEEL.

#[export] Instance keybd_flag_eq : EqDecision KEYBD_EVENT_FLAG.
Proof. solve_decision. Defined.
#[export] Instance mouse_flag_eq : EqDecision MOUSE_EVENT_FLAG.
Proof. solve_decision. Defined.

(** [wVk] and [time] are always zero; [dwFlags] are the flags or'ed together. *)
Inductive INPUT :=
| KEYBDINPUT (wScan : Z) (dwFlags : list KEYBD_EVENT_FLAG) (dwExtraInfo : Z)
| MOUSEINPUT (dx dy mouseData : Z) (dwFlags : list MOUSE_EVENT_FLAG) (dwExtraInfo : Z).

#[export] Instance input_eq : EqDecision INPUT.
Proof. solve_decision. Defined.

(** [output_origin] of the configuration, and what [GetSystemMetrics] says of the
    virtual screen; the pauses between the units of a text are left out. *)
Record Screen := { output_origin : Z * Z; vs_x : Z; vs_y : Z; vs_cx : Z; vs_cy : Z }.

(** The system behind [SendInput]: [accepts] is how many events it takes of each
    call to come, all of them when the list has run out; [taken] are the events
    it took. *)
Record System := { accepts : list nat; taken : list INPUT }.

Definition system : System := {| accepts := []; taken := [] |}.

(** The error carries how many events were sent. *)
Definition send_inputs (inputs : list INPUT) (s : System) : result nat unit * System :=
  let sent := match accepts s with n :: _ => Nat.min n (length inputs) | [] => length inputs end in
  (if (sent =? length inputs)%nat then Ok tt else Err sent,
   {| accepts := tail (accepts s); taken := taken s ++ take sent inputs |}).

Definition keyboard_input (scan : Z) (flags : list KEYBD_EVENT_FLAG) : INPUT :=
  KEYBDINPUT scan flags INJECTED_EXTRA_INFO.

Definition mouse_input (dx dy data : Z) (flags : list MOUSE_EVENT_FLAG) : INPUT :=
  MOUSEINPUT dx dy data flags INJECTED_EXTRA_INFO.

(** The loop over the units of a text, left on the first failure. *)
Fixpoint type_units (units : list Z) (s : System) : result nat unit * System :=
  match units with
  | [] => (Ok tt, s)
  | unit :: units =>
      match send_inputs [keyboard_input unit [KEYEVENTF_UNICODE];
                         keyboard_input unit [KEYEVENTF_UNICODE; KEYEVENTF_KEYUP]] s with
      | (Ok _, s) => type_units units s
      | (Err e, s) => (Err e, s)
      end
  end.

(** An [i32] position on the virtual screen, through [i64]. *)
Definition normalize (origin x vs extent : Z) : Z :=
  let screen := swrap 32 (origin + x) in
  swrap 32 (Z.quot (swrap 64 (swrap 32 (screen - vs) * 65535)) (Z.max extent 1)).

Definition button_event `{Win32} (button : Z) (down : bool) : option (MOUSE_EVENT_FLAG * Z) :=
  if button =? button.LEFT then Some (if down then MOUSEEVENTF_LEFTDOWN else MOUSEEVENTF_LEFTUP, 0)
  else if button =? button.RIGHT then Some (if down then MOUSEEVENTF_RIGHTDOWN else MOUSEEVENTF_RIGHTUP, 0)
  else if button =? button.MIDDLE then Some (if down then MOUSEEVENTF_MIDDLEDOWN else MOUSEEVENTF_MIDDLEUP, 0)
  else if button =? button.X1 then Some (if down then MOUSEEVENTF_XDOWN else MOUSEEVENTF_XUP, XBUTTON1)
  else if button =? button.X2 then Some (if down then MOUSEEVENTF_XDOWN else MOUSEEVENTF_XUP, XBUTTON2)
  else None.

Definition key_flags (extended down : bool) : list KEYBD_EVENT_FLAG :=
  [KEYEVENTF_SCANCODE] ++ (if extended then [KEYEVENTF_EXTENDEDKEY] else [])
  ++ (if down then [] else [KEYEVENTF_KEYUP]).

Definition perform `{Win32} (screen : Screen) (c : InjectCommand) : System -> result nat unit * System :=
  match c with
  | InjectKey hid_usage down =>
      match WinKeymap.hid_to_scancode hid_usage with
      | None => fun s => (Ok tt, s)
      | Some (scancode, extended) =>
          send_inputs [keyboard_input scancode (key_flags extended down)]
      end
  | InjectText text => type_units (encode_utf16 (chars_of text))
  | InjectMouseMove x y =>
      let abs_x := normalize (output_origin screen).1 x (vs_x screen) (vs_cx screen) in
      let abs_y := normalize (output_origin screen).2 y (vs_y screen) (vs_cy screen) in
      send_inputs [mouse_input abs_x abs_y 0 [MOUSEEVENTF_MOVE; MOUSEEVENTF_ABSOLUTE; MOUSEEVENTF_VIRTUALDESK]]
  | InjectMouseButton button down =>
      match button_event button down with
      | None => fun s => (Ok tt, s)
      | Some (flag, data) => send_inputs [mouse_input 0 0 data [flag]]
      end
  | InjectWheel dx dy =>
      let inputs :=
        (if dy =? 0 then [] else [mouse_input 0 0 (wrap 32 dy) [MOUSEEVENTF_WHEEL]])
        ++ (if dx =? 0 then [] else [mouse_input 0 0 (wrap 32 dx) [MOUSEEVENTF_HWHEEL]]) in
      match inputs with [] => fun s => (Ok tt, s) | _ => send_inputs inputs end
  end.

(** ** The injector *)

(** One command of the thread; a failure is only logged. *)
Definition inject_one `{Win32} (screen : Screen) (c : InjectCommand) (s : System) : option System :=
  Some (perform screen c s).2.

Definition InputInjector := WorkerHandle.WorkerHandle InjectCommand System.

(** [InputInjector::start]. *)
Definition start : InputInjector := WorkerHandle.new system.

(** [InputInjector::inject]; the error is [InjectorClosed]. *)
Definition inject (c : InjectCommand) (i : InputInjector) : outcome (result unit unit * InputInjector) :=
  '(r, i) ← WorkerHandle.send c i; Done (map_err (fun _ => tt) r, i).

(** * Specification *)

Definition flagged (f : KEYBD_EVENT_FLAG) (flags : list KEYBD_EVENT_FLAG) : bool := bool_decide (f ∈ flags).
Definition mouse_flagged (f : MOUSE_EVENT_FLAG) (flags : list MOUSE_EVENT_FLAG) : bool := bool_decide (f ∈ flags).

(** The key or button an event presses or releases: what the system makes of it. *)
Definition pressed_by `{Win32} (i : INPUT) : list input :=
  match i with
  | KEYBDINPUT scan flags _ =>
      if flagged KEYEVENTF_SCANCODE flags then
        match WinKeymap.scancode_to_hid scan (flagged KEYEVENTF_EXTENDEDKEY flags) with
        | Some hid => [KeyInput hid (negb (flagged KEYEVENTF_KEYUP flags))]
        | None => []
        end
      else []
  | MOUSEINPUT _ _ data flags _ =>
      let has f := mouse_flagged f flags in
      (if has MOUSEEVENTF_LEFTDOWN then [ButtonInput button.LEFT true] else [])
      ++ (if has MOUSEEVENTF_LEFTUP then [ButtonInput button.LEFT false] else [])
      ++ (if has MOUSEEVENTF_RIGHTDOWN then [ButtonInput button.RIGHT true] else [])
      ++ (if has MOUSEEVENTF_RIGHTUP then [ButtonInput button.RIGHT false] else [])
      ++ (if has MOUSEEVENTF_MIDDLEDOWN then [ButtonInput button.MIDDLE true] else [])
      ++ (if has MOUSEEVENTF_MIDDLEUP then [ButtonInput button.MIDDLE false] else [])
      ++ (if has MOUSEEVENTF_XDOWN then [ButtonInput (if data =? XBUTTON1 then button.X1 else button.X2) true] else [])
      ++ (if has MOUSEEVENTF_XUP then [ButtonInput (if data =? XBUTTON1 then button.X1 else button.X2) false] else [])
  end.

(** The units an event types. *)
Definition typed_by (i : INPUT) : list Z :=
  match i with
  | KEYBDINPUT scan flags _ =>
      if flagged KEYEVENTF_UNICODE flags && negb (flagged KEYEVENTF_KEYUP flags) then [scan] else []
  | _ => []
  end.

(** Keys and buttons Windows has. *)
Definition on_windows (i : input) : bool :=
  match i with
  | KeyInput hid _ => bool_decide (is_Some (WinKeymap.hid_to_scancode hid))
  | ButtonInput b _ => (button.LEFT <=? b) && (b <=? button.X2)
  end.

Definition command_text (c : InjectCommand) : list Z :=
  match c with InjectText text => encode_utf16 (chars_of text) | _ => [] end.

(** * Lemmas *)

(** A system that takes everything. *)
Lemma send_inputs_all inputs s :
  accepts s = [] -> send_inputs inputs s = (Ok tt, {| accepts := []; taken := taken s ++ inputs |}).
Proof. intros Ha. unfold send_inputs. rewrite Ha, Nat.eqb_refl, firstn_all. done. Qed.

Definition strokes (unit : Z) : list INPUT :=
  [keyboard_input unit [KEYEVENTF_UNICODE]; keyboard_input unit [KEYEVENTF_UNICODE; KEYEVENTF_KEYUP]].

Lemma type_units_all units s :
  accepts s = [] ->
  type_units units s = (Ok tt, {| accepts := []; taken := taken s ++ flat_map strokes units |}).
Proof.
  revert s. induction units as [|u us IH]; intros s Ha; cbn [type_units flat_map].
  { rewrite app_nil_r. destruct s; cbn in *. by subst. }
  rewrite send_inputs_all by done. rewrite IH by done. cbn [taken]. by rewrite <- app_assoc.
Qed.

Section with_win32.
Context `{Win32} (screen : Screen).

(** The events of a command. *)
Definition inputs_of (c : InjectCommand) : list INPUT := taken (perform screen c system).2.

Lemma perform_all c s :
  accepts s = [] -> perform screen c s = (Ok tt, {| accepts := []; taken := taken s ++ inputs_of c |}).
Proof.
  intros Ha. assert (forall s, accepts s = [] -> (Ok tt, s) = (Ok (E:=nat) tt, {| accepts := []; taken := taken s ++ [] |})) as Hnone.
  { intros [? ?]; cbn. intros ->. by rewrite app_nil_r. }
  unfold inputs_of. destruct c; cbn [perform]; repeat case_match;
    rewrite ?send_inputs_all, ?type_units_all by done; cbn [snd taken system app]; auto.
Qed.

Lemma strokes_pressed units : flat_map pressed_by (flat_map strokes units) = [].
Proof. induction units as [|u us IH]; [done|]. cbn [flat_map]. by rewrite flat_map_app, IH. Qed.

Lemma strokes_typed units : flat_map typed_by (flat_map strokes units) = units.
Proof. induction units as [|u us IH]; [done|]. cbn [flat_map]. by rewrite flat_map_app, IH. Qed.

Lemma key_scancode extended down : flagged KEYEVENTF_SCANCODE (key_flags extended down) = true.
Proof. by destruct extended, down. Qed.

Lemma key_extended extended down : flagged KEYEVENTF_EXTENDEDKEY (key_flags extended down) = extended.
Proof. by destruct extended, down. Qed.

Lemma key_up extended down : flagged KEYEVENTF_KEYUP (key_flags extended down) = negb down.
Proof. by destruct extended, down. Qed.

(** A command's presses and releases reach the system as they are, on the same
    key; those Windows has no key for do not. *)
Lemma inputs_pressed c : flat_map pressed_by (inputs_of c) = List.filter on_windows (command_input c).
Proof.
  unfold inputs_of. destruct c as [hid down|text|x y|b down|dx dy]; cbn [perform command_input List.filter on_windows].
  - destruct (WinKeymap.hid_to_scancode hid) as [[sc ext]|] eqn:Ek; cbn [is_Some]; last first.
    { rewrite bool_decide_false by by intros []. done. }
    rewrite bool_decide_true by by eexists. rewrite send_inputs_all by done.
    apply WinKeymap.scancode_hid in Ek. cbn [snd taken system app flat_map keyboard_input pressed_by].
    rewrite key_scancode, key_extended, key_up, Ek, negb_involutive. done.
  - rewrite type_units_all by done. apply strokes_pressed.
  - done.
  - unfold button_event, button.LEFT, button.RIGHT, button.MIDDLE, button.X1, button.X2.
    zcases; try lia; subst; cbn; try done; destruct down; cbn; rewrite ?Z.eqb_refl; try done;
      pose proof xbuttons_differ; zcases; (done || congruence).
  - destruct (dy =? 0), (dx =? 0); done.
Qed.

(** And a text arrives as its UTF-16 units. *)
Lemma inputs_typed c : flat_map typed_by (inputs_of c) = command_text c.
Proof.
  unfold inputs_of. destruct c as [hid down|text|x y|b down|dx dy]; cbn [perform command_text].
  - destruct (WinKeymap.hid_to_scancode hid) as [[sc ext]|]; [|done]. by destruct ext, down.
  - rewrite type_units_all by done. apply strokes_typed.
  - done.
  - by destruct (button_event b down) as [[f d]|].
  - destruct (dy =? 0), (dx =? 0); done.
Qed.

(** Everything carries the mark. *)
Lemma inputs_marked c i : i ∈ inputs_of c ->
  match i with KEYBDINPUT _ _ e | MOUSEINPUT _ _ _ _ e => e = INJECTED_EXTRA_INFO end.
Proof.
  unfold inputs_of. intros Hi. apply list_elem_of_In in Hi. revert Hi.
  destruct c as [hid down|text|x y|b down|dx dy]; cbn [perform].
  - destruct (WinKeymap.hid_to_scancode hid) as [[sc ext]|]; cbn; naive_solver.
  - rewrite type_units_all by done. cbn. rewrite in_flat_map. cbn. naive_solver.
  - cbn. naive_solver.
  - destruct (button_event b down) as [[f d]|]; cbn; naive_solver.
  - destruct (dy =? 0), (dx =? 0); cbn; naive_solver.
Qed.

(** The thread over a list of commands. *)
Lemma injected_in_order cs :
  WorkerHandle.in_order (inject_one screen) cs system = Some {| accepts := []; taken := flat_map inputs_of cs |}.
Proof.
  induction cs as [|c cs IH] using rev_ind; [done|].
  rewrite WorkerHandle.in_order_snoc, IH. cbn [mbind option_bind].
  unfold inject_one. rewrite perform_all by done. cbn [snd taken]. rewrite flat_map_app. cbn [flat_map].
  by rewrite app_nil_r.
Qed.
End with_win32.

(** ** The pointer *)

(** A point on the virtual screen keeps its pixel: its normalised position is in
    range, and the pixel can be told from it. *)
Lemma normalize_on_screen origin x vs extent :
  let screen := origin + x in
  - 2 ^ 31 <= screen < 2 ^ 31 -> 0 <= screen - vs < extent -> extent <= 65535 ->
  0 <= normalize origin x vs extent < 65535 /\
  screen - vs = (normalize origin x vs extent * extent + 65534) / 65535.
Proof.
  intros screen Hs Hv He. unfold normalize. fold screen.
  rewrite (swrap_small 32 screen) by lia. rewrite (swrap_small 32 (screen - vs)) by lia.
  rewrite (swrap_small 64) by lia. rewrite Z.max_l, Z.quot_div_nonneg by lia.
  set (d := screen - vs) in *. assert (0 <= d * 65535 / extent < 65535) as Hd.
  { split; [apply Z.div_pos; lia|]. apply Z.div_lt_upper_bound; nia. }
  rewrite swrap_small by lia. split; [exact Hd|].
  pose proof (Z.div_mod (d * 65535) extent ltac:(lia)). pose proof (Z.mod_pos_bound (d * 65535) extent ltac:(lia)).
  apply (Z.div_unique_pos _ _ _ (d * 65535 / extent * extent + 65534 - 65535 * d)); [|lia]. nia.
Qed.
