(* ===== verification/WindowProc.v ===== *)
(** The display window's input: the model of [wndproc], [handle_input_message]
    and [pump_messages] in [src/sardp-win/src/display.rs].  What Windows answers
    while a message is processed comes with the message. *)

From S2P Require Import Prelude.
From S2P Require Import Unicode.
From S2P Require KeyTable.
From S2P Require WinKeymap.
From S2P Require Import Messages.
From S2P Require Import InputForwarder.
From S2P Require InputInjection.
From S2P Require Import WinInject.

(** * Definitions *)

(** The messages the procedures name. *)
Inductive message_id :=
| WM_KEYDOWN | WM_SYSKEYDOWN | WM_KEYUP | WM_SYSKEYUP | WM_CHAR | WM_SYSCHAR
| WM_IME_STARTCOMPOSITION | WM_IME_ENDCOMPOSITION | WM_IME_COMPOSITION
| WM_MOUSEMOVE | WM_LBUTTONDOWN | WM_LBUTTONUP | WM_RBUTTONDOWN | WM_RBUTTONUP | WM_MBUTTONDOWN
| WM_MBUTTONUP | WM_XBUTTONDOWN | WM_XBUTTONUP | WM_MOUSEWHEEL | WM_MOUSEHWHEEL
| WM_KILLFOCUS | WM_CLOSE | WM_DESTROY | WM_QUIT | WM_OTHER (id : Z).

#[export] Instance message_id_eq : EqDecision message_id.
Proof. solve_decision. Defined.

(** The virtual keys the modifiers are read from. *)
Inductive modifier_key := VK_SHIFT | VK_CONTROL | VK_MENU | VK_LWIN | VK_RWIN.

(** What [ImmGetCompositionStringW] answers to the three calls: the length in
    bytes, what it wrote of the text and how many bytes that were, the caret. *)
Record Composition := { comp_bytes : Z; comp_units : list Z; comp_written : Z; comp_caret : Z }.

(** A message, with what [GetMessageExtraInfo], [GetKeyState] and the window's IME
    context ([None] without one) say while it is processed. *)
Record MSG := {
  message : message_id;
  wParam : Z;
  lParam : Z;
  extra_info : Z;
  key_state : modifier_key -> Z;
  ime_context : option Composition;
}.

(** The calls that change something in Windows. *)
Inductive call :=
| DestroyWindow | PostQuitMessage | DefWindowProc (m : message_id) | SetCapture | ReleaseCapture
| TranslateMessage (m : message_id).

(** [input_tx] is what has been sent; nothing tells the procedure that nobody
    receives it any more. *)
Record WindowState := {
  input_tx : list WindowInput;
  composing : bool;
  pending_high_surrogate : option Z;
  buttons_down : Z;
}.

Definition new_state : WindowState :=
  {| input_tx := []; composing := false; pending_high_surrogate := None; buttons_down := 0 |}.

Definition send (event : WindowInput) (s : WindowState) : WindowState :=
  {| input_tx := input_tx s ++ [event]; composing := composing s;
     pending_high_surrogate := pending_high_surrogate s; buttons_down := buttons_down s |}.

Definition set_composing (b : bool) (s : WindowState) : WindowState :=
  {| input_tx := input_tx s; composing := b; pending_high_surrogate := pending_high_surrogate s;
     buttons_down := buttons_down s |}.

Definition set_pending (p : option Z) (s : WindowState) : WindowState :=
  {| input_tx := input_tx s; composing := composing s; pending_high_surrogate := p;
     buttons_down := buttons_down s |}.

Definition set_buttons (n : Z) (s : WindowState) : WindowState :=
  {| input_tx := input_tx s; composing := composing s;
     pending_high_surrogate := pending_high_surrogate s; buttons_down := n |}.

Definition is_injected_echo (m : MSG) : bool := extra_info m =? INJECTED_EXTRA_INFO.

Definition current_modifiers (m : MSG) : Z :=
  let down vk := key_state m vk <? 0 in
  let modifiers := if down VK_SHIFT then key_modifier.SHIFT else 0 in
  let modifiers := if down VK_CONTROL then Z.lor modifiers key_modifier.CTRL else modifiers in
  let modifiers := if down VK_MENU then Z.lor modifiers key_modifier.ALT else modifiers in
  if down VK_LWIN || down VK_RWIN then Z.lor modifiers key_modifier.META else modifiers.

(** [as u16 as i16]. *)
Definition low_word (x : Z) : Z := swrap 16 (Z.land x 0xFFFF).
Definition high_word (x : Z) : Z := swrap 16 (Z.land (Z.shiftr x 16) 0xFFFF).

Definition mouse_position (m : MSG) : Z * Z := (low_word (lParam m), high_word (lParam m)).

(** The scan code and the extended flag of a key message. *)
Definition scancode_of (m : MSG) : Z * bool :=
  let l := wrap 32 (lParam m) in
  (Z.land (Z.shiftr l 16) 0xFF, Z.land (Z.shiftr l 24) 1 =? 1).

Definition read_composition (m : MSG) : option (string * Z) :=
  match ime_context m with
  | None => None
  | Some c =>
      if comp_bytes c <? 0 then None
      else
        let length := Z.to_nat (comp_bytes c / 2) in
        let buf := take length (comp_units c ++ replicate length 0) in
        let caret := Z.min (Z.max (comp_caret c) 0) 65535 in
        if (length =? 0)%nat then Some (string_of (from_utf16_lossy []), caret)
        else if comp_written c <? 0 then None
        else Some (string_of (from_utf16_lossy (take (Z.to_nat (comp_written c / 2)) buf)), caret)
  end.

(** Which button a button message is about, and whether it goes down. *)
Definition button_of (m : MSG) : Z * bool :=
  match message m with
  | WM_LBUTTONDOWN => (button.LEFT, true)
  | WM_LBUTTONUP => (button.LEFT, false)
  | WM_RBUTTONDOWN => (button.RIGHT, true)
  | WM_RBUTTONUP => (button.RIGHT, false)
  | WM_MBUTTONDOWN => (button.MIDDLE, true)
  | WM_MBUTTONUP => (button.MIDDLE, false)
  | _ => (if Z.land (Z.shiftr (wParam m) 16) 0xFFFF =? 2 then button.X2 else button.X1,
          bool_decide (message m = WM_XBUTTONDOWN))
  end.

(** The text of a [WM_CHAR], and the surrogate it leaves waiting. *)
Definition char_text (unit : Z) (pending : option Z) : option (list Z) * option Z :=
  if is_high unit then (None, Some unit)
  else
    match pending with
    | Some high =>
        if is_low unit then (Some (from_utf16_lossy [high; unit]), None)
        else (option_map (fun c => [c]) (from_u32 unit), None)
    | None => (option_map (fun c => [c]) (from_u32 unit), None)
    end.

(** The result tells whether the message is dealt with; if not, it goes to the
    default procedure. *)
Definition handle_input_message `{Win32} (m : MSG) (s : WindowState) : bool * list call * WindowState :=
  match message m with
  | WM_KEYDOWN | WM_SYSKEYDOWN | WM_KEYUP | WM_SYSKEYUP =>
      if is_injected_echo m || composing s then (true, [], s)
      else
        let down := bool_decide (message m = WM_KEYDOWN) || bool_decide (message m = WM_SYSKEYDOWN) in
        let '(scancode, extended) := scancode_of m in
        match WinKeymap.scancode_to_hid scancode extended with
        | Some hid_usage =>
            (true, [], send (WindowKey down hid_usage (wrap 32 (wParam m)) (current_modifiers m)) s)
        | None => (true, [], s)
        end
  | WM_CHAR =>
      if is_injected_echo m then (true, [], s)
      else
        let '(text, pending) := char_text (wrap 16 (wParam m)) (pending_high_surrogate s) in
        let s := set_pending pending s in
        match text with
        | None => (true, [], s)
        | Some text =>
            if forallb is_control text then (true, [], s)
            else (true, [], send (WindowText (string_of text)) s)
        end
  | WM_SYSCHAR => (true, [], s)
  | WM_IME_STARTCOMPOSITION => (false, [], set_composing true s)
  | WM_IME_ENDCOMPOSITION => (false, [], send (WindowComposition EmptyString 0) (set_composing false s))
  | WM_IME_COMPOSITION =>
      if Z.land (wrap 32 (lParam m)) GCS_COMPSTR =? 0 then (false, [], s)
      else
        match read_composition m with
        | Some (text, caret) => (false, [], send (WindowComposition text caret) s)
        | None => (false, [], s)
        end
  | WM_MOUSEMOVE =>
      (true, [],
       if is_injected_echo m then s
       else let '(x, y) := mouse_position m in send (WindowMove x y) s)
  | WM_LBUTTONDOWN | WM_LBUTTONUP | WM_RBUTTONDOWN | WM_RBUTTONUP | WM_MBUTTONDOWN | WM_MBUTTONUP
  | WM_XBUTTONDOWN | WM_XBUTTONUP =>
      let '(button, down) := button_of m in
      let n := if down then sat_add 8 (buttons_down s) 1 else sat_sub (buttons_down s) 1 in
      let calls := if down then [SetCapture] else if n =? 0 then [ReleaseCapture] else [] in
      let s := set_buttons n s in
      (true, calls,
       if is_injected_echo m then s
       else let '(x, y) := mouse_position m in send (WindowButton button down x y) s)
  | WM_MOUSEWHEEL | WM_MOUSEHWHEEL =>
      (true, [],
       if is_injected_echo m then s
       else
         let delta := high_word (wParam m) in
         send (if bool_decide (message m = WM_MOUSEWHEEL) then WindowWheel 0 delta else WindowWheel delta 0) s)
  | WM_KILLFOCUS => (false, [], send FocusLost (set_composing false s))
  | _ => (false, [], s)
  end.

(** [user_data] is what [GWLP_USERDATA] points to, [None] before it is set. *)
Record Window := { user_data : option WindowState; calls : list call }.

Definition called (cs : list call) (w : Window) : Window :=
  {| user_data := user_data w; calls := calls w ++ cs |}.

Definition default_proc (m : MSG) : list call :=
  match message m with
  | WM_CLOSE => [DestroyWindow]
  | WM_DESTROY => [PostQuitMessage]
  | other => [DefWindowProc other]
  end.

Definition wndproc `{Win32} (m : MSG) (w : Window) : Window :=
  match user_data w with
  | None => called (default_proc m) w
  | Some s =>
      let '(handled, cs, s) := handle_input_message m s in
      called (cs ++ if handled then [] else default_proc m) {| user_data := Some s; calls := calls w |}
  end.

(** What [PeekMessageW] does next: it returns a message of the queue, or passes
    one that was sent to the window straight to the procedure. *)
Inductive delivery := Queued (m : MSG) | Sent (m : MSG).

Definition translated (m : MSG) : bool :=
  negb ((bool_decide (message m = WM_KEYDOWN) || bool_decide (message m = WM_SYSKEYDOWN)) && is_injected_echo m).

(** Until the queue is empty, the end of the list; [true] on [WM_QUIT]. *)
Fixpoint pump_messages `{Win32} (ds : list delivery) (w : Window) : bool * list delivery * Window :=
  match ds with
  | [] => (false, [], w)
  | Sent m :: ds => pump_messages ds (wndproc m w)
  | Queued m :: ds =>
      if bool_decide (message m = WM_QUIT) then (true, ds, w)
      else
        let w := if translated m then called [TranslateMessage (message m)] w else w in
        pump_messages ds (wndproc m w)
  end.

(** ** Runs *)

Definition handle `{Win32} (s : WindowState) (m : MSG) : WindowState := (handle_input_message m s).2.

(** The messages a window processes. *)
Definition run `{Win32} (ms : list MSG) (s : WindowState) : WindowState := fold_left handle ms s.

(** * Specification *)

(** The UTF-16 units typed into the window. *)
Definition typed_unit (m : MSG) : option Z :=
  if bool_decide (message m = WM_CHAR) && negb (is_injected_echo m) then Some (wrap 16 (wParam m)) else None.

Definition typed_units (ms : list MSG) : list Z := omap typed_unit ms.

(** The text in the events. *)
Definition text_of (event : WindowInput) : option string :=
  match event with WindowText text => Some text | _ => None end.

Definition texts (events : list WindowInput) : list string := omap text_of events.

(** What is printable of it: what UTF-16 makes of the units, less the surrogates
    without their other half and the control characters. *)
Definition printable (us : list Z) : list Z :=
  List.filter (fun c => negb (is_control c)) (omap id (decode_utf16 us)).

(** The messages of keyboard and mouse. *)
Definition input_message (m : MSG) : bool :=
  match message m with
  | WM_KEYDOWN | WM_SYSKEYDOWN | WM_KEYUP | WM_SYSKEYUP | WM_CHAR | WM_SYSCHAR | WM_MOUSEMOVE
  | WM_LBUTTONDOWN | WM_LBUTTONUP | WM_RBUTTONDOWN | WM_RBUTTONUP | WM_MBUTTONDOWN | WM_MBUTTONUP
  | WM_XBUTTONDOWN | WM_XBUTTONUP | WM_MOUSEWHEEL | WM_MOUSEHWHEEL => true
  | _ => false
  end.

Definition key_message (m : MSG) : bool :=
  match message m with WM_KEYDOWN | WM_SYSKEYDOWN | WM_KEYUP | WM_SYSKEYUP => true | _ => false end.

Definition goes_down (m : MSG) : bool :=
  match message m with WM_KEYDOWN | WM_SYSKEYDOWN => true | _ => false end.

(** Whether the mouse is captured after the calls. *)
Definition captured (cs : list call) : bool :=
  fold_left (fun b c => match c with SetCapture => true | ReleaseCapture => false | _ => b end) cs false.

Definition opened : Window := {| user_data := Some new_state; calls := [] |}.

(** What a pump passes to the procedure. *)
Fixpoint delivered (ds : list delivery) : list MSG :=
  match ds with
  | [] => []
  | Sent m :: ds => m :: delivered ds
  | Queued m :: ds => if bool_decide (message m = WM_QUIT) then [] else m :: delivered ds
  end.

Definition quits (ds : list delivery) : bool :=
  existsb (fun d => match d with Queued m => bool_decide (message m = WM_QUIT) | Sent _ => false end) ds.

(** * Lemmas *)

Section with_win32.
Context `{Win32}.

Lemma texts_snoc events e : texts (events ++ [e]) = texts events ++ option_list (text_of e).
Proof. unfold texts. rewrite omap_app. by destruct e. Qed.

(** Only [WM_CHAR] makes text, and only it touches the waiting surrogate. *)
Lemma handle_no_text m s :
  typed_unit m = None ->
  texts (input_tx (handle s m)) = texts (input_tx s) /\
  pending_high_surrogate (handle s m) = pending_high_surrogate s.
Proof.
  unfold typed_unit, handle, handle_input_message. intros Hm.
  destruct (message m) eqn:Em; try (by cbn);
    repeat case_match; try discriminate; cbn [snd input_tx pending_high_surrogate send set_composing set_buttons];
    rewrite ?texts_snoc, ?app_nil_r; try done.
  all: by destruct (is_injected_echo m).
Qed.

Lemma from_u32_plain u :
  is_u16 u -> is_high u = false -> is_low u = false -> from_u32 u = Some u.
Proof.
  unfold is_high, is_low, from_u32, is_scalar. widths. intros Hu Hh Hl.
  rewrite !andb_false_iff in *. zcases; cbn; (done || lia).
Qed.

Lemma from_u32_low u : is_low u = true -> from_u32 u = None.
Proof. unfold is_low, from_u32, is_scalar. rewrite andb_true_iff. intros. zcases; cbn; (done || lia). Qed.

(** One unit: the character it completes, and what decoding makes of it in front
    of others. *)
Lemma char_text_decodes u p us :
  is_u16 u -> from_option is_high true p = true ->
  let '(text, p') := char_text u p in
  from_option is_high true p' = true /\
  omap id (decode_utf16 (option_list p ++ u :: us))
  = default [] text ++ omap id (decode_utf16 (option_list p' ++ us)).
Proof.
  intros Hu Hp. unfold char_text. destruct (is_high u) eqn:Hh.
  { split; [done|]. destruct p as [h|]; [|done]. cbn [option_list option_rect app from_option] in *.
    rewrite decode_high; [done|done|]. by apply high_not_low. }
  destruct (is_low u) eqn:Hl.
  - rewrite from_u32_low by done. destruct p as [h|]; cbn [option_list option_rect app from_option option_map] in *.
    + rewrite decode_pair by done. split; [done|]. unfold from_utf16_lossy.
      by rewrite (decode_pair h u []) by done.
    + by rewrite decode_low by done.
  - rewrite from_u32_plain by done. destruct p as [h|]; cbn [option_list option_rect app from_option option_map] in *.
    + rewrite decode_high, decode_plain by done. done.
    + by rewrite decode_plain by done.
Qed.

(** At most one character comes of a unit. *)
Lemma char_text_single u p text p' :
  char_text u p = (Some text, p') -> from_option is_high true p = true -> exists c, text = [c].
Proof.
  unfold char_text. intros E Hp. destruct (is_high u); [done|]. destruct p as [h|].
  - destruct (is_low u) eqn:Hl; injection E as E _.
    + unfold from_utf16_lossy in E. cbn in Hp. rewrite (decode_pair h u []) in E by done.
      eexists. symmetry. exact E.
    + destruct (from_u32 u); [|done]. injection E as <-. by eexists.
  - injection E as E _. destruct (from_u32 u); [|done]. injection E as <-. by eexists.
Qed.

Lemma handle_text m s u :
  typed_unit m = Some u -> from_option is_high true (pending_high_surrogate s) = true ->
  let '(text, p) := char_text u (pending_high_surrogate s) in
  pending_high_surrogate (handle s m) = p /\
  texts (input_tx (handle s m))
  = texts (input_tx s) ++ map (fun c => string_of [c]) (List.filter (fun c => negb (is_control c)) (default [] text)).
Proof.
  unfold typed_unit, handle, handle_input_message. intros Hm Hp.
  destruct (bool_decide (message m = WM_CHAR)) eqn:Em; [|done]. apply bool_decide_eq_true in Em. rewrite Em.
  destruct (is_injected_echo m); [done|]. injection Hm as <-.
  destruct (char_text _ _) as [[text|] p] eqn:Et; cbn [default map List.filter]; [|by rewrite app_nil_r].
  destruct (char_text_single _ _ _ _ Et Hp) as [c ->]. cbn [forallb default from_option id List.filter].
  rewrite andb_true_r. destruct (is_control c); cbn [negb map snd].
  - by rewrite app_nil_r.
  - cbn [send set_pending input_tx pending_high_surrogate]. by rewrite texts_snoc.
Qed.

Lemma typed_unit_u16 m u : typed_unit m = Some u -> is_u16 u.
Proof. unfold typed_unit. case_match; [|done]. intros [= <-]. by apply wrap_in_width. Qed.

(** Whatever else happens in between, the window reports exactly the printable
    text typed into it, character by character. *)
Lemma texts_run ms s :
  from_option is_high true (pending_high_surrogate s) = true ->
  texts (input_tx (run ms s))
  = texts (input_tx s)
    ++ map (fun c => string_of [c]) (printable (option_list (pending_high_surrogate s) ++ typed_units ms)).
Proof.
  revert s. induction ms as [|m ms IH]; intros s Hp.
  { cbn. destruct (pending_high_surrogate s) as [h|] eqn:E; [|by rewrite app_nil_r]. cbn in Hp. unfold printable.
    cbn. by rewrite Hp, (high_not_low _ Hp), app_nil_r. }
  unfold run, typed_units in *. cbn [fold_left omap list_omap]. destruct (typed_unit m) as [u|] eqn:Eu.
  - pose proof (handle_text m s u Eu Hp) as Hh.
    pose proof (char_text_decodes u (pending_high_surrogate s) (omap typed_unit ms) (typed_unit_u16 _ _ Eu) Hp) as Hd.
    destruct (char_text u _) as [text p]. destruct Hh as [Hpend Htext], Hd as [Hp' Hd].
    rewrite IH by by rewrite Hpend. rewrite Htext, Hpend, <- app_assoc, <- map_app. unfold printable.
    rewrite Hd. by rewrite List.filter_app.
  - destruct (handle_no_text m s Eu) as [Ht Hpend]. rewrite IH by by rewrite Hpend. by rewrite Ht, Hpend.
Qed.

(** A press or release of a key Windows reports reaches the client as that key,
    unless it comes of our own injection or feeds a composition. *)
Lemma handle_key m s :
  key_message m = true ->
  input_tx (handle s m)
  = input_tx s ++
    if is_injected_echo m || composing s then []
    else
      match WinKeymap.scancode_to_hid (scancode_of m).1 (scancode_of m).2 with
      | Some hid => [WindowKey (goes_down m) hid (wrap 32 (wParam m)) (current_modifiers m)]
      | None => []
      end.
Proof.
  unfold key_message, goes_down, handle, handle_input_message. intros Hm. destruct (scancode_of m) as [sc ext].
  destruct (message m); try done; (destruct (_ || _); [by rewrite app_nil_r|]);
    cbn [fst snd]; destruct (WinKeymap.scancode_to_hid sc ext); cbn [snd]; by rewrite ?app_nil_r.
Qed.

(** What our own injection puts into the queue goes no further. *)
Lemma echo_stops m s : is_injected_echo m = true -> input_message m = true -> input_tx (handle s m) = input_tx s.
Proof.
  unfold input_message, handle, handle_input_message. intros He Hm. rewrite He.
  destruct (message m); try done; by destruct (button_of m).
Qed.

(** ** The mouse capture *)

Definition capture_step (b : bool) (c : call) : bool :=
  match c with SetCapture => true | ReleaseCapture => false | _ => b end.

Lemma captured_app cs cs' : captured (cs ++ cs') = fold_left capture_step cs' (captured cs).
Proof. unfold captured. by rewrite fold_left_app. Qed.

Lemma default_proc_capture m b : fold_left capture_step (default_proc m) b = b.
Proof. unfold default_proc. by destruct (message m). Qed.

(** The window holds the mouse while, and only while, a button is down. *)
Definition holds (w : Window) : Prop :=
  match user_data w with
  | None => captured (calls w) = false
  | Some s => 0 <= buttons_down s < 256 /\ captured (calls w) = (0 <? buttons_down s)
  end.

Lemma handle_capture m s b :
  0 <= buttons_down s < 256 -> b = (0 <? buttons_down s) ->
  let '(_, cs, s') := handle_input_message m s in
  0 <= buttons_down s' < 256 /\ fold_left capture_step cs b = (0 <? buttons_down s').
Proof.
  intros Hs ->. unfold handle_input_message.
  destruct (message m); try destruct (scancode_of m) as [sc ext]; try destruct (mouse_position m) as [x y];
    try destruct (button_of m) as [button down]; repeat case_match;
    cbn [buttons_down send set_composing set_pending set_buttons fold_left capture_step]; simplify_eq/=; try done;
    unfold sat_add, sat_sub in *; zcases; try lia; try done; split; try lia; try done.
Qed.

Lemma wndproc_holds m w : holds w -> holds (wndproc m w).
Proof.
  unfold holds, wndproc. destruct (user_data w) as [s|] eqn:Eu.
  - intros [Hs Hc]. pose proof (handle_capture m s _ Hs Hc) as Hh.
    destruct (handle_input_message m s) as [[handled cs] s']. cbn [user_data called calls].
    destruct Hh as [Hs' Hc']. split; [done|]. rewrite captured_app, fold_left_app, Hc'.
    destruct handled; [done|]. by rewrite default_proc_capture.
  - intros Hc. cbn [called user_data calls]. by rewrite Eu, captured_app, default_proc_capture.
Qed.

Lemma translate_holds m w : holds w -> holds (called [TranslateMessage m] w).
Proof. unfold holds. cbn [called user_data calls]. by rewrite captured_app. Qed.

Lemma pump_holds ds w : holds w -> holds (pump_messages ds w).2.
Proof.
  revert w. induction ds as [|[m|m] ds IH]; intros w Hw; cbn [pump_messages]; [done|..].
  - destruct (bool_decide _); [done|]. apply IH, wndproc_holds. destruct (translated m); [by apply translate_holds|done].
  - by apply IH, wndproc_holds.
Qed.

(** ** The pump *)

Lemma wndproc_state m w s :
  user_data w = Some s -> user_data (wndproc m w) = Some (handle s m).
Proof. unfold wndproc, handle. intros ->. by destruct (handle_input_message m s) as [[h cs] s']. Qed.

(** The pump works off its messages up to [WM_QUIT] and tells whether there was one. *)
Lemma pump_run ds w s :
  user_data w = Some s ->
  (pump_messages ds w).1.1 = quits ds /\ user_data (pump_messages ds w).2 = Some (run (delivered ds) s).
Proof.
  revert w s. induction ds as [|[m|m] ds IH]; intros w s Hw; cbn [pump_messages delivered]; [done|..].
  - unfold quits. cbn [existsb]. destruct (bool_decide _); [done|]. apply (IH _ (handle s m)).
    apply wndproc_state. by destruct (translated m).
  - apply (IH _ (handle s m)). by apply wndproc_state.
Qed.
End with_win32.

(** * Properties *)

(** C25: What is typed is what is reported.  However a pump's messages mix, whatever
    reaches the window besides characters, and wherever the two halves of a
    surrogate pair are cut apart by other messages, the texts a window reports are
    the characters UTF-16 decoding makes of the units typed into it, one by one and
    in order, without the control characters and without surrogates whose other
    half never came. *)
Theorem window_reports_text `{Win32} ds :
  exists s, user_data (pump_messages ds opened).2 = Some s /\
    texts (input_tx s) = map (fun c => string_of [c]) (printable (typed_units (delivered ds))).
Proof.
  destruct (pump_run ds opened new_state eq_refl) as [_ Hs]. eexists. split; [exact Hs|].
  by rewrite texts_run.
Qed.

(** The mouse is captured exactly while a button is down: after any messages, the
    last of the window's calls to capture or release the mouse was to capture it
    if and only if its count of pressed buttons is above zero, and the count never
    leaves its eight bits. *)
Theorem capture_follows_buttons `{Win32} ds :
  exists s, user_data (pump_messages ds opened).2 = Some s /\ 0 <= buttons_down s < 256 /\
    captured (calls (pump_messages ds opened).2) = (0 <? buttons_down s).
Proof.
  destruct (pump_run ds opened new_state eq_refl) as [_ Hs].
  assert (holds (pump_messages ds opened).2) as Hh by by apply pump_holds.
  unfold holds in Hh. rewrite Hs in Hh. by eexists.
Qed.

(** ** Concrete runs *)

Module Examples.
#[local] Instance windows : Win32.
Proof. refine {| XBUTTON1 := 1; XBUTTON2 := 2; GCS_COMPSTR := 8 |}. done. Defined.

Definition nothing_down (vk : modifier_key) : Z := 0.

(** The fields of [lParam] that matter for a key. *)
Definition key (id : message_id) (scancode : Z) : MSG :=
  {| message := id; wParam := 0; lParam := Z.shiftl scancode 16; extra_info := 0; key_state := nothing_down;
     ime_context := None |}.

Definition plain (id : message_id) (w l : Z) : MSG :=
  {| message := id; wParam := w; lParam := l; extra_info := 0; key_state := nothing_down; ime_context := None |}.

Definition events (ds : list delivery) : list WindowInput :=
  from_option input_tx [] (user_data (pump_messages ds opened).2).

(** A sushi, its halves cut apart by a move of the mouse, and a return. *)
Example surrogates_meet :
  events [Queued (plain WM_CHAR 0xD83C 0); Queued (plain WM_MOUSEMOVE 0 0xFFFF000A);
          Queued (plain WM_CHAR 0xDF63 0); Queued (plain WM_CHAR 13 0)]
  = [WindowMove 10 (-1); WindowText (string_of [0x1F363])].
Proof. by vm_compute. Qed.

(** Shift is held when a composition begins and let go while it lasts: the press
    has been reported, the release never is. *)
Example shift_released_while_composing :
  events [Queued (key WM_KEYDOWN 0x2A); Sent (plain WM_IME_STARTCOMPOSITION 0 0);
          Queued (key WM_KEYUP 0x2A); Sent (plain WM_IME_ENDCOMPOSITION 0 0);
          Queued (key WM_KEYDOWN 0x1E)]
  = [WindowKey true 0xE1 0 0; WindowComposition EmptyString 0; WindowKey true 0x04 0 0].
Proof. by vm_compute. Qed.

(** An echo of a key is neither reported nor translated into a character. *)
Example echo_is_dropped :
  let m := {| message := WM_KEYDOWN; wParam := 0; lParam := Z.shiftl 0x1E 16;
              extra_info := INJECTED_EXTRA_INFO; key_state := nothing_down; ime_context := None |} in
  pump_messages [Queued m; Queued (plain WM_QUIT 0 0)] opened = (true, [], opened).
Proof. by vm_compute. Qed.
End Examples.
