(* ===== verification/Float64.v ===== *)
(** [f64]: IEEE 754 binary64 as the Standard Library specifies it, so that
    coordinates and rates compute, with the operations of Rust's [f64] that the
    source uses. *)

From Stdlib Require Export Floats.SpecFloat.
From S2P Require Import Prelude.

#[export] Set Default Proof Using "Type".
#[global] Open Scope Z_scope.

(** * Definitions *)

Notation f64 := spec_float.
Notation fadd := (SFadd 53 1024).
Notation fsub := (SFsub 53 1024).
Notation fmul := (SFmul 53 1024).
Notation fdiv := (SFdiv 53 1024).
Notation fsqrt := (SFsqrt 53 1024).

(** [f64::from], exact on an [i32]. *)
Definition f64_of (z : Z) : f64 := binary_normalize 53 1024 z 0 false.

(** A whole number of the given sign. *)
Definition whole (negative : bool) (n : Z) : f64 :=
  if n =? 0 then S754_zero negative
  else binary_normalize 53 1024 (if negative then - n else n) 0 false.

(** [f64::round]: to the nearest whole number, halves away from zero. *)
Definition round (x : f64) : f64 :=
  match x with
  | S754_finite s m e =>
      if 0 <=? e then x else whole s ((Z.pos m + 2 ^ (- e - 1)) / 2 ^ (- e))
  | _ => x
  end.

(** [f64::max]: the other one if one is not a number. *)
Definition fmax (x y : f64) : f64 :=
  match x, y with
  | S754_nan, _ => y
  | _, S754_nan => x
  | _, _ => if SFltb x y then y else x
  end.

(** [as] towards an integer type with bounds [lo] and [hi]: towards zero and
    saturating, a [NaN] gives zero. *)
Definition as_int (lo hi : Z) (x : f64) : Z :=
  match x with
  | S754_zero _ => 0
  | S754_nan => 0
  | S754_infinity s => if s then lo else hi
  | S754_finite s m e =>
      let n := if 0 <=? e then Z.pos m * 2 ^ e else Z.pos m / 2 ^ (- e) in
      Z.max lo (Z.min hi (if s then - n else n))
  end.

Definition as_u32 : f64 -> Z := as_int 0 (2 ^ 32 - 1).
Definition as_i32 : f64 -> Z := as_int (- 2 ^ 31) (2 ^ 31 - 1).

(** * Lemmas *)

Lemma as_int_bounds lo hi x : lo <= 0 <= hi -> lo <= as_int lo hi x <= hi.
Proof. intros H. destruct x as [s|s| |s m e]; cbn [as_int]; [lia|destruct s; lia|lia|lia]. Qed.

Example rounds_halves_away :
  as_i32 (round (fdiv (f64_of 5) (f64_of 2))) = 3 /\ as_i32 (round (fdiv (f64_of (-5)) (f64_of 2))) = -3 /\
  as_u32 (fmax (round (fdiv (f64_of 1) (f64_of 3))) (f64_of 1)) = 1 /\
  as_u32 (fmax S754_nan (f64_of 1)) = 1 /\ as_u32 (fdiv (f64_of 1) (f64_of 0)) = 2 ^ 32 - 1.
Proof. by vm_compute. Qed.
