(* ===== verification/MacInject.v ===== *)
(** Injection on macOS: the model of [src/sardp-mac/src/inject.rs].  [InputState]
    decides what to post; a thread posts it. *)

From S2P Require Import Prelude.
From S2P Require Import Float64.
From S2P Require Import Unicode.
From S2P Require KeyTable.
From S2P Require MacKeymap.
From S2P Require InputState.
From S2P Require WorkerHandle.
From S2P Require Import InputInjection.

(** * Definitions *)

Module button.
Definition LEFT : Z := 1.
Definition RIGHT : Z := 2.
Definition MIDDLE : Z := 3.
Definition X1 : Z := 4.
Definition X2 : Z := 5.
End button.

Module flag.
Definition ALPHA_SHIFT : Z := 0x00010000.
Definition SHIFT : Z := 0x00020000.
Definition CONTROL : Z := 0x00040000.
Definition ALTERNATE : Z := 0x00080000.
Definition COMMAND : Z := 0x00100000.
Definition NUMERIC_PAD : Z := 0x00200000.
Definition DEVICE_LCTRL : Z := 0x00000001.
Definition DEVICE_LSHIFT : Z := 0x00000002.
Definition DEVICE_RSHIFT : Z := 0x00000004.
Definition DEVICE_LCMD : Z := 0x00000008.
Definition DEVICE_RCMD : Z := 0x00000010.
Definition DEVICE_LALT : Z := 0x00000020.
Definition DEVICE_RALT : Z := 0x00000040.
Definition DEVICE_RCTRL : Z := 0x00002000.
End flag.

(** Usage, group mask, device mask. *)
Definition MODIFIERS : list (Z * Z * Z) :=
  [(0xE0, flag.CONTROL, flag.DEVICE_LCTRL); (0xE1, flag.SHIFT, flag.DEVICE_LSHIFT);
   (0xE2, flag.ALTERNATE, flag.DEVICE_LALT); (0xE3, flag.COMMAND, flag.DEVICE_LCMD);
   (0xE4, flag.CONTROL, flag.DEVICE_RCTRL); (0xE5, flag.SHIFT, flag.DEVICE_RSHIFT);
   (0xE6, flag.ALTERNATE, flag.DEVICE_RALT); (0xE7, flag.COMMAND, flag.DEVICE_RCMD)].

(** The interval in microseconds; the pauses between the units of a text are left
    out. *)
Record InjectorConfig := {
  output_origin : f64 * f64;
  scale : f64;
  double_click_interval : Z;
  double_click_slop : f64;
}.

(** [InjectorConfig::default]. *)
Definition default_config : InjectorConfig :=
  {| output_origin := (f64_of 0, f64_of 0); scale := f64_of 1; double_click_interval := 500000;
     double_click_slop := f64_of 4 |}.

Inductive MouseKind := Move | Down | Up | Drag.

#[export] Instance mouse_kind_eq : EqDecision MouseKind.
Proof. solve_decision. Defined.

Inductive Post :=
| PostKey (key_code : Z) (down : bool) (flags : Z)
| PostText (text : string)
| PostMouse (kind : MouseKind) (button : Z) (x y : f64) (click_state flags : Z)
| PostScroll (lines_dy lines_dx flags : Z)
| Nothing.

Record LastClick := { lc_button : Z; at_us : Z; lc_position : f64 * f64; lc_click_state : Z }.

Record InputState := {
  config : InjectorConfig;
  modifiers : Z;
  buttons : Z;
  position : f64 * f64;
  last_click : option LastClick;
}.

Definition new (config : InjectorConfig) : InputState :=
  {| config := config; modifiers := 0; buttons := 0; position := output_origin config; last_click := None |}.

Definition has_bit (mask i : Z) : bool := negb (Z.land mask (Z.shiftl 1 i) =? 0).

(** [iter().enumerate()]. *)
Definition numbered : list (Z * (Z * Z * Z)) := zip (seqZ 0 8) MODIFIERS.

Definition flags (s : InputState) : Z :=
  fold_left (fun fl '(i, (_, group, device)) =>
    if has_bit (modifiers s) i then Z.lor fl (Z.lor group device) else fl) numbered 0.

Definition pressed_buttons (s : InputState) : Z := buttons s.

Definition pressed_modifiers (s : InputState) : list Z :=
  map (fun '(_, (hid, _, _)) => hid) (List.filter (fun '(i, _) => has_bit (modifiers s) i) numbered).

Definition set_modifiers (m : Z) (s : InputState) : InputState :=
  {| config := config s; modifiers := m; buttons := buttons s; position := position s;
     last_click := last_click s |}.

(** Setting and clearing a bit of a [u8]. *)
Definition with_bit (down : bool) (bit mask : Z) : Z :=
  if down then Z.lor mask (Z.shiftl 1 bit) else Z.land mask (255 - Z.shiftl 1 bit).

Definition key (hid_usage : Z) (down : bool) (s : InputState) : Post * InputState :=
  match MacKeymap.hid_to_virtual_key hid_usage with
  | None => (Nothing, s)
  | Some key_code =>
      let s :=
        if MacKeymap.is_modifier hid_usage
        then set_modifiers (with_bit down (hid_usage - 0xE0) (modifiers s)) s else s in
      let fl := flags s in
      let fl := if MacKeymap.is_numeric_pad hid_usage then Z.lor fl flag.NUMERIC_PAD else fl in
      (PostKey key_code down fl, s)
  end.

Definition text (t : string) (s : InputState) : Post * InputState :=
  (match t with EmptyString => Nothing | _ => PostText t end, s).

Definition to_points (x_px y_px : Z) (s : InputState) : f64 * f64 :=
  let scale := if SFltb (f64_of 0) (scale (config s)) then scale (config s) else f64_of 1 in
  (fadd (output_origin (config s)).1 (fdiv (f64_of x_px) scale),
   fadd (output_origin (config s)).2 (fdiv (f64_of y_px) scale)).

Definition lowest_pressed_button (s : InputState) : option Z :=
  List.find (has_bit (buttons s)) (seqZ 1 7).

Definition cg_button (button : Z) : Z :=
  if button =? button.RIGHT then 1
  else if button =? button.MIDDLE then 2
  else if button =? button.X1 then 3
  else if button =? button.X2 then 4
  else 0.

Definition mouse_move (x_px y_px : Z) (s : InputState) : Post * InputState :=
  let p := to_points x_px y_px s in
  let s :=
    {| config := config s; modifiers := modifiers s; buttons := buttons s; position := p;
       last_click := last_click s |} in
  let '(kind, button) :=
    match lowest_pressed_button s with Some b => (Drag, cg_button b) | None => (Move, 0) end in
  (PostMouse kind button p.1 p.2
     (if bool_decide (kind = Drag) then from_option lc_click_state 1 (last_click s) else 0) (flags s), s).

Definition distance (a b : f64 * f64) : f64 :=
  let dx := fsub a.1 b.1 in
  let dy := fsub a.2 b.2 in
  fsqrt (fadd (fmul dx dx) (fmul dy dy)).

(** Whether a press continues the last one's clicks. *)
Definition continues (button now_us : Z) (s : InputState) (last : LastClick) : bool :=
  (lc_button last =? button)
  && (sat_sub now_us (at_us last) <=? wrap 64 (double_click_interval (config s)))
  && SFleb (distance (lc_position last) (position s)) (double_click_slop (config s)).

Definition mouse_button (button : Z) (down : bool) (now_us : Z) (s : InputState) : Post * InputState :=
  let s :=
    {| config := config s; modifiers := modifiers s;
       buttons := with_bit down (Z.min button 7) (buttons s); position := position s;
       last_click := last_click s |} in
  let '(click_state, s) :=
    if down then
      let state :=
        match last_click s with
        | Some last => if continues button now_us s last then Z.min (lc_click_state last + 1) 3 else 1
        | None => 1
        end in
      (state,
       {| config := config s; modifiers := modifiers s; buttons := buttons s; position := position s;
          last_click := Some {| lc_button := button; at_us := now_us; lc_position := position s;
                                lc_click_state := state |} |})
    else
      (match last_click s with
       | Some last => if lc_button last =? button then lc_click_state last else 1
       | None => 1
       end, s) in
  (PostMouse (if down then Down else Up) (cg_button button) (position s).1 (position s).2 click_state (flags s), s).

Definition wheel_to_lines (delta : Z) : Z :=
  let lines := Z.quot delta 120 in
  if negb (lines =? 0) then lines else if delta >? 0 then 1 else if delta <? 0 then -1 else 0.

Definition wheel (dx dy : Z) (s : InputState) : Post * InputState :=
  let lines_dy := wheel_to_lines dy in
  let lines_dx := wheel_to_lines dx in
  (if (lines_dy =? 0) && (lines_dx =? 0) then Nothing else PostScroll lines_dy lines_dx (flags s), s).

(** What the thread makes of a command it gets to at [now_us]. *)
Definition post_of (now_us : Z) (c : InjectCommand) : InputState -> Post * InputState :=
  match c with
  | InjectKey hid_usage down => key hid_usage down
  | InjectText t => text t
  | InjectMouseMove x y => mouse_move x y
  | InjectMouseButton button down => mouse_button button down now_us
  | InjectWheel dx dy => wheel dx dy
  end.

(** ** Posting *)

Definition is_combining (c : Z) : bool :=
  ((0x0300 <=? c) && (c <=? 0x036F)) || ((0x1AB0 <=? c) && (c <=? 0x1AFF))
  || ((0x1DC0 <=? c) && (c <=? 0x1DFF)) || ((0x20D0 <=? c) && (c <=? 0x20FF))
  || ((0xFE20 <=? c) && (c <=? 0xFE2F)) || ((0x3099 <=? c) && (c <=? 0x309A))
  || (c =? 0x200D) || ((0xFE0E <=? c) && (c <=? 0xFE0F)).

(** On characters rather than byte indices: [current] is what lies between
    [start] and the character the loop is at. *)
Fixpoint split_from (current cs : list Z) : list (list Z) :=
  match cs with
  | [] => match current with [] => [] | _ => [current] end
  | c :: cs =>
      if negb (bool_decide (current = [])) && negb (is_combining c)
      then current :: split_from [c] cs
      else split_from (current ++ [c]) cs
  end.

Definition split_graphemes (t : string) : list string := map string_of (split_from [] (chars_of t)).

(** The shim: whether it takes the next posts, all of them when the list has run
    out, and what it took. *)
Record Injector := { takes : list bool; posted : list Post }.

Definition injector : Injector := {| takes := []; posted := [] |}.

Definition post (p : Post) (i : Injector) : result unit unit * Injector :=
  match takes i with
  | false :: rest => (Err tt, {| takes := rest; posted := posted i |})
  | takes => (Ok tt, {| takes := tail takes; posted := posted i ++ [p] |})
  end.

(** The loop over the clusters of a text, left on the first failure. *)
Fixpoint post_clusters (clusters : list string) (i : Injector) : result unit unit * Injector :=
  match clusters with
  | [] => (Ok tt, i)
  | c :: clusters =>
      match post (PostText c) i with
      | (Ok _, i) => post_clusters clusters i
      | (Err e, i) => (Err e, i)
      end
  end.

Definition perform (p : Post) (i : Injector) : result unit unit * Injector :=
  match p with
  | Nothing => (Ok tt, i)
  | PostText t => post_clusters (split_graphemes t) i
  | p => post p i
  end.

(** ** The injector's thread *)

(** A command, with the time at which the thread gets to it. *)
Definition timed : Type := Z * InjectCommand.

Definition inject_one (c : timed) (s : InputState * Injector) : option (InputState * Injector) :=
  let '(p, state) := post_of c.1 c.2 s.1 in
  Some (state, (perform p s.2).2).

(** The handle has the fields and the drop of a [WorkerHandle]. *)
Definition InputInjector := WorkerHandle.WorkerHandle timed (InputState * Injector).

(** [InputInjector::start], where Accessibility may not be granted. *)
Definition start (trusted : bool) (config : InjectorConfig) : result unit InputInjector :=
  if trusted then Ok (WorkerHandle.new (new config, injector)) else Err tt.

Definition inject (c : timed) (i : InputInjector) : outcome (result unit unit * InputInjector) :=
  '(r, i) ← WorkerHandle.send c i; Done (map_err (fun _ => tt) r, i).

(** ** Runs *)

(** The device after some commands. *)
Definition device (cs : list timed) (s : InputState) : InputState :=
  fold_left (fun s c => (post_of c.1 c.2 s).2) cs s.

Definition held (cs : list timed) : InputState.PressedInputs :=
  InputState.press_all (flat_map (fun c => command_input c.2) cs).

(** A button number is a [u8]. *)
Definition typed_command (c : InjectCommand) : Prop :=
  match c with InjectMouseButton b _ => is_u8 b | _ => True end.

Definition post_flags (p : Post) : option Z :=
  match p with
  | PostKey _ _ fl | PostMouse _ _ _ _ _ fl | PostScroll _ _ fl => Some fl
  | _ => None
  end.

Definition click_of (p : Post) : option Z :=
  match p with PostMouse _ _ _ _ n _ => Some n | _ => None end.

Definition is_press (c : InjectCommand) : bool :=
  match c with InjectMouseButton _ true => true | _ => false end.

(** * Lemmas *)

(** ** Bits of a byte *)

Lemma flag_bit_testbit m i : 0 <= i -> has_bit m i = Z.testbit m i.
Proof.
  intros Hi. unfold has_bit. rewrite Z.shiftl_1_l. destruct (Z.testbit m i) eqn:E.
  - apply negb_true_iff, Z.eqb_neq. intros H0. apply (f_equal (fun z => Z.testbit z i)) in H0.
    rewrite Z.land_spec, E, Z.pow2_bits_true, Z.bits_0 in H0 by done. done.
  - apply negb_false_iff, Z.eqb_eq. apply Z.bits_inj'. intros j Hj.
    rewrite Z.land_spec, Z.bits_0, Z.pow2_bits_eqb by done.
    destruct (Z.eqb_spec i j) as [<-|]; [by rewrite E|apply andb_false_r].
Qed.

Lemma u8_bits m : is_u8 m -> forall i, 8 <= i -> Z.testbit m i = false.
Proof.
  intros Hm i Hi. widths. destruct (Z.eq_dec m 0) as [->|]; [apply Z.bits_0|].
  apply Z.bits_above_log2; [lia|]. assert (Z.log2 m < 8) by (apply Z.log2_lt_pow2; lia). lia.
Qed.

Lemma bits_u8 m : 0 <= m -> (forall i, 8 <= i -> Z.testbit m i = false) -> is_u8 m.
Proof.
  intros Hm Hb. widths. split; [done|]. destruct (Z.lt_ge_cases m 256) as [|Hge]; [done|]. exfalso.
  assert (8 <= Z.log2 m) as Hl by (apply Z.log2_le_pow2; lia).
  specialize (Hb _ Hl). rewrite Z.bit_log2 in Hb by lia. done.
Qed.

Lemma with_bit_spec down b m :
  is_u8 m -> 0 <= b < 8 ->
  is_u8 (with_bit down b m) /\
  forall i, 0 <= i < 8 -> Z.testbit (with_bit down b m) i = if i =? b then down else Z.testbit m i.
Proof.
  intros Hm Hb. pose proof (u8_bits m Hm) as Hhigh. assert (0 <= m) as H0 by (widths; lia).
  unfold with_bit. rewrite Z.shiftl_1_l.
  assert (0 <= 2 ^ b <= 128) as Hp.
  { split; [apply Z.pow_nonneg; lia|]. change 128 with (2 ^ 7). apply Z.pow_le_mono_r; lia. }
  destruct down; split.
  - apply bits_u8; [apply Z.lor_nonneg; lia|]. intros i Hi. rewrite Z.lor_spec, Hhigh, Z.pow2_bits_false by lia. done.
  - intros i Hi. rewrite Z.lor_spec, Z.pow2_bits_eqb, (Z.eqb_sym i b) by lia.
    destruct (b =? i); [apply orb_true_r|apply orb_false_r].
  - apply bits_u8; [apply Z.land_nonneg; lia|]. intros i Hi. by rewrite Z.land_spec, Hhigh.
  - intros i Hi. rewrite Z.land_spec.
    assert (Z.testbit (255 - 2 ^ b) i = negb (i =? b)) as ->.
    { assert (b ∈ seqZ 0 8) as Hb' by (apply elem_of_seqZ; lia). assert (i ∈ seqZ 0 8) as Hi' by (apply elem_of_seqZ; lia).
      assert (Forall (fun b => Forall (fun i => Z.testbit (255 - 2 ^ b) i = negb (i =? b)) (seqZ 0 8)) (seqZ 0 8)) as Hall.
      { apply (bool_decide_unpack _). vm_compute. exact I. }
      rewrite Forall_forall in Hall. specialize (Hall _ Hb'). rewrite Forall_forall in Hall. by apply Hall. }
    destruct (i =? b); [apply andb_false_r|apply andb_true_r].
Qed.

(** ** What the device remembers *)

(** The bits of [s] are the modifiers and buttons of [p]; the buttons from 7 on
    share one. *)
Definition follows (p : InputState.PressedInputs) (s : InputState) : Prop :=
  is_u8 (modifiers s) /\ is_u8 (buttons s) /\
  (forall i, 0 <= i < 8 -> Z.testbit (modifiers s) i = bool_decide (0xE0 + i ∈ InputState.keys p)) /\
  (forall b, 0 <= b < 7 -> Z.testbit (buttons s) b = bool_decide (b ∈ InputState.buttons p)) /\
  (Z.testbit (buttons s) 7 = true -> exists b, 7 <= b /\ b ∈ InputState.buttons p).

Lemma follows_new c : follows InputState.new_pressed (new c).
Proof.
  split_and!; [by widths|by widths| | |]; cbn [new modifiers buttons].
  - intros i _. by rewrite Z.bits_0.
  - intros i _. by rewrite Z.bits_0.
  - by rewrite Z.bits_0.
Qed.

(** Nothing but a modifier touches the modifiers. *)
Lemma follows_other_key p s k down :
  MacKeymap.is_modifier k = false -> follows p s -> follows (InputState.on_key k down p) s.
Proof.
  unfold MacKeymap.is_modifier. rewrite andb_false_iff. intros Hk (Hm & Hb & Hms & Hbs & H7).
  split_and!; try done. intros i Hi. rewrite Hms by done. apply bool_decide_ext.
  cbn [InputState.on_key InputState.keys]. destruct down; set_unfold; split; try tauto; intros; destruct_and?; try lia.
  - destruct H as [H|H]; [lia|done].
  - split; [done|lia].
Qed.

Lemma follows_modifier p s k down :
  MacKeymap.is_modifier k = true -> follows p s ->
  follows (InputState.on_key k down p) (set_modifiers (with_bit down (k - 0xE0) (modifiers s)) s).
Proof.
  unfold MacKeymap.is_modifier. rewrite andb_true_iff. intros Hk (Hm & Hb & Hms & Hbs & H7).
  destruct (with_bit_spec down (k - 0xE0) (modifiers s) Hm ltac:(lia)) as [Hu Hbits].
  split_and!; try done. intros i Hi. cbn [set_modifiers modifiers]. rewrite Hbits, Hms by done.
  cbn [InputState.on_key InputState.keys]. destruct (Z.eqb_spec i (k - 0xE0)) as [->|Hne].
  - replace (0xE0 + (k - 0xE0)) with k by lia. destruct down; symmetry.
    + apply bool_decide_eq_true. set_solver.
    + apply bool_decide_eq_false. set_solver.
  - apply bool_decide_ext. destruct down; set_unfold; split; intros; destruct_and?; try tauto; try (split; [done|]); try lia.
    destruct H as [H|H]; [lia|done].
Qed.

Lemma follows_button p s b down :
  is_u8 b -> follows p s ->
  follows (InputState.on_button b down p)
    {| config := config s; modifiers := modifiers s; buttons := with_bit down (Z.min b 7) (buttons s);
       position := position s; last_click := last_click s |}.
Proof.
  intros Hub (Hm & Hb & Hms & Hbs & H7). widths.
  destruct (with_bit_spec down (Z.min b 7) (buttons s) Hb ltac:(lia)) as [Hu Hbits].
  split_and!; try done.
  - intros i Hi. cbn [buttons]. rewrite Hbits, Hbs by lia. cbn [InputState.on_button InputState.buttons].
    destruct (Z.eqb_spec i (Z.min b 7)) as [->|Hne].
    + replace (Z.min b 7) with b by lia. destruct down; symmetry.
      * apply bool_decide_eq_true. set_solver.
      * apply bool_decide_eq_false. set_solver.
    + apply bool_decide_ext. destruct down; set_unfold; split; intros; destruct_and?; try tauto; try (split; [done|]); try lia.
      destruct H as [H|H]; [lia|done].
  - cbn [buttons]. rewrite Hbits by lia. cbn [InputState.on_button InputState.buttons].
    destruct (Z.eqb_spec 7 (Z.min b 7)) as [He|Hne].
    + intros ->. exists b. split; [lia|set_solver].
    + intros (n & Hn & Hin)%H7. exists n. split; [done|]. destruct down; set_unfold; [by right|split; [done|lia]].
Qed.

(** The position and the clicks do not matter. *)
Lemma follows_ext p s s' :
  modifiers s' = modifiers s -> buttons s' = buttons s -> follows p s -> follows p s'.
Proof. unfold follows. by intros -> ->. Qed.

Lemma post_of_follows p s t c :
  typed_command c -> follows p s -> follows (fold_left InputState.on_input (command_input c) p) (post_of t c s).2.
Proof.
  intros Hc Hf. destruct c as [k down|tx|x y|b down|x y]; cbn [post_of command_input fold_left InputState.on_input].
  - unfold key. destruct (MacKeymap.hid_to_virtual_key k) eqn:Ek; cbn [snd].
    + destruct (MacKeymap.is_modifier k) eqn:Em; [by apply follows_modifier|by apply follows_other_key].
    + destruct (MacKeymap.is_modifier k) eqn:Em; [|by apply follows_other_key].
      apply MacKeymap.modifier_mapped in Em as [? ?]. congruence.
  - done.
  - unfold mouse_move. cbn [to_points]. case_match. cbn [snd]. by eapply follows_ext; [..|exact Hf].
  - unfold mouse_button. pose proof (follows_button p s b down Hc Hf) as Hb.
    destruct down; cbn [snd]; by eapply follows_ext; [..|exact Hb].
  - done.
Qed.

Lemma device_follows cs c :
  Forall (fun c => typed_command c.2) cs -> follows (held cs) (device cs (new c)).
Proof.
  induction cs as [|x cs IH] using rev_ind; intros Hcs; [apply follows_new|].
  apply Forall_snoc in Hcs as [Hcs Hx]. unfold device, held in *. rewrite fold_left_snoc, flat_map_app.
  unfold InputState.press_all. rewrite fold_left_app. cbn [flat_map]. rewrite app_nil_r.
  apply post_of_follows; [done|]. by apply IH.
Qed.

(** All of it can be read off. *)
Lemma all_numbered : Forall (fun y => 0 <= y.1 < 8 /\ y.2 ∈ MODIFIERS /\ y.2.1.1 = 0xE0 + y.1) numbered.
Proof. apply (bool_decide_unpack _). vm_compute. exact I. Qed.

Lemma modifier_numbered k :
  MacKeymap.is_modifier k = true -> exists group device, (k - 0xE0, (k, group, device)) ∈ numbered.
Proof.
  unfold MacKeymap.is_modifier. rewrite andb_true_iff, !Z.leb_le. intros Hk.
  assert (Forall (fun i => Exists (fun y => y.1 = i /\ y.2.1.1 = 0xE0 + i) numbered) (seqZ 0 8)) as Hall.
  { apply (bool_decide_unpack _). vm_compute. exact I. }
  rewrite Forall_forall in Hall. specialize (Hall (k - 0xE0) ltac:(apply elem_of_seqZ; lia)).
  apply Exists_exists in Hall as ([i [[hid g] d]] & Hin & Hi & Hhid). cbn in Hi, Hhid. subst i hid.
  exists g, d. by replace (0xE0 + (k - 0xE0)) with k in Hin by lia.
Qed.

Lemma pressed_modifiers_spec p s k :
  follows p s -> k ∈ pressed_modifiers s <-> MacKeymap.is_modifier k = true /\ k ∈ InputState.keys p.
Proof.
  intros (_ & _ & Hms & _). pose proof all_numbered as Hall. rewrite Forall_forall in Hall.
  unfold pressed_modifiers, MacKeymap.is_modifier. rewrite andb_true_iff, !Z.leb_le, list_elem_of_In, in_map_iff. split.
  - intros ([i [[hid g] d]] & <- & [Hin Hb]%filter_In). apply list_elem_of_In in Hin.
    destruct (Hall _ Hin) as (Hi & _ & He). cbn in Hi, He, Hb. subst hid.
    rewrite flag_bit_testbit, Hms, bool_decide_eq_true in Hb by lia. split; [lia|done].
  - intros [Hk Hp]. destruct (modifier_numbered k) as (g & d & Hin); [by apply andb_true_iff; rewrite !Z.leb_le|].
    exists (k - 0xE0, (k, g, d)). split; [done|]. apply filter_In. split; [by apply list_elem_of_In|].
    rewrite flag_bit_testbit, Hms by lia. apply bool_decide_eq_true. by replace (0xE0 + (k - 0xE0)) with k by lia.
Qed.

Lemma follows_nothing s : follows InputState.new_pressed s -> pressed_modifiers s = [] /\ buttons s = 0.
Proof.
  intros Hf. split.
  - destruct (pressed_modifiers s) as [|k l] eqn:E; [done|]. exfalso.
    assert (k ∈ pressed_modifiers s) as Hk by (rewrite E; by left).
    apply (pressed_modifiers_spec _ _ _ Hf) in Hk as [_ Hk]. by apply not_elem_of_empty in Hk.
  - destruct Hf as (_ & Hb & _ & Hbs & H7). apply Z.bits_inj'. intros i Hi. rewrite Z.bits_0.
    destruct (Z.lt_ge_cases i 7) as [Hlt|Hge].
    + rewrite Hbs by lia. apply bool_decide_eq_false. by apply not_elem_of_empty.
    + destruct (Z.eq_dec i 7) as [->|]; [|apply u8_bits; [done|lia]].
      destruct (Z.testbit (buttons s) 7); [|done]. destruct (H7 eq_refl) as (b & _ & Hin).
      by apply not_elem_of_empty in Hin.
Qed.

(** ** The flags *)

Definition flags_of (m : Z) : Z :=
  fold_left (fun fl '(i, (_, group, device)) => if has_bit m i then Z.lor fl (Z.lor group device) else fl) numbered 0.

(** All 256 states of the modifiers, with and without the flag of the keypad: a
    device bit is set for its key, a group bit for either key of the group. *)
Lemma flags_table :
  forallb (fun m => forallb (fun pad =>
    forallb (fun '(i, (_, group, device)) =>
      let fl := Z.lor (flags_of m) pad in
      Bool.eqb (negb (Z.land fl device =? 0)) (has_bit m i)
      && Bool.eqb (negb (Z.land fl group =? 0))
           (existsb (fun '(j, (_, group', _)) => (group' =? group) && has_bit m j) numbered)) numbered)
    [0; flag.NUMERIC_PAD]) (seqZ 0 256) = true.
Proof. vm_compute. reflexivity. Qed.

Lemma elem_of_numbered i x : (i, x) ∈ numbered -> 0 <= i < 8 /\ x ∈ MODIFIERS /\ x.1.1 = 0xE0 + i.
Proof. intros Hin. pose proof all_numbered as Hall. rewrite Forall_forall in Hall. exact (Hall _ Hin). Qed.

Lemma numbered_modifier hid group device :
  (hid, group, device) ∈ MODIFIERS -> (hid - 0xE0, (hid, group, device)) ∈ numbered.
Proof.
  assert (Forall (fun x => (x.1.1 - 0xE0, x) ∈ numbered) MODIFIERS) as Hall.
  { apply (bool_decide_unpack _). vm_compute. exact I. }
  rewrite Forall_forall in Hall. intros Hin. exact (Hall _ Hin).
Qed.

(** What flags say of the keys held. *)
Definition says (p : InputState.PressedInputs) (fl : Z) : Prop :=
  forall hid group device, (hid, group, device) ∈ MODIFIERS ->
    (Z.land fl device ≠ 0 <-> hid ∈ InputState.keys p) /\
    (Z.land fl group ≠ 0 <-> exists hid' device', (hid', group, device') ∈ MODIFIERS /\ hid' ∈ InputState.keys p).

Lemma flags_say p s pad :
  follows p s -> pad = 0 \/ pad = flag.NUMERIC_PAD -> says p (Z.lor (flags s) pad).
Proof.
  intros (Hm & _ & Hms & _) Hpad hid group device Hin.
  change (flags s) with (flags_of (modifiers s)). pose proof flags_table as Ht.
  rewrite forallb_forall in Ht. specialize (Ht (modifiers s)). rewrite forallb_forall in Ht.
  specialize (Ht ltac:(apply list_elem_of_In, elem_of_seqZ; widths; lia) pad).
  rewrite forallb_forall in Ht.
  assert (forall i x, (i, x) ∈ numbered -> has_bit (modifiers s) i = bool_decide (x.1.1 ∈ InputState.keys p)) as Hbit.
  { intros i x (Hi & _ & ->)%elem_of_numbered. by rewrite flag_bit_testbit, Hms by lia. }
  pose proof (numbered_modifier _ _ _ Hin) as Hnum.
  assert (In pad [0; flag.NUMERIC_PAD]) as Hpad' by (cbn; intuition congruence).
  specialize (Ht Hpad' (hid - 0xE0, (hid, group, device))
    ltac:(by apply list_elem_of_In)).
  cbv beta iota zeta in Ht. apply andb_true_iff in Ht as [Hd Hg].
  apply eqb_prop in Hd, Hg. split.
  - rewrite <- Z.eqb_neq, <- negb_true_iff, Hd, (Hbit _ _ Hnum). apply bool_decide_eq_true.
  - rewrite <- Z.eqb_neq, <- negb_true_iff, Hg, existsb_exists. split.
    + intros ([j [[hid' g'] d']] & Hj & Hb). apply list_elem_of_In in Hj.
      apply andb_true_iff in Hb as [Hgr%Z.eqb_eq Hb]. subst g'. exists hid', d'.
      rewrite (Hbit _ _ Hj), bool_decide_eq_true in Hb. split; [|done]. by apply elem_of_numbered in Hj as (_ & ? & _).
    + intros (hid' & d' & Hin' & Hk).
      pose proof (numbered_modifier _ _ _ Hin') as Hnum'.
      exists (hid' - 0xE0, (hid', group, d')). split; [by apply list_elem_of_In|].
      rewrite Z.eqb_refl, (Hbit _ _ Hnum'). by apply bool_decide_eq_true.
Qed.

(** ** Clicks *)

Definition clicks_ok (s : InputState) : Prop :=
  match last_click s with Some l => 1 <= lc_click_state l <= 3 | None => True end.

(** Only a press changes what is remembered of the last one. *)
Lemma post_of_last_click t c s : is_press c = false -> last_click (post_of t c s).2 = last_click s.
Proof.
  destruct c as [k down|tx|x y|b down|x y]; intros Hp; cbn [post_of].
  - unfold key. destruct (MacKeymap.hid_to_virtual_key k); [|done]. by destruct (MacKeymap.is_modifier k).
  - done.
  - unfold mouse_move. by destruct (lowest_pressed_button _).
  - by destruct down.
  - done.
Qed.

Lemma post_of_clicks t c s : clicks_ok s -> clicks_ok (post_of t c s).2.
Proof.
  unfold clicks_ok. intros Hs. destruct (is_press c) eqn:Ep; [|by rewrite post_of_last_click].
  destruct c as [| | |b []|]; try done. cbn [post_of mouse_button snd last_click lc_click_state].
  destruct (last_click s) as [l|]; [destruct (continues _ _ _ l)|]; lia.
Qed.

Lemma device_clicks cs s : clicks_ok s -> clicks_ok (device cs s).
Proof. revert s. induction cs as [|c cs IH]; intros s Hs; [done|]. by apply IH, post_of_clicks. Qed.

Lemma device_last_click cs s :
  forallb (fun c => negb (is_press c.2)) cs = true -> last_click (device cs s) = last_click s.
Proof.
  revert s. induction cs as [|c cs IH]; intros s Hs; [done|]. cbn [forallb] in Hs.
  apply andb_true_iff in Hs as [Hc%negb_true_iff Hcs]. cbn [device fold_left].
  change (fold_left _ cs ?s) with (device cs s). by rewrite IH, post_of_last_click.
Qed.

(** ** Text *)

Lemma split_from_concat current cs : concat (split_from current cs) = current ++ cs.
Proof.
  revert current. induction cs as [|c cs IH]; intros current; cbn [split_from].
  - by destruct current; cbn; rewrite ?app_nil_r.
  - destruct (_ && _); cbn [concat]; rewrite IH; [done|]. by rewrite <- app_assoc.
Qed.

(** No cluster is empty, and only its first character may start one. *)
Lemma split_from_clusters current cs :
  current = [] \/ (exists c cc, current = c :: cc /\ forallb is_combining cc = true) ->
  Forall (fun cluster => exists c cc, cluster = c :: cc /\ forallb is_combining cc = true) (split_from current cs).
Proof.
  revert current. induction cs as [|c cs IH]; intros current Hc; cbn [split_from].
  - destruct Hc as [->|(c & cc & -> & Hcc)]; [constructor|]. constructor; [by exists c, cc|constructor].
  - destruct Hc as [->|(c0 & cc & -> & Hcc)].
    + apply IH. right. by exists c, [].
    + rewrite bool_decide_false by done. cbn [negb andb]. destruct (is_combining c) eqn:Ec; cbn [negb].
      * apply IH. right. exists c0, (cc ++ [c]). split; [done|]. rewrite forallb_app, Hcc. cbn. by rewrite Ec.
      * constructor; [by exists c0, cc|]. apply IH. right. by exists c, [].
Qed.

(** A shim that takes everything. *)
Lemma post_all p i : takes i = [] -> post p i = (Ok tt, {| takes := []; posted := posted i ++ [p] |}).
Proof. intros Ht. unfold post. by rewrite Ht. Qed.

Lemma post_clusters_all clusters i :
  takes i = [] -> post_clusters clusters i = (Ok tt, {| takes := []; posted := posted i ++ map PostText clusters |}).
Proof.
  revert i. induction clusters as [|c cs IH]; intros i Ht; cbn [post_clusters map].
  { rewrite app_nil_r. destruct i; cbn in *. by subst. }
  rewrite post_all by done. rewrite IH by done. cbn [posted]. by rewrite <- app_assoc.
Qed.

(** The characters a post types. *)
Definition typed_by (p : Post) : list Z := match p with PostText t => chars_of t | _ => [] end.

Definition posts_of (p : Post) : list Post := posted (perform p injector).2.

Lemma posts_all p i : takes i = [] -> perform p i = (Ok tt, {| takes := []; posted := posted i ++ posts_of p |}).
Proof.
  intros Ht. unfold posts_of. destruct p; cbn [perform];
    rewrite ?post_all, ?post_clusters_all by done; try done.
  destruct i; cbn in *. subst. by rewrite app_nil_r.
Qed.

(** Splitting a text into clusters loses nothing of it. *)
Lemma split_graphemes_typed cs :
  Forall (fun c => is_scalar c = true) cs ->
  flat_map chars_of (split_graphemes (string_of cs)) = cs.
Proof.
  intros Hcs. unfold split_graphemes. rewrite chars_of_string_of by done.
  assert (forall ls, concat ls = cs -> flat_map chars_of (map string_of ls) = concat ls) as Hall.
  { intros ls. revert cs Hcs. induction ls as [|l ls IH]; intros cs Hcs Hls; [done|]. cbn [concat map flat_map] in *.
    rewrite <- Hls in Hcs. apply Forall_app in Hcs as [Hl Hrest]. rewrite chars_of_string_of by done.
    by rewrite (IH _ Hrest eq_refl). }
  rewrite Hall; apply split_from_concat.
Qed.

(** ** The thread *)

(** What commands have posted, one after the other. *)
Fixpoint posts (cs : list timed) (s : InputState) : list Post :=
  match cs with
  | [] => []
  | c :: cs => let '(p, s') := post_of c.1 c.2 s in posts_of p ++ posts cs s'
  end.

Lemma mac_injected_in_order cs s i :
  takes i = [] ->
  WorkerHandle.in_order inject_one cs (s, i)
  = Some (device cs s, {| takes := []; posted := posted i ++ posts cs s |}).
Proof.
  revert s i. induction cs as [|c cs IH]; intros s i Hi.
  { cbn. rewrite app_nil_r. destruct i; cbn in *. by subst. }
  assert (inject_one c (s, i)
    = Some ((post_of c.1 c.2 s).2, {| takes := []; posted := posted i ++ posts_of (post_of c.1 c.2 s).1 |})) as Hc.
  { unfold inject_one. cbn [fst snd]. destruct (post_of c.1 c.2 s) as [p s']. by rewrite posts_all. }
  rewrite WorkerHandle.in_order_cons, Hc.
  cbn [mbind option_bind posts device fold_left]. rewrite IH by done. cbn [posted].
  destruct (post_of c.1 c.2 s) as [p s']. by rewrite <- app_assoc.
Qed.

(** *** What is down on the desktop *)

(** A posted event, as the desktop sees it: a key code or a button number that goes
    down or up. *)
Definition post_input (p : Post) : list InputState.input :=
  match p with
  | PostKey key_code down _ => [InputState.KeyInput key_code down]
  | PostMouse Down b _ _ _ _ => [InputState.ButtonInput b true]
  | PostMouse Up b _ _ _ _ => [InputState.ButtonInput b false]
  | _ => []
  end.

(** What the events posted so far leave down: key codes and button numbers. *)
Definition down_after (ps : list Post) : InputState.PressedInputs := InputState.press_all (flat_map post_input ps).

(** A key or button of a session, by the code or number it has here, if any. *)
Definition mac_input (i : InputState.input) : list InputState.input :=
  match i with
  | InputState.KeyInput k down =>
      match MacKeymap.hid_to_virtual_key k with Some key_code => [InputState.KeyInput key_code down] | None => [] end
  | InputState.ButtonInput b down => [InputState.ButtonInput (cg_button b) down]
  end.

Lemma clusters_input ts : flat_map post_input (map PostText ts) = [].
Proof. by induction ts. Qed.

Lemma posts_input cs s :
  flat_map post_input (posts cs s) = flat_map mac_input (flat_map (fun c : timed => command_input c.2) cs).
Proof.
  revert s. induction cs as [|[t c] cs IH]; intros s; [done|]. cbn [posts flat_map fst snd].
  rewrite flat_map_app, <- (IH (post_of t c s).2). destruct (post_of t c s) as [p s'] eqn:Ep.
  rewrite flat_map_app. f_equal.
  destruct c as [k down|tx|x y|b down|x y]; cbn [post_of command_input flat_map] in *.
  - unfold key in Ep. cbn [mac_input]. destruct (MacKeymap.hid_to_virtual_key k); by injection Ep as <- _.
  - unfold text in Ep. injection Ep as <- _. destruct tx as [|a tx]; [done|]. unfold posts_of. cbn [perform].
    rewrite post_clusters_all by done. cbn [posted injector app]. apply clusters_input.
  - unfold mouse_move in Ep. cbn in Ep. by destruct (lowest_pressed_button _) in Ep; injection Ep as <- _.
  - unfold mouse_button in Ep. by destruct down; injection Ep as <- _.
  - unfold wheel in Ep. by destruct (_ && _) in Ep; injection Ep as <- _.
Qed.

Lemma key_codes_inj k k' key_code :
  MacKeymap.hid_to_virtual_key k = Some key_code -> MacKeymap.hid_to_virtual_key k' = Some key_code -> k = k'.
Proof. intros H1%MacKeymap.virtual_key_hid H2%MacKeymap.virtual_key_hid. congruence. Qed.

(** Under the codes and numbers of the desktop the same keys and buttons are down;
    several buttons may share a number. *)
Lemma mac_keys_down ins k key_code :
  MacKeymap.hid_to_virtual_key k = Some key_code ->
  key_code ∈ InputState.keys (InputState.press_all (flat_map mac_input ins))
  <-> k ∈ InputState.keys (InputState.press_all ins).
Proof.
  intros Hk. induction ins as [|i ins IH] using rev_ind; [done|].
  rewrite flat_map_app, InputState.press_all_snoc. unfold InputState.press_all at 1. rewrite fold_left_app.
  fold (InputState.press_all (flat_map mac_input ins)). cbn [flat_map]. rewrite app_nil_r.
  destruct i as [k' down|b down]; cbn [mac_input InputState.on_input]; [|exact IH].
  destruct (MacKeymap.hid_to_virtual_key k') as [code'|] eqn:Ek; cbn [fold_left InputState.on_input InputState.on_key InputState.keys].
  - destruct (decide (k = k')) as [<-|Hne].
    + assert (code' = key_code) as -> by congruence. destruct down; set_solver.
    + assert (code' <> key_code) as Hc by (intros ->; apply Hne; by eapply key_codes_inj).
      destruct down; set_solver.
  - assert (k <> k') as Hne by congruence. rewrite IH. destruct down; set_solver.
Qed.

Lemma mac_keys_known ins key_code :
  key_code ∈ InputState.keys (InputState.press_all (flat_map mac_input ins)) ->
  exists k, MacKeymap.hid_to_virtual_key k = Some key_code.
Proof.
  induction ins as [|i ins IH] using rev_ind; [by intros ?%not_elem_of_empty|].
  rewrite flat_map_app. unfold InputState.press_all at 1. rewrite fold_left_app.
  fold (InputState.press_all (flat_map mac_input ins)). cbn [flat_map]. rewrite app_nil_r.
  destruct i as [k down|b down]; cbn [mac_input]; [|exact IH].
  destruct (MacKeymap.hid_to_virtual_key k) as [code|] eqn:Ek; [|exact IH].
  cbn [fold_left InputState.on_input InputState.on_key InputState.keys].
  destruct down; [intros [->%elem_of_singleton|Hn]%elem_of_union|intros [Hn _]%elem_of_difference]; [by exists k|by apply IH..].
Qed.

Lemma mac_buttons_down ins n :
  n ∈ InputState.buttons (InputState.press_all (flat_map mac_input ins)) ->
  exists b, cg_button b = n /\ b ∈ InputState.buttons (InputState.press_all ins).
Proof.
  induction ins as [|i ins IH] using rev_ind; [by intros ?%not_elem_of_empty|].
  rewrite flat_map_app, InputState.press_all_snoc. unfold InputState.press_all at 1. rewrite fold_left_app.
  fold (InputState.press_all (flat_map mac_input ins)). cbn [flat_map]. rewrite app_nil_r.
  destruct i as [k down|b down]; cbn [mac_input InputState.on_input].
  - by destruct (MacKeymap.hid_to_virtual_key k).
  - cbn [fold_left InputState.on_input InputState.on_button InputState.buttons]. destruct down.
    + intros [Hn|Hn]%elem_of_union; [exists b; set_solver|]. destruct (IH Hn) as (b' & ? & ?). exists b'. set_solver.
    + intros [Hn Hb]%elem_of_difference. destruct (IH Hn) as (b' & Hb' & Hin). exists b'. split; [done|].
      apply elem_of_difference. split; [done|]. intros ->%elem_of_singleton. set_solver.
Qed.

(** With nothing pressed nothing is down. *)
Lemma mac_nothing_down ins :
  InputState.press_all ins = InputState.new_pressed ->
  InputState.press_all (flat_map mac_input ins) = InputState.new_pressed.
Proof.
  intros Hn. destruct (InputState.press_all (flat_map mac_input ins)) as [ks bs] eqn:E.
  assert (ks = ∅) as ->.
  { apply set_eq. intros c. split; [|by intros ?%not_elem_of_empty]. intros Hc.
    assert (c ∈ InputState.keys (InputState.press_all (flat_map mac_input ins))) as Hc' by by rewrite E.
    destruct (mac_keys_known _ _ Hc') as [k Hk]. apply (mac_keys_down _ _ _ Hk) in Hc'. by rewrite Hn in Hc'. }
  assert (bs = ∅) as ->; [|done]. apply set_eq. intros n. split; [|by intros ?%not_elem_of_empty]. intros Hb.
  assert (n ∈ InputState.buttons (InputState.press_all (flat_map mac_input ins))) as Hb' by by rewrite E.
  apply mac_buttons_down in Hb' as (b & _ & Hb'). by rewrite Hn in Hb'.
Qed.

Lemma mac_button_down ins b :
  (forall b', cg_button b' = cg_button b -> b' = b) ->
  cg_button b ∈ InputState.buttons (InputState.press_all (flat_map mac_input ins))
  <-> b ∈ InputState.buttons (InputState.press_all ins).
Proof.
  intros Hb. split; [intros (b' & Hb' & Hin)%mac_buttons_down; by rewrite (Hb _ Hb') in Hin|].
  induction ins as [|i ins IH] using rev_ind; [by intros ?%not_elem_of_empty|].
  rewrite flat_map_app, InputState.press_all_snoc. unfold InputState.press_all at 2. rewrite fold_left_app.
  fold (InputState.press_all (flat_map mac_input ins)). cbn [flat_map]. rewrite app_nil_r.
  destruct i as [k down|b' down]; cbn [mac_input InputState.on_input].
  - by destruct (MacKeymap.hid_to_virtual_key k).
  - cbn [fold_left InputState.on_input InputState.on_button InputState.buttons]. destruct down.
    + intros [->%elem_of_singleton|Hn]%elem_of_union; set_solver.
    + intros [Hn Hne]%elem_of_difference. apply elem_of_difference. split; [by apply IH|].
      intros He%elem_of_singleton. apply Hne. rewrite (Hb b') by done. by apply elem_of_singleton.
Qed.

Lemma cg_button_inj b b' : button.RIGHT <= b <= button.X2 -> cg_button b' = cg_button b -> b' = b.
Proof.
  unfold cg_button, button.RIGHT, button.MIDDLE, button.X1, button.X2. intros Hb.
  assert (b = 2 \/ b = 3 \/ b = 4 \/ b = 5) as [-> |[-> |[-> | ->]]] by lia; cbn; zcases; lia.
Qed.

Lemma text_posts t s : posts_of (text t s).1 = map PostText (split_graphemes t).
Proof.
  unfold posts_of. destruct t as [|a t]; [done|]. cbn [text fst perform].
  by rewrite post_clusters_all.
Qed.

(** A text is posted character for character. *)
Lemma posts_typed cs s :
  Forall (fun c => match c.2 with
                   | InjectText t => exists l, t = string_of l /\ Forall (fun c => is_scalar c = true) l
                   | _ => True end) cs ->
  flat_map typed_by (posts cs s)
  = flat_map (fun c : timed => match c.2 with InjectText t => chars_of t | _ => [] end) cs.
Proof.
  intros Hcs. revert s. induction Hcs as [|[t c] cs Hc _ IH]; intros s; [done|]. cbn [posts flat_map fst snd] in *.
  destruct (post_of t c s) as [p s'] eqn:Ep. rewrite flat_map_app, IH. f_equal.
  destruct c as [k down|tx|x y|b down|x y]; cbn [post_of] in Ep.
  - unfold key in Ep. destruct (MacKeymap.hid_to_virtual_key k); by injection Ep as <- _.
  - destruct Hc as (l & -> & Hl). injection Ep as Ep _. rewrite <- Ep. change (match string_of l with EmptyString => Nothing | _ => PostText (string_of l) end)
      with (text (string_of l) s).1. rewrite text_posts.
    rewrite chars_of_string_of by done. rewrite <- (split_graphemes_typed l Hl) at 2.
    induction (split_graphemes (string_of l)) as [|g gs IHg]; [done|]. cbn [map flat_map]. by rewrite IHg.
  - unfold mouse_move in Ep. destruct (lowest_pressed_button _); by injection Ep as <- _.
  - unfold mouse_button in Ep. destruct down; by injection Ep as <- _.
  - unfold wheel in Ep. injection Ep as <- _. by destruct (_ && _).
Qed.

(** * Properties *)

(** Every event says which modifiers are held.  Whatever commands came before,
    the flags of the event made of the next one have, for each modifier key, its
    own bit set exactly if that key is held, and the bit of its group exactly if
    one of the group's keys is; a modifier's own event counts it as its press or
    release leaves it. *)
Theorem posts_carry_modifiers c cs x fl :
  Forall (fun c => typed_command c.2) (cs ++ [x]) ->
  post_flags (post_of x.1 x.2 (device cs (new c))).1 = Some fl -> says (held (cs ++ [x])) fl.
Proof.
  intros Hcs Hfl. pose proof (device_follows _ c Hcs) as Hf. unfold device in Hf. rewrite fold_left_snoc in Hf.
  change (fold_left _ cs (new c)) with (device cs (new c)) in Hf. clear Hcs.
  set (s := device cs (new c)) in *. clearbody s. destruct x as [t [k down|tx|x y|b down|x y]]; cbn [fst snd post_of] in *.
  - unfold key in *. destruct (MacKeymap.hid_to_virtual_key k); [|done]. cbn [fst snd post_flags] in *.
    injection Hfl as <-. destruct (MacKeymap.is_numeric_pad k); [by apply flags_say; [|right]|].
    rewrite <- (Z.lor_0_r (flags _)). by apply flags_say; [|left].
  - destruct tx; done.
  - unfold mouse_move in *. destruct (lowest_pressed_button _); cbn [fst snd post_flags] in *; injection Hfl as <-;
      rewrite <- (Z.lor_0_r (flags _)); by apply flags_say; [|left].
  - unfold mouse_button in *. destruct down; cbn [fst snd post_flags] in *; injection Hfl as <-;
      rewrite <- (Z.lor_0_r (flags _)); by apply flags_say; [|left].
  - unfold wheel in *. cbn [fst snd] in *. destruct (_ && _); [done|]. injection Hfl as <-.
    rewrite <- (Z.lor_0_r (flags _)). by apply flags_say; [|left].
Qed.

(** A click's two halves agree.  A press counts one, two or three clicks, whatever
    came before it; and if no other button is pressed before it is released, its
    release counts the same. *)
Theorem clicks_pair_up c before b t during t' :
  forallb (fun c => negb (is_press c.2)) during = true ->
  let press := mouse_button b true t (device before (new c)) in
  let release := mouse_button b false t' (device during press.2) in
  exists n, click_of press.1 = Some n /\ 1 <= n <= 3 /\ click_of release.1 = Some n.
Proof.
  intros Hd press release. set (s := device before (new c)) in *.
  assert (clicks_ok s) as Hs by by apply device_clicks.
  assert (clicks_ok press.2) as Hp by exact (post_of_clicks t (InjectMouseButton b true) s Hs).
  unfold clicks_ok in Hp. exists (from_option lc_click_state 1 (last_click press.2)).
  split; [done|]. split; [exact Hp|].
  change (click_of release.1) with
    (Some match last_click (device during press.2) with
          | Some last => if lc_button last =? b then lc_click_state last else 1
          | None => 1
          end).
  rewrite device_last_click by done.
  subst press. cbn [mouse_button snd last_click lc_button lc_click_state from_option]. by rewrite Z.eqb_refl.
Qed.

(** ** Concrete runs *)

Module Examples.
Definition retina : InjectorConfig :=
  {| output_origin := (f64_of 100, f64_of 50); scale := f64_of 2; double_click_interval := 500000;
     double_click_slop := f64_of 4 |}.

Definition s0 : InputState := new retina.

Example pixels_become_points :
  mouse_move 200 100 s0
  = (PostMouse Move 0 (f64_of 200) (f64_of 100) 0 0,
     {| config := retina; modifiers := 0; buttons := 0; position := (f64_of 200, f64_of 100); last_click := None |}).
Proof. vm_compute. reflexivity. Qed.

(** Command-C: the "c" says that Command is held. *)
Example command_c :
  (key 0x06 true (key 0xE3 true s0).2).1 = PostKey 0x08 true (Z.lor flag.COMMAND flag.DEVICE_LCMD).
Proof. vm_compute. reflexivity. Qed.

Example double_click :
  map click_of
    (map (fun ts => (mouse_button button.LEFT true ts.1 (device ts.2 s0)).1)
      [(0, []);
       (200000, [(0, InjectMouseButton button.LEFT true); (1000, InjectMouseButton button.LEFT false)]);
       (900000, [(0, InjectMouseButton button.LEFT true); (1000, InjectMouseButton button.LEFT false)]);
       (10000, [(0, InjectMouseButton button.LEFT true); (1000, InjectMouseMove 200 200)])])
  = [Some 1; Some 2; Some 1; Some 1].
Proof. vm_compute. reflexivity. Qed.

(** A double click during which the right button is pressed: the release of the
    left one counts a single click, its press had counted two. *)
Example release_loses_count :
  let clicked := device
    [(0, InjectMouseButton button.LEFT true); (1000, InjectMouseButton button.LEFT false);
     (100000, InjectMouseButton button.LEFT true)] s0 in
  let release s := click_of (mouse_button button.LEFT false 120000 s).1 in
  release clicked = Some 2 /\
  release (device [(110000, InjectMouseButton button.RIGHT true)] clicked) = Some 1.
Proof. vm_compute. done. Qed.

(** A button Windows ignores is the left one here. *)
Example unknown_button_is_left :
  let '(p, s) := mouse_button 9 true 0 s0 in
  p = PostMouse Down 0 (f64_of 100) (f64_of 50) 1 0 /\ buttons s = 128.
Proof. vm_compute. done. Qed.

Example text_splits :
  split_graphemes (string_of [0x304B; 0x3099; 0x304D; 0x1F363])
  = [string_of [0x304B; 0x3099]; string_of [0x304D]; string_of [0x1F363]].
Proof. vm_compute. reflexivity. Qed.

Lemma posts_carry_modifiers_witness :
  Forall (fun c : timed => typed_command c.2) [(0, InjectKey 0xE3 true); (1, InjectKey 0x06 true)] /\
  says (held [(0, InjectKey 0xE3 true); (1, InjectKey 0x06 true)]) (Z.lor flag.COMMAND flag.DEVICE_LCMD).
Proof.
  split; [by repeat constructor|].
  apply (posts_carry_modifiers retina [(0, InjectKey 0xE3 true)] (1, InjectKey 0x06 true)).
  - by repeat constructor.
  - vm_compute. reflexivity.
Defined.

Lemma clicks_pair_up_witness :
  exists n,
    click_of (mouse_button button.LEFT true 200000
      (device [(0, InjectMouseButton button.LEFT true); (1000, InjectMouseButton button.LEFT false)] s0)).1 = Some n.
Proof.
  destruct (clicks_pair_up retina [(0, InjectMouseButton button.LEFT true); (1000, InjectMouseButton button.LEFT false)]
    button.LEFT 200000 [(210000, InjectMouseMove 201 100)] 220000 eq_refl) as (n & E & _).
  exists n. exact E.
Defined.
End Examples.
