(* ===== verification/InputPath.v ===== *)
(** The whole way of an input event, from the window it happens in to the desktop
    it is for: the display window ([WindowProc]), the client ([InputForwarder]),
    the server's session ([InputInjection]), the injector's thread
    ([WorkerHandle]) and what it asks of Windows ([WinInject]), composed. *)

From S2P Require Import Prelude.
From S2P Require Import Unicode.
From S2P Require KeyTable.
From S2P Require WinKeymap.
From S2P Require Import PermissionSet.
From S2P Require Import StreamKind.
From S2P Require PermissionSm.
From S2P Require Import Messages.
From S2P Require Import MessageCodecs.
From S2P Require Import Async.
From S2P Require Import StreamReader.
From S2P Require Import InputState.
From S2P Require Import InputSession.
From S2P Require WorkerHandle.
From S2P Require InputInjection.
From S2P Require InputForwarder.
From S2P Require WinInject.
From S2P Require MacKeymap.
From S2P Require MacInject.
From S2P Require WindowProc.

#[local] Open Scope Z_scope.

(** * Definitions *)

(** What a window reports of the messages a pump works off. *)
Definition reports `{WinInject.Win32} (ds : list WindowProc.delivery) : list InputForwarder.WindowInput :=
  from_option WindowProc.input_tx []
    (WindowProc.user_data (WindowProc.pump_messages ds WindowProc.opened).2).

(** The commands a session with an injector has queued. *)
Definition commands_of (s : InputInjection.InputInjection) : list InputInjection.InjectCommand :=
  match InputInjection.sink s with InputInjection.Os _ commands => commands | _ => [] end.

(** An injector that is dropped after some commands were queued, its thread running
    at any moments in between. *)
Definition injected `{WinInject.Win32} (screen : WinInject.Screen)
    (ops : list (WorkerHandle.op InputInjection.InjectCommand)) (fuel : nat) :
    option (WorkerHandle.WorkerHandle InputInjection.InjectCommand WinInject.System) :=
  WorkerHandle.drop (WinInject.inject_one screen) fuel
    (WorkerHandle.run (WinInject.inject_one screen) ops WinInject.start).

(** The same on macOS, where the thread also looks at the clock. *)
Definition injected_mac (config : MacInject.InjectorConfig) (ops : list (WorkerHandle.op MacInject.timed))
    (fuel : nat) : option (WorkerHandle.WorkerHandle MacInject.timed (MacInject.InputState * MacInject.Injector)) :=
  WorkerHandle.drop MacInject.inject_one fuel
    (WorkerHandle.run MacInject.inject_one ops (WorkerHandle.new (MacInject.new config, MacInject.injector))).

(** * Specification *)

(** A press or release of a scan code. *)
Definition stroke : Type := Z * bool * bool.

Definition scan_stroke (i : WinInject.INPUT) : list stroke :=
  match i with
  | WinInject.KEYBDINPUT scan flags _ =>
      if WinInject.flagged WinInject.KEYEVENTF_SCANCODE flags
      then [(scan, WinInject.flagged WinInject.KEYEVENTF_EXTENDEDKEY flags,
             negb (WinInject.flagged WinInject.KEYEVENTF_KEYUP flags))]
      else []
  | _ => []
  end.

(** What a key message is to the desktop, when it is to travel as a key: it is not
    our own, the key is known, and it makes no character by itself. *)
Definition key_stroke (m : WindowProc.MSG) : option stroke :=
  if WindowProc.key_message m && negb (WindowProc.is_injected_echo m) then
    let '(scan, ext) := WindowProc.scancode_of m in
    hid ← WinKeymap.scancode_to_hid scan ext;
    if should_inject_key ClientSide hid (WindowProc.current_modifiers m)
    then Some (scan, ext, WindowProc.goes_down m) else None
  else None.

(** No composition begins and the focus stays. *)
Definition undisturbed (m : WindowProc.MSG) : bool :=
  match WindowProc.message m with
  | WindowProc.WM_IME_STARTCOMPOSITION | WindowProc.WM_KILLFOCUS => false
  | _ => true
  end.

(** What a session that may inject everything does with a message, while text is
    composed by the client. *)
Definition arrives (m : InputMessage) : list InputInjection.SinkEvent :=
  match m with
  | Key e =>
      if should_inject_key ClientSide (scancode e) (modifiers e)
      then [InputInjection.SinkKey (scancode e) (ke_down e)] else []
  | Text e => [InputInjection.SinkText (ti_text e)]
  | Move e => [InputInjection.SinkMouseMove (mm_x e) (mm_y e)]
  | Button e =>
      [InputInjection.SinkMouseMove (mb_x e) (mb_y e); InputInjection.SinkMouseButton (mb_button e) (mb_down e)]
  | WheelTurn e => [InputInjection.SinkWheel (dx e) (dy e)]
  | _ => []
  end.

(** * Lemmas *)

(** ** The server *)

Section server.
Context `{Transport} {EncodeError JoinError : Type}.

#[local] Notation handle := (InputInjection.handle (EncodeError := EncodeError) (JoinError := JoinError)).
#[local] Notation run := (InputInjection.run (EncodeError := EncodeError) (JoinError := JoinError)).

Lemma handle_arrives m sm s :
  PermissionSm.is_granted sm bit.INPUT_KEYBOARD = true ->
  PermissionSm.is_granted sm bit.INPUT_MOUSE = true ->
  InputForwarder.is_mode_change m = false -> InputInjection.ime s = new_ime ->
  InputInjection.ime (handle m sm s).2 = new_ime /\
  InputInjection.emitted (handle m sm s).2 = InputInjection.emitted s ++ arrives m.
Proof.
  intros Hkb Hms Hm Hi. destruct m as [e|e|e|e|e|e|e]; try done; cbn [InputInjection.handle arrives];
    rewrite ?Hkb, ?Hms, ?Hi; cbn [negb mode_for new_ime pending current];
    try destruct (should_inject_key _ _ _);
    cbn; rewrite ?Hi, ?app_nil_r, <- ?app_assoc; done.
Qed.

Lemma run_arrives msgs sm s :
  PermissionSm.is_granted sm bit.INPUT_KEYBOARD = true ->
  PermissionSm.is_granted sm bit.INPUT_MOUSE = true ->
  forallb (fun m => negb (InputForwarder.is_mode_change m)) msgs = true -> InputInjection.ime s = new_ime ->
  InputInjection.emitted (run s (map (fun m => InputInjection.Message m sm) msgs))
  = InputInjection.emitted s ++ flat_map arrives msgs.
Proof.
  intros Hkb Hms. revert s. induction msgs as [|m msgs IH]; intros s Hm Hi; [by rewrite app_nil_r|].
  cbn [forallb] in Hm. apply andb_true_iff in Hm as [Hm Hrest]. apply negb_true_iff in Hm.
  destruct (handle_arrives m sm s Hkb Hms Hm Hi) as [Hi' He]. cbn [map].
  change (run s (InputInjection.Message m sm :: ?ops)) with (run (handle m sm s).2 ops).
  unfold InputInjection.run in *. cbn [fold_left InputInjection.run_op flat_map]. rewrite IH by done.
  by rewrite He, <- app_assoc.
Qed.

(** The sink stays open. *)
Definition is_open (s : InputInjection.InputInjection) : Prop :=
  exists cs, InputInjection.sink s = InputInjection.Os true cs.

Lemma emit_open e s : is_open s -> is_open (InputInjection.emit e s).
Proof. intros [cs Hs]. unfold is_open, InputInjection.emit. cbn. rewrite Hs. by eexists. Qed.

Lemma run_open s ops : is_open s -> is_open (run s ops).
Proof.
  intros Hs. induction ops as [|o ops IH] using rev_ind; [done|].
  unfold InputInjection.run in *. rewrite fold_left_snoc. set (s' := fold_left _ ops s) in *.
  clearbody s'. destruct o as [m sm|]; cbn [InputInjection.run_op].
  - destruct m; cbn [InputInjection.handle]; try destruct (mode_for _ _) as [mode i]; cbn zeta;
      repeat case_match; cbn [snd]; try done; repeat apply emit_open; done.
  - unfold InputInjection.release_all. destruct (take_releases _) as [rs p].
    assert (is_open (InputInjection.with_pressed p s')) as Hp by done. revert Hp.
    generalize (InputInjection.with_pressed p s'). induction rs as [|r rs IHr]; intros t Ht; [done|].
    cbn [fold_left]. by apply IHr, emit_open.
Qed.

(** It has been given every event. *)
Lemma commands_emitted ops :
  let s := run (InputInjection.new (InputInjection.Os true [])) ops in
  commands_of s = map InputInjection.command (InputInjection.emitted s).
Proof.
  intros s. destruct (run_open (InputInjection.new (InputInjection.Os true [])) ops) as [cs Hcs]; [by eexists|].
  assert (InputInjection.in_step s) as [_ Hall].
  { apply (InputInjection.run_in_step (EncodeError := EncodeError) (JoinError := JoinError)).
    apply InputInjection.new_in_step. tauto. }
  unfold commands_of. fold s in Hcs. rewrite Hcs. by apply Hall.
Qed.
(** The releases come last. *)
Lemma commands_released ops :
  let s := run (InputInjection.new (InputInjection.Os true [])) ops in
  commands_of (InputInjection.release_all s) = map InputInjection.command (InputInjection.emitted (InputInjection.release_all s)) /\
  exists es, InputInjection.emitted (InputInjection.release_all s) = InputInjection.emitted s ++ es.
Proof.
  intros s. pose proof (commands_emitted (ops ++ [InputInjection.StreamEnd])) as Hc.
  cbv zeta in Hc. unfold InputInjection.run in Hc. rewrite fold_left_snoc in Hc.
  change (fold_left _ ops _) with s in Hc. cbn [InputInjection.run_op] in Hc. split; [done|].
  unfold InputInjection.release_all. destruct (take_releases _) as [rs p].
  destruct (InputInjection.emit_releases rs (InputInjection.with_pressed p s)) as (He & _ & _).
  eexists. exact He.
Qed.
End server.

(** ** The injector *)

Section injector.
Context `{WinInject.Win32} (screen : WinInject.Screen).

(** Whenever its thread runs, a dropped injector has made the inputs of every
    command, in order. *)
Lemma injected_all commands ops :
  WorkerHandle.sent ops = commands ->
  exists fuel h, injected screen ops fuel = Some h /\
    WorkerHandle.loop h = WorkerHandle.Returned
      {| WinInject.accepts := []; WinInject.taken := flat_map (WinInject.inputs_of screen) commands |}.
Proof.
  intros <-. destruct (WorkerHandle.dropped_in_order (WinInject.inject_one screen) WinInject.system ops _
    (WinInject.injected_in_order screen _)) as [fuel E].
  exists fuel. eexists. split; [exact E|done].
Qed.

Lemma inputs_stroke c :
  flat_map scan_stroke (WinInject.inputs_of screen c)
  = match c with
    | InputInjection.InjectKey hid down =>
        match WinKeymap.hid_to_scancode hid with Some (scan, ext) => [(scan, ext, down)] | None => [] end
    | _ => []
    end.
Proof.
  unfold WinInject.inputs_of. destruct c as [hid down|text|x y|b down|dx dy]; cbn [WinInject.perform].
  - destruct (WinKeymap.hid_to_scancode hid) as [[sc ext]|]; [|done].
    rewrite WinInject.send_inputs_all by done. cbn [snd WinInject.taken WinInject.system app flat_map scan_stroke WinInject.keyboard_input].
    by rewrite WinInject.key_scancode, WinInject.key_extended, WinInject.key_up, negb_involutive.
  - rewrite WinInject.type_units_all by done. cbn [snd WinInject.taken WinInject.system app].
    induction (encode_utf16 _) as [|u us IH]; [done|]. cbn [flat_map]. by rewrite flat_map_app, IH.
  - done.
  - by destruct (WinInject.button_event b down) as [[f d]|].
  - destruct (dy =? 0), (dx =? 0); done.
Qed.
End injector.

(** ** The client *)

(** What a window event arrives as on the keyboard. *)
Definition keyboard_events (event : InputForwarder.WindowInput) : list InputInjection.SinkEvent :=
  match event with
  | InputForwarder.WindowKey down hid vk mods =>
      if should_inject_key ClientSide hid mods then [InputInjection.SinkKey hid down] else []
  | InputForwarder.WindowText text => [InputInjection.SinkText text]
  | _ => []
  end.

Section client.
Context `{Transport}.
Context `{!Cbor KeyEvent, !Cbor TextInput, !Cbor ImeComposition, !Cbor MouseMove, !Cbor MouseButton,
          !Cbor Wheel, !Cbor ImeModeChange}.
Variable clock : Z -> Z.

Section observed.
Context {A : Type} (obs : InputInjection.SinkEvent -> list A).
Hypothesis obs_keyboard : forall e, InputInjection.keyboard_event e = false -> obs e = [].

Lemma releases_observed n rs :
  (forall k, obs (InputInjection.SinkKey k false) = []) ->
  flat_map obs (flat_map arrives (InputForwarder.number clock n (map InputForwarder.release_message rs))) = [].
Proof using obs_keyboard.
  intros Hk. revert n. induction rs as [|[k|b] rs IH]; intros n; [done|..];
    cbn [map InputForwarder.number InputForwarder.release_message flat_map arrives];
    rewrite flat_map_app, IH, app_nil_r.
  - destruct (should_inject_key _ _ _); [|done]. cbn. by rewrite Hk.
  - cbn. by rewrite !obs_keyboard.
Qed.

(** What a session is told of the keyboard, through [obs], is what happened in
    the window. *)
Lemma trace_arrives ms sizes p events :
  (InputForwarder.FocusLost ∈ events -> forall k, obs (InputInjection.SinkKey k false) = []) ->
  flat_map obs (flat_map arrives (InputForwarder.trace clock true ms sizes p events).1)
  = flat_map obs (flat_map keyboard_events events).
Proof using obs_keyboard.
  revert p. induction events as [|event events IH]; intros p Hf; [done|]. cbn [InputForwarder.trace].
  set (p' := {| InputForwarder.next_id := _; InputForwarder.reported := _ |}). specialize (IH p').
  destruct (InputForwarder.trace clock true ms sizes p' events) as [msgs p'']. cbn [fst] in *.
  cbn [flat_map]. rewrite !flat_map_app, IH by (intros Hin; apply Hf; by right). f_equal.
  destruct event as [down hid vk mods|text|text c|x y|button down x y|x y|]; cbn [InputForwarder.event_messages].
  1-3: cbn; by rewrite ?app_nil_r.
  1-3: destruct ms; [|done]; cbn; by rewrite !obs_keyboard.
  apply releases_observed. apply Hf. by left.
Qed.
End observed.

Lemma trace_no_mode_change kb ms sizes p events :
  forallb (fun m => negb (InputForwarder.is_mode_change m)) (InputForwarder.trace clock kb ms sizes p events).1 = true.
Proof.
  pose proof (InputForwarder.trace_facts clock kb ms sizes p events) as Hfacts.
  destruct (InputForwarder.trace _ _ _ _ p events) as [msgs p']. destruct Hfacts as [Hid _].
  apply forallb_forall. intros m Hm. destruct m; try done. exfalso.
  apply (in_map InputForwarder.message_id) in Hm. cbn [fst] in Hm. rewrite Hid in Hm. by apply in_map_iff in Hm as (? & ? & _).
Qed.
End client.

(** ** The window *)

Section window.
Context `{WinInject.Win32}.

Lemma reports_run ds : reports ds = WindowProc.input_tx (WindowProc.run (WindowProc.delivered ds) WindowProc.new_state).
Proof.
  unfold reports. destruct (WindowProc.pump_run ds WindowProc.opened WindowProc.new_state eq_refl) as [_ ->]. done.
Qed.

Definition event_units (e : InputInjection.SinkEvent) : list Z :=
  match e with InputInjection.SinkText text => encode_utf16 (chars_of text) | _ => [] end.

Definition event_strokes (e : InputInjection.SinkEvent) : list stroke :=
  match e with
  | InputInjection.SinkKey hid down =>
      match WinKeymap.hid_to_scancode hid with Some (scan, ext) => [(scan, ext, down)] | None => [] end
  | _ => []
  end.

Lemma units_of_texts events :
  flat_map event_units (flat_map keyboard_events events)
  = flat_map (fun t => encode_utf16 (chars_of t)) (WindowProc.texts events).
Proof.
  induction events as [|e events IH]; [done|]. cbn [flat_map]. rewrite flat_map_app, IH.
  destruct e; cbn; try done; [by destruct (_ || negb _)|]. by rewrite app_nil_r.
Qed.

Lemma typed_units_u16 ms : Forall is_u16 (WindowProc.typed_units ms).
Proof.
  unfold WindowProc.typed_units. apply Forall_forall. intros u (m & _ & Hu)%list_elem_of_omap.
  by eapply WindowProc.typed_unit_u16.
Qed.

Lemma printable_scalar us : Forall is_u16 us -> Forall (fun c => is_scalar c = true) (WindowProc.printable us).
Proof.
  intros Hus. apply decode_utf16_scalar in Hus. unfold WindowProc.printable.
  induction Hus as [|c cs Hc _ IH]; [constructor|]. cbn [List.filter]. destruct (negb _); [by constructor|done].
Qed.

Lemma units_reported ds :
  flat_map event_units (flat_map keyboard_events (reports ds))
  = encode_utf16 (WindowProc.printable (WindowProc.typed_units (WindowProc.delivered ds))).
Proof.
  rewrite units_of_texts, reports_run, WindowProc.texts_run by done. cbn [WindowProc.new_state
    WindowProc.input_tx WindowProc.pending_high_surrogate option_list option_rect WindowProc.texts omap list_omap app].
  pose proof (printable_scalar _ (typed_units_u16 (WindowProc.delivered ds))) as Hs.
  induction Hs as [|c cs Hc _ IH]; [done|]. cbn [map flat_map]. rewrite IH, chars_of_string_of by by constructor.
  unfold encode_utf16. cbn [flat_map]. by rewrite app_nil_r.
Qed.

(** One message. *)
Lemma stroke_handle m s :
  WindowProc.composing s = false -> undisturbed m = true ->
  WindowProc.composing (WindowProc.handle s m) = false /\
  flat_map event_strokes (flat_map keyboard_events (WindowProc.input_tx (WindowProc.handle s m)))
  = flat_map event_strokes (flat_map keyboard_events (WindowProc.input_tx s)) ++ option_list (key_stroke m).
Proof.
  intros Hc Hm. destruct (WindowProc.key_message m) eqn:Ek.
  - split.
    { unfold WindowProc.key_message, WindowProc.handle, WindowProc.handle_input_message in *.
      destruct (WindowProc.message m); try done; destruct (_ || _); try done;
        destruct (WindowProc.scancode_of m) as [sc ext]; by destruct (WinKeymap.scancode_to_hid sc ext). }
    rewrite WindowProc.handle_key, Hc, orb_false_r by done. unfold key_stroke. rewrite Ek.
    rewrite !flat_map_app. f_equal. destruct (WindowProc.is_injected_echo m); [done|].
    destruct (WindowProc.scancode_of m) as [sc ext]. cbn [fst snd andb negb].
    destruct (WinKeymap.scancode_to_hid sc ext) as [hid|] eqn:Eh; [|done].
    cbn [mbind option_bind flat_map keyboard_events app].
    apply WinKeymap.scancode_hid in Eh. destruct (should_inject_key _ _ _); cbn; [|done]. by rewrite Eh.
  - unfold key_stroke. rewrite Ek. cbn [andb option_list option_rect]. rewrite app_nil_r.
    unfold WindowProc.key_message, undisturbed, WindowProc.handle, WindowProc.handle_input_message in *.
    destruct (WindowProc.message m); try done; repeat case_match; try done;
      cbn [snd WindowProc.send WindowProc.input_tx WindowProc.composing WindowProc.set_pending
           WindowProc.set_buttons WindowProc.set_composing];
      rewrite ?flat_map_app; cbn; rewrite ?app_nil_r; done.
Qed.

Lemma focus_kept ms s :
  InputForwarder.FocusLost ∉ WindowProc.input_tx s -> forallb undisturbed ms = true ->
  InputForwarder.FocusLost ∉ WindowProc.input_tx (WindowProc.run ms s).
Proof.
  revert s. induction ms as [|m ms IH]; intros s Hs Hm; [done|].
  cbn [forallb] in Hm. apply andb_true_iff in Hm as [Hm Hms]. unfold WindowProc.run in *. cbn [fold_left].
  apply IH; [|done]. clear IH Hms.
  unfold undisturbed, WindowProc.handle, WindowProc.handle_input_message in *.
  destruct (WindowProc.message m); try done; repeat case_match; try done;
    cbn [snd WindowProc.send WindowProc.input_tx WindowProc.set_pending WindowProc.set_buttons WindowProc.set_composing];
    intros [?|?%list_elem_of_singleton]%elem_of_app; done.
Qed.

(** Without compositions, every key message becomes its own stroke. *)
Lemma strokes_run ms s :
  WindowProc.composing s = false -> forallb undisturbed ms = true ->
  flat_map event_strokes (flat_map keyboard_events (WindowProc.input_tx (WindowProc.run ms s)))
  = flat_map event_strokes (flat_map keyboard_events (WindowProc.input_tx s)) ++ omap key_stroke ms.
Proof.
  revert s. induction ms as [|m ms IH]; intros s Hc Hm; [by rewrite app_nil_r|].
  cbn [forallb] in Hm. apply andb_true_iff in Hm as [Hm Hms]. unfold WindowProc.run in *. cbn [fold_left].
  destruct (stroke_handle m s Hc Hm) as [Hc' He].
  rewrite IH, He, <- app_assoc by done. f_equal. cbn. by destruct (key_stroke m).
Qed.
End window.

(** ** What is held down *)

(** Leaving out some keys and buttons altogether changes nothing for the others. *)
Lemma press_filter (f : input -> bool) ins :
  (forall k d d', f (KeyInput k d) = f (KeyInput k d')) ->
  (forall b d d', f (ButtonInput b d) = f (ButtonInput b d')) ->
  (forall k, k ∈ keys (press_all (List.filter f ins)) <-> f (KeyInput k true) = true /\ k ∈ keys (press_all ins)) /\
  (forall b, b ∈ buttons (press_all (List.filter f ins)) <->
     f (ButtonInput b true) = true /\ b ∈ buttons (press_all ins)).
Proof.
  intros Hk Hb. induction ins as [|i ins [IHk IHb]] using rev_ind; [set_solver|].
  rewrite List.filter_app. cbn [List.filter]. rewrite press_all_snoc.
  destruct (f i) eqn:Ef; [rewrite press_all_snoc|rewrite app_nil_r]; destruct i as [k d|b d]; cbn [on_input on_key on_button keys buttons].
  - rewrite (Hk k d true) in Ef. split; [|exact IHb]. intros k'. destruct d; set_solver.
  - rewrite (Hb b d true) in Ef. split; [exact IHk|]. intros b'. destruct d; set_solver.
  - rewrite (Hk k d true) in Ef. split; [|exact IHb]. intros k'. rewrite IHk.
    destruct (decide (k' = k)) as [->|]; [rewrite Ef|]; destruct d; set_solver.
  - rewrite (Hb b d true) in Ef. split; [exact IHk|]. intros b'. rewrite IHb.
    destruct (decide (b' = b)) as [->|]; [rewrite Ef|]; destruct d; set_solver.
Qed.

Section desktop.
Context `{WinInject.Win32} (screen : WinInject.Screen).

(** What Windows holds down after the inputs it has taken. *)
Definition held_by (d : WinInject.System) : PressedInputs :=
  press_all (flat_map WinInject.pressed_by (WinInject.taken d)).

(** The inputs of a session's events, through [obs]. *)
Lemma observed_of_commands {A} (obs : WinInject.INPUT -> list A) (via : InputInjection.SinkEvent -> list A) es :
  (forall e, flat_map obs (WinInject.inputs_of screen (InputInjection.command e)) = via e) ->
  flat_map obs (flat_map (WinInject.inputs_of screen) (map InputInjection.command es)) = flat_map via es.
Proof.
  intros He. induction es as [|e es IH]; [done|]. cbn [map flat_map]. by rewrite flat_map_app, IH, He.
Qed.

Lemma units_of_commands es :
  flat_map WinInject.typed_by (flat_map (WinInject.inputs_of screen) (map InputInjection.command es))
  = flat_map event_units es.
Proof. apply observed_of_commands. intros e. rewrite WinInject.inputs_typed. by destruct e. Qed.

Lemma strokes_of_commands es :
  flat_map scan_stroke (flat_map (WinInject.inputs_of screen) (map InputInjection.command es))
  = flat_map event_strokes es.
Proof. apply observed_of_commands. intros e. rewrite inputs_stroke. by destruct e. Qed.

Lemma pressed_of_commands es :
  flat_map WinInject.pressed_by (flat_map (WinInject.inputs_of screen) (map InputInjection.command es))
  = List.filter WinInject.on_windows (flat_map InputInjection.desktop_input es).
Proof.
  rewrite (observed_of_commands _ (fun e => List.filter WinInject.on_windows (InputInjection.desktop_input e))).
  - induction es as [|e es IH]; [done|]. cbn [flat_map]. by rewrite IH, List.filter_app.
  - intros e. by rewrite WinInject.inputs_pressed, InputInjection.desktop_input_command.
Qed.

Lemma held_windows es :
  let held := press_all (flat_map WinInject.pressed_by
    (flat_map (WinInject.inputs_of screen) (map InputInjection.command es))) in
  (forall k, k ∈ keys held <-> is_Some (WinKeymap.hid_to_scancode k) /\ k ∈ keys (InputInjection.held es)) /\
  (forall b, b ∈ buttons held <->
     (WinInject.button.LEFT <= b <= WinInject.button.X2) /\ b ∈ buttons (InputInjection.held es)).
Proof.
  intros held. subst held. rewrite pressed_of_commands. unfold InputInjection.held.
  destruct (press_filter WinInject.on_windows (flat_map InputInjection.desktop_input es)) as [Hk Hb]; [done..|].
  split; [intros k; rewrite Hk|intros b; rewrite Hb]; cbn [WinInject.on_windows].
  - by rewrite bool_decide_eq_true.
  - by rewrite andb_true_iff, !Z.leb_le.
Qed.
End desktop.

Lemma injected_mac_all config ops :
  exists fuel h, injected_mac config ops fuel = Some h /\
    WorkerHandle.loop h = WorkerHandle.Returned
      (MacInject.device (WorkerHandle.sent ops) (MacInject.new config),
       {| MacInject.takes := []; MacInject.posted := MacInject.posts (WorkerHandle.sent ops) (MacInject.new config) |}).
Proof.
  destruct (WorkerHandle.dropped_in_order MacInject.inject_one (MacInject.new config, MacInject.injector) ops _
    (MacInject.mac_injected_in_order _ _ MacInject.injector eq_refl)) as [fuel E].
  exists fuel. eexists. split; [exact E|done].
Qed.

Lemma held_mac cs es :
  map snd cs = map InputInjection.command es -> MacInject.held cs = InputInjection.held es.
Proof.
  intros He. unfold MacInject.held, InputInjection.held. f_equal. revert es He.
  induction cs as [|c cs IH]; intros [|e es] He; try done. injection He as Hc Hcs. cbn [flat_map].
  by rewrite (IH es), Hc, InputInjection.desktop_input_command.
Qed.

(** * Properties *)

Section released.
Context `{Transport} {EncodeError JoinError : Type} `{WinInject.Win32}.

#[local] Notation run := (InputInjection.run (EncodeError := EncodeError) (JoinError := JoinError)).

(** Windows holds down what the session believes, and nothing in the end.  However
    a session's messages, permissions and input streams go, the keys and buttons
    that are down on the Windows desktop, once the injector has done what it was
    given, are those the session has pressed and Windows knows; and after the
    session has released everything, none is. *)
Theorem windows_desktop_released screen session :
  let s := run (InputInjection.new (InputInjection.Os true [])) session in
  (forall ops, WorkerHandle.sent ops = commands_of s ->
   exists fuel h desktop, injected screen ops fuel = Some h /\ WorkerHandle.loop h = WorkerHandle.Returned desktop /\
     (forall k, k ∈ keys (held_by desktop) <->
        is_Some (WinKeymap.hid_to_scancode k) /\ k ∈ keys (InputInjection.pressed s)) /\
     (forall b, b ∈ buttons (held_by desktop) <->
        (WinInject.button.LEFT <= b <= WinInject.button.X2) /\ b ∈ buttons (InputInjection.pressed s))) /\
  (forall ops, WorkerHandle.sent ops = commands_of (InputInjection.release_all s) ->
   exists fuel h desktop, injected screen ops fuel = Some h /\ WorkerHandle.loop h = WorkerHandle.Returned desktop /\
     held_by desktop = new_pressed).
Proof.
  intros s.
  assert (InputInjection.in_step s) as Hin.
  { apply (InputInjection.run_in_step (EncodeError := EncodeError) (JoinError := JoinError)).
    apply InputInjection.new_in_step. tauto. }
  pose proof (commands_emitted (EncodeError := EncodeError) (JoinError := JoinError) session) as Hc. fold s in Hc.
  pose proof (commands_released (EncodeError := EncodeError) (JoinError := JoinError) session) as [Hc' _].
  fold s in Hc'.
  split; intros ops Hops; destruct (injected_all screen _ ops Hops) as (fuel & h & Hi & Hl); exists fuel, h;
    eexists; (split; [exact Hi|split; [exact Hl|]]); unfold held_by; cbn [WinInject.taken].
  - rewrite Hc, (proj1 Hin). apply held_windows.
  - rewrite Hc'. destruct (held_windows screen (InputInjection.emitted (InputInjection.release_all s))) as [Hk Hb].
    rewrite (proj2 (InputInjection.release_all_in_step s Hin)) in Hk, Hb.
    destruct (press_all _) as [ks bs]. cbn in Hk, Hb. unfold new_pressed. f_equal; set_solver.
Qed.
End released.

Section released_mac.
Context `{Transport} {EncodeError JoinError : Type}.

#[local] Notation run := (InputInjection.run (EncodeError := EncodeError) (JoinError := JoinError)).

(** C24: macOS holds down what the session believes, and nothing in the end.  However a
    session goes, once the injector has done what it was given, at whatever times,
    and the shim has taken its posts: of the events it posted, a key code went
    down last, and not up, exactly if the session has its key pressed; the number
    of a button other than the left one, exactly if the session has the button
    pressed; and the left button's number only if the session has some button
    pressed that goes by it.  The injector counts as held exactly the modifier
    keys and, of the buttons 0 to 6, exactly the buttons the session has pressed.
    After the session has released everything, no key and no button at all is
    down, by the posts and by the injector's count.  A button is a [u8]. *)
Theorem mac_desktop_released config session :
  let s := run (InputInjection.new (InputInjection.Os true [])) session in
  Forall MacInject.typed_command (commands_of (InputInjection.release_all s)) ->
  (forall ops, map snd (WorkerHandle.sent ops) = commands_of s ->
   exists fuel h device shim, injected_mac config ops fuel = Some h /\
     WorkerHandle.loop h = WorkerHandle.Returned (device, shim) /\
     (let down := MacInject.down_after (MacInject.posted shim) in
      (forall k key_code, MacKeymap.hid_to_virtual_key k = Some key_code ->
         key_code ∈ keys down <-> k ∈ keys (InputInjection.pressed s)) /\
      (forall b, MacInject.button.RIGHT <= b <= MacInject.button.X2 ->
         MacInject.cg_button b ∈ buttons down <-> b ∈ buttons (InputInjection.pressed s)) /\
      (forall n, n ∈ buttons down ->
         exists b, MacInject.cg_button b = n /\ b ∈ buttons (InputInjection.pressed s))) /\
     (forall k, MacKeymap.is_modifier k = true ->
        k ∈ MacInject.pressed_modifiers device <-> k ∈ keys (InputInjection.pressed s)) /\
     (forall b, 0 <= b < 7 ->
        Z.testbit (MacInject.pressed_buttons device) b = true <-> b ∈ buttons (InputInjection.pressed s))) /\
  (forall ops, map snd (WorkerHandle.sent ops) = commands_of (InputInjection.release_all s) ->
   exists fuel h device shim, injected_mac config ops fuel = Some h /\
     WorkerHandle.loop h = WorkerHandle.Returned (device, shim) /\
     MacInject.down_after (MacInject.posted shim) = new_pressed /\
     MacInject.pressed_modifiers device = [] /\ MacInject.pressed_buttons device = 0).
Proof.
  intros s Htyped.
  assert (InputInjection.in_step s) as Hin.
  { apply (InputInjection.run_in_step (EncodeError := EncodeError) (JoinError := JoinError)).
    apply InputInjection.new_in_step. tauto. }
  pose proof (commands_emitted (EncodeError := EncodeError) (JoinError := JoinError) session) as Hc. fold s in Hc.
  pose proof (commands_released (EncodeError := EncodeError) (JoinError := JoinError) session) as (Hc' & es & He).
  fold s in Hc', He.
  split; intros ops Hops; destruct (injected_mac_all config ops) as (fuel & h & Hi & Hl); exists fuel, h;
    do 2 eexists; (split; [exact Hi|split; [exact Hl|]]); unfold MacInject.down_after;
    cbn [MacInject.posted]; rewrite MacInject.posts_input;
    change (press_all (flat_map (fun c : MacInject.timed => InputInjection.command_input c.2) (WorkerHandle.sent ops)))
      with (MacInject.held (WorkerHandle.sent ops)).
  - rewrite Hc in Hops. assert (Forall (fun c => MacInject.typed_command c.2) (WorkerHandle.sent ops)) as Ht.
    { apply (Forall_map snd MacInject.typed_command). rewrite Hc', He, map_app in Htyped.
      apply Forall_app in Htyped as [Ht _]. by rewrite <- Hops in Ht. }
    assert (MacInject.held (WorkerHandle.sent ops) = InputInjection.pressed s) as Hheld
      by (rewrite (held_mac _ _ Hops); symmetry; apply Hin).
    pose proof (MacInject.device_follows _ config Ht) as Hf. rewrite <- Hheld.
    split; [split_and!|split].
    + intros k key_code. apply MacInject.mac_keys_down.
    + intros b Hb. apply MacInject.mac_button_down. intros b'. by apply MacInject.cg_button_inj.
    + intros n. apply MacInject.mac_buttons_down.
    + intros k Hk. rewrite (MacInject.pressed_modifiers_spec _ _ _ Hf). tauto.
    + intros b Hb. destruct Hf as (_ & _ & _ & Hbs & _). unfold MacInject.pressed_buttons. rewrite Hbs by done.
      apply bool_decide_eq_true.
  - rewrite Hc' in Hops, Htyped. assert (Forall (fun c => MacInject.typed_command c.2) (WorkerHandle.sent ops)) as Ht.
    { apply (Forall_map snd MacInject.typed_command). by rewrite <- Hops in Htyped. }
    assert (MacInject.held (WorkerHandle.sent ops) = new_pressed) as Hheld.
    { rewrite (held_mac _ _ Hops). apply (InputInjection.release_all_in_step s Hin). }
    pose proof (MacInject.device_follows _ config Ht) as Hf. rewrite Hheld in Hf. split.
    + by apply MacInject.mac_nothing_down.
    + by apply MacInject.follows_nothing.
Qed.
End released_mac.

Section theorems.
Context `{Transport} {EncodeError JoinError : Type} `{WinInject.Win32}.
Context `{!Cbor KeyEvent, !Cbor TextInput, !Cbor ImeComposition, !Cbor MouseMove, !Cbor MouseButton,
          !Cbor Wheel, !Cbor ImeModeChange}.
Context `{!CborLaws KeyEvent, !CborLaws TextInput, !CborLaws ImeComposition, !CborLaws MouseMove,
          !CborLaws MouseButton, !CborLaws Wheel, !CborLaws ImeModeChange}.
Variable clock : Z -> Z.

#[local] Notation run := (InputInjection.run (EncodeError := EncodeError) (JoinError := JoinError)).

(** C22: What is typed arrives.  Let a client with the keyboard forward what its
    window reports of any messages, and let the server, in a session that may
    inject, read the stream in whatever chunks it comes and hand what it reads to
    the injector.  Then, whenever the injector's thread gets to run, once it is
    dropped Windows has been given exactly the printable text typed into the
    window, unit for unit; and if no composition began and the focus stayed,
    exactly the presses and releases of the keys that make no characters, on the
    same scan codes and in the same order. *)
Theorem keyboard_arrives sd granted stream window ds sm :
  Z.land granted bit.INPUT_KEYBOARD ≠ 0 ->
  PermissionSm.is_granted sm bit.INPUT_KEYBOARD = true ->
  PermissionSm.is_granted sm bit.INPUT_MOUSE = true ->
  write_results sd = [] ->
  let client := InputForwarder.new sd granted stream window in
  let msgs := (InputForwarder.trace_of clock client (reports ds)).1 in
  Forall fits msgs -> Z.of_nat (length msgs) < 2 ^ 64 - 1 ->
  exists client' wire,
    afor (InputForwarder.forward clock) (reports ds) client = (Ready (Ok tt), client') /\
    sent (InputForwarder.send client') = sent sd ++ wire /\
    forall receiver rest, stream_bytes (reader receiver) = wire ++ rest ->
    exists receiver' read,
      areplicate (length read) read_message receiver = (Ready (Ok read), receiver') /\
      stream_bytes (reader receiver') = rest /\
      forall screen ops,
      WorkerHandle.sent ops
      = commands_of (run (InputInjection.new (InputInjection.Os true []))
          (map (fun m => InputInjection.Message m sm) read)) ->
      exists fuel h desktop, injected screen ops fuel = Some h /\ WorkerHandle.loop h = WorkerHandle.Returned desktop /\
        flat_map WinInject.typed_by (WinInject.taken desktop)
        = encode_utf16 (WindowProc.printable (WindowProc.typed_units (WindowProc.delivered ds))) /\
        (forallb undisturbed (WindowProc.delivered ds) = true ->
         flat_map scan_stroke (WinInject.taken desktop) = omap key_stroke (WindowProc.delivered ds)).
Proof using Type*.
  intros Hg Hkb Hms Hw client msgs Hfits Hlen.
  destruct (InputForwarder.forward_all_ok clock (reports ds) client) as (client' & Hr & (_ & Hs & _) & _);
    [done|done|done|cbn [client InputForwarder.new InputForwarder.next_event_id]; fold msgs; lia|].
  exists client', (concat (map input_bytes msgs)). split; [done|]. split; [done|].
  intros receiver rest Hb. rewrite Forall_forall in Hfits.
  destruct (areplicate_in_order read_message (fun s => stream_bytes (reader s)) input_bytes msgs rest receiver)
    as (receiver' & Hread & Hrest); [|done|].
  { intros m rest' t Hm Ht. apply input_read_message_ok; [|done]. by apply Hfits. }
  exists receiver', msgs. split; [done|]. split; [done|]. intros screen ops Hops.
  rewrite commands_emitted, run_arrives in Hops by (done || apply trace_no_mode_change).
  cbn [InputInjection.new InputInjection.emitted app] in Hops.
  destruct (injected_all screen _ ops Hops) as (fuel & h & Hi & Hl).
  exists fuel, h. eexists. split; [done|]. split; [exact Hl|]. cbn [WinInject.taken].
  assert (msgs = (InputForwarder.trace clock true (InputForwarder.mouse client) (stream, window)
    (InputForwarder.progress_of client) (reports ds)).1) as Hmsgs.
  { subst msgs client. unfold InputForwarder.trace_of. cbn [InputForwarder.new InputForwarder.keyboard].
    by rewrite (proj2 (Z.eqb_neq _ _) Hg). }
  split.
  - rewrite units_of_commands, <- units_reported, Hmsgs. by apply trace_arrives; [intros []|].
  - intros Hu. rewrite strokes_of_commands, Hmsgs, trace_arrives.
    + by rewrite reports_run, strokes_run.
    + by intros [].
    + intros Hlost. exfalso. rewrite reports_run in Hlost. revert Hlost.
      by apply focus_kept; [intros ?%not_elem_of_nil|].
Qed.

End theorems.

(** ** Concrete runs *)

Module Examples.
#[local] Existing Instance plain_transport.
#[local] Existing Instance WindowProc.Examples.windows.
#[local] Instance key_cbor : Cbor KeyEvent := countable_cbor.
#[local] Instance text_cbor : Cbor TextInput := countable_cbor.
#[local] Instance composition_cbor : Cbor ImeComposition := countable_cbor.
#[local] Instance move_cbor : Cbor MouseMove := countable_cbor.
#[local] Instance button_cbor : Cbor MouseButton := countable_cbor.
#[local] Instance wheel_cbor : Cbor Wheel := countable_cbor.
#[local] Instance mode_cbor : Cbor ImeModeChange := countable_cbor.

Definition clock (n : Z) : Z := 0.

Definition everything : Z := Z.lor bit.INPUT_KEYBOARD bit.INPUT_MOUSE.

Definition stream : SendStream := {| sent := []; write_results := [] |}.

#[local] Notation client := (InputForwarder.new stream everything (64, 48) (32, 24)).

(** An "h", typed, and an arrow key. *)
Definition typing : list WindowProc.delivery :=
  [WindowProc.Queued (WindowProc.Examples.key WindowProc.WM_KEYDOWN 0x23);
   WindowProc.Queued (WindowProc.Examples.plain WindowProc.WM_CHAR 104 0);
   WindowProc.Queued (WindowProc.Examples.key WindowProc.WM_KEYDOWN 0x14D);
   WindowProc.Queued (WindowProc.Examples.key WindowProc.WM_KEYUP 0x14D)].

(** The desktop of a session that is handed everything at once. *)
Definition desktop (ds : list WindowProc.delivery) : list WinInject.INPUT :=
  let msgs := (InputForwarder.trace_of clock client (reports ds)).1 in
  let s := InputInjection.run (EncodeError := unit) (JoinError := unit)
    (InputInjection.new (InputInjection.Os true []))
    (map (fun m => InputInjection.Message m (PermissionSm.new everything)) msgs) in
  flat_map (WinInject.inputs_of
    {| WinInject.output_origin := (0, 0); WinInject.vs_x := 0; WinInject.vs_y := 0;
       WinInject.vs_cx := 64; WinInject.vs_cy := 48 |}) (commands_of s).

(** The "h" arrives as text only, the arrow as a key. *)
Example typing_arrives :
  desktop typing
  = WinInject.strokes 104 ++
    [WinInject.keyboard_input 0x4D [WinInject.KEYEVENTF_SCANCODE; WinInject.KEYEVENTF_EXTENDEDKEY];
     WinInject.keyboard_input 0x4D [WinInject.KEYEVENTF_SCANCODE; WinInject.KEYEVENTF_EXTENDEDKEY;
                                    WinInject.KEYEVENTF_KEYUP]].
Proof. by vm_compute. Qed.

Lemma keyboard_arrives_witness :
  Forall fits (InputForwarder.trace_of clock client (reports typing)).1 /\
  exists client' wire,
    afor (InputForwarder.forward clock) (reports typing) client = (Ready (Ok tt), client') /\
    sent (InputForwarder.send client') = [] ++ wire.
Proof.
  pose proof (@countable_cbor_laws KeyEvent _ _) as L1.
  pose proof (@countable_cbor_laws TextInput _ _) as L2.
  pose proof (@countable_cbor_laws ImeComposition _ _) as L3.
  pose proof (@countable_cbor_laws MouseMove _ _) as L4.
  pose proof (@countable_cbor_laws MouseButton _ _) as L5.
  pose proof (@countable_cbor_laws Wheel _ _) as L6.
  pose proof (@countable_cbor_laws ImeModeChange _ _) as L7.
  assert (Forall fits (InputForwarder.trace_of clock client (reports typing)).1) as Hf.
  { apply fits_computed. by vm_compute. }
  split; [exact Hf|].
  destruct (keyboard_arrives (EncodeError := unit) (JoinError := unit) clock stream everything (64, 48) (32, 24) typing
    (PermissionSm.new everything) ltac:(done) ltac:(by vm_compute) ltac:(by vm_compute) eq_refl Hf ltac:(by vm_compute))
    as (client' & wire & E & Hw & _).
  exact (ex_intro _ client' (ex_intro _ wire (conj E Hw))).
Defined.

(** A session that ends with Shift and the left button down. *)
#[local] Notation session := (InputInjection.run (EncodeError := unit) (JoinError := unit)
  (InputInjection.new (InputInjection.Os true []))
  [InputInjection.Message (InputInjection.Examples.key 1 0xE1 true 0) (PermissionSm.new everything);
   InputInjection.Message (Button {| mb_header := {| event_id := 2; client_ts := 0 |}; mb_button := 1;
                                     mb_down := true; mb_x := 0; mb_y := 0 |}) (PermissionSm.new everything)]).

Definition sends (commands : list InputInjection.InjectCommand) : list (WorkerHandle.op MacInject.timed) :=
  map (fun c => WorkerHandle.Send (0, c)) commands.

Lemma mac_desktop_released_witness :
  Forall MacInject.typed_command (commands_of (InputInjection.release_all session)) /\
  exists fuel h device shim,
    injected_mac MacInject.default_config (sends (commands_of (InputInjection.release_all session))) fuel = Some h /\
    WorkerHandle.loop h = WorkerHandle.Returned (device, shim) /\
    MacInject.down_after (MacInject.posted shim) = new_pressed /\
    MacInject.pressed_modifiers device = [] /\ MacInject.pressed_buttons device = 0.
Proof.
  assert (Forall MacInject.typed_command (commands_of (InputInjection.release_all session))) as Ht.
  { vm_compute. repeat constructor; done. }
  split; [exact Ht|].
  apply (proj2 (mac_desktop_released MacInject.default_config _ Ht)). vm_compute. reflexivity.
Defined.

(** Shift, let go while a composition lasts, stays down on the desktop. *)
Example shift_stays_down :
  keys (press_all (flat_map WinInject.pressed_by (desktop
    [WindowProc.Queued (WindowProc.Examples.key WindowProc.WM_KEYDOWN 0x2A);
     WindowProc.Sent (WindowProc.Examples.plain WindowProc.WM_IME_STARTCOMPOSITION 0 0);
     WindowProc.Queued (WindowProc.Examples.key WindowProc.WM_KEYUP 0x2A);
     WindowProc.Sent (WindowProc.Examples.plain WindowProc.WM_IME_ENDCOMPOSITION 0 0)]))) = {[ 0xE1 ]}.
Proof. by apply (bool_decide_unpack _); vm_compute. Qed.
End Examples.
