(* ===== verification/MacCapture.v ===== *)
(** Capture and encoding on macOS: the model of
    [src/sardp-mac/src/desktop_h264.rs].  ScreenCaptureKit and VideoToolbox call
    back on threads of their own; the callbacks hand frames to the worker over a
    small bounded channel, and the worker forwards them to the consumer.  Every
    callback and every turn of the worker is an atomic step, and the theorems hold
    for every interleaving of the steps. *)

From S2P Require Import Prelude.
From S2P Require Import Float64.
From S2P Require H264.
From S2P Require Import FrameSource.

(** * Definitions *)

(** ** What the two frameworks hand over *)

Inductive FrameStatus :=
| Complete
| Idle
| Blank
| Suspended
| Started
| Stopped
| Unknown (v : Z).

(** [From<i32>]. *)
Definition status_of (v : Z) : FrameStatus :=
  if v =? 0 then Complete else if v =? 1 then Idle else if v =? 2 then Blank
  else if v =? 3 then Suspended else if v =? 4 then Started else if v =? 5 then Stopped
  else Unknown v.

Record MainDisplayInfo := {
  points_w : f64;
  pixels_w : Z;
  pixels_h : Z;
  d_origin_x : f64;
  d_origin_y : f64;
  refresh_hz : f64;
}.

Record EncodedRef := {
  er_annex_b : list Z;
  is_sync : bool;
  capture_ts_us : Z;
  er_parameter_sets : option (list Z);
}.

(** [encoded_tramp]: what the shim passes becomes an [EncodedRef], unless it is
    empty. *)
Definition encoded_tramp (annex_b : list Z) (is_sync : bool) (capture_ts_us : Z) (param_sets : list Z) :
    option EncodedRef :=
  match annex_b with
  | [] => None
  | _ => Some {| er_annex_b := annex_b; is_sync := is_sync; capture_ts_us := capture_ts_us;
                 er_parameter_sets := match param_sets with [] => None | _ => Some param_sets end |}
  end.

(** What the callbacks hand to the worker. *)
Inductive Event :=
| Frame (f : EncodedFrame)
| StreamStopped (message : string).

Inductive RecvTimeoutError := Timeout | RecvDisconnected.

Section capture.
(** The pixel buffers of the system; the standard library's channel between the
    callbacks and the worker, and [tokio]'s from the worker to the consumer. *)
Context {PixelBuffer H C : Type} `{!BoundedChannel H Event} `{!BoundedChannel C EncodedFrame}.

Record FrameRef := {
  pixel_buffer : option PixelBuffer;
  status : FrameStatus;
}.

(** ** The callbacks *)

(** [encoder] is what the compression session has taken: the time stamp of each
    frame, and whether an IDR was asked for. *)
Record CaptureSink := {
  encoder : list (Z * bool);
  force_idr : bool;
  submitted : Z;
  no_image : Z;
  refused : Z;
}.

Record Forwarder := {
  parameter_sets : H264.ParameterSetCache;
  handoff_drops : Z;
}.

(** [Encoder::encode], where the shim returns [rc]. *)
Definition encode (pixel_buffer : PixelBuffer) (capture_ts_us : Z) (force_idr : bool) (rc : Z)
    (taken : list (Z * bool)) : result Z unit * list (Z * bool) :=
  if rc =? 0 then (Ok tt, taken ++ [(capture_ts_us, force_idr)]) else (Err rc, taken).

(** The image of a frame that has one. *)
Definition image (frame : FrameRef) : option PixelBuffer :=
  match status frame with
  | Complete | Started => pixel_buffer frame
  | _ => None
  end.

(** [on_frame], at the time [now]. *)
Definition on_frame (frame : FrameRef) (now rc : Z) (s : CaptureSink) : CaptureSink :=
  match image frame with
  | None =>
      {| encoder := encoder s; force_idr := force_idr s; submitted := submitted s;
         no_image := wrap 64 (no_image s + 1); refused := refused s |}
  | Some pixels =>
      let '(r, taken) := encode pixels now (force_idr s) rc (encoder s) in
      match r with
      | Err _ =>
          {| encoder := taken; force_idr := false; submitted := submitted s; no_image := no_image s;
             refused := wrap 64 (refused s + 1) |}
      | Ok _ =>
          {| encoder := taken; force_idr := false; submitted := wrap 64 (submitted s + 1);
             no_image := no_image s; refused := refused s |}
      end
  end.

(** The channel after [on_stopped]; the result of [try_send] is ignored. *)
Definition on_stopped (message : string) (tx : H) : H := (try_send (StreamStopped message) tx).2.

(** The frame [on_encoded] makes, and the cache it leaves. *)
Definition encoded_frame (frame : EncodedRef) (now : Z) (c : H264.ParameterSetCache) :
    EncodedFrame * H264.ParameterSetCache :=
  let c := match er_parameter_sets frame with Some sets => H264.set_fallback sets c | None => c end in
  let annex_b := er_annex_b frame in
  let is_idr := H264.is_idr_access_unit annex_b (is_sync frame) in
  let c := (H264.observe annex_b c).2 in
  let annex_b := if is_idr then H264.complete_idr c annex_b else annex_b in
  ({| annex_b := annex_b; ef_is_idr := is_idr; ef_capture_ts := capture_ts_us frame; ef_encode_done_ts := now |}, c).

Definition on_encoded (frame : EncodedRef) (now : Z) (f : Forwarder) (tx : H) : EncodedFrame * Forwarder * H :=
  let '(out, c) := encoded_frame frame now (parameter_sets f) in
  let '(r, tx) := try_send (Frame out) tx in
  (out,
   {| parameter_sets := c;
      handoff_drops :=
        match r with Err Full => wrap 64 (handoff_drops f + 1) | _ => handoff_drops f end |},
   tx).

(** ** The worker *)

(** [recv_timeout] of the worker, over which both callbacks hold a sender: an
    empty channel ends the wait by its timeout. *)
Definition recv_timeout (rx : H) : result RecvTimeoutError Event * H :=
  match try_recv rx with
  | (Some e, rx) => (Ok e, rx)
  | (None, rx) => (Err Timeout, rx)
  end.

(** What the loop makes of one wait: [Some] when it returns. *)
Definition pump_event (info : SourceInfo) (received : result RecvTimeoutError Event)
    (ctx : WorkerContext (C := C) (I := SourceInfo)) :
    option (result string unit) * WorkerContext :=
  match received with
  | Ok (Frame frame) =>
      let ctx := (report_ready info ctx).2 in
      let '(r, sender) := send frame (frames ctx) in
      let ctx := {| frames := sender; stop := stop ctx; ready := ready ctx; reported := reported ctx |} in
      (match r with Sent | Dropped => None | Closed => Some (Ok tt) end, ctx)
  | Ok (StreamStopped message) =>
      (Some (Err (String.append "ScreenCaptureKit stopped the stream: " message)), ctx)
  | Err Timeout => (None, ctx)
  | Err RecvDisconnected => (Some (Err "capture callbacks are gone"), ctx)
  end.

(** A turn of [pump]. *)
Definition pump_turn (info : SourceInfo) (rx : H) (ctx : WorkerContext (C := C) (I := SourceInfo)) :
    option (result string unit) * H * WorkerContext :=
  if stop ctx then (Some (Ok tt), rx, ctx)
  else
    let '(received, rx) := recv_timeout rx in
    let '(r, ctx) := pump_event info received ctx in
    (r, rx, ctx).

(** The part of [run_worker] before the loop: the permission, the display, and
    what creating the encoder and the stream leads to. *)
Definition prepare (permitted : bool) (display : option MainDisplayInfo)
    (encoder_ session : result string unit) : result string SourceInfo :=
  if negb permitted then
    Err "screen recording permission not granted (System Settings > Privacy & Security > Screen & System Audio Recording)"
  else
    match display with
    | None => Err "no main display"
    | Some display =>
        let fps := as_u32 (fmax (round (refresh_hz display)) (f64_of 1)) in
        let info :=
          {| si_width := pixels_w display; si_height := pixels_h display; fps := fps;
             origin_x := as_i32 (round (d_origin_x display));
             origin_y := as_i32 (round (d_origin_y display)) |} in
        _ ← encoder_;
        _ ← session;
        Ok info
    end.

(** [backing_scale]. *)
Definition backing_scale (display : option MainDisplayInfo) : f64 :=
  match display with Some d => fdiv (f64_of (pixels_w d)) (points_w d) | None => f64_of 1 end.

(** ** Steps *)

Inductive step :=
| OnFrame (frame : FrameRef) (now rc : Z)
| OnStopped (message : string)
| OnEncoded (frame : EncodedRef) (now : Z)
| Pump
| RequestIdr
| Stop
| Next
| Close
| Leave.

(** [pump] is the loop's result once it has returned; the worker [Leave]s
    [run_worker] after that, when the capture has been stopped and the encoder
    flushed, and the receiving half of the hand-off goes with it.  [encoded],
    [offered] and [received] say what the encoder has put out, what the consumer's
    channel was offered and with what outcome, and what the consumer got;
    [abandoned] are the frames that were left in the hand-off when the worker went,
    or came later and found nobody there. *)
Record world := {
  sink : CaptureSink;
  forwarder : Forwarder;
  handoff : H;
  ctx : WorkerContext (C := C) (I := SourceInfo);
  pump : option (result string unit);
  encoded : list EncodedFrame;
  offered : list (EncodedFrame * SendOutcome);
  received : list EncodedFrame;
  abandoned : list EncodedFrame;
}.

Definition with_sink (k : CaptureSink) (w : world) : world :=
  {| sink := k; forwarder := forwarder w; handoff := handoff w; ctx := ctx w; pump := pump w;
     encoded := encoded w; offered := offered w; received := received w; abandoned := abandoned w |}.

Definition with_frames (s : FrameSender C) (got : list EncodedFrame) (w : world) : world :=
  {| sink := sink w; forwarder := forwarder w; handoff := handoff w;
     ctx := {| frames := s; stop := stop (ctx w); ready := ready (ctx w); reported := reported (ctx w) |};
     pump := pump w; encoded := encoded w; offered := offered w; received := received w ++ got; abandoned := abandoned w |}.

Definition request_idr (s : CaptureSink) : CaptureSink :=
  {| encoder := encoder s; force_idr := true; submitted := submitted s; no_image := no_image s;
     refused := refused s |}.

(** The outcome of offering [f], told by the sender. *)
Definition offers (rx : H) (ctx : WorkerContext (C := C) (I := SourceInfo)) : list (EncodedFrame * SendOutcome) :=
  if stop ctx then []
  else match (recv_timeout rx).1 with Ok (Frame f) => [(f, (send f (frames ctx)).1)] | _ => [] end.

(** The frames among some events. *)
Definition frames_in (es : list Event) : list EncodedFrame :=
  omap (fun e => match e with Frame f => Some f | StreamStopped _ => None end) es.

Definition run_step (info : SourceInfo) (w : world) (o : step) : world :=
  match o with
  | OnFrame frame now rc => with_sink (on_frame frame now rc (sink w)) w
  | OnStopped message =>
      {| sink := sink w; forwarder := forwarder w; handoff := on_stopped message (handoff w); ctx := ctx w;
         pump := pump w; encoded := encoded w; offered := offered w; received := received w; abandoned := abandoned w |}
  | OnEncoded frame now =>
      let '(out, f, tx) := on_encoded frame now (forwarder w) (handoff w) in
      {| sink := sink w; forwarder := f; handoff := tx; ctx := ctx w; pump := pump w;
         encoded := encoded w ++ [out]; offered := offered w; received := received w;
         abandoned := abandoned w ++ if open (handoff w) then [] else [out] |}
  | Pump =>
      match pump w with
      | Some _ => w
      | None =>
          let '(r, rx, c) := pump_turn info (handoff w) (ctx w) in
          {| sink := sink w; forwarder := forwarder w; handoff := rx; ctx := c; pump := r;
             encoded := encoded w; offered := offered w ++ offers (handoff w) (ctx w); received := received w; abandoned := abandoned w |}
      end
  | RequestIdr => with_sink (request_idr (sink w)) w
  | Stop =>
      {| sink := sink w; forwarder := forwarder w; handoff := handoff w;
         ctx := {| frames := frames (ctx w); stop := true; ready := ready (ctx w); reported := reported (ctx w) |};
         pump := pump w; encoded := encoded w; offered := offered w; received := received w; abandoned := abandoned w |}
  | Next =>
      let '(r, c) := try_recv (tx (frames (ctx w))) in
      with_frames {| tx := c; dropped := dropped (frames (ctx w)) |}
        (match r with Some f => [f] | None => [] end) w
  | Close => with_frames {| tx := close (tx (frames (ctx w))); dropped := dropped (frames (ctx w)) |} [] w
  | Leave =>
      match pump w with
      | None => w
      | Some _ =>
          {| sink := sink w; forwarder := forwarder w; handoff := close (handoff w); ctx := ctx w; pump := pump w;
             encoded := encoded w; offered := offered w; received := received w;
             abandoned := abandoned w ++ frames_in (waiting (handoff w)) |}
      end
  end.

Definition initial : world :=
  {| sink := {| encoder := []; force_idr := false; submitted := 0; no_image := 0; refused := 0 |};
     forwarder := {| parameter_sets := H264.new; handoff_drops := 0 |};
     handoff := channel DEFAULT_CHANNEL_CAPACITY;
     ctx := {| frames := new (channel DEFAULT_CHANNEL_CAPACITY); stop := false; ready := true; reported := [] |};
     pump := None; encoded := []; offered := []; received := []; abandoned := [] |}.

Definition run (info : SourceInfo) (steps : list step) : world := fold_left (run_step info) steps initial.

(** What goes to and comes from the consumer, as a flow of [FrameSource]. *)
Definition flow_of (w : world) : flow :=
  {| sender := frames (ctx w); FrameSource.received := received w; outcomes := offered w |}.

Definition is_closed (p : EncodedFrame * SendOutcome) : bool :=
  match p.2 with Closed => true | _ => false end.

(** * Lemmas *)

Lemma frames_in_app a b : frames_in (a ++ b) = frames_in a ++ frames_in b.
Proof. apply omap_app. Qed.

Context `{!BoundedChannelLaws H Event} `{!BoundedChannelLaws C EncodedFrame}.
Set Default Proof Using "Type*".

(** The handed-over frames: each encoded one that the hand-off took, in order; the
    worker takes the hand-off with it when it goes, which is after its loop. *)
Definition handed_ok (w : world) : Prop :=
  (if open (handoff w) then abandoned w = [] else waiting (handoff w) = [] /\ pump w <> None) /\
  (map fst (offered w) ++ frames_in (waiting (handoff w))) `sublist_of` encoded w /\
  handoff_drops (forwarder w)
  = wrap 64 (Z.of_nat (length (encoded w)) - Z.of_nat (length (offered w))
             - Z.of_nat (length (frames_in (waiting (handoff w)))) - Z.of_nat (length (abandoned w))).

Definition consumer_ok (info : SourceInfo) (w : world) : Prop :=
  flow_ok DEFAULT_CHANNEL_CAPACITY (flow_of w) /\
  (open (tx (frames (ctx w))) = true -> forallb (fun p => negb (is_closed p)) (offered w) = true) /\
  ready (ctx w) = bool_decide (offered w = []) /\
  reported (ctx w) = match offered w with [] => [] | _ => [Ok info] end.

Lemma handed_try_send (e : Event) (tx : H) tx' r :
  try_send e tx = (r, tx') ->
  open tx' = open tx /\
  match r with
  | Ok _ => open tx = true /\ waiting tx' = waiting tx ++ [e]
  | Err Full => open tx = true /\ waiting tx' = waiting tx
  | Err ChannelClosed => open tx = false /\ waiting tx' = waiting tx
  end.
Proof.
  intros E. pose proof (try_send_spec e tx) as Hs. rewrite E in Hs.
  destruct Hs as (_ & Ho' & Hs). split; [done|]. destruct r as [[]|[]]; tauto.
Qed.

Lemma handed_on_encoded frame now info w :
  handed_ok w -> handed_ok (run_step info w (OnEncoded frame now)).
Proof.
  intros (Ho & Hsub & Hd). cbn [run_step]. unfold on_encoded.
  destruct (encoded_frame frame now (parameter_sets (forwarder w))) as [out c].
  destruct (try_send (Frame out) (handoff w)) as [r tx'] eqn:E.
  destruct (handed_try_send _ _ _ _ E) as [Ho' Hw].
  unfold handed_ok. cbn [handoff offered encoded forwarder handoff_drops abandoned pump]. rewrite Ho', !length_app. cbn [length].
  destruct r as [[]|[]]; destruct Hw as [Hopen Hw]; rewrite Hopen in *; rewrite Hw.
  - rewrite frames_in_app, length_app, app_assoc, Ho. cbn [frames_in omap list_omap length app].
    rewrite Ho in Hd. split_and!; [done|by apply sublist_app|rewrite Hd; f_equal; cbn [length]; lia].
  - rewrite Ho in *. cbn [length app] in *. split_and!; [done|by apply sublist_inserts_r|].
    rewrite Hd. unfold wrap. rewrite Zplus_mod_idemp_l. f_equal. lia.
  - split_and!; [apply Ho|apply Ho|by apply sublist_inserts_r|rewrite Hd; f_equal; cbn [length]; lia].
Qed.

(** A turn of the worker takes an event off the hand-off and, if it is a frame,
    offers it to the consumer. *)
Lemma pump_turn_spec info rx c r rx' c' :
  pump_turn info rx c = (r, rx', c') ->
  open rx' = open rx /\ frames_in (waiting rx) = map fst (offers rx c) ++ frames_in (waiting rx') /\
  match offers rx c with
  | [] => c' = c
  | [(f, out)] =>
      frames c' = (send f (frames c)).2 /\ out = (send f (frames c)).1 /\ ready c' = false /\
      reported c' = if ready c then reported c ++ [Ok info] else reported c
  | _ => False
  end.
Proof.
  unfold pump_turn, offers. destruct (stop c); [by intros [= <- <- <-]|].
  unfold recv_timeout. pose proof (try_recv_spec rx) as Hs. destruct (try_recv rx) as [[e|] rx1].
  - destruct Hs as (_ & Ho & Hw). rewrite Hw. destruct e as [f|m]; cbn [pump_event fst].
    + unfold report_ready. destruct (ready c) eqn:Er; cbn [snd frames ready reported stop];
        destruct (send f (frames c)) as [o s] eqn:E; intros [= <- <- <-]; cbn [map app fst frames ready reported];
        rewrite ?E, ?Er; cbn [fst snd]; done.
    + by intros [= <- <- <-].
  - destruct Hs as (_ & Ho & Hw & Hw'). intros [= <- <- <-]. cbn. by rewrite Hw, Hw'.
Qed.

Lemma handed_step info w o : handed_ok w -> handed_ok (run_step info w o).
Proof.
  intros H0. destruct o as [frame now rc|m|frame now| | | | | |]; try exact H0; [| | | |].
  - destruct H0 as (Ho & Hsub & Hd). cbn [run_step]. unfold on_stopped.
    destruct (try_send (StreamStopped m) (handoff w)) as [r tx'] eqn:E.
    destruct (handed_try_send _ _ _ _ E) as [Ho' Hw].
    assert (frames_in (waiting tx') = frames_in (waiting (handoff w))) as Ef.
    { destruct r as [[]|[]]; destruct Hw as [_ ->]; [|done..]. rewrite frames_in_app. cbn. by rewrite app_nil_r. }
    unfold handed_ok. cbn [handoff offered encoded forwarder snd abandoned pump]. rewrite Ef, Ho'. split; [|done].
    destruct (open (handoff w)); [done|]. destruct r as [[]|[]]; destruct Hw as [? Hw]; [done..|by rewrite Hw].
  - by apply handed_on_encoded.
  - cbn [run_step]. destruct (pump w) eqn:Ep; [done|].
    destruct (pump_turn info (handoff w) (ctx w)) as [[r rx'] c'] eqn:E.
    destruct (pump_turn_spec _ _ _ _ _ _ E) as (Ho' & Hw & _). destruct H0 as (Ho & Hsub & Hd).
    unfold handed_ok. cbn [handoff offered encoded forwarder abandoned pump]. rewrite map_app, length_app.
    rewrite Hw in Hsub, Hd. rewrite <- app_assoc, Ho'. split_and!; [|done|].
    + destruct (open (handoff w)); [done|]. by destruct Ho.
    + rewrite Hd, length_app, length_map. f_equal. lia.
  - cbn [run_step]. by destruct (try_recv (tx (frames (ctx w)))).
  - cbn [run_step]. destruct (pump w) eqn:Ep; [|done]. destruct H0 as (Ho & Hsub & Hd).
    destruct (close_spec (C := H) (T := Event) (handoff w)) as (_ & Hc & Hw).
    unfold handed_ok. cbn [handoff offered encoded forwarder abandoned pump]. rewrite Hc, Hw, length_app.
    split_and!; [done|done|cbn; rewrite app_nil_r; etrans; [|exact Hsub]; by apply sublist_inserts_r|].
    rewrite Hd. f_equal. cbn. lia.
Qed.

Lemma send_open f s : open (tx (send f s).2) = open (tx s) /\ (open (tx s) = true -> (send f s).1 ≠ Closed).
Proof.
  unfold send. pose proof (try_send_spec f (tx s)) as Hs. destruct (try_send f (tx s)) as [r c].
  destruct Hs as (_ & Ho & Hs). destruct r as [[]|[]]; cbn [fst snd tx]; split; try done; [].
  destruct Hs. congruence.
Qed.

Lemma consumer_step info w o : consumer_ok info w -> consumer_ok info (run_step info w o).
Proof.
  intros H0. destruct o as [frame now rc|m|frame now| | | | | |]; try exact H0.
  - cbn [run_step]. destruct (on_encoded frame now (forwarder w) (handoff w)) as [[??]?]. exact H0.
  - cbn [run_step]. destruct (pump w) eqn:Ep; [done|].
    destruct (pump_turn info (handoff w) (ctx w)) as [[r rx'] c'] eqn:E.
    destruct (pump_turn_spec _ _ _ _ _ _ E) as (_ & _ & Hc). destruct H0 as (Hf & Hcl & Hr & Hrep).
    unfold consumer_ok, flow_of. cbn [ctx offered received].
    destruct (offers (handoff w) (ctx w)) as [|[f out] [|]]; [|destruct Hc as (Hs & -> & Hr' & Hrep')|done].
    + subst c'. by rewrite !app_nil_r.
    + split_and!.
      * pose proof (flow_ok_step _ _ (Produce f) Hf) as Hf'. cbn [run_op flow_of sender] in Hf'.
        destruct (send f (frames (ctx w))) as [o s]. cbn [fst snd] in *. by rewrite Hs.
      * rewrite Hs. destruct (send_open f (frames (ctx w))) as [Ho Hnc]. rewrite Ho. intros Ht.
        rewrite forallb_app, Hcl by done. cbn. by destruct (send f (frames (ctx w))) as [[] ?] eqn:Es;
          rewrite ?Es in Hnc; cbn in *; try done; destruct (Hnc Ht).
      * rewrite Hr'. by destruct (offered w).
      * rewrite Hrep', Hr, Hrep. by destruct (offered w).
  - cbn [run_step]. destruct (try_recv (tx (frames (ctx w)))) as [r c] eqn:E.
    destruct H0 as (Hf & Hcl & Hr & Hrep). pose proof (flow_ok_step _ _ Consume Hf) as Hf'.
    cbn [run_op flow_of sender FrameSource.received outcomes] in Hf'. rewrite E in Hf'.
    pose proof (try_recv_spec (tx (frames (ctx w)))) as Hs. rewrite E in Hs.
    split_and!; [exact Hf'| |done|done]. cbn [with_frames ctx frames tx offered].
    destruct Hs as (_ & -> & _). exact Hcl.
  - destruct H0 as (Hf & Hcl & Hr & Hrep). pose proof (flow_ok_step _ _ CloseReceiver Hf) as Hf'.
    split_and!; [|by destruct (close_spec (tx (frames (ctx w)))) as (_ & Hcs & _);
                  cbn [run_step with_frames ctx frames tx]; rewrite Hcs|done|done].
    cbn [run_step]. unfold flow_of. cbn [with_frames ctx frames received offered].
    by rewrite app_nil_r.
  - cbn [run_step]. by destruct (pump w).
Qed.

Lemma run_ok info steps : handed_ok (run info steps) /\ consumer_ok info (run info steps).
Proof.
  induction steps as [|o steps [IH1 IH2]] using rev_ind.
  - destruct (channel_new (C := H) (T := Event) DEFAULT_CHANNEL_CAPACITY) as (Hw & _ & Ho).
    split.
    + split_and!; cbn; rewrite ?Ho, ?Hw; done.
    + split_and!; [|done|done|done]. exact (run_flow_ok DEFAULT_CHANNEL_CAPACITY []).
  - unfold run in *. rewrite !fold_left_app. split; [by apply handed_step|by apply consumer_step].
Qed.

(** A request is pending, or was the first thing the encoder was told since. *)
Definition requested (seen : nat) (s : CaptureSink) : Prop :=
  match drop seen (encoder s) with
  | [] => force_idr s = true
  | (_, forced) :: _ => forced = true
  end.

(** The encoder refuses a frame with an image. *)
Definition refuses (o : step) : bool :=
  match o with
  | OnFrame frame _ rc => bool_decide (is_Some (image frame)) && negb (rc =? 0)
  | _ => false
  end.

Lemma requested_step info seen w o :
  refuses o = false -> (seen <= length (encoder (sink w)))%nat -> requested seen (sink w) ->
  requested seen (sink (run_step info w o)) /\ (seen <= length (encoder (sink (run_step info w o))))%nat.
Proof.
  intros Hr Hl Hq. destruct o as [frame now rc|m|frame now| | | | | |]; try by split; [exact Hq|exact Hl].
  - cbn [run_step with_sink sink]. unfold refuses in Hr. unfold on_frame.
    destruct (image frame) as [px|]; [|by split].
    cbn in Hr. apply negb_false_iff in Hr. unfold encode. rewrite Hr. unfold requested in *.
    cbn [encoder force_idr]. rewrite length_app. split; [|lia].
    rewrite drop_app_le by done. by destruct (drop seen (encoder (sink w))) as [|[??] ?].
  - cbn [run_step]. by destruct (on_encoded frame now (forwarder w) (handoff w)) as [[??]?].
  - cbn [run_step]. destruct (pump w); [done|]. by destruct (pump_turn info (handoff w) (ctx w)) as [[??]?].
  - split; [|exact Hl]. cbn [run_step with_sink sink]. unfold requested in *. cbn [request_idr encoder force_idr].
    by destruct (drop seen (encoder (sink w))).
  - cbn [run_step]. by destruct (try_recv (tx (frames (ctx w)))).
  - cbn [run_step]. by destruct (pump w).
Qed.

(** The access units the encoder puts out. *)
Definition units (steps : list step) : list EncodedRef :=
  flat_map (fun o => match o with OnEncoded frame _ => [frame] | _ => [] end) steps.

(** [sets] stand beside the first unit, as VideoToolbox passes them. *)
Definition first_sets (sets : list Z) (us : list EncodedRef) : Prop :=
  match us with
  | [] => True
  | u :: _ => er_parameter_sets u = Some sets /\ H264.sets_ok sets = true
  end.

(** What becomes of a unit with [sets] in the cache. *)
Definition completed (sets : list Z) (u : EncodedRef) (f : EncodedFrame) : Prop :=
  ef_is_idr f = is_sync u || H264.contains_idr_slice (er_annex_b u) /\
  annex_b f = (if ef_is_idr f && negb (H264.contains_sps (er_annex_b u)) then sets ++ er_annex_b u
               else er_annex_b u) /\
  ef_capture_ts f = capture_ts_us u /\
  (H264.contains_idr_slice (er_annex_b u) = true -> H264.contains_sps (er_annex_b u) = false ->
   H264.is_self_contained_idr (annex_b f) = true).

Definition cache_ok (sets : list Z) (us : list EncodedRef) (w : world) : Prop :=
  H264.sets (parameter_sets (forwarder w)) = match us with [] => None | _ => Some sets end /\
  Forall2 (completed sets) us (encoded w).

Lemma sets_ok_nonempty sets : H264.sets_ok sets = true -> sets ≠ [].
Proof. by intros H0 ->. Qed.

Lemma encoded_frame_completed frame now c sets :
  H264.sets c = Some sets -> H264.sets_ok sets = true ->
  (encoded_frame frame now c).2 = c /\ completed sets frame (encoded_frame frame now c).1.
Proof.
  intros Hc Hok. unfold encoded_frame.
  assert (match er_parameter_sets frame with Some s => H264.set_fallback s c | None => c end = c) as ->.
  { destruct (er_parameter_sets frame) as [s|]; [|done]. unfold H264.set_fallback. rewrite Hc. by destruct s. }
  assert ((H264.observe (er_annex_b frame) c).2 = c) as -> by (unfold H264.observe; by rewrite Hc).
  split; [done|]. unfold completed. cbn [fst annex_b ef_is_idr ef_capture_ts]. unfold H264.complete_idr. rewrite Hc.
  split; [done|]. split; [by destruct (H264.is_idr_access_unit _ _)|]. split; [done|].
  intros Hs Hn. unfold H264.is_idr_access_unit. rewrite Hs, Hn, orb_true_r.
  by apply H264.prefixed_self_contained.
Qed.

(** The sets that come with the first unit fill the cache. *)
Lemma encoded_frame_first frame now c sets :
  H264.sets c = None -> er_parameter_sets frame = Some sets -> H264.sets_ok sets = true ->
  encoded_frame frame now c = encoded_frame frame now {| H264.sets := Some sets |}.
Proof.
  intros Hc Hf Hok. unfold encoded_frame. rewrite Hf. unfold H264.set_fallback. rewrite Hc. cbn [H264.sets].
  by destruct sets; [destruct (sets_ok_nonempty _ Hok)|].
Qed.

Lemma cache_keep sets us w w' :
  parameter_sets (forwarder w') = parameter_sets (forwarder w) -> encoded w' = encoded w ->
  cache_ok sets us w -> cache_ok sets us w'.
Proof. intros E1 E2. unfold cache_ok. by rewrite E1, E2. Qed.

Lemma cache_encoded info sets us frame now w :
  first_sets sets (us ++ [frame]) -> cache_ok sets us w ->
  cache_ok sets (us ++ [frame]) (run_step info w (OnEncoded frame now)).
Proof.
  intros Hf [Hc He]. cbn [run_step]. unfold on_encoded.
  assert (H264.sets_ok sets = true /\ encoded_frame frame now (parameter_sets (forwarder w))
    = encoded_frame frame now {| H264.sets := Some sets |}) as [Hok ->].
  { destruct us as [|u us']; destruct Hf as [Hf Hok]; (split; [done|]).
    - by apply encoded_frame_first.
    - destruct (parameter_sets (forwarder w)) as [x]. cbn in Hc. by subst x. }
  destruct (encoded_frame_completed frame now {| H264.sets := Some sets |} sets eq_refl Hok) as [E2 Hdec].
  destruct (encoded_frame frame now {| H264.sets := Some sets |}) as [out c']. cbn [fst snd] in *. subst c'.
  destruct (try_send (Frame out) (handoff w)) as [r tx']. split; cbn [forwarder parameter_sets encoded H264.sets].
  - by destruct us.
  - apply Forall2_app; [done|by constructor].
Qed.

Lemma cache_step info sets us o w :
  first_sets sets (us ++ units [o]) -> cache_ok sets us w -> cache_ok sets (us ++ units [o]) (run_step info w o).
Proof.
  intros Hb Hw.
  destruct o as [frame now rc|m|frame now| | | | | |]; [| |by apply cache_encoded|..]; rewrite app_nil_r in *;
    refine (cache_keep _ _ w _ _ _ Hw); try done; cbn [run_step];
    try (by destruct (pump w); [|destruct (pump_turn info (handoff w) (ctx w)) as [[??]?]]);
    try (by destruct (try_recv (tx (frames (ctx w))))); by destruct (pump w).
Qed.

Lemma run_cache_ok info sets steps :
  first_sets sets (units steps) -> cache_ok sets (units steps) (run info steps).
Proof.
  induction steps as [|o steps IH] using rev_ind; [by intros _; split|].
  unfold run, units. rewrite fold_left_app, flat_map_app. intros Hb. apply cache_step; [done|]. apply IH.
  unfold units. by destruct (flat_map _ steps).
Qed.

(** * Properties *)

(** C27: Every frame the encoder puts out is accounted for.  However the
    callbacks, the worker and the consumer interleave, what the consumer gets is
    in the encoder's order and nothing twice; as long as the consumer is there,
    every frame is with the consumer, waits in one of the two channels, is counted
    by one of the two drop counters, or has been abandoned; and the source has
    reported that it is ready, once, exactly if a frame has come through.
    Abandoned are, uncounted by the code, exactly the frames that stood in the
    hand-off when the worker left and those that came after it: none as long as
    the worker is there, and none waits in the hand-off once it has gone. *)
Theorem frames_accounted info steps :
  let w := run info steps in
  received w `sublist_of` encoded w /\
  reported (ctx w) = match offered w with [] => [] | _ => [Ok info] end /\
  (if open (handoff w) then abandoned w = [] else waiting (handoff w) = [] /\ pump w <> None) /\
  (open (tx (frames (ctx w))) = true ->
   wrap 64 (Z.of_nat (length (encoded w)))
   = wrap 64 (Z.of_nat (length (received w)) + Z.of_nat (length (waiting (tx (frames (ctx w)))))
              + dropped (frames (ctx w)) + Z.of_nat (length (frames_in (waiting (handoff w))))
              + handoff_drops (forwarder w) + Z.of_nat (length (abandoned w)))).
Proof.
  cbn zeta. set (w := run info steps).
  destruct (run_ok info steps) as [(Ho & Hsub & Hd) ((_ & (lost & Ha & Hl) & _ & _ & Hdr) & Hcl & Hr & Hrep)].
  fold w in Ho, Hsub, Hd, Ha, Hl, Hdr, Hcl, Hrep. cbn [flow_of sender FrameSource.received outcomes] in *.
  split_and!; [|done|done|].
  - etrans; [|exact Hsub]. etrans; [|apply sublist_inserts_r; reflexivity].
    etrans; [apply (sublist_inserts_r (waiting (tx (frames (ctx w))) ++ lost)); reflexivity|].
    rewrite <- Ha. unfold accepted. cbn [flow_of outcomes]. clear. induction (offered w) as [|p ps IH]; [done|].
    cbn [List.filter map]. destruct (is_sent p); cbn [map]; by constructor.
  - intros Hopen. specialize (Hcl Hopen). rewrite (Hl Hopen), app_nil_r in Ha.
    assert (length (offered w) = length (accepted (flow_of w)) + length (List.filter is_dropped (offered w)))%nat as Hn.
    { unfold accepted. cbn [flow_of outcomes]. rewrite length_map. clear -Hcl.
      induction (offered w) as [|[f []] ps IH]; [done|cbn in *; lia..|done]. }
    apply (f_equal length) in Ha. rewrite length_app in Ha. rewrite Hdr, Hd.
    match goal with |- wrap 64 ?a = wrap 64 ?b => change (eqw 64 a b) end.
    setoid_rewrite wrap_eqw. apply eq_eqw. lia.
Qed.

(** C38: Key frames go out with their parameter sets.  If well-formed parameter sets
    come beside the first unit, as VideoToolbox passes them, then whatever the
    callbacks, the worker and the consumer do, every unit becomes one frame with
    its time; it is marked as an IDR exactly if VideoToolbox says that it is a
    sync frame or it holds an IDR slice; a marked frame whose unit holds no SPS
    gets exactly the sets of the first unit in front, and every other one is the
    unit as it was.  Hence a unit that holds an IDR slice and no SPS becomes a
    frame with an SPS and a PPS before its picture.  Nothing is promised of a unit
    that VideoToolbox only flags, without an IDR slice, nor of one that brings an
    SPS of its own; and sets that come later, after a change of format, are
    ignored. *)
Theorem idrs_are_self_contained info sets steps :
  first_sets sets (units steps) ->
  Forall2 (completed sets) (units steps) (encoded (run info steps)).
Proof. intros Hb. exact (proj2 (run_cache_ok info sets steps Hb)). Qed.

(** A request for an IDR reaches the encoder.  As long as the encoder refuses no
    frame, the first frame it takes after the request carries it, however many
    frames without an image come before; until then the request is pending. *)
Theorem request_reaches_encoder info before after :
  forallb (fun o => negb (refuses o)) after = true ->
  requested (length (encoder (sink (run info before)))) (sink (run info (before ++ RequestIdr :: after))).
Proof.
  intros Ha. unfold run. rewrite fold_left_app. cbn [fold_left]. fold (run info before).
  set (w0 := run_step info (run info before) RequestIdr).
  assert (requested (length (encoder (sink (run info before)))) (sink w0) /\
          (length (encoder (sink (run info before))) <= length (encoder (sink w0)))%nat) as Hq.
  { unfold w0. split; [|done]. unfold requested. cbn [run_step with_sink sink request_idr encoder]. by rewrite drop_all. }
  clearbody w0. revert w0 Hq. induction after as [|o after IH]; intros w0 [Hq Hl]; [done|].
  cbn [forallb] in Ha. apply andb_true_iff in Ha as [Ho Ha]. apply negb_true_iff in Ho.
  cbn [fold_left]. apply IH; [done|]. by apply requested_step.
Qed.
End capture.

(** ** Concrete runs *)

Module Examples.
#[local] Instance events : BoundedChannel (queue Event) Event := queue_channel Event.
#[local] Instance encoded_frames : BoundedChannel (queue EncodedFrame) EncodedFrame := queue_channel EncodedFrame.

#[local] Notation run := (run (PixelBuffer := unit) (H := queue Event) (C := queue EncodedFrame)).
#[local] Notation step := (step (PixelBuffer := unit)).

Definition info : SourceInfo := {| si_width := 64; si_height := 48; fps := 60; origin_x := 0; origin_y := 0 |}.

Definition picture : FrameRef (PixelBuffer := unit) := {| pixel_buffer := Some tt; status := Complete |}.
Definition idle : FrameRef (PixelBuffer := unit) := {| pixel_buffer := None; status := Idle |}.

Definition sets : list Z := [0; 0; 0; 1; 0x67; 9; 0; 0; 0; 1; 0x68; 7].
Definition key_unit : EncodedRef :=
  {| er_annex_b := [0; 0; 0; 1; 0x65; 3]; is_sync := true; capture_ts_us := 10; er_parameter_sets := Some sets |}.
Definition next_unit (ts : Z) : EncodedRef :=
  {| er_annex_b := [0; 0; 0; 1; 0x41; 3]; is_sync := false; capture_ts_us := ts; er_parameter_sets := None |}.

Definition session : list step :=
  [OnFrame idle 5 0; OnFrame picture 10 0; OnEncoded key_unit 12; Pump; Next; RequestIdr; OnFrame idle 15 0;
   OnFrame picture 20 0; OnEncoded (next_unit 20) 22; OnEncoded key_unit 30; Pump].

Lemma idrs_are_self_contained_witness :
  first_sets sets (units session) /\ Forall2 (completed sets) (units session) (encoded (run info session)) /\
  map ef_is_idr (encoded (run info session)) = [true; false; true].
Proof.
  assert (first_sets sets (units session)) as Hb by by vm_compute.
  pose proof (queue_channel_laws Event). pose proof (queue_channel_laws EncodedFrame).
  split; [done|]. split; [exact (idrs_are_self_contained info sets session Hb)|by vm_compute].
Defined.

(** After a change of format the key frames still go out with the old sets. *)
Example later_sets_are_ignored :
  let u := {| er_annex_b := [0; 0; 0; 1; 0x65; 4]; is_sync := true; capture_ts_us := 20;
              er_parameter_sets := Some [0; 0; 0; 1; 0x67; 1; 0; 0; 0; 1; 0x68; 2] |} in
  map annex_b (encoded (run info [OnEncoded key_unit 12; OnEncoded u 22]))
  = [sets ++ [0; 0; 0; 1; 0x65; 3]; sets ++ [0; 0; 0; 1; 0x65; 4]].
Proof. by vm_compute. Qed.

(** The worker goes while three frames stand in the hand-off, and one comes
    later: no counter knows of them. *)
Example frames_left_behind :
  let w := run info (map (fun ts => OnEncoded (next_unit ts) ts) [1; 2]
                     ++ [Stop; Pump; OnEncoded (next_unit 3) 3; Leave; OnEncoded (next_unit 4) 4]) in
  map ef_capture_ts (abandoned w) = [1; 2; 3; 4] /\ received w = [] /\
  (handoff_drops (forwarder w), dropped (frames (ctx w))) = (0, 0).
Proof. by vm_compute. Qed.

Lemma frames_accounted_witness :
  BoundedChannelLaws (queue Event) Event /\
  received (run info session) `sublist_of` encoded (run info session).
Proof.
  pose proof (queue_channel_laws Event) as L1. pose proof (queue_channel_laws EncodedFrame) as L2.
  split; [exact L1|exact (proj1 (frames_accounted info session))].
Defined.

Lemma request_reaches_encoder_witness :
  let before : list step := [OnFrame picture 10 0] in
  let after : list step := [OnFrame idle 15 0; OnFrame picture 20 0; OnFrame picture 30 0] in
  requested 1 (sink (run info (before ++ RequestIdr :: after))) /\
  encoder (sink (run info (before ++ RequestIdr :: after))) = [(10, false); (20, true); (30, false)].
Proof.
  pose proof (queue_channel_laws Event) as L1. pose proof (queue_channel_laws EncodedFrame) as L2.
  split; [|by vm_compute].
  exact (request_reaches_encoder (PixelBuffer := unit) (H := queue Event) (C := queue EncodedFrame) info
    [OnFrame picture 10 0] [OnFrame idle 15 0; OnFrame picture 20 0; OnFrame picture 30 0] eq_refl).
Defined.

(** A frame that the encoder refuses takes the request with it: the next one is
    submitted without. *)
Example refused_frame_loses_request :
  encoder (sink (run info [RequestIdr; OnFrame picture 10 (-1); OnFrame picture 20 0])) = [(20, false)].
Proof. by vm_compute. Qed.

(** The system stops the stream while four frames wait: nobody learns of it, and
    the worker goes on waiting. *)
Example full_handoff_loses_stop :
  let w := run info (map (fun ts => OnEncoded (next_unit ts) ts) [1; 2; 3; 4]
                     ++ [OnStopped "display removed"; Pump; Next; Pump; Next; Pump; Next; Pump; Next; Pump; Pump]) in
  length (received w) = 4%nat /\ waiting (handoff w) = [] /\ pump w = None.
Proof. by vm_compute. Qed.

(** With room in the hand-off the worker ends with the reason. *)
Example stop_ends_the_source :
  pump (run info [OnEncoded key_unit 12; Pump; OnStopped "display removed"; Pump])
  = Some (Err "ScreenCaptureKit stopped the stream: display removed"%string).
Proof. by vm_compute. Qed.

(** The rate of a display becomes a whole number of frames, at least one. *)
Example prepared :
  let display hz :=
    {| points_w := f64_of 1440; pixels_w := 2880; pixels_h := 1800; d_origin_x := fdiv (f64_of (-5)) (f64_of 2);
       d_origin_y := f64_of 0; refresh_hz := hz |} in
  prepare true (Some (display (fdiv (f64_of 5994) (f64_of 100)))) (Ok tt) (Ok tt)
  = Ok {| si_width := 2880; si_height := 1800; fps := 60; origin_x := -3; origin_y := 0 |} /\
  (fps <$> prepare true (Some (display (f64_of 0))) (Ok tt) (Ok tt)) = Ok 1 /\
  backing_scale (Some (display (f64_of 60))) = f64_of 2.
Proof. by vm_compute. Qed.
End Examples.
