(* ===== verification/WinCapture.v ===== *)
(** Capture and encoding on Windows: the model of
    [src/sardp-win/src/desktop_h264.rs], on one thread.  Desktop Duplication, the
    converter and the encoder are scripts of what their calls lead to; the events of
    the transform may go on without end behind theirs ([endless]).  Times are
    nanoseconds.  The theorems hold for every script, [capture_stops] for those
    whose events come to an end. *)

From S2P Require Import Prelude.
From S2P Require Import Float64.
From S2P Require Import Async.
From S2P Require Import AsyncTriples.
From S2P Require H264.
From S2P Require Import FrameSource.

(** * Definitions *)

Definition ms (n : Z) : Z := n * 1000000.
Definition secs (n : Z) : Z := ms (n * 1000).

Section capture.
(** [windows::core::Error], made from a message and printed; the pipeline's
    clock in microseconds, as a function of the time; the consumer's channel. *)
Context {Error C : Type} (error_new : string -> Error) (display : Error -> string) (clock : Z -> Z).
Context `{!BoundedChannel C EncodedFrame}.

(** ** The encoder's transform *)

Inductive media_event := NeedInput | HaveOutput | OtherEvent.

#[export] Instance media_event_eq : EqDecision media_event.
Proof. solve_decision. Defined.

(** One [GetEvent] without waiting: the time since the call before, and the event,
    whose type may be unreadable, if there is one. *)
Record event_poll := {
  elapsed : Z;
  event : option (result Error media_event);
}.

(** What [ProcessOutput] leads to; a sample has bytes, if they can be read, and
    the clean point flag. *)
Inductive output_result :=
| NeedMoreInput
| OutputFailed (e : Error)
| NoSample
| Sample (bytes : result Error (list Z)) (clean_point : bool).

(** What happened between the worker and the system, in order: a frame acquired
    and released; the transform asking for input, and what it was given; an output
    taken out, with the capture time it was matched with. *)
Inductive call :=
| AcquireNextFrame
| ReleaseFrame
| InputRequested
| ProcessInput (capture_ts pts duration : Z) (taken : bool)
| OutputTaken (capture_ts : Z)
| ForceKeyFrame
| CommandDrain.

(** Where a script has run out, the transform takes its input and has no output; its
    events are over, and polls find nothing until the deadline they are made for,
    or never end: [endless] then comes at every poll, each time so much later. *)
Record system := {
  now : Z;
  polls : list event_poll;
  endless : option (Z * result Error media_event);
  samples : list (result Error unit);
  inputs : list (result Error unit);
  outputs : list output_result;
  sequence_headers : list (option (list Z));
  drains : list (result Error unit);
  calls : list call;
}.

Definition with_calls (cs : list call) (s : system) : system :=
  {| now := now s; polls := polls s; endless := endless s; samples := samples s; inputs := inputs s; outputs := outputs s;
     sequence_headers := sequence_headers s; drains := drains s; calls := cs |}.

Definition log (c : call) (s : system) : system := with_calls (calls s ++ [c]) s.

Definition request_of (e : option (result Error media_event)) : list call :=
  match e with Some (Ok NeedInput) => [InputRequested] | _ => [] end.

Definition get_event (deadline : Z) (s : system) : option (result Error media_event) * system :=
  match polls s, endless s with
  | [], None =>
      (None,
       {| now := Z.max (now s) deadline; polls := []; endless := None; samples := samples s; inputs := inputs s;
          outputs := outputs s; sequence_headers := sequence_headers s; drains := drains s;
          calls := calls s |})
  | [], Some (after, e) =>
      (Some e,
       {| now := now s + after; polls := []; endless := endless s; samples := samples s; inputs := inputs s;
          outputs := outputs s; sequence_headers := sequence_headers s; drains := drains s;
          calls := calls s ++ request_of (Some e) |})
  | p :: ps, _ =>
      (event p,
       {| now := now s + elapsed p; polls := ps; endless := endless s; samples := samples s; inputs := inputs s;
          outputs := outputs s; sequence_headers := sequence_headers s; drains := drains s;
          calls := calls s ++ request_of (event p) |})
  end.

(** Turns of a loop until both scripts have run out.  Where events go on without end,
    a loop that has not ended by then never does ([collect_loop_enough],
    [feed_loop_enough]): its turns are all alike. *)
Definition turns_left (s : system) : nat := (length (polls s) + length (outputs s))%nat.

(** The next of some results. *)
Definition next_result {A} (default : A) (rs : list A) : A * list A :=
  match rs with [] => (default, []) | r :: rs => (r, rs) end.

(** Making the buffer and the sample around a texture. *)
Definition create_sample (s : system) : result Error unit * system :=
  let '(r, rs) := next_result (Ok tt) (samples s) in
  (r, {| now := now s; polls := polls s; endless := endless s; samples := rs; inputs := inputs s; outputs := outputs s;
         sequence_headers := sequence_headers s; drains := drains s; calls := calls s |}).

Definition process_input (capture_ts pts duration : Z) (s : system) : result Error unit * system :=
  let '(r, rs) := next_result (Ok tt) (inputs s) in
  (r, log (ProcessInput capture_ts pts duration (is_ok r))
        {| now := now s; polls := polls s; endless := endless s; samples := samples s; inputs := rs; outputs := outputs s;
           sequence_headers := sequence_headers s; drains := drains s; calls := calls s |}).

Definition process_output (s : system) : output_result * system :=
  let '(r, rs) := next_result NeedMoreInput (outputs s) in
  (r, {| now := now s; polls := polls s; endless := endless s; samples := samples s; inputs := inputs s; outputs := rs;
         sequence_headers := sequence_headers s; drains := drains s; calls := calls s |}).

(** [read_sequence_header]: nothing for an empty blob. *)
Definition read_sequence_header (s : system) : option (list Z) * system :=
  let '(r, rs) := next_result None (sequence_headers s) in
  (match r with Some (b :: bs) => Some (b :: bs) | _ => None end,
   {| now := now s; polls := polls s; endless := endless s; samples := samples s; inputs := inputs s; outputs := outputs s;
      sequence_headers := rs; drains := drains s; calls := calls s |}).

Definition command_drain (s : system) : result Error unit * system :=
  let '(r, rs) := next_result (Ok tt) (drains s) in
  (r, log CommandDrain
        {| now := now s; polls := polls s; endless := endless s; samples := samples s; inputs := inputs s; outputs := outputs s;
           sequence_headers := sequence_headers s; drains := rs; calls := calls s |}).

(** ** The encoder *)

Record Encoder := {
  codec_api : bool;
  e_all_idr : bool;
  e_fps : Z;
  parameter_sets : H264.ParameterSetCache;
  pending_capture_ts : list Z;
  output_wait : Z;
  need_input_credits : Z;
  last_pts_100ns : option Z;
  input_count : Z;
  output_count : Z;
  finished : bool;
}.

(** The number of frames between key frames asked for. *)
Definition gop_size (all_idr : bool) (fps : Z) : Z := if all_idr then 1 else wrap 32 (Z.max fps 1 * 60).

(** [Encoder::new], where setting up the transform leads to [created]: whether it
    has an [ICodecAPI]. *)
Definition encoder_new (created : result Error bool) (fps : Z) (config : DesktopH264Config) : result Error Encoder :=
  api ← created;
  Ok {| codec_api := api; e_all_idr := all_idr config; e_fps := fps; parameter_sets := H264.new;
        pending_capture_ts := [];
        output_wait := Z.max (1000000 / Z.max fps 1 * 1000) (ms 20);
        need_input_credits := 0; last_pts_100ns := None; input_count := 0; output_count := 0;
        finished := false |}.

Definition with_sets (c : H264.ParameterSetCache) (e : Encoder) : Encoder :=
  {| codec_api := codec_api e; e_all_idr := e_all_idr e; e_fps := e_fps e; parameter_sets := c;
     pending_capture_ts := pending_capture_ts e; output_wait := output_wait e;
     need_input_credits := need_input_credits e; last_pts_100ns := last_pts_100ns e;
     input_count := input_count e; output_count := output_count e; finished := finished e |}.

Definition with_credits (n : Z) (e : Encoder) : Encoder :=
  {| codec_api := codec_api e; e_all_idr := e_all_idr e; e_fps := e_fps e; parameter_sets := parameter_sets e;
     pending_capture_ts := pending_capture_ts e; output_wait := output_wait e;
     need_input_credits := n; last_pts_100ns := last_pts_100ns e;
     input_count := input_count e; output_count := output_count e; finished := finished e |}.

Definition with_last_pts (pts : Z) (e : Encoder) : Encoder :=
  {| codec_api := codec_api e; e_all_idr := e_all_idr e; e_fps := e_fps e; parameter_sets := parameter_sets e;
     pending_capture_ts := pending_capture_ts e; output_wait := output_wait e;
     need_input_credits := need_input_credits e; last_pts_100ns := Some pts;
     input_count := input_count e; output_count := output_count e; finished := finished e |}.

Definition fed (ts : Z) (e : Encoder) : Encoder :=
  {| codec_api := codec_api e; e_all_idr := e_all_idr e; e_fps := e_fps e; parameter_sets := parameter_sets e;
     pending_capture_ts := pending_capture_ts e ++ [ts]; output_wait := output_wait e;
     need_input_credits := need_input_credits e; last_pts_100ns := last_pts_100ns e;
     input_count := wrap 64 (input_count e + 1); output_count := output_count e; finished := finished e |}.

Definition took_output (e : Encoder) : Encoder :=
  {| codec_api := codec_api e; e_all_idr := e_all_idr e; e_fps := e_fps e; parameter_sets := parameter_sets e;
     pending_capture_ts := tail (pending_capture_ts e); output_wait := output_wait e;
     need_input_credits := need_input_credits e; last_pts_100ns := last_pts_100ns e;
     input_count := input_count e; output_count := wrap 64 (output_count e + 1); finished := finished e |}.

Definition with_finished (e : Encoder) : Encoder :=
  {| codec_api := codec_api e; e_all_idr := e_all_idr e; e_fps := e_fps e; parameter_sets := parameter_sets e;
     pending_capture_ts := pending_capture_ts e; output_wait := output_wait e;
     need_input_credits := need_input_credits e; last_pts_100ns := last_pts_100ns e;
     input_count := input_count e; output_count := output_count e; finished := true |}.

(** An encoder's methods work on the system and the encoder. *)
Definition encoding : Type -> Type := async (system * Encoder) Error.

Definition on_system {A} (f : system -> result Error A * system) : encoding A :=
  fun s => let '(r, sys) := f s.1 in (Ready r, (sys, s.2)).

Definition on_encoder (f : Encoder -> Encoder) : encoding unit :=
  fun s => (Ready (Ok tt), (s.1, f s.2)).

Definition poll_event (deadline : Z) : encoding (option (result Error media_event)) :=
  on_system (fun s => let '(e, s) := get_event deadline s in (Ok e, s)).

Definition force_next_idr : encoding unit :=
  fun s => (Ready (Ok tt), if codec_api s.2 then (log ForceKeyFrame s.1, s.2) else s).

(** The loop of [wait_for_event] since [start].  A poll takes an event off the
    script, so one turn more than there are events is enough. *)
Fixpoint wait_loop (fuel : nat) (start timeout : Z) : encoding media_event :=
  match fuel with
  | O => fun s => (Pending, s)
  | S fuel =>
      polled ← poll_event (start + timeout + 1);
      match polled with
      | Some event => alift event
      | None =>
          s ← aget;
          if timeout <? now s.1 - start then athrow (error_new "timed out waiting for MFT event")
          else wait_loop fuel start timeout
      end
  end.

Definition wait_for_event (timeout : Z) : encoding media_event :=
  s ← aget; wait_loop (S (length (polls s.1))) (now s.1) timeout.

(** The output is counted and matched with the oldest capture time. *)
Definition match_output (encode_done_ts : Z) : encoding Z :=
  fun s =>
    let capture_ts := match pending_capture_ts s.2 with ts :: _ => ts | [] => encode_done_ts end in
    (Ready (Ok capture_ts), (log (OutputTaken capture_ts) s.1, took_output s.2)).

Definition take_one_output (clock : Z -> Z) : encoding (option EncodedFrame) :=
  out ← on_system (fun s => let '(r, s) := process_output s in (Ok r, s));
  match out with
  | NeedMoreInput => aret None
  | OutputFailed e => athrow e
  | NoSample => aret None
  | Sample bytes clean_point =>
      s ← aget;
      let encode_done_ts := clock (now s.1) in
      capture_ts ← match_output encode_done_ts;
      annex_b ← alift bytes;
      let is_idr := H264.is_idr_access_unit annex_b clean_point in
      s ← aget;
      let '(known, c) := H264.observe annex_b (parameter_sets s.2) in
      _ ← on_encoder (with_sets c);
      c ← (if known then aret c
           else
             header ← on_system (fun s => let '(h, s) := read_sequence_header s in (Ok h, s));
             let c := match header with Some h => H264.set_fallback h c | None => c end in
             _ ← on_encoder (with_sets c);
             aret c);
      let annex_b := if is_idr then H264.complete_idr c annex_b else annex_b in
      aret (Some {| annex_b := annex_b; ef_is_idr := is_idr; ef_capture_ts := capture_ts;
                    ef_encode_done_ts := encode_done_ts |})
  end.

Definition opt_list {A} (o : option A) : list A := match o with Some x => [x] | None => [] end.

(** The transform takes the input, and its capture time waits for its output. *)
Definition feed_input (capture_ts pts duration : Z) : encoding unit :=
  _ ← on_system (process_input capture_ts pts duration);
  on_encoder (fed capture_ts).

(** The first loop of [encode_frame], until the transform has taken the input;
    the frames that came out on the way. *)
Fixpoint feed_loop (fuel : nat) (pts duration capture_ts : Z) (out : list EncodedFrame) :
    encoding (list EncodedFrame) :=
  match fuel with
  | O => fun s => (Pending, s)
  | S fuel =>
      s ← aget;
      event_type ←
        (if 0 <? need_input_credits s.2 then
           _ ← on_encoder (with_credits (need_input_credits s.2 - 1));
           aret NeedInput
         else wait_for_event (secs 5));
      match event_type with
      | NeedInput =>
          _ ← (if e_all_idr s.2 then force_next_idr else aret tt);
          _ ← feed_input capture_ts pts duration;
          aret out
      | HaveOutput =>
          frame ← take_one_output clock;
          feed_loop fuel pts duration capture_ts (out ++ opt_list frame)
      | OtherEvent => feed_loop fuel pts duration capture_ts out
      end
  end.

(** The second loop: the bounded wait for this input's output. *)
Fixpoint collect_loop (fuel : nat) (deadline : Z) (out : list EncodedFrame) : encoding (list EncodedFrame) :=
  match fuel with
  | O => fun s => (Pending, s)
  | S fuel =>
      polled ← poll_event deadline;
      match polled with
      | Some event =>
          event_type ← alift event;
          match event_type with
          | HaveOutput =>
              frame ← take_one_output clock;
              collect_loop fuel deadline (out ++ opt_list frame)
          | NeedInput =>
              _ ← on_encoder (fun e => with_credits (wrap 32 (need_input_credits e + 1)) e);
              collect_loop fuel deadline out
          | OtherEvent => collect_loop fuel deadline out
          end
      | None =>
          s ← aget;
          if (input_count s.2 <=? output_count s.2) || (deadline <=? now s.1) then aret out
          else collect_loop fuel deadline out
      end
  end.

Definition encode_frame (capture_ts : Z) : encoding (list EncodedFrame) :=
  s ← aget;
  let pts := swrap 64 (swrap 64 capture_ts * 10) in
  let duration :=
    match last_pts_100ns s.2 with
    | Some prev => Z.max (swrap 64 (pts - prev)) 1
    | None => Z.quot 10000000 (e_fps s.2)
    end in
  _ ← on_encoder (with_last_pts pts);
  _ ← on_system create_sample;
  out ← feed_loop (S (turns_left s.1)) pts duration capture_ts [];
  s ← aget;
  collect_loop (S (turns_left s.1)) (now s.1 + output_wait s.2) out.

(** The loop of [finish]. *)
Fixpoint drain_loop (fuel : nat) (deadline : Z) : encoding unit :=
  match fuel with
  | O => fun s => (Pending, s)
  | S fuel =>
      s ← aget;
      if (output_count s.2 <? input_count s.2) && (now s.1 <? deadline) then
        polled ← poll_event deadline;
        match polled with
        | Some event =>
            event_type ← alift event;
            _ ← match event_type with
                | HaveOutput => take_one_output (fun _ => 0)
                | _ => aret None
                end;
            drain_loop fuel deadline
        | None => drain_loop fuel deadline
        end
      else aret tt
  end.

(** Endless events fill the two seconds of [finish] with this many turns, if time
    passes between them. *)
Definition drain_turns (s : system) : nat :=
  match endless s with Some (after, _) => S (Z.to_nat (secs 2 / after)) | None => O end.

Definition finish : encoding unit :=
  s ← aget;
  if finished s.2 then aret tt
  else
    _ ← on_encoder with_finished;
    _ ← on_system command_drain;
    s ← aget;
    drain_loop (S (S (turns_left s.1 + drain_turns s.1))) (now s.1 + secs 2).

(** ** The capture loop *)

(** A captured texture: whether it is one, its size, what creating the converter
    and the encoder for it leads to, and the conversion. *)
Record texture := {
  cast : result Error unit;
  desc : Z * Z;
  converter_new : result Error unit;
  encoder_created : result Error bool;
  convert : result Error unit;
}.

Inductive acquired :=
| AcquiredFrame (last_present_time : Z) (resource : option texture)
| WaitTimeout
| AccessLost (e : Error)
| AcquireFailed (e : Error).

(** A turn of the loop: what the consumer does before it, whether the stop flag is
    set, how long [AcquireNextFrame] takes and what it leads to, and whether an IDR
    has been asked for by the time the frame is encoded. *)
Record turn := {
  taken : nat;
  closed : bool;
  stopped : bool;
  waited : Z;
  acquire : acquired;
  idr_requested : bool;
}.

Record CaptureStats := {
  st_acquired : Z;
  st_encoded : Z;
  pointer_only : Z;
  paced_out : Z;
}.

Definition no_stats : CaptureStats := {| st_acquired := 0; st_encoded := 0; pointer_only := 0; paced_out := 0 |}.

(** Incremented by these amounts. *)
Definition count (a e p o : Z) (s : CaptureStats) : CaptureStats :=
  {| st_acquired := wrap 64 (st_acquired s + a); st_encoded := wrap 64 (st_encoded s + e);
     pointer_only := wrap 64 (pointer_only s + p); paced_out := wrap 64 (paced_out s + o) |}.

(** [guard] says that the release guard is alive.  [encoded_at] are the times of
    the frames that were let through, [offered] what the consumer's channel was offered and with what
    outcome, [received] what the consumer got. *)
Record worker := {
  sys : system;
  encoder : option Encoder;
  stats : CaptureStats;
  next_due : option Z;
  guard : bool;
  force_idr : bool;
  ctx : WorkerContext (C := C) (I := SourceInfo);
  encoded_at : list Z;
  offered : list (EncodedFrame * SendOutcome);
  received : list EncodedFrame;
}.

Definition capturing : Type -> Type := async worker string.

Definition update (f : worker -> worker) : capturing unit := fun w => (Ready (Ok tt), f w).

Definition with_sys (s : system) (w : worker) : worker :=
  {| sys := s; encoder := encoder w; stats := stats w; next_due := next_due w; guard := guard w;
     force_idr := force_idr w; ctx := ctx w; encoded_at := encoded_at w; offered := offered w;
     received := received w |}.

Definition with_encoder (e : option Encoder) (w : worker) : worker :=
  {| sys := sys w; encoder := e; stats := stats w; next_due := next_due w; guard := guard w;
     force_idr := force_idr w; ctx := ctx w; encoded_at := encoded_at w; offered := offered w;
     received := received w |}.

Definition with_stats (f : CaptureStats -> CaptureStats) (w : worker) : worker :=
  {| sys := sys w; encoder := encoder w; stats := f (stats w); next_due := next_due w; guard := guard w;
     force_idr := force_idr w; ctx := ctx w; encoded_at := encoded_at w; offered := offered w;
     received := received w |}.

Definition with_guard (g : bool) (w : worker) : worker :=
  {| sys := sys w; encoder := encoder w; stats := stats w; next_due := next_due w; guard := g;
     force_idr := force_idr w; ctx := ctx w; encoded_at := encoded_at w; offered := offered w;
     received := received w |}.

Definition with_force_idr (b : bool) (w : worker) : worker :=
  {| sys := sys w; encoder := encoder w; stats := stats w; next_due := next_due w; guard := guard w;
     force_idr := b; ctx := ctx w; encoded_at := encoded_at w; offered := offered w;
     received := received w |}.

Definition with_ctx (c : WorkerContext (C := C) (I := SourceInfo)) (o : list (EncodedFrame * SendOutcome))
    (got : list EncodedFrame) (w : worker) : worker :=
  {| sys := sys w; encoder := encoder w; stats := stats w; next_due := next_due w; guard := guard w;
     force_idr := force_idr w; ctx := c; encoded_at := encoded_at w; offered := offered w ++ o;
     received := received w ++ got |}.

Definition err (what : string) (e : Error) : string := String.append what (String.append ": " (display e)).

(** [e.map_err(..)?] on a call of the system. *)
Definition checked {A} (what : string) (r : result Error A) : capturing A := alift (map_err (err what) r).

(** A method of the encoder, which is there. *)
Definition on_enc {A} (m : encoding A) : async worker Error A :=
  fun w =>
    match encoder w with
    | Some e => let '(r, (s, e)) := m (sys w, e) in (r, with_encoder (Some e) (with_sys s w))
    | None => (Crash, w)
    end.

(** What dropping the release guard does. *)
Definition drop_guard (w : worker) : worker :=
  if guard w then with_guard false (with_sys (log ReleaseFrame (sys w)) w) else w.

(** The rest of a turn, behind the guard: it is dropped however the turn ends. *)
Definition guarded {A} (m : capturing A) : capturing A :=
  fun w => let '(r, w) := m w in (r, drop_guard w).

Inductive flow := Continue | Return.

(** *** Pacing *)

Definition ahead (due : option Z) (now : Z) : bool :=
  match due with Some due => now + ms 1 <? due | None => false end.

Definition due_after (due : option Z) (now min_interval : Z) : Z :=
  match due with
  | Some due => if now <? due + min_interval then due + min_interval else now + min_interval
  | None => now + min_interval
  end.

Definition let_through (now min_interval : Z) (w : worker) : worker :=
  {| sys := sys w; encoder := encoder w; stats := count 0 1 0 0 (stats w);
     next_due := Some (due_after (next_due w) now min_interval); guard := guard w;
     force_idr := force_idr w; ctx := ctx w; encoded_at := encoded_at w ++ [now]; offered := offered w;
     received := received w |}.

(** *** A turn *)

(** The loop over the frames of one [encode_frame]. *)
Fixpoint offer (fs : list EncodedFrame) : capturing flow :=
  match fs with
  | [] => aret Continue
  | f :: fs =>
      w ← aget;
      let '(r, s) := send f (frames (ctx w)) in
      let c := {| frames := s; stop := stop (ctx w); ready := ready (ctx w); reported := reported (ctx w) |} in
      _ ← update (with_ctx c [(f, r)] []);
      match r with Sent | Dropped => offer fs | Closed => aret Return end
  end.

(** What is fixed for a run: the settings, the display's refresh interval, the
    rate that follows from it, and the origin of the output. *)
Record setup := {
  config : DesktopH264Config;
  refresh : Z;
  s_fps : Z;
  origin : Z * Z;
}.

(** The encoder is there and the source is ready. *)
Definition set_encoder (p : setup) (size : Z * Z) (e : Encoder) (w : worker) : worker :=
  with_ctx (report_ready {| si_width := size.1; si_height := size.2; fps := s_fps p;
                            origin_x := (origin p).1; origin_y := (origin p).2 |} (ctx w)).2 [] []
    (with_encoder (Some e) w).

(** The converter and the encoder are made for the first image. *)
Definition ensure_encoder (p : setup) (t : texture) : capturing unit :=
  w ← aget;
  match encoder w with
  | Some _ => aret tt
  | None =>
      _ ← checked "VideoConverter" (converter_new t);
      e ← checked "Encoder" (encoder_new (encoder_created t) (s_fps p) (config p));
      update (set_encoder p (desc t) e)
  end.

Definition take_request : capturing unit :=
  w ← aget;
  if force_idr w then
    _ ← update (with_force_idr false);
    amap_err (err "encode") (on_enc force_next_idr)
  else aret tt.

Definition encode_and_offer (capture_ts : Z) : capturing flow :=
  fs ← amap_err (err "encode") (on_enc (encode_frame capture_ts));
  offer fs.

(** What becomes of an image that is let through. *)
Definition encode_image (p : setup) (capture_ts : Z) (resource : option texture) : capturing flow :=
  t ← aoutcome (match resource with Some t => Done t | None => Panicked end);
  _ ← checked "frame texture cast" (cast t);
  _ ← ensure_encoder p t;
  _ ← checked "BGRA->NV12" (convert t);
  _ ← update drop_guard;
  _ ← take_request;
  encode_and_offer capture_ts.

(** A frame acquired at [now], behind its guard. *)
Definition on_acquired (p : setup) (now last_present_time : Z) (resource : option texture) : capturing flow :=
  let capture_ts := clock now in
  _ ← update (with_stats (count 1 0 0 0));
  if last_present_time =? 0 then
    _ ← update (with_stats (count 0 0 1 0));
    aret Continue
  else
    w ← aget;
    if ahead (next_due w) now then
      _ ← update (with_stats (count 0 0 0 1));
      aret Continue
    else
      _ ← update (let_through now (refresh p));
      encode_image p capture_ts resource.

Definition consume1 (w : worker) : worker :=
  let '(r, c) := try_recv (tx (frames (ctx w))) in
  with_ctx {| frames := {| tx := c; dropped := dropped (frames (ctx w)) |}; stop := stop (ctx w);
              ready := ready (ctx w); reported := reported (ctx w) |} [] (opt_list r) w.

Definition close_channel (w : worker) : worker :=
  with_ctx {| frames := {| tx := close (tx (frames (ctx w))); dropped := dropped (frames (ctx w)) |};
              stop := stop (ctx w); ready := ready (ctx w); reported := reported (ctx w) |} [] [] w.

(** What others do before a turn: the consumer takes frames, may close its
    channel, set the stop flag and ask for an IDR. *)
Definition meanwhile (t : turn) (w : worker) : worker :=
  let w := Nat.iter (taken t) consume1 w in
  let w := if closed t then close_channel w else w in
  let w := if idr_requested t then with_force_idr true w else w in
  with_ctx {| frames := frames (ctx w); stop := stop (ctx w) || stopped t; ready := ready (ctx w);
              reported := reported (ctx w) |} [] [] w.

Definition pass_time (d : Z) (s : system) : system :=
  {| now := now s + d; polls := polls s; endless := endless s; samples := samples s; inputs := inputs s; outputs := outputs s;
     sequence_headers := sequence_headers s; drains := drains s; calls := calls s |}.

Definition capture_turn (p : setup) (t : turn) : capturing flow :=
  _ ← update (fun w => with_sys (pass_time (waited t) (sys w)) w);
  match acquire t with
  | WaitTimeout => aret Continue
  | AccessLost e => athrow (err "AcquireNextFrame (access lost; display mode change/lock screen?)" e)
  | AcquireFailed e => athrow (err "AcquireNextFrame" e)
  | AcquiredFrame last_present_time resource =>
      _ ← update (fun w => with_guard true (with_sys (log AcquireNextFrame (sys w)) w));
      w ← aget;
      guarded (on_acquired p (now (sys w)) last_present_time resource)
  end.

(** The loop; it waits where the turns end. *)
Fixpoint capture_loop (p : setup) (turns : list turn) : capturing unit :=
  match turns with
  | [] => fun w => (Pending, w)
  | t :: turns =>
      _ ← update (meanwhile t);
      w ← aget;
      if stop (ctx w) then aret tt
      else
        f ← capture_turn p t;
        match f with Continue => capture_loop p turns | Return => aret tt end
  end.

(** *** The worker *)

(** [as_secs_f64] and the rate. *)
Definition fps_of (refresh : Z) : Z :=
  let as_secs_f64 := fadd (f64_of (refresh / secs 1)) (fdiv (f64_of (refresh mod secs 1)) (f64_of (secs 1))) in
  as_u32 (fmax (round (fdiv (f64_of 1) as_secs_f64)) (f64_of 1)).

(** What the calls before the loop lead to. *)
Record devices := {
  d3d11 : result Error unit;
  multithread : result Error unit;
  device_manager : result Error unit;
  duplication : result Error unit;
  desktop_rect : result Error (Z * Z);
  refresh_interval : Z;
}.

Definition prepare (config : DesktopH264Config) (d : devices) : capturing setup :=
  _ ← checked "D3D11CreateDevice" (d3d11 d);
  _ ← checked "ID3D11Multithread" (multithread d);
  _ ← checked "device manager" (device_manager d);
  _ ← checked "DuplicateOutput" (duplication d);
  let origin := match desktop_rect d with Ok o => o | Err _ => (0, 0) end in
  aret {| config := config; refresh := refresh_interval d; s_fps := fps_of (refresh_interval d); origin := origin |}.

(** The encoder's [finish], at the end or in its drop; a second call does
    nothing. *)
Definition finish_encoder (w : worker) : poll Error unit * worker :=
  match encoder w with
  | Some _ => on_enc finish w
  | None => (Ready (Ok tt), w)
  end.

Definition run_worker (config : DesktopH264Config) (d : devices) (turns : list turn) : capturing unit :=
  fun w =>
    let '(r, w) := (p ← prepare config d; capture_loop p turns) w in
    match r with
    | Pending => (Pending, w)
    | _ => let '(f, w) := finish_encoder w in (match f with Pending => Pending | _ => r end, w)
    end.

(** [worker_main]: the result, and whether Media Foundation has been shut down
    and COM uninitialized, [None] where the worker is still at it. *)
Definition worker_main (config : DesktopH264Config) (com_ok : bool) (mf_startup : result Error unit)
    (d : devices) (turns : list turn) (w : worker) : poll string unit * option (bool * bool) * worker :=
  match mf_startup with
  | Err e => (Ready (Err (err "MFStartup" e)), Some (false, com_ok), w)
  | Ok _ =>
      let '(r, w) := run_worker config d turns w in
      (r, match r with Ready _ => Some (true, com_ok) | _ => None end, w)
  end.

Definition initial (s : system) : worker :=
  {| sys := s; encoder := None; stats := no_stats; next_due := None; guard := false; force_idr := false;
     ctx := {| frames := new (channel DEFAULT_CHANNEL_CAPACITY); stop := false; ready := true; reported := [] |};
     encoded_at := []; offered := []; received := [] |}.

(** ** Readings of the log *)

Definition taken_ins (cs : list call) : list Z :=
  flat_map (fun c => match c with ProcessInput ts _ _ true => [ts] | _ => [] end) cs.

Definition taken_outs (cs : list call) : list Z :=
  flat_map (fun c => match c with OutputTaken ts => [ts] | _ => [] end) cs.

Definition requests (cs : list call) : Z :=
  Z.of_nat (length (List.filter (fun c => match c with InputRequested => true | _ => false end) cs)).

Definition attempts (cs : list call) : Z :=
  Z.of_nat (length (List.filter (fun c => match c with ProcessInput _ _ _ _ => true | _ => false end) cs)).

(** The transform puts nothing out before it was put in: never more outputs than
    inputs. *)
Definition causal (cs : list call) : Prop :=
  forall before after, cs = before ++ after -> (length (taken_outs before) <= length (taken_ins before))%nat.

(** Decided with the number of inputs whose output is due. *)
Fixpoint causalb (owed : nat) (cs : list call) : bool :=
  match cs with
  | [] => true
  | ProcessInput _ _ _ true :: cs => causalb (S owed) cs
  | OutputTaken _ :: cs => match owed with O => false | S owed => causalb owed cs end
  | _ :: cs => causalb owed cs
  end.

(** Frames are acquired and released in turn, and the encoder is only called in
    between; [held] says whether there is one. *)
Fixpoint in_turn (held : bool) (cs : list call) : option bool :=
  match cs with
  | [] => Some held
  | AcquireNextFrame :: cs => if held then None else in_turn true cs
  | ReleaseFrame :: cs => if held then in_turn false cs else None
  | _ :: cs => if held then None else in_turn held cs
  end.

(** What the encoder does: it acquires and releases nothing. *)
Definition quiet (c : call) : bool := match c with AcquireNextFrame | ReleaseFrame => false | _ => true end.

(** The capture times of some frames. *)
Definition stamps (fs : list EncodedFrame) : list Z := map ef_capture_ts fs.

(** * Lemmas *)

(** A poll logs the request that it brings. *)
Lemma get_event_calls deadline s :
  let '(e, s') := get_event deadline s in calls s' = calls s ++ request_of e.
Proof.
  unfold get_event. destruct (polls s) as [|p ps]; [|done]. destruct (endless s) as [[after e]|]; [done|].
  cbn. by rewrite app_nil_r.
Qed.

(** ** What every method of the encoder keeps *)

Section methods.
Context (I : system * Encoder -> Prop).
Hypothesis keeps_poll : forall deadline, preserves I (poll_event deadline).
Hypothesis keeps_on_encoder : forall f, (forall e, pending_capture_ts (f e) = pending_capture_ts e) ->
  preserves I (on_encoder f).
Hypothesis keeps_force : preserves I force_next_idr.
Hypothesis keeps_sample : preserves I (on_system create_sample).
Hypothesis keeps_feed : forall ts pts d, preserves I (feed_input ts pts d).
Hypothesis keeps_output : preserves I (on_system (fun s => let '(r, s) := process_output s in (Ok r, s))).
Hypothesis keeps_match : forall ts, preserves I (match_output ts).
Hypothesis keeps_header : preserves I (on_system (fun s => let '(h, s) := read_sequence_header s in (Ok h, s))).
Hypothesis keeps_drain : preserves I (on_system command_drain).
#[local] Hint Resolve keeps_poll keeps_force keeps_sample keeps_feed keeps_output keeps_match keeps_header
  keeps_drain : preserves.
#[local] Hint Extern 1 (preserves I (on_encoder _)) => (apply keeps_on_encoder; done) : preserves.
Set Default Proof Using "Type*".

Lemma keeps_wait_loop fuel start timeout : preserves I (wait_loop fuel start timeout).
Proof. induction fuel as [|fuel IH]; cbn [wait_loop]; [by intros s|preserve; exact IH]. Qed.

Lemma keeps_wait timeout : preserves I (wait_for_event timeout).
Proof. apply preserves_bind; [apply preserves_get|]. intros s. apply keeps_wait_loop. Qed.

Lemma keeps_take clk : preserves I (take_one_output clk).
Proof. unfold take_one_output. preserve. Qed.
#[local] Hint Resolve keeps_wait keeps_take : preserves.

Lemma keeps_feed_loop fuel pts d ts out : preserves I (feed_loop fuel pts d ts out).
Proof. revert out. induction fuel as [|fuel IH]; intros out; cbn [feed_loop]; [by intros s|preserve; apply IH]. Qed.

Lemma keeps_collect_loop fuel deadline out : preserves I (collect_loop fuel deadline out).
Proof. revert out. induction fuel as [|fuel IH]; intros out; cbn [collect_loop]; [by intros s|preserve; apply IH]. Qed.

Lemma keeps_encode_frame ts : preserves I (encode_frame ts).
Proof.
  unfold encode_frame. preserve; [apply keeps_feed_loop|apply keeps_collect_loop].
Qed.

Lemma keeps_drain_loop fuel deadline : preserves I (drain_loop fuel deadline).
Proof. induction fuel as [|fuel IH]; cbn [drain_loop]; [by intros s|preserve; exact IH]. Qed.

Lemma keeps_finish : preserves I finish.
Proof. unfold finish. preserve. apply keeps_drain_loop. Qed.
End methods.

(** ** The log of the encoder *)

Lemma taken_ins_app a b : taken_ins (a ++ b) = taken_ins a ++ taken_ins b.
Proof. apply flat_map_app. Qed.

Lemma taken_outs_app a b : taken_outs (a ++ b) = taken_outs a ++ taken_outs b.
Proof. apply flat_map_app. Qed.

Lemma causal_prefix a b : causal (a ++ b) -> causal a.
Proof. intros H before after ->. apply (H before (after ++ b)). by rewrite app_assoc. Qed.

Lemma causalb_spec cs : causalb 0 cs = true -> causal cs.
Proof.
  clear clock.
  assert (forall owed before after, causalb owed (before ++ after) = true ->
    (length (taken_outs before) <= owed + length (taken_ins before))%nat) as H.
  { intros owed before after. revert owed. induction before as [|c before IH]; intros owed Hb; [cbn; lia|].
    change (c :: before) with ([c] ++ before). rewrite taken_outs_app, taken_ins_app, !length_app.
    generalize dependent (length (taken_outs before)). intros n IH. generalize dependent (length (taken_ins before)).
    intros m IH. destruct c as [| | |ts pts d []|ts| |]; cbn in IH, Hb |- *; try (by apply IH).
    - specialize (IH _ Hb). lia.
    - destruct owed as [|owed]; [done|]. specialize (IH _ Hb). lia. }
  intros Hb before after ->. exact (H 0%nat before after Hb).
Qed.

(** The capture times that wait are those of the inputs without an output. *)
Definition matched (cs : list call) (pending : list Z) : Prop :=
  causal cs -> taken_outs cs ++ pending = taken_ins cs.

(** Calls that take and give nothing. *)
Definition plain (c : call) : bool :=
  match c with ProcessInput _ _ _ true | OutputTaken _ => false | _ => true end.

Lemma plain_outs cs : forallb plain cs = true -> taken_outs cs = [].
Proof.
  induction cs as [|[] cs IH]; cbn; try done. by destruct taken0.
Qed.

Lemma plain_ins cs : forallb plain cs = true -> taken_ins cs = [].
Proof.
  induction cs as [|[] cs IH]; cbn; try done. by destruct taken0.
Qed.

Lemma matched_plain cs more pending :
  forallb plain more = true -> matched cs pending -> matched (cs ++ more) pending.
Proof.
  intros Hp Hm Hc. rewrite taken_outs_app, taken_ins_app, (plain_outs more), (plain_ins more), !app_nil_r by done.
  apply Hm. by eapply causal_prefix.
Qed.

(** Since [base], the encoder has made no call but its own, and the capture times
    are matched in order. *)
Definition follows (base : list call) (s : system * Encoder) : Prop :=
  (exists l, calls s.1 = base ++ l /\ forallb quiet l = true) /\ matched (calls s.1) (pending_capture_ts s.2).

Lemma follows_more base more s s' :
  calls s'.1 = calls s.1 ++ more -> pending_capture_ts s'.2 = pending_capture_ts s.2 ->
  forallb quiet more = true -> forallb plain more = true -> follows base s -> follows base s'.
Proof.
  intros E Ep Hq Hp [(l & El & Hl) Hm]. split.
  - exists (l ++ more). rewrite E, El, app_assoc. split; [done|]. by rewrite forallb_app, Hl, Hq.
  - rewrite E, Ep. by apply matched_plain.
Qed.

Lemma follows_same base s s' :
  calls s'.1 = calls s.1 -> pending_capture_ts s'.2 = pending_capture_ts s.2 -> follows base s -> follows base s'.
Proof. intros E Ep. apply (follows_more base []); by rewrite ?app_nil_r. Qed.

Lemma follows_poll base deadline : preserves (follows base) (poll_event deadline).
Proof.
  intros [sy e] Hs. unfold poll_event, on_system. cbn [fst snd].
  pose proof (get_event_calls deadline sy) as Hc. destruct (get_event deadline sy) as [ev sy'].
  refine (follows_more base (request_of ev) (sy, e) (sy', e) _ _ _ _ Hs); try done; by destruct ev as [[[]|]|].
Qed.

Lemma follows_feed base ts pts d : preserves (follows base) (feed_input ts pts d).
Proof.
  intros [sy e] Hs. unfold feed_input, on_system, on_encoder, process_input, mbind, async_bind, abind. cbn [fst snd].
  destruct (next_result (Ok tt) (inputs sy)) as [[[]|err] rs]; cbn [snd is_ok].
  - destruct Hs as [(l & El & Hl) Hm]. split; cbn [fst snd log with_calls calls fed pending_capture_ts] in *.
    + exists (l ++ [ProcessInput ts pts d true]). rewrite El, app_assoc. by rewrite forallb_app, Hl.
    + intros Hc. rewrite taken_outs_app, taken_ins_app, <- (Hm (causal_prefix _ _ Hc)). cbn.
      by rewrite app_nil_r, app_assoc.
  - by refine (follows_more base [ProcessInput ts pts d false] (sy, e) _ _ _ _ _ Hs).
Qed.

Lemma follows_match base done_ts : preserves (follows base) (match_output done_ts).
Proof using Error clock display error_new.
  intros [sy e] [(l & El & Hl) Hm]. unfold match_output. cbn [fst snd] in *.
  set (ts := match pending_capture_ts e with ts :: _ => ts | [] => done_ts end).
  split; cbn [fst snd log with_calls calls took_output pending_capture_ts].
  - exists (l ++ [OutputTaken ts]). rewrite El, app_assoc. by rewrite forallb_app, Hl.
  - intros Hc. specialize (Hm (causal_prefix _ _ Hc)).
    pose proof (Hc (calls sy ++ [OutputTaken ts]) [] ltac:(by rewrite app_nil_r)) as Hlen.
    rewrite taken_outs_app, taken_ins_app in Hlen |- *. cbn in *. rewrite app_nil_r in *.
    rewrite <- Hm in Hlen |- *. rewrite !length_app in Hlen. cbn in Hlen.
    unfold ts. destruct (pending_capture_ts e) as [|t rest]; [cbn in Hlen; lia|]. by rewrite <- app_assoc.
Qed.

Ltac plain_system := intros [sy e] Hs; apply (follows_same _ (sy, e)); [..|exact Hs];
  unfold on_system, create_sample, process_output, read_sequence_header; cbn;
  repeat match goal with |- context [next_result ?d ?l] => destruct (next_result d l) as [[] ?] end; done.

Lemma follows_sample base : preserves (follows base) (on_system create_sample).
Proof. plain_system. Qed.

Lemma follows_output base :
  preserves (follows base) (on_system (fun s => let '(r, s) := process_output s in (Ok r, s))).
Proof. plain_system. Qed.

Lemma follows_header base :
  preserves (follows base) (on_system (fun s => let '(h, s) := read_sequence_header s in (Ok h, s))).
Proof. plain_system. Qed.

Lemma follows_drain base : preserves (follows base) (on_system command_drain).
Proof.
  intros [sy e] Hs. unfold on_system, command_drain. cbn [fst snd].
  destruct (next_result (Ok tt) (drains sy)) as [r rs]. cbn [snd].
  by refine (follows_more base [CommandDrain] (sy, e) _ _ _ _ _ Hs).
Qed.

Lemma follows_force base : preserves (follows base) force_next_idr.
Proof.
  intros [sy e] Hs. unfold force_next_idr. cbn [fst snd]. destruct (codec_api e); cbn [snd]; [|done].
  by refine (follows_more base [ForceKeyFrame] (sy, e) _ _ _ _ _ Hs).
Qed.

Lemma follows_on_encoder base f :
  (forall e, pending_capture_ts (f e) = pending_capture_ts e) -> preserves (follows base) (on_encoder f).
Proof. intros Hf [sy e] Hs. by refine (follows_same base (sy, e) _ _ _ Hs); cbn. Qed.

#[local] Hint Resolve follows_poll follows_on_encoder follows_force follows_sample follows_feed follows_output
  follows_match follows_header follows_drain : preserves.

Lemma follows_encode base ts : preserves (follows base) (encode_frame ts).
Proof. apply keeps_encode_frame; auto with preserves. Qed.

Lemma follows_finish base : preserves (follows base) finish.
Proof using Error clock display error_new. apply keeps_finish; auto with preserves. Qed.

(** ** The frames of a call *)

(** What is taken out since [base] covers these capture times, in order. *)
Definition covers (base : list call) (st : list Z) (s : system * Encoder) : Prop :=
  exists l, calls s.1 = base ++ l /\ st `sublist_of` taken_outs l.

Lemma covers_more base st more s s' : calls s'.1 = calls s.1 ++ more -> covers base st s -> covers base st s'.
Proof.
  intros E (l & El & Hl). exists (l ++ more). rewrite E, El, app_assoc, taken_outs_app.
  split; [done|]. by apply sublist_inserts_r.
Qed.

Lemma covers_same base st s s' : calls s'.1 = calls s.1 -> covers base st s -> covers base st s'.
Proof. intros E. apply (covers_more base st []). by rewrite app_nil_r. Qed.

Lemma covers_poll base st deadline : preserves (covers base st) (poll_event deadline).
Proof.
  intros [sy e] Hs. unfold poll_event, on_system. cbn [fst snd].
  pose proof (get_event_calls deadline sy) as Hc. destruct (get_event deadline sy) as [ev sy'].
  by refine (covers_more base st (request_of ev) (sy, e) (sy', e) _ Hs).
Qed.

Lemma covers_on_encoder base st f : preserves (covers base st) (on_encoder f).
Proof. intros [sy e] Hs. by refine (covers_same base st (sy, e) _ _ Hs). Qed.

Lemma covers_force base st : preserves (covers base st) force_next_idr.
Proof.
  intros [sy e] Hs. unfold force_next_idr. cbn [fst snd]. destruct (codec_api e); cbn [snd]; [|done].
  by refine (covers_more base st [ForceKeyFrame] (sy, e) _ _ Hs).
Qed.

Lemma covers_feed base st ts pts d : preserves (covers base st) (feed_input ts pts d).
Proof.
  intros [sy e] Hs. unfold feed_input, on_system, on_encoder, process_input, mbind, async_bind, abind. cbn [fst snd].
  destruct (next_result (Ok tt) (inputs sy)) as [r rs].
  destruct r as [[]|err]; cbn [snd is_ok]; by refine (covers_more base st [_] (sy, e) _ _ Hs).
Qed.

Lemma covers_match base st done_ts : preserves (covers base st) (match_output done_ts).
Proof. intros [sy e] Hs. by refine (covers_more base st [_] (sy, e) _ _ Hs). Qed.

(** Calls that leave the log alone. *)
Lemma covers_on_system {A} base st (f : system -> result Error A * system) :
  (forall s, calls (f s).2 = calls s) -> preserves (covers base st) (on_system f).
Proof.
  intros Hf [sy e] Hs. unfold on_system. cbn [fst snd]. specialize (Hf sy). destruct (f sy) as [r sy'].
  by refine (covers_same base st (sy, e) _ _ Hs).
Qed.

Lemma covers_sample base st : preserves (covers base st) (on_system create_sample).
Proof. apply covers_on_system. intros sy. unfold create_sample. by destruct (next_result _ (samples sy)). Qed.

Lemma covers_output base st :
  preserves (covers base st) (on_system (fun s => let '(r, s) := process_output s in (Ok r, s))).
Proof.
  apply covers_on_system. intros sy. unfold process_output. by destruct (next_result _ (outputs sy)).
Qed.

Lemma covers_header base st :
  preserves (covers base st) (on_system (fun s => let '(h, s) := read_sequence_header s in (Ok h, s))).
Proof.
  apply covers_on_system. intros sy. unfold read_sequence_header. by destruct (next_result _ (sequence_headers sy)).
Qed.

Lemma covers_drain base st : preserves (covers base st) (on_system command_drain).
Proof.
  intros [sy e] Hs. unfold on_system, command_drain. cbn [fst snd].
  destruct (next_result (Ok tt) (drains sy)) as [r rs]. by refine (covers_more base st [_] (sy, e) _ _ Hs).
Qed.
#[local] Hint Resolve covers_poll covers_on_encoder covers_force covers_sample covers_feed covers_output
  covers_match covers_header covers_drain : preserves.

Lemma covers_wait base st timeout : preserves (covers base st) (wait_for_event timeout).
Proof. apply keeps_wait; auto with preserves. Qed.
#[local] Hint Resolve covers_wait : preserves.

(** The frame an output becomes has the capture time it was matched with. *)
Lemma covers_take base out clk :
  triple (covers base (stamps out)) (take_one_output clk)
    (fun f => covers base (stamps (out ++ opt_list f))) any_error.
Proof.
  unfold take_one_output. eapply triple_bind; [eapply triple_any, preserves_triple, covers_output|].
  intros [|e| |bytes cp]; try (apply triple_ret; intros s; by rewrite app_nil_r); [by apply triple_throw|].
  eapply (triple_bind _ _ _ (fun s s' => s' = s /\ covers base (stamps out) s')); [by apply triple_get|].
  intros s0. cbv beta zeta.
  eapply (triple_bind _ _ _ (fun ts => covers base (stamps out ++ [ts]))).
  { intros s [-> (l & El & Hl)]. cbn. eexists (l ++ [_]). cbn [fst log with_calls calls].
    rewrite El, app_assoc. split; [done|]. rewrite taken_outs_app. by apply sublist_app. }
  intros ts.
  match goal with |- triple _ ?m _ _ => assert (forall s, match (m s).1 with
    | Ready (Ok (Some f)) => ef_capture_ts f = ts | Ready (Ok None) => False | _ => True end) as Hts end.
  { intros s. unfold mbind, async_bind, abind, alift. destruct bytes as [b|]; [|done]. cbn -[H264.observe].
    destruct (H264.observe b (parameter_sets s.2)) as [known c].
    destruct known; cbn; [done|]. unfold on_system. by destruct (read_sequence_header _) as [h sy']. }
  match goal with |- triple _ ?m _ _ => assert (preserves (covers base (stamps out ++ [ts])) m) as Hp by preserve end.
  intros s Hs. specialize (Hts s). specialize (Hp s Hs).
  match goal with |- match ?r with _ => _ end => destruct r as [[[[f|]|e]| | |] s'] end; try done.
  cbn [opt_list] in *. unfold stamps. rewrite map_app. cbn [map fst snd] in *. by rewrite Hts.
Qed.

Lemma covers_feed_loop base fuel pts d ts out :
  triple (covers base (stamps out)) (feed_loop fuel pts d ts out) (fun fs => covers base (stamps fs)) any_error.
Proof.
  revert out. induction fuel as [|fuel IH]; intros out; cbn [feed_loop]; [by intros s|].
  apply triple_bind_keep; [apply preserves_get|]. intros s0.
  apply triple_bind_keep; [preserve|]. intros []; [| |apply IH].
  - apply triple_bind_keep; [preserve|]. intros _. apply triple_bind_keep; [preserve|]. intros _. by apply triple_ret.
  - eapply triple_bind; [apply covers_take|]. intros f. apply IH.
Qed.

Lemma covers_collect_loop base fuel deadline out :
  triple (covers base (stamps out)) (collect_loop fuel deadline out) (fun fs => covers base (stamps fs)) any_error.
Proof.
  revert out. induction fuel as [|fuel IH]; intros out; cbn [collect_loop]; [by intros s|].
  apply triple_bind_keep; [preserve|]. intros [e|].
  - apply triple_bind_keep; [preserve|]. intros []; [| |apply IH].
    + apply triple_bind_keep; [preserve|]. intros _. apply IH.
    + eapply triple_bind; [apply covers_take|]. intros f. apply IH.
  - apply triple_bind_keep; [preserve|]. intros s0.
    destruct ((input_count s0.2 <=? output_count s0.2) || (deadline <=? now s0.1)); [by apply triple_ret|apply IH].
Qed.

(** The frames of [encode_frame] are outputs taken since it was called. *)
Lemma covers_encode_frame base ts :
  triple (fun s => calls s.1 = base) (encode_frame ts) (fun fs => covers base (stamps fs)) any_error.
Proof.
  assert (forall s, calls s.1 = base -> covers base (stamps []) s) as H0.
  { intros s Hs. exists []. by rewrite app_nil_r. }
  eapply triple_pre; [|exact H0].
  unfold encode_frame. apply triple_bind_keep; [preserve|]. intros s0. cbv zeta.
  do 2 (apply triple_bind_keep; [preserve|]; intros _).
  eapply triple_bind; [apply covers_feed_loop|]. intros out.
  apply triple_bind_keep; [preserve|]. intros s1. apply covers_collect_loop.
Qed.

(** ** The transform's permissions *)

Lemma requests_app a b : requests (a ++ b) = requests a + requests b.
Proof. unfold requests. rewrite List.filter_app, length_app. lia. Qed.

Lemma attempts_app a b : attempts (a ++ b) = attempts a + attempts b.
Proof. unfold attempts. rewrite List.filter_app, length_app. lia. Qed.

(** Of the inputs the transform has asked for, those not yet given are banked,
    apart from [k]. *)
Definition balanced (k : Z) (s : system * Encoder) : Prop :=
  eqw 32 (requests (calls s.1)) (attempts (calls s.1) + need_input_credits s.2 + k).

Definition permits (e : media_event) : Z := match e with NeedInput => 1 | _ => 0 end.

Lemma balanced_poll k deadline :
  triple (balanced k) (poll_event deadline)
    (fun e => balanced (k + match e with Some (Ok e) => permits e | _ => 0 end)) any_error.
Proof using Error clock display error_new.
  intros [sy e] Hs. unfold poll_event, on_system, balanced in *. cbn [fst snd] in *.
  pose proof (get_event_calls deadline sy) as Hc. destruct (get_event deadline sy) as [ev sy']. cbn [fst snd].
  rewrite Hc, requests_app, attempts_app. destruct ev as [[[]|err]|]; cbn [request_of permits];
    cbn [requests attempts List.filter length]; rewrite Hs; apply eq_eqw; unfold requests, attempts; cbn; lia.
Qed.

Lemma balanced_wait k timeout :
  triple (balanced k) (wait_for_event timeout) (fun e => balanced (k + permits e)) any_error.
Proof using Error clock display error_new.
  unfold wait_for_event. apply triple_bind_keep; [apply preserves_get|]. intros s0.
  generalize (S (length (polls s0.1))). intros fuel. induction fuel as [|fuel IH]; cbn [wait_loop]; [by intros s|].
  eapply triple_bind; [apply balanced_poll|]. intros [[e|err]|]; cbn beta iota.
  - by apply triple_lift.
  - by apply triple_lift.
  - rewrite Z.add_0_r. apply triple_bind_keep; [apply preserves_get|]. intros s1.
    destruct (timeout <? now s1.1 - now s0.1); [by apply triple_throw|exact IH].
Qed.

Lemma balanced_take k clk : preserves (balanced k) (take_one_output clk).
Proof using Error clock display error_new.
  assert (forall c, preserves (balanced k) (on_encoder (with_sets c))) as H1 by (intros c [sy e] Hs; exact Hs).
  assert (forall ts, preserves (balanced k) (match_output ts)) as H2.
  { intros ts [sy e] Hs. unfold balanced, match_output in *. cbn [fst snd log with_calls calls took_output
      need_input_credits] in *. rewrite requests_app, attempts_app, Hs. apply eq_eqw. unfold requests, attempts. cbn. lia. }
  assert (preserves (balanced k) (on_system (fun s => let '(r, s) := process_output s in (Ok r, s)))) as H3.
  { intros [sy e] Hs. unfold on_system, process_output. cbn [fst snd]. by destruct (next_result _ (outputs sy)). }
  assert (preserves (balanced k) (on_system (fun s => let '(h, s) := read_sequence_header s in (Ok h, s)))) as H4.
  { intros [sy e] Hs. unfold on_system, read_sequence_header. cbn [fst snd].
    by destruct (next_result _ (sequence_headers sy)). }
  unfold take_one_output. preserve.
Qed.

Lemma balanced_feed ts pts d : triple (balanced 1) (feed_input ts pts d) (fun _ => balanced 0) any_error.
Proof using Error clock display error_new.
  intros [sy e] Hs. unfold feed_input, on_system, on_encoder, process_input, mbind, async_bind, abind. cbn [fst snd].
  destruct (next_result (Ok tt) (inputs sy)) as [[[]|err] rs]; [|done].
  unfold balanced in *. cbn [fst snd log with_calls calls fed need_input_credits is_ok] in *.
  rewrite requests_app, attempts_app, Hs. apply eq_eqw. unfold requests, attempts. cbn. lia.
Qed.

Lemma balanced_force k : preserves (balanced k) force_next_idr.
Proof using Error clock display error_new.
  intros [sy e] Hs. unfold force_next_idr. cbn [fst snd]. destruct (codec_api e); [|done].
  unfold balanced in *. cbn [fst snd log with_calls calls] in *. rewrite requests_app, attempts_app, Hs.
  apply eq_eqw. unfold requests, attempts. cbn. lia.
Qed.
#[local] Hint Resolve balanced_take balanced_force : preserves.

Lemma balanced_feed_loop fuel pts d ts out :
  triple (balanced 0) (feed_loop fuel pts d ts out) (fun _ => balanced 0) any_error.
Proof.
  revert out. induction fuel as [|fuel IH]; intros out; cbn [feed_loop]; [by intros s|].
  eapply (triple_bind _ _ _ (fun s s' => s' = s /\ balanced 0 s')); [by apply triple_get|]. intros s0.
  eapply (triple_bind _ _ _ (fun e => balanced (permits e))).
  { destruct (0 <? need_input_credits s0.2).
    - intros s [-> Hs]. unfold balanced, mbind, async_bind, abind, on_encoder, aret in *.
      cbn [fst snd with_credits need_input_credits permits]. rewrite Hs. apply eq_eqw. lia.
    - eapply triple_pre; [apply (balanced_wait 0)|]. by intros s [_ ?]. }
  intros []; cbn [permits].
  - apply triple_bind_keep; [preserve|]. intros _.
    eapply triple_bind; [apply balanced_feed|]. intros u. by apply triple_ret.
  - apply triple_bind_keep; [preserve|]. intros f. apply IH.
  - apply IH.
Qed.

Lemma balanced_collect_loop fuel deadline out :
  triple (balanced 0) (collect_loop fuel deadline out) (fun _ => balanced 0) any_error.
Proof.
  revert out. induction fuel as [|fuel IH]; intros out; cbn [collect_loop]; [by intros s|].
  eapply triple_bind; [apply balanced_poll|]. intros [[e|err]|]; cbn beta iota.
  - eapply (triple_bind _ _ _ (fun ev => balanced (permits ev))); [by apply triple_lift|]. intros []; cbn [permits].
    + eapply (triple_bind _ _ _ (fun _ => balanced 0)); [|intros u; apply IH].
      intros s Hs. unfold balanced in *. cbn [on_encoder fst snd with_credits need_input_credits].
      rewrite wrap_eqw, Hs. apply eq_eqw. lia.
    + apply triple_bind_keep; [preserve|]. intros f. apply IH.
    + apply IH.
  - by intros s Hs.
  - apply triple_bind_keep; [preserve|]. intros s0.
    destruct ((input_count s0.2 <=? output_count s0.2) || (deadline <=? now s0.1)); [by apply triple_ret|apply IH].
Qed.

Lemma balanced_encode_frame ts :
  triple (balanced 0) (encode_frame ts) (fun _ => balanced 0) any_error.
Proof.
  unfold encode_frame. apply triple_bind_keep; [apply preserves_get|]. intros s0. cbv zeta.
  apply triple_bind_keep; [by intros [sy e] Hs|]. intros _.
  apply triple_bind_keep.
  { intros [sy e] Hs. unfold on_system, create_sample. cbn [fst snd]. by destruct (next_result _ (samples sy)). }
  intros _. eapply triple_bind; [apply balanced_feed_loop|]. intros out.
  apply triple_bind_keep; [apply preserves_get|]. intros s1. apply balanced_collect_loop.
Qed.

(** ** Events without end *)

Lemma bind_fst {S E A B} (m : async S E A) (f g : A -> async S E B) s :
  (forall x s', m s = (Ready (Ok x), s') -> (f x s').1 = (g x s').1) -> ((m ≫= f) s).1 = ((m ≫= g) s).1.
Proof.
  intros H. unfold mbind, async_bind, abind. destruct (m s) as [[[x|e]| | |] s'] eqn:E0; try done. by apply H.
Qed.

(** Taking an output takes one off its script and leaves the events alone. *)
Lemma take_script clk s :
  let s' := (take_one_output clk s).2 in
  polls s'.1 = polls s.1 /\ endless s'.1 = endless s.1 /\ outputs s'.1 = tail (outputs s.1).
Proof.
  destruct s as [sy e]. unfold take_one_output, on_system, process_output, mbind, async_bind, abind. cbn [fst snd].
  destruct (outputs sy) as [|o os] eqn:Eo; cbn; [done|].
  destruct o as [|err| |bytes cp]; cbn; try done. destruct bytes as [b|err]; cbn; [|done].
  destruct (H264.has_sets _); cbn; [done|].
  unfold on_system, read_sequence_header. cbn. by destruct (next_result None (sequence_headers sy)).
Qed.

(** The events are all alike, and change nothing that a loop looks at. *)
Definition idle_event (e : media_event) (s : system * Encoder) : Prop :=
  polls s.1 = [] /\ (exists after, endless s.1 = Some (after, Ok e)) /\ (e = HaveOutput -> outputs s.1 = []).

Lemma idle_poll deadline e s :
  idle_event e s -> exists s', poll_event deadline s = (Ready (Ok (Some (Ok e))), s') /\ idle_event e s' /\
    need_input_credits s'.2 = need_input_credits s.2.
Proof.
  intros (Hp & [after He] & Ho). unfold poll_event, on_system, get_event. rewrite Hp, He.
  eexists. split; [done|]. split; [|done]. split; [done|]. split; [by exists after|exact Ho].
Qed.

Lemma idle_take clk s :
  idle_event HaveOutput s -> exists s', take_one_output clk s = (Ready (Ok None), s') /\ idle_event HaveOutput s' /\
    need_input_credits s'.2 = need_input_credits s.2.
Proof.
  intros (Hp & [after He] & Ho). specialize (Ho eq_refl). unfold take_one_output, on_system, process_output.
  unfold mbind, async_bind, abind. rewrite Ho. cbn.
  eexists. split; [done|]. split; [|done]. split; [done|]. split; [by exists after|done].
Qed.

(** The wait for the output has a deadline that it looks at only when there is no
    event: while events come, it goes on past it. *)
Lemma endless_output_events fuel deadline out e s :
  idle_event e s -> (collect_loop fuel deadline out s).1 = Pending.
Proof.
  revert out s. induction fuel as [|fuel IH]; intros out s Hs; [done|]. cbn [collect_loop].
  destruct (idle_poll deadline e s Hs) as (s1 & Hp & Hs1 & _). rewrite (abind_ready _ _ _ _ _ Hp).
  cbv beta iota. rewrite (abind_ready (E := Error) _ _ s1 e s1) by done. destruct e.
  - rewrite (abind_ready (E := Error) _ _ s1 tt (s1.1, with_credits (wrap 32 (need_input_credits s1.2 + 1)) s1.2)) by done.
    by apply IH.
  - destruct (idle_take clock s1 Hs1) as (s2 & Ht & Hs2 & _). rewrite (abind_ready _ _ _ _ _ Ht). by apply IH.
  - by apply IH.
Qed.

(** So does the wait for the permission to put a frame in. *)
Lemma endless_input_events fuel pts d ts out e s :
  idle_event e s -> e <> NeedInput -> need_input_credits s.2 <= 0 -> (feed_loop fuel pts d ts out s).1 = Pending.
Proof.
  revert out s. induction fuel as [|fuel IH]; intros out s Hs Hne Hc; [done|]. cbn [feed_loop].
  rewrite (abind_ready (E := Error) _ _ s s s) by done. rewrite (proj2 (Z.ltb_ge _ _) Hc).
  destruct (idle_poll (now s.1 + secs 5 + 1) e s Hs) as (s1 & Hp & Hs1 & Hc1).
  assert (wait_for_event (secs 5) s = (Ready (Ok e), s1)) as Hw.
  { unfold wait_for_event. rewrite (abind_ready (E := Error) _ _ s s s) by done. cbn [wait_loop].
    by rewrite (abind_ready _ _ _ _ _ Hp). }
  rewrite (abind_ready _ _ _ _ _ Hw). destruct e; [done| |apply IH; [done..|by rewrite Hc1]].
  destruct (idle_take clock s1 Hs1) as (s2 & Ht & Hs2 & Hc2). rewrite (abind_ready _ _ _ _ _ Ht).
  apply IH; [done..|]. by rewrite Hc2, Hc1.
Qed.

(** A poll takes an event off the script, or brings the one without end, or comes
    when its deadline has passed. *)
Lemma poll_progress deadline s polled s1 :
  poll_event deadline s = (Ready (Ok polled), s1) ->
  (turns_left s1.1 < turns_left s.1)%nat \/
  (turns_left s1.1 = turns_left s.1 /\
   match polled with
   | Some (Ok e) => idle_event e s \/ (e = HaveOutput /\ outputs s1.1 <> [])
   | Some (Err _) => True
   | None => deadline <= now s1.1
   end).
Proof using Error clock display error_new.
  unfold poll_event, on_system, get_event, turns_left, idle_event.
  destruct (polls s.1) as [|p ps] eqn:Ep; [destruct (endless s.1) as [[after [e|err]]|] eqn:Ee|];
    intros [= <- <-]; cbn [fst outputs polls now length]; [| | |left; lia]; right; (split; [done|]).
  - destruct (decide (e = HaveOutput)) as [-> |]; [|left; split; [done|]; split; [by exists after|done]].
    destruct (outputs s.1) eqn:Eo; [|by right]. left. split; [done|]. split; [by exists after|done].
  - done.
  - lia.
Qed.

Lemma take_progress clk s x s1 :
  take_one_output clk s = (Ready (Ok x), s1) ->
  (turns_left s1.1 <= turns_left s.1)%nat /\ (outputs s.1 <> [] -> (turns_left s1.1 < turns_left s.1)%nat).
Proof.
  intros Ht. pose proof (take_script clk s) as Hs. rewrite Ht in Hs. cbn in Hs. destruct Hs as (Hp & _ & Ho).
  unfold turns_left. rewrite Hp, Ho. destruct (outputs s.1); cbn; split; (done || lia).
Qed.

(** The turns that [encode_frame] gives its loops are enough: with more of them, they
    come to the same. *)
Lemma collect_loop_enough n m deadline out s :
  (turns_left s.1 < n)%nat -> (n <= m)%nat ->
  (collect_loop m deadline out s).1 = (collect_loop n deadline out s).1.
Proof.
  revert m out s. induction n as [|n IH]; intros m out s Hn Hm; [lia|]. destruct m as [|m]; [lia|].
  assert (forall e, idle_event e s ->
    (collect_loop (S m) deadline out s).1 = (collect_loop (S n) deadline out s).1) as Hidle.
  { intros e He. by rewrite !(endless_output_events _ _ _ e s). }
  destruct (poll_event deadline s) as [r s1] eqn:Ep.
  assert (exists polled, r = Ready (Ok polled)) as [polled ->].
  { unfold poll_event, on_system in Ep. destruct (get_event deadline s.1). injection Ep as <- _. by eexists. }
  pose proof (poll_progress _ _ _ _ Ep) as Hpr.
  destruct Hpr as [Hl|[Hl Hpr]]; [|destruct polled as [[e|err]|]; [destruct Hpr as [He|[-> Ho]]; [by apply (Hidle e)|]|..]];
    cbn [collect_loop]; rewrite !(abind_ready _ _ _ _ _ Ep); cbv beta iota.
  - destruct polled as [[e|err]|]; [|done|].
    + rewrite !(abind_ready (E := Error) _ _ s1 e s1) by done.
      destruct e; [..|apply IH; lia]; apply bind_fst; intros x s2 Hx; apply IH; try lia.
      * injection Hx as _ <-. cbn [fst]. unfold turns_left in *. lia.
      * apply take_progress in Hx. lia.
    + apply bind_fst. intros x s2 [= <- <-]. destruct (_ || _); [done|]. apply IH; lia.
  - rewrite !(abind_ready (E := Error) _ _ s1 HaveOutput s1) by done. apply bind_fst. intros x s2 Hx.
    apply take_progress in Hx as [_ Hx]. specialize (Hx Ho). apply IH; lia.
  - done.
  - apply bind_fst. intros x s2 [= <- <-]. by rewrite (proj2 (Z.leb_le _ _) Hpr), orb_true_r.
Qed.

Lemma wait_loop_progress fuel start timeout s e s1 :
  wait_loop fuel start timeout s = (Ready (Ok e), s1) ->
  (turns_left s1.1 < turns_left s.1)%nat \/
  (turns_left s1.1 = turns_left s.1 /\ (idle_event e s \/ (e = HaveOutput /\ outputs s1.1 <> []))).
Proof using Error clock display error_new.
  revert s. induction fuel as [|fuel IH]; intros s Hw; [done|]. cbn [wait_loop] in Hw.
  apply abind_inv in Hw as ([[e'|err]|] & s2 & Hp & Hw); [|done|]; pose proof (poll_progress _ _ _ _ Hp) as Hpr.
  - by injection Hw as <- <-.
  - apply abind_inv in Hw as (s3 & s4 & [= <- <-] & Hw). destruct (Z.ltb_spec timeout (now s2.1 - start)); [done|].
    destruct Hpr as [Hl|[_ Hd]]; [|lia]. destruct (IH _ Hw) as [|[]]; left; lia.
Qed.

Lemma wait_progress timeout s e s1 :
  wait_for_event timeout s = (Ready (Ok e), s1) ->
  (turns_left s1.1 < turns_left s.1)%nat \/
  (turns_left s1.1 = turns_left s.1 /\ (idle_event e s \/ (e = HaveOutput /\ outputs s1.1 <> []))).
Proof using Error clock display error_new.
  intros Hw. unfold wait_for_event in Hw. apply abind_inv in Hw as (s2 & s3 & [= <- <-] & Hw).
  by apply wait_loop_progress in Hw.
Qed.

Lemma feed_loop_enough n m pts d ts out s :
  (turns_left s.1 < n)%nat -> (n <= m)%nat ->
  (feed_loop m pts d ts out s).1 = (feed_loop n pts d ts out s).1.
Proof.
  revert m out s. induction n as [|n IH]; intros m out s Hn Hm; [lia|]. destruct m as [|m]; [lia|].
  destruct (Z.ltb_spec 0 (need_input_credits s.2)) as [Hp|Hp].
  - cbn [feed_loop]. rewrite !(abind_ready (E := Error) _ _ s s s) by done. rewrite (proj2 (Z.ltb_lt _ _) Hp).
    by apply bind_fst; intros e s1 [= <- <-].
  - destruct (wait_for_event (secs 5) s) as [r s1] eqn:Ew.
    assert (forall k, (feed_loop (S k) pts d ts out s).1
      = ((event_type ← wait_for_event (secs 5);
          match event_type with
          | NeedInput =>
              _ ← (if e_all_idr s.2 then force_next_idr else aret tt);
              _ ← feed_input ts pts d;
              aret out
          | HaveOutput =>
              frame ← take_one_output clock;
              feed_loop k pts d ts (out ++ opt_list frame)
          | OtherEvent => feed_loop k pts d ts out
          end) s).1) as Hf.
    { intros k. cbn [feed_loop]. rewrite (abind_ready (E := Error) _ _ s s s) by done.
      by rewrite (proj2 (Z.ltb_ge _ _) Hp). }
    destruct r as [[e|err]| | |];
      [|rewrite !Hf; unfold mbind, async_bind, abind; by rewrite Ew..].
    pose proof (Hf m) as Hfm. pose proof (Hf n) as Hfn. rewrite (abind_ready _ _ _ _ _ Ew) in Hfm.
    rewrite (abind_ready _ _ _ _ _ Ew) in Hfn.
    rewrite Hfm, Hfn.
    destruct (wait_progress _ _ _ _ Ew) as [Hl|[Hl [He|[-> Ho]]]].
    + destruct e; [done| |apply IH; lia]. apply bind_fst. intros x s2 Hx%take_progress. apply IH; lia.
    + destruct (decide (e = NeedInput)) as [-> |Hne]; [done|].
      rewrite (endless_input_events _ _ _ _ _ e s) in Hfm by done.
      rewrite (endless_input_events _ _ _ _ _ e s) in Hfn by done. congruence.
    + apply bind_fst. intros x s2 [_ Hx]%take_progress. specialize (Hx Ho). apply IH; lia.
Qed.

(** ** Every call of the encoder returns once events are over *)

(** How many polls the script has left, behind which nothing comes. *)
Definition polls_left (s : system * Encoder) : nat := length (polls s.1).
Definition silent (s : system * Encoder) : Prop := endless s.1 = None.
Definition at_most (n : nat) (s : system * Encoder) : Prop := silent s /\ (polls_left s <= n)%nat.
Definition fewer (n : nat) (s : system * Encoder) : Prop := silent s /\ (polls_left s < n)%nat.

Lemma fewer_at_most n s : fewer n s -> at_most n s.
Proof. intros [? ?]. split; [done|lia]. Qed.

Lemma fewer_pred n s : fewer n s -> exists m, (m < n)%nat /\ at_most m s.
Proof. intros [? ?]. exists (polls_left s). by split. Qed.

Lemma total_poll n deadline :
  total (at_most n) (poll_event deadline)
    (fun e s => match e with
                | Some _ => fewer n s
                | None => fewer n s \/ (silent s /\ polls_left s = 0%nat /\ deadline <= now s.1)
                end).
Proof using Error clock display error_new.
  intros [sy e] [Hs Hn]. unfold poll_event, on_system, get_event, fewer, silent, polls_left in *. cbn [fst] in *.
  rewrite Hs. destruct (polls sy) as [|p ps]; cbn [fst snd polls endless now length] in *.
  - right. split_and!; [done|done|lia].
  - destruct (event p); [|left]; split; (done || lia).
Qed.

Lemma total_wait_loop fuel start timeout n :
  (n < fuel)%nat -> total (at_most n) (wait_loop fuel start timeout) (fun _ => fewer n).
Proof using Error clock display error_new.
  revert n. induction fuel as [|fuel IH]; intros n Hn; [lia|]. cbn [wait_loop].
  eapply total_bind; [apply total_poll|]. intros [e|]; cbn beta iota.
  - by apply total_lift.
  - apply total_get. intros s Hs. destruct (Z.ltb_spec timeout (now s.1 - start)); [apply total_throw|].
    destruct Hs as [(m & Hm & Hs)%fewer_pred|(_ & _ & Hd)]; [|lia].
    eapply total_conseq; [apply (IH m); lia|by intros ? ->|]. intros _ s' [? ?]. split; [done|lia].
Qed.

Lemma total_wait n timeout : total (at_most n) (wait_for_event timeout) (fun _ => fewer n).
Proof using Error clock display error_new.
  unfold wait_for_event. apply total_get. intros s [Hs Hn].
  eapply total_conseq; [apply (total_wait_loop (S (length (polls s.1))) _ _ (polls_left s)); unfold polls_left; lia| |].
  - intros ? ->. by split.
  - intros _ s' [? ?]. split; [done|lia].
Qed.

(** Taking an output leaves the events alone. *)
Lemma take_keeps_events (J : system * Encoder -> Prop) clk :
  (forall sy e sy' e', polls sy' = polls sy -> endless sy' = endless sy -> J (sy, e) -> J (sy', e')) ->
  total J (take_one_output clk) (fun _ => J).
Proof.
  intros HJ. unfold take_one_output. eapply (total_bind _ _ _ (fun _ => J)).
  { intros [sy e] Hs. unfold on_system, process_output. cbn [fst].
    destruct (next_result _ (outputs sy)); cbn. by apply (HJ sy e). }
  intros [|e| |bytes cp]; [by apply total_ret|by apply total_throw|by apply total_ret|].
  apply total_get. intros s0 Hs0. cbv zeta.
  eapply (total_bind _ _ _ (fun _ => J)); [intros [sy e] <-; cbn; by apply (HJ sy e)|]. intros ts.
  eapply (total_bind _ _ _ (fun _ => J)); [by apply total_lift|]. intros b.
  apply total_get. intros s1 Hs1. destruct (H264.observe b (parameter_sets s1.2)) as [known c].
  eapply (total_bind _ _ _ (fun _ => J)); [intros [sy e] <-; cbn; by apply (HJ sy e)|]. intros [].
  eapply (total_bind _ _ _ (fun _ => J)); [|intros c'; by apply total_ret].
  destruct known; [by apply total_ret|].
  eapply (total_bind _ _ _ (fun _ => J)).
  { intros [sy e] Hs. unfold on_system, read_sequence_header. cbn [fst].
    destruct (next_result _ (sequence_headers sy)); cbn. by apply (HJ sy e). }
  intros h. eapply (total_bind _ _ _ (fun _ => J)); [intros [sy e] Hs; cbn; by apply (HJ sy e)|]. intros []. by apply total_ret.
Qed.

Lemma total_take_fewer n clk : total (fewer n) (take_one_output clk) (fun _ => fewer n).
Proof.
  apply take_keeps_events. intros sy e sy' e' Hp He [? ?]. unfold fewer, silent, polls_left in *. cbn [fst] in *.
  by rewrite Hp, He.
Qed.

(** A loop that goes on with fewer polls. *)
Lemma total_less {A} fuel n (m : encoding A) (Q : A -> system * Encoder -> Prop) :
  (n < S fuel)%nat -> (forall k, (k < fuel)%nat -> total (at_most k) m Q) -> total (fewer n) m Q.
Proof. intros Hn Hm s (k & Hk & Hs)%fewer_pred. apply (Hm k ltac:(lia) s Hs). Qed.

Lemma total_feed_loop fuel pts d ts out n :
  (n < fuel)%nat -> total (at_most n) (feed_loop fuel pts d ts out) (fun _ => silent).
Proof.
  revert n out. induction fuel as [|fuel IH]; intros n out Hn; [lia|]. cbn [feed_loop].
  apply total_get. intros s0 Hs0.
  eapply (total_bind _ _ _ (fun e s => (e = NeedInput /\ silent s) \/ fewer n s)).
  { destruct (0 <? need_input_credits s0.2).
    - intros s ->. left. split; [done|]. by destruct Hs0.
    - eapply total_conseq; [apply (total_wait n)|by intros ? ->|]. by right. }
  intros e. destruct (decide (e = NeedInput)) as [->|Hne].
  - apply (total_conseq silent _ _ (fun _ => silent)); [|by intros s [[_ ?]|[? _]]|done].
    eapply (total_bind _ _ _ (fun _ => silent)).
    { destruct (e_all_idr s0.2); [|by apply total_ret]. intros [sy e] Hs. unfold force_next_idr. cbn.
      by destruct (codec_api e). }
    intros _. eapply (total_bind _ _ _ (fun _ => silent)); [|intros _; by apply total_ret].
    intros [sy e] Hs. unfold feed_input, on_system, on_encoder, process_input, mbind, async_bind, abind. cbn [fst snd].
    by destruct (next_result _ (inputs sy)) as [[]].
  - apply (total_conseq (fewer n) _ _ (fun _ => silent)); [|by intros s [[? _]|?]|done].
    destruct e; [done| |by apply (total_less fuel); [|intros k Hk; apply IH]].
    eapply total_bind; [apply total_take_fewer|]. intros f. by apply (total_less fuel); [|intros k Hk; apply IH].
Qed.

Lemma total_collect_loop fuel deadline out n :
  (n < fuel)%nat -> total (at_most n) (collect_loop fuel deadline out) (fun _ => silent).
Proof.
  revert n out. induction fuel as [|fuel IH]; intros n out Hn; [lia|]. cbn [collect_loop].
  assert (forall out, total (fewer n) (collect_loop fuel deadline out) (fun _ => silent)) as Hnext
    by (intros out'; apply (total_less fuel); [done|intros k Hk; by apply IH]).
  eapply total_bind; [apply total_poll|]. intros [e|]; cbn beta iota.
  - eapply (total_bind _ _ _ (fun _ => fewer n)); [by apply total_lift|].
    intros []; [| |apply Hnext]; (eapply (total_bind _ _ _ (fun _ => fewer n)); [|intros f; apply Hnext]).
    + by intros s Hs.
    + apply total_take_fewer.
  - apply total_get. intros s Hs. assert (silent s) as Hsil by (destruct Hs as [[]|[]]; done).
    destruct (input_count s.2 <=? output_count s.2); cbn [orb]; [by apply total_ret; intros ? ->|].
    destruct (Z.leb_spec deadline (now s.1)); [by apply total_ret; intros ? ->|].
    destruct Hs as [Hs|(_ & _ & Hd)]; [|lia]. eapply total_conseq; [apply Hnext|by intros ? ->|done].
Qed.

Lemma total_encode_frame ts : total silent (encode_frame ts) (fun _ => silent).
Proof.
  unfold encode_frame. apply total_get. intros s0 Hs0. cbv zeta.
  eapply (total_bind _ _ _ (fun _ => at_most (polls_left s0))); [by intros s ->|]. intros _.
  eapply (total_bind _ _ _ (fun _ => at_most (polls_left s0))).
  { intros [sy e] Hs. unfold on_system, create_sample. cbn [fst].
    destruct (next_result (Ok tt) (samples sy)) as [[[]|err] rs]; done. }
  intros _. eapply total_bind; [apply (total_feed_loop _ _ _ _ _ (polls_left s0)); unfold turns_left, polls_left; lia|].
  intros out. apply total_get. intros s1 Hs1.
  eapply total_conseq; [apply (total_collect_loop _ _ _ (polls_left s1)); unfold turns_left, polls_left; lia| |done].
  by intros ? ->.
Qed.

Lemma total_drain_loop fuel deadline n :
  (n < fuel)%nat ->
  total (fun s => fewer n s \/ (silent s /\ n = 0%nat /\ deadline <= now s.1)) (drain_loop fuel deadline) (fun _ _ => True).
Proof using Error clock display error_new.
  revert n. induction fuel as [|fuel IH]; intros n Hn; [lia|]. cbn [drain_loop].
  apply total_get. intros s0 Hs0.
  destruct (output_count s0.2 <? input_count s0.2); cbn [andb]; [|by apply total_ret].
  destruct (Z.ltb_spec (now s0.1) deadline); [|by apply total_ret].
  destruct Hs0 as [Hs0|(_ & _ & Hs0)]; [|lia]. destruct (fewer_pred _ _ Hs0) as (m & Hm & Hs).
  eapply total_bind.
  { eapply total_conseq; [apply (total_poll m deadline)|by intros ? ->|done]. }
  intros [e|]; cbn beta iota.
  - eapply (total_bind _ _ _ (fun _ => fewer m)); [by apply total_lift|].
    intros e'. eapply (total_bind _ _ _ (fun _ => fewer m)).
    { destruct e'; [by apply total_ret|apply total_take_fewer|by apply total_ret]. }
    intros _. eapply total_conseq; [apply (IH m); lia|by left|done].
  - eapply total_conseq; [apply (IH m); lia| |done].
    intros s [Hf|(Hsil & Hz & Hd)]; [by left|]. destruct m as [|m]; [right|left; split]; by rewrite ?Hz; (done || lia).
Qed.

Lemma total_finish : total silent finish (fun _ _ => True).
Proof using Error clock display error_new.
  unfold finish. apply total_get. intros s0 Hs0. destruct (finished s0.2); [by apply total_ret|].
  eapply (total_bind _ _ _ (fun _ => silent)); [by intros s ->|]. intros _.
  eapply (total_bind _ _ _ (fun _ => silent)).
  { intros [sy e] Hs. unfold on_system, command_drain. cbn [fst]. by destruct (next_result _ (drains sy)) as [[]]. }
  intros _. apply total_get. intros s1 Hs1.
  eapply total_conseq; [apply (total_drain_loop _ _ (S (polls_left s1))); unfold turns_left, polls_left; lia| |done].
  intros s ->. left. split; [done|lia].
Qed.

(** ** The worker's invariant *)

Lemma in_turn_app held a b :
  in_turn held (a ++ b) = match in_turn held a with Some h => in_turn h b | None => None end.
Proof. revert held. induction a as [|[] a IH]; intros []; cbn; auto. Qed.

Lemma in_turn_quiet l : forallb quiet l = true -> in_turn false l = Some false.
Proof. induction l as [|[] l IH]; cbn; try done; auto. Qed.

Definition pending_of (w : worker) : list Z :=
  match encoder w with Some e => pending_capture_ts e | None => [] end.

Definition offered_stamps (w : worker) : list Z := stamps (map fst (offered w)).

(** The source is ready as soon as there is an encoder, and nothing is offered
    before. *)
Definition ready_ok (w : worker) : Prop :=
  match encoder w with
  | None => ready (ctx w) = true /\ reported (ctx w) = [] /\ offered w = []
  | Some _ => ready (ctx w) = false /\ exists info, reported (ctx w) = [Ok info]
  end.

(** The next frame is due later than one interval after each frame let through and
    after each of those since. *)
Definition paced (interval : Z) (w : worker) : Prop :=
  (forall i x, encoded_at w !! i = Some x ->
   exists due, next_due w = Some due /\
     x + (Z.of_nat (length (encoded_at w)) - 1 - Z.of_nat i) * interval < due) /\
  (forall i j x y, (i < j)%nat -> encoded_at w !! i = Some x -> encoded_at w !! j = Some y ->
   x + (Z.of_nat j - Z.of_nat i - 1) * interval - ms 1 < y).

Definition log_ok (w : worker) : Prop :=
  in_turn false (calls (sys w)) = Some (guard w) /\
  matched (calls (sys w)) (pending_of w) /\
  offered_stamps w `sublist_of` taken_outs (calls (sys w)).

Definition consumer_ok (w : worker) : Prop :=
  flow_ok DEFAULT_CHANNEL_CAPACITY
    {| sender := frames (ctx w); FrameSource.received := received w; outcomes := offered w |}.

Definition worker_ok (interval : Z) (w : worker) : Prop :=
  log_ok w /\ ready_ok w /\ consumer_ok w /\ paced interval w.

(** Between the turns no frame is held. *)
Definition idle_ok (interval : Z) (w : worker) : Prop := worker_ok interval w /\ guard w = false.

Context `{!BoundedChannelLaws C EncodedFrame}.

Lemma log_more w w' more :
  calls (sys w') = calls (sys w) ++ more -> pending_of w' = pending_of w -> offered w' = offered w ->
  forallb plain more = true -> in_turn (guard w) more = Some (guard w') -> log_ok w -> log_ok w'.
Proof.
  intros Ec Ep Eo Hpl Ht (Hb & Hm & Hs). unfold log_ok, offered_stamps. rewrite Ec, Ep, Eo, in_turn_app, Hb.
  split_and!; [done|by apply matched_plain|]. rewrite taken_outs_app. by apply sublist_inserts_r.
Qed.

Lemma log_same w w' :
  calls (sys w') = calls (sys w) -> pending_of w' = pending_of w -> offered w' = offered w ->
  guard w' = guard w -> log_ok w -> log_ok w'.
Proof. intros Ec Ep Eo Eg. apply (log_more w w' []); rewrite ?app_nil_r; cbn; congruence. Qed.

Lemma idle_guard interval w : idle_ok interval w -> in_turn false (calls (sys w)) = Some false.
Proof. intros [[(Hb & _) _] Hg]. by rewrite Hb, Hg. Qed.

(** Dropping the guard leaves no frame held. *)
Lemma drop_guard_ok interval w : worker_ok interval w -> idle_ok interval (drop_guard w).
Proof.
  unfold drop_guard. intros (Hl & Hr & Hc & Hp). destruct (guard w) eqn:Hg; [|by split_and!].
  split; [|done]. split_and!; [|done|done|done].
  apply (log_more w _ [ReleaseFrame]); try done. by rewrite Hg.
Qed.

(** A method of the encoder, between the turns. *)
Lemma on_enc_ok {A} interval (m : encoding A) :
  (forall base, preserves (follows base) m) -> preserves (idle_ok interval) (on_enc m).
Proof.
  intros Hm w Hw. unfold on_enc. destruct (encoder w) as [e|] eqn:Ee; [|done].
  pose proof (idle_guard _ _ Hw) as Hb. destruct Hw as [((_ & Hmt & Hs) & Hr & Hc & Hp) Hg].
  assert (follows (calls (sys w)) (sys w, e)) as Hf.
  { split; [by exists []; rewrite app_nil_r|]. unfold pending_of in Hmt. by rewrite Ee in Hmt. }
  specialize (Hm _ _ Hf). destruct (m (sys w, e)) as [r [sy e']]. cbn [snd] in Hm |- *.
  destruct Hm as [(l & El & Hl) Hm]. cbn [fst snd] in El, Hm.
  split; [|done]. split_and!; [|by unfold ready_ok in *; rewrite Ee in Hr|done|done].
  split_and!; cbn [with_encoder with_sys sys guard].
  - rewrite El, in_turn_app, Hb, Hg. by apply in_turn_quiet.
  - exact Hm.
  - rewrite El, taken_outs_app. by apply sublist_inserts_r.
Qed.

Lemma amap_err_snd {S E F A} (f : E -> F) (m : async S E A) s : (amap_err f m s).2 = (m s).2.
Proof. unfold amap_err. by destruct (m s) as [[] ?]. Qed.

Lemma consumer_send f w :
  consumer_ok w ->
  flow_ok DEFAULT_CHANNEL_CAPACITY
    {| sender := (send f (frames (ctx w))).2; FrameSource.received := received w;
       outcomes := offered w ++ [(f, (send f (frames (ctx w))).1)] |}.
Proof.
  intros H. pose proof (flow_ok_step _ _ (Produce f) H) as Hs. cbn [run_op sender] in Hs.
  by destruct (send f (frames (ctx w))).
Qed.

(** Frames taken out since are offered. *)
Lemma offer_ok interval fs w :
  idle_ok interval w -> is_Some (encoder w) ->
  (offered_stamps w ++ stamps fs) `sublist_of` taken_outs (calls (sys w)) ->
  idle_ok interval (offer fs w).2.
Proof.
  revert w. induction fs as [|f fs IH]; intros w Hw He Hs; [done|].
  assert (idle_ok interval (with_ctx {| frames := (send f (frames (ctx w))).2; stop := stop (ctx w);
    ready := ready (ctx w); reported := reported (ctx w) |} [(f, (send f (frames (ctx w))).1)] [] w)) as Hw'.
  { destruct Hw as [((Hb & Hm & _) & Hr & Hc & Hp) Hg]. split; [|done]. split_and!; [|  |  |done].
    - split_and!; [done|done|]. unfold offered_stamps. cbn [with_ctx offered sys]. rewrite map_app. unfold stamps in *.
      rewrite map_app. cbn. etrans; [|exact Hs]. unfold offered_stamps, stamps. cbn.
      apply sublist_app; [done|]. apply sublist_skip, sublist_nil_l.
    - destruct He as [e He]. unfold ready_ok in *. cbn [with_ctx encoder ctx ready reported]. by rewrite He in *.
    - unfold consumer_ok. cbn [with_ctx ctx frames received offered]. rewrite app_nil_r. by apply consumer_send. }
  cbn [offer]. unfold mbind, async_bind, abind, aget, update. cbn beta iota.
  destruct (send f (frames (ctx w))) as [r s] eqn:E. cbn [fst snd] in Hw'. cbn beta iota.
  destruct r; [apply IH|apply IH|exact Hw']; try exact Hw'; try exact He.
  all: unfold offered_stamps, stamps in *; cbn [with_ctx offered sys]; rewrite !map_app, <- app_assoc; exact Hs.
Qed.

Lemma encode_and_offer_ok interval ts : preserves (idle_ok interval) (encode_and_offer ts).
Proof.
  intros w Hw. unfold encode_and_offer.
  pose proof (on_enc_ok interval (encode_frame ts) (fun base => follows_encode base ts) w Hw) as Hk.
  unfold mbind, async_bind, abind, amap_err.
  destruct (on_enc (encode_frame ts) w) as [[[fs|e]| | |] w'] eqn:E; try exact Hk. cbn [map_err snd] in *.
  unfold on_enc in E. destruct (encoder w) as [e|] eqn:Ee; [|done].
  pose proof (covers_encode_frame (calls (sys w)) ts (sys w, e) eq_refl) as Hcov.
  destruct (encode_frame ts (sys w, e)) as [r [sy e']]. injection E as -> <-.
  destruct Hcov as (l & El & Hl). cbn [fst] in El.
  apply offer_ok; [exact Hk|by eexists|]. cbn [with_encoder with_sys sys]. unfold offered_stamps.
  cbn [with_encoder with_sys offered]. rewrite El, taken_outs_app.
  apply sublist_app; [|exact Hl]. apply Hw.
Qed.

Lemma take_request_ok interval : preserves (idle_ok interval) take_request.
Proof.
  intros w Hw. unfold take_request, mbind, async_bind, abind, aget, update. destruct (force_idr w); [|done].
  cbn beta iota. rewrite amap_err_snd.
  apply (on_enc_ok interval force_next_idr (fun base => follows_force base)). exact Hw.
Qed.

Lemma let_through_ok interval t w :
  0 < interval -> ahead (next_due w) t = false -> worker_ok interval w -> worker_ok interval (let_through t interval w).
Proof using BoundedChannel0 BoundedChannelLaws0 C Error clock display error_new.
  intros Hi Ha (Hl & Hr & Hc & Hd & Hp). split_and!; [done|done|done|].
  assert (forall i x, encoded_at w !! i = Some x ->
    x + (Z.of_nat (length (encoded_at w)) - Z.of_nat i) * interval < due_after (next_due w) t interval /\
    x + (Z.of_nat (length (encoded_at w)) - Z.of_nat i - 1) * interval - ms 1 < t) as Hold.
  { intros i x Hx. destruct (Hd i x Hx) as (due & E & Hlt). unfold due_after, ahead in *.
    rewrite E in *. apply Z.ltb_ge in Ha. destruct (Z.ltb_spec t (due + interval)); lia. }
  assert (t < due_after (next_due w) t interval) as Hnew.
  { unfold due_after. destruct (next_due w) as [due|]; [|lia]. destruct (Z.ltb_spec t (due + interval)); lia. }
  split; cbn [let_through encoded_at next_due].
  - intros i x. rewrite lookup_snoc_Some, length_app. cbn [length]. intros [[_ Hx]|[-> <-]].
    + eexists. split; [done|]. destruct (Hold i x Hx). lia.
    + eexists. split; [done|]. lia.
  - intros i j x y Hij. rewrite !lookup_snoc_Some. intros [[Hli Hx]|[-> <-]] [[Hlj Hy]|[-> <-]]; [by eauto| |lia|lia].
    destruct (Hold i x Hx). lia.
Qed.

Lemma checked_ok {A} (I : worker -> Prop) what (r : result Error A) : preserves I (checked what r).
Proof. apply preserves_lift. Qed.

Lemma ensure_encoder_ok interval p t : preserves (worker_ok interval) (ensure_encoder p t).
Proof.
  intros w Hw. unfold ensure_encoder, mbind, async_bind, abind, aget, checked, alift, update.
  destruct (encoder w) as [e|] eqn:Ee; [done|]. destruct (converter_new t) as [[]|err']; [|done]. cbn [map_err].
  unfold encoder_new. destruct (encoder_created t) as [api|err']; [|done]. cbn.
  destruct Hw as (Hl & Hr & Hc & Hp). unfold ready_ok in Hr. rewrite Ee in Hr. destruct Hr as (Hr & Hrep & Ho).
  unfold set_encoder, report_ready. rewrite Hr. cbn [snd]. split_and!; [| | |done].
  - apply (log_same w); try done; cbn; [|by rewrite app_nil_r]. unfold pending_of. cbn. by rewrite Ee.
  - split; [done|]. eexists. cbn. by rewrite Hrep.
  - unfold consumer_ok in *. cbn. by rewrite !app_nil_r.
Qed.

Lemma stats_ok interval f w : worker_ok interval w -> worker_ok interval (with_stats f w).
Proof. done. Qed.

Lemma idle_is_ok {A} interval (m : capturing A) w :
  preserves (idle_ok interval) m -> idle_ok interval w -> worker_ok interval (m w).2.
Proof. intros Hm Hw. by destruct (Hm w Hw). Qed.

Lemma encode_image_ok interval p ts resource : preserves (worker_ok interval) (encode_image p ts resource).
Proof.
  unfold encode_image. apply preserves_bind; [apply preserves_outcome|]. intros t.
  apply preserves_bind; [apply checked_ok|]. intros _. apply preserves_bind; [apply ensure_encoder_ok|]. intros _.
  apply preserves_bind; [apply checked_ok|]. intros _ w Hw%drop_guard_ok.
  change (worker_ok interval ((_ ← take_request; encode_and_offer ts) (drop_guard w)).2).
  apply idle_is_ok; [|done]. apply preserves_bind; [apply take_request_ok|]. intros _. apply encode_and_offer_ok.
Qed.

Lemma on_acquired_ok p t last_present_time resource :
  0 < refresh p -> preserves (worker_ok (refresh p)) (on_acquired p t last_present_time resource).
Proof.
  intros Hi. unfold on_acquired. apply preserves_bind; [by intros w Hw|]. intros _.
  destruct (last_present_time =? 0); [by intros w Hw|]. intros w Hw.
  unfold mbind at 1, async_bind, abind, aget. destruct (ahead (next_due w) t) eqn:Ha; [done|].
  change (worker_ok (refresh p) (encode_image p (clock t) resource (let_through t (refresh p) w)).2).
  by apply encode_image_ok, let_through_ok.
Qed.

Lemma acquired_ok interval w :
  idle_ok interval w -> worker_ok interval (with_guard true (with_sys (log AcquireNextFrame (sys w)) w)).
Proof.
  intros [(Hl & Hr & Hc & Hp) Hg]. split_and!; [|done|done|done].
  apply (log_more w _ [AcquireNextFrame]); try done. by rewrite Hg.
Qed.

Lemma pass_time_ok interval d w : idle_ok interval w -> idle_ok interval (with_sys (pass_time d (sys w)) w).
Proof. done. Qed.

Lemma capture_turn_ok p t : 0 < refresh p -> preserves (idle_ok (refresh p)) (capture_turn p t).
Proof.
  intros Hi. unfold capture_turn. apply preserves_bind; [intros w; apply pass_time_ok|]. intros _.
  destruct (acquire t) as [lpt res| | |]; [|apply preserves_ret|apply preserves_throw|apply preserves_throw].
  intros w Hw%acquired_ok. set (w1 := with_guard true _) in Hw.
  change (idle_ok (refresh p) (guarded (on_acquired p (now (sys w1)) lpt res) w1).2). unfold guarded.
  pose proof (on_acquired_ok p (now (sys w1)) lpt res Hi w1 Hw) as Ho.
  destruct (on_acquired p (now (sys w1)) lpt res w1) as [r w2]. by apply drop_guard_ok.
Qed.

(** What the consumer and the others do. *)
Lemma with_ctx_ok interval w c got :
  ready c = ready (ctx w) -> reported c = reported (ctx w) ->
  flow_ok DEFAULT_CHANNEL_CAPACITY
    {| sender := frames c; FrameSource.received := received w ++ got; outcomes := offered w |} ->
  idle_ok interval w -> idle_ok interval (with_ctx c [] got w).
Proof.
  intros Er Erep Hf [(Hl & Hr & Hc & Hp) Hg]. split; [|done]. split_and!; [| | |done].
  - apply (log_same w); try done. cbn. by rewrite app_nil_r.
  - unfold ready_ok in *. cbn [with_ctx ctx encoder offered]. by rewrite app_nil_r, Er, Erep.
  - unfold consumer_ok. cbn [with_ctx ctx received offered]. by rewrite app_nil_r.
Qed.

Lemma consume1_ok interval w : idle_ok interval w -> idle_ok interval (consume1 w).
Proof.
  intros Hw. pose proof (flow_ok_step _ _ Consume (proj1 (proj2 (proj2 (proj1 Hw))))) as Hs.
  cbn [run_op sender FrameSource.received outcomes] in Hs. unfold consume1.
  destruct (try_recv (tx (frames (ctx w)))) as [r c]. by apply with_ctx_ok.
Qed.

Lemma meanwhile_ok interval t w : idle_ok interval w -> idle_ok interval (meanwhile t w).
Proof.
  intros Hw. unfold meanwhile.
  assert (idle_ok interval (Nat.iter (taken t) consume1 w)) as H1.
  { induction (taken t) as [|n IH]; [done|]. by apply consume1_ok. }
  set (w1 := Nat.iter _ _ _) in *. clearbody w1.
  assert (idle_ok interval (if closed t then close_channel w1 else w1)) as H2.
  { destruct (closed t); [|done].
    pose proof (flow_ok_step _ _ CloseReceiver (proj1 (proj2 (proj2 (proj1 H1))))) as Hs.
    apply with_ctx_ok; [done|done| |done]. cbn [run_op sender FrameSource.received outcomes] in Hs.
    by rewrite app_nil_r. }
  set (w2 := if closed t then _ else _) in *. clearbody w2.
  assert (idle_ok interval (if idr_requested t then with_force_idr true w2 else w2)) as H3 by (by destruct (idr_requested t)).
  set (w3 := if idr_requested t then _ else _) in *. clearbody w3.
  apply with_ctx_ok; [done|done| |done]. rewrite app_nil_r. apply H3.
Qed.

Lemma capture_loop_ok p turns : 0 < refresh p -> preserves (idle_ok (refresh p)) (capture_loop p turns).
Proof.
  intros Hi. induction turns as [|t turns IH]; [by intros w Hw|]. cbn [capture_loop].
  apply preserves_bind; [intros w; apply meanwhile_ok|]. intros _.
  apply preserves_bind; [apply preserves_get|]. intros w0. destruct (stop (ctx w0)); [apply preserves_ret|].
  apply preserves_bind; [by apply capture_turn_ok|]. intros []; [exact IH|apply preserves_ret].
Qed.

Lemma finish_encoder_ok interval w : idle_ok interval w -> idle_ok interval (finish_encoder w).2.
Proof using BoundedChannel0 BoundedChannelLaws0 C Error clock display error_new.
  intros Hw. unfold finish_encoder. destruct (encoder w) as [e|]; [|done].
  by apply (on_enc_ok interval finish (fun base => follows_finish base)).
Qed.

Lemma initial_ok interval s : calls s = [] -> idle_ok interval (initial s).
Proof.
  intros Hs. split; [|done]. split_and!.
  - split_and!; cbn; rewrite Hs; [done| |done]. by intros _.
  - done.
  - exact (run_flow_ok DEFAULT_CHANNEL_CAPACITY []).
  - by split; intros i x.
Qed.

Lemma run_worker_ok config d turns s :
  calls s = [] -> 0 < refresh_interval d ->
  idle_ok (refresh_interval d) (run_worker config d turns (initial s)).2.
Proof.
  intros Hs Hi. unfold run_worker.
  assert (preserves (idle_ok (refresh_interval d)) (p ← prepare config d; capture_loop p turns)) as Hp.
  { intros w Hw. unfold prepare, checked, alift, mbind, async_bind, abind.
    destruct (d3d11 d) as [[]|]; [|done]. destruct (multithread d) as [[]|]; [|done].
    destruct (device_manager d) as [[]|]; [|done]. destruct (duplication d) as [[]|]; [|done]. cbn [map_err aret].
    by apply (capture_loop_ok {| config := config; refresh := refresh_interval d; s_fps := fps_of (refresh_interval d);
      origin := match desktop_rect d with Ok o => o | Err _ => (0, 0) end |}). }
  specialize (Hp _ (initial_ok _ _ Hs)). destruct ((p ← prepare config d; capture_loop p turns) (initial s)) as [r w].
  cbn [snd] in Hp. pose proof (finish_encoder_ok _ _ Hp) as Hf. destruct (finish_encoder w) as [f w']. by destruct r.
Qed.

(** ** The worker comes to an end *)

(** The transform has nothing to say behind its script, and stays so. *)
Definition over (w : worker) : Prop := endless (sys w) = None.
Definition armed {A} (_ : A) (w : worker) : Prop := is_Some (encoder w) /\ over w.

Lemma silent_poll deadline : preserves silent (poll_event deadline).
Proof.
  intros [sy e] Hs. unfold silent, poll_event, on_system, get_event in *. cbn [fst snd] in *. rewrite Hs.
  by destruct (polls sy).
Qed.

Lemma silent_force : preserves silent force_next_idr.
Proof. intros [sy e] Hs. unfold force_next_idr. cbn. by destruct (codec_api e). Qed.

Lemma silent_encode_frame ts : preserves silent (encode_frame ts).
Proof.
  apply keeps_encode_frame; try (intros; by intros [sy e]); [apply silent_poll|apply silent_force|..].
  - intros [sy e] Hs. unfold on_system, create_sample. cbn [fst]. by destruct (next_result _ (samples sy)).
  - intros ts' pts d [sy e] Hs. unfold feed_input, on_system, on_encoder, process_input, mbind, async_bind, abind.
    cbn [fst snd]. by destruct (next_result _ (inputs sy)) as [[]].
  - intros [sy e] Hs. unfold on_system, process_output. cbn [fst]. by destruct (next_result _ (outputs sy)).
  - intros [sy e] Hs. unfold on_system, read_sequence_header. cbn [fst].
    by destruct (next_result _ (sequence_headers sy)).
  - intros [sy e] Hs. unfold on_system, command_drain. cbn [fst]. by destruct (next_result _ (drains sy)).
Qed.

Lemma over_on_enc {A} (m : encoding A) : preserves silent m -> preserves over (on_enc m).
Proof.
  intros Hm w Hw. unfold on_enc. destruct (encoder w) as [e|]; [|done]. specialize (Hm (sys w, e) Hw).
  by destruct (m (sys w, e)) as [r [sy e']].
Qed.

Lemma over_drop_guard w : over w -> over (drop_guard w).
Proof. unfold drop_guard. by destruct (guard w). Qed.

Lemma over_guarded {A} (m : capturing A) : preserves over m -> preserves over (guarded m).
Proof. intros Hm w Hw. unfold guarded. specialize (Hm w Hw). destruct (m w). by apply over_drop_guard. Qed.

Lemma over_update f : (forall w, sys (f w) = sys w) -> preserves over (update f).
Proof. intros Hf w Hw. unfold update, over. cbn. by rewrite Hf. Qed.

Lemma over_offer fs : preserves over (offer fs).
Proof.
  induction fs as [|f fs IH]; cbn [offer]; [apply preserves_ret|]. apply preserves_bind; [apply preserves_get|].
  intros w. destruct (send f (frames (ctx w))) as [r sn]. apply preserves_bind; [by apply over_update|]. intros _.
  by destruct r; [| |apply preserves_ret].
Qed.

Lemma over_encode_image p ts resource : preserves over (encode_image p ts resource).
Proof.
  unfold encode_image, ensure_encoder, take_request, encode_and_offer, checked. preserve;
    try (by apply over_update); try (by apply over_on_enc, silent_force); try apply over_offer.
  - intros w. apply over_drop_guard.
  - apply over_on_enc, silent_encode_frame.
Qed.

Lemma over_capture_turn p t : preserves over (capture_turn p t).
Proof.
  unfold capture_turn. apply preserves_bind; [by intros w|]. intros _.
  destruct (acquire t) as [lpt res| | |]; [|apply preserves_ret|apply preserves_throw|apply preserves_throw].
  apply preserves_bind; [by intros w|]. intros _. apply preserves_bind; [apply preserves_get|]. intros w.
  apply over_guarded. unfold on_acquired. preserve; try (by apply over_update). apply over_encode_image.
Qed.

Lemma over_meanwhile t w : over w -> over (meanwhile t w).
Proof.
  intros Hw. unfold meanwhile, over in *. cbn [with_ctx sys].
  assert (forall n, sys (Nat.iter n consume1 w) = sys w) as Hn.
  { induction n as [|n IH]; [done|]. cbn [Nat.iter nat_rect]. unfold consume1 at 1. rewrite <- IH.
    by destruct (try_recv _). }
  by destruct (closed t), (idr_requested t); cbn; rewrite Hn.
Qed.

Lemma over_capture_loop p turns : preserves over (capture_loop p turns).
Proof.
  induction turns as [|t turns IH]; cbn [capture_loop]; [by intros w|]. apply preserves_bind.
  { intros w. apply over_meanwhile. }
  intros _. preserve; apply over_capture_turn.
Qed.

Lemma total_on_enc {A} (m : encoding A) :
  total silent m (fun _ => silent) -> total (armed tt) (on_enc m) armed.
Proof.
  intros Hm w [[e He] Hw]. unfold on_enc. rewrite He. specialize (Hm (sys w, e) Hw).
  by destruct (m (sys w, e)) as [[[x|err']| | |] [sy e']].
Qed.

Lemma total_offer fs : total over (offer fs) (fun _ => over).
Proof.
  induction fs as [|f fs IH]; cbn [offer]; [by apply total_ret|]. apply total_get. intros w Hw.
  destruct (send f (frames (ctx w))) as [r s].
  eapply (total_bind _ _ _ (fun _ => over)); [by intros w' ->|]. intros _. by destruct r; [| |apply total_ret].
Qed.

Lemma total_encode_image p ts resource :
  is_Some resource -> total over (encode_image p ts resource) (fun _ => over).
Proof.
  intros [t ->]. unfold encode_image. eapply (total_bind _ _ _ (fun x => over)); [by intros w|]. intros t'.
  eapply (total_bind _ _ _ (fun _ => over)); [by apply total_lift|]. intros _.
  eapply (total_bind _ _ _ armed).
  { unfold ensure_encoder. apply total_get. intros w Hw. destruct (encoder w) as [e|] eqn:Ee.
    - apply total_ret. intros ? ->. split; [by eexists|done].
    - eapply (total_bind _ _ _ (fun _ => over)); [apply total_lift; by intros ? ? ->|]. intros _.
      eapply (total_bind _ _ _ (fun _ => over)); [by apply total_lift|]. intros e w' Hw'. split; [by eexists|done]. }
  intros u. eapply (total_bind _ _ _ armed); [by apply total_lift|]. intros v.
  eapply (total_bind _ _ _ armed).
  { intros w [Hw Ho]. cbn. split; [|by apply over_drop_guard]. unfold drop_guard. by destruct (guard w). }
  intros x. eapply (total_bind _ _ _ armed).
  { unfold take_request. apply total_get. intros w Hw. destruct (force_idr w); [|by apply total_ret; intros ? ->].
    eapply (total_bind _ _ _ armed); [by intros ? ->|]. intros y. apply total_map_err.
    eapply total_conseq; [apply (total_on_enc force_next_idr)|done|done].
    intros [sy e] Hs. unfold force_next_idr. cbn. by destruct (codec_api e). }
  intros y. eapply (total_bind _ _ _ (fun _ => over)); [|intros fs; apply total_offer].
  eapply total_conseq; [apply total_map_err, (total_on_enc _ (total_encode_frame ts))|done|by intros ? ? []].
Qed.

(** [AcquireNextFrame] succeeds with a resource. *)
Definition has_resource (t : turn) : bool :=
  match acquire t with AcquiredFrame _ resource => bool_decide (is_Some resource) | _ => true end.

Lemma total_guarded {A} (m : capturing A) :
  total over m (fun _ => over) -> total over (guarded m) (fun _ => over).
Proof.
  intros Hm w Hw. unfold guarded. specialize (Hm w Hw). destruct (m w) as [[[x|e]| | |] w']; try done.
  by apply over_drop_guard.
Qed.

Lemma total_capture_turn p t :
  has_resource t = true -> total over (capture_turn p t) (fun _ => over).
Proof.
  unfold has_resource, capture_turn. intros Ht. eapply (total_bind _ _ _ (fun _ => over)); [by intros w|]. intros _.
  destruct (acquire t) as [lpt res| | |]; [|by apply total_ret|by apply total_throw|by apply total_throw].
  apply bool_decide_eq_true in Ht. eapply (total_bind _ _ _ (fun _ => over)); [by intros w|]. intros _.
  apply total_get. intros w Hw. eapply total_conseq; [apply total_guarded|by intros ? ->|done].
  unfold on_acquired. eapply (total_bind _ _ _ (fun _ => over)); [by intros w'|]. intros _.
  destruct (lpt =? 0); [by intros w'|]. apply total_get. intros w' Hw'.
  destruct (ahead (next_due w') (now (sys w))); [by intros w'' ->|].
  apply (total_conseq over _ _ (fun _ => over)); [|by intros ? ->|done].
  eapply (total_bind _ _ _ (fun _ => over)); [by intros w''|]. intros _. by apply total_encode_image.
Qed.

Lemma total_capture_loop p turns :
  forallb has_resource turns = true -> existsb stopped turns = true ->
  total over (capture_loop p turns) (fun _ => over).
Proof.
  induction turns as [|t turns IH]; cbn [forallb existsb capture_loop]; [done|].
  intros [Ht Hts]%andb_true_iff Hs.
  eapply (total_bind _ _ _ (fun _ w => over w /\ (stopped t = true -> stop (ctx w) = true))).
  { intros w Hw. split; [by apply over_meanwhile|]. intros Hst. cbn. by rewrite Hst, orb_true_r. }
  intros _. apply total_get. intros w [Ho Hw]. destruct (stop (ctx w)); [by apply total_ret; intros ? ->|].
  assert (existsb stopped turns = true) as Hs'.
  { destruct (stopped t); [by specialize (Hw eq_refl)|done]. }
  apply (total_conseq over _ _ (fun _ => over)); [|by intros ? ->|done].
  eapply (total_bind _ _ _ (fun _ => over)); [by apply total_capture_turn|]. intros []; [by apply IH|by apply total_ret].
Qed.

(** * Properties *)

(** C17: The rate the client was promised is kept.  However often the system hands out
    frames, and however the encoder and the consumer behave, between a frame that
    is encoded and a later one there is the refresh interval for each of those
    between them, less a millisecond; in particular no two intervals pass three
    frames. *)
Theorem capture_is_paced config d turns s i j x y :
  calls s = [] -> 0 < refresh_interval d ->
  let w := (run_worker config d turns (initial s)).2 in
  (i < j)%nat -> encoded_at w !! i = Some x -> encoded_at w !! j = Some y ->
  x + (Z.of_nat j - Z.of_nat i - 1) * refresh_interval d - ms 1 < y.
Proof.
  intros Hs Hi w. destruct (run_worker_ok config d turns s Hs Hi) as [(_ & _ & _ & _ & Hp) _].
  fold w in Hp. apply Hp.
Qed.

(** Every acquired frame is released before anything else happens.  On every path
    through the loop, errors, panics and early exits included, a frame is released
    before the next one is acquired and before the encoder is called, and none is
    held when the worker waits or has ended. *)
Theorem frames_are_released config d turns s :
  calls s = [] -> 0 < refresh_interval d ->
  in_turn false (calls (sys (run_worker config d turns (initial s)).2)) = Some false.
Proof. intros Hs Hi. eapply idle_guard. by apply run_worker_ok. Qed.

(** C34: A frame carries the time at which its image was captured.  As long as the
    transform puts nothing out before it was put in, the frames the consumer gets
    carry the capture times of the images the encoder was fed, in that order and
    none twice, however the transform delays and bunches its outputs; and nothing
    reaches the consumer before the source has reported its size. *)
Theorem frames_carry_capture_times config d turns s :
  calls s = [] -> 0 < refresh_interval d ->
  let w := (run_worker config d turns (initial s)).2 in
  (causal (calls (sys w)) -> stamps (received w) `sublist_of` taken_ins (calls (sys w))) /\
  (received w ≠ [] -> exists info, reported (ctx w) = [Ok info]).
Proof.
  intros Hs Hi w. destruct (run_worker_ok config d turns s Hs Hi) as [((_ & Hm & Ho) & Hr & (_ & (lost & Ha & _) & _) & _) _].
  fold w in Hm, Ho, Hr, Ha. cbn [FrameSource.received sender] in Ha.
  assert (received w `sublist_of` map fst (offered w)) as Hrec.
  { etrans; [apply sublist_inserts_r; reflexivity|]. rewrite <- Ha. unfold accepted. cbn [outcomes]. clear.
    induction (offered w) as [|q qs IH]; [done|]. cbn [List.filter map]. destruct (is_sent q); cbn [map]; by constructor. }
  split.
  - intros Hc. rewrite <- (Hm Hc). apply sublist_inserts_r. etrans; [|exact Ho].
    unfold offered_stamps, stamps. clear -Hrec. induction Hrec; cbn [map]; by constructor.
  - intros Hne. unfold ready_ok in Hr. destruct (encoder w); [by destruct Hr|].
    destruct Hr as (_ & _ & Hoff). rewrite Hoff in Hrec. by apply sublist_nil_r in Hrec.
Qed.

(** No permission of the transform is lost.  Over any sequence of frames, the
    transform is given input only when it has asked for it, and the requests that
    came while the worker was waiting for output are banked: there are as many
    requests as inputs given and banked ones. *)
Theorem input_permissions_kept tss s e :
  calls s = [] -> need_input_credits e = 0 ->
  triple (fun st => st = (s, e)) (afor (fun ts => _ ← encode_frame ts; aret tt) tss)
    (fun _ st => eqw 32 (requests (calls st.1)) (attempts (calls st.1) + need_input_credits st.2)) any_error.
Proof.
  intros Hs He. eapply triple_post.
  - eapply triple_pre; [|intros st ->; instantiate (1 := balanced 0)].
    + apply triple_for. intros ts _. eapply triple_bind; [apply balanced_encode_frame|]. intros fs. by apply triple_ret.
    + unfold balanced. cbn [fst snd]. by rewrite Hs, He.
  - intros u st Hb. unfold balanced in Hb. by rewrite Z.add_0_r in Hb.
Qed.

(** C19: The worker stops when told to, provided the transform falls silent.  If the
    events of the transform come to an end, and every frame that
    [AcquireNextFrame] hands out has its resource, then once the stop flag is set
    the worker comes to a result, whatever the system, the encoder and the
    consumer do until then: no wait for an event, for an output or for the drained
    frames goes on for ever, and nothing panics.  Without the first the waits for
    input and output need not end ([endless_output_events], [endless_input_events]):
    their deadlines are looked at only when there is no event.  Without the second
    the worker panics, as its [expect] says. *)
Theorem capture_stops config d turns w :
  endless (sys w) = None -> forallb has_resource turns = true -> existsb stopped turns = true ->
  exists r, (run_worker config d turns w).1 = Ready r.
Proof.
  intros Ho Hr Hs.
  assert (total over (p ← prepare config d; capture_loop p turns) (fun _ => over)) as Ht.
  { eapply (total_bind _ _ _ (fun _ => over)); [|intros p; by apply total_capture_loop].
    intros w' Hw'. unfold prepare, checked, alift, mbind, async_bind, abind.
    by destruct (d3d11 d) as [[]|], (multithread d) as [[]|], (device_manager d) as [[]|], (duplication d) as [[]|]. }
  assert (preserves over (p ← prepare config d; capture_loop p turns)) as Hk.
  { apply preserves_bind; [unfold prepare, checked; preserve|]. intros p. apply over_capture_loop. }
  unfold run_worker. specialize (Ht w Ho). specialize (Hk w Ho).
  destruct ((p ← prepare config d; capture_loop p turns) w) as [r w']. cbn [snd] in Hk.
  assert (forall r0 : poll string unit, (let '(f, w'') := finish_encoder w' in
    (match f with Pending => Pending | _ => r0 end, w'')).1 = r0) as Hf.
  { intros r0. unfold finish_encoder, on_enc. destruct (encoder w') as [e|]; [|done].
    pose proof (total_finish (sys w', e) Hk) as Hfin. by destruct (finish (sys w', e)) as [[[x|err']| | |] [sy e']]. }
  destruct r as [r| | |]; [|by destruct Ht..]. exists r. apply Hf.
Qed.
End capture.

(** ** Concrete runs *)

Module Examples.
#[local] Instance encoded_frames : BoundedChannel (queue EncodedFrame) EncodedFrame := queue_channel EncodedFrame.

(** The clock counts microseconds. *)
#[local] Notation run_worker := (run_worker (Error := string) (C := queue EncodedFrame) id id (fun t => t / 1000)).
#[local] Notation initial := (initial (Error := string) (C := queue EncodedFrame)).

Definition devices_60 : devices (Error := string) :=
  {| d3d11 := Ok tt; multithread := Ok tt; device_manager := Ok tt; duplication := Ok tt;
     desktop_rect := Ok (100, 0); refresh_interval := 16666667 |}.

Definition image : texture (Error := string) :=
  {| cast := Ok tt; desc := (64, 48); converter_new := Ok tt; encoder_created := Ok true; convert := Ok tt |}.

Definition frame_after (wait last_present_time : Z) : turn (Error := string) :=
  {| taken := 1; closed := false; stopped := false; waited := ms wait;
     acquire := AcquiredFrame last_present_time (Some image); idr_requested := false |}.

Definition stop_now : turn (Error := string) :=
  {| taken := 1; closed := false; stopped := true; waited := 0; acquire := WaitTimeout; idr_requested := false |}.

Definition polled (after : Z) (e : media_event) : event_poll (Error := string) :=
  {| elapsed := ms after; event := Some (Ok e) |}.

Definition nothing (after : Z) : event_poll (Error := string) := {| elapsed := ms after; event := None |}.

Definition key_frame : list Z := [0; 0; 1; 0x67; 9; 0; 0; 1; 0x68; 7; 0; 0; 1; 0x65; 3].
Definition delta_frame : list Z := [0; 0; 1; 0x41; 3].

(** The transform asks for input, puts a frame out after four milliseconds and asks
    again; the second output is late and comes with the third. *)
Definition transform : system (Error := string) :=
  {| now := 0;
     polls := [polled 0 NeedInput; nothing 2; polled 2 HaveOutput; polled 0 NeedInput; nothing 1;
               nothing 25; polled 1 NeedInput; polled 1 HaveOutput; polled 2 HaveOutput; nothing 1];
     endless := None; samples := []; inputs := [];
     outputs := [Sample (Ok key_frame) true; Sample (Ok delta_frame) false; Sample (Ok delta_frame) false];
     sequence_headers := []; drains := []; calls := [] |}.

(** A pointer-only frame, an image, one too early, and two more. *)
Definition session : list (turn (Error := string)) :=
  [frame_after 5 0; frame_after 5 1; frame_after 5 1; frame_after 20 1; frame_after 20 1; stop_now].

#[local] Notation ended := (run_worker default_config devices_60 session (initial transform)).

Example session_runs :
  ended.1 = Ready (Ok tt) /\ encoded_at ended.2 = [ms 10; ms 40; ms 85] /\
  stats ended.2 = {| st_acquired := 5; st_encoded := 3; pointer_only := 1; paced_out := 1 |} /\
  map (fun f => (ef_capture_ts f, ef_encode_done_ts f)) (map fst (offered ended.2))
  = [(10000, 14000); (40000, 87000); (85000, 89000)] /\
  reported (ctx ended.2) = [Ok {| si_width := 64; si_height := 48; fps := 60; origin_x := 100; origin_y := 0 |}].
Proof. by vm_compute. Qed.

Lemma capture_is_paced_witness :
  ms 10 + (Z.of_nat 2 - Z.of_nat 0 - 1) * 16666667 - ms 1 < ms 85.
Proof.
  pose proof (queue_channel_laws EncodedFrame) as L.
  exact (capture_is_paced id id (fun t => t / 1000) default_config devices_60 session transform 0 2 (ms 10) (ms 85)
    eq_refl ltac:(done) ltac:(lia) ltac:(by vm_compute) ltac:(by vm_compute)).
Defined.

Lemma frames_are_released_witness :
  calls transform = [] /\ in_turn false (calls (sys ended.2)) = Some false.
Proof.
  pose proof (queue_channel_laws EncodedFrame) as L. split; [done|].
  exact (frames_are_released id id (fun t => t / 1000) default_config devices_60 session transform eq_refl ltac:(done)).
Defined.

Lemma frames_carry_capture_times_witness :
  causal (calls (sys ended.2)) /\ stamps (received ended.2) `sublist_of` taken_ins (calls (sys ended.2)).
Proof.
  pose proof (queue_channel_laws EncodedFrame) as L.
  assert (causal (calls (sys ended.2))) as Hc by (apply causalb_spec; by vm_compute).
  split; [exact Hc|].
  exact (proj1 (frames_carry_capture_times id id (fun t => t / 1000) default_config devices_60 session transform
    eq_refl ltac:(done)) Hc).
Defined.

Definition fresh : Encoder :=
  {| codec_api := true; e_all_idr := true; e_fps := 60; parameter_sets := H264.new; pending_capture_ts := [];
     output_wait := ms 20; need_input_credits := 0; last_pts_100ns := None; input_count := 0; output_count := 0;
     finished := false |}.

Lemma input_permissions_kept_witness :
  exists st, afor (fun ts => _ ← encode_frame id (fun t => t / 1000) ts; aret tt) [10; 20; 30] (transform, fresh)
             = (Ready (Ok tt), st) /\
    eqw 32 (requests (calls st.1)) (attempts (calls st.1) + need_input_credits st.2).
Proof.
  eexists. split; [vm_compute; reflexivity|].
  refine (triple_ok _ _ _ _ (transform, fresh) tt _
    (input_permissions_kept id id (fun t => t / 1000) [10; 20; 30] transform fresh eq_refl eq_refl) eq_refl _).
  vm_compute. reflexivity.
Defined.

Lemma capture_stops_witness :
  forallb has_resource session = true /\
  exists r, (run_worker default_config devices_60 session (initial transform)).1 = Ready r.
Proof.
  assert (forallb has_resource session = true) as Hr by (by vm_compute).
  assert (existsb stopped session = true) as Hs by (by vm_compute).
  pose proof (queue_channel_laws EncodedFrame) as L.
  split; [exact Hr|].
  exact (capture_stops id id (fun t => t / 1000) default_config devices_60 session (initial transform) eq_refl Hr Hs).
Defined.

(** A transform that never asks for input ends the worker after five seconds. *)
Example silent_transform_is_given_up :
  let silent := {| now := 0; polls := []; endless := None; samples := []; inputs := []; outputs := []; sequence_headers := [];
                   drains := []; calls := [] |} in
  let w := run_worker default_config devices_60 [frame_after 5 1; stop_now] (initial silent) in
  w.1 = Ready (Err "encode: timed out waiting for MFT event"%string) /\ now (sys w.2) = ms 5 + secs 5 + 1.
Proof. by vm_compute. Qed.

(** A transform that asks for input, and then for more every millisecond without end:
    the wait for the first output never ends, although it is given up after 20 ms
    without an event, and the worker does not see the stop flag. *)
Example busy_transform_keeps_the_worker :
  let busy : system (Error := string) :=
    {| now := 0; polls := []; endless := Some (ms 1, Ok NeedInput); samples := []; inputs := []; outputs := [];
       sequence_headers := []; drains := []; calls := [] |} in
  (run_worker default_config devices_60 [frame_after 5 1; stop_now] (initial busy)).1 = Pending.
Proof. by vm_compute. Qed.

(** The wait for the drained frames ends in spite of such events, after two
    seconds. *)
Example busy_transform_is_finished :
  let busy : system (Error := string) :=
    {| now := 0; polls := []; endless := Some (ms 1, Ok OtherEvent); samples := []; inputs := []; outputs := [];
       sequence_headers := []; drains := []; calls := [] |} in
  let '(r, (s, _)) := finish (busy, fed 7 fresh) in r = Ready (Ok tt) /\ now s = secs 2.
Proof. by vm_compute. Qed.

(** Lost access to the output ends the worker with the reason. *)
Example access_lost :
  (run_worker default_config devices_60
    [{| taken := 0; closed := false; stopped := false; waited := 0; acquire := AccessLost "E"; idr_requested := false |}]
    (initial transform)).1
  = Ready (Err "AcquireNextFrame (access lost; display mode change/lock screen?): E"%string).
Proof. by vm_compute. Qed.

(** The consumer does not keep up: the fifth frame waiting is dropped after it has
    been encoded, an IDR that was asked for included, and later frames refer to
    it. *)
Example encoded_idr_is_dropped :
  let steady :=
    {| now := 0; polls := concat (repeat [polled 0 NeedInput; polled 1 HaveOutput; nothing 1] 6); endless := None; samples := [];
       inputs := []; outputs := map (fun b => Sample (Ok b) false)
         [key_frame; delta_frame; delta_frame; delta_frame; key_frame; delta_frame];
       sequence_headers := []; drains := []; calls := [] |} in
  let busy idr :=
    {| taken := 0; closed := false; stopped := false; waited := ms 20; acquire := AcquiredFrame 1 (Some image);
       idr_requested := idr |} in
  let ready_again := {| taken := 4; closed := false; stopped := false; waited := ms 20;
                        acquire := AcquiredFrame 1 (Some image); idr_requested := false |} in
  let w := (run_worker default_config devices_60
              [busy false; busy false; busy false; busy false; busy true; ready_again] (initial steady)).2 in
  map (fun p => (ef_is_idr p.1, p.2)) (offered w)
  = [(true, Sent); (false, Sent); (false, Sent); (false, Sent); (true, Dropped); (false, Sent)].
Proof. by vm_compute. Qed.
End Examples.
