(* ===== verification/RecordUpdate.v ===== *)
(** Assignment to one field of a record, [r <| field := x |>], for records whose
    fields are declared once with an instance of [Eta]. *)

From S2P Require Import Prelude.

(** A record rebuilt from its fields: [fun r => {| a := a r; b := b r |}]. *)
Class Eta (R : Type) := eta : R -> R.

Class Setter {R T : Type} (field : R -> T) := set : T -> R -> R.
Arguments set {R T} field {_} x r.

(** The rebuilt record, with one field replaced by a constant. *)
Ltac field_setter field :=
  lazymatch type of field with
  | ?R -> ?T =>
      let inst := constr:(_ : Eta R) in
      let rebuilt := eval hnf in inst in
      lazymatch eval pattern field in rebuilt with
      | ?rebuild _ => let f := eval cbv beta in (fun (x : T) => rebuild (fun _ => x)) in exact f
      end
  end.
#[export] Hint Extern 1 (Setter ?field) => field_setter field : typeclass_instances.

Declare Scope update_scope.
Delimit Scope update_scope with update.
Open Scope update_scope.
Notation "r <| field := x |>" := (set field x r)
  (at level 12, left associativity, format "r  <| field  :=  x |>") : update_scope.

(** An example. *)
Module Examples.
Record point := { px : Z; py : Z }.

#[export] Instance point_eta : Eta point := fun r => {| px := px r; py := py r |}.

Example sets_one_field p : p <| py := 3 |> = {| px := px p; py := 3 |}.
Proof. done. Qed.
End Examples.
