(* ===== verification/Decimal.v ===== *)
(** Unsigned numbers in decimal: what [str::parse] and the formatting of the
    standard library do with them, and that the one reads what the other writes. *)

From S2P Require Import Prelude.

(** * Definitions *)

(** The digits behind [acc], which stays below [2 ^ w]. *)
Fixpoint digits_val (w : Z) (cs : list Z) (acc : Z) : option Z :=
  match cs with
  | [] => Some acc
  | c :: cs =>
      if (48 <=? c) && (c <=? 57) then
        let acc := acc * 10 + (c - 48) in
        if acc <? 2 ^ w then digits_val w cs acc else None
      else None
  end.

(** [str::parse] for an unsigned integer of [w] bits: a plus sign is accepted, a
    number is at least one digit. *)
Definition parse_uint (w : Z) (cs : list Z) : option Z :=
  match cs with
  | [] => None
  | c :: cs' =>
      match cs' with
      | [] => if c =? 43 then None else digits_val w cs 0
      | _ => digits_val w (if c =? 43 then cs' else cs) 0
      end
  end.

(** The decimal digits of [n] in front of [cs]. *)
Fixpoint digits (fuel : nat) (n : Z) (cs : list Z) : list Z :=
  match fuel with
  | O => cs
  | S fuel => if n <? 10 then (48 + n) :: cs else digits fuel (n / 10) ((48 + n `mod` 10) :: cs)
  end.

(** Twenty digits are enough for 64 bits. *)
Definition show_uint (n : Z) : list Z := digits 20 n [].

(** * Lemmas *)

Lemma digits_val_digits w fuel n cs :
  0 <= n < 10 ^ Z.of_nat fuel -> n < 2 ^ w -> 0 < Z.of_nat fuel ->
  digits_val w (digits fuel n cs) 0 = digits_val w cs n.
Proof.
  revert n cs. induction fuel as [|fuel IH]; intros n cs Hn Hw Hf; [lia|]. cbn [digits].
  destruct (Z.ltb_spec n 10).
  - cbn [digits_val]. replace ((48 <=? 48 + n) && (48 + n <=? 57)) with true by (symmetry; zcases; cbn; lia).
    replace (0 * 10 + (48 + n - 48)) with n by lia. by destruct (Z.ltb_spec n (2 ^ w)); [|lia].
  - rewrite Nat2Z.inj_succ, Z.pow_succ_r in Hn by lia.
    assert (fuel ≠ O) as Hf0 by (intros ->; cbn in Hn; lia).
    assert (0 <= n / 10 < 10 ^ Z.of_nat fuel) by (split; [apply Z.div_pos; lia|apply Z.div_lt_upper_bound; lia]).
    assert (n / 10 <= n) by (apply Z.div_le_upper_bound; lia).
    rewrite IH by lia. cbn [digits_val]. pose proof (Z.mod_pos_bound n 10 ltac:(lia)).
    replace ((48 <=? 48 + n `mod` 10) && (48 + n `mod` 10 <=? 57)) with true by (symmetry; zcases; cbn; lia).
    replace (n / 10 * 10 + (48 + n `mod` 10 - 48)) with n by (rewrite (Z.div_mod n 10) at 1 by lia; lia).
    by destruct (Z.ltb_spec n (2 ^ w)); [|lia].
Qed.

Lemma digits_are_digits fuel n cs :
  0 <= n -> Forall (fun c => 48 <= c <= 57) cs -> Forall (fun c => 48 <= c <= 57) (digits fuel n cs).
Proof.
  revert n cs. induction fuel as [|fuel IH]; intros n cs Hn Hc; [done|]. cbn [digits].
  destruct (Z.ltb_spec n 10); [constructor; [lia|done]|].
  apply IH; [apply Z.div_pos; lia|]. pose proof (Z.mod_pos_bound n 10 ltac:(lia)). constructor; [lia|done].
Qed.

Lemma show_uint_digits n : 0 <= n -> Forall (fun c => 48 <= c <= 57) (show_uint n).
Proof. intros Hn. by apply digits_are_digits. Qed.

Lemma digits_bytes cs : Forall (fun c => 48 <= c <= 57) cs -> bytes_ok cs.
Proof. intros Hc. eapply Forall_impl; [exact Hc|]. intros c ?. cbn in *. widths. lia. Qed.

Lemma parse_show w n : 0 < w <= 64 -> in_width w n -> parse_uint w (show_uint n) = Some n.
Proof.
  intros Hw Hn. unfold in_width in Hn. pose proof (show_uint_digits n ltac:(lia)) as Hd.
  assert (2 ^ w <= 2 ^ 64) by (apply Z.pow_le_mono_r; lia).
  pose proof (digits_val_digits w 20 n [] ltac:(lia) ltac:(lia) ltac:(lia)) as Hv. fold (show_uint n) in Hv.
  destruct (show_uint n) as [|c cs] eqn:E.
  { exfalso. unfold show_uint in E. clear -E Hn.
    assert (forall fuel m cs, (cs ≠ [] \/ fuel ≠ O) -> digits fuel m cs ≠ []) as H0.
    { induction fuel as [|fuel IH]; intros m cs [Hc|Hc]; cbn [digits]; try done;
        (destruct (m <? 10); [done|]; apply IH; by left). }
    by apply (H0 20%nat n []); [right|]. }
  inversion Hd as [|? ? Hc Hcs]; subst. unfold parse_uint.
  destruct (Z.eqb_spec c 43); [lia|]. by destruct cs.
Qed.

Lemma digits_val_bound w cs acc n : 0 <= acc < 2 ^ w -> digits_val w cs acc = Some n -> in_width w n.
Proof.
  revert acc. induction cs as [|c cs IH]; intros acc Ha; cbn [digits_val]; [by intros [= <-]|].
  destruct (Z.leb_spec 48 c), (Z.leb_spec c 57); cbn [andb]; try done.
  destruct (Z.ltb_spec (acc * 10 + (c - 48)) (2 ^ w)); [|done]. apply IH. lia.
Qed.

Lemma parse_uint_bound w cs n : 0 <= w -> parse_uint w cs = Some n -> in_width w n.
Proof.
  intros Hw. assert (0 <= 0 < 2 ^ w) as H0 by (split; [lia|apply Z.pow_pos_nonneg; lia]).
  unfold parse_uint. destruct cs as [|c cs]; [done|].
  destruct cs as [|c' cs]; [destruct (c =? 43); [done|]|destruct (c =? 43)]; by apply digits_val_bound.
Qed.
