(* ===== verification/CommandLine.v ===== *)
(** The command lines of both programs: the model of [parse_args] in
    [src/sardp-cli/src/bin/sardp-client.rs] and [sardp-server.rs], of
    [parse_hex32] in [src/src/dev_identity.rs], and of the server's reader of
    admin commands.  What is printed is left out.  Socket addresses and floating
    point numbers are read by the standard library and only passed on; how they
    read is a parameter. *)

From S2P Require Import Prelude.
From S2P Require Import RecordUpdate.
From S2P Require Import Decimal.
From S2P Require Import Unicode.
From S2P Require Import Crypto.
From S2P Require SessionFile.
From S2P Require PermissionSm.
From S2P Require ClientVideo.

(** * Definitions *)

(** ** Strings *)

(** [str::split_once] at a byte. *)
Fixpoint split_once (sep : Z) (cs : list Z) : option (list Z * list Z) :=
  match cs with
  | [] => None
  | c :: cs =>
      if c =? sep then Some ([], cs)
      else '(a, b) ← split_once sep cs; Some (c :: a, b)
  end.

(** [parse_hex32]; the error's message is left out. *)
Definition parse_hex32 (s : string) : outcome (option (list Z)) :=
  if bool_decide (length (chars s) = 64%nat) then SessionFile.parse_pairs (chars s) else Done None.

(** ** Reading options *)

(** The program goes on, ends with an exit code, or panics. *)
Inductive run (A : Type) :=
| Going (x : A)
| Exited (code : Z)
| Crashed.
Arguments Going {A} x.
Arguments Exited {A} code.
Arguments Crashed {A}.

#[export] Instance run_ret : MRet run := fun A x => Going x.
#[export] Instance run_bind : MBind run :=
  fun A B f m => match m with Going x => f x | Exited c => Exited c | Crashed => Crashed end.

(** [expect]. *)
Definition expect {A} (o : option A) : run A := match o with Some x => Going x | None => Crashed end.

(** What an argument means: an option without a value, or one whose value is the
    next argument. *)
Inductive option_kind (A : Type) :=
| Flag (f : A -> run A)
| Valued (f : string -> A -> run A).
Arguments Flag {A} f.
Arguments Valued {A} f.

(** The [while let] over the arguments; a missing value panics. *)
Fixpoint parse_loop {A} (meaning : string -> option_kind A) (args : list string) (acc : A) : run A :=
  match args with
  | [] => Going acc
  | arg :: args =>
      match meaning arg with
      | Flag f => acc ← f acc; parse_loop meaning args acc
      | Valued f =>
          match args with
          | [] => Crashed
          | value :: args => acc ← f value acc; parse_loop meaning args acc
          end
      end
  end.

Definition DEV_SIGNING_KEY_SEED : list Z := replicate 32 0x5A.

Section programs.
Context `{Ed25519} {SocketAddr F64 : Type}.
Variables (parse_addr : string -> option SocketAddr) (parse_f64 : string -> option F64).
(** [cfg!(windows)] and [cfg!(desktop_capture)]. *)
Variables (windows desktop_capture : bool).

Definition dev_signing_key : SigningKey := signing_key_from_bytes DEV_SIGNING_KEY_SEED.
Definition dev_verifying_key : VerifyingKey := verifying_key dev_signing_key.

(** [parse_hex32(..).expect(..)]. *)
Definition hex32 (value : string) : run (list Z) :=
  match parse_hex32 value with Done o => expect o | Panicked => Crashed end.

(** ** The client *)

Record ClientArgs := {
  server : SocketAddr;
  trust_cert : string;
  tls_hostname : string;
  signing_key : SigningKey;
  user_id : string;
  device_id : string;
  client_name : string;
  target_latency_us : Z;
  session_file : option string;
  display : ClientVideo.DisplayMode;
  window_size : Z * Z;
  dump_frames : option string;
  input : bool;
  input_script : bool;
}.

(** The variables of the client's [parse_args]. *)
Record ClientVars := {
  v_server : option SocketAddr;
  v_trust_cert : option string;
  v_tls_hostname : string;
  v_signing_key : SigningKey;
  v_user_id : string;
  v_device_id : string;
  v_client_name : string;
  v_target_latency_us : Z;
  v_session_file : option string;
  v_display : ClientVideo.DisplayMode;
  v_window_size : Z * Z;
  v_dump_frames : option string;
  v_input : bool;
  v_input_script : bool;
}.

Definition client_vars : ClientVars :=
  {| v_server := None; v_trust_cert := None; v_tls_hostname := "localhost"; v_signing_key := dev_signing_key;
     v_user_id := "demo-user"; v_device_id := "demo-device"; v_client_name := "sardp-client";
     v_target_latency_us := 50000; v_session_file := None; v_display := ClientVideo.LogMode;
     v_window_size := (1280, 720); v_dump_frames := None; v_input := true; v_input_script := false |}.

#[local] Instance client_vars_eta : Eta ClientVars := fun v =>
  {| v_server := v_server v; v_trust_cert := v_trust_cert v; v_tls_hostname := v_tls_hostname v;
     v_signing_key := v_signing_key v; v_user_id := v_user_id v; v_device_id := v_device_id v;
     v_client_name := v_client_name v; v_target_latency_us := v_target_latency_us v;
     v_session_file := v_session_file v; v_display := v_display v; v_window_size := v_window_size v;
     v_dump_frames := v_dump_frames v; v_input := v_input v; v_input_script := v_input_script v |}.

(** [WxH], both positive. *)
Definition parse_window_size (value : string) : option (Z * Z) :=
  '(w, h) ← split_once 120 (chars value);
  w ← parse_uint 32 w;
  h ← parse_uint 32 h;
  if (0 <? w) && (0 <? h) then Some (w, h) else None.

Definition client_display (value : string) (v : ClientVars) : run ClientVars :=
  if String.eqb value "log" then Going (v <| v_display := ClientVideo.LogMode |>)
  else if String.eqb value "window" then
    if negb windows then Exited 2 else Going (v <| v_display := ClientVideo.WindowMode |>)
  else Exited 2.

Definition client_option (arg : string) : option_kind ClientVars :=
  if String.eqb arg "--server" then
    Valued (fun value v => a ← expect (parse_addr value); Going (v <| v_server := Some a |>))
  else if String.eqb arg "--trust-cert" then Valued (fun value v => Going (v <| v_trust_cert := Some value |>))
  else if String.eqb arg "--tls-hostname" then Valued (fun value v => Going (v <| v_tls_hostname := value |>))
  else if String.eqb arg "--signing-key-seed" then
    Valued (fun value v => seed ← hex32 value; Going (v <| v_signing_key := signing_key_from_bytes seed |>))
  else if String.eqb arg "--user-id" then Valued (fun value v => Going (v <| v_user_id := value |>))
  else if String.eqb arg "--device-id" then Valued (fun value v => Going (v <| v_device_id := value |>))
  else if String.eqb arg "--client-name" then Valued (fun value v => Going (v <| v_client_name := value |>))
  else if String.eqb arg "--target-latency-us" then
    Valued (fun value v => n ← expect (parse_uint 32 (chars value)); Going (v <| v_target_latency_us := n |>))
  else if String.eqb arg "--session-file" then Valued (fun value v => Going (v <| v_session_file := Some value |>))
  else if String.eqb arg "--display" then
    Valued client_display
  else if String.eqb arg "--window-size" then
    Valued (fun value v =>
      match parse_window_size value with
      | None => Exited 2
      | Some parsed => Going (v <| v_window_size := parsed |>)
      end)
  else if String.eqb arg "--dump-frames" then Valued (fun value v => Going (v <| v_dump_frames := Some value |>))
  else if String.eqb arg "--input-script" then Flag (fun v => Going (v <| v_input_script := true |>))
  else if String.eqb arg "--input" then
    Valued (fun value v =>
      if String.eqb value "on" then Going (v <| v_input := true |>)
      else if String.eqb value "off" then Going (v <| v_input := false |>)
      else Exited 2)
  else if String.eqb arg "--help" || String.eqb arg "-h" then Flag (fun _ => Exited 0)
  else Flag (fun _ => Exited 2).

(** What is done once the arguments are read. *)
Definition client_args (v : ClientVars) : run ClientArgs :=
  match v_server v, v_trust_cert v with
  | None, _ => Exited 2
  | _, None => Exited 2
  | Some server, Some trust_cert =>
      Going {| server := server; trust_cert := trust_cert; tls_hostname := v_tls_hostname v;
               signing_key := v_signing_key v; user_id := v_user_id v; device_id := v_device_id v;
               client_name := v_client_name v; target_latency_us := v_target_latency_us v;
               session_file := v_session_file v; display := v_display v; window_size := v_window_size v;
               dump_frames := v_dump_frames v; input := v_input v; input_script := v_input_script v |}
  end.

(** [parse_args], on the arguments behind the program's name. *)
Definition client_parse_args (args : list string) : run ClientArgs :=
  v ← parse_loop client_option args client_vars; client_args v.

(** ** The server *)

Inductive CaptureMode := Synthetic | Desktop.

Record ServerArgs := {
  bind : SocketAddr;
  cert : option string;
  key : option string;
  cert_out : string;
  trusted_pubkey : VerifyingKey;
  width : Z;
  height : Z;
  server_fps : F64;
  server_name : string;
  capture : CaptureMode;
  all_idr : bool;
  text_char_delay_ms : Z;
}.

#[local] Instance server_args_eta : Eta ServerArgs := fun a =>
  {| bind := bind a; cert := cert a; key := key a; cert_out := cert_out a; trusted_pubkey := trusted_pubkey a;
     width := width a; height := height a; server_fps := server_fps a; server_name := server_name a;
     capture := capture a; all_idr := all_idr a; text_char_delay_ms := text_char_delay_ms a |}.

(** [loopback] is [127.0.0.1:4433], and [four] is [4.0]. *)
Definition server_defaults (loopback : SocketAddr) (four : F64) : ServerArgs :=
  {| bind := loopback; cert := None; key := None; cert_out := "sardp-dev-cert.pem";
     trusted_pubkey := dev_verifying_key; width := 640; height := 360; server_fps := four;
     server_name := "sardp-server"; capture := Synthetic; all_idr := false; text_char_delay_ms := 50 |}.

Definition server_option (arg : string) : option_kind ServerArgs :=
  if String.eqb arg "--bind" then
    Valued (fun value a => x ← expect (parse_addr value); Going (a <| bind := x |>))
  else if String.eqb arg "--cert" then Valued (fun value a => Going (a <| cert := Some value |>))
  else if String.eqb arg "--key" then Valued (fun value a => Going (a <| key := Some value |>))
  else if String.eqb arg "--cert-out" then Valued (fun value a => Going (a <| cert_out := value |>))
  else if String.eqb arg "--trusted-pubkey" then
    Valued (fun value a =>
      bytes ← hex32 value;
      k ← expect (verifying_key_from_bytes bytes);
      Going (a <| trusted_pubkey := k |>))
  else if String.eqb arg "--width" then
    Valued (fun value a => n ← expect (parse_uint 32 (chars value)); Going (a <| width := n |>))
  else if String.eqb arg "--height" then
    Valued (fun value a => n ← expect (parse_uint 32 (chars value)); Going (a <| height := n |>))
  else if String.eqb arg "--fps" then
    Valued (fun value a => x ← expect (parse_f64 value); Going (a <| server_fps := x |>))
  else if String.eqb arg "--server-name" then Valued (fun value a => Going (a <| server_name := value |>))
  else if String.eqb arg "--capture" then
    Valued (fun value a =>
      if String.eqb value "synthetic" then Going (a <| capture := Synthetic |>)
      else if String.eqb value "desktop" then
        if negb desktop_capture then Exited 2 else Going (a <| capture := Desktop |>)
      else Exited 2)
  else if String.eqb arg "--all-idr" then Flag (fun a => Going (a <| all_idr := true |>))
  else if String.eqb arg "--text-char-delay-ms" then
    Valued (fun value a => n ← expect (parse_uint 64 (chars value)); Going (a <| text_char_delay_ms := n |>))
  else if String.eqb arg "--help" || String.eqb arg "-h" then Flag (fun _ => Exited 0)
  else Flag (fun _ => Exited 2).

Definition server_parse_args (loopback : SocketAddr) (four : F64) (args : list string) : run ServerArgs :=
  parse_loop server_option args (server_defaults loopback four).

(** The certificate the server presents: the files of the two options, or a
    generated one saved at [cert_out]; one option without the other panics. *)
Inductive certificate := FromFiles (cert key : string) | Generated (saved_at : string).

Definition choose_certificate (a : ServerArgs) : run certificate :=
  match cert a, key a with
  | Some cert_path, Some key_path => Going (FromFiles cert_path key_path)
  | None, None => Going (Generated (cert_out a))
  | _, _ => Crashed
  end.

(** A line of standard input, read by the admin command reader. *)
Definition admin_line (line : list Z) (queue : list PermissionSm.AdminCommand) : list PermissionSm.AdminCommand :=
  if bool_decide (trim line = []) then queue
  else match PermissionSm.parse_admin_command line with
       | Some command => queue ++ [command]
       | None => queue
       end.

(** The reader's loop: it returns at the end of the input, at an error ([None])
    or when the server shuts down. *)
Fixpoint admin_reader (lines : list (option (list Z))) (queue : list PermissionSm.AdminCommand) :
    list PermissionSm.AdminCommand :=
  match lines with
  | Some line :: lines => admin_reader lines (admin_line line queue)
  | _ => queue
  end.

(** ** Writing command lines *)

Definition optional (name : string) (value : option string) : list string :=
  match value with Some v => [name; v] | None => [] end.

(** Options that give these arguments. *)
Definition client_command_line (show_addr : SocketAddr -> string) (seed : list Z) (a : ClientArgs) : list string :=
  ["--server"; show_addr (server a); "--trust-cert"; trust_cert a; "--tls-hostname"; tls_hostname a;
   "--signing-key-seed"; string_of_bytes (SessionFile.hex_encode seed); "--user-id"; user_id a;
   "--device-id"; device_id a; "--client-name"; client_name a;
   "--target-latency-us"; string_of_bytes (show_uint (target_latency_us a))]%string
  ++ optional "--session-file" (session_file a)
  ++ ["--display"; match display a with ClientVideo.LogMode => "log" | ClientVideo.WindowMode => "window" end;
      "--window-size"; string_of_bytes (show_uint (window_size a).1 ++ 120 :: show_uint (window_size a).2)]%string
  ++ optional "--dump-frames" (dump_frames a)
  ++ ["--input"; if input a then "on" else "off"]%string
  ++ (if input_script a then ["--input-script"]%string else []).

(** * Lemmas *)

Lemma split_once_digits sep a b :
  Forall (fun c => c ≠ sep) a -> split_once sep (a ++ sep :: b) = Some (a, b).
Proof.
  induction 1 as [|c a Hc Ha IH]; cbn [app split_once]; [by rewrite Z.eqb_refl|].
  destruct (Z.eqb_spec c sep); [done|]. by rewrite IH.
Qed.

Lemma parse_window_show w h :
  0 < w < 2 ^ 32 -> 0 < h < 2 ^ 32 ->
  parse_window_size (string_of_bytes (show_uint w ++ 120 :: show_uint h)) = Some (w, h).
Proof.
  intros Hw Hh. pose proof (show_uint_digits w ltac:(lia)) as Dw. pose proof (show_uint_digits h ltac:(lia)) as Dh.
  unfold parse_window_size. rewrite chars_string_of_bytes.
  2: { apply bytes_ok_app. split; [by apply digits_bytes|]. constructor; [done|by apply digits_bytes]. }
  rewrite split_once_digits by (eapply Forall_impl; [exact Dw|]; cbn; lia). cbn [mbind option_bind].
  rewrite !parse_show by (try split; lia || (unfold in_width; lia)). cbn [mbind option_bind].
  by destruct (Z.ltb_spec 0 w), (Z.ltb_spec 0 h); try lia.
Qed.

Lemma hex32_encode seed : length seed = 32%nat -> bytes_ok seed ->
  hex32 (string_of_bytes (SessionFile.hex_encode seed)) = Going seed.
Proof.
  intros Hl Hb. unfold hex32, parse_hex32.
  assert (bytes_ok (SessionFile.hex_encode seed)) as Hok.
  { eapply Forall_impl; [by apply SessionFile.hex_encode_chars|]. intros c Hc. cbn in Hc. widths. lia. }
  rewrite chars_string_of_bytes by done.
  assert (length (SessionFile.hex_encode seed) = 64%nat) as Hlen.
  { replace 64%nat with (2 * length seed)%nat by lia. clear.
    induction seed as [|b seed IH]; [done|]. rewrite SessionFile.hex_encode_cons. cbn [length]. lia. }
  rewrite bool_decide_true by done.
  pose proof (SessionFile.parse_hex_encode seed Hb) as Hp. unfold SessionFile.parse_hex_bytes in Hp.
  rewrite Hlen in Hp. change (Z.odd (Z.of_nat 64)) with false in Hp. cbv iota in Hp. by rewrite Hp.
Qed.

(** An option with its value. *)
Lemma parse_valued {A} (meaning : string -> option_kind A) name value rest acc f :
  meaning name = Valued f -> parse_loop meaning (name :: value :: rest) acc = acc ← f value acc; parse_loop meaning rest acc.
Proof. intros E. cbn [parse_loop]. by rewrite E. Qed.

Lemma parse_flag {A} (meaning : string -> option_kind A) name rest acc f :
  meaning name = Flag f -> parse_loop meaning (name :: rest) acc = acc ← f acc; parse_loop meaning rest acc.
Proof. intros E. cbn [parse_loop]. by rewrite E. Qed.

(** The arguments behind some that have been read. *)
Lemma parse_app {A} (meaning : string -> option_kind A) xs ys acc acc' :
  parse_loop meaning xs acc = Going acc' -> parse_loop meaning (xs ++ ys) acc = parse_loop meaning ys acc'.
Proof using F64 SocketAddr parse_addr parse_f64.
  revert acc. induction xs as [xs IH] using (well_founded_induction (Wf_nat.well_founded_ltof _ length)).
  intros acc. destruct xs as [|x xs]; cbn [app parse_loop]; [by intros [= ->]|].
  destruct (meaning x) as [f|f].
  - destruct (f acc) as [acc1|c|] eqn:E; cbn [mbind run_bind]; try done. apply IH. unfold ltof. cbn. lia.
  - destruct xs as [|v xs]; cbn [app]; [done|].
    destruct (f v acc) as [acc1|c|] eqn:E; cbn [mbind run_bind]; try done. apply IH. unfold ltof. cbn. lia.
Qed.

(** What every option keeps. *)
Definition option_keeps {A} (I : A -> Prop) (k : option_kind A) : Prop :=
  match k with
  | Flag f => forall acc acc', I acc -> f acc = Going acc' -> I acc'
  | Valued f => forall value acc acc', I acc -> f value acc = Going acc' -> I acc'
  end.

Lemma parse_loop_keeps {A} (I : A -> Prop) (meaning : string -> option_kind A) args acc acc' :
  (forall arg, option_keeps I (meaning arg)) -> I acc -> parse_loop meaning args acc = Going acc' -> I acc'.
Proof using F64 SocketAddr parse_addr parse_f64.
  intros Hk. revert acc. induction args as [args IH] using (well_founded_induction (Wf_nat.well_founded_ltof _ length)).
  intros acc Hi. destruct args as [|x args]; cbn [parse_loop]; [by intros [= <-]|].
  specialize (Hk x). destruct (meaning x) as [f|f]; cbn [option_keeps] in Hk.
  - destruct (f acc) as [acc1|c|] eqn:E; cbn [mbind run_bind]; try done. apply IH; [unfold ltof; cbn; lia|by eapply Hk].
  - destruct args as [|v args]; [done|].
    destruct (f v acc) as [acc1|c|] eqn:E; cbn [mbind run_bind]; try done. apply IH; [unfold ltof; cbn; lia|by eapply Hk].
Qed.

(** What the code relies on where it does not check: sizes and numbers in range,
    and a window only where there are windows. *)
Definition client_vars_ok (v : ClientVars) : Prop :=
  is_u32 (v_target_latency_us v) /\ 0 < (v_window_size v).1 < 2 ^ 32 /\ 0 < (v_window_size v).2 < 2 ^ 32 /\
  (v_display v = ClientVideo.WindowMode -> windows = true).

Lemma parse_window_size_bound value w h :
  parse_window_size value = Some (w, h) -> 0 < w < 2 ^ 32 /\ 0 < h < 2 ^ 32.
Proof using F64 SocketAddr parse_addr parse_f64.
  unfold parse_window_size. destruct (split_once 120 (chars value)) as [[a b]|]; [|done]. cbn [mbind option_bind].
  destruct (parse_uint 32 a) as [w'|] eqn:Ew; [|done]. destruct (parse_uint 32 b) as [h'|] eqn:Eh; [|done].
  cbn [mbind option_bind]. apply parse_uint_bound in Ew; [|done]. apply parse_uint_bound in Eh; [|done].
  unfold in_width in *. destruct (Z.ltb_spec 0 w'), (Z.ltb_spec 0 h'); cbn [andb]; try done. intros [= <- <-]. lia.
Qed.

(** Looks through the options of a program, one by one. *)
Ltac each_option :=
  repeat match goal with
  | |- option_keeps _ (if ?b then _ else _) => destruct b
  end; cbn [option_keeps].

Lemma client_options_keep arg : option_keeps client_vars_ok (client_option arg).
Proof using F64 H SocketAddr parse_addr parse_f64 windows.
  unfold client_option. each_option; try (by intros value v v' Hv [= <-]); try (by intros v v' Hv [= <-]); try done.
  - intros value v v' Hv. destruct (parse_addr value); [|done]. by intros [= <-].
  - intros value v v' Hv. destruct (hex32 value); try done. by intros [= <-].
  - intros value v v' (Hl & Hs & Hw). destruct (parse_uint 32 (chars value)) as [n|] eqn:E; [|done].
    intros [= <-]. split; [by apply (parse_uint_bound 32 (chars value))|done].
  - intros value v v' (Hl & Hw & Hh & Hs). unfold client_display. destruct (String.eqb value "log"); [by intros [= <-]|].
    destruct (String.eqb value "window"); [|done]. destruct windows eqn:Ew; [|done]. by intros [= <-].
  - intros value v v' (Hl & Hw & Hh & Hs). destruct (parse_window_size value) as [[w h]|] eqn:E; [|done].
    intros [= <-]. destruct (parse_window_size_bound _ _ _ E). done.
  - intros value v v' Hv. destruct (String.eqb value "on"); [by intros [= <-]|].
    destruct (String.eqb value "off"); [by intros [= <-]|done].
Qed.

(** Arguments the server accepts are sound: both sizes have 32 bits and the delay
    64, and the screen is captured only by a program built for it. *)
Definition server_args_ok (a : ServerArgs) : Prop :=
  is_u32 (width a) /\ is_u32 (height a) /\ is_u64 (text_char_delay_ms a) /\
  (capture a = Desktop -> desktop_capture = true).

Lemma server_options_keep arg : option_keeps server_args_ok (server_option arg).
Proof.
  unfold server_option. each_option; try (by intros value a a' Ha [= <-]); try (by intros a a' Ha [= <-]); try done.
  - intros value a a' Ha. destruct (parse_addr value); [|done]. by intros [= <-].
  - intros value a a' Ha. destruct (hex32 value) as [k| |]; try done. cbn [mbind run_bind].
    destruct (verifying_key_from_bytes k); [|done]. by intros [= <-].
  - intros value a a' (Hw & Hh & Hd & Hc). destruct (parse_uint 32 (chars value)) as [n|] eqn:E; [|done].
    intros [= <-]. split; [by apply (parse_uint_bound 32 (chars value))|done].
  - intros value a a' (Hw & Hh & Hd & Hc). destruct (parse_uint 32 (chars value)) as [n|] eqn:E; [|done].
    intros [= <-]. split; [done|]. split; [by apply (parse_uint_bound 32 (chars value))|done].
  - intros value a a' Ha. destruct (parse_f64 value); [|done]. by intros [= <-].
  - intros value a a' (Hw & Hh & Hd & Hc). destruct (String.eqb value "synthetic"); [by intros [= <-]|].
    destruct (String.eqb value "desktop"); [|done]. destruct desktop_capture eqn:Ec; [|done]. by intros [= <-].
  - intros value a a' (Hw & Hh & Hd & Hc). destruct (parse_uint 64 (chars value)) as [n|] eqn:E; [|done].
    intros [= <-]. split; [done|]. split; [done|]. split; [by apply (parse_uint_bound 64 (chars value))|done].
Qed.

(** How a program may end at an option. *)
Definition option_exits {A} (asked : Prop) (k : option_kind A) : Prop :=
  match k with
  | Flag f => forall acc c, f acc = Exited c -> c = 2 \/ c = 0 /\ asked
  | Valued f => forall value acc c, f value acc = Exited c -> c = 2
  end.

Definition asks_help (arg : string) : Prop := arg = "--help"%string \/ arg = "-h"%string.

Lemma asks_help_eqb arg : String.eqb arg "--help" || String.eqb arg "-h" = true -> asks_help arg.
Proof. intros [->%String.eqb_eq| ->%String.eqb_eq]%orb_true_iff; [by left|by right]. Qed.

(** The same for how they end. *)
Ltac each_exit :=
  repeat match goal with
  | |- option_exits _ (if String.eqb ?x "--help" || String.eqb ?x "-h" then _ else _) =>
      destruct (String.eqb x "--help" || String.eqb x "-h") eqn:?
  | |- option_exits _ (if ?b then _ else _) => destruct b
  end; cbn [option_exits];
  try match goal with E : _ || _ = true |- _ => apply asks_help_eqb in E; by intros _ c [= <-]; right end;
  try by intros _ c [= <-]; left.

Lemma hex32_not_exited value c : hex32 value <> Exited c.
Proof. unfold hex32. by destruct (parse_hex32 value) as [[b|]|]. Qed.

Lemma parse_loop_exits {A} (meaning : string -> option_kind A) args acc c :
  (forall arg, option_exits (asks_help arg) (meaning arg)) ->
  parse_loop meaning args acc = Exited c ->
  c = 2 \/ c = 0 /\ exists arg, In arg args /\ asks_help arg.
Proof using F64 SocketAddr parse_addr parse_f64.
  intros Hk. revert acc. induction args as [args IH] using (well_founded_induction (Wf_nat.well_founded_ltof _ length)).
  intros acc. destruct args as [|x args]; cbn [parse_loop]; [done|].
  pose proof (Hk x) as Hx. destruct (meaning x) as [f|f]; cbn [option_exits] in Hx.
  - destruct (f acc) as [acc1|c1|] eqn:E; cbn [mbind run_bind]; try done.
    + intros Hr. apply IH in Hr as [?|(? & arg & Ha & Hh)]; [by left| |unfold ltof; cbn; lia].
      right. split; [done|]. exists arg. split; [by right|done].
    + intros [= <-]. destruct (Hx _ _ E) as [?|[? ?]]; [by left|]. right. split; [done|]. exists x. split; [by left|done].
  - destruct args as [|v args]; [done|].
    destruct (f v acc) as [acc1|c1|] eqn:E; cbn [mbind run_bind]; try done.
    + intros Hr. apply IH in Hr as [?|(? & arg & Ha & Hh)]; [by left| |unfold ltof; cbn; lia].
      right. split; [done|]. exists arg. split; [by right; right|done].
    + intros [= <-]. left. exact (Hx _ _ _ E).
Qed.

Lemma client_options_exit arg : option_exits (asks_help arg) (client_option arg).
Proof.
  unfold client_option. each_exit; try done.
  - intros value v c. destruct (parse_addr value); done.
  - intros value v c. destruct (hex32 value) eqn:E; try done. by apply hex32_not_exited in E.
  - intros value v c. by destruct (parse_uint 32 (chars value)).
  - intros value v c. unfold client_display. destruct (String.eqb value "log"); [done|].
    destruct (String.eqb value "window"); [destruct windows|]; cbn [negb]; by intros [= <-].
  - intros value v c. destruct (parse_window_size value); [done|by intros [= <-]].
  - intros value v c. destruct (String.eqb value "on"); [done|]. destruct (String.eqb value "off"); [done|by intros [= <-]].
Qed.

Lemma server_options_exit arg : option_exits (asks_help arg) (server_option arg).
Proof.
  unfold server_option. each_exit; try done.
  - intros value v c. destruct (parse_addr value); done.
  - intros value v c. destruct (hex32 value) as [k| |] eqn:E; try done; [|by apply hex32_not_exited in E].
    cbn [mbind run_bind]. by destruct (verifying_key_from_bytes k).
  - intros value v c. by destruct (parse_uint 32 (chars value)).
  - intros value v c. by destruct (parse_uint 32 (chars value)).
  - intros value v c. by destruct (parse_f64 value).
  - intros value v c. destruct (String.eqb value "synthetic"); [done|].
    destruct (String.eqb value "desktop"); [destruct desktop_capture|]; cbn [negb]; by intros [= <-].
  - intros value v c. by destruct (parse_uint 64 (chars value)).
Qed.

(** Reads the next option and its value. *)
Ltac next_option :=
  match goal with
  | |- context [parse_loop ?m (?n :: ?v :: ?r) ?acc] => rewrite (parse_valued m n v r acc _ eq_refl)
  end.

Lemma parse_optional_session o rest v :
  v_session_file v = None ->
  parse_loop client_option (optional "--session-file" o ++ rest) v
  = parse_loop client_option rest (v <| v_session_file := o |>).
Proof. intros Hv. destruct o as [x|]; cbn [optional app]; [by next_option|]. destruct v. cbn in *. by subst. Qed.

Lemma parse_optional_dump o rest v :
  v_dump_frames v = None ->
  parse_loop client_option (optional "--dump-frames" o ++ rest) v
  = parse_loop client_option rest (v <| v_dump_frames := o |>).
Proof. intros Hv. destruct o as [x|]; cbn [optional app]; [by next_option|]. destruct v. cbn in *. by subst. Qed.

(** * Properties *)

(** A command line says what it says.  The options for any arguments, whatever
    their strings look like, are read back as these arguments: no value is taken
    for an option, numbers of every size are read exactly, and what is not given
    keeps its default. *)
Theorem client_command_line_roundtrip show_addr seed a :
  parse_addr (show_addr (server a)) = Some (server a) ->
  length seed = 32%nat -> bytes_ok seed -> signing_key a = signing_key_from_bytes seed ->
  is_u32 (target_latency_us a) -> 0 < (window_size a).1 < 2 ^ 32 -> 0 < (window_size a).2 < 2 ^ 32 ->
  (display a = ClientVideo.WindowMode -> windows = true) ->
  client_parse_args (client_command_line show_addr seed a) = Going a.
Proof.
  intros Ha Hl Hb Hk Ht Hw Hh Hd. unfold client_parse_args, client_command_line. cbn [app].
  next_option. rewrite Ha. cbn [expect mbind run_bind]. do 2 (next_option; cbn [mbind run_bind]).
  next_option. rewrite hex32_encode by done. cbn [mbind run_bind]. do 3 (next_option; cbn [mbind run_bind]).
  next_option. rewrite chars_string_of_bytes by (by apply digits_bytes, show_uint_digits; destruct Ht).
  rewrite parse_show by done. cbn [expect mbind run_bind]. rewrite parse_optional_session by done. next_option.
  assert (forall v' : ClientVars, client_display (match display a with ClientVideo.LogMode => "log"
    | ClientVideo.WindowMode => "window" end) v' = Going (v' <| v_display := display a |>)) as ->.
  { intros v'. destruct (display a); [done|]. unfold client_display. by rewrite Hd. }
  cbn [mbind run_bind]. next_option. rewrite parse_window_show by done. cbn [mbind run_bind].
  rewrite parse_optional_dump by done. next_option.
  destruct a as [sv tc th sk ui di cn tl sf di' [w h] df [] []]; cbn in *; by subst.
Qed.

(** Accepted arguments are sound.  Whatever the command line, arguments that are
    accepted have a window with two positive sides of 32 bits and a latency of 32
    bits, and ask for a window only where there are windows. *)
Theorem client_accepts_sound args a :
  client_parse_args args = Going a ->
  is_u32 (target_latency_us a) /\ 0 < (window_size a).1 < 2 ^ 32 /\ 0 < (window_size a).2 < 2 ^ 32 /\
  (display a = ClientVideo.WindowMode -> windows = true).
Proof using F64 H SocketAddr parse_addr parse_f64 windows.
  unfold client_parse_args. destruct (parse_loop client_option args client_vars) as [v|c|] eqn:E; try done.
  cbn [mbind run_bind]. unfold client_args. destruct (v_server v) as [sv|], (v_trust_cert v) as [t|]; try done.
  intros [= <-]. refine (parse_loop_keeps client_vars_ok client_option args client_vars v client_options_keep _ E).
  split_and!; done.
Qed.
(** What the server accepts is sound.  Whatever the command line, accepted sizes
    have 32 bits and the delay 64, and desktop capture is asked for only where the
    program has it. *)
Theorem server_accepts_sound loopback four args a :
  server_parse_args loopback four args = Going a -> server_args_ok a.
Proof using F64 H SocketAddr parse_addr parse_f64 desktop_capture.
  intros E. refine (parse_loop_keeps server_args_ok server_option args _ a server_options_keep _ E). by split_and!.
Qed.

(** How a command line ends the programs.  Either program ends itself with code 2,
    or with code 0 and then somebody asked for help. *)
Theorem command_line_exits loopback four args c :
  client_parse_args args = Exited c \/ server_parse_args loopback four args = Exited c ->
  c = 2 \/ c = 0 /\ exists arg, In arg args /\ asks_help arg.
Proof using F64 H SocketAddr parse_addr parse_f64 windows desktop_capture.
  intros [E|E].
  - unfold client_parse_args in E. destruct (parse_loop client_option args client_vars) as [v|c1|] eqn:El; try done.
    + cbn [mbind run_bind] in E. unfold client_args in E.
      destruct (v_server v), (v_trust_cert v); try done; injection E as <-; by left.
    + injection E as <-. by eapply parse_loop_exits; [apply client_options_exit|].
  - by eapply parse_loop_exits; [apply server_options_exit|].
Qed.

(** The admin reader queues what the lines say, in their order, up to the first
    read error; a line that says nothing or that is not understood adds nothing. *)
Theorem admin_reader_queues lines rest queue :
  admin_reader (map Some lines ++ None :: rest) queue = queue ++ omap PermissionSm.parse_admin_command lines.
Proof using F64 H SocketAddr parse_addr parse_f64.
  revert queue. induction lines as [|line lines IH]; intros queue; cbn [map app admin_reader omap list_omap].
  { by rewrite app_nil_r. }
  rewrite IH. unfold admin_line. case_bool_decide as Ht.
  - assert (PermissionSm.parse_admin_command line = None) as -> by (unfold PermissionSm.parse_admin_command; by rewrite Ht). done.
  - destruct (PermissionSm.parse_admin_command line); [by rewrite <- app_assoc|done].
Qed.
End programs.

Module Examples.
#[local] Existing Instance toy_ed25519.

(** Addresses and numbers are strings here. *)
Definition client := client_parse_args (H := toy_ed25519) (Some : string -> option string).
Definition server := server_parse_args (H := toy_ed25519) (Some : string -> option string) (Some : string -> option string) true
  "127.0.0.1:4433" "4.0".

Definition args : ClientArgs :=
  {| CommandLine.server := "[::1]:4433"; trust_cert := "--help"; tls_hostname := "localhost";
     signing_key := signing_key_from_bytes (replicate 32 7); user_id := "u"; device_id := ""; client_name := "c";
     target_latency_us := 4294967295; session_file := Some "--server"; display := ClientVideo.WindowMode;
     window_size := (1920, 1); dump_frames := None; input := false; input_script := true |}.

Lemma client_command_line_roundtrip_witness :
  client true (client_command_line (fun a => a) (replicate 32 7) args) = Going args.
Proof.
  apply (client_command_line_roundtrip Some true (fun a => a) (replicate 32 7) args);
    try reflexivity; try (by repeat constructor); cbn; unfold is_u32, in_width; lia.
Defined.

Definition small := ["--width"; "100"; "--capture"; "desktop"; "--text-char-delay-ms"; "+7"]%string.

Lemma server_accepts_sound_witness :
  match server small with
  | Going a => server_args_ok true a /\ width a = 100 /\ text_char_delay_ms a = 7
  | _ => False
  end.
Proof.
  destruct (server small) as [a|c|] eqn:E; [|vm_compute in E; discriminate E..].
  split; [exact (server_accepts_sound Some Some true "127.0.0.1:4433" "4.0" small a E)|].
  vm_compute in E. injection E as <-. split; reflexivity.
Defined.

Lemma command_line_exits_witness :
  server ["--all-idr"; "--help"; "--fps"]%string = Exited 0 /\ asks_help "--help".
Proof.
  assert (server ["--all-idr"; "--help"; "--fps"]%string = Exited 0) as E by (vm_compute; reflexivity).
  split; [exact E|].
  destruct (command_line_exits (Some : string -> option string) Some true true "127.0.0.1:4433" "4.0"
    ["--all-idr"; "--help"; "--fps"]%string 0 (or_intror E)) as [?|(_ & arg & [<-|[<-|[<-|[]]]] & Ha)]; [lia| |exact Ha|];
    destruct Ha as [Ha|Ha]; discriminate Ha.
Defined.

(** The value of an option is taken as it is, and a missing one panics. *)
Example value_may_look_like_an_option :
  client false ["--user-id"; "--help"]%string = Exited 2 /\ client false ["--user-id"]%string = Crashed /\
  client false ["--help"]%string = Exited 0.
Proof. vm_compute. done. Qed.

Example sizes :
  map parse_window_size ["1280x720"; "0x720"; "1280"; "1x2x3"; "4294967296x1"; "+1x+1"; "1 x2"]%string
  = [Some (1280, 720); None; None; None; None; Some (1, 1); None].
Proof. vm_compute. reflexivity. Qed.

(** A seed of 64 bytes that are not all characters of their own is a panic, not an
    error. *)
Example non_ascii_seed_panics :
  parse_hex32 (string_of_bytes (48 :: [195; 169] ++ replicate 61 48)) = Panicked.
Proof. vm_compute. reflexivity. Qed.

(** Two commands that are understood and that no help text lists. *)
Example unlisted_commands :
  admin_reader (map (fun l => Some (chars l)) ["grant-clip-write"; "  "; "help"; " revoke-clip-write "]%string) []
  = [PermissionSm.TogglePermission PermissionSet.bit.CLIP_WRITE true;
     PermissionSm.TogglePermission PermissionSet.bit.CLIP_WRITE false].
Proof. vm_compute. reflexivity. Qed.

Example one_certificate_option :
  match server ["--cert"; "a.pem"]%string with Going a => choose_certificate a | _ => Exited 1 end = Crashed.
Proof. vm_compute. reflexivity. Qed.
End Examples.
