(* ===== verification/Ffmpeg.v ===== *)
(** Encoding and decoding one frame with an ffmpeg process: the model of
    [src/src/encoder.rs] and [src/src/decoder.rs].  The process is a parameter,
    which says what comes of running it with some arguments on some input; the
    arguments, the order in which its failures are looked at, and the check of
    what it returns are the program's. *)

From S2P Require Import Prelude.
From S2P Require Import Decimal.
From S2P Require Import Unicode.
From S2P Require Import TimecodeFrame.

(** * Definitions *)

Section processes.
(** [std::io::Error]. *)
Context {IoError : Type}.

(** A process that ended: what became of writing its input, its exit status and
    what it wrote. *)
Record Output := {
  written : result IoError unit;
  status : Z;
  stdout : list Z;
  stderr : list Z;
}.

(** A process that is not spawned, that cannot be waited for, or that ended. *)
Inductive child := NotSpawned (e : IoError) | NotWaited (e : IoError) | Ended (o : Output).

(** What running a program with some arguments on some input gives. *)
Variable ffmpeg : list string -> list Z -> child.

Inductive EncodeError :=
| Encode_Spawn (e : IoError)
| Encode_WriteStdin (e : IoError)
| Encode_Wait (e : IoError)
| Encode_NonZeroExit (status : Z) (stderr : list Z)
| Encode_EmptyOutput.

Inductive DecodeError :=
| Decode_Spawn (e : IoError)
| Decode_WriteStdin (e : IoError)
| Decode_Wait (e : IoError)
| Decode_NonZeroExit (status : Z) (stderr : list Z)
| Decode_UnexpectedOutputSize (expected actual : Z).

(** [ExitStatus::success]. *)
Definition success (status : Z) : bool := status =? 0.

Definition ffmpeg_available : bool :=
  match ffmpeg ["-version"]%string [] with Ended o => success (status o) | _ => false end.

Definition encode_args (frame : SyntheticFrame) : list string :=
  ["-hide_banner"; "-loglevel"; "error"; "-f"; "rawvideo"; "-pixel_format"; "rgb24"; "-video_size";
   string_of_bytes (show_uint (width frame) ++ 120 :: show_uint (height frame));
   "-i"; "-"; "-frames:v"; "1"; "-c:v"; "libx264"; "-preset"; "ultrafast"; "-tune"; "zerolatency";
   "-profile:v"; "baseline"; "-pix_fmt"; "yuv420p"; "-x264-params"; "repeat-headers=1"; "-f"; "h264"; "-"]%string.

Definition encode_single_frame_idr (frame : SyntheticFrame) : result EncodeError (list Z) :=
  match ffmpeg (encode_args frame) (rgb frame) with
  | NotSpawned e => Err (Encode_Spawn e)
  | NotWaited e => Err (Encode_Wait e)
  | Ended o =>
      match written o with
      | Err e => Err (Encode_WriteStdin e)
      | Ok _ =>
          if negb (success (status o)) then Err (Encode_NonZeroExit (status o) (stderr o))
          else if bool_decide (stdout o = []) then Err Encode_EmptyOutput
          else Ok (stdout o)
      end
  end.

Definition decode_args : list string :=
  ["-hide_banner"; "-loglevel"; "error"; "-f"; "h264"; "-i"; "-"; "-frames:v"; "1"; "-pix_fmt"; "rgb24";
   "-f"; "rawvideo"; "-"]%string.

(** The product of the sizes is taken at 32 bits. *)
Definition decode_single_frame (h264_bytes : list Z) (w h : Z) : result DecodeError SyntheticFrame :=
  match ffmpeg decode_args h264_bytes with
  | NotSpawned e => Err (Decode_Spawn e)
  | NotWaited e => Err (Decode_Wait e)
  | Ended o =>
      match written o with
      | Err e => Err (Decode_WriteStdin e)
      | Ok _ =>
          if negb (success (status o)) then Err (Decode_NonZeroExit (status o) (stderr o))
          else
            let expected := wrap 32 (wrap 32 (w * h) * 3) in
            if negb (Z.of_nat (length (stdout o)) =? expected)
            then Err (Decode_UnexpectedOutputSize expected (Z.of_nat (length (stdout o))))
            else Ok {| width := w; height := h; rgb := stdout o |}
      end
  end.

(** * Lemmas *)

(** A process that took its input and succeeded. *)
Definition finishes (c : child) (out : list Z) : Prop :=
  exists o, c = Ended o /\ written o = Ok tt /\ success (status o) = true /\ stdout o = out.

Lemma encode_ok f out :
  encode_single_frame_idr f = Ok out <-> finishes (ffmpeg (encode_args f) (rgb f)) out /\ out <> [].
Proof.
  unfold encode_single_frame_idr, finishes. destruct (ffmpeg _ _) as [e|e|o].
  1, 2: split; [done|intros [(? & ? & _) _]; done].
  destruct (written o) as [[]|e] eqn:Ew.
  2: { split; [done|]. intros [(o' & [= <-] & ? & _) _]. congruence. }
  destruct (success (status o)) eqn:Es; cbn [negb].
  2: { split; [done|]. intros [(o' & [= <-] & _ & ? & _) _]. congruence. }
  case_bool_decide as Hd.
  - split; [done|]. intros [(o' & [= <-] & _ & _ & <-) ?]. done.
  - split.
    + intros [= <-]. split; [|done]. by exists o.
    + intros [(o' & [= <-] & _ & _ & <-) ?]. done.
Qed.

(** Every other outcome is an error, and an encoder that returns nothing is one. *)
Lemma decode_ok bytes w h f :
  0 <= w -> 0 <= h -> w * h * 3 < 2 ^ 32 ->
  decode_single_frame bytes w h = Ok f <->
  finishes (ffmpeg decode_args bytes) (rgb f) /\ width f = w /\ height f = h /\
  Z.of_nat (length (rgb f)) = w * h * 3.
Proof.
  intros Hw Hh Hs. unfold decode_single_frame, finishes.
  rewrite (wrap_small 32 (w * h)), wrap_small by (unfold in_width; nia).
  destruct (ffmpeg _ _) as [e|e|o].
  1, 2: split; [done|intros [(? & ? & _) _]; done].
  destruct (written o) as [[]|e] eqn:Ew.
  2: { split; [done|]. intros [(o' & [= <-] & ? & _) _]. congruence. }
  destruct (success (status o)) eqn:Es; cbn [negb].
  2: { split; [done|]. intros [(o' & [= <-] & _ & ? & _) _]. congruence. }
  destruct (Z.eqb_spec (Z.of_nat (length (stdout o))) (w * h * 3)) as [Hd|Hd]; cbn [negb].
  - split.
    + intros [= <-]. cbn [rgb width height]. split_and!; try done. by exists o.
    + intros ((o' & [= <-] & _ & _ & Er) & <- & <- & _). rewrite Er. by destruct f.
  - split; [done|]. intros ((o' & [= <-] & _ & _ & Er) & _ & _ & ?). congruence.
Qed.
End processes.
Arguments child : clear implicits.
Arguments Output : clear implicits.
Arguments EncodeError : clear implicits.
Arguments DecodeError : clear implicits.
