(* ===== verification/Measurement.v ===== *)
(** The latency of one frame through the whole pipeline: the model of
    [src/src/measurement.rs].  The frame is encoded and decoded by an ffmpeg
    process ([Ffmpeg]), and sent over a video instance ([VideoSession]) from one
    connection to another; the clock is a parameter, the sequence of its
    readings. *)

From S2P Require Import Prelude.
From S2P Require Prologue Varint.
From S2P Require Import Envelope.
From S2P Require Import Async.
From S2P Require Import StreamReader.
From S2P Require Import Connection.
From S2P Require Import Messages.
From S2P Require Import MessageCodecs.
From S2P Require VideoSession.
From S2P Require Import TimecodeFrame.
From S2P Require Import Ffmpeg.

(** * Definitions *)

Section measurement.
Context `{Transport}.
Context `{!Cbor VideoStreamGeneration, !Cbor EncoderConfig, !Cbor VideoFrameHeader}.
Context {IoError : Type}.
Variable ffmpeg : list string -> list Z -> child IoError.

Inductive MeasurementError :=
| Encode (e : EncodeError IoError)
| Decode (e : DecodeError IoError)
| Video (e : VideoSession.VideoError)
| TimecodeMismatch (expected actual : Z).

Record LatencyMeasurement := {
  capture_ts : Z;
  encode_done_ts : Z;
  received_ts : Z;
  decode_done_ts : Z;
  display_ts : Z;
}.

Definition glass_to_glass_us (m : LatencyMeasurement) : Z := sat_sub (display_ts m) (capture_ts m).
Definition transport_us (m : LatencyMeasurement) : Z := sat_sub (received_ts m) (encode_done_ts m).

(** [tokio::join!] of two futures that each have a connection of their own: both
    run to their end, whatever the other gives. *)
Definition join {S T E F G A B} (m : async S E A) (n : async T F B) : async (S * T) G (result E A * result F B) :=
  fun '(s, t) =>
    let '(p, s') := m s in
    let '(q, t') := n t in
    (match p, q with
     | Crash, _ | _, Crash => Crash
     | Pending, _ | _, Pending => Pending
     | Elapsed, _ | _, Elapsed => Elapsed
     | Ready r, Ready r' => Ready (Ok (r, r'))
     end, (s', t')).

(** The state is the server's connection and the client's; [clock] gives the
    readings of [now_us], in order. *)
Definition measure_one_frame (clock : nat -> Z) (monitor_id generation config_id : Z) (encoder_config : EncoderConfig) :
    async (Connection * Connection) MeasurementError LatencyMeasurement :=
  let capture := clock 0%nat in
  frame ← aoutcome (generate_timecode_frame (ec_width encoder_config) (ec_height encoder_config) capture [40; 40; 40]);
  h264_bytes ← alift (map_err Encode (encode_single_frame_idr ffmpeg frame));
  let encode_done := clock 1%nat in
  '(server_result, client_result) ←
    join (VideoSession.open_video_instance false monitor_id generation config_id encoder_config h264_bytes
            capture encode_done)
         VideoSession.read_video_instance_intro;
  _ ← alift (map_err Video server_result);
  intro ← alift (map_err Video client_result);
  let received := clock 2%nat in
  let payload := VideoSession.first_frame_payload intro in
  decoded ← alift (map_err Decode
    (decode_single_frame ffmpeg payload (ec_width encoder_config) (ec_height encoder_config)));
  let decode_done := clock 3%nat in
  let display := clock 4%nat in
  extracted ← aoutcome (extract_timecode decoded);
  if negb (extracted =? capture) then athrow (TimecodeMismatch capture extracted)
  else aret {| capture_ts := capture; encode_done_ts := encode_done; received_ts := received;
               decode_done_ts := decode_done; display_ts := display |}.

(** * Lemmas *)

Lemma alift_inv {S E A} (r : result E A) (s s' : S) x : alift r s = (Ready (Ok x), s') -> r = Ok x /\ s' = s.
Proof. unfold alift. by intros [= -> <-]. Qed.

Lemma aoutcome_inv {S E A} (o : outcome A) (s s' : S) x :
  aoutcome (E := E) o s = (Ready (Ok x), s') -> o = Done x /\ s' = s.
Proof. unfold aoutcome. destruct o; [|done]. by intros [= -> <-]. Qed.

Lemma map_err_ok {E F A} (f : E -> F) (r : result E A) x : map_err f r = Ok x -> r = Ok x.
Proof. destruct r; [by intros [= ->]|done]. Qed.

Lemma join_ready {S T E F G A B} (m : async S E A) (n : async T F B) s t r r' s' t' :
  m s = (Ready r, s') -> n t = (Ready r', t') ->
  join (G := G) m n (s, t) = (Ready (Ok (r, r')), (s', t')).
Proof. intros E1 E2. unfold join. by rewrite E1, E2. Qed.

(** What a measurement that was made is one of. *)
Definition made (clock : nat -> Z) (m : LatencyMeasurement) : Prop :=
  m = {| capture_ts := clock 0%nat; encode_done_ts := clock 1%nat; received_ts := clock 2%nat;
         decode_done_ts := clock 3%nat; display_ts := clock 4%nat |}.

(** What a codec may do to the frame [f]: make some bytes of it, and of them a
    frame that is not too far from it. *)
Definition codec_carries (f : SyntheticFrame) (bytes : list Z) : Prop :=
  finishes (ffmpeg (encode_args f) (rgb f)) bytes /\ bytes <> [] /\
  exists f', finishes (ffmpeg decode_args bytes) (rgb f') /\ close 126 f f'.

Lemma codec_carries_ok f bytes w h :
  frame_ok f -> width f = w -> height f = h -> codec_carries f bytes ->
  encode_single_frame_idr ffmpeg f = Ok bytes /\
  exists f', decode_single_frame ffmpeg bytes w h = Ok f' /\ close 126 f f'.
Proof.
  intros (Hw & Hh & Hs & Hl) <- <- (He & Hn & f' & Hd & Hc). split; [by apply encode_ok|].
  exists f'. split; [|done]. apply decode_ok; [lia..|]. destruct Hc as (-> & -> & Hc).
  by rewrite <- (Forall2_length _ _ _ Hc).
Qed.

Context `{!CborLaws VideoStreamGeneration, !CborLaws EncoderConfig, !CborLaws VideoFrameHeader}.

(** * Properties *)

(** A frame that arrives is measured.  With a codec that is off by at most 126 in
    every byte, and with the client getting what the server sends, in any chunks,
    the measurement is made: it finds the timecode it put into the frame and
    consists of the five readings of the clock. *)
Theorem measurement_succeeds clock mon gen config_id config bytes pb f sc cc opens accepts evs s rest :
  0 <= clock 0%nat < 2 ^ 64 -> 512 <= ec_width config -> 8 <= ec_height config ->
  ec_width config * ec_height config * 3 < 2 ^ 32 ->
  generate_timecode_frame (ec_width config) (ec_height config) (clock 0%nat) [40; 40; 40] = Done f ->
  codec_carries f bytes ->
  0 <= mon <= Varint.MAX -> Prologue.encode StreamKind.Video 1 mon [] = Done pb ->
  VideoSession.fits (encode {| vsg_generation := gen; vsg_config_id := config_id |}) ->
  VideoSession.fits (encode config) ->
  VideoSession.fits (encode (VideoSession.intro_header gen config_id config bytes (clock 0%nat) (clock 1%nat))) ->
  VideoSession.fits bytes ->
  uni_opens sc = OStream {| sent := []; write_results := [] |} [] :: opens ->
  uni_accepts cc = AStream evs s :: accepts ->
  recv_bytes evs = pb ++ VideoSession.intro_bytes gen config_id config bytes (clock 0%nat) (clock 1%nat) ++ rest ->
  exists m c', measure_one_frame clock mon gen config_id config (sc, cc) = (Ready (Ok m), c') /\ made clock m.
Proof using Cbor0 Cbor1 Cbor2 CborLaws0 CborLaws1 CborLaws2 H IoError ffmpeg.
  intros Ht Hw Hh Hs Hf Hcodec Hmon Hpb Hg Hc Hhd Hi Ho Ha Hb.
  destruct (generate_ok (ec_width config) (ec_height config) (clock 0%nat) [40; 40; 40]) as (f0 & E0 & Hok & Ew & Eh & _);
    [done..|].
  assert (f0 = f) as -> by congruence.
  destruct (codec_carries_ok f bytes _ _ Hok Ew Eh Hcodec) as (Henc & f' & Hdec & Hclose).
  pose proof (timecode_survives_loss _ _ _ [40; 40; 40] _ _ Ht eq_refl Hw Hh Hs Hf Hclose) as Hext.
  destruct (VideoSession.open_instance_ok false mon gen config_id config bytes (clock 0%nat) (clock 1%nat) pb sc opens)
    as (sc' & Eo); [done..|].
  destruct (VideoSession.accept_intro_ok mon gen config_id config bytes (clock 0%nat) (clock 1%nat) pb rest cc accepts evs s)
    as (r' & cc' & Er & _); [done..|].
  do 2 eexists. split; [|reflexivity]. unfold measure_one_frame. rewrite Hf.
  erewrite abind_ready by reflexivity. rewrite Henc. erewrite abind_ready by reflexivity.
  erewrite abind_ready by (apply join_ready; [exact Eo|];
    unfold VideoSession.read_video_instance_intro; by erewrite abind_ready by exact Er).
  cbn beta iota. erewrite abind_ready by reflexivity. cbn beta. erewrite abind_ready by reflexivity. cbn [VideoSession.first_frame_payload]. rewrite Hdec.
  cbn beta. erewrite abind_ready by reflexivity. rewrite Hext. erewrite abind_ready by reflexivity.
  by rewrite Z.eqb_refl.
Qed.

(** Nothing else is measured.  Whatever the codec, the connections and the clock
    do, a measurement that is made is of a frame that came back from the client's
    decoder with the timecode of this capture; and if the clock does not go
    backwards, its readings are in order and the transport is a part of the
    whole. *)
Theorem measured_frame_is_the_captured_one clock mon gen config_id config s m s' :
  measure_one_frame clock mon gen config_id config s = (Ready (Ok m), s') ->
  made clock m /\
  (exists f bytes intro decoded,
    generate_timecode_frame (ec_width config) (ec_height config) (capture_ts m) [40; 40; 40] = Done f /\
    encode_single_frame_idr ffmpeg f = Ok bytes /\
    (VideoSession.read_video_instance_intro s.2).1 = Ready (Ok intro) /\
    decode_single_frame ffmpeg (VideoSession.first_frame_payload intro) (ec_width config) (ec_height config) = Ok decoded /\
    extract_timecode decoded = Done (capture_ts m)) /\
  ((forall i j, (i <= j)%nat -> clock i <= clock j) ->
    capture_ts m <= encode_done_ts m <= received_ts m /\ received_ts m <= decode_done_ts m <= display_ts m /\
    0 <= transport_us m <= glass_to_glass_us m).
Proof.
  unfold measure_one_frame. intros (f & s1 & [Ef ->]%aoutcome_inv & E)%abind_inv.
  apply abind_inv in E as (bytes & s2 & [Eb%map_err_ok ->]%alift_inv & E).
  apply abind_inv in E as ([sr cr] & [sc' cc'] & Ej & E).
  apply abind_inv in E as (x & s3 & [Es%map_err_ok ->]%alift_inv & E).
  apply abind_inv in E as (intro & s4 & [Ei%map_err_ok ->]%alift_inv & E).
  apply abind_inv in E as (d & s5 & [Ed%map_err_ok ->]%alift_inv & E).
  apply abind_inv in E as (t & s6 & [Et ->]%aoutcome_inv & E).
  destruct (Z.eqb_spec t (clock 0%nat)) as [->|]; cbn [negb] in E; [|done]. injection E as <- <-. subst sr cr.
  destruct s as [sc cc]. unfold join in Ej. cbn [snd].
  destruct (VideoSession.open_video_instance _ _ _ _ _ _ _ _ sc) as [p sc1], (VideoSession.read_video_instance_intro cc)
    as [q cc1]. split; [done|]. split.
  - exists f, bytes, intro, d. destruct p, q; try done. injection Ej as _ -> _ _. done.
  - intros Hclock. unfold transport_us, glass_to_glass_us, sat_sub. cbn.
    pose proof (Hclock 0%nat 1%nat). pose proof (Hclock 1%nat 2%nat). pose proof (Hclock 2%nat 3%nat).
    pose proof (Hclock 3%nat 4%nat). lia.
Qed.
End measurement.

(** * A concrete run *)

Module Examples.
#[local] Existing Instance plain_transport.
#[local] Instance generation_cbor : Cbor VideoStreamGeneration := countable_cbor.
#[local] Instance config_cbor : Cbor EncoderConfig := countable_cbor.
#[local] Instance header_cbor : Cbor VideoFrameHeader := countable_cbor.

Definition config : EncoderConfig :=
  {| ec_codec := H264; profile := 66; chroma_format := C420; bit_depth := 8; ec_width := 512; ec_height := 8;
     max_fps := 30; tier := 4; b_frames := 0; server_cursor_excludable := false |}.

(** A codec that dims white. *)
Definition dimming (args : list string) (input : list Z) : child unit :=
  Ended {| written := Ok tt; status := 0; stderr := [];
           stdout := if bool_decide (args = decode_args)
                     then map (fun b => if 200 <? b then b - 100 else b) input else input |}.

Definition clock (n : nat) : Z := 1000 * Z.of_nat n + 7.

Definition server : Connection :=
  {| uni_accepts := []; bi_accepts := []; uni_opens := [OStream {| sent := []; write_results := [] |} []];
     bi_opens := []; released := []; stopped_readers := [] |}.

Definition client (bytes : list Z) : Connection :=
  {| uni_accepts := [AStream [RData bytes] {| sent := []; write_results := [] |}]; bi_accepts := []; uni_opens := [];
     bi_opens := []; released := []; stopped_readers := [] |}.

Lemma dimming_carries f :
  encode_args f <> decode_args -> (0 < length (rgb f))%nat -> codec_carries dimming f (rgb f).
Proof.
  intros Ha Hl. split; [|split].
  - eexists. split; [reflexivity|]. cbn. by rewrite bool_decide_false.
  - destruct (rgb f); [cbn in Hl; lia|done].
  - exists (dim 100 f). split.
    + eexists. split; [reflexivity|]. done.
    + destruct (dim_close 100 f ltac:(lia)) as (? & ? & Hc). split; [done|]. split; [done|].
      eapply Forall2_impl; [exact Hc|]. cbn. lia.
Qed.

Lemma measurement_succeeds_witness :
  exists bytes m c',
    measure_one_frame dimming clock 3 1 0 config (server, client bytes) = (Ready (Ok m), c') /\
    glass_to_glass_us m = 4000 /\ transport_us m = 1000.
Proof.
  pose proof (@countable_cbor_laws VideoStreamGeneration _ _) as L1.
  pose proof (@countable_cbor_laws EncoderConfig _ _) as L2.
  pose proof (@countable_cbor_laws VideoFrameHeader _ _) as L3.
  assert (0 <= clock 0 < 2 ^ 64) as Ht by (split; [discriminate|reflexivity]). assert (512 <= ec_width config) as Hw by discriminate.
  assert (8 <= ec_height config) as Hh by discriminate.
  assert (ec_width config * ec_height config * 3 < 2 ^ 32) as Hs by reflexivity.
  assert (length [40; 40; 40] = 3%nat) as H3 by reflexivity.
  destruct (generate_ok (ec_width config) (ec_height config) (clock 0) [40; 40; 40] H3 Hw Hh Hs)
    as (f & E & (_ & _ & _ & Hl) & Ew & Eh & _).
  rewrite Ew, Eh in Hl. change (ec_width config * ec_height config * 3) with 12288 in Hl.
  destruct (Prologue.encode StreamKind.Video 1 3 []) as [pb|] eqn:Epb; [|vm_compute in Epb; discriminate Epb].
  assert (codec_carries dimming f (rgb f)) as Hc.
  { assert (0 < length (rgb f))%nat as Hp by (clear E; lia). exact (dimming_carries f ltac:(discriminate) Hp). }
  assert (VideoSession.fits (encode (VideoSession.intro_header 1 0 config (rgb f) (clock 0) (clock 1)))) as Hhd.
  { unfold VideoSession.intro_header. rewrite Hl. vm_compute. discriminate. }
  assert (VideoSession.fits (rgb f)) as Hf by (unfold VideoSession.fits; rewrite Hl; vm_compute; discriminate).
  assert (0 <= 3 <= Varint.MAX) as Hmon by (split; discriminate).
  assert (VideoSession.fits (encode {| vsg_generation := 1; vsg_config_id := 0 |})) as Hg by (vm_compute; discriminate).
  assert (VideoSession.fits (encode config)) as Hcf by (vm_compute; discriminate).
  pose (sent_bytes := pb ++ VideoSession.intro_bytes 1 0 config (rgb f) (clock 0) (clock 1)).
  assert (recv_bytes [RData sent_bytes] = pb ++ VideoSession.intro_bytes 1 0 config (rgb f) (clock 0) (clock 1) ++ []) as Hb.
  { rewrite app_assoc. reflexivity. }
  destruct (measurement_succeeds dimming clock 3 1 0 config (rgb f) pb f server (client sent_bytes) [] []
    [RData sent_bytes] {| sent := []; write_results := [] |} [] Ht Hw Hh Hs E Hc Hmon Epb Hg Hcf Hhd Hf
    eq_refl eq_refl Hb) as (m & c' & Em & Hm).
  exists sent_bytes, m, c'. split; [exact Em|]. rewrite Hm. split; reflexivity.
Defined.
End Examples.
