(* ===== verification/FrameDump.v ===== *)
(** The frames the client writes to files for inspection: the model of
    [dump_frame] in [src/sardp-cli/src/bin/sardp-client.rs] and of the removal of
    the old file in [main].  The directory is the map from its files' names to
    their contents; how each call to the file system goes is given. *)

From S2P Require Import Prelude.
From S2P Require Import Decimal.
From S2P Require Import Unicode.
From S2P Require Import Messages.

(** * Definitions *)

Definition DUMP_FRAME_COUNT : Z := 3.

Notation directory := (gmap string (list Z)).

(** A write succeeds, or fails before the file is opened ([None]) or after some
    bytes were written to it. *)
Inductive attempt := Succeeds | FailsAfter (n : option nat).

(** What becomes of [create_dir_all], of [fs::write] and of appending. *)
Record calls := {
  dir_created : bool;
  single_written : attempt;
  appended : attempt;
}.

(** The contents of a file that held [old] when opened. *)
Definition write_behind (a : attempt) (name : string) (old : list Z) (payload : list Z) (d : directory) : directory :=
  match a with
  | Succeeds => <[name := old ++ payload]> d
  | FailsAfter None => d
  | FailsAfter (Some n) => <[name := old ++ take n payload]> d
  end.

Definition single_name (frame : Z) : string :=
  string_of_bytes (chars "gen0_frame" ++ show_uint frame ++ chars ".h264").
Definition cumulative_name : string := "gen0_first3.h264".

Definition dump_frame (io : calls) (header : VideoFrameHeader) (payload : list Z) (d : directory) : directory :=
  if negb (vfh_generation header =? 0) || (DUMP_FRAME_COUNT <=? frame_id header) then d
  else if negb (dir_created io) then d
  else
    let d := write_behind (single_written io) (single_name (frame_id header)) [] payload d in
    write_behind (appended io) cumulative_name (default [] (d !! cumulative_name)) payload d.

(** The frames of a session, behind the removal of what an earlier one left; it
    may fail. *)
Definition dump_session (removed : bool) (frames : list (calls * VideoFrameHeader * list Z)) (d : directory) : directory :=
  fold_left (fun d '(io, header, payload) => dump_frame io header payload d) frames
    (if removed then delete cumulative_name d else d).

(** * Lemmas *)

(** A frame that is dumped. *)
Definition dumped (header : VideoFrameHeader) : bool :=
  (vfh_generation header =? 0) && (frame_id header <? DUMP_FRAME_COUNT).

Definition all_well : calls := {| dir_created := true; single_written := Succeeds; appended := Succeeds |}.

Lemma write_behind_ne a name name' old payload d : name' <> name -> write_behind a name old payload d !! name' = d !! name'.
Proof. intros Hn. destruct a as [|[n|]]; cbn [write_behind]; [|..|done]; by rewrite lookup_insert_ne. Qed.

Lemma dump_skips io header payload d : dumped header = false -> dump_frame io header payload d = d.
Proof.
  unfold dumped, dump_frame. destruct (vfh_generation header =? 0); cbn [negb andb orb]; [|done].
  intros Hd. zcases; cbn in *; done || lia.
Qed.

Lemma dump_writes header payload d :
  dumped header = true ->
  dump_frame all_well header payload d
  = <[cumulative_name := default [] (<[single_name (frame_id header) := payload]> d !! cumulative_name) ++ payload]>
      (<[single_name (frame_id header) := payload]> d).
Proof.
  unfold dumped, dump_frame. intros [-> Hf]%andb_prop. cbn [negb orb].
  destruct (Z.leb_spec DUMP_FRAME_COUNT (frame_id header)); [apply Z.ltb_lt in Hf; lia|]. done.
Qed.

(** The three names, and that none of them is the cumulative file's. *)
Lemma single_names frame :
  0 <= frame < 3 ->
  single_name frame ∈ ["gen0_frame0.h264"; "gen0_frame1.h264"; "gen0_frame2.h264"]%string /\
  single_name frame <> cumulative_name.
Proof.
  intros Hf. assert (frame = 0 \/ frame = 1 \/ frame = 2) as [->|[->| ->]] by lia;
    (split; [apply (bool_decide_unpack _); by vm_compute|by vm_compute]).
Qed.

Lemma single_name_inj a b : 0 <= a < 3 -> 0 <= b < 3 -> single_name a = single_name b -> a = b.
Proof.
  intros Ha Hb. assert (a = 0 \/ a = 1 \/ a = 2) as [->|[->| ->]] by lia;
    assert (b = 0 \/ b = 1 \/ b = 2) as [->|[->| ->]] by lia; vm_compute; done.
Qed.

(** * Properties *)

(** The dump can be played.  If the old file is removed and the files can be
    written, the cumulative file consists of the payloads of the first three
    frames of generation 0, in the order they came, and there is none if there
    was no such frame; each of the single files holds the last payload of its
    frame. *)
Theorem dump_is_playable frames d :
  Forall (fun f => f.1.1 = all_well /\ 0 <= frame_id f.1.2) frames ->
  let d' := dump_session true frames d in
  let kept := filter (fun f => dumped f.1.2 = true) frames in
  d' !! cumulative_name = (if bool_decide (kept = []) then None else Some (concat (map snd kept))) /\
  forall n, 0 <= n < 3 ->
    d' !! single_name n
    = match last (filter (fun f => frame_id f.1.2 = n) kept) with
      | Some f => Some f.2
      | None => d !! single_name n
      end.
Proof.
  cbn zeta. unfold dump_session. induction frames as [|[[io h] p] frames IH] using rev_ind; intros Hf.
  - cbn. split; [by apply lookup_delete_eq|]. intros n Hn. apply lookup_delete_ne. by destruct (single_names n Hn).
  - apply Forall_app in Hf as [Hf [[Hio Hid] _]%Forall_cons]. cbn [fst snd] in Hio, Hid. subst io.
    destruct (IH Hf) as [IH1 IH2]. clear IH.
    rewrite fold_left_app, !filter_app. cbn [fold_left]. set (d1 := fold_left _ frames _) in *.
    destruct (dumped h) eqn:Eh.
    2: { rewrite dump_skips by done. rewrite (filter_cons_False _ _ []) by (cbn; by rewrite Eh).
         rewrite filter_nil, app_nil_r. done. }
    rewrite dump_writes by done. rewrite (filter_cons_True _ _ []) by done. rewrite filter_nil.
    assert (0 <= frame_id h < 3) as Hr.
    { unfold dumped, DUMP_FRAME_COUNT in Eh. apply andb_prop in Eh as [_ Eh%Z.ltb_lt]. lia. }
    pose proof (single_names _ Hr) as [_ Hne]. split.
    + rewrite lookup_insert_eq, bool_decide_false by (intros E; by apply app_eq_nil in E as [_ ?]).
      rewrite lookup_insert_ne, IH1 by done.
      rewrite map_app, concat_app. cbn [map concat snd]. rewrite app_nil_r. case_bool_decide as Hk; [by rewrite Hk|done].
    + intros n Hn. rewrite lookup_insert_ne by (intros E; by apply (proj2 (single_names n Hn))).
      rewrite filter_app. destruct (decide (frame_id h = n)) as [<-|Hd].
      * rewrite lookup_insert_eq. rewrite (filter_cons_True _ _ []) by done. by rewrite filter_nil, last_snoc.
      * rewrite lookup_insert_ne by (intros E; by apply single_name_inj in E).
        rewrite (filter_cons_False _ _ []) by done. by rewrite filter_nil, app_nil_r, IH2.
Qed.

(** Nothing else is touched, however the calls go. *)
Theorem dump_touches_its_files removed frames d name :
  Forall (fun f => 0 <= frame_id f.1.2) frames ->
  name ∉ ["gen0_frame0.h264"; "gen0_frame1.h264"; "gen0_frame2.h264"; "gen0_first3.h264"]%string ->
  dump_session removed frames d !! name = d !! name.
Proof.
  intros Hf Hn. assert (name <> cumulative_name) as Hc by (intros ->; apply Hn; by do 3 right; left).
  unfold dump_session. revert Hf. induction frames as [|[[io h] p] frames IH] using rev_ind; intros Hf.
  { cbn. destruct removed; [by apply lookup_delete_ne|done]. }
  apply Forall_app in Hf as [Hf [Hid _]%Forall_cons]. rewrite fold_left_app, <- (IH Hf). cbn [fold_left fst snd] in *.
  destruct (dumped h) eqn:Eh; [|by rewrite dump_skips].
  unfold dump_frame. destruct (negb (_ =? 0) || _); [done|]. destruct (negb (dir_created io)); [done|]. rewrite !write_behind_ne; [done| |done].
  unfold dumped, DUMP_FRAME_COUNT in Eh. apply andb_prop in Eh as [_ Eh%Z.ltb_lt].
  intros ->. apply Hn. destruct (single_names (frame_id h)) as [Hs _]; [lia|]. revert Hs.
  rewrite !elem_of_cons. tauto.
Qed.

Module Examples.

Definition header (generation frame : Z) : VideoFrameHeader :=
  {| vfh_generation := generation; frame_id := frame; vfh_config_id := 0; flags := 0; capture_ts := 0;
     encode_done_ts := 0; vfh_width := 2; vfh_height := 2; payload_len := 1 |}.

Definition session : list (calls * VideoFrameHeader * list Z) :=
  [(all_well, header 0 0, [1]); (all_well, header 0 1, [2; 3]); (all_well, header 1 2, [4]); (all_well, header 0 3, [5])].

Definition old : directory := {["gen0_first3.h264"%string := [9]; "notes"%string := [8]]}.

Lemma dump_is_playable_witness :
  Forall (fun f => f.1.1 = all_well /\ 0 <= frame_id f.1.2) session /\
  dump_session true session old !! cumulative_name = Some [1; 2; 3].
Proof.
  assert (Forall (fun f => f.1.1 = all_well /\ 0 <= frame_id f.1.2) session) as Hf by (repeat constructor; cbn; lia).
  split; [exact Hf|]. rewrite (proj1 (dump_is_playable session old Hf)). reflexivity.
Defined.

Lemma dump_touches_its_files_witness :
  Forall (fun f => 0 <= frame_id f.1.2) session /\ dump_session false session old !! "notes"%string = Some [8].
Proof.
  assert (Forall (fun f => 0 <= frame_id f.1.2) session) as Hf by (repeat constructor; cbn; lia).
  split; [exact Hf|]. rewrite (dump_touches_its_files false session old "notes" Hf); [reflexivity|].
  by apply (bool_decide_unpack _).
Defined.

(** An old file that cannot be removed is added to, and a write that fails leaves
    a gap in the cumulative file. *)
Example unremoved_file_grows :
  dump_session false session old !! cumulative_name = Some [9; 1; 2; 3] /\
  dump_session true [({| dir_created := true; single_written := Succeeds; appended := FailsAfter (Some 1%nat) |},
                      header 0 0, [1; 2]); (all_well, header 0 1, [3])] old !! cumulative_name = Some [1; 3].
Proof. by vm_compute. Qed.
End Examples.
