(* ===== verification/WinApi.v ===== *)
(** Code that drives Windows through its interfaces: a monad for calls that may
    fail, and what such code holds.  Which calls fail is given, one answer per
    call; the log says which calls were made and which resources were acquired
    and released.  Interfaces that Rust releases by dropping their pointers are
    not followed, only what the code releases itself.  With it come the calls that
    the display and the capture thread share: [create_d3d11_device] of
    [src/tools/dxgi-capture-poc/src/capture.rs] and the search for a transform. *)

From S2P Require Import Prelude.

(** * Definitions *)

Inductive resource :=
| Com
| MediaFoundation
| UserData
| Waitable
| Activate (i : nat)
| ActivateArray
| NameString
| InputView
| Blob.

#[export] Instance resource_eq_dec : EqDecision resource.
Proof. solve_decision. Defined.

Inductive event :=
| Called (api : string)
| Acquired (r : resource)
| Released (r : resource).

Section api.
(** [windows::core::Error]. *)
Context {Error : Type}.

(** What a step of the set-up is called, and its error. *)
Definition failure : Type := string * Error.

(** [clock] are the readings to come; a call without an answer succeeds.  The
    thread has a channel on which it says once whether it is ready: [ready_tx] is
    the [Option] of its sender, [reported] what was sent.  [closed] is the flag it
    shares. *)
Record system := {
  answers : list (option Error);
  clock : list Z;
  log : list event;
  ready_tx : bool;
  reported : list (result failure unit);
  closed : bool;
}.

Definition with_log (f : list event -> list event) (s : system) : system :=
  {| answers := answers s; clock := clock s; log := f (log s); ready_tx := ready_tx s; reported := reported s;
     closed := closed s |}.

(** Fallible code with errors [E]. *)
Definition win (E A : Type) : Type := system -> result E A * system.

Definition note {E} (e : event) : win E unit := fun s => (Ok tt, with_log (fun l => l ++ [e]) s).

(** A call that says nothing but whether it succeeded. *)
Definition call (api : string) : win Error unit := fun s =>
  (match answers s with Some e :: _ => Err e | _ => Ok tt end,
   {| answers := tail (answers s); clock := clock s; log := log s ++ [Called api]; ready_tx := ready_tx s;
      reported := reported s; closed := closed s |}).

Definition now {E} : win E Z := fun s =>
  (Ok (hd 0 (clock s)),
   {| answers := answers s; clock := tail (clock s); log := log s; ready_tx := ready_tx s; reported := reported s;
      closed := closed s |}).

Definition fail {E A} (e : E) : win E A := fun s => (Err e, s).

(** The result in the caller's hands. *)
Definition attempt {E F A} (m : win E A) : win F (result E A) := fun s => let '(r, s') := m s in (Ok r, s').

(** [map_err]. *)
Definition on_error {E F A} (f : E -> F) (m : win E A) : win F A := fun s => let '(r, s') := m s in (map_err f r, s').

#[export] Instance win_ret E : MRet (win E) := fun A x s => (Ok x, s).
#[export] Instance win_bind E : MBind (win E) := fun A B f m s =>
  match m s with
  | (Ok x, s') => f x s'
  | (Err e, s') => (Err e, s')
  end.

Definition acquire {E} (r : resource) : win E unit := note (Acquired r).
Definition release {E} (r : resource) : win E unit := note (Released r).

(** [if let Some(ready) = ready_tx.take() { ready.send(r) }]; says whether it was
    sent. *)
Definition report {E} (r : result failure unit) : win E bool := fun s =>
  (Ok (ready_tx s),
   {| answers := answers s; clock := clock s; log := log s; ready_tx := false;
      reported := (if ready_tx s then reported s ++ [r] else reported s); closed := closed s |}).

Definition set_closed {E} : win E unit := fun s =>
  (Ok tt, {| answers := answers s; clock := clock s; log := log s; ready_tx := ready_tx s; reported := reported s;
             closed := true |}).

(** [m] with a guard that releases [r], however [m] ends. *)
Definition guarded {E A} (r : resource) (m : win E A) : win E A := fun s =>
  let '(x, s') := m s in (x, (release (E := E) r s').2).

(** A series of calls, up to the first that fails. *)
Fixpoint calls (apis : list string) : win Error unit :=
  match apis with
  | [] => mret tt
  | api :: apis => _ ← call api; calls apis
  end.

(** Calls whose failures are ignored. *)
Definition ignored {E} (apis : list string) : win E unit := _ ← attempt (calls apis); mret tt.

(** ** What the display and the capture thread both do *)

Definition create_d3d11_device : win Error unit :=
  calls ["CreateDXGIFactory1"; "EnumAdapters1"; "cast IDXGIAdapter"; "D3D11CreateDevice"].

Fixpoint acquire_all (i n : nat) : win Error unit :=
  match n with
  | O => mret tt
  | S n => _ ← acquire (Activate i); acquire_all (S i) n
  end.

(** The loop over the slots: the first is kept. *)
Fixpoint take_slots (i n : nat) : win Error unit :=
  match n with
  | O => mret tt
  | S n => _ ← (if decide (i = O) then mret tt else release (Activate i)); take_slots (S i) n
  end.

(** The first of [n] transforms an enumeration finds, which the caller owns; the
    error [none] if there is none. *)
Definition find_first_mft (n : nat) (none : Error) : win Error unit :=
  _ ← call "MFTEnumEx";
  _ ← acquire ActivateArray;
  _ ← acquire_all 0 n;
  if decide (n = O) then
    _ ← release ActivateArray;
    fail none
  else
    _ ← take_slots 0 n;
    _ ← release ActivateArray;
    named ← attempt (call "GetAllocatedString");
    match named with
    | Ok _ => _ ← acquire NameString; release NameString
    | Err _ => mret tt
    end.

(** * Lemmas *)

(** How often [r] is held. *)
Definition delta (r : resource) (e : event) : Z :=
  match e with
  | Called _ => 0
  | Acquired r' => if decide (r = r') then 1 else 0
  | Released r' => if decide (r = r') then -1 else 0
  end.

Definition balance (l : list event) (r : resource) : Z := fold_right (fun e n => delta r e + n) 0 l.
Arguments balance : simpl never.
Arguments delta : simpl never.

Lemma balance_snoc l e r : balance (l ++ [e]) r = balance l r + delta r e.
Proof. unfold balance. induction l as [|x l IH]; cbn [app fold_right] in *; [lia|]. rewrite IH. lia. Qed.

(** What is held and what the thread said. *)
Definition told : Type := bool * list (result failure unit) * bool.
Definition at_ (b : resource -> Z) (t : told) (s : system) : Prop :=
  (forall r, balance (log s) r = b r) /\ (ready_tx s, reported s, closed s) = t.

Definition triple {E A} (P : system -> Prop) (m : win E A) (Q : A -> system -> Prop) (R : E -> system -> Prop) : Prop :=
  forall s, P s -> match m s with (Ok x, s') => Q x s' | (Err e, s') => R e s' end.

(** Code that leaves both as they were. *)
Definition neutral {E A} (m : win E A) : Prop :=
  forall b t, triple (at_ b t) m (fun _ => at_ b t) (fun _ => at_ b t).

Definition plus (r : resource) (n : Z) (b : resource -> Z) : resource -> Z := fun r' => b r' + if decide (r' = r) then n else 0.

Lemma at_ext b b' t s : (forall r, b r = b' r) -> at_ b t s -> at_ b' t s.
Proof. intros Hb [Hs Ht]. split; [|done]. intros r. by rewrite Hs. Qed.

Lemma win_bind_triple {E A B} P (m : win E A) (f : A -> win E B) Q Q' R :
  triple P m Q R -> (forall x, triple (Q x) (f x) Q' R) -> triple P (m ≫= f) Q' R.
Proof.
  intros Hm Hf s Hs. specialize (Hm s Hs). unfold mbind, win_bind. destruct (m s) as [[x|e] s']; [|done].
  by apply Hf.
Qed.

Lemma triple_weaken {E A} (P P' : system -> Prop) (m : win E A) (Q Q' : A -> system -> Prop) (R R' : E -> system -> Prop) :
  triple P' m Q' R' -> (forall s, P s -> P' s) -> (forall x s, Q' x s -> Q x s) -> (forall e s, R' e s -> R e s) ->
  triple P m Q R.
Proof.
  intros Hm Hp Hq Hr s Hs. specialize (Hm s (Hp s Hs)). destruct (m s) as [[x|e] s']; [by apply Hq|by apply Hr].
Qed.

Lemma win_ret_triple {E A} (P : system -> Prop) (x : A) (R : E -> system -> Prop) : triple P (mret x) (fun _ => P) R.
Proof. by intros s Hs. Qed.

Lemma triple_fail {E A} (P : system -> Prop) (e : E) (Q : A -> system -> Prop) : triple P (fail e) Q (fun _ => P).
Proof. by intros s Hs. Qed.

Lemma at_note b t e s : at_ b t s -> at_ (fun r => b r + delta r e) t (with_log (fun l => l ++ [e]) s).
Proof. intros [Hs Ht]. split; [|done]. intros r. cbn. by rewrite balance_snoc, Hs. Qed.

Lemma triple_acquire {E} b t r (R : E -> system -> Prop) : triple (at_ b t) (acquire r) (fun _ => at_ (plus r 1 b) t) R.
Proof. intros s Hs. cbn. by apply at_note. Qed.

Lemma triple_release {E} b t r (R : E -> system -> Prop) : triple (at_ b t) (release r) (fun _ => at_ (plus r (-1) b) t) R.
Proof. intros s Hs. cbn. by apply at_note. Qed.

Lemma triple_guarded {E A} P r (m : win E A) (b : A -> resource -> Z) t (b' : E -> resource -> Z) t' :
  triple P m (fun x => at_ (b x) (t x)) (fun e => at_ (b' e) (t' e)) ->
  triple P (guarded r m) (fun x => at_ (plus r (-1) (b x)) (t x)) (fun e => at_ (plus r (-1) (b' e)) (t' e)).
Proof.
  intros Hm s Hs. specialize (Hm s Hs). unfold guarded. destruct (m s) as [[x|e] s']; cbn; by apply at_note.
Qed.

Lemma triple_report {E} b sent c r (R : E -> system -> Prop) :
  triple (at_ b (true, sent, c)) (report r) (fun x s => x = true /\ at_ b (false, sent ++ [r], c) s) R.
Proof. intros s [Hs [= Ht Hr Hc]]. cbn. rewrite Ht, Hr, Hc. done. Qed.

Lemma triple_report_taken {E} b sent c r (R : E -> system -> Prop) :
  triple (at_ b (false, sent, c)) (report r) (fun x s => x = false /\ at_ b (false, sent, c) s) R.
Proof. intros s [Hs [= Ht Hr Hc]]. cbn. rewrite Ht, Hr, Hc. done. Qed.

Lemma triple_set_closed {E} b x sent c (R : E -> system -> Prop) :
  triple (at_ b (x, sent, c)) set_closed (fun _ => at_ b (x, sent, true)) R.
Proof. intros s [Hs [= Ht Hr Hc]]. split; [done|]. cbn. by rewrite Ht, Hr. Qed.

Lemma triple_attempt {E F A} P (m : win E A) Q R (R' : F -> system -> Prop) :
  triple P m Q R ->
  triple P (attempt m) (fun x s => match x with Ok x => Q x s | Err e => R e s end) R'.
Proof. intros Hm s Hs. specialize (Hm s Hs). unfold attempt. by destruct (m s) as [[x|e] s']. Qed.

Lemma triple_on_error {E F A} P (g : E -> F) (m : win E A) Q (R : F -> system -> Prop) :
  triple P m Q (fun e => R (g e)) -> triple P (on_error g m) Q R.
Proof. intros Hm s Hs. specialize (Hm s Hs). unfold on_error. by destruct (m s) as [[x|e] s']. Qed.

Lemma neutral_ret {E A} (x : A) : neutral (mret x : win E A).
Proof. intros b t. apply win_ret_triple. Qed.

Lemma neutral_called b t api s : at_ b t s -> at_ b t (with_log (fun l => l ++ [Called api]) s).
Proof. intros Hs. eapply at_ext; [|by apply at_note]. intros r. unfold delta. lia. Qed.

Lemma triple_called {E} b t api (R : E -> system -> Prop) : triple (at_ b t) (note (Called api)) (fun _ => at_ b t) R.
Proof. intros s Hs. by apply neutral_called. Qed.

Lemma neutral_call api : neutral (call api).
Proof.
  intros b t s Hs%(neutral_called _ _ api). unfold call. by destruct (answers s) as [|[e|] l].
Qed.

Lemma neutral_now {E} : neutral (now (E := E)).
Proof. by intros b t s Hs. Qed.

Lemma neutral_fail {E A} (e : E) : neutral (fail e : win E A).
Proof. by intros b t s Hs. Qed.

Lemma neutral_note {E} api : neutral (note (E := E) (Called api)).
Proof. intros b t s Hs. by apply neutral_called. Qed.

Lemma neutral_bind {E A B} (m : win E A) (f : A -> win E B) : neutral m -> (forall x, neutral (f x)) -> neutral (m ≫= f).
Proof. intros Hm Hf b t. eapply win_bind_triple; [apply Hm|]. intros x. apply Hf. Qed.

Lemma neutral_attempt {E F A} (m : win E A) : neutral m -> neutral (attempt (F := F) m).
Proof. intros Hm b t s Hs. specialize (Hm b t s Hs). unfold attempt. by destruct (m s) as [[x|e] s']. Qed.

Lemma neutral_on_error {E F A} (g : E -> F) (m : win E A) : neutral m -> neutral (on_error g m).
Proof. intros Hm b t. apply triple_on_error, Hm. Qed.

Lemma neutral_calls apis : neutral (calls apis).
Proof. induction apis as [|api apis IH]; cbn [calls]; [apply neutral_ret|]. apply neutral_bind; [apply neutral_call|done]. Qed.

Lemma neutral_ignored {E} apis : neutral (ignored (E := E) apis).
Proof. apply neutral_bind; [apply neutral_attempt, neutral_calls|]. intros _. apply neutral_ret. Qed.

(** Code that holds [r] and then releases it whatever happens. *)
Lemma neutral_held {E A} r (m : win E A) : neutral m -> neutral (_ ← acquire r; guarded r m).
Proof.
  intros Hm b t. eapply win_bind_triple; [apply triple_acquire|]. intros [].
  eapply triple_weaken;
    [exact (triple_guarded _ r m (fun _ => plus r 1 b) (fun _ => t) (fun _ => plus r 1 b) (fun _ => t) (Hm _ _))|done|..];
    intros x s; apply at_ext; intros r'; unfold plus;
    destruct (decide _); lia.
Qed.
(** [n] of the activates are acquired or released. *)
Definition plus_all (i n : nat) (k : Z) (b : resource -> Z) : resource -> Z := fun r =>
  b r + match r with Activate j => if decide (i <= j < i + n)%nat then k else 0 | _ => 0 end.

Lemma triple_acquire_all b t i n (R' : Error -> system -> Prop) :
  triple (at_ b t) (acquire_all i n) (fun _ => at_ (plus_all i n 1 b) t) R'.
Proof.
  revert i b. induction n as [|n IH]; intros i b; cbn [acquire_all].
  - eapply triple_weaken; [apply win_ret_triple|done| |done]. intros [] s. apply at_ext. intros [| | | |j| | | |];
      unfold plus_all; try lia. rewrite decide_False by lia. lia.
  - eapply win_bind_triple; [apply triple_acquire|]. intros [].
    eapply triple_weaken; [apply IH|done| |done]. intros [] s. apply at_ext. intros [| | | |j| | | |];
      unfold plus_all, plus; rewrite ?decide_False by done; try lia.
    destruct (decide (Activate j = Activate i)) as [[= ->]|Hd].
    + rewrite decide_False by lia. rewrite decide_True by lia. lia.
    + assert (j <> i) by congruence. repeat case_decide; lia.
Qed.

Lemma triple_take_slots b t i n (R : Error -> system -> Prop) :
  triple (at_ b t) (take_slots i n)
    (fun _ => at_ (if decide (i = O) then plus_all 1 (pred n) (-1) b else plus_all i n (-1) b) t) R.
Proof.
  revert i b. induction n as [|n IH]; intros i b; cbn [take_slots].
  - eapply triple_weaken; [apply win_ret_triple|done| |done]. intros [] s. apply at_ext. intros [| | | |j| | | |];
      destruct (decide (i = O)); unfold plus_all; try lia; rewrite decide_False by (cbn; lia); lia.
  - destruct (decide (i = O)) as [->|Hi].
    + eapply win_bind_triple; [apply win_ret_triple|]. intros [].
      eapply triple_weaken; [apply IH|done| |done]. intros [] s. apply at_ext. by rewrite decide_False.
    + eapply win_bind_triple; [apply triple_release|]. intros [].
      eapply triple_weaken; [apply IH|done| |done]. intros [] s. rewrite decide_False by lia.
      apply at_ext. intros [| | | |j| | | |]; unfold plus_all, plus; rewrite ?decide_False by done; try lia.
      destruct (decide (Activate j = Activate i)) as [[= ->]|Hd].
      * rewrite decide_False by lia. rewrite decide_True by lia. lia.
      * assert (j <> i) by congruence. repeat case_decide; lia.
Qed.

(** A transform that is found is held, and nothing else is. *)
Lemma triple_find_first n none b t :
  triple (at_ b t) (find_first_mft n none) (fun _ => at_ (plus (Activate 0) 1 b) t) (fun _ => at_ b t).
Proof.
  unfold find_first_mft. eapply win_bind_triple; [apply neutral_call|]. intros [].
  eapply win_bind_triple; [apply triple_acquire|]. intros [].
  eapply win_bind_triple; [apply triple_acquire_all|]. intros [].
  destruct (decide (n = O)) as [E|Hd].
  - eapply win_bind_triple; [apply triple_release|]. intros []. rewrite E.
    eapply triple_weaken; [apply triple_fail|done|intros x s Hs; exact Hs|]. intros e s. apply at_ext.
    intros [| | | |j| | | |]; unfold plus_all, plus; repeat case_decide; try done; lia.
  - eapply win_bind_triple; [apply triple_take_slots|]. intros [].
    rewrite decide_True by done. eapply win_bind_triple; [apply triple_release|]. intros [].
    apply (triple_weaken _ (at_ (plus (Activate 0) 1 b) t) _ _ (fun _ => at_ (plus (Activate 0) 1 b) t) _ (fun _ => at_ b t)); [|intros s; apply at_ext|done|done].
    + eapply win_bind_triple; [apply triple_attempt, neutral_call|]. intros [[]|e]; [|apply win_ret_triple].
      eapply win_bind_triple; [apply triple_acquire|]. intros [].
      eapply triple_weaken; [apply triple_release|intros ? H; exact H| |intros ? ? H; exact H]. intros [] s. apply at_ext.
      intros r. unfold plus. repeat case_decide; lia.
    + intros [| | | |[|j]| | | |]; unfold plus_all, plus; repeat case_decide; done || lia || congruence.
Qed.

Lemma bind_cases {E A B} (m : win E A) (f : A -> win E B) s :
  (m ≫= f) s = match m s with (Ok x, s') => f x s' | (Err e, s') => (Err e, s') end.
Proof. done. Qed.

Lemma neutral_d3d11_device : neutral create_d3d11_device.
Proof. apply neutral_calls. Qed.
End api.

Arguments system : clear implicits.

#[export] Hint Resolve neutral_ret neutral_call neutral_now neutral_fail neutral_note neutral_bind
  neutral_attempt neutral_on_error neutral_calls neutral_ignored neutral_held neutral_d3d11_device : win.
