(* ===== verification/DisplayDevices.v ===== *)
(** What the display thread sets up and how it decodes and presents a frame, call
    by call: the model of [worker_main], [run_worker] and [Presenter] in
    [src/sardp-win/src/display.rs], over [WinApi].  [DisplayWindow]
    models the same thread as the client sees it; [frames_as_the_window_has_them]
    says that the one implements the other.  Arguments of the calls that only
    configure are left out. *)

From S2P Require Import Prelude.
From S2P Require Import StreamKind.
From S2P Require Import WinApi.
From S2P Require DisplayWindow.
Import DisplayWindow (SubmittedFrame, FrameTiming, sf_generation, sf_width, sf_height, sf_receive_ts, timing_of).

(** * Definitions *)

Section display.
(** [windows::core::Error], the error a message gives and the one for a type that
    there is none of. *)
Context {Error : Type}.
Variables (E_FAIL : string -> Error) (MF_E_NO_MORE_TYPES : Error).

Local Notation win := (win (Error := Error)).
Local Notation failure := (failure (Error := Error)).

(** What the machine has: how many decoders there are, what they put out, and
    whether the handle of the swap chain is one. *)
Record machine := {
  decoders : nat;
  offered : list string;
  provides_samples : bool;
  waitable_valid : bool;
}.

(** ** Setting up *)

Definition create_window : win Error unit :=
  _ ← call "GetModuleHandleW";
  _ ← ignored ["RegisterClassW"];
  _ ← calls ["AdjustWindowRect"; "CreateWindowExW"];
  ignored ["ShowWindow"].

(** The handle is the caller's to close. *)
Definition create_swap_chain (m : machine) : win Error unit :=
  _ ← calls ["cast IDXGIDevice"; "GetAdapter"; "GetParent"; "CreateSwapChainForHwnd"; "cast IDXGISwapChain2";
             "SetMaximumFrameLatency"];
  _ ← note (Called "GetFrameLatencyWaitableObject");
  if negb (waitable_valid m) then fail (E_FAIL "GetFrameLatencyWaitableObject returned an invalid handle")
  else acquire Waitable.

(** The caller owns the first [IMFActivate]. *)
Definition find_h264_decoder (m : machine) : win Error unit :=
  find_first_mft (decoders m) (E_FAIL "no synchronous H.264 decoder MFT found").

(** Over the types offered from an index on. *)
Fixpoint set_nv12_output_type (types : list string) : win Error unit :=
  _ ← call "GetOutputAvailableType";
  match types with
  | [] => fail MF_E_NO_MORE_TYPES
  | subtype :: types =>
      _ ← call "GetGUID";
      if String.eqb subtype "NV12" then call "SetOutputType" else set_nv12_output_type types
  end.

(** The block that asks for low latency; what it is refused does not matter. *)
Definition ask_low_latency : win Error unit :=
  _ ← ignored ["GetAttributes"; "SetUINT32 MF_LOW_LATENCY"];
  ignored ["cast ICodecAPI"; "SetValue CODECAPI_AVLowLatencyMode"].

(** What follows the [IMFActivate], which goes at the end. *)
Definition configure_decoder (m : machine) : win Error unit :=
  _ ← call "ActivateObject";
  _ ← ask_low_latency;
  _ ← calls ["MFT_MESSAGE_SET_D3D_MANAGER"; "MFCreateMediaType"; "SetGUID MF_MT_MAJOR_TYPE"; "SetGUID MF_MT_SUBTYPE";
             "SetUINT32 MF_MT_INTERLACE_MODE"; "SetUINT64 MF_MT_FRAME_SIZE"; "SetInputType"];
  _ ← set_nv12_output_type (offered m);
  _ ← call "GetOutputStreamInfo";
  if negb (provides_samples m) then
    fail (E_FAIL "decoder MFT does not provide its own (D3D11) output samples; CPU output path not implemented")
  else calls ["MFT_MESSAGE_NOTIFY_BEGIN_STREAMING"; "MFT_MESSAGE_NOTIFY_START_OF_STREAM";
              "CreateVideoProcessorEnumerator"; "CreateVideoProcessor"].

Definition create_decoder (m : machine) (width height : Z) : win Error DisplayWindow.Decoder :=
  _ ← find_h264_decoder m;
  _ ← guarded (Activate 0) (configure_decoder m);
  mret {| DisplayWindow.d_width := width; DisplayWindow.d_height := height; DisplayWindow.frames_decoded := 0 |}.

(** ** A frame *)

(** The memory buffer of a sample: its size, what is copied into it, and the
    sample's time. *)
Record Sample := { allocated : Z; copied : list Z; sample_time : Z }.

Definition annex_b_sample (annex_b : list Z) (receive_ts : Z) : win Error Sample :=
  _ ← calls ["MFCreateMemoryBuffer"; "Lock"; "Unlock"; "SetCurrentLength"; "MFCreateSample"; "AddBuffer";
             "SetSampleTime"];
  mret {| allocated := wrap 32 (Z.of_nat (length annex_b)); copied := annex_b;
          sample_time := swrap 64 (swrap 64 receive_ts * 10) |}.

Definition decoded_texture : win Error unit :=
  calls ["GetBufferByIndex"; "cast IMFDXGIBuffer"; "GetResource"; "GetSubresourceIndex"].

(** The input view is released by hand once the blit was tried, and by its
    pointer if it comes to none. *)
Definition present_nv12 : win Error unit :=
  _ ← calls ["cast ID3D11Resource"; "CreateVideoProcessorInputView"];
  _ ← (_ ← acquire InputView;
       guarded InputView
         (calls ["GetBuffer"; "cast ID3D11Resource"; "CreateVideoProcessorOutputView"; "VideoProcessorBlt"]));
  call "Present".

(** What [ProcessOutput] answers, before it wants more input: an output, perhaps
    without a sample, and whether the swap chain is ready for it; new stream
    parameters, with the types that are offered then; an error. *)
Inductive output :=
| Picture (sample ready : bool)
| StreamChange (types : list string)
| Failed (e : Error).

Fixpoint process_outputs (frame : SubmittedFrame) (dequeue_ts : Z) (d : DisplayWindow.Decoder) (ts : list FrameTiming)
    (outputs : list output) : win Error (list FrameTiming * DisplayWindow.Decoder) :=
  _ ← note (Called "ProcessOutput");
  match outputs with
  | [] => mret (ts, d)
  | Failed e :: _ => fail e
  | StreamChange types :: outputs =>
      _ ← set_nv12_output_type types; process_outputs frame dequeue_ts d ts outputs
  | Picture false _ :: outputs => process_outputs frame dequeue_ts d ts outputs
  | Picture true ready :: outputs =>
      decode_done_ts ← now;
      let d := {| DisplayWindow.d_width := DisplayWindow.d_width d; DisplayWindow.d_height := DisplayWindow.d_height d;
                  DisplayWindow.frames_decoded := wrap 64 (DisplayWindow.frames_decoded d + 1) |} in
      _ ← decoded_texture;
      _ ← note (Called "WaitForSingleObject");
      _ ← (if (ready : bool) then present_nv12 else mret tt);
      display_ts ← now;
      process_outputs frame dequeue_ts d (ts ++ [timing_of frame dequeue_ts decode_done_ts display_ts ready]) outputs
  end.

Definition decode_and_present (m : machine) (frame : SubmittedFrame) (dequeue_ts : Z) (outputs : list output)
    (decoder : option DisplayWindow.Decoder) : win Error (list FrameTiming * DisplayWindow.Decoder) :=
  d ← match decoder with
      | Some d =>
          if negb (DisplayWindow.d_width d =? sf_width frame) || negb (DisplayWindow.d_height d =? sf_height frame)
          then create_decoder m (sf_width frame) (sf_height frame) else mret d
      | None => create_decoder m (sf_width frame) (sf_height frame)
      end;
  _ ← annex_b_sample (DisplayWindow.annex_b frame) (sf_receive_ts frame);
  _ ← call "ProcessInput";
  process_outputs frame dequeue_ts d [] outputs.

(** ** The thread *)

(** A turn of the loop that does not end it by itself: nothing to receive, or a
    frame, with the newest generation then, what the decoder answers and how many
    timings are received. *)
Inductive turn :=
| Timeout
| Frame (frame : SubmittedFrame) (newest_generation : Z) (outputs : list output) (received : nat).

(** How the loop ends in the end: the user closed the window, [closed] was set, or
    the client is gone. *)
Inductive ending := Quits | SeesClosed | Disconnected.

Definition step {A} (ctx : string) (m : win Error A) : win failure A := on_error (fun e => (ctx, e)) m.

Fixpoint serve (m : machine) (turns : list turn) (final : ending) (decoder : option DisplayWindow.Decoder) :
    win failure unit :=
  match turns with
  | [] => match final with Disconnected => ignored ["DestroyWindow"] | _ => mret tt end
  | Timeout :: turns => serve m turns final decoder
  | Frame frame newest outputs received :: turns =>
      if sf_generation frame <? newest then serve m turns final decoder
      else
        dequeue_ts ← now;
        '(timing, d) ← step "decode/present" (decode_and_present m frame dequeue_ts outputs decoder);
        if decide (length timing <= received)%nat then serve m turns final (Some d) else mret tt
  end.

Definition find_context : string := "find decoder MFT".

(** What [run_worker] does under the guard of the window's state. *)
Definition run_with_window (m : machine) (turns : list turn) (final : ending) : win failure unit :=
  _ ← step "D3D11CreateDevice" create_d3d11_device;
  _ ← step "ID3D11Multithread" (call "cast ID3D11Multithread");
  _ ← note (Called "SetMultithreadProtected");
  _ ← step "ID3D11VideoDevice" (call "cast ID3D11VideoDevice");
  _ ← step "ID3D11VideoContext" (call "cast ID3D11VideoContext");
  _ ← step "MFCreateDXGIDeviceManager" (call "MFCreateDXGIDeviceManager");
  _ ← step "ResetDevice" (call "ResetDevice");
  _ ← step "CreateSwapChainForHwnd" (create_swap_chain m);
  _ ← step find_context (find_h264_decoder m);
  _ ← release (Activate 0);
  _ ← report (Ok tt);
  guarded Waitable (serve m turns final None).

Definition run_worker (m : machine) (turns : list turn) (final : ending) : win failure unit :=
  _ ← step "create window" create_window;
  _ ← acquire UserData;
  guarded UserData (run_with_window m turns final).

Definition worker_main (m : machine) (turns : list turn) (final : ending) : win failure unit :=
  com ← attempt (call "CoInitializeEx");
  _ ← match com with Ok _ => acquire Com | Err _ => mret tt end;
  let uninitialize := match com with Ok _ => release Com | Err _ => mret tt end in
  started ← attempt (call "MFStartup");
  match started with
  | Err e => _ ← report (Err ("MFStartup"%string, e)); uninitialize
  | Ok _ =>
      _ ← acquire MediaFoundation;
      result ← attempt (run_worker m turns final);
      _ ← match result with Err e => _ ← report (Err e); mret tt | Ok _ => mret tt end;
      _ ← set_closed;
      _ ← release MediaFoundation;
      uninitialize
  end.

(** What [open] makes of the report; [None] if there is none within 15 s. *)
Definition open_result (describe : failure -> string) (reported : option (result failure unit)) :
    result DisplayWindow.WinDisplayError unit :=
  match reported with
  | Some r => map_err (fun e => DisplayWindow.Init (describe e)) r
  | None => Err (DisplayWindow.Init "display thread did not become ready within 15s")
  end.

(** * Lemmas *)

Lemma neutral_create_window : neutral create_window.
Proof. unfold create_window. eauto 10 with win. Qed.

Lemma neutral_set_nv12 types : neutral (set_nv12_output_type types).
Proof.
  induction types as [|t types IH]; cbn [set_nv12_output_type]; apply neutral_bind; auto with win.
  intros _. apply neutral_bind; [auto with win|]. intros _. destruct (String.eqb t "NV12"); auto with win.
Qed.

Lemma neutral_configure_decoder m : neutral (configure_decoder m).
Proof.
  unfold configure_decoder, ask_low_latency. repeat (apply neutral_bind; [auto using neutral_set_nv12 with win|intros _]).
  destruct (negb _); auto with win.
Qed.

Lemma triple_find m b t :
  triple (at_ b t) (find_h264_decoder m) (fun _ => at_ (plus (Activate 0) 1 b) t) (fun _ => at_ b t).
Proof. apply triple_find_first. Qed.

Lemma neutral_create_decoder m w h : neutral (create_decoder m w h).
Proof.
  intros b t. unfold create_decoder. eapply win_bind_triple; [apply triple_find|]. intros [].
  apply (win_bind_triple _ _ _ (fun _ => at_ b t)); [|intros []; apply win_ret_triple].
  eapply triple_weaken;
    [exact (triple_guarded _ (Activate 0) _ (fun _ => plus (Activate 0) 1 b) (fun _ => t) (fun _ => plus (Activate 0) 1 b)
       (fun _ => t) (neutral_configure_decoder m _ _))|done|..]; intros x s; apply at_ext; intros r; unfold plus;
    destruct (decide _); lia.
Qed.

Lemma neutral_sample bs ts : neutral (annex_b_sample bs ts).
Proof. unfold annex_b_sample. auto with win. Qed.

Lemma neutral_present : neutral present_nv12.
Proof. unfold present_nv12. auto 10 with win. Qed.

Lemma neutral_process_outputs frame q d ts outputs : neutral (process_outputs frame q d ts outputs).
Proof.
  revert d ts. induction outputs as [|o outputs IH]; intros d ts; cbn [process_outputs];
    (apply neutral_bind; [auto with win|intros _]); [auto with win|].
  destruct o as [[] ready|types|e]; [|apply IH| |auto with win].
  - apply neutral_bind; [auto with win|intros dd].
    apply neutral_bind; [unfold decoded_texture; auto with win|intros _].
    apply neutral_bind; [auto with win|intros _].
    apply neutral_bind; [destruct ready; [apply neutral_present|auto with win]|intros _].
    apply neutral_bind; [auto with win|intros dt; apply IH].
  - apply neutral_bind; [apply neutral_set_nv12|intros _; apply IH].
Qed.

Lemma neutral_decode_and_present m frame q outputs d : neutral (decode_and_present m frame q outputs d).
Proof.
  unfold decode_and_present. apply neutral_bind.
  { destruct d as [d|]; [destruct (_ || _)|]; auto using neutral_create_decoder with win. }
  intros d'. apply neutral_bind; [apply neutral_sample|intros _].
  apply neutral_bind; [auto with win|intros _]. apply neutral_process_outputs.
Qed.

Lemma neutral_serve m turns final d : neutral (serve m turns final d).
Proof.
  revert d. induction turns as [|[|frame newest outputs received] turns IH]; intros d; cbn [serve]; [|apply IH|].
  { destruct final; auto with win. }
  destruct (_ <? _); [apply IH|]. apply neutral_bind; [auto with win|intros q].
  apply neutral_bind; [apply neutral_on_error, neutral_decode_and_present|intros [ts d']].
  destruct (decide _); [apply IH|auto with win].
Qed.

Lemma triple_swap_chain m b t :
  triple (at_ b t) (create_swap_chain m) (fun _ => at_ (plus Waitable 1 b) t) (fun _ => at_ b t).
Proof.
  unfold create_swap_chain. eapply win_bind_triple; [apply neutral_calls|]. intros [].
  eapply win_bind_triple; [apply neutral_note|]. intros [].
  destruct (negb _); [apply triple_fail|apply triple_acquire].
Qed.

(** A step that leaves everything as it was, in front of others. *)
Lemma step_neutral {A B} (P : system Error -> Prop) b t ctx (m : win Error A) (f : A -> win failure B) Q R :
  (forall s, P s -> at_ b t s) -> (forall e s, at_ b t s -> R (ctx, e) s) -> neutral m ->
  (forall x, triple (at_ b t) (f x) Q R) -> triple P (step ctx m ≫= f) Q R.
Proof.
  intros HP HR Hm Hf. eapply win_bind_triple; [|exact Hf]. apply triple_on_error.
  eapply triple_weaken; [apply Hm|exact HP|by intros x s|]. intros e s. apply HR.
Qed.

(** What is left of [b] when a thread fails: all of it, unless it fails for want
    of a decoder, which comes after the handle of the swap chain and before the
    guard that closes it. *)
Definition left_over (e : failure) (b : resource -> Z) : resource -> Z :=
  if decide (e.1 = find_context) then plus Waitable 1 b else b.

Definition failed (b : resource -> Z) (c : bool) (e : failure) (s : system Error) : Prop :=
  at_ b (false, [Ok tt], c) s \/ at_ (left_over e b) (true, [], c) s.

Lemma triple_serving m turns final b c :
  triple (at_ (plus Waitable 1 b) (false, [Ok tt], c)) (guarded Waitable (serve m turns final None))
    (fun _ => at_ b (false, [Ok tt], c)) (failed b c).
Proof.
  eapply triple_weaken;
    [exact (triple_guarded _ Waitable _ (fun _ => plus Waitable 1 b) (fun _ => (false, [Ok tt], c))
       (fun _ => plus Waitable 1 b) (fun _ => (false, [Ok tt], c)) (neutral_serve m turns final None _ _))|done|..];
    intros x s Hs; [|left]; eapply at_ext; try exact Hs; intros r; unfold plus; destruct (decide _); lia.
Qed.

Lemma triple_run_with_window m turns final b c :
  triple (at_ b (true, [], c)) (run_with_window m turns final) (fun _ => at_ b (false, [Ok tt], c)) (failed b c).
Proof.
  assert (forall ctx e s, ctx <> find_context -> at_ b (true, [], c) s -> failed b c (ctx, e) s) as Hfail.
  { intros ctx e s Hc Hs. right. unfold left_over. by rewrite decide_False. }
  unfold run_with_window.
  repeat lazymatch goal with
    | |- triple _ (step _ (create_swap_chain _) ≫= _) _ _ => fail
    | |- triple _ (step ?ctx ?n ≫= ?f) _ _ =>
        refine (step_neutral _ b (true, [], c) ctx n f _ _ _ _ _ _);
          [done|by intros e s; apply Hfail|auto with win|intros []; cbn beta]
    | |- triple _ (mbind _ (note (Called ?a))) _ _ =>
        eapply win_bind_triple; [exact (triple_called _ _ a _)|intros []; cbn beta]
    end.
  eapply win_bind_triple.
  { apply triple_on_error. eapply triple_weaken; [apply triple_swap_chain|done|by intros x s|].
    intros e s. by apply Hfail. }
  intros []. eapply win_bind_triple.
  { apply triple_on_error. eapply triple_weaken; [apply triple_find|done|by intros x s|].
    intros e s Hs. right. unfold left_over. by rewrite decide_True. }
  intros []. eapply win_bind_triple; [apply triple_release|]. intros [].
  eapply win_bind_triple; [apply triple_report|]. intros x.
  eapply triple_weaken; [apply (triple_serving m turns final b c)| |intros ? ? H; exact H|intros ? ? H; exact H]. intros s [_ Hs]. eapply at_ext; [|exact Hs].
  intros r. unfold plus. repeat case_decide; lia.
Qed.

Lemma triple_run_worker m turns final b c :
  triple (at_ b (true, [], c)) (run_worker m turns final) (fun _ => at_ b (false, [Ok tt], c)) (failed b c).
Proof.
  unfold run_worker. apply (step_neutral _ b (true, [], c)); [done| |apply neutral_create_window|].
  { intros e s Hs. right. unfold left_over. by rewrite decide_False. }
  intros []. eapply win_bind_triple; [apply triple_acquire|]. intros [] s Hs.
  pose proof (triple_run_with_window m turns final (plus UserData 1 b) c s Hs) as Hr. unfold guarded.
  destruct (run_with_window m turns final s) as [[[]|e] s']; cbn.
  - eapply at_ext; [|by apply at_note]. intros r. unfold plus, delta. repeat case_decide; lia || congruence.
  - destruct Hr as [Hr|Hr]; [left|right]; (eapply at_ext; [|by apply at_note]); intros r; unfold left_over, plus, delta;
      repeat case_decide; lia || congruence.
Qed.

(** What [worker_main] does between the two ends of COM and Media Foundation. *)
Definition main_post (b : resource -> Z) (s : system Error) : Prop :=
  exists r, reported s = [r] /\
    (forall x, balance (log s) x = match r with Err e => left_over e b x | Ok _ => b x end) /\
    (closed s = true \/ exists e, r = Err ("MFStartup"%string, e)).

Lemma left_over_shift e b b' : (forall x, b x = b' x) -> forall x, left_over e b x = left_over e b' x.
Proof. intros H x. unfold left_over, plus. case_decide; by rewrite H. Qed.

Lemma left_over_plus e b r n x : left_over e (plus r n b) x = plus r n (left_over e b) x.
Proof. unfold left_over, plus. repeat case_decide; lia. Qed.

(** The thread behind [CoInitializeEx]; [k] is 1 if COM has to be given back. *)
Lemma main_behind_com m turns final b c (com : result Error unit) :
  let k := match com with Ok _ => 1 | Err _ => 0 end in
  triple (at_ (plus Com k b) (true, [], c))
    (let uninitialize := match com with Ok _ => release Com | Err _ => mret tt end in
     started ← attempt (call "MFStartup");
     match started with
     | Err e => _ ← report (Err ("MFStartup"%string, e)); uninitialize
     | Ok _ =>
         _ ← acquire MediaFoundation;
         result ← attempt (run_worker m turns final);
         _ ← match result with Err e => _ ← report (Err e); mret tt | Ok _ => mret tt end;
         _ ← set_closed;
         _ ← release MediaFoundation;
         uninitialize
     end : win failure unit)
    (fun _ => main_post b) (fun _ _ => False).
Proof.
  intros k. cbn zeta.
  assert (forall b' t (P : system Error -> Prop),
    (forall s, at_ (plus Com (- k) b') t s -> P s) ->
    triple (at_ b' t) (match com with Ok _ => release Com | Err _ => mret tt end : win failure unit) (fun _ => P)
      (fun _ _ => False)) as Hun.
  { intros b' t P HP. destruct com as [[]|e]; intros s Hs; cbn.
    - apply HP. exact (at_note _ _ (Released Com) _ Hs).
    - apply HP. eapply at_ext; [|exact Hs]. intros r. unfold plus, k. case_decide; lia. }
  eapply win_bind_triple; [apply triple_attempt, neutral_call|]. intros [[]|e]; cbn beta iota.
  2: { eapply win_bind_triple; [apply triple_report|]. intros x. apply (triple_weaken _ (at_ (plus Com k b) (false, [] ++ [Err ("MFStartup"%string, e)], c)) _ _ (fun _ => main_post b) _ (fun _ _ => False)); [|by intros s [_ Hs]|done|done].
       apply Hun. intros s [Hs [= Ht Hr Hc]]. exists (Err ("MFStartup"%string, e)). split; [done|]. split; [|by right; eexists].
       intros x'. rewrite Hs. unfold left_over. rewrite decide_False by done. unfold plus. case_decide; lia. }
  eapply win_bind_triple; [apply triple_acquire|]. intros [].
  eapply win_bind_triple; [apply triple_attempt, triple_run_worker|]. intros res.
  set (b1 := plus MediaFoundation 1 (plus Com k b)).
  apply (win_bind_triple _ _ _ (fun _ s => exists r,
    at_ (match r with Err e => left_over e b1 | Ok _ => b1 end) (false, [r], c) s)).
  { destruct res as [[]|e].
    - intros s Hs. by exists (Ok tt).
    - intros s [Hs|Hs]; [exists (Ok tt)|exists (Err e)].
      + pose proof (triple_report_taken (E := failure) b1 [Ok tt] c (Err e) (fun _ _ => False) s Hs) as Hr. cbn in *. tauto.
      + pose proof (triple_report (E := failure) (left_over e b1) [] c (Err e) (fun _ _ => False) s Hs) as Hr. cbn in *. tauto. }
  intros [] s [r Hs]. revert s Hs.
  match goal with |- forall s, ?P s -> match ?n s with _ => _ end => change (triple P n (fun _ => main_post b) (fun _ _ => False)) end.
  eapply win_bind_triple; [apply triple_set_closed|]. intros [].
  eapply win_bind_triple; [apply triple_release|]. intros [].
  apply Hun. intros s [Hs [= Ht Hr Hc]]. exists r. split; [done|]. split; [|by left].
  intros x. rewrite Hs. destruct r as [[]|e]; unfold b1.
  - unfold plus. repeat case_decide; lia || congruence.
  - unfold plus at 1 2. rewrite left_over_plus. unfold plus at 1. rewrite left_over_plus. unfold plus. repeat case_decide;
      lia || congruence.
Qed.

(** *** The window's view of a frame *)

Definition is_picture (o : output) : bool := match o with Picture true _ => true | _ => false end.

(** An answer as the window keeps it. *)
Definition shown {A} (show : Error -> string) (r : result Error A) : result string unit :=
  match r with Ok _ => Ok tt | Err e => Err (show e) end.

(** The events that [DisplayWindow] has for what the decoder puts out, from the
    answers and clock readings to come: getting the texture is asked for every
    picture, presenting it for those the swap chain is ready for, and the clock is
    read before and after. *)
Fixpoint output_events (show : Error -> string) (outputs : list output) (s : system Error) :
    list DisplayWindow.output_event * result string unit :=
  let s := (note (E := Error) (Called "ProcessOutput") s).2 in
  match outputs with
  | [] => ([], Ok tt)
  | Failed e :: _ => ([], Err (show e))
  | StreamChange types :: outputs =>
      let '(r, s) := set_nv12_output_type types s in
      let '(evs, last) := output_events show outputs s in
      (DisplayWindow.StreamChange (shown show r) :: evs, last)
  | Picture false _ :: outputs =>
      let '(evs, last) := output_events show outputs s in
      (DisplayWindow.NoSample :: evs, last)
  | Picture true ready :: outputs =>
      let before := hd 0 (clock s) in
      let '(texture, s) := decoded_texture (now (E := Error) s).2 in
      let s := (note (E := Error) (Called "WaitForSingleObject") s).2 in
      let '(presented, s) := if ready then present_nv12 s else (Ok tt, s) in
      let after := hd 0 (clock s) in
      let '(evs, last) := output_events show outputs (now (E := Error) s).2 in
      (DisplayWindow.Sample (shown show texture) ready (shown show presented) before after :: evs, last)
  end.

(** The script that [DisplayWindow] has for a frame, from the answers to come: those of
    creating a decoder, if one is needed, of making the sample, of [ProcessInput],
    and of what the outputs take. *)
Definition script_of (show : Error -> string) (m : machine) (frame : SubmittedFrame) (outputs : list output)
    (d : option DisplayWindow.Decoder) (s : system Error) : DisplayWindow.decode_script :=
  let '(created, s) :=
    if DisplayWindow.needs_new_decoder d frame then
      let '(r, s) := create_decoder m (sf_width frame) (sf_height frame) s in (shown show r, s)
    else (Ok tt, s) in
  let '(built, s) := annex_b_sample (DisplayWindow.annex_b frame) (sf_receive_ts frame) s in
  let '(taken, s) := call "ProcessInput" s in
  let '(evs, last) := output_events show outputs s in
  {| DisplayWindow.created := created; DisplayWindow.sample_built := shown show built;
     DisplayWindow.input_taken := shown show taken; DisplayWindow.outputs := evs;
     DisplayWindow.last_output := last |}.

(** The timings and the decoder agree, or the errors do. *)
Definition agrees {D} (show : Error -> string) (some : DisplayWindow.Decoder -> D)
    (r : result Error (list FrameTiming * DisplayWindow.Decoder)) (w : result string (list FrameTiming) * D) : Prop :=
  match r, w with
  | Ok (ts, d), (Ok ts', d') => ts' = ts /\ d' = some d
  | Err e, (Err e', _) => e' = show e
  | _, _ => False
  end.

Lemma process_outputs_seen show frame q outputs d ts s :
  let '(evs, last) := output_events show outputs s in
  (length (List.filter DisplayWindow.is_sample evs) <= length (List.filter is_picture outputs))%nat /\
  agrees show (fun d => d) (process_outputs frame q d ts outputs s).1 (DisplayWindow.process_outputs frame q last d ts evs).
Proof.
  revert d ts s. induction outputs as [|o outputs IH]; intros d ts s; cbn [process_outputs output_events].
  { by rewrite bind_cases. }
  rewrite bind_cases. unfold note at 1. cbn [note snd]. set (s1 := with_log _ s).
  destruct o as [[] ready|types|e].
  - rewrite bind_cases. change (now s1) with (Ok (hd 0 (clock s1)) : result Error Z, (now (E := Error) s1).2).
    cbn [snd]. cbv beta iota zeta. set (dd := hd 0 (clock s1)). set (s2 := (now (E := Error) s1).2).
    set (d1 := DisplayWindow.Build_Decoder _ _ _). rewrite bind_cases.
    destruct (decoded_texture s2) as [tx s3]. cbv beta iota zeta. set (s4 := with_log _ s3).
    destruct (if ready then present_nv12 s4 else (Ok tt, s4)) as [pr s5] eqn:Ep. cbv beta iota zeta.
    set (s6 := (now (E := Error) s5).2). set (dt := hd 0 (clock s5)).
    pose proof (IH d1 (ts ++ [timing_of frame q dd dt ready]) s6) as Hi.
    destruct (output_events show outputs s6) as [evs last]. destruct Hi as [Hl Ha].
    cbv beta iota. cbn [List.filter is_picture DisplayWindow.is_sample length]. split; [lia|].
    destruct tx as [[]|e]; [|done]. rewrite bind_cases.
    change (note (E := Error) (Called "WaitForSingleObject") s3) with (Ok tt : result Error unit, s4).
    cbv beta iota. rewrite bind_cases.
    replace ((if ready then present_nv12 else mret tt) s4) with (pr, s5) by (rewrite <- Ep; by destruct ready).
    destruct pr as [[]|e].
    + rewrite bind_cases. change (now s5) with (Ok dt : result Error Z, s6). cbn [DisplayWindow.process_outputs shown].
      by destruct ready.
    + destruct ready; [done|discriminate Ep].
  - pose proof (IH d ts s1) as Hi. by destruct (output_events show outputs s1) as [evs last].
  - rewrite bind_cases. destruct (set_nv12_output_type types s1) as [r s2]. pose proof (IH d ts s2) as Hi.
    destruct (output_events show outputs s2) as [evs last]. destruct Hi as [Hl Ha].
    by destruct r as [[]|e].
  - split; [cbn; lia|done].
Qed.

Lemma create_decoder_result m w h s d s' :
  create_decoder m w h s = (Ok d, s') -> d = DisplayWindow.Build_Decoder w h 0.
Proof.
  unfold create_decoder. rewrite bind_cases. destruct (find_h264_decoder m s) as [[[]|e] s1]; [|done].
  rewrite bind_cases. destruct (guarded _ _ s1) as [[[]|e] s2]; [|done]. by intros [= <- _].
Qed.

(** * Properties *)

(** C26: The thread answers, and gives back what it took.  Whichever calls fail, and
    whatever comes in: the thread says exactly once whether it is ready; when it
    ends it has given back COM, Media Foundation, the window's state, every
    decoder it enumerated and every view, and the handle of the swap chain too
    unless it found no decoder; and unless Media Foundation did not start, the
    window is marked closed. *)
Theorem thread_answers_and_releases m turns final s :
  ready_tx s = true -> reported s = [] ->
  exists s' r, worker_main m turns final s = (Ok tt, s') /\ reported s' = [r] /\
    (forall x, balance (log s') x = match r with Err e => left_over e (balance (log s)) x | Ok _ => balance (log s) x end) /\
    (closed s' = true \/ exists e, r = Err ("MFStartup"%string, e)).
Proof.
  intros Ht Hr.
  assert (triple (at_ (balance (log s)) (true, [], closed s)) (worker_main m turns final) (fun _ => main_post (balance (log s)))
    (fun _ _ => False)) as Hm.
  { unfold worker_main. eapply win_bind_triple; [apply triple_attempt, neutral_call|]. intros com.
    apply (win_bind_triple _ _ _ (fun _ => at_ (plus Com (match com with Ok _ => 1 | Err _ => 0 end) (balance (log s)))
      (true, [], closed s))).
    - destruct com as [[]|e]; [apply triple_acquire|]. intros s' Hs. eapply at_ext; [|exact Hs].
      intros x. unfold plus. case_decide; lia.
    - intros []. apply main_behind_com. }
  specialize (Hm s). destruct (worker_main m turns final s) as [[[]|e] s'].
  - destruct Hm as (r & H1 & H2 & H3); [by rewrite <- Ht, <- Hr|]. by exists s', r.
  - destruct Hm. by rewrite <- Ht, <- Hr.
Qed.

(** C23: A frame is what the window has it to be.  Decoding and presenting a frame call
    by call is [DisplayWindow.decode_and_present] on the script that the answers
    make: it gives the same timings and the same decoder, or fails with the same
    error.  The script is the function [script_of] of the answers and clock
    readings to come, in the order in which they are asked for: of creating a
    decoder exactly if the one at hand does not have the frame's size, of making
    the sample, of [ProcessInput], and then of each output, with the readings
    before and after its presentation, which is asked for only if the swap chain
    is ready.  It has no more pictures than the decoder put out. *)
Theorem frames_as_the_window_has_them show m frame q outputs d s :
  let sc := script_of show m frame outputs d s in
  (length (List.filter DisplayWindow.is_sample (DisplayWindow.outputs sc)) <= length (List.filter is_picture outputs))%nat /\
  agrees show Some (decode_and_present m frame q outputs d s).1 (DisplayWindow.decode_and_present frame q sc d).
Proof.
  unfold decode_and_present, script_of. rewrite bind_cases.
  set (make := create_decoder m (sf_width frame) (sf_height frame)).
  set (ensure := match d with Some _ => _ | None => make end).
  assert (exists r s1, ensure s = (r, s1) /\
    (if DisplayWindow.needs_new_decoder d frame then let '(r, s) := make s in (shown show r, s) else (Ok tt, s))
    = (shown show r, s1) /\
    forall built taken evs last,
    DisplayWindow.decode_and_present frame q (DisplayWindow.Build_decode_script (shown show r) built taken evs last) d
    = match r with
      | Err e => (Err (show e), d)
      | Ok d1 =>
          match (_ ← built; taken) with
          | Err e => (Err e, Some d1)
          | Ok _ => let '(r, d'') := DisplayWindow.process_outputs frame q last d1 [] evs in (r, Some d'')
          end
      end) as (r & s1 & -> & -> & Hwin).
  { unfold DisplayWindow.decode_and_present, DisplayWindow.needs_new_decoder. subst ensure.
    destruct d as [d|]; [destruct (_ || _)|]; [| |].
    - destruct (make s) as [r s1] eqn:Em. exists r, s1. split; [done|]. split; [done|]. intros built taken evs last.
      destruct r as [d1|e]; [|done]. by apply create_decoder_result in Em as ->.
    - by exists (Ok d), s.
    - destruct (make s) as [r s1] eqn:Em. exists r, s1. split; [done|]. split; [done|]. intros built taken evs last.
      destruct r as [d1|e]; [|done]. by apply create_decoder_result in Em as ->. }
  destruct (annex_b_sample _ _ s1) as [rb s2] eqn:Eb. destruct (call "ProcessInput" s2) as [rt s3] eqn:Et.
  assert (forall d1, let '(evs, last) := output_events show outputs s3 in
    (length (List.filter DisplayWindow.is_sample evs) <= length (List.filter is_picture outputs))%nat /\
    agrees show (fun d => d) (process_outputs frame q d1 [] outputs s3).1
      (DisplayWindow.process_outputs frame q last d1 [] evs)) as Hout by (intros d1; apply process_outputs_seen).
  destruct (output_events show outputs s3) as [evs last]. rewrite Hwin. cbn [DisplayWindow.outputs].
  split; [apply (Hout (DisplayWindow.Build_Decoder 0 0 0))|].
  destruct r as [d1|e]; [|done]. destruct (Hout d1) as [_ Ha]. rewrite bind_cases, Eb.
  destruct rb as [x|e]; [|done]. rewrite bind_cases, Et. destruct rt as [[]|e]; [|done]. cbn.
  unfold agrees in *. destruct (process_outputs _ _ _ _ _ s3) as [[[ts d2]|e] s4], (DisplayWindow.process_outputs _ _ _ _ _ _) as [[ts'|e'] d3];
    cbn in *; try done. by destruct Ha as [-> ->].
Qed.

(** The memory of a sample is as large as what is copied into it, for every frame
    that an envelope can carry. *)
Theorem sample_has_room annex_b receive_ts s x s' :
  Z.of_nat (length annex_b) <= max_envelope_length Video ->
  annex_b_sample annex_b receive_ts s = (Ok x, s') ->
  allocated x = Z.of_nat (length (copied x)).
Proof.
  intros Hl. unfold annex_b_sample. rewrite bind_cases. destruct (calls _ s) as [[[]|e] s1]; [|done].
  intros [= <- _]. cbn. pose proof (max_envelope_length_bound Video). apply wrap_small. unfold in_width. lia.
Qed.
End display.

Module Examples.

Definition pc : machine := {| decoders := 2; offered := ["YV12"; "NV12"]%string; provides_samples := true; waitable_valid := true |}.

Definition begun (answers : list (option string)) : system string :=
  {| answers := answers; clock := [5; 6; 7]; log := []; ready_tx := true; reported := []; closed := false |}.

Definition picture : SubmittedFrame :=
  {| DisplayWindow.sf_generation := 0; DisplayWindow.sf_frame_id := 9; DisplayWindow.sf_is_idr := true;
     DisplayWindow.sf_width := 64; DisplayWindow.sf_height := 48; DisplayWindow.annex_b := [0; 0; 1];
     DisplayWindow.sf_receive_ts := 4 |}.

Definition run (m : machine) (turns : list turn) (answers : list (option string)) :=
  worker_main id "no more types"%string m turns Quits (begun answers).

Lemma thread_answers_and_releases_witness :
  exists s' r, run pc [Timeout; Frame picture 0 [StreamChange ["NV12"%string]; Picture true true] 1] [] = (Ok tt, s') /\
    reported s' = [r] /\ closed s' = true /\ balance (log s') Waitable = 0.
Proof.
  destruct (thread_answers_and_releases id "no more types"%string pc
    [Timeout; Frame picture 0 [StreamChange ["NV12"%string]; Picture true true] 1] Quits (begun []) eq_refl eq_refl)
    as (s' & r & E & Hr & Hb & Hc).
  vm_compute in E. injection E as <-. do 2 eexists. split; [vm_compute; reflexivity|]. split; [exact Hr|].
  split; vm_compute; reflexivity.
Defined.

Lemma sample_has_room_witness :
  exists x s', annex_b_sample [0; 0; 1] 4 (begun []) = (Ok x, s') /\ allocated x = 3.
Proof.
  do 2 eexists. split; [reflexivity|].
  exact (sample_has_room [0; 0; 1] 4 (begun []) _ _ ltac:(vm_compute; discriminate) eq_refl).
Defined.

(** A machine without a decoder: the handle of the swap chain is not closed. *)
Example no_decoder_leaks_the_handle :
  let s' := (run {| decoders := 0; offered := []; provides_samples := true; waitable_valid := true |} [] []).2 in
  reported s' = [Err (find_context, "no synchronous H.264 decoder MFT found"%string)] /\
  balance (log s') Waitable = 1 /\ balance (log s') Com = 0.
Proof. vm_compute. done. Qed.

(** A device that cannot be made is reported with its step. *)
Example no_device_is_reported :
  reported (run pc [] (replicate 9 None ++ [Some "lost"%string])).2 = [Err ("D3D11CreateDevice", "lost")]%string.
Proof. vm_compute. reflexivity. Qed.

(** A decoder without NV12 ends the thread at its first frame, after it said it
    was ready. *)
Example wrong_output_type :
  let s' := (run {| decoders := 1; offered := ["YV12"%string]; provides_samples := true; waitable_valid := true |}
               [Frame picture 0 [] 0] []).2 in
  reported s' = [Ok tt] /\ closed s' = true /\ balance (log s') (Activate 0) = 0 /\ balance (log s') Waitable = 0.
Proof. vm_compute. done. Qed.
End Examples.
