(* ===== verification/VideoPath.v ===== *)
(** From the server's frame source to the client's picture: the composition of
    [ServerConnection], [ServerSession] and [ServerVideo] with the client's side of
    [VideoSession].  No code of its own; the theorem says that what the one writes
    is what the other reads. *)

From S2P Require Import Prelude.
From S2P Require Import StreamKind.
From S2P Require Prologue.
From S2P Require Varint.
From S2P Require Envelope.
From S2P Require Import Async.
From S2P Require Import StreamReader.
From S2P Require Import Connection.
From S2P Require Import Messages.
From S2P Require Import MessageCodecs.
From S2P Require Import Crypto.
From S2P Require Import Auth.
From S2P Require PermissionSet.
From S2P Require SessionStore.
From S2P Require TimecodeFrame.
From S2P Require Reconnection.
From S2P Require VideoSession.
From S2P Require ConnError.
From S2P Require Import ServerVideo.
From S2P Require Import ServerSession.
From S2P Require ServerConnection.
Import VideoSession (fits, frame_ok, frame_bytes, intro_bytes, intro_header, accept_video_instance, read_frames,
                     reader, pending_header).

(** * Definitions *)

(** An instance as the server has sent it: the frame that opened it and the frames
    behind it. *)
Record instance := {
  i_generation : Z;
  i_config_id : Z;
  i_config : EncoderConfig;
  i_idr : SourcedFrame;
  i_frames : list SourcedFrame;
}.

(** The frames behind the intro, as messages. *)
Definition messages (i : instance) : list (VideoFrameHeader * list Z) :=
  numbered (i_generation i) (i_config i) 1 (i_frames i).

Definition opening_header (i : instance) : VideoFrameHeader :=
  intro_header (i_generation i) (i_config_id i) (i_config i) (bytes (i_idr i)) (sf_capture_ts (i_idr i))
    (sf_encode_done_ts (i_idr i)).

(** What the client makes of the intro. *)
Definition intro (i : instance) : VideoSession.VideoInstanceIntro :=
  {| VideoSession.monitor_id := 0;
     VideoSession.generation := {| vsg_generation := i_generation i; vsg_config_id := i_config_id i |};
     VideoSession.encoder_config := i_config i;
     VideoSession.first_frame_header := opening_header i;
     VideoSession.first_frame_payload := bytes (i_idr i) |}.

Section bytes.
Context `{Transport}.
Context `{!Cbor VideoStreamGeneration, !Cbor EncoderConfig, !Cbor VideoFrameHeader}.

(** The streams of a session's instances, in order; the last is in use. *)
Definition streams (v : ServerVideo.video) : list SendStream := reset_streams v ++ [video_send v].

(** The stream up to and with the first [n] frames behind the intro. *)
Definition bytes_upto (n : nat) (i : instance) : list Z :=
  match Prologue.encode Video 1 0 [] with
  | Done pb =>
      pb ++ intro_bytes (i_generation i) (i_config_id i) (i_config i) (bytes (i_idr i)) (sf_capture_ts (i_idr i))
              (sf_encode_done_ts (i_idr i))
         ++ frame_bytes (take n (messages i))
  | Panicked => []
  end.

(** Every message is one the client's reader takes: the messages are no longer
    than its limit for a video stream. *)
Definition legible (i : instance) : Prop :=
  fits (encode {| vsg_generation := i_generation i; vsg_config_id := i_config_id i |}) /\
  fits (encode (i_config i)) /\ fits (encode (opening_header i)) /\ fits (bytes (i_idr i)) /\
  Forall (fun f => fits (encode f.1) /\ fits f.2) (messages i).

#[export] Instance legible_dec i : Decision (legible i).
Proof. unfold legible, fits. apply _. Defined.

(** The [k]-th stream of a session that started with generation [start]: an
    instance, opened by a frame that its source marks as an IDR. *)
Definition shows (start : Z) (config : EncoderConfig) (k : nat) (s : SendStream) (i : instance) : Prop :=
  i_generation i = wrap 64 (start + Z.of_nat k) /\ i_config i = config /\ is_idr (i_idr i) = true /\
  sent s = bytes_upto (length (i_frames i)) i.

(** * Lemmas *)

Lemma numbered_ok gen config k fs :
  Forall (fun f => fits (encode f.1) /\ fits f.2) (numbered gen config k fs) ->
  Forall (fun f => frame_ok f.1 f.2) (numbered gen config k fs).
Proof.
  revert k. induction fs as [|f fs IH]; intros k; cbn [numbered]; [done|].
  intros [[Hh Hp] Hfs]%Forall_cons. constructor; [by split_and!|by apply IH].
Qed.

Lemma length_messages i : length (messages i) = length (i_frames i).
Proof.
  unfold messages. generalize 1%nat as k. induction (i_frames i) as [|f fs IH]; intros k; cbn [numbered length]; [done|].
  by rewrite IH.
Qed.

(** What a stream carries, as an instance. *)
Lemma carries_instance gen config n s :
  carries gen config n s ->
  exists i, i_generation i = gen /\ i_config i = config /\ is_idr (i_idr i) = true /\
    length (i_frames i) = n /\ sent s = bytes_upto n i.
Proof.
  intros (pb & cid & idr & fs & Hpb & Hi & <- & Hs).
  exists {| i_generation := gen; i_config_id := cid; i_config := config; i_idr := idr; i_frames := fs |}.
  split_and!; [done..|]. unfold bytes_upto. rewrite Hpb, take_ge by (rewrite length_messages; done). exact Hs.
Qed.

Lemma streams_carry start config v k s :
  video_ok start config v -> streams v !! k = Some s ->
  exists n, carries (wrap 64 (start + Z.of_nat k)) config n s.
Proof.
  intros ((_ & Hr & Hg & n & _ & Hc) & _) [Hk|[Hk Hs]]%lookup_app_Some; [by apply Hr|].
  apply list_lookup_singleton_Some in Hs as [Hk' <-]. exists n.
  replace k with (length (reset_streams v)) by lia. by rewrite <- Hg.
Qed.

(** Whatever of an instance has arrived is read back. *)
Lemma instance_is_read `{!CborLaws VideoStreamGeneration, !CborLaws EncoderConfig, !CborLaws VideoFrameHeader}
    i n rest cl accepts evs w :
  legible i -> uni_accepts cl = AStream evs w :: accepts -> recv_bytes evs = bytes_upto n i ++ rest ->
  exists rd cl', accept_video_instance cl = (Ready (Ok (intro i, rd)), cl') /\
    forall attempts, (length (recv (reader rd)) < attempts)%nat ->
      exists rd', read_frames (length (take n (i_frames i))) attempts rd = (Ready (Ok (take n (messages i))), rd') /\
        pending_header rd' = None /\ stream_bytes (reader rd') = rest.
Proof.
  intros (Hg & Hc & Hh & Hi & Hfs) Ha Hb. unfold bytes_upto in Hb.
  destruct (Prologue.parse_encoded_prologue Video 1 0 []) as (pb & Hpb & _); [by vm_compute|].
  rewrite Hpb, <- !app_assoc in Hb.
  destruct (VideoSession.accept_intro_ok 0 (i_generation i) (i_config_id i) (i_config i) (bytes (i_idr i))
    (sf_capture_ts (i_idr i)) (sf_encode_done_ts (i_idr i)) pb (frame_bytes (take n (messages i)) ++ rest)
    cl accepts evs w) as (r & cl' & Er & Hr); [by vm_compute|done..|].
  exists {| reader := r; pending_header := None |}, cl'. split.
  { unfold accept_video_instance, VideoSession.accept_video_instance_within. by erewrite abind_ready by exact Er. }
  intros attempts Hl. rewrite length_take, <- length_messages, <- length_take.
  apply VideoSession.read_frames_ok; [|done..]. by apply Forall_take, numbered_ok.
Qed.
End bytes.

Section video_path.
Context `{Transport, Sha256, Ed25519, TlsExporter, SessionStore.CtEq, !SessionStore.CtEqLaws}.
Context `{!Cbor ClientHello, !Cbor ServerHello, !Cbor AuthPubkey, !Cbor AuthResult,
          !Cbor SessionReauthenticate}.
Context `{!Cbor VideoStreamGeneration, !Cbor EncoderConfig, !Cbor VideoFrameHeader}.
Context `{!CborLaws VideoStreamGeneration, !CborLaws EncoderConfig, !CborLaws VideoFrameHeader}.
Context `{!Cbor TimeSyncRequest, !Cbor TimeSyncResponse, !Cbor SessionClose, !Cbor KeepAlive,
          !Cbor PermissionUpdate}.
Context `{!Cbor FileTransferRequest, !Cbor FileTransferAccept, !Cbor FileTransferReject,
          !Cbor FileTransferError, !Cbor FileChunk, !Cbor FileTransferComplete}.
Context `{!Cbor TransportFeedback, !Cbor AudioSyncFeedback, !Cbor KeyframeRequest}.
Context `{!Cbor KeyEvent, !Cbor TextInput, !Cbor ImeComposition, !Cbor MouseMove, !Cbor MouseButton,
          !Cbor Wheel, !Cbor ImeModeChange}.
Context `{!Cbor AudioConfig, !Cbor AudioFrameHeader}.
Context `{!Cbor ClipboardFormats, !Cbor ClipboardRequest, !Cbor ClipboardData, !Cbor ClipboardError}.
Context {EncodeError JoinError : Type}.

Variable clock : nat -> Z.
Variable encode_task : TimecodeFrame.SyntheticFrame -> option (result JoinError (result EncodeError (list Z))).
Variable generate_sine_wave_payload : Z -> Z -> list Z.
Set Default Proof Using "Type*".

(** * Properties *)

(** C7: The client sees what the server sends.  Once a connection is established, new or
    resumed, and set up, then whatever turns its loop takes, every video stream
    the session uses is one instance, the [k]-th of the [k]-th generation from
    where the context starts, opened by a frame that its source marks as an IDR
    (whether the marked bytes hold the parameter sets is the source's affair).  If
    its messages are within the client's limit, a client that accepts the stream
    gets that generation, configuration and first frame, and reads as many of the
    frames behind it as have arrived, each with its time and its number, in order,
    however the transport cuts the stream and however often the read is dropped
    and called again. *)
Theorem client_sees_what_the_server_sends sname trusted challenge sid token c now s ctx s1 s0 p sm s2 events x k stream :
  fresh_opens (ServerConnection.connection s) ->
  ServerConnection.establish (EncodeError := EncodeError) (JoinError := JoinError) sname trusted challenge sid token s
    = (Ready (Ok (Reconnection.Established ctx)), s1) ->
  ServerConnection.set_up clock encode_task c now ctx s1 = (Ready (Ok (s0, p, sm)), s2) ->
  reaches clock encode_task generate_sine_wave_payload p s0 events x ->
  streams (video x) !! k = Some stream ->
  (exists i, shows (Reconnection.starting_generation ctx) (encoder_config p) k stream i) /\
  forall i n rest cl accepts evs w,
    shows (Reconnection.starting_generation ctx) (encoder_config p) k stream i -> legible i ->
    uni_accepts cl = AStream evs w :: accepts -> recv_bytes evs = bytes_upto n i ++ rest ->
    exists rd cl', accept_video_instance cl = (Ready (Ok (intro i, rd)), cl') /\
      forall attempts, (length (recv (reader rd)) < attempts)%nat ->
        exists rd', read_frames (length (take n (i_frames i))) attempts rd = (Ready (Ok (take n (messages i))), rd') /\
          pending_header rd' = None /\ stream_bytes (reader rd') = rest.
Proof.
  intros Hf He Hset Hr Hk. split; [|intros i n rest cl accepts evs w _; apply instance_is_read].
  pose proof (ServerConnection.established_streams clock encode_task generate_sine_wave_payload sname trusted challenge sid
    token c now s ctx s1 s0 p sm s2 Hf He Hset) as Hs0.
  destruct (reaches_streams clock encode_task generate_sine_wave_payload _ p s0 events x Hr Hs0) as [Hv _].
  destruct (streams_carry _ _ _ _ _ Hv Hk) as [m Hc].
  destruct (carries_instance _ _ _ _ Hc) as (i & Hg & Hcfg & Hi & <- & Hs). by exists i.
Qed.
End video_path.

(** ** Concrete runs *)

Module Examples.
#[local] Existing Instance plain_transport.
#[local] Existing Instance toy_sha256.
#[local] Existing Instance toy_ed25519.
#[local] Existing Instance toy_exporter.
#[local] Existing Instance SessionStore.plain_ct_eq.
#[local] Instance any_cbor `{Countable T} : Cbor T := countable_cbor.
#[local] Instance any_cbor_laws `{Countable T} : CborLaws T.
Proof. apply countable_cbor_laws. Defined.
Import ServerConnection.Examples (trusted, arriving, arriving_fresh, clock, no_encoder, silence, opening_idr).

Definition delta : FrameSource.EncodedFrame :=
  {| FrameSource.annex_b := [0; 0; 1; 0x41; 9]; FrameSource.ef_is_idr := false; FrameSource.ef_capture_ts := 21;
     FrameSource.ef_encode_done_ts := 24 |}.

(** The source delivers the frame the session opens with and another. *)
Definition desktop : ServerConnection.capture :=
  ServerConnection.CaptureDesktop ServerConnection.Windows
    (Ok ({| FrameSource.si_width := 16; FrameSource.si_height := 16; FrameSource.fps := 30;
            FrameSource.origin_x := 0; FrameSource.origin_y := 0 |}, [DesktopFrame opening_idr; DesktopFrame delta]))
    (Ok tt).

#[local] Notation establish :=
  (ServerConnection.establish (EncodeError := unit) (JoinError := unit) "s" trusted [9] [8] [6]).
#[local] Notation set_up := (ServerConnection.set_up clock no_encoder desktop 0).

(** What the stream is to show: generation 5, as the session is resumed. *)
Definition shown (config : EncoderConfig) : instance :=
  {| i_generation := 5; i_config_id := 0; i_config := config; i_idr := sourced opening_idr;
     i_frames := [sourced delta] |}.

(** The stream in two pieces; between them the read is dropped once. *)
Definition arrives (bs : list Z) : Connection :=
  {| uni_accepts := [AStream [RData (take 40 bs); RElapsed; RData (drop 40 bs)] {| sent := []; write_results := [] |}];
     bi_accepts := []; uni_opens := []; bi_opens := []; released := []; stopped_readers := [] |}.

(** A resumed session that has sent one frame: the client gets both pictures. *)
Lemma client_sees_what_the_server_sends_witness :
  exists p x, sent (video_send (video x)) = bytes_upto 1 (shown (encoder_config p)) /\
    exists rd cl', accept_video_instance (arrives (sent (video_send (video x))))
                   = (Ready (Ok (intro (shown (encoder_config p)), rd)), cl') /\
      forall attempts, (length (recv (reader rd)) < attempts)%nat ->
        exists rd', read_frames 1 attempts rd = (Ready (Ok (messages (shown (encoder_config p)))), rd') /\
          stream_bytes (reader rd') = [].
Proof.
  pose proof SessionStore.plain_ct_eq_laws as L.
  destruct (establish (arriving PermissionSet.bit.VIEW)) as [r1 s1] eqn:E1.
  pose proof E1 as E1'. vm_compute in E1'. injection E1' as <- <-.
  match type of E1 with _ = (Ready (Ok (Reconnection.Established ?ctx)), ?s1) =>
    destruct (set_up ctx s1) as [r2 s2] eqn:E2; pose proof E2 as E2'; vm_compute in E2'; injection E2' as <- <-
  end.
  match type of E2 with _ = (Ready (Ok (?s0, ?p, ?sm)), ?s2) =>
    destruct (step clock no_encoder silence p (Turn 1 DesktopArm) s0) as [r3 x] eqn:E3;
    pose proof E3 as E3'; vm_compute in E3'; injection E3' as <- Hx;
    destruct (client_sees_what_the_server_sends clock no_encoder silence "s" trusted [9] [8] [6] desktop 0
      (arriving PermissionSet.bit.VIEW) _ _ s0 p sm s2 [Turn 1 DesktopArm] x 0 (video_send (video x)) (arriving_fresh _) E1 E2
      (reaches_step _ _ _ _ _ [] _ _ _ (reaches_start _ _ _ _ _) E3)) as [_ H]; [by rewrite <- Hx|];
    exists p, x;
    assert (sent (video_send (video x)) = bytes_upto 1 (shown (encoder_config p))) as Hs by (rewrite <- Hx; by vm_compute);
    split; [exact Hs|];
    destruct (H (shown (encoder_config p)) 1%nat [] (arrives (sent (video_send (video x)))) []
      [RData (take 40 (sent (video_send (video x)))); RElapsed; RData (drop 40 (sent (video_send (video x))))]
      {| sent := []; write_results := [] |}) as (rd & cl' & Hrd & Hfs);
      [split_and!; [by vm_compute..|exact Hs]|apply (bool_decide_unpack _); by vm_compute|done|rewrite Hs; by vm_compute|]
  end.
  exists rd, cl'. split; [exact Hrd|]. intros attempts Ha. destruct (Hfs attempts Ha) as (rd' & Hr & _ & Hb).
  by exists rd'.
Defined.
End Examples.
