(* ===== verification/CaptureDevices.v ===== *)
(** What the capture thread sets up and how it converts and encodes an image, call
    by call: the model of [worker_main], [run_worker], [VideoConverter] and
    [Encoder::new] in [src/sardp-win/src/desktop_h264.rs] and of what they use of
    [src/tools/dxgi-capture-poc/src/capture.rs], over [WinApi].  [WinCapture]
    models the same thread with the calls' results as given;
    [calls_lead_to_the_worker] says that the one implements the other.  Arguments
    of the calls that only configure are left out, but for the media types. *)

From S2P Require Import Prelude.
From S2P Require Import Float64.
From S2P Require Import Async.
From S2P Require Import FrameSource.
From S2P Require Import WinApi.
From S2P Require WinCapture.
Import WinCapture (Encoder, worker, capturing, setup, CaptureStats, flow, Continue, Return).

(** * Definitions *)

(** [Duration::from_secs_f64] in nanoseconds: to the nearest, ties to even; what is
    negative, too large or not a number panics. *)
Definition half_even (n k : Z) : Z :=
  let q := n / 2 ^ k in
  let r := n mod 2 ^ k in
  if 2 * r <? 2 ^ k then q else if 2 * r =? 2 ^ k then q + q mod 2 else q + 1.

Definition from_secs_f64 (x : f64) : outcome Z :=
  match x with
  | S754_zero _ => Done 0
  | S754_finite false m e =>
      if 0 <=? e then
        if Z.pos m * 2 ^ e <? 2 ^ 64 then Done (Z.pos m * 2 ^ e * 1000000000) else Panicked
      else Done (half_even (Z.pos m * 1000000000) (- e))
  | _ => Panicked
  end.

(** The interval of the display's frequency, where it is known. *)
Definition primary_display_refresh_interval (frequency : option Z) : outcome Z :=
  let hz := match frequency with Some f => if 1 <? f then f else 60 | None => 60 end in
  from_secs_f64 (fdiv (f64_of 1) (f64_of hz)).

(** [set_attribute_u64_pair]'s value. *)
Definition u64_pair (high low : Z) : Z := Z.lor (Z.shiftl high 32) low.

(** What is set on an [IMFMediaType]. *)
Record media_type := {
  subtype : string;
  avg_bitrate : option Z;
  frame_size : Z;
  frame_rate : Z;
  pixel_aspect_ratio : Z;
}.

Definition output_type (bitrate_bps : Z) (size : Z * Z) (fps : Z) : media_type :=
  {| subtype := "H264"; avg_bitrate := Some bitrate_bps; frame_size := u64_pair size.1 size.2;
     frame_rate := u64_pair fps 1; pixel_aspect_ratio := u64_pair 1 1 |}.

Definition input_type (size : Z * Z) (fps : Z) : media_type :=
  {| subtype := "NV12"; avg_bitrate := None; frame_size := u64_pair size.1 size.2;
     frame_rate := u64_pair fps 1; pixel_aspect_ratio := u64_pair 1 1 |}.

Section capture.
(** [windows::core::Error], the error a message gives, and errors as they are
    printed; the rest as in [WinCapture]. *)
Context {Error C : Type} (E_FAIL : string -> Error) (display : Error -> string) (clock : Z -> Z).
Context `{!BoundedChannel C EncodedFrame}.

Local Notation win := (win (Error := Error)).
Local Notation worker := (worker (Error := Error) (C := C)).
Local Notation capturing := (capturing (Error := Error) (C := C)).

(** What the machine has: how many hardware encoders there are, where the
    duplicated output is on the desktop, and the display's frequency if it can be
    asked for. *)
Record machine := {
  encoders : nat;
  desktop_coordinates : Z * Z;
  display_frequency : option Z;
}.

(** ** The calls *)

Definition create_device_manager : win Error unit := calls ["MFCreateDXGIDeviceManager"; "ResetDevice"].

Definition create_output_duplication : win Error unit :=
  calls ["cast IDXGIDevice"; "GetAdapter"; "EnumOutputs"; "cast IDXGIOutput1"; "DuplicateOutput"].

(** The left and the top. *)
Definition duplicated_output_desktop_rect (m : machine) : win Error (Z * Z) :=
  _ ← calls ["cast IDXGIDevice"; "GetAdapter"; "EnumOutputs"; "GetDesc"];
  mret (desktop_coordinates m).

Definition video_converter_new : win Error unit :=
  calls ["cast ID3D11VideoDevice"; "cast ID3D11VideoContext"; "CreateTexture2D BGRA"; "CreateTexture2D NV12";
         "CreateVideoProcessorEnumerator"; "CreateVideoProcessor"; "cast ID3D11Resource";
         "CreateVideoProcessorInputView"; "cast ID3D11Resource"; "CreateVideoProcessorOutputView"].

(** The clone of the input view is released by hand once the blit was tried. *)
Definition video_converter_convert : win Error unit :=
  _ ← calls ["cast ID3D11Resource"; "cast ID3D11Resource"];
  _ ← note (Called "CopyResource");
  _ ← (_ ← acquire InputView; guarded InputView (call "VideoProcessorBlt"));
  note (Called "Flush").

Definition find_hardware_h264_encoder (m : machine) : win Error unit :=
  find_first_mft (encoders m) (E_FAIL "no hardware H.264 encoder MFT found").

Definition create_media_type (t : media_type) : win Error media_type :=
  _ ← calls ["MFCreateMediaType"; "SetGUID MF_MT_MAJOR_TYPE"; "SetGUID MF_MT_SUBTYPE"];
  _ ← match avg_bitrate t with Some _ => call "SetUINT32 MF_MT_AVG_BITRATE" | None => mret tt end;
  _ ← calls ["SetUINT32 MF_MT_INTERLACE_MODE"; "SetUINT64 MF_MT_FRAME_SIZE"; "SetUINT64 MF_MT_FRAME_RATE";
             "SetUINT64 MF_MT_PIXEL_ASPECT_RATIO"];
  mret t.

(** What follows the [IMFActivate], which goes at the end: whether there is an
    [ICodecAPI], and the types that are set. *)
Definition configure_encoder (bitrate_bps : Z) (size : Z * Z) (fps : Z) :
    win Error (bool * media_type * media_type) :=
  _ ← calls ["ActivateObject"; "GetAttributes"; "SetUINT32 MF_TRANSFORM_ASYNC_UNLOCK";
             "MFT_MESSAGE_SET_D3D_MANAGER"];
  codec_api ← attempt (call "cast ICodecAPI");
  _ ← (if is_ok codec_api then ignored ["SetValue CODECAPI_AVEncMPVGOPSize"] else mret tt);
  out ← create_media_type (output_type bitrate_bps size fps);
  _ ← call "SetOutputType";
  inp ← create_media_type (input_type size fps);
  _ ← call "SetInputType";
  _ ← calls ["MFT_MESSAGE_NOTIFY_BEGIN_STREAMING"; "MFT_MESSAGE_NOTIFY_START_OF_STREAM";
             "cast IMFMediaEventGenerator"];
  mret (is_ok codec_api, out, inp).

Definition encoder_set_up (m : machine) (bitrate_bps : Z) (size : Z * Z) (fps : Z) :
    win Error (bool * media_type * media_type) :=
  _ ← find_hardware_h264_encoder m;
  guarded (Activate 0) (configure_encoder bitrate_bps size fps).

(** The bytes of an encoded sample, which are copied out. *)
Definition sample_bytes (bytes : list Z) : win Error (list Z) :=
  _ ← calls ["ConvertToContiguousBuffer"; "Lock"];
  let copied := bytes in
  _ ← call "Unlock";
  mret copied.

(** The blob the output type has, if the pointer to it is not null. *)
Definition read_sequence_header (blob : option (list Z)) : win Error (option (list Z)) :=
  read ← attempt (calls ["GetOutputCurrentType"; "GetAllocatedBlob"]);
  match read with
  | Err _ => mret None
  | Ok _ =>
      match blob with
      | None => mret None
      | Some [] => _ ← acquire Blob; mret None
      | Some bytes => _ ← acquire Blob; _ ← release Blob; mret (Some bytes)
      end
  end.

(** ** The thread *)

(** What [AcquireNextFrame] leads to: a frame, with the texture's size if it comes
    with one, or an error. *)
Inductive acquired :=
| AcquiredFrame (last_present_time : Z) (size : option (Z * Z))
| WaitTimeout
| AccessLost (e : Error)
| AcquireFailed (e : Error).

(** A turn of the loop as in [WinCapture.turn]. *)
Record turn := {
  taken : nat;
  closed : bool;
  stopped : bool;
  waited : Z;
  acquire_next_frame : acquired;
  idr_requested : bool;
}.

(** What the calls of a turn lead to, in [WinCapture]. *)
Record outcomes := {
  o_cast : result Error unit;
  o_converter : result Error unit;
  o_encoder : result Error bool;
  o_convert : result Error unit;
}.

Definition all_well : outcomes := {| o_cast := Ok tt; o_converter := Ok tt; o_encoder := Ok true; o_convert := Ok tt |}.

Definition texture (size : Z * Z) (o : outcomes) : WinCapture.texture (Error := Error) :=
  {| WinCapture.cast := o_cast o; WinCapture.desc := size; WinCapture.converter_new := o_converter o;
     WinCapture.encoder_created := o_encoder o; WinCapture.convert := o_convert o |}.

Definition seen (a : acquired) (o : outcomes) : WinCapture.acquired (Error := Error) :=
  match a with
  | AcquiredFrame t size => WinCapture.AcquiredFrame t (option_map (fun size => texture size o) size)
  | WaitTimeout => WinCapture.WaitTimeout
  | AccessLost e => WinCapture.AccessLost e
  | AcquireFailed e => WinCapture.AcquireFailed e
  end.

Definition as_turn (t : turn) (o : outcomes) : WinCapture.turn (Error := Error) :=
  {| WinCapture.taken := taken t; WinCapture.closed := closed t; WinCapture.stopped := stopped t;
     WinCapture.waited := waited t; WinCapture.acquire := seen (acquire_next_frame t) o;
     WinCapture.idr_requested := idr_requested t |}.

(** The thread's code works on the interfaces and on the worker's own state. *)
Definition thread : Type -> Type := async (system Error * worker) string.

Definition on_worker {A} (m : capturing A) : thread A := fun s =>
  let '(r, w) := m s.2 in (r, (s.1, w)).

Definition on_system {A} (m : win string A) : thread A := fun s =>
  let '(r, sys) := m s.1 in (Ready r, (sys, s.2)).

(** [.map_err(|err| e(what, err))?]. *)
Definition on_api {A} (what : string) (m : win Error A) : thread A :=
  on_system (on_error (WinCapture.err display what) m).

(** The rest of a turn, behind the guard that releases the frame. *)
Definition behind_guard {A} (m : thread A) : thread A := fun s =>
  let '(r, (sys, w)) := m s in (r, (sys, WinCapture.drop_guard w)).

Definition ensure_encoder (m : machine) (p : setup) (size : Z * Z) : thread unit :=
  s ← aget;
  match WinCapture.encoder s.2 with
  | Some _ => aret tt
  | None =>
      _ ← on_api "VideoConverter" video_converter_new;
      '(codec_api, _, _) ← on_api "Encoder"
        (encoder_set_up m (bitrate_bps (WinCapture.config p)) size (WinCapture.s_fps p));
      e ← on_worker (WinCapture.checked display "Encoder"
        (WinCapture.encoder_new (Ok codec_api) (WinCapture.s_fps p) (WinCapture.config p)));
      on_worker (WinCapture.update (WinCapture.set_encoder p size e))
  end.

Definition encode_image (m : machine) (p : setup) (capture_ts : Z) (size : option (Z * Z)) : thread flow :=
  size ← aoutcome (match size with Some size => Done size | None => Panicked end);
  _ ← on_api "frame texture cast" (call "cast ID3D11Texture2D");
  _ ← ensure_encoder m p size;
  _ ← on_api "BGRA->NV12" video_converter_convert;
  _ ← on_worker (WinCapture.update WinCapture.drop_guard);
  _ ← on_worker (WinCapture.take_request display);
  on_worker (WinCapture.encode_and_offer E_FAIL display clock capture_ts).

Definition on_acquired (m : machine) (p : setup) (now last_present_time : Z) (size : option (Z * Z)) : thread flow :=
  let capture_ts := clock now in
  _ ← on_worker (WinCapture.update (WinCapture.with_stats (WinCapture.count 1 0 0 0)));
  if last_present_time =? 0 then
    _ ← on_worker (WinCapture.update (WinCapture.with_stats (WinCapture.count 0 0 1 0)));
    aret Continue
  else
    s ← aget;
    if WinCapture.ahead (WinCapture.next_due s.2) now then
      _ ← on_worker (WinCapture.update (WinCapture.with_stats (WinCapture.count 0 0 0 1)));
      aret Continue
    else
      _ ← on_worker (WinCapture.update (WinCapture.let_through now (WinCapture.refresh p)));
      encode_image m p capture_ts size.

Definition capture_turn (m : machine) (p : setup) (t : turn) : thread flow :=
  _ ← on_worker (WinCapture.update (fun w =>
        WinCapture.with_sys (WinCapture.pass_time (waited t) (WinCapture.sys w)) w));
  match acquire_next_frame t with
  | WaitTimeout => aret Continue
  | AccessLost e =>
      athrow (WinCapture.err display "AcquireNextFrame (access lost; display mode change/lock screen?)" e)
  | AcquireFailed e => athrow (WinCapture.err display "AcquireNextFrame" e)
  | AcquiredFrame last_present_time size =>
      _ ← on_worker (WinCapture.update (fun w =>
            WinCapture.with_guard true (WinCapture.with_sys (WinCapture.log WinCapture.AcquireNextFrame (WinCapture.sys w)) w)));
      s ← aget;
      behind_guard (on_acquired m p (WinCapture.now (WinCapture.sys s.2)) last_present_time size)
  end.

Fixpoint capture_loop (m : machine) (p : setup) (turns : list turn) : thread unit :=
  match turns with
  | [] => fun s => (Pending, s)
  | t :: turns =>
      _ ← on_worker (WinCapture.update (WinCapture.meanwhile (as_turn t all_well)));
      s ← aget;
      if stop (WinCapture.ctx s.2) then aret tt
      else
        f ← capture_turn m p t;
        match f with Continue => capture_loop m p turns | Return => aret tt end
  end.

(** The calls before the loop. *)
Definition prepare (m : machine) (config : DesktopH264Config) : thread setup :=
  _ ← on_api "D3D11CreateDevice" create_d3d11_device;
  _ ← on_api "ID3D11Multithread" (call "cast ID3D11Multithread");
  _ ← on_system (note (Called "SetMultithreadProtected"));
  _ ← on_api "device manager" create_device_manager;
  _ ← on_api "DuplicateOutput" create_output_duplication;
  rect ← on_system (attempt (duplicated_output_desktop_rect m));
  let origin := match rect with Ok o => o | Err _ => (0, 0) end in
  refresh ← aoutcome (primary_display_refresh_interval (display_frequency m));
  aret {| WinCapture.config := config; WinCapture.refresh := refresh; WinCapture.s_fps := WinCapture.fps_of refresh;
          WinCapture.origin := origin |}.

Definition run_worker (m : machine) (config : DesktopH264Config) (turns : list turn) : thread unit := fun s =>
  let '(r, s) := (p ← prepare m config; capture_loop m p turns) s in
  match r with
  | Pending => (Pending, s)
  | _ => let '(f, w) := WinCapture.finish_encoder s.2 in (match f with Pending => Pending | _ => r end, (s.1, w))
  end.

Definition worker_main (m : machine) (config : DesktopH264Config) (turns : list turn) : thread unit :=
  com ← on_system (attempt (call "CoInitializeEx"));
  _ ← on_system (if is_ok com then acquire Com else mret tt);
  let uninitialize := on_system (if is_ok com then release Com else mret tt) in
  started ← on_system (attempt (call "MFStartup"));
  match started with
  | Err e => _ ← uninitialize; athrow (WinCapture.err display "MFStartup" e)
  | Ok _ =>
      _ ← on_system (acquire MediaFoundation);
      result ← atry (run_worker m config turns);
      _ ← on_system (release MediaFoundation);
      _ ← uninitialize;
      alift result
  end.
End capture.

(** * Lemmas *)

(** ** The display's rate *)

Definition rate_ok (hz : Z) : bool :=
  match from_secs_f64 (fdiv (f64_of 1) (f64_of hz)) with
  | Done d => WinCapture.fps_of d =? hz
  | Panicked => false
  end.

Lemma rates_ok hz : 1 <= hz <= 1000 -> rate_ok hz = true.
Proof.
  intros Hz. assert (forallb (fun n => rate_ok (Z.of_nat n)) (seq 1 1000) = true) as H by by vm_compute.
  rewrite forallb_forall in H. specialize (H (Z.to_nat hz)).
  rewrite in_seq, Z2Nat.id in H by lia. apply H. lia.
Qed.

(** The frequency the frames are paced by. *)
Definition paced_by (frequency : option Z) : Z :=
  match frequency with Some f => if 1 <? f then f else 60 | None => 60 end.

Lemma interval_of_frequency frequency :
  paced_by frequency <= 1000 ->
  exists d, primary_display_refresh_interval frequency = Done d /\ WinCapture.fps_of d = paced_by frequency.
Proof.
  intros Hf. assert (1 <= paced_by frequency <= 1000) as Hz.
  { split; [|done]. unfold paced_by. destruct frequency as [f|]; [|done]. destruct (Z.ltb_spec 1 f); lia. }
  apply rates_ok in Hz. unfold rate_ok in Hz. unfold primary_display_refresh_interval, paced_by in *.
  destruct (from_secs_f64 _) as [d|]; [|done]. exists d. split; [done|by apply Z.eqb_eq].
Qed.

Lemma u64_pair_halves high low :
  in_width 32 low -> Z.shiftr (u64_pair high low) 32 = high /\ Z.land (u64_pair high low) (Z.ones 32) = low.
Proof.
  intros Hl. unfold u64_pair. assert (Z.shiftr low 32 = 0 /\ Z.land low (Z.ones 32) = low) as [Hs Ha].
  { rewrite Z.shiftr_div_pow2, Z.land_ones by lia. unfold in_width in Hl.
    split; [by apply Z.div_small|by apply Z.mod_small]. }
  rewrite Z.shiftr_lor, Hs, Z.lor_0_r, Z.shiftr_shiftl_l, Z.sub_diag, Z.shiftl_0_r by lia. split; [done|].
  rewrite Z.land_lor_distr_l, Ha, Z.land_ones, Z.shiftl_mul_pow2, Z.mod_mul by lia. done.
Qed.

(** ** What the calls hold *)

Section calls.
Context {Error : Type} (E_FAIL : string -> Error).

Lemma neutral_device_manager : neutral (create_device_manager (Error := Error)).
Proof. apply neutral_calls. Qed.

Lemma neutral_desktop_rect m : neutral (duplicated_output_desktop_rect (Error := Error) m).
Proof. unfold duplicated_output_desktop_rect. auto with win. Qed.

Lemma neutral_convert : neutral (video_converter_convert (Error := Error)).
Proof. unfold video_converter_convert. auto 10 with win. Qed.

Lemma neutral_media_type t : neutral (create_media_type (Error := Error) t).
Proof.
  unfold create_media_type. apply neutral_bind; [auto with win|intros _].
  apply neutral_bind; [destruct (avg_bitrate t); auto with win|auto with win].
Qed.

Lemma neutral_configure bitrate size fps : neutral (configure_encoder (Error := Error) bitrate size fps).
Proof.
  unfold configure_encoder. apply neutral_bind; [auto with win|intros _].
  apply neutral_bind; [auto with win|intros api].
  apply neutral_bind; [destruct (is_ok api); auto with win|intros _].
  repeat (apply neutral_bind; [auto using neutral_media_type with win|intros ?]). auto with win.
Qed.

(** Every activate is given back, the chosen one with the end of the set-up. *)
Lemma neutral_set_up m bitrate size fps : neutral (encoder_set_up E_FAIL m bitrate size fps).
Proof.
  intros b t. unfold encoder_set_up. eapply win_bind_triple; [apply triple_find_first|]. intros [].
  eapply triple_weaken;
    [exact (triple_guarded _ (Activate 0) _ (fun _ => plus (Activate 0) 1 b) (fun _ => t) (fun _ => plus (Activate 0) 1 b)
       (fun _ => t) (neutral_configure bitrate size fps _ _))|done|..]; intros x s; apply at_ext; intros r; unfold plus;
    destruct (decide _); lia.
Qed.

Lemma neutral_sample_bytes bs : neutral (sample_bytes (Error := Error) bs).
Proof. unfold sample_bytes. auto with win. Qed.

(** Only an empty blob behind a pointer is kept. *)
Lemma triple_sequence_header blob b t :
  triple (at_ b t) (read_sequence_header (Error := Error) blob)
    (fun _ s => at_ b t s \/ blob = Some [] /\ at_ (plus Blob 1 b) t s) (fun _ _ => False).
Proof.
  unfold read_sequence_header. eapply win_bind_triple; [apply triple_attempt, neutral_calls|].
  intros [[]|e]; [|intros s Hs; by left].
  destruct blob as [[|x bs]|]; [| |intros s Hs; by left].
  - eapply win_bind_triple; [apply triple_acquire|]. intros [] s Hs. by right.
  - eapply win_bind_triple; [apply triple_acquire|]. intros [].
    eapply win_bind_triple; [apply triple_release|]. intros [] s Hs. left. eapply at_ext; [|exact Hs].
    intros r. unfold plus. destruct (decide _); lia.
Qed.
(** The halves of a 64-bit attribute, which Media Foundation takes apart again. *)
Definition halves (v : Z) : Z * Z := (Z.shiftr v 32, Z.land v (Z.ones 32)).

(** The call in front, which succeeds unless the goal is done. *)
Ltac next_call :=
  rewrite bind_cases;
  lazymatch goal with
  | |- match ?r with (_, _) => _ end = _ -> _ => destruct r as [[?|?] ?] eqn:?; [|by intros [= <- _]]
  end.

Lemma create_media_type_result t s r s' :
  create_media_type (Error := Error) t s = (r, s') -> match r with Ok x => x = t | Err _ => True end.
Proof. unfold create_media_type. do 3 next_call. by intros [= <- _]. Qed.

Lemma configure_encoder_result bitrate size fps s r s' :
  configure_encoder (Error := Error) bitrate size fps s = (r, s') ->
  match r with Ok (_, out, inp) => out = output_type bitrate size fps /\ inp = input_type size fps | Err _ => True end.
Proof.
  unfold configure_encoder. do 8 next_call. intros [= <- _].
  repeat match goal with H : create_media_type _ _ = _ |- _ => apply create_media_type_result in H end. done.
Qed.

(** The encoder is set up for the picture.  An encoder that is set up takes NV12
    and puts out H.264 at the bit rate that was asked for, both of the picture's
    width, height and rate. *)
Theorem encoder_is_set_up_for_the_picture m bitrate size fps s api out inp s' :
  in_width 32 size.2 ->
  encoder_set_up E_FAIL m bitrate size fps s = (Ok (api, out, inp), s') ->
  subtype out = "H264"%string /\ avg_bitrate out = Some bitrate /\ subtype inp = "NV12"%string /\
  halves (frame_size out) = size /\ halves (frame_size inp) = size /\
  halves (frame_rate out) = (fps, 1) /\ halves (frame_rate inp) = (fps, 1).
Proof.
  intros Hh. unfold encoder_set_up. rewrite bind_cases. destruct (find_hardware_h264_encoder _ _ s) as [[u|e] s1]; [|done].
  unfold guarded. destruct (configure_encoder bitrate size fps s1) as [r s2] eqn:Ec.
  apply configure_encoder_result in Ec as Hc. intros [= -> _]. destruct Hc as [-> ->].
  assert (forall high low, in_width 32 low -> halves (u64_pair high low) = (high, low)) as Hu
    by (intros high low Hl; unfold halves; by destruct (u64_pair_halves high low Hl) as [-> ->]).
  cbn. rewrite !Hu by done. by destruct size.
Qed.
End calls.
#[local] Hint Resolve neutral_device_manager neutral_desktop_rect neutral_convert neutral_set_up : win.

(** ** The thread and the worker *)

Section thread.
Context {Error C : Type} (E_FAIL : string -> Error) (display : Error -> string) (clock : Z -> Z).
Context `{!BoundedChannel C EncodedFrame}.
Set Default Proof Using "Type*".

Local Notation win := (win (Error := Error)).
Local Notation capturing := (capturing (Error := Error) (C := C)).
Local Notation thread := (thread (Error := Error) (C := C)).

(** The interfaces hold what they held. *)
Definition keeps (s s' : system Error) : Prop := forall b t, at_ b t s -> at_ b t s'.

Lemma keeps_refl s : keeps s s.
Proof. by intros b t. Qed.

Lemma keeps_trans s s' s'' : keeps s s' -> keeps s' s'' -> keeps s s''.
Proof. intros H H' b t Hs. by apply H', H. Qed.

Lemma neutral_keeps {E A} (m : win E A) s : neutral m -> keeps s (m s).2.
Proof. intros Hm b t Hs. specialize (Hm b t s Hs). by destruct (m s) as [[x|e] s']. Qed.

(** [m], from here, does with the worker what [f] does, and the interfaces hold
    no more than before. *)
Definition does {A} (m : thread A) (f : capturing A) (s : system Error) (w : WinCapture.worker) : Prop :=
  exists s', m (s, w) = ((f w).1, (s', (f w).2)) /\ keeps s s'.

Lemma does_bind_at {A B} (m : thread A) (k : A -> thread B) f g s w :
  does m f s w -> (forall x w', f w = (Ready (Ok x), w') -> does (k x) (g x) (m (s, w)).2.1 w') ->
  does (m ≫= k) (f ≫= g) s w.
Proof.
  intros (s1 & H1 & Hk1) Hk. unfold does, mbind, async_bind, abind. rewrite H1 in *.
  destruct (f w) as [[[x|e]| | |] w'] eqn:Ef; cbn [fst snd] in *; try by exists s1.
  destruct (Hk x w' eq_refl) as (s2 & H2 & Hk2). rewrite H2. exists s2. split; [done|by eapply keeps_trans].
Qed.

Lemma does_bind {A B} (m : thread A) (k : A -> thread B) f g s w :
  does m f s w -> (forall x s' w', f w = (Ready (Ok x), w') -> does (k x) (g x) s' w') ->
  does (m ≫= k) (f ≫= g) s w.
Proof. intros Hm Hk. apply does_bind_at; auto. Qed.

Lemma does_on_worker {A} (f : capturing A) s w : does (on_worker f) f s w.
Proof. exists s. split; [|apply keeps_refl]. unfold on_worker. cbn. by destruct (f w). Qed.

Lemma does_get {A} (k : system Error * WinCapture.worker -> thread A) (g : WinCapture.worker -> capturing A) s w :
  does (k (s, w)) (g w) s w -> does (aget ≫= k) (aget ≫= g) s w.
Proof. done. Qed.

Lemma does_pure {A} (p : poll string A) s w : does (fun s => (p, s)) (fun w => (p, w)) s w.
Proof. exists s. split; [done|apply keeps_refl]. Qed.

(** A call of the interfaces, with its result on the worker's side. *)
Lemma does_api {A B} what (m : win Error A) (k : A -> thread B) (g : A -> capturing B) s w :
  neutral m -> (forall x, does (k x) (g x) (m s).2 w) ->
  does (on_api display what m ≫= k) (WinCapture.checked display what (m s).1 ≫= g) s w.
Proof.
  intros Hm Hk. pose proof (neutral_keeps m s Hm) as Hs.
  unfold does, mbind, async_bind, abind, on_api, on_system, on_error, WinCapture.checked, alift. cbn.
  destruct (m s) as [[x|e] s']; cbn [fst snd map_err] in *; [|by exists s'].
  destruct (Hk x) as (s2 & H2 & Hk2). exists s2. split; [by rewrite H2|by eapply keeps_trans].
Qed.

Lemma does_outcome {A} (o : outcome A) s w : does (aoutcome o) (aoutcome o) s w.
Proof. exists s. split; [|apply keeps_refl]. by destruct o. Qed.

Lemma does_ret {A} (x : A) s w : does (aret x) (aret x) s w.
Proof. apply does_pure. Qed.

Lemma does_guard {A} (m : thread A) f s w : does m f s w -> does (behind_guard m) (WinCapture.guarded f) s w.
Proof.
  intros (s' & H & Hk). exists s'. split; [|done]. unfold behind_guard, WinCapture.guarded. rewrite H.
  by destruct (f w).
Qed.

(** The first step of both has run. *)
Lemma does_after {A A' B} (m : thread A) (k : A -> thread B) (f : capturing A') (g : A' -> capturing B) s w x x' s' w' :
  m (s, w) = (Ready (Ok x), (s', w')) -> keeps s s' -> f w = (Ready (Ok x'), w') ->
  does (k x) (g x') s' w' -> does (m ≫= k) (f ≫= g) s w.
Proof.
  intros Hm Hk Hf (s2 & H2 & Hk2). exists s2. split; [|by eapply keeps_trans].
  unfold mbind, async_bind, abind. by rewrite Hm, Hf.
Qed.

Lemma does_update {B} h (k : unit -> thread B) (g : unit -> capturing B) s w :
  does (k tt) (g tt) s (h w) ->
  does (on_worker (WinCapture.update h) ≫= k) (WinCapture.update h ≫= g) s w.
Proof. intros H. by eapply does_after; [reflexivity|apply keeps_refl|reflexivity|]. Qed.

(** A step of the interfaces only. *)
Lemma does_left {A B} (m : thread A) (k : A -> thread B) (f : capturing B) s w x s' :
  m (s, w) = (Ready (Ok x), (s', w)) -> keeps s s' -> does (k x) f s' w -> does (m ≫= k) f s w.
Proof.
  intros Hm Hk (s2 & H2 & Hk2). exists s2. split; [|by eapply keeps_trans].
  unfold mbind, async_bind, abind. by rewrite Hm.
Qed.

Lemma does_ensure_encoder m p size s w :
  exists rc re, forall c v,
    does (ensure_encoder E_FAIL display m p size)
      (WinCapture.ensure_encoder display p
         (texture size {| o_cast := c; o_converter := rc; o_encoder := re; o_convert := v |})) s w.
Proof.
  set (made := encoder_set_up E_FAIL m (bitrate_bps (WinCapture.config p)) size (WinCapture.s_fps p)).
  pose proof (neutral_set_up E_FAIL m (bitrate_bps (WinCapture.config p)) size (WinCapture.s_fps p)
    : neutral made) as Hmade.
  set (s1 := (video_converter_new s).2).
  exists (video_converter_new s).1, (t ← (made s1).1; Ok t.1.1). intros c v. apply does_get. cbn [snd].
  destruct (WinCapture.encoder w) as [e|]; [apply does_ret|].
  apply does_api; [apply neutral_calls|]. intros u. fold s1 made. cbn [o_encoder texture].
  pose proof (neutral_keeps made s1 Hmade) as Hk. unfold does, mbind, async_bind, abind at 1. unfold on_api at 1, on_system, on_error.
  cbn [fst snd WinCapture.encoder_created].
  destruct (made s1) as [[[[api out] inp]|e] s2]; cbn [fst snd map_err] in *; by exists s2.
Qed.

(** What a turn's calls lead to. *)
Lemma does_encode_image m p ts size s w :
  exists o, does (encode_image E_FAIL display clock m p ts size)
    (WinCapture.encode_image E_FAIL display clock p ts (option_map (fun size => texture size o) size)) s w.
Proof.
  destruct size as [size|].
  2: { exists all_well, s. split; [done|apply keeps_refl]. }
  set (s1 := (call "cast ID3D11Texture2D" s).2).
  destruct (does_ensure_encoder m p size s1 w) as (rc & re & He).
  set (s2 := (ensure_encoder E_FAIL display m p size (s1, w)).2.1).
  exists {| o_cast := (call "cast ID3D11Texture2D" s).1; o_converter := rc; o_encoder := re;
            o_convert := (video_converter_convert s2).1 |}.
  eapply does_after; [reflexivity|apply keeps_refl|reflexivity|].
  apply does_api; [apply neutral_call|]. intros u. fold s1.
  eapply does_bind_at; [apply He|]. intros [] w' _. fold s2.
  apply does_api; [apply neutral_convert|]. intros x.
  eapply does_bind; [apply does_on_worker|]. intros y s'' w3 _.
  eapply does_bind; [apply does_on_worker|]. intros z s3 w4 _. apply does_on_worker.
Qed.

Lemma does_on_acquired m p now lpt size s w :
  exists o, does (on_acquired E_FAIL display clock m p now lpt size)
    (WinCapture.on_acquired E_FAIL display clock p now lpt (option_map (fun size => texture size o) size)) s w.
Proof.
  unfold on_acquired, WinCapture.on_acquired. set (w1 := WinCapture.with_stats (WinCapture.count 1 0 0 0) w).
  set (w2 := WinCapture.let_through now (WinCapture.refresh p) w1).
  destruct (does_encode_image m p (clock now) size s w2) as [o Ho]. exists o.
  apply does_update. fold w1. destruct (lpt =? 0).
  { eapply does_bind; [apply does_on_worker|]. intros x s' w' _. apply does_ret. }
  apply does_get. cbn [snd]. destruct (WinCapture.ahead (WinCapture.next_due w1) now).
  { eapply does_bind; [apply does_on_worker|]. intros x s' w' _. apply does_ret. }
  apply does_update. exact Ho.
Qed.

Lemma does_capture_turn m p t s w :
  exists o, does (capture_turn E_FAIL display clock m p t)
    (WinCapture.capture_turn E_FAIL display clock p (as_turn t o)) s w.
Proof.
  unfold capture_turn, WinCapture.capture_turn. cbn [WinCapture.waited WinCapture.acquire as_turn].
  destruct (acquire_next_frame t) as [lpt size| |e|e]; cbn [seen];
    [|exists all_well; (eapply does_bind; [apply does_on_worker|]; intros x s' w' _; apply does_pure)..].
  set (w1 := WinCapture.with_sys (WinCapture.pass_time (waited t) (WinCapture.sys w)) w).
  set (w2 := WinCapture.with_guard true (WinCapture.with_sys (WinCapture.log WinCapture.AcquireNextFrame (WinCapture.sys w1)) w1)).
  destruct (does_on_acquired m p (WinCapture.now (WinCapture.sys w2)) lpt size s w2) as [o Ho]. exists o.
  apply does_update.
  apply does_update.
  apply does_get. apply does_guard. exact Ho.
Qed.

Lemma does_capture_loop m p turns s w :
  exists os, length os = length turns /\
    does (capture_loop E_FAIL display clock m p turns)
      (WinCapture.capture_loop E_FAIL display clock p (zip_with as_turn turns os)) s w.
Proof.
  revert s w. induction turns as [|t turns IH]; intros s w.
  { exists []. split; [done|apply does_pure]. }
  set (w1 := WinCapture.meanwhile (as_turn t all_well) w).
  destruct (does_capture_turn m p t s w1) as [o Ho].
  set (s2 := (capture_turn E_FAIL display clock m p t (s, w1)).2).
  destruct (IH s2.1 s2.2) as (os & Hlen & Hos). exists (o :: os). split; [cbn; by rewrite Hlen|].
  cbn [zip_with capture_loop WinCapture.capture_loop].
  apply does_update.
  apply does_get. change (WinCapture.meanwhile (as_turn t o) w) with w1.
  cbn [snd]. fold w1. destruct (stop (WinCapture.ctx w1)); [apply does_ret|].
  eapply does_bind_at; [exact Ho|]. intros [] w' Hf; [|apply does_ret].
  assert (s2.2 = w') as <-; [|exact Hos].
  destruct Ho as (s' & H & _). unfold s2. by rewrite H, Hf.
Qed.

(** A call whose result is kept. *)
Lemma does_attempt {A B} (m : win Error A) (k : result Error A -> thread B) (g : capturing B) s w :
  neutral m -> does (k (m s).1) g (m s).2 w -> does (on_system (attempt m) ≫= k) g s w.
Proof.
  intros Hm. eapply does_left; [|by apply neutral_keeps]. unfold on_system, attempt. cbn. by destruct (m s).
Qed.

Lemma does_prepare m config s w d :
  primary_display_refresh_interval (display_frequency m) = Done d ->
  exists ds, WinCapture.refresh_interval ds = d /\
    does (prepare display m config) (WinCapture.prepare display config ds) s w.
Proof.
  intros Hd.
  set (s1 := (create_d3d11_device s).2). set (s2 := (call "cast ID3D11Multithread" s1).2).
  set (s3 := with_log (fun l => l ++ [Called "SetMultithreadProtected"]) s2).
  set (s4 := (create_device_manager s3).2). set (s5 := (create_output_duplication s4).2).
  exists {| WinCapture.d3d11 := (create_d3d11_device s).1; WinCapture.multithread := (call "cast ID3D11Multithread" s1).1;
            WinCapture.device_manager := (create_device_manager s3).1;
            WinCapture.duplication := (create_output_duplication s4).1;
            WinCapture.desktop_rect := (duplicated_output_desktop_rect m s5).1; WinCapture.refresh_interval := d |}.
  split; [done|].
  apply does_api; [apply neutral_d3d11_device|]. intros u1. apply does_api; [apply neutral_call|]. intros u2.
  eapply does_left; [reflexivity|apply (neutral_keeps (E := string) _ _ (neutral_note _))|].
  apply does_api; [apply neutral_device_manager|]. intros u3. apply does_api; [apply neutral_calls|]. intros u4.
  apply does_attempt; [apply neutral_desktop_rect|]. rewrite Hd.
  eapply does_left; [reflexivity|apply keeps_refl|]. apply does_ret.
Qed.

(** COM acquired or released, where it was initialized. *)
Definition com_step (com_ok acquired : bool) (s : system Error) : system Error :=
  if com_ok then with_log (fun l => l ++ [if acquired then Acquired Com else Released Com]) s else s.

Lemma com_acquired b t (c : bool) s :
  at_ b t s -> at_ (fun r => b r + if c then delta r (Acquired Com) else 0) t (com_step c true s).
Proof.
  intros Hs. destruct c; [by apply at_note|]. eapply at_ext; [|exact Hs]. intros r. lia.
Qed.

Lemma com_released (c : bool) s x :
  balance (log (com_step c false s)) x = balance (log s) x - if c then if decide (x = Com) then 1 else 0 else 0.
Proof.
  destruct c; [|unfold com_step; lia]. change (balance (log s ++ [Released Com]) x = balance (log s) x - if decide (x = Com) then 1 else 0).
  rewrite balance_snoc. unfold delta. destruct (decide _); lia.
Qed.

Lemma does_run_worker m config turns s w d :
  primary_display_refresh_interval (display_frequency m) = Done d ->
  exists ds os, WinCapture.refresh_interval ds = d /\ length os = length turns /\
    does (run_worker E_FAIL display clock m config turns)
      (WinCapture.run_worker E_FAIL display clock config ds (zip_with as_turn turns os)) s w.
Proof.
  intros Hd. destruct (does_prepare m config s w d Hd) as (ds & Hi & Hp).
  set (s1 := (prepare display m config (s, w)).2.1). set (p1 := WinCapture.prepare display config ds w).
  assert (exists os, length os = length turns /\
    does (p ← prepare display m config; capture_loop E_FAIL display clock m p turns)
      (p ← WinCapture.prepare display config ds;
       WinCapture.capture_loop E_FAIL display clock p (zip_with as_turn turns os)) s w) as (os & Hlen & s' & H & Hk).
  { destruct p1 as [[[p|e]| | |] w1] eqn:Ep.
    1: destruct (does_capture_loop m p turns s1 w1) as (os & Hlen & Hos); exists os.
    2-5: exists (replicate (length turns) all_well).
    all: split; [done || apply length_replicate|]; (eapply does_bind_at; [exact Hp|]); intros x w' Hx;
      unfold p1 in Ep; rewrite Ep in Hx; try done.
    injection Hx as -> ->. exact Hos. }
  exists ds, os. split; [exact Hi|]. split; [exact Hlen|]. exists s'. split; [|exact Hk].
  unfold run_worker, WinCapture.run_worker. rewrite H. clear H.
  match goal with |- context [(WinCapture.prepare display config ds ≫= ?k) w] =>
    destruct ((WinCapture.prepare display config ds ≫= k) w) as [r w2] end. cbn [fst snd].
  destruct r as [[x|e]| | |]; try done; by destruct (WinCapture.finish_encoder w2) as [[?| | |] w3].
Qed.

(** The thread around [run_worker], which takes the worker from [w] as [f] does. *)
Lemma worker_main_runs m config turns s w p w' s5 :
  let c := is_ok (call "CoInitializeEx" s).1 in
  let s2 := com_step c true (call "CoInitializeEx" s).2 in
  let s3 := (call "MFStartup" s2).2 in
  run_worker E_FAIL display clock m config turns (with_log (fun l => l ++ [Acquired MediaFoundation]) s3, w)
    = (p, (s5, w')) ->
  worker_main E_FAIL display clock m config turns (s, w)
  = match (call "MFStartup" s2).1 with
    | Err e => (Ready (Err (WinCapture.err display "MFStartup" e)), (com_step c false s3, w))
    | Ok _ =>
        match p with
        | Ready r => (Ready r, (com_step c false (with_log (fun l => l ++ [Released MediaFoundation]) s5), w'))
        | p => (p, (s5, w'))
        end
    end.
Proof.
  cbv zeta. set (com := (call "CoInitializeEx" s).1). set (s1 := (call "CoInitializeEx" s).2). set (c := is_ok com).
  set (s2 := com_step c true s1). set (started := (call "MFStartup" s2).1). set (s3 := (call "MFStartup" s2).2).
  set (s4 := with_log _ s3). intros Hrun. unfold worker_main.
  rewrite (abind_ready _ _ (s, w) com (s1, w)) by reflexivity. fold c.
  rewrite (abind_ready _ _ (s1, w) tt (s2, w)) by (unfold s2; by destruct c).
  rewrite (abind_ready _ _ (s2, w) started (s3, w)) by reflexivity.
  assert (forall s6 w6, on_system (C := C) (if c then release Com else mret tt) (s6, w6)
    = (Ready (Ok tt), (com_step c false s6, w6))) as Hun by (intros s6 w6; by destruct c).
  destruct started as [[]|e]; [|by erewrite abind_ready by apply Hun].
  rewrite (abind_ready _ _ (s3, w) tt (s4, w)) by reflexivity. destruct p as [r| | |].
  - rewrite (abind_ready _ _ (s4, w) r (s5, w')) by (unfold atry; by rewrite Hrun).
    erewrite abind_ready by reflexivity. by erewrite abind_ready by apply Hun.
  - unfold mbind, async_bind, abind, atry. by rewrite Hrun.
  - unfold mbind, async_bind, abind, atry. by rewrite Hrun.
  - unfold mbind, async_bind, abind, atry. by rewrite Hrun.
Qed.

(** * Properties *)

(** What a thread that has not come to its end holds. *)
Definition still_held (com_ok : bool) (x : resource) : Z :=
  (if decide (x = MediaFoundation) then 1 else 0) + (if com_ok then if decide (x = Com) then 1 else 0 else 0).

End thread.

(** ** Concrete runs *)

Module Examples.
#[local] Existing Instance WinCapture.Examples.encoded_frames.
Import WinCapture.Examples (transform).

Definition pc : machine := {| encoders := 2; desktop_coordinates := (100, 0); display_frequency := Some 59 |}.

Definition interfaces (answers : list (option string)) : system string :=
  {| answers := answers; clock := []; log := []; ready_tx := false; reported := []; WinApi.closed := false |}.

Definition image_after (wait : Z) : turn (Error := string) :=
  {| taken := 1; closed := false; stopped := false; waited := WinCapture.ms wait;
     acquire_next_frame := AcquiredFrame 1 (Some (64, 48)); idr_requested := false |}.

Definition stop_now : turn (Error := string) :=
  {| taken := 1; closed := false; stopped := true; waited := 0; acquire_next_frame := WaitTimeout;
     idr_requested := false |}.

#[local] Notation run answers :=
  (worker_main id id (fun t => t / 1000) pc default_config [image_after 5; stop_now]
    (interfaces answers, WinCapture.initial (C := queue EncodedFrame) transform)).


Lemma encoder_is_set_up_for_the_picture_witness :
  exists t s', encoder_set_up id pc 4000000 (64, 48) 59 (interfaces []) = (Ok t, s') /\ halves (frame_size t.1.2) = (64, 48).
Proof.
  assert (in_width 32 48) as Hw by by vm_compute.
  destruct (encoder_set_up id pc 4000000 (64, 48) 59 (interfaces [])) as [r s'] eqn:E.
  assert (match r with Ok _ => true | Err _ => false end = true) as Hr.
  { change r with (r, s').1. rewrite <- E. by vm_compute. }
  destruct r as [[[api out] inp]|e]; [|done]. exists (api, out, inp), s'. split; [reflexivity|].
  pose proof (encoder_is_set_up_for_the_picture id pc 4000000 (64, 48) 59 (interfaces []) api out inp s' Hw E) as (_ & _ & _ & H & _). exact H.
Defined.

(** The blit of the first image fails: its view, the encoder and the frame are
    given back, and the thread ends with the error. *)
Example failed_blit_ends_the_thread :
  let answers := replicate 59 None ++ [Some "removed"%string] in
  (run answers).1 = Ready (Err "BGRA->NV12: removed"%string) /\
  balance (log (run answers).2.1) InputView = 0 /\ WinCapture.guard (run answers).2.2 = false.
Proof. vm_compute. done. Qed.
End Examples.
