(* ===== verification/MacSessions.v ===== *)
(** The sessions of ScreenCaptureKit and VideoToolbox across the C interface: the
    model of [src/tools/sck-capture-poc/src/shim.rs] and [src/vt.rs], of the start
    and the stop of a capture in [shim/SckShim.swift], of the conversion to Annex B
    in [shim/VtEncoder.swift], and of the order in which [run_worker] of
    [src/sardp-mac/src/desktop_h264.rs] makes and drops the two sessions.

    The sinks that the callbacks write to are boxed by the Rust side, which frees
    them; the callbacks reach them through a bare pointer.  The memory is modelled
    as what is live and what has been freed, and the worker, the task that starts a
    capture and the callbacks as steps that interleave freely.  A capture delivers
    frames from the call of [startCapture] until [stopCapture] has been
    acknowledged, as its documentation says. *)

From S2P Require Import Prelude.
From S2P Require Import Float64.
From S2P Require Import RecordUpdate.
From S2P Require MacCapture.

(** * Definitions *)

(** ** What crosses the interface *)

Inductive StartError :=
| NoPermission (m : string)
| NoDisplay (m : string)
| Failed (m : string)
| Timeout (m : string).

Definition start_error (rc : Z) (msg : string) : StartError :=
  if rc =? 1 then NoPermission msg
  else if rc =? 2 then NoDisplay msg
  else if rc =? 4 then Timeout msg
  else Failed msg.

Inductive EncodeError :=
| Create (m : string)
| Property (m : string)
| Encode (rc : Z).

Definition create_error (rc : Z) (msg : string) : EncodeError := if rc =? 2 then Property msg else Create msg.

(** The bit rate as the shim takes it. *)
Definition bitrate_i32 (bitrate_bps : Z) : Z := Z.min bitrate_bps (2 ^ 31 - 1).

Record DirtyRect := { x : f64; y : f64; w : f64; h : f64 }.

(** [as_chunks::<4>]: the rest that does not fill a chunk is left out. *)
Fixpoint dirty_rects (raw : list f64) : list DirtyRect :=
  match raw with
  | a :: b :: c :: d :: raw => {| x := a; y := b; w := c; h := d |} :: dirty_rects raw
  | _ => []
  end.

(** Pointers are what they point at, or null.  Of the rectangles, [dirty_count]
    times four numbers are read, and of the picture [stride] times [height]
    bytes. *)
Definition dirty_of (dirty : option (list f64)) (dirty_count : Z) : list DirtyRect :=
  match dirty with
  | Some raw => if dirty_count =? 0 then [] else dirty_rects (take (Z.to_nat dirty_count * 4) raw)
  | None => []
  end.

Definition image_of (bgra : option (list Z)) (height stride : Z) : option (list Z) :=
  match bgra with
  | Some pixels =>
      if (height =? 0) || (stride =? 0) then None else Some (take (Z.to_nat stride * Z.to_nat height) pixels)
  | None => None
  end.

(** [main_display_info]: the eight numbers the shim fills in, if there is a
    display. *)
Definition main_display_info (filled : option (list f64)) : option MacCapture.MainDisplayInfo :=
  match filled with
  | Some [_; points_w; _; pixels_w; pixels_h; origin_x; origin_y; refresh_hz] =>
      Some {| MacCapture.points_w := points_w; MacCapture.pixels_w := as_u32 pixels_w;
              MacCapture.pixels_h := as_u32 pixels_h; MacCapture.d_origin_x := origin_x;
              MacCapture.d_origin_y := origin_y; MacCapture.refresh_hz := refresh_hz |}
  | _ => None
  end.

(** *** [convertToAnnexB] *)

(** A big-endian number. *)
Definition big_endian (bs : list Z) : Z := fold_left (fun n b => Z.lor (Z.shiftl n 8) b) bs 0.

Definition start_code : list Z := [0; 0; 0; 1].

(** The loop over the units of a sample, each behind its length in [n] bytes; a
    turn takes at least these, so a turn for each byte is enough. *)
Fixpoint convert_units (fuel n : nat) (bytes annex_b : list Z) : list Z :=
  match fuel with
  | O => annex_b
  | S fuel =>
      if (n <=? length bytes)%nat then
        let nal_length := big_endian (take n bytes) in
        let rest := drop n bytes in
        if (nal_length <=? 0) || (Z.of_nat (length rest) <? nal_length) then annex_b
        else
          convert_units fuel n (drop (Z.to_nat nal_length) rest)
            (annex_b ++ start_code ++ take (Z.to_nat nal_length) rest)
      else annex_b
  end.

(** [None] if there is nothing in it. *)
Definition convert_to_annex_b (n : nat) (bytes : list Z) : option (list Z) :=
  match convert_units (length bytes) n bytes [] with [] => None | annex_b => Some annex_b end.

(** A sample: each unit behind its length. *)
Definition sample_of (n : nat) (units : list (list Z)) : list Z :=
  mjoin (map (fun unit => be_bytes n (Z.of_nat (length unit)) ++ unit) units).

(** Annex B: each unit behind a start code. *)
Definition annex_b_of (units : list (list Z)) : list Z := mjoin (map (fun unit => start_code ++ unit) units).

(** ** Memory *)

(** What is allocated: the two boxed sinks, the compression session behind the
    encoder's handle, the capture session behind its own. *)
Inductive object := CaptureSink | Forwarder | Compression | Capture.

Definition is_object (o o' : object) : bool :=
  match o, o' with
  | CaptureSink, CaptureSink | Forwarder, Forwarder | Compression, Compression | Capture, Capture => true
  | _, _ => false
  end.

Inductive cell := Absent | Live | Freed.

Inductive fault :=
| UsedFreed (o : object)
| FreedTwice (o : object).

(** The task that starts a capture. *)
Inductive task_state := NotAsked | Asking | Capturing | StoppingLate | Over.

(** Where the worker's thread is: before the encoder is made, before the capture is
    started, waiting in the start, in its loop, waiting in the stop, before the
    flush, before its encoder goes, gone. *)
Inductive point :=
| Preparing
| Starting
| AwaitingStart
| Pumping
| AwaitingStop (r : result string unit)
| Stopped (r : result string unit)
| Leaving (r : result string unit)
| Left (r : result string unit).

(** [encoders] is the strong count of the shared encoder, [in_flight] the frames
    inside it; [outcome] and [abandoned] are the hand-off of the start ([StartBox]),
    [delivering] says that frames may be delivered, [stopping] and [acknowledged]
    that the stop was asked for and has been acknowledged.  [timed_out] says that
    one of the two bounded waits ran out, [told] how often the sink was told that
    the stream stopped by itself. *)
Record world := {
  cells : object -> cell;
  encoders : nat;
  in_flight : nat;
  task : task_state;
  outcome : option Z;
  abandoned : bool;
  delivering : bool;
  stopping : bool;
  acknowledged : bool;
  thread : point;
  timed_out : bool;
  told : nat;
  faults : list fault;
}.

#[export] Instance world_eta : Eta world := fun w =>
  {| cells := cells w; encoders := encoders w; in_flight := in_flight w; task := task w; outcome := outcome w;
     abandoned := abandoned w; delivering := delivering w; stopping := stopping w;
     acknowledged := acknowledged w; thread := thread w; timed_out := timed_out w; told := told w;
     faults := faults w |}.

Definition initial : world :=
  {| cells := fun _ => Absent; encoders := 0; in_flight := 0; task := NotAsked; outcome := None; abandoned := false;
     delivering := false; stopping := false; acknowledged := false; thread := Preparing; timed_out := false;
     told := 0; faults := [] |}.

Definition put (o : object) (c : cell) (w : world) : world :=
  w <| cells := fun o' => if is_object o' o then c else cells w o' |>.

Definition allocate (o : object) : world -> world := put o Live.

Definition free (o : object) (w : world) : world :=
  match cells w o with Live => put o Freed w | _ => w <| faults := faults w ++ [FreedTwice o] |> end.

(** Through a bare pointer. *)
Definition use (o : object) (w : world) : world :=
  match cells w o with Live => w | _ => w <| faults := faults w ++ [UsedFreed o] |> end.

(** ** The two wrappers *)

(** The callbacks of the frames that are still inside run before it returns. *)
Definition flush (w : world) : world :=
  match in_flight w with O => w | _ => use Forwarder w <| in_flight := 0%nat |> end.

(** [Drop] of the encoder, with [sardp_vt_encoder_destroy]. *)
Definition destroy_encoder (w : world) : world := free Forwarder (free Compression (flush (use Compression w))).

(** [Drop] of one of the shared encoder's owners. *)
Definition release_encoder (w : world) : world :=
  match encoders w with
  | O | S O => destroy_encoder (w <| encoders := 0%nat |>)
  | S n => w <| encoders := n |>
  end.

(** [drop_sink] of the capture sink, which owns an encoder. *)
Definition drop_capture_sink (w : world) : world := release_encoder (free CaptureSink w).

(** [Session::start] fails with the shim's code. *)
Definition start_failed (rc : Z) (msg : string) (show : StartError -> string) (w : world) : world :=
  drop_capture_sink w <| thread := Leaving (Err (show (start_error rc msg))) |>.

(** [sardp_sck_start] returns with the task's outcome. *)
Definition start_returns (rc : Z) (msg : string) (show : StartError -> string) (w : world) : world :=
  if rc =? 0 then allocate Capture w <| thread := Pumping |> else start_failed rc msg show w.

(** [sardp_sck_stop] has returned: the session is released, then the sink. *)
Definition stop_returns (r : result string unit) (w : world) : world :=
  drop_capture_sink (free Capture w) <| thread := Stopped r |>.

(** The stream's delegate, which would be told that the stream stopped by itself:
    [SCStream] is given none. *)
Definition delegate : bool := false.

(** ** Steps *)

Inductive step :=
| CreateEncoder (rc : Z) (msg : string)
| StartCapture (permitted : bool)
| StartReturns (msg : string)
| StartTimesOut (msg : string)
| PumpEnds (r : result string unit)
| StopReturns
| StopTimesOut
| CompleteFrames
| DropEncoder
| TaskCaptures
| TaskFails (rc : Z)
| TaskFinishes
| LateStop
| StopAcknowledged
| StreamStops
| FrameCallback (submitted : bool)
| EncodedCallback.

(** [None]: not now. *)
Definition when (b : bool) (w : world) : option world := if b then Some w else None.

Section steps.
(** The errors' [Display]. *)
Context (show : StartError -> string) (show_encode : EncodeError -> string).

(** What the worker's thread does. *)
Definition thread_step (s : step) (w : world) : option world :=
  match s, thread w with
  | CreateEncoder rc msg, Preparing =>
      let w := allocate Forwarder w in
      Some (if rc =? 0 then allocate Compression w <| encoders := 1%nat |> <| thread := Starting |>
            else free Forwarder w <| thread := Left (Err (show_encode (create_error rc msg))) |>)
  | StartCapture permitted, Starting =>
      let w := allocate CaptureSink w <| encoders := S (encoders w) |> in
      Some (if permitted : bool then w <| task := Asking |> <| thread := AwaitingStart |>
            else start_failed 1 "screen recording permission not granted (CGPreflightScreenCaptureAccess=false)" show w)
  | StartReturns msg, AwaitingStart =>
      match outcome w with Some rc => Some (start_returns rc msg show w) | None => None end
  | StartTimesOut msg, AwaitingStart =>
      match outcome w with
      | Some rc => Some (start_returns rc msg show w)
      | None => Some (start_failed 4 msg show (w <| abandoned := true |> <| timed_out := true |>))
      end
  | PumpEnds r, Pumping => Some (use Capture w <| stopping := true |> <| thread := AwaitingStop r |>)
  | StopReturns, AwaitingStop r => when (acknowledged w) (stop_returns r w)
  | StopTimesOut, AwaitingStop r => when (negb (acknowledged w)) (stop_returns r (w <| timed_out := true |>))
  | CompleteFrames, Stopped r => Some (flush (use Compression w) <| thread := Leaving r |>)
  | DropEncoder, Leaving r => Some (release_encoder w <| thread := Left r |>)
  | _, _ => None
  end.

(** What the frameworks do: [finish] of the box, and the callbacks. *)
Definition system_step (s : step) (w : world) : option world :=
  match s, task w with
  | TaskCaptures, Asking => Some (w <| task := Capturing |> <| delivering := true |>)
  | TaskFails rc, (Asking | Capturing) =>
      when (negb (rc =? 0))
        (w <| task := Over |> <| delivering := false |>
           <| outcome := if abandoned w then outcome w else Some rc |>)
  | TaskFinishes, Capturing =>
      Some (if abandoned w then w <| task := StoppingLate |> else w <| task := Over |> <| outcome := Some 0 |>)
  | LateStop, StoppingLate => Some (w <| task := Over |> <| delivering := false |>)
  | StopAcknowledged, _ => when (stopping w) (w <| acknowledged := true |> <| delivering := false |>)
  | StreamStops, _ =>
      when (delivering w)
        ((if delegate then use CaptureSink w <| told := S (told w) |> else w) <| delivering := false |>)
  | FrameCallback submitted, _ =>
      when (delivering w)
        (match cells w CaptureSink with
         | Live => if submitted : bool then use Compression w <| in_flight := S (in_flight w) |> else w
         | _ => use CaptureSink w
         end)
  | EncodedCallback, _ =>
      match in_flight w with O => None | S n => Some (use Forwarder w <| in_flight := n |>) end
  | _, _ => None
  end.

Definition next (s : step) (w : world) : option world :=
  match thread_step s w with Some w => Some w | None => system_step s w end.

Fixpoint run (steps : list step) (w : world) : option world :=
  match steps with
  | [] => Some w
  | s :: steps => w ← next s w; run steps w
  end.
End steps.

(** * Lemmas *)

Section run_lemmas.
Context (show : StartError -> string) (show_encode : EncodeError -> string).
Local Notation run := (run show show_encode).
Local Notation next := (next show show_encode).

Lemma run_invariant (I : world -> Prop) steps w w' :
  (forall s w w', I w -> next s w = Some w' -> I w') -> I w -> run steps w = Some w' -> I w'.
Proof.
  intros Hstep. revert w. induction steps as [|s steps IH]; intros w Hw; cbn.
  - by intros [= <-].
  - destruct (next s w) as [w1|] eqn:E; [|done]. intros Hr. by eapply IH, Hr; eapply Hstep.
Qed.
End run_lemmas.

(** What is held where the thread is. *)
Definition held (w : world) (sink forwarder compression capture : cell) (n : nat) : Prop :=
  cells w CaptureSink = sink /\ cells w Forwarder = forwarder /\ cells w Compression = compression /\
  cells w Capture = capture /\ encoders w = n.

(** No box is left. *)
Definition let_go (w : world) : Prop :=
  cells w CaptureSink <> Live /\ cells w Forwarder <> Live /\ cells w Compression <> Live /\
  cells w Capture <> Live /\ encoders w = 0%nat.

Definition owned (w : world) : Prop :=
  match thread w with
  | Preparing => held w Absent Absent Absent Absent 0
  | Starting => held w Absent Live Live Absent 1
  | AwaitingStart => held w Live Live Live Absent 2
  | Pumping | AwaitingStop _ => held w Live Live Live Live 2
  | Stopped _ => held w Freed Live Live Freed 1
  | Leaving _ =>
      cells w CaptureSink = Freed /\ cells w Forwarder = Live /\ cells w Compression = Live /\
      cells w Capture <> Live /\ encoders w = 1%nat
  | Left _ => let_go w /\ in_flight w = 0%nat
  end.

(** How far the thread is. *)
Definition before_start (p : point) : bool := match p with Preparing | Starting => true | _ => false end.
Definition awaiting_start (p : point) : bool := match p with AwaitingStart => true | _ => false end.
Definition served (p : point) : bool := match p with Pumping | AwaitingStop _ | Stopped _ => true | _ => false end.
Definition past_pump (p : point) : bool :=
  match p with AwaitingStop _ | Stopped _ | Leaving _ | Left _ => true | _ => false end.

Definition under_way (t : task_state) : bool := match t with Asking | Capturing => true | _ => false end.

(** The start's hand-off. *)
Definition handed_off (w : world) : Prop :=
  (before_start (thread w) = true -> task w = NotAsked) /\
  (awaiting_start (thread w) = true -> task w <> NotAsked) /\
  (outcome w <> None -> task w = Over) /\
  (task w = NotAsked -> delivering w = false /\ outcome w = None /\ abandoned w = false) /\
  (task w = Asking -> delivering w = false) /\
  (under_way (task w) = true -> outcome w = None /\ (awaiting_start (thread w) = true \/ abandoned w = true)) /\
  (task w = StoppingLate -> abandoned w = true) /\
  (abandoned w = true -> outcome w = None /\ awaiting_start (thread w) = false /\ timed_out w = true) /\
  (task w = Over -> delivering w = true -> outcome w = Some 0 /\ acknowledged w = false).

(** The stop. *)
Definition stop_ok (w : world) : Prop :=
  (served (thread w) = true -> outcome w = Some 0) /\
  (past_pump (thread w) = true -> outcome w = Some 0 -> stopping w = true) /\
  (stopping w = true -> past_pump (thread w) = true /\ outcome w = Some 0 /\ task w = Over) /\
  (acknowledged w = true -> stopping w = true /\ delivering w = false) /\
  (in_flight w = 0%nat \/ cells w Compression = Live).

Definition fault_ok (w : world) : Prop :=
  Forall (fun f => f = UsedFreed CaptureSink) (faults w) /\ told w = 0%nat /\
  (timed_out w = false -> faults w = [] /\ (delivering w = true -> cells w CaptureSink = Live)).

Definition well (w : world) : Prop := owned w /\ handed_off w /\ stop_ok w /\ fault_ok w.

Section invariant.
Context (show : StartError -> string) (show_encode : EncodeError -> string).

Lemma well_initial : well initial.
Proof.
  unfold well, owned, held, handed_off, stop_ok, fault_ok. cbn. split_and!; try done; by (left || intros [|]).
Qed.

Lemma free_live o w : cells w o = Live -> free o w = put o Freed w.
Proof. intros H. unfold free. by rewrite H. Qed.

Lemma use_live o w : cells w o = Live -> use o w = w.
Proof. intros H. unfold use. by rewrite H. Qed.

Lemma use_gone o w : cells w o <> Live -> use o w = w <| faults := faults w ++ [UsedFreed o] |>.
Proof. intros H. unfold use. by destruct (cells w o). Qed.

Lemma flush_live w : cells w Forwarder = Live -> flush w = w <| in_flight := 0%nat |>.
Proof. intros H. unfold flush. rewrite (use_live _ _ H). by destruct w as [? ? []]. Qed.

(** The capture sink goes, and its share of the encoder with it. *)
Lemma drop_capture_sink_shared w :
  cells w CaptureSink = Live -> encoders w = 2%nat ->
  drop_capture_sink w = put CaptureSink Freed w <| encoders := 1%nat |>.
Proof. intros H Hn. unfold drop_capture_sink, release_encoder. rewrite (free_live _ _ H). cbn. by rewrite Hn. Qed.

(** The last owner of the encoder goes, and the encoder with it. *)
Lemma release_last_encoder w :
  cells w Forwarder = Live -> cells w Compression = Live -> encoders w = 1%nat ->
  release_encoder w
  = put Forwarder Freed (put Compression Freed (w <| encoders := 0%nat |> <| in_flight := 0%nat |>)).
Proof.
  intros Hf Hc Hn. unfold release_encoder, destroy_encoder. rewrite Hn.
  rewrite (use_live Compression) by exact Hc. rewrite flush_live by exact Hf.
  rewrite (free_live Compression) by exact Hc. by rewrite free_live.
Qed.

Ltac forward :=
  repeat match goal with
    | H : ?P -> _, H' : ?P |- _ => lazymatch type of P with Prop => specialize (H H') end
    | H : ?x = ?x -> _ |- _ => specialize (H eq_refl)
    | H : false = true -> _ |- _ => clear H
    | H : _ /\ _ |- _ => destruct H
    end.

(** The step is computed, and every clause of the invariant is settled by itself. *)
Ltac computed :=
  cbv [set put allocate cells encoders in_flight task outcome abandoned delivering stopping acknowledged thread
       timed_out told faults] in *.

Ltac settle w :=
  intros [= <-]; destruct w as [cs ? fl t o ? d ? ? th ? ? ?]; computed; subst;
  unfold well, owned, held, let_go, handed_off, stop_ok, fault_ok in *; computed; cbn in *; destruct_and?;
  split_and!; try done; try assumption; intros; split_and?; intros; simplify_eq; forward; simplify_eq; try done;
  try congruence; try solve [intuition congruence].

Lemma handed_off_over w rc : handed_off w -> outcome w = Some rc -> task w = Over.
Proof. intros (_ & _ & H & _) E. apply H. congruence. Qed.

Lemma well_thread s w w' : well w -> thread_step show show_encode s w = Some w' -> well w'.
Proof.
  intros (Ho & Hh & Hs & Hf). unfold thread_step. destruct s; try done; destruct (thread w) eqn:Ht; try done;
    unfold owned, held in Ho; rewrite Ht in Ho; destruct_and?.
  - destruct (rc =? 0); [|rewrite free_live by done]; settle w.
  - destruct permitted; [|unfold start_failed; rewrite drop_capture_sink_shared by (cbn; congruence)];
      settle w.
  - destruct (outcome w) as [rc|] eqn:Eo; [|done]. unfold start_returns, start_failed.
    pose proof (handed_off_over _ _ Hh Eo) as Et.
    destruct (Z.eqb_spec rc 0) as [->|Er]; [|rewrite drop_capture_sink_shared by done];
      settle w.
  - destruct (outcome w) as [rc|] eqn:Eo; unfold start_returns, start_failed.
    + pose proof (handed_off_over _ _ Hh Eo) as Et.
      destruct (Z.eqb_spec rc 0) as [->|Er]; [|rewrite drop_capture_sink_shared by done];
        settle w.
    + rewrite drop_capture_sink_shared by done. settle w.
  - rewrite use_live by done. settle w.
  - unfold when. destruct (acknowledged w) eqn:Ea; [|done]. unfold stop_returns.
    rewrite free_live, drop_capture_sink_shared by done. settle w.
  - unfold when. destruct (acknowledged w) eqn:Ea; [done|]. unfold stop_returns.
    rewrite free_live by done. rewrite drop_capture_sink_shared by done. settle w.
  - rewrite use_live, flush_live by done. settle w.
  - rewrite release_last_encoder by done. settle w.
Qed.

(** What holds the capture sink holds the encoder, and an encoder has its sink. *)
Lemma sink_holds_encoder w : owned w -> cells w CaptureSink = Live -> cells w Compression = Live.
Proof. unfold owned, held, let_go. destruct (thread w); intros; destruct_and?; congruence. Qed.

Lemma encoder_holds_forwarder w : owned w -> cells w Compression = Live -> cells w Forwarder = Live.
Proof. unfold owned, held, let_go. destruct (thread w); intros; destruct_and?; congruence. Qed.

Lemma awaited_sink w : owned w -> awaiting_start (thread w) = true -> cells w CaptureSink = Live.
Proof. unfold owned, held. destruct (thread w); cbn; intros; destruct_and?; congruence. Qed.

Ltac by_thread :=
  repeat match goal with th : point |- _ => destruct th | |- ?b = false => is_var b; destruct b end; cbn in *; destruct_and?; forward; intuition congruence.

Lemma well_system s w w' : well w -> system_step s w = Some w' -> well w'.
Proof.
  intros (Ho & Hh & Hs & Hf). unfold system_step. destruct s; try done.
  - destruct (task w) eqn:Et; try done. settle w; by_thread.
  - unfold when. destruct (task w) eqn:Et; try done; (destruct (Z.eqb_spec rc 0); [done|]);
      destruct (abandoned w) eqn:Ea; settle w; by_thread.
  - destruct (task w) eqn:Et; try done; destruct (abandoned w) eqn:Ea; settle w; by_thread.
  - destruct (task w) eqn:Et; try done; settle w; by_thread.
  - unfold when. destruct (stopping w) eqn:Est; [|done]. settle w; by_thread.
  - unfold when. destruct (delivering w) eqn:Ed; [|done]. cbn. settle w; by_thread.
  - unfold when. destruct (delivering w) eqn:Ed; [|done]. destruct (cells w CaptureSink) eqn:Ec.
    1, 3: rewrite use_gone by congruence; settle w; try by_thread; by apply Forall_app_2; [|repeat constructor].
    pose proof (sink_holds_encoder _ Ho Ec) as Hc. destruct submitted; [rewrite use_live by done|]; settle w; by_thread.
  - destruct (in_flight w) eqn:Ei; [done|]. destruct Hs as (?&?&?&?&[?|Hc]); [congruence|].
   rewrite use_live by (by apply encoder_holds_forwarder). settle w; by_thread.
Qed.

Lemma well_next s w w' : well w -> next show show_encode s w = Some w' -> well w'.
Proof.
  unfold next. intros Hw. destruct (thread_step _ _ s w) as [w1|] eqn:E.
  - intros [= <-]. by eapply well_thread.
  - by apply well_system.
Qed.

(** The worker's thread always has a step to do: its waits are bounded. *)
Lemma thread_goes_on w : (exists r, thread w = Left r) \/ exists s w', thread_step show show_encode s w = Some w'.
Proof.
  destruct (thread w) eqn:E; [right..|by left; eexists].
  - exists (CreateEncoder 0 EmptyString). cbn. rewrite E. by eexists.
  - exists (StartCapture true). cbn. rewrite E. by eexists.
  - exists (StartTimesOut EmptyString). cbn. rewrite E. by destruct (outcome w); eexists.
  - exists (PumpEnds (Ok tt)). cbn. rewrite E. by eexists.
  - destruct (acknowledged w) eqn:Ea; [exists StopReturns|exists StopTimesOut]; cbn; rewrite E, Ea; by eexists.
  - exists CompleteFrames. cbn. rewrite E. by eexists.
  - exists DropEncoder. cbn. rewrite E. by eexists.
Qed.
End invariant.

(** ** Annex B *)

Lemma big_endian_from bs a :
  bytes_ok bs -> 0 <= a ->
  fold_left (fun n b => Z.lor (Z.shiftl n 8) b) bs a = a * 2 ^ (8 * Z.of_nat (length bs)) + be_val bs.
Proof.
  intros H. revert a. induction H as [|b bs Hb _ IH]; intros a Ha; [cbn; lia|].
  assert (Z.lor (Z.shiftl a 8) b = a * 2 ^ 8 + b) as E.
  { rewrite Z.shiftl_mul_pow2 by lia. apply lor_high_low; [lia|exact Hb]. }
  cbn [fold_left]. rewrite E. widths. rewrite IH by lia. rewrite be_val_cons. cbn [length].
  replace (8 * Z.of_nat (S (length bs))) with (8 + 8 * Z.of_nat (length bs)) by lia.
  rewrite Z.pow_add_r by lia. change (2 ^ 8) with 256. ring.
Qed.

Lemma big_endian_be_bytes n x : 0 <= x < 2 ^ (8 * Z.of_nat n) -> big_endian (be_bytes n x) = x.
Proof.
  intros Hx. unfold big_endian. rewrite big_endian_from by (by try apply be_bytes_ok).
  rewrite be_val_be_bytes, Z.mod_small by done. lia.
Qed.

Lemma convert_units_of fuel n units annex_b :
  (0 < n)%nat -> Forall (fun unit => unit <> [] /\ Z.of_nat (length unit) < 2 ^ (8 * Z.of_nat n)) units ->
  (length units <= fuel)%nat ->
  convert_units fuel n (sample_of n units) annex_b = annex_b ++ annex_b_of units.
Proof.
  intros Hn Hu. revert fuel annex_b. induction Hu as [|unit units [Hne Hlt] _ IH]; intros fuel annex_b Hf.
  { rewrite app_nil_r. destruct fuel; [done|]. cbn. by destruct n; [lia|]. }
  destruct fuel as [|fuel]; [cbn in Hf; lia|].
  change (sample_of n (unit :: units)) with ((be_bytes n (Z.of_nat (length unit)) ++ unit) ++ sample_of n units).
  rewrite <- app_assoc. cbn [convert_units].
  rewrite (proj2 (Nat.leb_le n _)) by (rewrite length_app, length_be_bytes; lia).
  rewrite take_app_length', drop_app_length' by (by rewrite length_be_bytes).
  rewrite big_endian_be_bytes by lia.
  assert (length unit <> 0%nat) by (by destruct unit).
  rewrite (proj2 (Z.leb_gt _ _)) by lia. rewrite (proj2 (Z.ltb_ge _ _)) by (rewrite length_app; lia).
  cbn [orb]. rewrite Nat2Z.id, take_app_length, drop_app_length, IH by (cbn in Hf; lia).
  unfold annex_b_of. cbn. by rewrite <- !app_assoc.
Qed.

(** * Theorems *)

(** Every unit of a sample comes out behind a start code, in order, whatever their
    number and with lengths of any width. *)
Theorem every_unit_is_converted n units :
  (0 < n)%nat -> units <> [] ->
  Forall (fun unit => unit <> [] /\ Z.of_nat (length unit) < 2 ^ (8 * Z.of_nat n)) units ->
  convert_to_annex_b n (sample_of n units) = Some (annex_b_of units).
Proof.
  intros Hn Hne Hu. unfold convert_to_annex_b. rewrite convert_units_of; [|done..|].
  - by destruct units.
  - clear Hne. induction Hu as [|unit units [Hu _] _ IH]; [cbn; lia|].
    change (sample_of n (unit :: units)) with ((be_bytes n (Z.of_nat (length unit)) ++ unit) ++ sample_of n units).
    rewrite !length_app, length_be_bytes. cbn [length]. lia.
Qed.

(** C37: However the worker, the task that starts the capture and the callbacks
    interleave: the only memory error there can be is a callback that reaches a
    capture sink which the worker has freed, and without a wait that timed out
    there is none; the thread never gets stuck, and when it has left, every box and
    both sessions have been freed once, no frame is left in the encoder, and no
    frame is delivered any more unless a wait had timed out; the sink is never told
    that the stream stopped by itself. *)
Theorem sinks_outlive_their_callbacks show show_encode steps w :
  run show show_encode steps initial = Some w ->
  Forall (fun f => f = UsedFreed CaptureSink) (faults w) /\
  (timed_out w = false -> faults w = []) /\
  ((exists r, thread w = Left r) \/ exists s w', thread_step show show_encode s w = Some w') /\
  (forall r, thread w = Left r ->
    let_go w /\ in_flight w = 0%nat /\ (timed_out w = false -> delivering w = false)) /\
  told w = 0%nat.
Proof.
  intros Hr. assert (well w) as (Ho & Hh & Hs & Hf1 & Hf2 & Hf3).
  { eapply run_invariant, Hr; [by intros; eapply well_next|apply well_initial]. }
  split_and!; [done|by intros H; destruct (Hf3 H)|apply thread_goes_on| |done].
  intros r Ht. unfold owned in Ho. rewrite Ht in Ho. destruct Ho as [Hl Hi]. split_and!; [done..|].
  intros H. destruct (delivering w) eqn:Ed; [|done].
  destruct (Hf3 H) as [_ Hd], Hl as [Hd' _]. by specialize (Hd eq_refl).
Qed.

(** * Examples *)

Module Examples.
Local Notation go steps := (run (fun _ => EmptyString) (fun _ => EmptyString) steps initial).

(** A capture that is started and stopped. *)
Definition ordinary : list step :=
  [CreateEncoder 0 EmptyString; StartCapture true; TaskCaptures; FrameCallback true; TaskFinishes; StartReturns EmptyString;
   EncodedCallback; FrameCallback true; FrameCallback false; PumpEnds (Ok tt); FrameCallback true; StopAcknowledged;
   StopReturns; EncodedCallback; CompleteFrames; DropEncoder].

Example ordinary_run :
  (fun w => (thread w, faults w, in_flight w, encoders w)) <$> go ordinary = Some (Left (Ok tt), [], 0%nat, 0%nat).
Proof. vm_compute. done. Qed.

(** The start takes longer than its fifteen seconds: the sink is freed, and then the
    task begins to capture into it. *)
Example late_start_uses_a_freed_sink :
  (fun w => (thread w, faults w))
  <$> go [CreateEncoder 0 EmptyString; StartCapture true; StartTimesOut EmptyString; DropEncoder; TaskCaptures; FrameCallback true;
          TaskFinishes; FrameCallback false; LateStop]
  = Some (Left (Err EmptyString), [UsedFreed CaptureSink; UsedFreed CaptureSink]).
Proof. vm_compute. done. Qed.

(** The stop is not acknowledged within its five seconds. *)
Example late_stop_uses_a_freed_sink :
  (fun w => faults w)
  <$> go [CreateEncoder 0 EmptyString; StartCapture true; TaskCaptures; TaskFinishes; StartReturns EmptyString; PumpEnds (Ok tt);
          StopTimesOut; FrameCallback true]
  = Some [UsedFreed CaptureSink].
Proof. vm_compute. done. Qed.

(** The stream stops by itself: nobody is told. *)
Example nobody_is_told :
  (fun w => (told w, thread w))
  <$> go [CreateEncoder 0 EmptyString; StartCapture true; TaskCaptures; TaskFinishes; StartReturns EmptyString; StreamStops]
  = Some (0%nat, Pumping).
Proof. vm_compute. done. Qed.

Example three_units :
  convert_to_annex_b 4 [0; 0; 0; 2; 103; 7; 0; 0; 0; 1; 104; 0; 0; 0; 3; 101; 8; 9]
  = Some [0; 0; 0; 1; 103; 7; 0; 0; 0; 1; 104; 0; 0; 0; 1; 101; 8; 9].
Proof. vm_compute. done. Qed.

(** A length past the end ends the conversion. *)
Example cut_short : convert_to_annex_b 2 [0; 1; 9; 0; 5; 1; 2] = Some [0; 0; 0; 1; 9].
Proof. vm_compute. done. Qed.

Example rectangles_in_fours : length (dirty_of (Some (replicate 11 (f64_of 1))) 2) = 2%nat.
Proof. vm_compute. done. Qed.
End Examples.

Lemma sinks_outlive_their_callbacks_witness :
  exists w, thread w = Left (Ok tt) /\ faults w = [] /\ delivering w = false.
Proof.
  pose (go := run (fun _ => EmptyString) (fun _ => EmptyString) Examples.ordinary initial).
  assert (Hg : (fun w => (thread w, timed_out w)) <$> go = Some (Left (Ok tt), false)) by (vm_compute; reflexivity).
  destruct go as [w|] eqn:E; [|discriminate Hg]. injection Hg as Ht Hto.
  destruct (sinks_outlive_their_callbacks _ _ _ _ E) as (_ & Hf & _ & Hl & _).
  exists w. split; [exact Ht|]. split; [exact (Hf Hto)|]. exact (proj2 (proj2 (Hl _ Ht)) Hto).
Defined.

Lemma every_unit_is_converted_witness :
  convert_to_annex_b 4 (sample_of 4 [[103; 7]; [104]]) = Some [0; 0; 0; 1; 103; 7; 0; 0; 0; 1; 104].
Proof. apply (every_unit_is_converted 4 [[103; 7]; [104]]); [lia|done|repeat constructor; done]. Defined.
