(* ===== verification/Setup.v ===== *)
(** What both programs do before they speak: the certificates of
    [src/src/pki.rs], the endpoints of [src/src/net.rs], and the first part of
    [main] in [sardp-server.rs] and [sardp-client.rs].

    What quinn, rustls, rustls-pemfile and rcgen do is the interface [Pki]: how a
    PEM file is read, how a certificate is made, which ones rustls accepts.  The
    settings an endpoint is given are records. *)

From S2P Require Import Prelude.
From S2P Require Import Unicode.
From S2P Require Import Crypto.
From S2P Require CommandLine.
Import CommandLine.

(** * Definitions *)

(** ** The libraries *)

Class Pki := {
  CertificateDer : Type;
  PrivatePkcs8KeyDer : Type;
  PemError : Type;
  (** [rustls_pemfile]: the certificates and keys in a file, in order. *)
  certs : list Z -> list (result PemError CertificateDer);
  pkcs8_private_keys : list Z -> list (result PemError PrivatePkcs8KeyDer);
  (** [rcgen::generate_simple_self_signed], with the randomness it draws. *)
  CertifiedKey : Type;
  generate_simple_self_signed : Z -> list string -> option CertifiedKey;
  pem : CertifiedKey -> list Z;
  der : CertifiedKey -> CertificateDer;
  serialize_der : CertifiedKey -> PrivatePkcs8KeyDer;
  (** Whether [with_single_cert] takes a chain and a key, and [RootCertStore::add] a
      certificate. *)
  well_formed : list CertificateDer -> PrivatePkcs8KeyDer -> bool;
  addable : CertificateDer -> bool;
}.

(** What is generated can be used, and the PEM of a certificate reads as it. *)
Class PkiLaws `{Pki} := {
  certs_pem k : certs (pem k) = [Ok (der k)];
  generated_well_formed seed names k :
    generate_simple_self_signed seed names = Some k -> well_formed [der k] (serialize_der k) = true;
  generated_addable seed names k : generate_simple_self_signed seed names = Some k -> addable (der k) = true;
}.

Section setup.
Context `{Pki} `{Ed25519} {SocketAddr F64 : Type}.

(** ** Files *)

(** [std::io::Error]. *)
Inductive io_error :=
| NotFound
| PermissionDenied
| InvalidData (m : string)
| Pem (e : PemError).

(** The files there are, and the names that must be neither read nor written. *)
Record disk := {
  files : gmap string (list Z);
  denied : gset string;
}.

Definition fs_read (d : disk) (path : string) : result io_error (list Z) :=
  if bool_decide (path ∈ denied d) then Err PermissionDenied
  else match files d !! path with Some bytes => Ok bytes | None => Err NotFound end.

Definition fs_write (d : disk) (path : string) (bytes : list Z) : result io_error disk :=
  if bool_decide (path ∈ denied d) then Err PermissionDenied
  else Ok {| files := <[path := bytes]> (files d); denied := denied d |}.

(** ** [pki.rs] *)

Record TestCertificate := {
  cert_der : CertificateDer;
  key_der : PrivatePkcs8KeyDer;
}.

Definition quoted (s : string) : string :=
  let mark := String (Ascii.ascii_of_nat 34) EmptyString in (mark ++ s ++ mark)%string.

(** [.next().ok_or_else(..)??]. *)
Definition first_of {A} (found : list (result PemError A)) (missing : string) : result io_error A :=
  match found with
  | [] => Err (InvalidData missing)
  | Err e :: _ => Err (Pem e)
  | Ok x :: _ => Ok x
  end.

Definition generate_test_certificate_with_pem (seed : Z) (hostname : string) : run (TestCertificate * list Z) :=
  k ← expect (generate_simple_self_signed seed [hostname]);
  Going ({| cert_der := der k; key_der := serialize_der k |}, pem k).

Definition generate_test_certificate (seed : Z) (hostname : string) : run TestCertificate :=
  '(c, _) ← generate_test_certificate_with_pem seed hostname; Going c.

Definition load_certificate_files (d : disk) (cert_path key_path : string) : result io_error TestCertificate :=
  cert_pem ← fs_read d cert_path;
  key_pem ← fs_read d key_path;
  cert ← first_of (certs cert_pem) ("no certificate found in " ++ cert_path)%string;
  key ← first_of (pkcs8_private_keys key_pem)
          ("no PKCS8 private key found in " ++ key_path ++ " (must be " ++ quoted "BEGIN PRIVATE KEY" ++ ", not "
           ++ quoted "BEGIN RSA/EC PRIVATE KEY" ++ ")")%string;
  Ok {| cert_der := cert; key_der := key |}.

Definition load_trusted_cert_pem (d : disk) (path : string) : result io_error CertificateDer :=
  bytes ← fs_read d path;
  first_of (certs bytes) ("no certificate found in " ++ path)%string.

Definition root_store_trusting (c : CertificateDer) : run (list CertificateDer) :=
  if addable c then Going [c] else Crashed.

(** ** [net.rs] *)

Definition ALPN : list Z := chars "sardp/1".

Inductive tls_version := TLS12 | TLS13.

(** What rustls is told, on either side. *)
Record ServerConfig := {
  s_versions : list tls_version;
  s_client_auth : bool;
  s_chain : list CertificateDer;
  s_key : PrivatePkcs8KeyDer;
  s_alpn_protocols : list (list Z);
  s_max_early_data_size : Z;
}.

Record ClientConfig := {
  c_versions : list tls_version;
  c_roots : list CertificateDer;
  c_client_auth : bool;
  c_alpn_protocols : list (list Z);
}.

Record endpoint (config : Type) := {
  bound_to : SocketAddr;
  settings : config;
}.
Arguments bound_to {config}.
Arguments settings {config}.

(** Whether a socket can be bound. *)
Variable bindable : SocketAddr -> bool.

Definition server_endpoint (bind_addr : SocketAddr) (c : TestCertificate) : run (endpoint ServerConfig) :=
  if negb (well_formed [cert_der c] (key_der c)) then Crashed
  else if negb (bindable bind_addr) then Crashed
  else
    Going {| bound_to := bind_addr;
             settings := {| s_versions := [TLS13]; s_client_auth := false; s_chain := [cert_der c];
                            s_key := key_der c; s_alpn_protocols := [ALPN]; s_max_early_data_size := 0 |} |}.

Definition client_endpoint (bind_addr : SocketAddr) (trusted_root : CertificateDer) : run (endpoint ClientConfig) :=
  roots ← root_store_trusting trusted_root;
  if negb (bindable bind_addr) then Crashed
  else
    Going {| bound_to := bind_addr;
             settings := {| c_versions := [TLS13]; c_roots := roots; c_client_auth := false;
                            c_alpn_protocols := [ALPN] |} |}.

(** ** The beginning of both programs *)

(** [unwrap_or_else(|e| panic!(..))]. *)
Definition unwrap {E A} (r : result E A) : run A := match r with Ok x => Going x | Err _ => Crashed end.

Definition server_certificate (a : ServerArgs (SocketAddr := SocketAddr) (F64 := F64)) (seed : Z) (d : disk) :
    run (TestCertificate * disk) :=
  choice ← choose_certificate a;
  match choice with
  | FromFiles cert_path key_path => c ← unwrap (load_certificate_files d cert_path key_path); Going (c, d)
  | Generated cert_out =>
      '(c, pem) ← generate_test_certificate_with_pem seed "localhost";
      d ← unwrap (fs_write d cert_out pem);
      Going (c, d)
  end.

Definition server_start (a : ServerArgs (SocketAddr := SocketAddr) (F64 := F64)) (seed : Z) (d : disk) :
    run (endpoint ServerConfig * disk) :=
  '(c, d) ← server_certificate a seed d;
  e ← server_endpoint (CommandLine.bind a) c;
  Going (e, d).

(** [any] is [0.0.0.0:0]. *)
Definition client_start (any : SocketAddr) (a : ClientArgs (SocketAddr := SocketAddr)) (d : disk) :
    run (endpoint ClientConfig) :=
  trusted_cert ← unwrap (load_trusted_cert_pem d (trust_cert a));
  client_endpoint any trusted_cert.

(** The client's [main]: what connecting and the session come to is given.  A
    session that fails ends the program with code 1. *)
Definition client_main {C} (connect : endpoint ClientConfig -> SocketAddr -> string -> option C)
    (session : C -> result unit unit) (any : SocketAddr) (a : ClientArgs (SocketAddr := SocketAddr)) (d : disk) :
    run unit :=
  e ← client_start any a d;
  connection ← expect (connect e (server a) (tls_hostname a));
  match session connection with Ok _ => Going tt | Err _ => Exited 1 end.

(** * Lemmas *)

Lemma first_of_ok {A} found missing (x : A) : first_of found missing = Ok x <-> exists rest, found = Ok x :: rest.
Proof.
  destruct found as [|[y|e] found]; cbn; (split; [|intros [rest E]; done || congruence]); try done.
  intros [= <-]. by eexists.
Qed.

Lemma load_certificate_files_ok d cert_path key_path c :
  load_certificate_files d cert_path key_path = Ok c <->
  exists cert_pem key_pem cs ks,
    fs_read d cert_path = Ok cert_pem /\ fs_read d key_path = Ok key_pem /\
    certs cert_pem = Ok (cert_der c) :: cs /\ pkcs8_private_keys key_pem = Ok (key_der c) :: ks.
Proof.
  unfold load_certificate_files. split.
  - intros (cb & Ec & (kb & Ek & (x & [cs Ex]%first_of_ok & (y & [ks Ey]%first_of_ok & [= <-])%bind_ok)%bind_ok)%bind_ok)%bind_ok.
    cbn. eauto 10.
  - intros (cb & kb & cs & ks & Ec & Ek & Ex & Ey). rewrite Ec. cbn. rewrite Ek. cbn. rewrite Ex. cbn. rewrite Ey. cbn.
    by destruct c.
Qed.

Lemma load_trusted_cert_pem_ok d path c :
  load_trusted_cert_pem d path = Ok c <-> exists bytes cs, fs_read d path = Ok bytes /\ certs bytes = Ok c :: cs.
Proof.
  unfold load_trusted_cert_pem. split.
  - intros (bytes & Er & [cs Ec]%first_of_ok)%bind_ok. eauto.
  - intros (bytes & cs & Er & Ec). rewrite Er. cbn. by rewrite Ec.
Qed.

Lemma read_written d path bytes d' : fs_write d path bytes = Ok d' -> fs_read d' path = Ok bytes.
Proof.
  unfold fs_write, fs_read. case_bool_decide; [done|]. intros [= <-]. cbn.
  rewrite bool_decide_false by done. by rewrite lookup_insert_eq.
Qed.

Lemma going_bind {A B} (m : run A) (f : A -> run B) y : m ≫= f = Going y <-> exists x, m = Going x /\ f x = Going y.
Proof. destruct m; cbn; split; [by eauto|by intros (? & [= <-] & ?)|done|by intros (? & ? & ?)|done|by intros (? & ? & ?)]. Qed.

Lemma unwrap_going {E A} (r : result E A) x : unwrap r = Going x <-> r = Ok x.
Proof. destruct r; cbn; split; congruence. Qed.

(** Where the certificate that the server presents is. *)
Definition presented_at (a : ServerArgs (SocketAddr := SocketAddr) (F64 := F64)) : string := default (cert_out a) (cert a).

(** A server that has its certificate: the file of that certificate reads as it. *)
Lemma server_certificate_readable `{!PkiLaws} a seed d c d' :
  server_certificate a seed d = Going (c, d') ->
  load_trusted_cert_pem d' (presented_at a) = Ok (cert_der c) /\
  (cert a = None -> addable (cert_der c) = true /\ well_formed [cert_der c] (key_der c) = true).
Proof.
  unfold server_certificate, choose_certificate, presented_at.
  destruct (cert a) as [cert_path|], (key a) as [key_path|]; cbn; try done.
  - intros (c' & Hc%unwrap_going & [= <- <-])%going_bind. apply load_certificate_files_ok in Hc.
    destruct Hc as (cb & kb & cs & ks & Ec & _ & Ex & _). split; [|done]. apply load_trusted_cert_pem_ok. eauto.
  - intros ([c' bytes] & Hg & (d1 & Hw%unwrap_going & [= <- <-])%going_bind)%going_bind.
    unfold generate_test_certificate_with_pem in Hg. destruct (generate_simple_self_signed _ _) as [k|] eqn:Ek; [|done].
    injection Hg as <- <-. cbn. split.
    + apply load_trusted_cert_pem_ok. exists (pem k), []. split; [by eapply read_written|apply certs_pem].
    + intros _. split; [by eapply generated_addable|by eapply generated_well_formed].
Qed.

(** * Theorems *)

(** Once the server is up, a client whose [--trust-cert] names the server's
    certificate file, or the file in which the server saved the certificate it has
    generated, is set up to trust exactly the one certificate that the server
    presents, with the same versions of TLS and the same protocol; it stops only if
    rustls refuses that certificate as a root, which a generated one never is.
    The server takes no early data and asks for no certificate. *)
Theorem trust_cert_is_presented `{!PkiLaws} a seed d e d' c any :
  server_start a seed d = Going (e, d') -> trust_cert c = presented_at a -> bindable any = true ->
  exists presented,
    s_chain (settings e) = [presented] /\ bound_to e = CommandLine.bind a /\
    client_start any c d'
    = (if addable presented then
         Going {| bound_to := any;
                  settings := {| c_versions := s_versions (settings e); c_roots := [presented];
                                 c_client_auth := s_client_auth (settings e);
                                 c_alpn_protocols := s_alpn_protocols (settings e) |} |}
       else Crashed) /\
    (cert a = None -> addable presented = true) /\
    s_versions (settings e) = [TLS13] /\ s_alpn_protocols (settings e) = [ALPN] /\
    s_client_auth (settings e) = false /\ s_max_early_data_size (settings e) = 0.
Proof.
  unfold server_start. intros ([t d1] & Hc & (e1 & He & [= <- <-])%going_bind)%going_bind Ht Hb.
  destruct (server_certificate_readable _ _ _ _ _ Hc) as [Hr Hg].
  unfold server_endpoint in He. destruct (well_formed _ _), (bindable (CommandLine.bind a)); try done. injection He as <-.
  exists (cert_der t). cbn. split_and!; try done; [|by intros []%Hg].
  unfold client_start, client_endpoint, root_store_trusting. rewrite Ht, Hr. cbn. destruct (addable _); [|done]. cbn.
  by rewrite Hb.
Qed.

(** What keeps the server from starting: only one of the two options, files that
    do not read as a certificate and its key, a file that cannot be written, or an
    address that cannot be bound; it then panics, and without the options and with
    a file that can be written only the address is left. *)
Theorem server_starts `{!PkiLaws} a seed d :
  (forall code, server_start a seed d <> Exited code) /\
  (forall cert_path key_path, cert a = Some cert_path -> key a = Some key_path ->
    (exists e, server_start a seed d = Going (e, d)) <->
    (exists c, load_certificate_files d cert_path key_path = Ok c /\ well_formed [cert_der c] (key_der c) = true) /\
    bindable (CommandLine.bind a) = true) /\
  (cert a = None -> key a = None -> cert_out a ∉ denied d ->
    generate_simple_self_signed seed ["localhost"%string] <> None -> bindable (CommandLine.bind a) = true ->
    exists e d', server_start a seed d = Going (e, d')).
Proof.
  unfold server_start, server_certificate, choose_certificate, generate_test_certificate_with_pem, server_endpoint.
  split_and!.
  - intros code. destruct (cert a), (key a); cbn; try done.
    + destruct (load_certificate_files _ _ _) as [c|]; cbn; [|done]. by destruct (well_formed _ _), (bindable _).
    + destruct (generate_simple_self_signed _ _); cbn; [|done]. destruct (fs_write _ _ _); cbn; [|done].
      by destruct (well_formed _ _), (bindable _).
  - intros cert_path key_path -> ->. cbn. destruct (load_certificate_files _ _ _) as [c|]; cbn.
    + destruct (well_formed _ _) eqn:Ew, (bindable _); cbn; (split; [intros [? ?]|intros [(? & [= <-] & ?) ?]]); try congruence; eauto.
    + split; [intros [? ?]; done|intros [(? & ? & _) _]; done].
  - intros -> -> Hd Hg Hb. cbn. destruct (generate_simple_self_signed _ _) as [k|] eqn:Ek; [|done]. cbn.
    unfold fs_write. rewrite bool_decide_false by done. cbn. erewrite generated_well_formed by done. rewrite Hb. cbn. eauto.
Qed.
End setup.
Arguments bound_to {SocketAddr config}.
Arguments settings {SocketAddr config}.

(** * Examples *)

Module Examples.
(** A library whose files are one number in front of a certificate or a key. *)
#[local] Instance plain_pki : Pki := {|
  CertificateDer := list Z; PrivatePkcs8KeyDer := list Z; PemError := unit; CertifiedKey := Z;
  certs bytes := match bytes with 1 :: c => [Ok c] | 3 :: _ => [Err tt] | _ => [] end;
  pkcs8_private_keys bytes := match bytes with 2 :: k => [Ok k] | _ => [] end;
  generate_simple_self_signed seed _ := Some seed;
  pem k := [1; k]; der k := [k]; serialize_der k := [k];
  well_formed chain k := bool_decide (chain = [k]);
  addable _ := true;
|}.

#[local] Instance plain_laws : PkiLaws.
Proof. split; [done| |done]. intros seed names k _. apply bool_decide_true. done. Qed.

#[local] Existing Instance toy_ed25519.

Definition no_options : ServerArgs (SocketAddr := Z) (F64 := unit) := server_defaults 4433 tt.
Definition free (addr : Z) : bool := negb (addr =? 80).

Definition trusting (path : string) : ClientArgs (SocketAddr := Z) :=
  {| server := 4433; trust_cert := path; tls_hostname := "localhost"; signing_key := dev_signing_key;
     user_id := "u"; device_id := "d"; client_name := "c"; target_latency_us := 50000; session_file := None;
     display := ClientVideo.LogMode; window_size := (1280, 720); dump_frames := None; input := true;
     input_script := false |}.

Definition empty_disk : disk := {| files := ∅; denied := {["locked"%string]} |}.

Example generated_certificate_is_trusted :
  match server_start free no_options 7 empty_disk with
  | Going (_, d) => (c_roots ∘ settings) <$> (match client_start free 0 (trusting "sardp-dev-cert.pem") d with Going e => Some e | _ => None end)
  | _ => None
  end = Some [[7]].
Proof. vm_compute. done. Qed.

Example wrong_file : client_start free 0 (trusting "other.pem") empty_disk = Crashed.
Proof. vm_compute. done. Qed.

Example bad_certificate :
  load_certificate_files {| files := {["a"%string := [3]; "b"%string := [2; 5]]}; denied := ∅ |} "a" "b" = Err (Pem tt).
Proof. vm_compute. done. Qed.

Lemma trust_cert_is_presented_witness :
  exists e d,
    server_start free no_options 7 empty_disk = Going (e, d) /\
    exists ce, client_start free 0 (trusting "sardp-dev-cert.pem") d = Going ce /\ c_roots (settings ce) = s_chain (settings e).
Proof.
  destruct (server_start free no_options 7 empty_disk) as [[e d]| |] eqn:E; [|discriminate E|discriminate E].
  exists e, d. split; [reflexivity|].
  destruct (trust_cert_is_presented free no_options 7 empty_disk e d (trusting "sardp-dev-cert.pem") 0 E eq_refl eq_refl)
    as (p & Hp & _ & Hs & Ha & _).
  rewrite Ha in Hs by reflexivity. rewrite Hs, Hp. by eexists.
Defined.

Lemma server_starts_witness : exists e d, server_start free no_options 7 empty_disk = Going (e, d).
Proof.
  apply (server_starts free no_options 7 empty_disk); try reflexivity; [|discriminate].
  vm_compute. intros H. discriminate.
Defined.
End Examples.
