(* ===== verification/Netem.v ===== *)
(** The emulated network conditions: the model of [src/src/netem.rs], with the guard
    of [src/src/drop_guard.rs].  The kernel's queueing discipline on the loopback
    interface is the state that the program [tc] changes; what [tc] does is a
    parameter, with what its documentation says of adding, replacing and deleting
    as its laws. *)

From S2P Require Import Prelude.
From S2P Require Import Decimal.
From S2P Require Import Unicode.
From S2P Require Ffmpeg.

(** * Definitions *)

Definition DEFAULT_IFACE : string := "lo".

(** An [f32]: whether it is above zero, and its [Display]. *)
Class F32 := {
  f32 : Type;
  zero : f32;
  above_zero : f32 -> bool;
  show_f32 : f32 -> string;
  zero_not_above : above_zero zero = false;
}.

(** [tc]: the machine, what the program does to it, and the discipline at the root
    of an interface, if there is one. *)
Class Tc := {
  IoError : Type;
  machine : Type;
  tc : list string -> machine -> Ffmpeg.child IoError * machine;
  root_qdisc : string -> machine -> option (list string);
}.

Definition ended_well `{Tc} (c : Ffmpeg.child IoError) : bool :=
  match c with Ffmpeg.Ended o => Ffmpeg.success (Ffmpeg.status o) | _ => false end.

Definition qdisc (verb dev : string) (spec : list string) : list string :=
  "qdisc"%string :: verb :: "dev"%string :: dev :: "root"%string :: spec.

(** A call that fails changes nothing; adding is refused where there is a
    discipline. *)
Class TcLaws `{Tc} := {
  tc_fails args m : ended_well (tc args m).1 = false -> forall dev, root_qdisc dev (tc args m).2 = root_qdisc dev m;
  tc_add dev spec m :
    ended_well (tc (qdisc "add" dev spec) m).1 = true ->
    root_qdisc dev m = None /\
    root_qdisc dev (tc (qdisc "add" dev spec) m).2 = Some spec;
  tc_replace dev spec m :
    ended_well (tc (qdisc "replace" dev spec) m).1 = true ->
    root_qdisc dev (tc (qdisc "replace" dev spec) m).2 = Some spec;
  tc_del dev m :
    ended_well (tc (qdisc "del" dev []) m).1 = true ->
    root_qdisc dev (tc (qdisc "del" dev []) m).2 = None;
}.

Section netem.
Context `{F32} `{Tc}.

Inductive NetemError :=
| Spawn (e : IoError)
| CommandFailed (stderr : list Z).

Definition run_tc (args : list string) (m : machine) : result NetemError unit * machine :=
  let '(output, m) := tc args m in
  match output with
  | Ffmpeg.NotSpawned e | Ffmpeg.NotWaited e => (Err (Spawn e), m)
  | Ffmpeg.Ended o =>
      if negb (Ffmpeg.success (Ffmpeg.status o)) then (Err (CommandFailed (Ffmpeg.stderr o)), m) else (Ok tt, m)
  end.

Record NetemProfile := {
  delay_ms : Z;
  jitter_ms : option Z;
  loss_percent : f32;
}.

Definition LAN : NetemProfile := {| delay_ms := 0; jitter_ms := None; loss_percent := zero |}.
Definition WAN_80MS_RTT : NetemProfile := {| delay_ms := 80; jitter_ms := None; loss_percent := zero |}.
Definition HIGH_RTT_NO_CONGESTION : NetemProfile := {| delay_ms := 300; jitter_ms := None; loss_percent := zero |}.

Definition milliseconds (n : Z) : string := string_of_bytes (show_uint n ++ chars "ms").

Definition netem_args (p : NetemProfile) : list string :=
  ["delay"%string; milliseconds (delay_ms p)]
  ++ match jitter_ms p with Some jitter => [milliseconds jitter] | None => [] end
  ++ (if above_zero (loss_percent p) then ["loss"; show_f32 (loss_percent p) ++ "%"]%string else []).

Definition clear (m : machine) : result NetemError unit * machine :=
  run_tc (qdisc "del" DEFAULT_IFACE []) m.

Definition netem_available (m : machine) : bool * machine :=
  let '(r, m) := run_tc (qdisc "add" DEFAULT_IFACE ["netem"; "delay"; "1ms"]%string) m in
  match r with
  | Err _ => (false, m)
  | Ok _ => let '(r, m) := clear m in (match r with Ok _ => true | Err _ => false end, m)
  end.

Definition apply_profile (p : NetemProfile) (m : machine) : result NetemError unit * machine :=
  run_tc (qdisc "replace" DEFAULT_IFACE ("netem"%string :: netem_args p)) m.

(** [NetemGuard::apply], then [body], then the guard's drop, which runs however
    [body] ends: [None] if it panics. *)
Definition with_guard {A} (p : NetemProfile) (body : machine -> option A * machine) (m : machine) :
    result NetemError (option A) * machine :=
  let '(r, m) := apply_profile p m in
  match r with
  | Err e => (Err e, m)
  | Ok _ =>
      let '(x, m) := body m in
      (Ok x, (clear m).2)
  end.

(** * Lemmas *)

(** What [run_tc] reports is whether [tc] ended well. *)
Lemma run_tc_spec args m :
  (run_tc args m).2 = (tc args m).2 /\
  ((run_tc args m).1 = Ok tt <-> ended_well (tc args m).1 = true).
Proof.
  unfold run_tc. destruct (tc args m) as [[e|e|o] m']; cbn; [done..|]. by destruct (Ffmpeg.success _).
Qed.

Context `{!TcLaws}.

Lemma apply_profile_ok p m :
  (apply_profile p m).1 = Ok tt ->
  root_qdisc DEFAULT_IFACE (apply_profile p m).2 = Some ("netem"%string :: netem_args p).
Proof using H H0 H1.
  unfold apply_profile. intros Ho. destruct (run_tc_spec (qdisc "replace" DEFAULT_IFACE ("netem"%string :: netem_args p)) m) as [-> Hr].
  by apply tc_replace, Hr.
Qed.

Lemma clear_ok m : (clear m).1 = Ok tt -> root_qdisc DEFAULT_IFACE (clear m).2 = None.
Proof using H0 H1.
  unfold clear. pose proof (run_tc_spec (qdisc "del" DEFAULT_IFACE []) m) as [-> ->]. apply tc_del.
Qed.

Lemma run_tc_fails args m dev :
  (run_tc args m).1 <> Ok tt -> root_qdisc dev (run_tc args m).2 = root_qdisc dev m.
Proof using H0 H1.
  pose proof (run_tc_spec args m) as [-> Hr]. intros Hn. apply tc_fails.
  destruct (ended_well _) eqn:E; [|done]. by destruct Hn, Hr as [_ ->].
Qed.

(** * Theorems *)

(** Asking whether conditions can be emulated leaves the interface as it was when
    the answer is yes, and unless taking the trial back failed also when it is
    no. *)
Theorem asking_changes_nothing m :
  let trial := run_tc (qdisc "add" DEFAULT_IFACE ["netem"; "delay"; "1ms"]%string) m in
  (netem_available m).1 = true \/ trial.1 <> Ok tt ->
  root_qdisc DEFAULT_IFACE (netem_available m).2 = root_qdisc DEFAULT_IFACE m.
Proof using H0 H1.
  intros trial. unfold netem_available. fold trial. destruct trial as [r m1] eqn:Et. subst trial.
  assert (Hr : (run_tc (qdisc "add" DEFAULT_IFACE ["netem"; "delay"; "1ms"]%string) m) = (r, m1)) by done.
  destruct r as [[]|e].
  - pose proof (run_tc_spec (qdisc "add" DEFAULT_IFACE ["netem"; "delay"; "1ms"]%string) m) as [_ Ho].
    rewrite Hr in Ho. destruct (tc_add DEFAULT_IFACE ["netem"; "delay"; "1ms"]%string m) as [Hnone _]; [by apply Ho|].
    destruct (clear m1) as [[[]|e] m2] eqn:Ec; cbn; [|by intros [?|[]]]. intros _. rewrite Hnone.
    pose proof (clear_ok m1) as Hc. rewrite Ec in Hc. by apply Hc.
  - intros _. cbn. pose proof (run_tc_fails _ m DEFAULT_IFACE ltac:(by rewrite Hr)) as Hf. by rewrite Hr in Hf.
Qed.

(** Behind the guard the interface has no emulated conditions, whether the body
    returned or panicked, if the deletion is carried out; and while the body runs
    it has exactly those of the profile. *)
Theorem guard_restores {A} p (body : machine -> option A * machine) m :
  match apply_profile p m with
  | (Ok _, m1) =>
      root_qdisc DEFAULT_IFACE m1 = Some ("netem"%string :: netem_args p) /\
      (with_guard p body m).1 = Ok (body m1).1 /\
      ((clear (body m1).2).1 = Ok tt -> root_qdisc DEFAULT_IFACE (with_guard p body m).2 = None)
  | (Err e, m1) =>
      (with_guard p body m).1 = Err e /\ forall dev, root_qdisc dev (with_guard p body m).2 = root_qdisc dev m
  end.
Proof using H H0 H1.
  unfold with_guard. destruct (apply_profile p m) as [[[]|e] m1] eqn:Ea.
  - pose proof (apply_profile_ok p m) as Hp. rewrite Ea in Hp. destruct (body m1) as [x m2] eqn:Eb. cbn.
    split_and!; [by apply Hp|done|apply clear_ok].
  - cbn. split; [done|]. intros dev. pose proof (run_tc_fails _ m dev ltac:(by unfold apply_profile in Ea; rewrite Ea)) as Hf.
    unfold apply_profile in Ea. by rewrite Ea in Hf.
Qed.

(** A jitter follows the delay, and the loss is left out unless it is above zero. *)
Theorem netem_args_cases p :
  netem_args p
  = match jitter_ms p, above_zero (loss_percent p) with
    | None, false => ["delay"%string; milliseconds (delay_ms p)]
    | Some j, false => ["delay"%string; milliseconds (delay_ms p); milliseconds j]
    | None, true => ["delay"%string; milliseconds (delay_ms p); "loss"%string; (show_f32 (loss_percent p) ++ "%")%string]
    | Some j, true =>
        ["delay"%string; milliseconds (delay_ms p); milliseconds j; "loss"%string; (show_f32 (loss_percent p) ++ "%")%string]
    end.
Proof. unfold netem_args. by destruct (jitter_ms p), (above_zero _). Qed.
End netem.

(** * Examples *)

Module Examples.
#[local] Instance whole_numbers : F32 := {|
  f32 := Z; zero := 0; above_zero x := 0 <? x; show_f32 x := string_of_bytes (show_uint x); zero_not_above := eq_refl |}.

Definition done_well : Ffmpeg.child unit :=
  Ffmpeg.Ended {| Ffmpeg.written := Ok tt; Ffmpeg.status := 0; Ffmpeg.stdout := []; Ffmpeg.stderr := [] |}.
Definition refused : Ffmpeg.child unit :=
  Ffmpeg.Ended {| Ffmpeg.written := Ok tt; Ffmpeg.status := 2; Ffmpeg.stdout := []; Ffmpeg.stderr := chars "Error" |}.

(** A machine with one interface. *)
#[local] Instance one_interface : Tc := {|
  IoError := unit;
  machine := option (list string);
  tc args m :=
    match args with
    | _ :: verb :: _ :: dev :: _ :: spec =>
        if negb (String.eqb dev "lo") then (refused, m)
        else if String.eqb verb "add" then match m with None => (done_well, Some spec) | Some _ => (refused, m) end
        else if String.eqb verb "replace" then (done_well, Some spec)
        else if String.eqb verb "del" then match m with None => (refused, m) | Some _ => (done_well, None) end
        else (refused, m)
    | _ => (refused, m)
    end;
  root_qdisc dev m := if String.eqb dev "lo" then m else None;
|}.

#[local] Instance one_interface_laws : TcLaws.
Proof.
  split; cbn.
  - intros args m. destruct args as [|a [|verb [|b [|dev [|c spec]]]]]; cbn; try done.
    destruct (String.eqb dev "lo"); cbn; [|done].
    destruct (String.eqb verb "add"); [by destruct m|]. destruct (String.eqb verb "replace"); [done|].
    destruct (String.eqb verb "del"); [by destruct m|done].
  - intros dev spec m. destruct (String.eqb dev "lo"); cbn; [|done]. by destruct m.
  - intros dev spec m. by destruct (String.eqb dev "lo").
  - intros dev m. destruct (String.eqb dev "lo"); cbn; [|done]. by destruct m.
Qed.

Example wan : netem_args WAN_80MS_RTT = ["delay"; "80ms"]%string.
Proof. vm_compute. done. Qed.

Example lossy : netem_args {| delay_ms := 5; jitter_ms := Some 2; loss_percent := 1 |} = ["delay"; "5ms"; "2ms"; "loss"; "1%"]%string.
Proof. vm_compute. done. Qed.

Example available : netem_available None = (true, None).
Proof. vm_compute. done. Qed.

Example occupied : netem_available (Some ["fq"%string]) = (false, Some ["fq"%string]).
Proof. vm_compute. done. Qed.

Example panics_inside : with_guard LAN (fun m => (None : option unit, m)) (Some ["fq"%string]) = (Ok None, None).
Proof. vm_compute. done. Qed.

Lemma asking_changes_nothing_witness : root_qdisc DEFAULT_IFACE (netem_available (None : @machine one_interface)).2 = None.
Proof. apply (asking_changes_nothing (None : @machine one_interface)). left. reflexivity. Defined.
End Examples.
