(* ===== verification/ServerMain.v ===== *)
(** The server's [main] in [src/sardp-cli/src/bin/sardp-server.rs]: the loop that
    accepts connections, the reader of admin commands, the shutdown, and what the
    tasks of the connections share with them -- the queue of admin commands behind
    its lock, and the notification of the shutdown.

    What a session does by itself is modelled in ServerConnection and ServerSession;
    here a task is the place where it stands.  A notification reaches the tasks that
    wait for it and no others ([Notify::notify_waiters]); the lock is handed over in
    the order of asking ([tokio::sync::Mutex]). *)

From S2P Require Import Prelude.
From S2P Require Import RecordUpdate.
From S2P Require Import PermissionSet.
From S2P Require Import PermissionSm.
From S2P Require CommandLine.

(** * Definitions *)

(** Where the task of a connection stands: before the connection is there, before
    its loop, in its [select!], behind the arm of the shutdown, in another arm,
    before the lock, at the commands it has taken, or over. *)
Inductive place :=
| Connecting
| SettingUp
| Selecting
| Notified
| Busy
| AwaitingLock
| Draining (rest : list AdminCommand)
| Ended (clean : bool).

(** Who asks for the lock. *)
Inductive taker := Session (i : nat) | Reader.

(** The reader waits for a line, waits for the lock with a command, or has
    returned. *)
Inductive reader_point := Reading | Pushing (c : AdminCommand) | Returned.

Inductive main_point := Listening | Closing | Joining | Stopped.

#[export] Instance admin_command_eq_dec : EqDecision AdminCommand.
Proof. solve_decision. Defined.
#[export] Instance place_eq_dec : EqDecision place.
Proof. solve_decision. Defined.
#[export] Instance reader_point_eq_dec : EqDecision reader_point.
Proof. solve_decision. Defined.
#[export] Instance main_point_eq_dec : EqDecision main_point.
Proof. solve_decision. Defined.

(** [reader_told]: the notification has reached the reader.  [handled] are the
    commands that sessions have taken, in order, with whether they were carried
    out; [typed] the commands that were read; [told] the sessions that wrote
    [SESSION_CLOSE]. *)
Record server := {
  main : main_point;
  open : bool;
  tasks : list place;
  holder : option taker;
  waiters : list taker;
  permission_command : list AdminCommand;
  reader : reader_point;
  reader_told : bool;
  timed_out : bool;
  typed : list AdminCommand;
  handled : list (nat * AdminCommand * bool);
  told : list nat;
}.

#[export] Instance server_eta : Eta server := fun w =>
  {| main := main w; open := open w; tasks := tasks w; holder := holder w; waiters := waiters w;
     permission_command := permission_command w; reader := reader w; reader_told := reader_told w;
     timed_out := timed_out w; typed := typed w; handled := handled w; told := told w |}.

Definition initial : server :=
  {| main := Listening; open := true; tasks := []; holder := None; waiters := []; permission_command := [];
     reader := Reading; reader_told := false; timed_out := false; typed := []; handled := []; told := [] |}.

Definition set_task (i : nat) (p : place) (w : server) : server := w <| tasks := <[i := p]> (tasks w) |>.

(** [lock().await]. *)
Definition ask (t : taker) (w : server) : server := w <| waiters := waiters w ++ [t] |>.

(** The lock is free and [t] is the next: it gets it. *)
Definition take_lock (t : taker) (w : server) : option server :=
  match holder w, waiters w with
  | None, t' :: waiters' =>
      match t, t' with
      | Reader, Reader => Some (w <| holder := Some t |> <| waiters := waiters' |>)
      | Session i, Session i' =>
          if (i =? i')%nat then Some (w <| holder := Some t |> <| waiters := waiters' |>) else None
      | _, _ => None
      end
  | _, _ => None
  end.

Definition release_lock (w : server) : server := w <| holder := None |>.

(** ** The reader *)

(** The reader has read a line, or the input has ended. *)
Definition on_line (line : option (list Z)) (w : server) : server :=
  match line with
  | None => w <| reader := Returned |>
  | Some line =>
      let w := w <| reader_told := false |> in
      if bool_decide (trim line = []) then w
      else match parse_admin_command line with
           | Some c => ask Reader (w <| reader := Pushing c |> <| typed := typed w ++ [c] |>)
           | None => w
           end
  end.

(** [lock().await.push(command)]. *)
Definition push_command (c : AdminCommand) (w : server) : option server :=
  w ← take_lock Reader w;
  Some (release_lock (w <| permission_command := permission_command w ++ [c] |> <| reader := Reading |>)).

(** ** The sessions *)

(** [commands.drain(..)] behind the lock. *)
Definition take_commands (i : nat) (w : server) : option server :=
  w ← take_lock (Session i) w;
  Some (set_task i (Draining (permission_command w)) w <| permission_command := [] |>).

(** A toggle is written to the peer; the clipboard is left to another task. *)
Definition written (c : AdminCommand) : bool := match c with TogglePermission _ _ => true | SendClipboard => false end.

(** The next command, of those taken: if the write fails, the session ends, and the
    rest goes with it. *)
Definition carry_out (i : nat) (c : AdminCommand) (rest : list AdminCommand) (ok : bool) (w : server) : server :=
  if ok then set_task i (Draining rest) w <| handled := handled w ++ [(i, c, true)] |>
  else release_lock (set_task i (Ended false) w
         <| handled := handled w ++ map (fun c => (i, c, false)) (c :: rest) |>).

(** [close_gracefully]; its write is let go if it fails. *)
Definition say_goodbye (i : nat) (ok : bool) (w : server) : server :=
  set_task i (Ended true) w <| told := if ok then told w ++ [i] else told w |>.

(** ** [main] *)

(** [notify_waiters]. *)
Definition notify (p : place) : place := match p with Selecting => Notified | p => p end.

Definition shut_down (w : server) : server :=
  w <| tasks := map notify (tasks w) |>
    <| reader_told := match reader w with Reading => true | _ => reader_told w end |> <| main := Closing |>.

Definition ended (p : place) : bool := match p with Ended _ => true | _ => false end.

Inductive step :=
| Incoming
| DriverLost
| NoIncoming
| Signal
| CloseEndpoint
| AllJoined
| JoinTimesOut
| Line (line : option (list Z))
| ReaderStops
| Push
| Connected (i : nat) (ok : bool)
| SetUp (i : nat) (ok : bool) (clean : bool)
| OtherArm (i : nat)
| FrameTick (i : nat)
| TakeCommands (i : nat)
| Command (i : nat) (ok : bool)
| DrainOver (i : nat)
| BackToSelect (i : nat)
| Leave (i : nat) (clean : bool)
| Goodbye (i : nat) (ok : bool).

(** [None]: not now.  What goes through the connection succeeds only while the
    endpoint is open. *)
Definition step_of (s : step) (w : server) : option server :=
  match s with
  | Incoming => guard (main w = Listening /\ open w = true);; Some (w <| tasks := tasks w ++ [Connecting] |>)
  | DriverLost => Some (w <| open := false |>)
  | NoIncoming => guard (main w = Listening /\ open w = false);; Some (w <| main := Closing |>)
  | Signal => guard (main w = Listening);; Some (shut_down w)
  | CloseEndpoint => guard (main w = Closing);; Some (w <| open := false |> <| main := Joining |>)
  | AllJoined => guard (main w = Joining /\ forallb ended (tasks w) = true);; Some (w <| main := Stopped |>)
  | JoinTimesOut => guard (main w = Joining);; Some (w <| main := Stopped |> <| timed_out := true |>)
  | Line line => guard (reader w = Reading);; Some (on_line line w)
  | ReaderStops => guard (reader w = Reading /\ reader_told w = true);; Some (w <| reader := Returned |>)
  | Push => match reader w with Pushing c => push_command c w | _ => None end
  | Connected i ok =>
      guard (tasks w !! i = Some Connecting /\ implb ok (open w) = true);;
      Some (set_task i (if ok then SettingUp else Ended false) w)
  | SetUp i ok clean =>
      guard (tasks w !! i = Some SettingUp /\ implb ok (open w) = true);;
      Some (set_task i (if ok then Selecting else Ended clean) w)
  | OtherArm i => guard (tasks w !! i = Some Selecting);; Some (set_task i Busy w)
  | FrameTick i => guard (tasks w !! i = Some Selecting);; Some (ask (Session i) (set_task i AwaitingLock w))
  | TakeCommands i => guard (tasks w !! i = Some AwaitingLock);; take_commands i w
  | Command i ok =>
      match tasks w !! i with
      | Some (Draining (c :: rest)) =>
          guard ((if written c then implb ok (open w) else ok) = true);; Some (carry_out i c rest ok w)
      | _ => None
      end
  | DrainOver i => guard (tasks w !! i = Some (Draining []));; Some (release_lock (set_task i Busy w))
  | BackToSelect i => guard (tasks w !! i = Some Busy);; Some (set_task i Selecting w)
  | Leave i clean => guard (tasks w !! i = Some Busy);; Some (set_task i (Ended clean) w)
  | Goodbye i ok =>
      guard (tasks w !! i = Some Notified /\ implb ok (open w) = true);; Some (say_goodbye i ok w)
  end.

(** Once [main] has returned, the process is gone. *)
Definition next (s : step) (w : server) : option server :=
  match main w with Stopped => None | _ => step_of s w end.

Fixpoint run (steps : list step) (w : server) : option server :=
  match steps with
  | [] => Some w
  | s :: steps => w ← next s w; run steps w
  end.

(** * Lemmas *)

Lemma run_app steps steps' w : run (steps ++ steps') w = (w ← run steps w; run steps' w).
Proof. revert w. induction steps as [|s steps IH]; intros w; cbn; [done|]. destruct (next s w); cbn; [apply IH|done]. Qed.

Lemma run_keeps (I : server -> Prop) steps w w' :
  (forall s w w', I w -> main w <> Stopped -> step_of s w = Some w' -> I w') -> I w -> run steps w = Some w' -> I w'.
Proof.
  intros Hstep. revert w. induction steps as [|s steps IH]; intros w Hw; cbn.
  - by intros [= <-].
  - unfold next. destruct (main w) eqn:Em; try done; destruct (step_of s w) as [w1|] eqn:E; try done; cbn; intros Hr;
      eapply IH, Hr; (eapply Hstep; [exact Hw| |exact E]); congruence.
Qed.

Lemma lookup_set_task (ts : list place) i p p' j :
  ts !! i = Some p' -> <[i := p]> ts !! j = if (j =? i)%nat then Some p else ts !! j.
Proof.
  intros Hi. destruct (Nat.eqb_spec j i) as [->|Hn]; [|by rewrite list_lookup_insert_ne].
  apply list_lookup_insert_eq. by eapply lookup_lt_Some.
Qed.

(** What the holder of the lock has in hand. *)
Definition hand (p : place) : list AdminCommand := match p with Draining rest => rest | _ => [] end.

Definition in_hand (w : server) : list AdminCommand :=
  match holder w with
  | Some (Session i) => match tasks w !! i with Some p => hand p | None => [] end
  | _ => []
  end.

Definition pushing (w : server) : list AdminCommand := match reader w with Pushing c => [c] | _ => [] end.

(** The lock is held exactly where commands are being carried out. *)
Definition locked (w : server) : Prop :=
  (forall i rest, tasks w !! i = Some (Draining rest) -> holder w = Some (Session i)) /\
  (forall t, holder w = Some t -> exists i rest, t = Session i /\ tasks w !! i = Some (Draining rest)).

(** Who waits for the lock is in its queue, once. *)
Definition queued (w : server) : Prop :=
  (forall i, tasks w !! i = Some AwaitingLock <-> Session i ∈ waiters w) /\
  ((exists c, reader w = Pushing c) <-> Reader ∈ waiters w) /\ NoDup (waiters w).

(** No command is lost from sight, and they keep their order. *)
Definition in_order (w : server) : Prop :=
  map (fun h => h.1.2) (handled w) ++ in_hand w ++ permission_command w ++ pushing w = typed w.

(** The listening ends before the endpoint's closing, which ends before the joining. *)
Definition phases (w : server) : Prop :=
  (main w = Joining \/ main w = Stopped -> open w = false) /\
  (main w = Stopped -> timed_out w = false -> forallb ended (tasks w) = true) /\
  (main w = Listening -> told w = [] /\ Forall (fun p => p <> Notified) (tasks w)).

Definition good (w : server) : Prop := locked w /\ queued w /\ in_order w.

Lemma good_initial : good initial.
Proof.
  unfold good, locked, queued, in_order. cbn. split_and!; try done.
  - intros i. split; [done|by intros ?%not_elem_of_nil].
  - split; [by intros [? ?]|by intros ?%not_elem_of_nil].
  - apply NoDup_nil_2.
Qed.

(** Places where a task neither waits for the lock nor holds it. *)
Definition plain (p : place) : Prop := match p with AwaitingLock | Draining _ => False | _ => True end.

(** What matters of a place to the lock. *)
Definition at_lock (o : option place) : option place :=
  match o with Some AwaitingLock => o | Some (Draining _) => o | _ => None end.

Lemma at_lock_awaiting o : o = Some AwaitingLock <-> at_lock o = Some AwaitingLock.
Proof. by destruct o as [[]|]. Qed.

Lemma at_lock_draining o rest : o = Some (Draining rest) <-> at_lock o = Some (Draining rest).
Proof. by destruct o as [[]|]. Qed.

(** Tasks that have nothing to do with the lock go on. *)
Lemma good_same ts w : good w -> (forall j, at_lock (ts !! j) = at_lock (tasks w !! j)) -> good (w <| tasks := ts |>).
Proof.
  intros ([Hd Hh] & (Hw & Hr & Hn) & Ho) Hs.
  assert (Hdr : forall j rest, ts !! j = Some (Draining rest) <-> tasks w !! j = Some (Draining rest)).
  { intros j rest. by rewrite at_lock_draining, Hs, <- at_lock_draining. }
  split_and!.
  - split; cbn; [intros j rest; rewrite Hdr; apply Hd|]. intros t (j & rest & -> & Hj)%Hh. exists j, rest. by rewrite Hdr.
  - split_and!; [|done..]. intros j. cbn. by rewrite at_lock_awaiting, Hs, <- at_lock_awaiting.
  - unfold in_order, in_hand in *. cbn. rewrite <- Ho. do 2 f_equal.
    destruct (holder w) as [[j|]|]; try done. destruct (Hh _ eq_refl) as (j' & rest & [= <-] & Hj).
    by rewrite (proj2 (Hdr _ _) Hj), Hj.
Qed.

Lemma good_set_plain i p p' w : good w -> tasks w !! i = Some p -> plain p -> plain p' -> good (set_task i p' w).
Proof.
  intros Hg Hi Hp Hp'. apply good_same; [done|]. intros j.
  rewrite (lookup_set_task _ _ _ _ _ Hi). destruct (Nat.eqb_spec j i) as [->|]; [|done]. rewrite Hi. cbn. by destruct p, p'.
Qed.

Lemma good_shut_down w : good w -> good (shut_down w).
Proof.
  intros Hg. apply (good_same (map notify (tasks w))) in Hg; [exact Hg|]. intros j.
  rewrite list_lookup_fmap. by destruct (tasks w !! j) as [[]|].
Qed.

Lemma good_incoming w : good w -> good (w <| tasks := tasks w ++ [Connecting] |>).
Proof.
  intros Hg. apply good_same; [done|]. intros j. destruct (decide (j < length (tasks w))%nat) as [Hj|Hj].
  - by rewrite lookup_app_l.
  - rewrite lookup_app_r by lia. rewrite (lookup_ge_None_2 (tasks w) j) by lia.
    by destruct (j - length (tasks w))%nat as [|[]].
Qed.

(** The lock is free in [w], and nobody has commands in hand. *)
Lemma nobody_drains w i rest : locked w -> holder w = None -> tasks w !! i <> Some (Draining rest).
Proof. intros [Hd _] Hh Hi. specialize (Hd _ _ Hi). congruence. Qed.

Lemma take_lock_spec t w w' :
  take_lock t w = Some w' ->
  exists rest, holder w = None /\ waiters w = t :: rest /\ w' = w <| holder := Some t |> <| waiters := rest |>.
Proof.
  unfold take_lock. destruct (holder w); [done|]. destruct (waiters w) as [|t' rest]; [done|].
  destruct t as [i|], t' as [i'|]; try done; [destruct (Nat.eqb_spec i i') as [->|]; [|done]|]; intros [= <-]; eauto.
Qed.

Lemma good_take_commands i w w' : good w -> take_commands i w = Some w' -> good w'.
Proof.
  intros ([Hd Hh] & (Hw & Hr & Hn) & Ho). unfold take_commands. destruct (take_lock _ w) as [w1|] eqn:Et; [|done].
  intros [= <-]. destruct (take_lock_spec _ _ _ Et) as (ws & Hfree & Ews & ->). rewrite Ews in Hw, Hr, Hn.
  apply NoDup_cons in Hn as [Hi Hn]. assert (Hwait : tasks w !! i = Some AwaitingLock) by (apply Hw; left).
  pose proof (fun p j => lookup_set_task (tasks w) i p _ j Hwait) as Hlook.
  split_and!.
  - split.
    + intros j rest. cbn. rewrite Hlook. destruct (Nat.eqb_spec j i) as [->|]; [done|].
      intros Hj%Hd. congruence.
    + intros t [= <-]. exists i, (permission_command w). split; [done|]. cbn. rewrite Hlook.
      by rewrite Nat.eqb_refl.
  - split_and!; [|rewrite Hr; cbn; by split; [intros [?|?]%elem_of_cons|right]|done]. intros j. cbn.
    rewrite Hlook. destruct (Nat.eqb_spec j i) as [->|Hne]; [by split|].
    rewrite Hw, elem_of_cons. split; [intros [[= ->]|]; done|by right].
  - unfold in_order, in_hand in *. cbn in *. rewrite Hlook, Nat.eqb_refl. cbn. rewrite Hfree in Ho.
    exact Ho.
Qed.

Lemma good_push c w w' : good w -> reader w = Pushing c -> push_command c w = Some w' -> good w'.
Proof.
  intros (Hl & (Hw & Hr & Hn) & Ho) Ec. unfold push_command. destruct (take_lock _ w) as [w1|] eqn:Et; [|done].
  intros [= <-]. destruct (take_lock_spec _ _ _ Et) as (ws & Hfree & Ews & ->). rewrite Ews in Hw, Hn.
  apply NoDup_cons in Hn as [Hi Hn]. destruct Hl as [Hd Hh]. split_and!.
  - split; cbn; [|done]. intros j rest Hj%Hd. congruence.
  - split_and!; cbn; [|split; [by intros [? ?]|done]|done]. intros j. rewrite Hw, elem_of_cons. split; [by intros [?|?]|by right].
  - unfold in_order, in_hand, pushing in *. cbn. rewrite Hfree, Ec in Ho. cbn in *. by rewrite app_nil_r.
Qed.

Lemma good_on_line line w : good w -> reader w = Reading -> good (on_line line w).
Proof.
  intros (Hl & (Hw & Hr & Hn) & Ho) Er. unfold in_order, pushing in Ho. rewrite Er, app_nil_r in Ho.
  assert (HR : Reader ∉ waiters w) by (rewrite <- Hr, Er; by intros [? ?]).
  unfold on_line. destruct line as [line|].
  - case_bool_decide; [|destruct (parse_admin_command line) as [c|]].
    1, 3: split_and!; [done|done|unfold in_order, pushing; cbn; by rewrite Er, app_nil_r].
    split_and!; [done| |].
    + split_and!; cbn.
      * intros i. rewrite Hw, elem_of_app, list_elem_of_singleton. split; [by left|by intros [?|?]].
      * split; [|by eexists]. intros _. apply elem_of_app. right. by apply list_elem_of_singleton.
      * apply NoDup_app. split_and!; [done| |apply NoDup_singleton]. intros t Ht ->%list_elem_of_singleton. done.
    + unfold in_order, pushing. cbn. change (in_hand _) with (in_hand w). rewrite <- Ho, <- !app_assoc. done.
  - split_and!; [done| |unfold in_order, pushing; cbn; by rewrite app_nil_r]. split_and!; [done| |done]. cbn.
    split; [by intros [? ?]|done].
Qed.

Lemma good_frame_tick i w : good w -> tasks w !! i = Some Selecting -> good (ask (Session i) (set_task i AwaitingLock w)).
Proof.
  intros ([Hd Hh] & (Hw & Hr & Hn) & Ho) Hi. assert (Hni : Session i ∉ waiters w) by (rewrite <- Hw, Hi; done).
  pose proof (fun p j => lookup_set_task (tasks w) i p _ j Hi) as Hlook.
  split_and!.
  - split; cbn.
    + intros j rest. rewrite Hlook. destruct (Nat.eqb_spec j i) as [->|]; [done|]. apply Hd.
    + intros t Ht. destruct (Hh t Ht) as (j & rest & -> & Hj). exists j, rest. split; [done|]. rewrite Hlook.
      destruct (Nat.eqb_spec j i) as [->|]; [|done]. congruence.
  - split_and!; cbn.
    + intros j. rewrite Hlook, elem_of_app, list_elem_of_singleton. destruct (Nat.eqb_spec j i) as [->|Hne].
      * split; [by right|done].
      * rewrite Hw. split; [by left|by intros [?|[= ->]]].
    + rewrite Hr, elem_of_app, list_elem_of_singleton. split; [by left|by intros [?|?]].
    + apply NoDup_app. split_and!; [done| |apply NoDup_singleton]. intros t Ht ->%list_elem_of_singleton. done.
  - unfold in_order, in_hand in *. cbn. rewrite <- Ho. do 2 f_equal. destruct (holder w) as [[j|]|] eqn:Eh; try done.
    destruct (Hh _ eq_refl) as (j' & rest & [= <-] & Hj). rewrite Hlook. destruct (Nat.eqb_spec j i) as [->|]; [|done].
    congruence.
Qed.

Lemma good_command i c rest ok w :
  good w -> tasks w !! i = Some (Draining (c :: rest)) -> good (carry_out i c rest ok w).
Proof.
  intros ([Hd Hh] & (Hw & Hr & Hn) & Ho) Hi. pose proof (Hd _ _ Hi) as Eh.
  set (p := if ok then Draining rest else Ended false).
  pose proof (fun p j => lookup_set_task (tasks w) i p _ j Hi) as Hlook.
  assert (Hwait : forall j, <[i := p]> (tasks w) !! j = Some AwaitingLock <-> Session j ∈ waiters w).
  { intros j. rewrite Hlook, <- Hw. destruct (Nat.eqb_spec j i) as [->|]; [|done]. rewrite Hi. by subst p; destruct ok. }
  unfold in_order, in_hand, pushing in Ho. rewrite Eh, Hi in Ho. cbn in Ho.
  assert (Hother : forall j rest', j <> i -> tasks w !! j = Some (Draining rest') -> False).
  { intros j rest' Hj Hj'. specialize (Hd _ _ Hj'). congruence. }
  unfold carry_out. destruct ok; subst p; (split_and!; [split|split_and!; done|]); cbn.
  - intros j rest'. rewrite Hlook. destruct (Nat.eqb_spec j i) as [->|Hj]; [done|]. by intros ?%Hother.
  - intros t Ht. rewrite Eh in Ht. injection Ht as <-. exists i, rest. split; [done|]. by rewrite Hlook, Nat.eqb_refl.
  - unfold in_order, in_hand, pushing. cbn. rewrite Eh, Hlook, Nat.eqb_refl. cbn. rewrite map_app, <- app_assoc. exact Ho.
  - intros j rest'. rewrite Hlook. destruct (Nat.eqb_spec j i) as [->|Hj]; [done|]. by intros ?%Hother.
  - done.
  - unfold in_order, in_hand, pushing. cbn. rewrite map_app. cbn. rewrite map_map. cbn. rewrite map_id, <- app_assoc. exact Ho.
Qed.

Lemma good_drain_over i w :
  good w -> tasks w !! i = Some (Draining []) -> good (release_lock (set_task i Busy w)).
Proof.
  intros ([Hd Hh] & (Hw & Hr & Hn) & Ho) Hi. pose proof (Hd _ _ Hi) as Eh.
  pose proof (fun p j => lookup_set_task (tasks w) i p _ j Hi) as Hlook.
  split_and!; [split| |]; cbn.
  - intros j rest. rewrite Hlook. destruct (Nat.eqb_spec j i) as [->|Hj]; [done|]. intros Hj'. specialize (Hd _ _ Hj'). congruence.
  - done.
  - split_and!; [|done..]. cbn. intros j. rewrite Hlook, <- Hw. destruct (Nat.eqb_spec j i) as [->|]; [|done]. by rewrite Hi.
  - unfold in_order, in_hand, pushing in *. rewrite Eh, Hi in Ho. exact Ho.
Qed.

Lemma good_step s w w' : good w -> step_of s w = Some w' -> good w'.
Proof.
  intros Hg. destruct s; cbn [step_of]; try case_guard as Hc; try done;
    try (intros [= <-]; exact Hg || (by apply good_incoming) || (by apply good_shut_down)).
  - intros [= <-]. by apply good_on_line.
  - intros [= <-]. by apply (good_on_line None); [|apply Hc].
  - destruct (reader w) eqn:Er; try done. by apply good_push.
  - intros [= <-]. destruct Hc as [Hi _]. by destruct ok; eapply good_set_plain.
  - intros [= <-]. destruct Hc as [Hi _]. by destruct ok; eapply good_set_plain.
  - intros [= <-]. by eapply good_set_plain.
  - intros [= <-]. by apply good_frame_tick.
  - by apply good_take_commands.
  - destruct (tasks w !! i) as [[]|] eqn:Hi; try done. destruct rest as [|c rest]; [done|]. case_guard; [|done].
    intros [= <-]. by apply good_command.
  - intros [= <-]. by apply good_drain_over.
  - intros [= <-]. by eapply good_set_plain.
  - intros [= <-]. by eapply good_set_plain.
  - intros [= <-]. destruct Hc as [Hi _]. exact (good_set_plain i Notified (Ended true) w Hg Hi I I).
Qed.

Lemma run_good steps w : run steps initial = Some w -> good w.
Proof. apply run_keeps; [|apply good_initial]. intros s w1 w2 Hg _. by apply good_step. Qed.

(** ** The shutdown *)

Lemma push_same c w w' :
  push_command c w = Some w' ->
  main w' = main w /\ open w' = open w /\ tasks w' = tasks w /\ told w' = told w /\ timed_out w' = timed_out w /\
  handled w' = handled w.
Proof.
  unfold push_command. destruct (take_lock _ w) eqn:E; [|done]. intros [= <-].
  destruct (take_lock_spec _ _ _ E) as (? & _ & _ & ->). done.
Qed.

Lemma take_same i w w' :
  take_commands i w = Some w' ->
  main w' = main w /\ open w' = open w /\ tasks w' = <[i := Draining (permission_command w)]> (tasks w) /\
  told w' = told w /\ timed_out w' = timed_out w /\ handled w' = handled w.
Proof.
  unfold take_commands. destruct (take_lock _ w) eqn:E; [|done]. intros [= <-].
  destruct (take_lock_spec _ _ _ E) as (? & _ & _ & ->). done.
Qed.

Lemma line_same line w :
  main (on_line line w) = main w /\ open (on_line line w) = open w /\ tasks (on_line line w) = tasks w /\
  told (on_line line w) = told w /\ timed_out (on_line line w) = timed_out w /\ handled (on_line line w) = handled w.
Proof. unfold on_line. destruct line; [|done]. case_bool_decide; [done|]. by destruct (parse_admin_command _). Qed.

(** A session goes on. *)
Lemma phases_set i p w w' :
  phases w -> main w <> Stopped -> p <> Notified ->
  main w' = main w /\ open w' = open w /\ tasks w' = <[i := p]> (tasks w) /\ told w' = told w -> phases w'.
Proof.
  intros (Hc & _ & Hl) Hm Hp (Em & Eo & Et & Ed). unfold phases. rewrite Em, Eo, Et, Ed. split_and!; [done..|].
  intros [? ?]%Hl. split; [done|]. by apply Forall_insert.
Qed.

Ltac goes_on := eapply phases_set; [eassumption|eassumption| |split_and!; (eassumption || reflexivity)]; done.

Lemma phases_step s w w' : phases w -> main w <> Stopped -> step_of s w = Some w' -> phases w'.
Proof.
  intros Hp Hm. pose proof Hp as (Hc & Hj & Hl).
  destruct s; cbn [step_of]; try case_guard as Hg; try done; cbn; destruct_and?;
    try (intros [= <-]; unfold phases; cbn; split_and!; intros; destruct_and?; done || congruence || tauto).
  - intros [= <-]. unfold phases. cbn. split_and!; [tauto|by intros|]. intros [? ?]%Hl. split; [done|].
    by apply Forall_app_2; [|repeat constructor].
  - intros [= <-]. unfold phases. cbn. by split_and!; [intros [?|?]|..].
  - intros [= <-]. unfold phases. by destruct (line_same line w) as (-> & -> & -> & -> & -> & _).
  - destruct (reader w); try done. intros (Em & Eo & Et & Ed & Eq & _)%push_same. unfold phases. by rewrite Em, Eo, Et, Ed, Eq.
  - intros [= <-]. destruct ok; goes_on.
  - intros [= <-]. destruct ok; goes_on.
  - intros [= <-]. goes_on.
  - intros [= <-]. goes_on.
  - intros (? & ? & ? & ? & _)%take_same. goes_on.
  - destruct (tasks w !! i) as [[]|]; try done. destruct rest as [|c rest]; [done|]. case_guard; [|done].
    intros [= <-]. destruct ok; goes_on.
  - intros [= <-]. goes_on.
  - intros [= <-]. goes_on.
  - intros [= <-]. goes_on.
  - intros [= <-]. unfold phases. cbn. split_and!; [done|by intros|]. intros [_ Hn]%Hl.
    rewrite Forall_lookup in Hn. by eapply Hn in H.
Qed.

Lemma run_phases steps w : run steps initial = Some w -> phases w.
Proof. apply run_keeps; [apply phases_step|]. by split_and!; [intros [?|?]|..]. Qed.

(** Behind a closed endpoint nobody is told anything. *)
Lemma run_told steps w w' : open w = false -> told w = [] -> run steps w = Some w' -> told w' = [].
Proof.
  intros Ho Ht Hr. assert (open w' = false /\ told w' = []) as [_ ?]; [|done].
  eapply (run_keeps (fun w => open w = false /\ told w = [])), Hr; [|done]. clear. intros s w w' [Ho Ht] _.
  destruct s; cbn [step_of]; try case_guard as Hg; try done; destruct_and?; try (intros [= <-]; by destruct ok || done).
  - intros [= <-]. by destruct (line_same line w) as (_ & -> & _ & -> & _).
  - destruct (reader w); try done. by intros (_ & -> & _ & -> & _)%push_same.
  - by intros (_ & -> & _ & -> & _)%take_same.
  - destruct (tasks w !! i) as [[]|]; try done. destruct rest as [|c rest]; [done|]. case_guard; [|done].
    intros [= <-]. by destruct ok.
  - intros [= <-]. rewrite Ho in H0. by destruct ok.
Qed.

(** ** The lock *)

(** Whose step it is. *)
Definition actor (s : step) : option nat :=
  match s with
  | Connected i _ | SetUp i _ _ | OtherArm i | FrameTick i | TakeCommands i | Command i _ | DrainOver i
  | BackToSelect i | Leave i _ | Goodbye i _ => Some i
  | _ => None
  end.

(** Session [i] has the lock and goes no further; [js] wait for it. *)
Definition stalled (i : nat) (js : list nat) (h : list (nat * AdminCommand * bool)) (w : server) : Prop :=
  holder w = Some (Session i) /\ Forall (fun j => tasks w !! j = Some AwaitingLock) js /\ handled w = h.

Lemma awaiting_set js k p q (ts : list place) :
  Forall (fun j => ts !! j = Some AwaitingLock) js -> ts !! k = Some q -> q <> AwaitingLock ->
  Forall (fun j => <[k := p]> ts !! j = Some AwaitingLock) js.
Proof.
  intros Hf Hk Hq. eapply Forall_impl; [exact Hf|]. cbn. intros j Hj. rewrite list_lookup_insert_ne; [done|congruence].
Qed.

Lemma awaiting_map js f (ts : list place) :
  f AwaitingLock = AwaitingLock ->
  Forall (fun j => ts !! j = Some AwaitingLock) js -> Forall (fun j => map f ts !! j = Some AwaitingLock) js.
Proof. intros Hf H. eapply Forall_impl; [exact H|]. cbn. intros j Hj. rewrite list_lookup_fmap, Hj. cbn. by rewrite Hf. Qed.

Lemma awaiting_app js (ts ts' : list place) :
  Forall (fun j => ts !! j = Some AwaitingLock) js -> Forall (fun j => (ts ++ ts') !! j = Some AwaitingLock) js.
Proof. intros H. eapply Forall_impl; [exact H|]. cbn. intros j Hj. by apply lookup_app_l_Some. Qed.

Lemma stalled_step i js h s w w' :
  good w -> stalled i js h w -> actor s <> Some i -> step_of s w = Some w' -> stalled i js h w'.
Proof.
  intros ([Hd _] & _) (Hh & Hj & He) Ha.
  destruct s; cbn [step_of]; try case_guard as Hg; try done; destruct_and?;
    try (intros [= <-]; split_and!; try done; cbn; (by eapply awaiting_set) || (by apply awaiting_map) || by apply awaiting_app).
  - intros [= <-]. unfold stalled. destruct (line_same line w) as (_ & _ & -> & _ & _ & ->). split_and!; [|done..].
    unfold on_line. destruct line; [|done]. case_bool_decide; [done|]. by destruct (parse_admin_command _).
  - destruct (reader w); try done. unfold push_command, take_lock. by rewrite Hh.
  - unfold take_commands, take_lock. by rewrite Hh.
  - destruct (tasks w !! i0) as [[]|] eqn:Ei; try done. apply Hd in Ei. cbn in Ha. congruence.
  - intros _. exfalso. pose proof (Hd _ _ Hg). cbn in Ha. congruence.
Qed.

(** * Theorems *)

(** C15: Every command that is typed is taken by one session, in the order of typing;
    only one session at a time has commands in hand; and whoever has waited longest
    for the lock can go on once it is free. *)
Theorem commands_go_to_one_session steps w :
  run steps initial = Some w ->
  map (fun h => h.1.2) (handled w) ++ in_hand w ++ permission_command w ++ pushing w = typed w /\
  (forall i j rest rest',
    tasks w !! i = Some (Draining rest) -> tasks w !! j = Some (Draining rest') -> i = j) /\
  (forall t others, main w <> Stopped -> holder w = None -> waiters w = t :: others ->
    exists s w', next s w = Some w' /\ waiters w' = others).
Proof.
  intros ([Hd Hh] & (Hw & Hr & Hn) & Ho)%run_good. split_and!; [exact Ho| |].
  - intros i j rest rest' Hi%Hd Hj%Hd. congruence.
  - intros t others Hm Hf Et.
    assert (Hs : forall s, next s w = step_of s w) by (intros s; unfold next; by destruct (main w)).
    destruct t as [i|].
    + assert (Hi : tasks w !! i = Some AwaitingLock) by (apply Hw; rewrite Et; left).
      exists (TakeCommands i). eexists. rewrite Hs. cbn [step_of]. rewrite option_guard_True by exact Hi.
      unfold take_commands, take_lock. rewrite Hf, Et, Nat.eqb_refl. cbn. by split.
    + destruct (proj2 Hr) as [c Ec]; [rewrite Et; left|].
      exists Push. eexists. rewrite Hs. cbn [step_of]. rewrite Ec. unfold push_command, take_lock. rewrite Hf, Et. cbn. by split.
Qed.

(** While a session carries out commands and gets no further, because its peer does
    not read, nobody who waits for the lock gets it, whatever the rest of the server
    does, and no command is carried out anywhere: a shutdown does not reach those
    sessions either. *)
Theorem one_peer_stalls_the_others steps steps' i js w w' :
  run steps initial = Some w -> holder w = Some (Session i) ->
  Forall (fun j => tasks w !! j = Some AwaitingLock) js ->
  Forall (fun s => actor s <> Some i) steps' -> run steps' w = Some w' ->
  Forall (fun j => tasks w' !! j = Some AwaitingLock) js /\ handled w' = handled w.
Proof.
  intros Hg%run_good Hh Hj Ha. revert w' . assert (Hst : stalled i js (handled w) w) by done.
  revert Hg Hst. generalize (handled w) as h. clear Hh Hj. revert w. induction Ha as [|s steps' Hs _ IH]; intros w h Hg Hst w'; cbn.
  - intros [= <-]. by destruct Hst as (_ & ? & ?).
  - unfold next. destruct (main w); try done; destruct (step_of s w) as [w1|] eqn:E; try done; cbn; intros Hr;
      (eapply IH; [by eapply good_step|by eapply stalled_step|exact Hr]).
Qed.

(** The shutdown: once the server has stopped the endpoint is closed, and every task
    is over unless the five seconds ran out; wherever it stands, it can stop.  A
    session learns of the shutdown only if it waits for it at that moment, and the
    endpoint is closed right behind the notification: then no session tells its
    peer. *)
Theorem shutdown_ends steps w :
  run steps initial = Some w ->
  (main w = Stopped -> open w = false /\ (timed_out w = false -> forallb ended (tasks w) = true)) /\
  (main w <> Stopped -> exists rest w', run rest w = Some w' /\ main w' = Stopped) /\
  (forall before after, steps = before ++ Signal :: CloseEndpoint :: after -> told w = []).
Proof.
  intros Hr. destruct (run_phases _ _ Hr) as (Hc & Hj & Hl). split_and!.
  - intros Hs. split; [by apply Hc; right|by apply Hj].
  - intros Hm. destruct (main w) eqn:Em; [| | |done].
    + exists [Signal; CloseEndpoint; JoinTimesOut]. eexists. cbn. unfold next. rewrite Em. cbn. rewrite Em. cbn. by split.
    + exists [CloseEndpoint; JoinTimesOut]. eexists. cbn. unfold next. rewrite Em. cbn. rewrite Em. cbn. by split.
    + exists [JoinTimesOut]. eexists. cbn. unfold next. rewrite Em. cbn. rewrite Em. cbn. by split.
  - intros before after ->. rewrite run_app in Hr. destruct (run before initial) as [w1|] eqn:E1; [|done].
    destruct (run_phases _ _ E1) as (_ & _ & Hl1). cbn [run mbind option_bind] in Hr.
    destruct (next Signal w1) as [w2|] eqn:E2; [|done]. cbn [mbind option_bind] in Hr.
    destruct (next CloseEndpoint w2) as [w3|] eqn:E3; [|done]. cbn [mbind option_bind] in Hr.
    assert (main w1 = Listening /\ w2 = shut_down w1) as [Hm ->].
    { unfold next in E2. destruct (main w1) eqn:Em; try done; cbn in E2; rewrite Em in E2; cbn in E2; (discriminate E2 || by injection E2 as <-). }
    assert (w3 = shut_down w1 <| open := false |> <| main := Joining |>) as ->.
    { cbn in E3. by injection E3 as <-. }
    eapply run_told, Hr; [done|]. by apply Hl1.
Qed.

(** * Examples *)

Module Examples.
(** Two clients are connected and in their loops. *)
Definition two_clients : list step :=
  [Incoming; Incoming; Connected 0 true; Connected 1 true; SetUp 0 true true; SetUp 1 true true].

Definition revoke_view : AdminCommand := TogglePermission bit.VIEW false.

(** [revoke-view] reaches the session that ticks first, and no other. *)
Example one_of_two :
  (fun w => (handled w, tasks w))
  <$> run (two_clients ++ [Line (Some (chars "revoke-view")); Push; FrameTick 1; TakeCommands 1; Command 1 true; DrainOver 1;
       BackToSelect 1; FrameTick 0; TakeCommands 0; DrainOver 0]) initial
  = Some ([(1%nat, revoke_view, true)], [Busy; Selecting]).
Proof. vm_compute. done. Qed.

(** The first client's peer does not read: the second session waits for the lock,
    the reader too, and the shutdown has to run into its five seconds. *)
Definition stalling : list step :=
  two_clients ++ [Line (Some (chars "revoke-view")); Push; FrameTick 0; TakeCommands 0; FrameTick 1;
    Line (Some (chars "grant-view"))].

Example stalled_server :
  (fun w => (tasks w, waiters w, main w, timed_out w))
  <$> run (stalling ++ [Signal; CloseEndpoint; JoinTimesOut]) initial
  = Some ([Draining [revoke_view]; AwaitingLock], [Session 1; Reader], Stopped, true).
Proof. vm_compute. done. Qed.

(** A write that fails takes the commands behind it along. *)
Example rest_is_lost :
  (fun w => (handled w, tasks w))
  <$> run (two_clients ++ [Line (Some (chars "revoke-view")); Push; Line (Some (chars " grant-view ")); Push; FrameTick 0;
       TakeCommands 0; Command 0 false]) initial
  = Some ([(0%nat, revoke_view, false); (0%nat, TogglePermission bit.VIEW true, false)], [Ended false; Selecting]).
Proof. vm_compute. done. Qed.

(** Only a session that gets in between is told to its peer. *)
Example told_in_between :
  told <$> run (two_clients ++ [Signal; Goodbye 0 true; CloseEndpoint; Goodbye 1 false; AllJoined]) initial = Some [0%nat].
Proof. vm_compute. done. Qed.

(** A session in the middle of an arm does not learn of the shutdown. *)
Example not_waiting :
  (fun w => tasks w) <$> run (two_clients ++ [OtherArm 0; Signal; BackToSelect 0]) initial = Some [Selecting; Notified].
Proof. vm_compute. done. Qed.

Definition stopped : list step :=
  two_clients ++ [Signal; CloseEndpoint; Goodbye 0 false; Goodbye 1 false; AllJoined].

Definition state_after (steps : list step) : server := default initial (run steps initial).

Lemma commands_go_to_one_session_witness :
  in_hand (state_after stalling) ++ permission_command (state_after stalling) ++ pushing (state_after stalling)
  = [revoke_view; TogglePermission bit.VIEW true].
Proof.
  assert (Hr : run stalling initial = Some (state_after stalling)) by (vm_compute; reflexivity).
  pose proof (proj1 (commands_go_to_one_session stalling _ Hr)) as H. vm_compute in H. vm_compute. exact H.
Defined.

Lemma one_peer_stalls_the_others_witness :
  handled (state_after (stalling ++ [Signal; CloseEndpoint])) = [].
Proof.
  assert (Hr : run stalling initial = Some (state_after stalling)) by (vm_compute; reflexivity).
  assert (Hr' : run [Signal; CloseEndpoint] (state_after stalling) = Some (state_after (stalling ++ [Signal; CloseEndpoint])))
    by (vm_compute; reflexivity).
  refine (proj2 (one_peer_stalls_the_others stalling _ 0 [1%nat] _ _ Hr _ _ _ Hr')); [vm_compute; reflexivity| |];
    repeat constructor; discriminate.
Defined.

Lemma shutdown_ends_witness :
  main (state_after stopped) = Stopped /\ open (state_after stopped) = false /\
  forallb ended (tasks (state_after stopped)) = true /\ told (state_after stopped) = [].
Proof.
  assert (Hr : run stopped initial = Some (state_after stopped)) by (vm_compute; reflexivity).
  assert (Hm : main (state_after stopped) = Stopped) by (vm_compute; reflexivity).
  destruct (shutdown_ends stopped _ Hr) as (Hs & _ & Ht). destruct (Hs Hm) as [Ho Hj].
  split; [exact Hm|]. split; [exact Ho|]. split; [apply Hj; vm_compute; reflexivity|].
  exact (Ht two_clients [Goodbye 0 false; Goodbye 1 false; AllJoined] eq_refl).
Defined.
End Examples.
