(* ===== verification/AudioTone.v ===== *)
(** The tone that stands in for captured sound: the model of
    [generate_sine_wave_payload] in [src/src/audio_session.rs], in binary64.  The
    sine is the platform's, whose precision Rust leaves open; of it only the value
    at zero and at a [NaN] matter here. *)

From S2P Require Import Prelude.
From S2P Require Import Float64.

(** * Definitions *)

(** [f64::sin] at zero and at a [NaN]. *)
Class Sine := {
  sin : f64 -> f64;
  sin_zero s : sin (S754_zero s) = S754_zero s;
  sin_nan : sin S754_nan = S754_nan;
}.

(** [std::f64::consts::PI]. *)
Definition PI : f64 := S754_finite false 7074237752028440 (-51).

Definition as_i16 : f64 -> Z := as_int (- 2 ^ 15) (2 ^ 15 - 1).

Section tone.
Context `{Sine}.

Definition sample (sample_rate : Z) (frequency_hz : f64) (i : Z) : Z :=
  let t := fdiv (f64_of i) (f64_of sample_rate) in
  let half := fdiv (f64_of 1) (f64_of 2) in
  as_i16 (fmul (fmul (f64_of (2 ^ 15 - 1)) half) (sin (fmul (fmul (fmul (f64_of 2) PI) frequency_hz) t))).

(** Two bytes for each sample. *)
Definition generate_sine_wave_payload (samples : nat) (sample_rate : Z) (frequency_hz : f64) : list Z :=
  flat_map (fun i => le_bytes 2 (sample sample_rate frequency_hz (Z.of_nat i))) (seq 0 samples).

(** * Lemmas *)

Definition zero_or_nan (x : f64) : Prop := match x with S754_zero _ | S754_nan => True | _ => False end.

Lemma fmul_zero_or_nan x y : zero_or_nan y -> zero_or_nan (fmul x y).
Proof. by destruct y, x. Qed.

Lemma zero_fdiv_zero_or_nan s x : zero_or_nan (fdiv (S754_zero s) x).
Proof. by destruct x. Qed.

Lemma sin_zero_or_nan x : zero_or_nan x -> zero_or_nan (sin x).
Proof. destruct x; try done; intros _; [by rewrite sin_zero|by rewrite sin_nan]. Qed.

Lemma as_i16_zero_or_nan x : zero_or_nan x -> as_i16 x = 0.
Proof. by destruct x. Qed.

(** * Theorems *)

(** The payload has two bytes for each sample, and read back each sample is a
    16-bit number; the first is zero, whatever the rate and the frequency, even if
    they are no numbers. *)
Theorem tone_is_pcm samples sample_rate frequency_hz :
  let payload := generate_sine_wave_payload samples sample_rate frequency_hz in
  length payload = (2 * samples)%nat /\ bytes_ok payload /\
  (forall i, (i < samples)%nat ->
    - 2 ^ 15 <= sample sample_rate frequency_hz (Z.of_nat i) < 2 ^ 15 /\
    take 2 (drop (2 * i) payload) = le_bytes 2 (sample sample_rate frequency_hz (Z.of_nat i))) /\
  ((0 < samples)%nat -> take 2 payload = [0; 0]).
Proof.
  intros payload. unfold payload, generate_sine_wave_payload. clear payload.
  assert (Hlook : forall n k i, (i < n)%nat ->
    take 2 (drop (2 * i) (flat_map (fun i => le_bytes 2 (sample sample_rate frequency_hz (Z.of_nat i))) (seq k n)))
    = le_bytes 2 (sample sample_rate frequency_hz (Z.of_nat (k + i)))).
  { intros n. induction n as [|n IH]; intros k i Hi; [lia|]. destruct i as [|i]; [by rewrite Nat.add_0_r|].
    replace (k + S i)%nat with (S k + i)%nat by lia. rewrite <- IH by lia. replace (2 * S i)%nat with (S (S (2 * i))) by lia.
    done. }
  split_and!.
  - rewrite (flat_map_constant_length (c := 2%nat)) by (intros; apply length_le_bytes). rewrite length_seq. lia.
  - unfold bytes_ok. apply Forall_flat_map, List.Forall_forall. intros i _. apply le_bytes_ok.
  - intros i Hi. split.
    + pose proof (as_int_bounds (- 2 ^ 15) (2 ^ 15 - 1)) as Hb. unfold sample, as_i16.
      match goal with |- _ <= as_int _ _ ?x < _ => specialize (Hb x) end. lia.
    + by apply Hlook.
  - intros Hs. specialize (Hlook samples 0%nat 0%nat Hs). change (2 * 0)%nat with 0%nat in Hlook. rewrite drop_0 in Hlook. rewrite Hlook.
    assert (sample sample_rate frequency_hz (Z.of_nat (0 + 0)) = 0) as -> by (apply as_i16_zero_or_nan, fmul_zero_or_nan, sin_zero_or_nan,
      fmul_zero_or_nan, zero_fdiv_zero_or_nan).
    done.
Qed.
End tone.

(** * Examples *)

Module Examples.
(** At its peak the tone has half the amplitude. *)
#[local] Instance square : Sine := {|
  sin x := match x with S754_finite s _ _ => if s then f64_of (-1) else f64_of 1 | S754_infinity _ => S754_nan | _ => x end;
  sin_zero _ := eq_refl; sin_nan := eq_refl |}.

Example half_amplitude : generate_sine_wave_payload 3 48000 (f64_of 440) = [0; 0; 255; 63; 255; 63].
Proof. vm_compute. done. Qed.

Example no_rate : generate_sine_wave_payload 2 0 (f64_of 440) = [0; 0; 0; 0].
Proof. vm_compute. done. Qed.
End Examples.
