(* ===== verification/Fuzz.v ===== *)
(** The fuzz targets: the model of [src/fuzz/fuzz_targets/envelope_parse_stream.rs],
    which parses a buffer envelope by envelope and panics if the parser does not get
    on.  The other two targets call a parser and look at nothing; that the parsers
    return is that they are functions. *)

From S2P Require Import Prelude.
From S2P Require Import StreamKind.
From S2P Require Envelope.

(** * Definitions *)

Definition KINDS : list StreamKind := [Control; Input; Video; Feedback; Clipboard; File; AudioPlayback; AudioCapture].

Definition MAX_ITERATIONS : nat := 10 * 1000.

Definition limit (selector : Z) : Z :=
  max_envelope_length (nth (Z.to_nat selector mod length KINDS) KINDS Control).

(** The loop, which panics when it is through with its turns. *)
Fixpoint parse_stream (turns : nat) (max_length : Z) (buf : list Z) : outcome unit :=
  match turns with
  | O => Panicked
  | S turns =>
      match Envelope.parse buf max_length with
      | Ok (Some (_, consumed)) =>
          if negb ((0 <? consumed)%nat && (consumed <=? length buf)%nat) then Panicked
          else
            match drop consumed buf with
            | [] => Done tt
            | buf => parse_stream turns max_length buf
            end
      | Ok None | Err _ => Done tt
      end
  end.

Definition envelope_parse_stream (data : list Z) : outcome unit :=
  match data with
  | [] => Done tt
  | selector :: buf => parse_stream MAX_ITERATIONS (limit selector) buf
  end.

(** * Lemmas *)

(** The envelopes at the beginning of a buffer, as many as the target looks at. *)
Inductive starts_with (max_length : Z) : nat -> list Z -> list Z -> Prop :=
| StartsHere buf : starts_with max_length 0 buf buf
| StartsThere n buf env consumed rest :
    Envelope.parse buf max_length = Ok (Some (env, consumed)) ->
    starts_with max_length n (drop consumed buf) rest -> starts_with max_length (S n) buf rest.

Lemma starts_with_length max_length n buf rest :
  bytes_ok buf -> starts_with max_length n buf rest -> (length rest + 3 * n <= length buf)%nat.
Proof.
  intros Hok H. revert Hok. induction H as [|n buf env consumed rest Hp _ IH]; intros Hok; [lia|].
  assert (Hd : bytes_ok (drop consumed buf)) by (by apply Forall_drop). specialize (IH Hd).
  rewrite length_drop in IH. pose proof (Envelope.parse_bounds _ _ _ _ Hok Hp). lia.
Qed.

(** The loop panics exactly when it runs out of turns, on envelopes one and all. *)
Lemma parse_stream_panics turns max_length buf :
  bytes_ok buf -> buf <> [] ->
  parse_stream turns max_length buf = Panicked <->
  exists rest, starts_with max_length turns buf rest /\ rest <> [].
Proof.
  revert buf. induction turns as [|turns IH]; intros buf Hok Hne; cbn [parse_stream].
  { split; [intros _; by exists buf; split; [constructor|]|done]. }
  destruct (Envelope.parse buf max_length) as [[[env consumed]|]|e] eqn:Ep.
  2, 3: split; [done|]; intros (rest & Hs & _); inversion Hs; congruence.
  pose proof (Envelope.parse_bounds _ _ _ _ Hok Ep) as ([H3 Hle] & _).
  rewrite (proj2 (Nat.ltb_lt _ _)) by lia. rewrite (proj2 (Nat.leb_le _ _)) by lia. cbn [negb andb].
  assert (Hd : bytes_ok (drop consumed buf)) by (by apply Forall_drop).
  assert (Hs : forall rest, starts_with max_length (S turns) buf rest <-> starts_with max_length turns (drop consumed buf) rest).
  { intros rest. split; [inversion 1; subst|by econstructor].
    match goal with H : Envelope.parse buf _ = _ |- _ => rewrite Ep in H; by injection H as <- <- end. }
  setoid_rewrite Hs. destruct (drop consumed buf) as [|b buf'] eqn:Eb.
  - split; [done|]. intros (rest & Hr & Hn). apply starts_with_length in Hr; [|done]. destruct rest; [done|]. cbn in Hr. lia.
  - by apply IH.
Qed.

(** * Theorems *)

(** The assertion of the target never fails: it panics exactly on an input that
    goes on behind ten thousand envelopes, which has more than thirty thousand
    bytes. *)
Theorem stream_target_panics data :
  bytes_ok data ->
  (envelope_parse_stream data = Panicked <->
   exists selector buf rest,
     data = selector :: buf /\ starts_with (limit selector) MAX_ITERATIONS buf rest /\ rest <> []) /\
  ((length data <= 3 * MAX_ITERATIONS + 1)%nat -> envelope_parse_stream data = Done tt).
Proof.
  intros Hok. assert (Hiff : envelope_parse_stream data = Panicked <->
   exists selector buf rest,
     data = selector :: buf /\ starts_with (limit selector) MAX_ITERATIONS buf rest /\ rest <> []).
  { destruct data as [|selector buf].
    { split; [done|]. by intros (? & ? & ? & ? & _). }
    apply Forall_cons in Hok as [_ Hok]. unfold envelope_parse_stream. destruct buf as [|b buf].
    - split; [done|]. intros (? & ? & rest & [= <- <-] & Hs & _). apply starts_with_length in Hs; [|done].
      unfold MAX_ITERATIONS in Hs. cbn [length] in Hs. lia.
    - rewrite parse_stream_panics by done. split; [naive_solver|]. intros (? & ? & rest & [= <- <-] & ?). by exists rest. }
  split; [exact Hiff|]. intros Hl. destruct (envelope_parse_stream data) as [[]|] eqn:E; [done|exfalso].
  destruct (proj1 Hiff eq_refl) as (selector & buf & rest & -> & Hs & Hn). apply Forall_cons in Hok as [_ Hok].
  apply starts_with_length in Hs; [|done]. destruct rest; [done|]. cbn [length] in *. lia.
Qed.

(** * Examples *)

Module Examples.
(** Empty messages. *)
Definition empty_messages (n : nat) : list Z := 0 :: mjoin (replicate n [0; 1; 0]).

Example well_formed_input_panics : envelope_parse_stream (empty_messages 10001) = Panicked.
Proof. vm_compute. done. Qed.

Example within_the_cap : envelope_parse_stream (empty_messages 10000) = Done tt.
Proof. vm_compute. done. Qed.

Lemma stream_target_panics_witness : envelope_parse_stream [7; 0; 1; 0; 2; 3] = Done tt.
Proof.
  apply (stream_target_panics [7; 0; 1; 0; 2; 3]); [repeat constructor; done|]. unfold MAX_ITERATIONS. cbn [length]. lia.
Defined.
End Examples.
